(* ===== verification/_CoqProject ===== *)
-Q . S2P
Prelude.v
Disk.v
Subr.v
Bmap.v
Freemap.v
FreemapProof.v
Recovery.v
Bulkfree.v
BulkfreePass.v
BulkfreeScan.v
BulkfreeProof.v
BulkfreeSafety.v
BulkfreeWindow.v
BlockTable.v
BlockTableProof.v
BlockView.v
Indirect.v
IndirectProof.v
IndirectMove.v
IndirectSplit.v
ChainTree.v
ChainTreeProof.v
ChainCreate.v
ChainCreateProof.v
Collapse.v
CollapseProof.v
ChainData.v
ChainDataProof.v
Dio.v
DioProof.v
Trans.v
Volume.v
VolumeProof.v
VolumeMount.v
Cluster.v
ClusterProof.v
Xop.v
XopProof.v
XopDep.v
Ccms.v
