(* ===== verification/Prelude.v ===== *)
(** HAMMER2: a verification library for the Linux port of the file system
    (src/sys/fs/hammer2).

    * The program

    A HAMMER2 volume is a tree of block references: volume header, inodes,
    indirect blocks, directory entries and data.  A second tree, the freemap,
    says for every 16KB block whether it is free.  The parts modelled here are
    - the block allocator (hammer2_freemap.c), which hands out space and never
      frees any;
    - the bulk free (hammer2_bulkfree.c), which scans the tree and returns the
      blocks nobody refers to, in two passes, while the allocator goes on;
    - the block tables (hammer2_chain.c), the sorted arrays of block references
      in inodes and indirect blocks with the elements in memory over them, the
      indirect blocks that full tables are split into and that empty ones are
      merged from, and the lookups, creations and deletions in the tree of them;
    - the data of the chains (hammer2_chain.c), how it is loaded, tested against
      its check code, and copied on write when it is modified;
    - the device buffers (hammer2_io.c), which give the chains the bytes of a
      block through the page cache of the kernel;
    - the volumes (hammer2_ondisk.c), whose headers a mount reads and checks, and
      the flush of the header (hammer2_flush.c), which makes a state of the tree
      the one that a mount finds after a crash;
    - the transactions (hammer2_flush.c), which keep two flushes apart;
    - the cluster check (hammer2_cluster.c), which decides whether enough of
      the masters of a PFS agree on an element;
    - the XOPs (hammer2_admin.c), which run an operation on every element of a
      cluster, collect what the elements feed, and keep operations on the same
      inode apart;
    - the CCMS lock (hammer2_ccms.c), a shared and exclusive lock with
      recursion and upgrades;
    - the conversions and sizes the others use (hammer2_subr.c, hammer2.h,
      hammer2_disk.h).

    * The files

    Definitions come in the files named after a component, theorems about
    larger ones in files of their own.
    - Prelude: machine integers as [Z] with their wrap-around, bit fields,
      arrays, the 2-bit entries of a bitmap word, counting.
    - Disk: constants and structures of hammer2_disk.h, error flags of hammer2.h.
    - Subr: modules ObjType, Errno, Time, Xid, Dirhash and Sizes, one for each
      group of functions of hammer2_subr.c and the error conversions.
    - Bmap: hammer2_bmap_alloc(), the allocator of one 4MB segment.  Its state
      is the [hammer2_bmap_data] of the source.  It refines a ledger of
      disjoint extents.
    - Freemap: modules Reserve (hammer2_freemap_reserve), Leaf
      (hammer2_freemap_init), Scan (the segments of a leaf) and Alloc
      (hammer2_freemap_alloc, hammer2_freemap_try_alloc and
      hammer2_freemap_adjust), over a device with its leaves in a map;
      FreemapProof and Recovery have their theorems.
    - Bulkfree: modules Gather (the callback of the scan, h2_bulkfree_callback)
      and Sync (the synchronization of a segment, h2_bulkfree_sync_adjust, and
      bigmask_get).
      BulkfreePass: modules Dedup (h2_bulkfree_test), TopoScan
      (hammer2_bulkfree_scan), SyncWindow (h2_bulkfree_sync) and Pass
      (hammer2_bulkfree_pass).  BulkfreeScan, BulkfreeProof, BulkfreeSafety and
      BulkfreeWindow have their theorems.
    - BlockTable: the search, insertion and deletion in a block table and the
      search over the table and the children in memory.  BlockTableProof and
      BlockView have their theorems.
      Indirect: the range of a new indirect block (hammer2_chain_indkey_freemap,
      _file and _dir) and hammer2_chain_create_indirect(); IndirectProof,
      IndirectMove and IndirectSplit.
      ChainTree: hammer2_chain_lookup() and hammer2_chain_next() on a cursor
      into a tree of chains; ChainTreeProof.
      ChainCreate: hammer2_chain_create() and hammer2_chain_delete() at a cursor;
      ChainCreateProof.  Collapse: hammer2_chain_indirect_maintenance();
      CollapseProof.
      ChainData: hammer2_chain_load_data(), _modify(), _resize(), _setcheck() and
      _testcheck() on one chain, over the allocator of Freemap and the bytes of
      the device; ChainDataProof.
    - Dio: the buffers of a device in their hash, over the page cache as a class of
      its own ([PageCache]); DioProof has the laws of the page cache, an instance
      of them, the threads as a transition system and the theorems.
    - Trans: hammer2_trans_init(), _done(), _setflags() and _clearflags() on the
      flags of a PFS, and its threads as a transition system.
      Volume: the bytes of a volume header, hammer2_read_volume_header(),
      hammer2_verify_volumes() and hammer2_init_volumes(), and
      hammer2_xop_inode_flush() with the flush of vchain and fchain on a record with
      the fields of [hammer2_dev_t] it uses; VolumeProof has the theorems of the
      flush, VolumeMount those of the table of volumes, against the interface of Dio.
    - Cluster: hammer2_cluster_check(), a definition for each of its passes;
      ClusterProof.
    - Xop: the FIFOs, hammer2_xop_alloc, _start_except, _feed, _collect and
      _retire on a record with the fields of [hammer2_xop_head]; XopProof.
      XopDep: the inode dependencies (xop_testset_ipdep, xop_unset_ipdep, and
      the parts of start and retire that call them) as threads in any
      interleaving.
    - Ccms: the lock, and its threads as a transition system.

    * What the theorems show

    Allocator: extents handed out are disjoint and inside the usable area
    (freemap_alloc_disjoint, bmap_alloc_refines_ledger); ENOSPC is returned
    exactly when nothing fits (freemap_alloc_enospc_exact); the search ends
    (freemap_alloc_terminates); the effect of every step is exact
    (bmap_alloc_exact, freemap_init_exact, freemap_reserve_rotates); what an
    unreadable node or a recovered block in the upper half of a bitmap element
    leads to (freemap_node_error_reallocates, recovered_block_reallocated).

    Bulk free: the scan ends and finds every reference (bulkfree_window_terminates,
    bulkfree_window_complete); so a pass leaves every referenced block allocated
    (bulkfree_pass_keeps_referenced); interleaved with allocations it frees
    nothing in use (bulkfree_alloc_disjoint), and two passes free what is not
    (bulkfree_two_passes_free); the transition table and the hints are exact
    (bulkfree_sync_table, bigmask_get_exact); and its error paths
    (bulkfree_sync_lookup_fault, bulkfree_pass_forgets_check).

    Block tables: insertions and deletions make the table a sorted list of
    disjoint ranges (block_table_refines); the search returns the first element
    of a range from the table or from memory (combined_find_nearest); a new
    indirect block takes exactly the elements of its range
    (create_indirect_partition), which makes room in a directory
    (create_indirect_dir_room); the key bits of a file's block can pass the
    width of the key (create_indirect_file_bits).  A lookup and the nexts after
    it enumerate the elements of a range over all levels of the tree
    (chain_scan_complete), but for a range that ends right after two nested
    blocks (lookup_misses_boundary).  What is created is found, and nothing else
    changes (chain_create_found); what is deleted is gone (chain_delete_gone);
    merging an indirect block into its parent keeps the elements of the tree
    (collapse_keeps_leaves).

    Chain data: a check code that is set passes its test (setcheck_testcheck); no
    sequence of modifications changes the bytes of a block that a snapshot or the
    dedup relies on (chain_modify_protects); a modification keeps the bytes of the
    chain and does what the flags document (chain_modify_copies); what is left
    when it gets no space or no buffer (chain_modify_failed, chain_modify_fault).

    Device buffers: hash, counts and flags agree in every state of the threads, so
    that no assertion fails (dio_well_formed); whatever the kernel writes back,
    drops and reads ahead, the buffers are a memory (dio_refines_memory), which is
    how ChainData has them; bytes stored after hpanic() can reach the media
    (fault_reaches_media); the fragments of the dedup are exact (dedup_mask_exact).

    Volumes: what a mount accepts covers the file system once, and every block has
    its device (mounted_volumes_tile).  Wherever a header write ends, a mount finds
    the old header or the new one (volume_header_recovered), and what the header
    refers to is written before it (volume_header_ordered), but for errors of some
    devices and of the header write before (volume_header_unsafe_writes).
    Transactions: one flush at a time, and none sleeps when it can go on
    (trans_flush_exclusive, trans_no_lost_wakeup).

    Clusters and XOPs: a check that succeeds has a majority behind its focus
    (cluster_check_quorum), two majorities meet (cluster_quorums_intersect),
    every other result is exact (cluster_check_no_quorum, cluster_check_end,
    cluster_check_valid); the rings are queues (xop_feed_appends), the
    collection returns, in key order, and skips nothing a majority holds
    (xop_collect_in_order), and balances its references (xop_refs_returned); a
    start runs every element once (xop_start_elements); operations on an inode exclude each other and do not
    deadlock (ipdep_exclusive, ipdep_progress), but for a rename within a
    directory (ipdep_rename_releases_twice).

    CCMS: exclusion, absence of panics and of lost wakeups (ccms_exclusion,
    ccms_never_panics, ccms_free_grants), by induction on the threads' steps.

    * Conventions, bounds and fuel

    A C integer is a [Z]; stores that can wrap are wrapped ([u8] to [u64],
    [i32]).  A function that can fail returns an [option], a sum or an error
    code beside its state; where [None] is a null dereference or a failed
    assertion the definition says so.  Loops that are not structural run on
    fuel, and a theorem shows that what the definition passes is enough: the
    leaves of the media and the two passes over them for the allocator, the
    size of the topology for the scan, a gigabyte a window for the pass, the
    slots and two for the quorum, the elements left and one for the collector.
    A lookup has its own bound of 299999 rounds, and two for each indirect block
    are enough.
    The hypotheses of a theorem that is about a running system are invariants
    that the theorems of the same file show to be kept.

    What the code calls outside of the modelled parts is an argument: the chain
    layer's lookups, creations and their errors ([chain_io]), the CRC, the
    storage functions of the operations, signals, and for the lookups the tables
    of the indirect blocks on the media and the errors of reading them, for a
    creation and a deletion the results of hammer2_chain_modify() on the way; for
    the data of chains the hash functions, the extents of the volumes and the
    errors of the buffers; for the buffers the page cache, with the laws its
    documentation gives for locked and for held folios, and the fetch of a block
    over a connection; for the flush the chains below the two roots of a device,
    which may modify the volume header and its blocksets but not the fields of the
    header that a mount selects by ([keeps] in VolumeProof), and the results of
    the block layer.

    * What is not modelled

    The rest of the chain layer (hammer2_chain.c: locks, reference counts and
    the list of unused chains) and what is built on it: the flush of the chains
    below the roots, inodes, the storage functions, file data, the Linux operations
    and the rest of the mount; the opening of devices; the cluster protocol, its messages and the synchronization thread;
    the worker threads of hammer2_admin.c.  They are
    large state machines over kernel locks and I/O.  Messages to the console,
    statistics and memory allocation are left out of the modelled functions.
    Threads are modelled where the code's own protocol is at stake (XopDep,
    Ccms, Dio, Trans, BulkfreeSafety); elsewhere a function runs under the locks
    its callers hold, as one step. *)
From Stdlib Require Import ZArith Lia Bool.
From stdpp Require Import base list numbers.

Declare Scope h2_scope.
Delimit Scope h2_scope with h2.
Open Scope Z_scope.

(** ** Machine integers *)

(** C's unsigned and signed types are kept as [Z] with the wrap-around of
    every store written out. *)
Definition u8 (x : Z) : Z := x mod 2 ^ 8.
Definition u16 (x : Z) : Z := x mod 2 ^ 16.
Definition u32 (x : Z) : Z := x mod 2 ^ 32.
Definition u64 (x : Z) : Z := x mod 2 ^ 64.
Definition i32 (x : Z) : Z := (x + 2 ^ 31) mod 2 ^ 32 - 2 ^ 31.

(** C's [x & ~m] at the width of [x]. *)
Notation "x '&~' m" := (Z.ldiff x m) (at level 40, left associativity) : h2_scope.
Notation "x '&' m" := (Z.land x m) (at level 40, left associativity) : h2_scope.
Notation "x '|||' m" := (Z.lor x m) (at level 50, left associativity) : h2_scope.
Open Scope h2_scope.

Definition is_u8 (x : Z) : Prop := 0 <= x < 2 ^ 8.
Definition is_u16 (x : Z) : Prop := 0 <= x < 2 ^ 16.
Definition is_u32 (x : Z) : Prop := 0 <= x < 2 ^ 32.
Definition is_u64 (x : Z) : Prop := 0 <= x < 2 ^ 64.

(** Case analysis on every comparison of the goal, with the impossible
    combinations closed by [lia]. *)
Ltac zcase1 :=
  match goal with
  | |- context [Z.leb ?a ?b] => destruct (Z.leb_spec a b)
  | |- context [Z.ltb ?a ?b] => destruct (Z.ltb_spec a b)
  | |- context [Z.eqb ?a ?b] => destruct (Z.eqb_spec a b)
  end.
Ltac zcases := repeat (zcase1; try lia).

(** [lia] over goals that divide by constants. *)
Ltac dlia := Z.to_euclidean_division_equations; lia.

Create HintDb h2.
Create Rewrite HintDb zbits.
Create Rewrite HintDb h2len.

(** A C condition: a scalar is true when it is not zero. *)
Definition nz (x : Z) : bool := negb (x =? 0).

Lemma nz_spec x : reflect (x <> 0) (nz x).
Proof. unfold nz. destruct (Z.eqb_spec x 0); constructor; lia. Qed.

(** Flag tests and updates as the code writes them: [x & f], [x |= f],
    [x &= ~f]. *)
Definition has (x f : Z) : bool := nz (x & f).

(** [rounddown2(x, y)] of hammer2_compat.h:166. *)
Definition rounddown2 (x y : Z) : Z := x &~ (y - 1).

Ltac wrap_unfold := unfold u8, u16, u32, u64, i32, is_u8, is_u16, is_u32, is_u64 in *.

Lemma u64_range x : is_u64 (u64 x).
Proof. wrap_unfold. apply Z.mod_pos_bound. lia. Qed.
Lemma u32_range x : is_u32 (u32 x).
Proof. wrap_unfold. apply Z.mod_pos_bound. lia. Qed.
Lemma u64_small x : is_u64 x -> u64 x = x.
Proof. wrap_unfold. apply Z.mod_small. Qed.
Lemma u32_small x : is_u32 x -> u32 x = x.
Proof. wrap_unfold. apply Z.mod_small. Qed.
Lemma u16_small x : is_u16 x -> u16 x = x.
Proof. wrap_unfold. apply Z.mod_small. Qed.
Lemma i32_small x : - 2 ^ 31 <= x < 2 ^ 31 -> i32 x = x.
Proof. intros H. unfold i32. rewrite Z.mod_small by lia. lia. Qed.

(** ** Bit fields *)

#[export] Hint Rewrite Z.land_spec Z.lor_spec Z.ldiff_spec Z.lxor_spec Z.bits_0 : zbits.
#[export] Hint Rewrite Z.shiftr_spec Z.shiftl_spec using lia : zbits.

(** The mask of [w] ones from bit [k] up, C's [((1 << w) - 1) << k]. *)
Definition ones_at (k w : Z) : Z := Z.shiftl (Z.ones w) k.

Lemma testbit_ones_at k w n : 0 <= k -> 0 <= w -> 0 <= n ->
  Z.testbit (ones_at k w) n = (k <=? n) && (n <? k + w).
Proof.
  intros Hk Hw Hn. unfold ones_at. rewrite Z.shiftl_spec by lia.
  destruct (Z.leb_spec k n).
  - rewrite Z.testbit_ones_nonneg by lia. simpl.
    destruct (Z.ltb_spec (n - k) w), (Z.ltb_spec n (k + w)); lia || done.
  - by rewrite Z.testbit_neg_r by lia.
Qed.

Lemma testbit_u64 x n : 0 <= n -> Z.testbit (u64 x) n = (n <? 64) && Z.testbit x n.
Proof. intros Hn. unfold u64. by rewrite Z.testbit_mod_pow2 by lia. Qed.

Lemma u64_testbit_high x n : is_u64 x -> 64 <= n -> Z.testbit x n = false.
Proof.
  intros Hx Hn. rewrite <- (u64_small x Hx). rewrite testbit_u64 by lia.
  destruct (Z.ltb_spec n 64); lia || done.
Qed.

Lemma u32_testbit_high x n : is_u32 x -> 32 <= n -> Z.testbit x n = false.
Proof.
  intros Hx Hn. rewrite <- (u32_small x Hx). unfold u32.
  by rewrite Z.mod_pow2_bits_high by lia.
Qed.

(** A word all of whose bits from 64 up are clear is a [uint64_t]. *)
Lemma is_u64_bits x : (forall n, 64 <= n -> Z.testbit x n = false) -> 0 <= x -> is_u64 x.
Proof.
  intros Hb Hx. assert (u64 x = x) as E.
  { apply Z.bits_inj'. intros n Hn. rewrite testbit_u64 by lia.
    destruct (Z.ltb_spec n 64); [done|]. by rewrite Hb. }
  rewrite <- E. apply u64_range.
Qed.

Lemma is_u64_lor x y : is_u64 x -> is_u64 y -> is_u64 (Z.lor x y).
Proof.
  intros Hx Hy. apply is_u64_bits.
  - intros n Hn. by rewrite Z.lor_spec, !u64_testbit_high.
  - apply Z.lor_nonneg. split; [apply Hx | apply Hy].
Qed.

Lemma is_u64_ldiff x y : is_u64 x -> is_u64 (Z.ldiff x y).
Proof.
  intros Hx. apply is_u64_bits.
  - intros n Hn. by rewrite Z.ldiff_spec, u64_testbit_high.
  - apply Z.ldiff_nonneg. left. apply Hx.
Qed.

Lemma is_u64_ones_at k w : 0 <= k -> 0 <= w -> k + w <= 64 -> is_u64 (ones_at k w).
Proof.
  intros Hk Hw Hkw. apply is_u64_bits.
  - intros n Hn. rewrite testbit_ones_at by lia.
    destruct (Z.ltb_spec n (k + w)); [lia|]. by rewrite andb_false_r.
  - unfold ones_at. rewrite Z.shiftl_nonneg, Z.ones_equiv.
    pose proof (Z.pow_pos_nonneg 2 w). lia.
Qed.
#[export] Hint Resolve is_u64_lor is_u64_ldiff is_u64_ones_at u64_range u32_range : h2.

(** The word and a run of ones share no bit exactly when the run is clear. *)
Lemma land_ones_at_zero q k w : 0 <= k -> 0 <= w ->
  Z.land q (ones_at k w) = 0 <-> (forall n, k <= n < k + w -> Z.testbit q n = false).
Proof.
  intros Hk Hw. split.
  - intros E n Hn. assert (Z.testbit (Z.land q (ones_at k w)) n = false) as T.
    { by rewrite E, Z.bits_0. }
    rewrite Z.land_spec, testbit_ones_at in T by lia.
    destruct (Z.leb_spec k n), (Z.ltb_spec n (k + w)); try lia.
    by rewrite andb_true_r in T.
  - intros Hq. apply Z.bits_inj'. intros n Hn.
    rewrite Z.land_spec, testbit_ones_at, Z.bits_0 by lia.
    destruct (Z.leb_spec k n), (Z.ltb_spec n (k + w)); rewrite ?andb_false_r; try done.
    by rewrite Hq.
Qed.

(** *** Two-bit entries *)

(** Entry [b] of a word of two-bit entries, as the code reads it:
    [(q >> 2b) & 3]. *)
Definition pair2 (q b : Z) : Z := Z.land (Z.shiftr q (2 * b)) 3.

Lemma pair2_bits q b : 0 <= b ->
  pair2 q b = Z.b2z (Z.testbit q (2 * b)) + 2 * Z.b2z (Z.testbit q (2 * b + 1)).
Proof.
  intros Hb. unfold pair2. change 3 with (Z.ones 2). rewrite Z.land_ones by lia.
  rewrite <- (Z.add_0_l (2 * b)) at 2. rewrite (Z.add_comm (2 * b) 1).
  rewrite <- !Z.shiftr_spec by lia.
  set (x := Z.shiftr q (2 * b)). rewrite !Z.testbit_spec' by lia.
  change (2 ^ 0) with 1. change (2 ^ 1) with 2. change (2 ^ 2) with (2 * 2).
  rewrite Z.div_1_r. apply Z.rem_mul_r; lia.
Qed.

Lemma pair2_range q b : 0 <= b -> 0 <= pair2 q b <= 3.
Proof.
  intros Hb. rewrite pair2_bits by done.
  destruct (Z.testbit q (2 * b)), (Z.testbit q (2 * b + 1)); simpl; lia.
Qed.

Lemma pair2_cases q b : 0 <= b ->
  pair2 q b = 0 \/ pair2 q b = 1 \/ pair2 q b = 2 \/ pair2 q b = 3.
Proof. intros Hb. pose proof (pair2_range q b Hb). lia. Qed.

Lemma pair2_ext q q' b : 0 <= b ->
  Z.testbit q (2 * b) = Z.testbit q' (2 * b) ->
  Z.testbit q (2 * b + 1) = Z.testbit q' (2 * b + 1) -> pair2 q b = pair2 q' b.
Proof. intros Hb E1 E2. by rewrite !pair2_bits, E1, E2. Qed.

(** Two words with the same entries are the same word. *)
Lemma pair2_inj q q' : is_u64 q -> is_u64 q' ->
  (forall b, 0 <= b < 32 -> pair2 q b = pair2 q' b) -> q = q'.
Proof.
  intros Hq Hq' E. apply Z.bits_inj'. intros n Hn.
  destruct (Z.lt_ge_cases n 64) as [Hlt|Hge].
  - assert (0 <= n / 2 < 32) as Hb.
    { split; [apply Z.div_pos; lia | apply Z.div_lt_upper_bound; lia]. }
    specialize (E (n / 2) Hb). rewrite !pair2_bits in E by lia.
    pose proof (Z.div_mod n 2). pose proof (Z.mod_pos_bound n 2).
    assert (n = 2 * (n / 2) \/ n = 2 * (n / 2) + 1) as [-> | ->] by lia;
      rewrite ?(Z.mul_comm 2 (2 * (n / 2) / 2)) in *;
      set (m := n / 2) in *; clearbody m;
      destruct (Z.testbit q (2 * m)), (Z.testbit q (2 * m + 1)),
        (Z.testbit q' (2 * m)), (Z.testbit q' (2 * m + 1)); simpl in E; lia || done.
  - by rewrite !u64_testbit_high.
Qed.

Lemma pair2_0 b : pair2 0 b = 0.
Proof. unfold pair2. by rewrite Z.shiftr_0_l. Qed.

(** A run of entries is clear exactly when the mask over it is. *)
Lemma land_run_zero q k w : 0 <= k -> 0 <= w ->
  Z.land q (ones_at (2 * k) (2 * w)) = 0 <->
  (forall b, k <= b < k + w -> pair2 q b = 0).
Proof.
  intros Hk Hw. rewrite land_ones_at_zero by lia. split; intros H b Hb.
  - rewrite pair2_bits, !H by lia. done.
  - specialize (H (b / 2)). pose proof (Z.div_mod b 2). pose proof (Z.mod_pos_bound b 2).
    rewrite pair2_bits in H by lia.
    assert (b = 2 * (b / 2) \/ b = 2 * (b / 2) + 1) as [-> | ->] by lia;
      set (m := b / 2) in *; clearbody m;
      destruct (Z.testbit q (2 * m)), (Z.testbit q (2 * m + 1)); simpl in H; lia || done.
Qed.

(** Setting a run marks its entries 11 and leaves the others. *)
Lemma pair2_lor_run q k w b : 0 <= k -> 0 <= w -> 0 <= b ->
  pair2 (Z.lor q (ones_at (2 * k) (2 * w))) b =
  if (k <=? b) && (b <? k + w) then 3 else pair2 q b.
Proof.
  intros Hk Hw Hb. rewrite !pair2_bits, !Z.lor_spec, !testbit_ones_at by lia.
  zcases; simpl; by rewrite ?orb_true_r, ?orb_false_r.
Qed.

Lemma pair2_allones b : 0 <= b < 32 -> pair2 18446744073709551615 b = 3.
Proof.
  intros Hb. change 18446744073709551615 with (Z.lor 0 (ones_at (2 * 0) (2 * 32))).
  rewrite pair2_lor_run by lia. zcases; done.
Qed.

(** Clearing the low or the high bit of one entry. *)
Lemma pair2_clear_low q k b : 0 <= k -> 0 <= b ->
  pair2 (Z.ldiff q (Z.shiftl 1 (2 * k))) b =
  if b =? k then Z.land (pair2 q b) 2 else pair2 q b.
Proof.
  intros Hk Hb. change (Z.shiftl 1 (2 * k)) with (ones_at (2 * k) 1).
  rewrite !pair2_bits, !Z.ldiff_spec, !testbit_ones_at by lia.
  zcases; simpl; rewrite ?andb_true_r, ?andb_false_r; try done.
  by destruct (Z.testbit q (2 * b)), (Z.testbit q (2 * b + 1)).
Qed.

Lemma pair2_clear_high q k b : 0 <= k -> 0 <= b ->
  pair2 (Z.ldiff q (Z.shiftl 2 (2 * k))) b =
  if b =? k then Z.land (pair2 q b) 1 else pair2 q b.
Proof.
  intros Hk Hb. replace (Z.shiftl 2 (2 * k)) with (ones_at (2 * k + 1) 1).
  2:{ unfold ones_at. change (Z.ones 1) with 1. rewrite !Z.shiftl_mul_pow2 by lia.
      rewrite Z.pow_add_r by lia. lia. }
  rewrite !pair2_bits, !Z.ldiff_spec, !testbit_ones_at by lia.
  zcases; simpl; rewrite ?andb_true_r, ?andb_false_r; try done.
  by destruct (Z.testbit q (2 * b)), (Z.testbit q (2 * b + 1)).
Qed.

(** *** Flags *)

Lemma has_bit x n : 0 <= n -> has x (2 ^ n) = Z.testbit x n.
Proof.
  intros Hn. unfold has, nz. destruct (Z.testbit x n) eqn:E.
  - destruct (Z.eqb_spec (Z.land x (2 ^ n)) 0) as [E0|]; [|done].
    assert (T : Z.testbit (Z.land x (2 ^ n)) n = true) by (rewrite Z.land_spec, E, Z.pow2_bits_true by lia; done).
    rewrite E0, Z.bits_0 in T. done.
  - assert (Z.land x (2 ^ n) = 0) as ->; [|done]. apply Z.bits_inj'. intros m Hm.
    rewrite Z.land_spec, Z.bits_0, Z.pow2_bits_eqb by lia. destruct (Z.eqb_spec n m) as [<-|]; [by rewrite E|apply andb_false_r].
Qed.

Lemma has_lor x f g : has (x ||| f) g = has x g || has f g.
Proof.
  unfold has, nz. rewrite Z.land_lor_distr_l.
  destruct (Z.eqb_spec (Z.land x g) 0) as [->|H]; [by rewrite Z.lor_0_l|].
  destruct (Z.eqb_spec (Z.lor (Z.land x g) (Z.land f g)) 0) as [E|]; [|done].
  apply Z.lor_eq_0_iff in E as [E _]. done.
Qed.

(** Clearing flags leaves the others and takes away its own. *)
Lemma has_clear_other x f g : Z.land f g = 0 -> has (x &~ f) g = has x g.
Proof.
  intros H. unfold has. f_equal. apply Z.bits_inj'. intros n Hn. rewrite !Z.land_spec, Z.ldiff_spec.
  assert (T : Z.testbit (Z.land f g) n = false) by (by rewrite H, Z.bits_0). rewrite Z.land_spec in T.
  destruct (Z.testbit f n), (Z.testbit g n), (Z.testbit x n); done.
Qed.

Lemma has_clear x f g : Z.land f g = g -> has (x &~ f) g = false.
Proof.
  intros H. unfold has, nz. assert (Z.land (Z.ldiff x f) g = 0) as ->; [|done]. apply Z.bits_inj'. intros n Hn.
  rewrite Z.land_spec, Z.ldiff_spec, Z.bits_0.
  assert (T : Z.testbit (Z.land f g) n = Z.testbit g n) by (by rewrite H). rewrite Z.land_spec in T.
  destruct (Z.testbit f n), (Z.testbit g n), (Z.testbit x n); done.
Qed.

(** Flags after the code set and cleared some. *)
Ltac hasflags := repeat first
  [rewrite has_lor | rewrite has_clear_other by reflexivity | rewrite has_clear by reflexivity].

(** ** Alignment *)

Lemma land_low x k : 0 <= k -> Z.land x (2 ^ k - 1) = x mod 2 ^ k.
Proof. intros Hk. rewrite Z.sub_1_r, <- Z.ones_equiv. by apply Z.land_ones. Qed.

Lemma ldiff_low x k : 0 <= k -> Z.ldiff x (2 ^ k - 1) = x - x mod 2 ^ k.
Proof.
  intros Hk. rewrite Z.sub_1_r, <- Z.ones_equiv, Z.ldiff_ones_r by lia.
  rewrite Z.shiftl_mul_pow2, Z.shiftr_div_pow2 by lia.
  pose proof (Z.div_mod x (2 ^ k)). lia.
Qed.

Lemma rounddown2_spec x k : 0 <= k -> rounddown2 x (2 ^ k) = x - x mod 2 ^ k.
Proof. apply ldiff_low. Qed.

Lemma rounddown2_bounds x k : 0 <= k ->
  rounddown2 x (2 ^ k) <= x < rounddown2 x (2 ^ k) + 2 ^ k.
Proof.
  intros Hk. rewrite rounddown2_spec by done. pose proof (Z.mod_pos_bound x (2 ^ k)).
  pose proof (Z.pow_pos_nonneg 2 k). lia.
Qed.

Lemma rounddown2_mod x k : 0 <= k -> rounddown2 x (2 ^ k) mod 2 ^ k = 0.
Proof.
  intros Hk. rewrite rounddown2_spec by done.
  pose proof (Z.pow_pos_nonneg 2 k). rewrite Zminus_mod_idemp_r, Z.sub_diag.
  apply Z.mod_0_l. lia.
Qed.

(** Or-ing a small value into the clear low bits of an aligned one adds it. *)
Lemma lor_low x y k : 0 <= k -> x mod 2 ^ k = 0 -> 0 <= y < 2 ^ k -> Z.lor x y = x + y.
Proof.
  intros Hk Hx Hy. assert (Z.land x y = 0) as Hd.
  { apply Z.bits_inj'. intros n Hn. rewrite Z.land_spec, Z.bits_0.
    destruct (Z.lt_ge_cases n k).
    - replace (Z.testbit x n) with (Z.testbit (x mod 2 ^ k) n)
        by (apply Z.mod_pow2_bits_low; lia).
      by rewrite Hx, Z.bits_0.
    - replace y with (y mod 2 ^ k) by (apply Z.mod_small; lia).
      rewrite Z.mod_pow2_bits_high by lia. apply andb_false_r. }
  by rewrite <- Z.lxor_lor, <- Z.add_nocarry_lxor.
Qed.

(** ** Arrays *)

(** [a[i]] and [a[i] = x] of C at an index the caller keeps in range. *)
Definition aget {A} (d : A) (l : list A) (i : Z) : A := default d (l !! Z.to_nat i).
Definition aset {A} (l : list A) (i : Z) (x : A) : list A := <[Z.to_nat i := x]> l.
Abbreviation zlen l := (Z.of_nat (length l)).

Section Arrays.
Context {A : Type} (d : A).
Implicit Types (l : list A) (x : A).

Lemma length_aset l i x : length (aset l i x) = length l.
Proof. apply length_insert. Qed.

Lemma aget_aset_eq l i x : 0 <= i < zlen l -> aget d (aset l i x) i = x.
Proof. intros Hi. unfold aget, aset. rewrite list_lookup_insert_eq by lia. done. Qed.

Lemma aget_aset_ne l i j x : 0 <= i -> 0 <= j -> i <> j ->
  aget d (aset l i x) j = aget d l j.
Proof. intros Hi Hj Hij. unfold aget, aset. rewrite list_lookup_insert_ne by lia. done. Qed.

Lemma aget_aset l i j x : 0 <= i < zlen l -> 0 <= j ->
  aget d (aset l i x) j = if j =? i then x else aget d l j.
Proof.
  intros Hi Hj. destruct (Z.eqb_spec j i) as [->|].
  - by apply aget_aset_eq.
  - apply aget_aset_ne; lia.
Qed.

Lemma aget_Forall (P : A -> Prop) l i : Forall P l -> 0 <= i < zlen l -> P (aget d l i).
Proof.
  intros HP Hi. unfold aget.
  destruct (lookup_lt_is_Some_2 l (Z.to_nat i)) as [y Hy]; [lia|].
  rewrite Hy. simpl. by eapply Forall_lookup_1.
Qed.

Lemma Forall_aset (P : A -> Prop) l i x : Forall P l -> P x -> Forall P (aset l i x).
Proof. intros Hl Hx. by apply Forall_insert. Qed.

Lemma aget_In l i : 0 <= i < zlen l -> aget d l i ∈ l.
Proof.
  intros Hi. unfold aget. destruct (lookup_lt_is_Some_2 l (Z.to_nat i)) as [y Hy]; [lia|].
  rewrite Hy. by eapply list_elem_of_lookup_2.
Qed.

Lemma aset_aget l i : 0 <= i < zlen l -> aset l i (aget d l i) = l.
Proof.
  intros Hi. unfold aset, aget. destruct (lookup_lt_is_Some_2 l (Z.to_nat i)) as [y Hy]; [lia|].
  rewrite Hy. by apply list_insert_id.
Qed.

Lemma aget_replicate n x i : 0 <= i < Z.of_nat n -> aget d (replicate n x) i = x.
Proof. intros Hi. unfold aget. by rewrite lookup_replicate_2 by lia. Qed.

Lemma aget_ext l l' : length l = length l' ->
  (forall i, 0 <= i < zlen l -> aget d l i = aget d l' i) -> l = l'.
Proof.
  intros Hlen E. apply list_eq. intros i.
  destruct (decide (i < length l)%nat) as [Hi|Hi].
  - specialize (E (Z.of_nat i)). unfold aget in E. rewrite Nat2Z.id in E.
    destruct (lookup_lt_is_Some_2 l i Hi) as [y Hy].
    destruct (lookup_lt_is_Some_2 l' i) as [y' Hy']; [lia|].
    rewrite Hy, Hy' in *. simpl in E. f_equal. apply E. lia.
  - rewrite !lookup_ge_None_2 by lia. done.
Qed.
End Arrays.
#[export] Hint Rewrite @length_aset : h2len.

(** ** Counting *)

(** How many of the first [n] indices satisfy a test. *)
Fixpoint cntb (p : Z -> bool) (n : nat) : Z :=
  match n with
  | O => 0
  | S k => cntb p k + Z.b2z (p (Z.of_nat k))
  end.

Lemma cntb_range p n : 0 <= cntb p n <= Z.of_nat n.
Proof. induction n as [|n IH]; simpl; [lia|]. destruct (p (Z.of_nat n)); simpl; lia. Qed.

Lemma cntb_ext p p' n : (forall i, 0 <= i < Z.of_nat n -> p i = p' i) -> cntb p n = cntb p' n.
Proof.
  induction n as [|n IH]; intros E; [done|]. simpl. rewrite IH by (intros; apply E; lia).
  rewrite E by lia. done.
Qed.

Lemma cntb_split p p' d n :
  (forall i, 0 <= i < Z.of_nat n -> Z.b2z (p i) = Z.b2z (p' i) + Z.b2z (d i)) ->
  cntb p n = cntb p' n + cntb d n.
Proof.
  induction n as [|n IH]; intros E; [done|]. simpl. rewrite IH by (intros; apply E; lia).
  rewrite E by lia. lia.
Qed.

Lemma cntb_false p n : (forall i, 0 <= i < Z.of_nat n -> p i = false) -> cntb p n = 0.
Proof.
  induction n as [|n IH]; intros E; [done|]. simpl.
  rewrite IH by (intros; apply E; lia). by rewrite E by lia.
Qed.

Lemma cntb_true p n : (forall i, 0 <= i < Z.of_nat n -> p i = true) -> cntb p n = Z.of_nat n.
Proof.
  induction n as [|n IH]; intros E; [done|]. simpl.
  rewrite IH by (intros; apply E; lia). rewrite E by lia. simpl. lia.
Qed.

Lemma cntb_run k w n : 0 <= k -> 0 <= w -> k + w <= Z.of_nat n ->
  cntb (fun i => (k <=? i) && (i <? k + w)) n = w.
Proof.
  revert w. induction n as [|n IH]; intros w Hk Hw Hn; simpl; [lia|].
  destruct (Z.eq_dec (k + w) (Z.of_nat n + 1)) as [E|E].
  - destruct (Z.eq_dec w 0) as [->|].
    + rewrite cntb_false by (intros; zcases; done). zcases; simpl; lia.
    + rewrite (cntb_ext _ (fun i => (k <=? i) && (i <? k + (w - 1)))).
      * rewrite IH by lia. zcases; simpl; lia.
      * intros i Hi. zcases; done.
  - rewrite IH by lia. zcases; simpl; lia.
Qed.

Lemma cntb_zero p n : cntb p n = 0 -> forall i, 0 <= i < Z.of_nat n -> p i = false.
Proof.
  induction n as [|n IH]; intros E i Hi; [lia|]. simpl in E. pose proof (cntb_range p n).
  destruct (p (Z.of_nat n)) eqn:Ep; simpl in E; [lia|].
  destruct (Z.eq_dec i (Z.of_nat n)) as [->|]; [done|]. apply IH; lia.
Qed.

(** ** Counting *)

(** The elements of a list with a property the code tests. *)
Definition countb {A} (f : A -> bool) (l : list A) : Z := Z.of_nat (length (List.filter f l)).

Lemma countb_cons {A} (f : A -> bool) x l : countb f (x :: l) = (if f x then 1 else 0) + countb f l.
Proof. unfold countb. cbn. destruct (f x); cbn; lia. Qed.

Lemma countb_snoc {A} (f : A -> bool) l x : countb f (l ++ [x]) = countb f l + (if f x then 1 else 0).
Proof.
  unfold countb. rewrite List.filter_app, length_app. cbn. destruct (f x); cbn; lia.
Qed.

Lemma countb_app {A} (f : A -> bool) l1 l2 : countb f (l1 ++ l2) = countb f l1 + countb f l2.
Proof. unfold countb. rewrite List.filter_app, length_app. lia. Qed.

Lemma countb_nonneg {A} (f : A -> bool) l : 0 <= countb f l.
Proof. unfold countb. lia. Qed.

Lemma countb_fmap {A B} (f : B -> bool) (g : A -> B) (h : A -> bool) l :
  (forall x, f (g x) = h x) -> countb f (g <$> l) = countb h l.
Proof.
  intros H. unfold countb. f_equal. induction l as [|x l IH]; [done|]. cbn. rewrite H.
  destruct (h x); cbn; by rewrite IH.
Qed.

Lemma countb_ext {A B} (f : A -> bool) (g : B -> bool) l1 l2 :
  Forall2 (fun x y => f x = g y) l1 l2 -> countb f l1 = countb g l2.
Proof. induction 1 as [|x y l1 l2 H _ IH]; [done|]. by rewrite !countb_cons, H, IH. Qed.

Lemma countb_none {A} (f : A -> bool) l : (forall x, x ∈ l -> f x = false) -> countb f l = 0.
Proof.
  intros H. induction l as [|x l IH]; [done|]. rewrite countb_cons, H by (apply elem_of_cons; by left).
  rewrite IH; [done|]. intros y Hy. apply H, elem_of_cons. by right.
Qed.

Lemma countb_insert {A} (f : A -> bool) l i x y : l !! i = Some x ->
  countb f (<[i := y]> l) = countb f l - (if f x then 1 else 0) + (if f y then 1 else 0).
Proof.
  revert i. induction l as [|z l IH]; intros [|i] Hi; try done.
  - injection Hi as ->. change (<[0%nat := y]> (x :: l)) with (y :: l). rewrite !countb_cons. lia.
  - change (<[S i := y]> (z :: l)) with (z :: <[i := y]> l). rewrite !countb_cons, (IH i) by done. lia.
Qed.

Lemma countb_pos {A} (f : A -> bool) l i x : l !! i = Some x -> f x = true -> 0 < countb f l.
Proof.
  revert i. induction l as [|z l IH]; intros [|i] Hi Hf; try done; rewrite countb_cons;
    assert (H := countb_nonneg f l).
  - injection Hi as ->. rewrite Hf. lia.
  - specialize (IH i Hi Hf). destruct (f z); lia.
Qed.

(** Two subsets of the positions [m] holds at that meet nowhere are together no
    larger than it. *)
Lemma countb_disjoint {A} (m f1 f2 : A -> bool) l1 l2 :
  Forall2 (fun x y => m x = m y) l1 l2 ->
  (forall x, f1 x = true -> m x = true) -> (forall x, f2 x = true -> m x = true) ->
  (forall i x y, l1 !! i = Some x -> l2 !! i = Some y -> f1 x = true -> f2 y = true -> False) ->
  countb f1 l1 + countb f2 l2 <= countb m l1.
Proof.
  intros HF H1 H2. induction HF as [|x y l1 l2 Hxy HF IH]; intros Hd; [done|].
  rewrite !countb_cons. assert (countb f1 l1 + countb f2 l2 <= countb m l1) as IH'.
  { apply IH. intros i a b. apply (Hd (S i)). }
  assert (Hd0 := Hd O x y eq_refl eq_refl). specialize (H1 x). specialize (H2 y). rewrite <- Hxy in H2.
  destruct (f1 x), (f2 y), (m x); try lia; exfalso; auto; by (discriminate H1 || discriminate H2; auto).
Qed.
