(* ===== verification/Disk.v ===== *)
(** The on-media format: the constants and structures of hammer2_disk.h that
    the components share, and the error flags of hammer2.h. *)
From S2P Require Import Prelude.
From Stdlib Require Import ZArith Lia.
From stdpp Require Import base list.
Open Scope Z_scope.

(** ** Allocation geometry (hammer2_disk.h) *)

Definition HAMMER2_ALLOC_MIN : Z := 1024.
Definition HAMMER2_RADIX_MIN : Z := 10.
Definition HAMMER2_ALLOC_MAX : Z := 65536.
Definition HAMMER2_RADIX_MAX : Z := 16.

Definition HAMMER2_FREEMAP_LEVEL5_RADIX : Z := 62.
Definition HAMMER2_FREEMAP_LEVEL4_RADIX : Z := 54.
Definition HAMMER2_FREEMAP_LEVEL3_RADIX : Z := 46.
Definition HAMMER2_FREEMAP_LEVEL2_RADIX : Z := 38.
Definition HAMMER2_FREEMAP_LEVEL1_RADIX : Z := 30.
Definition HAMMER2_FREEMAP_LEVEL0_RADIX : Z := 22.
Definition HAMMER2_FREEMAP_LEVELN_PSIZE : Z := 32768.
Definition HAMMER2_FREEMAP_LEVEL1_SIZE : Z :=
  Eval cbv in Z.shiftl 1 HAMMER2_FREEMAP_LEVEL1_RADIX.
Definition HAMMER2_FREEMAP_LEVEL0_SIZE : Z :=
  Eval cbv in Z.shiftl 1 HAMMER2_FREEMAP_LEVEL0_RADIX.
Definition HAMMER2_FREEMAP_LEVEL1_MASK : Z := Eval cbv in HAMMER2_FREEMAP_LEVEL1_SIZE - 1.
Definition HAMMER2_FREEMAP_LEVEL0_MASK : Z := Eval cbv in HAMMER2_FREEMAP_LEVEL0_SIZE - 1.

Definition HAMMER2_SEGRADIX : Z := HAMMER2_FREEMAP_LEVEL0_RADIX.
Definition HAMMER2_SEGSIZE : Z := Eval cbv in Z.shiftl 1 HAMMER2_FREEMAP_LEVEL0_RADIX.
Definition HAMMER2_SEGMASK : Z := Eval cbv in HAMMER2_SEGSIZE - 1.

Definition HAMMER2_PBUFRADIX : Z := 16.
Definition HAMMER2_PBUFSIZE : Z := 65536.
Definition HAMMER2_PBUFMASK : Z := Eval cbv in HAMMER2_PBUFSIZE - 1.
Definition HAMMER2_LBUFRADIX : Z := 14.
Definition HAMMER2_LBUFSIZE : Z := 16384.

Definition HAMMER2_ZONE_BYTES64 : Z := Eval cbv in 2 * 1024 * 1024 * 1024.
Definition HAMMER2_ZONE_MASK64 : Z := Eval cbv in HAMMER2_ZONE_BYTES64 - 1.
Definition HAMMER2_ZONE_SEG : Z := Eval cbv in 4 * 1024 * 1024.
Definition HAMMER2_ZONE_FREEMAP_INC : Z := 5.
Definition HAMMER2_ZONE_FREEMAP_00 : Z := 1.
Definition HAMMER2_ZONE_FREEMAP_END : Z := 41.
Definition HAMMER2_NFREEMAPS : Z := 8.
Definition HAMMER2_ZONEFM_LEVEL1 : Z := 0.
Definition HAMMER2_ZONEFM_LEVEL2 : Z := 1.
Definition HAMMER2_ZONEFM_LEVEL3 : Z := 2.
Definition HAMMER2_ZONEFM_LEVEL4 : Z := 3.
Definition HAMMER2_ZONEFM_LEVEL5 : Z := 4.

(** 256: LEVELN_PSIZE / sizeof(hammer2_bmap_data_t). *)
Definition HAMMER2_FREEMAP_COUNT : Z := Eval cbv in HAMMER2_FREEMAP_LEVELN_PSIZE / 128.

Definition HAMMER2_FREEMAP_BLOCK_RADIX : Z := 14.
Definition HAMMER2_FREEMAP_BLOCK_SIZE : Z := Eval cbv in Z.shiftl 1 HAMMER2_FREEMAP_BLOCK_RADIX.
Definition HAMMER2_FREEMAP_BLOCK_MASK : Z := Eval cbv in HAMMER2_FREEMAP_BLOCK_SIZE - 1.

Definition HAMMER2_BMAP_ELEMENTS : Z := 8.
Definition HAMMER2_BMAP_BITS_PER_ELEMENT : Z := 64.
Definition HAMMER2_BMAP_INDEX_RADIX : Z := 5.
Definition HAMMER2_BMAP_BLOCKS_PER_ELEMENT : Z :=
  Eval cbv in Z.shiftl 1 HAMMER2_BMAP_INDEX_RADIX.
Definition HAMMER2_BMAP_INDEX_SIZE : Z :=
  Eval cbv in HAMMER2_FREEMAP_BLOCK_SIZE * HAMMER2_BMAP_BLOCKS_PER_ELEMENT.
Definition HAMMER2_BMAP_INDEX_MASK : Z := Eval cbv in HAMMER2_BMAP_INDEX_SIZE - 1.
Definition HAMMER2_BMAP_SIZE : Z :=
  Eval cbv in HAMMER2_BMAP_INDEX_SIZE * HAMMER2_BMAP_ELEMENTS.
Definition HAMMER2_BMAP_MASK : Z := Eval cbv in HAMMER2_BMAP_SIZE - 1.
Definition HAMMER2_BMAP_ALLONES : Z := Eval cbv in 2 ^ 64 - 1.

Definition HAMMER2_OFF_MASK_RADIX : Z := 63.

(** [H2FMBASE(key, radix)] and [H2FMZONEBASE(key)]. *)
Definition H2FMBASE (key radix : Z) : Z := rounddown2 key (Z.shiftl 1 radix).
Definition H2FMZONEBASE (key : Z) : Z := key &~ HAMMER2_FREEMAP_LEVEL1_MASK.

(** ** Block references *)

Definition HAMMER2_BREF_TYPE_EMPTY : Z := 0.
Definition HAMMER2_BREF_TYPE_INODE : Z := 1.
Definition HAMMER2_BREF_TYPE_INDIRECT : Z := 2.
Definition HAMMER2_BREF_TYPE_DATA : Z := 3.
Definition HAMMER2_BREF_TYPE_DIRENT : Z := 4.
Definition HAMMER2_BREF_TYPE_FREEMAP_NODE : Z := 5.
Definition HAMMER2_BREF_TYPE_FREEMAP_LEAF : Z := 6.
Definition HAMMER2_BREF_TYPE_INVALID : Z := 7.
Definition HAMMER2_BREF_TYPE_FREEMAP : Z := 254.
Definition HAMMER2_BREF_TYPE_VOLUME : Z := 255.
Definition HAMMER2_BREF_FLAG_PFSROOT : Z := 1.
Definition HAMMER2_CHAIN_PFSBOUNDARY : Z := 0x00400000.
Definition HAMMER2_KEY_MAX : Z := 0xFFFFFFFFFFFFFFFF.

(** [struct hammer2_blockref].  The embed union is read as [stats], whose two
    counts are all of its bytes, and the check union is the number its bytes
    are, which the operations here copy and compare. *)
Record hammer2_blockref := mkBref {
  br_type : Z;
  br_methods : Z;
  br_copyid : Z;
  br_keybits : Z;
  br_vradix : Z;
  br_flags : Z;
  br_leaf_count : Z;
  br_key : Z;
  br_mirror_tid : Z;
  br_modify_tid : Z;
  br_data_off : Z;
  br_update_tid : Z;
  br_data_count : Z;        (* embed.stats.data_count *)
  br_inode_count : Z;       (* embed.stats.inode_count *)
  br_check : Z              (* the 64 bytes of check *)
}.

Definition bref_zero : hammer2_blockref := mkBref 0 0 0 0 0 0 0 0 0 0 0 0 0 0 0.

Definition bref_set_data_off (b : hammer2_blockref) (off : Z) : hammer2_blockref :=
  mkBref (br_type b) (br_methods b) (br_copyid b) (br_keybits b) (br_vradix b) (br_flags b)
    (br_leaf_count b) (br_key b) (br_mirror_tid b) (br_modify_tid b) off (br_update_tid b)
    (br_data_count b) (br_inode_count b) (br_check b).

#[export] Instance hammer2_blockref_eq_dec : EqDecision hammer2_blockref.
Proof. solve_decision. Defined.

(** [struct hammer2_bmap_data]: one 4MB segment of the freemap. *)
Record hammer2_bmap_data := mkBmap {
  bm_linear : Z;            (* int32_t: sub-granular allocation offset *)
  bm_class : Z;             (* uint16_t: (type << 8) | radix *)
  bm_avail : Z;             (* uint32_t: bytes, in whole 16KB blocks *)
  bm_bitmapq : list Z       (* uint64_t[8], two bits for every 16KB block *)
}.

#[export] Instance hammer2_bmap_data_eq_dec : EqDecision hammer2_bmap_data.
Proof. solve_decision. Defined.

(** A FREEMAP_LEAF chain: its 256 segments and the hints its blockref keeps
    in [check.freemap]. *)
Record freemap_leaf := mkLeaf {
  lf_bmdata : list hammer2_bmap_data;
  lf_bigmask : Z;           (* uint32_t: radixes that may be allocatable *)
  lf_avail : Z              (* uint64_t *)
}.

(** ** Error flags (hammer2.h) *)

Definition HAMMER2_ERROR_EIO : Z := 0x00000001.
Definition HAMMER2_ERROR_CHECK : Z := 0x00000002.
Definition HAMMER2_ERROR_BADBREF : Z := 0x00000010.
Definition HAMMER2_ERROR_ENOSPC : Z := 0x00000020.
Definition HAMMER2_ERROR_ENOENT : Z := 0x00000040.
Definition HAMMER2_ERROR_ENOTEMPTY : Z := 0x00000080.
Definition HAMMER2_ERROR_EAGAIN : Z := 0x00000100.
Definition HAMMER2_ERROR_ENOTDIR : Z := 0x00000200.
Definition HAMMER2_ERROR_EISDIR : Z := 0x00000400.
Definition HAMMER2_ERROR_EINPROGRESS : Z := 0x00000800.
Definition HAMMER2_ERROR_ABORTED : Z := 0x00001000.
Definition HAMMER2_ERROR_EOF : Z := 0x00002000.
Definition HAMMER2_ERROR_EINVAL : Z := 0x00004000.
Definition HAMMER2_ERROR_EEXIST : Z := 0x00008000.
Definition HAMMER2_ERROR_EDEADLK : Z := 0x00010000.
Definition HAMMER2_ERROR_ESRCH : Z := 0x00020000.
Definition HAMMER2_ERROR_ETIMEDOUT : Z := 0x00040000.
Definition HAMMER2_ERROR_ENOTCONN : Z := 0x00080000.
Definition HAMMER2_ERROR_EOPNOTSUPP : Z := 0x10000000.

(** The constants reduce to literals when a goal is handed to [lia]. *)
Ltac h2const :=
  unfold HAMMER2_ALLOC_MIN, HAMMER2_RADIX_MIN, HAMMER2_ALLOC_MAX, HAMMER2_RADIX_MAX,
    HAMMER2_FREEMAP_LEVEL5_RADIX, HAMMER2_FREEMAP_LEVEL4_RADIX, HAMMER2_FREEMAP_LEVEL3_RADIX,
    HAMMER2_FREEMAP_LEVEL2_RADIX, HAMMER2_FREEMAP_LEVELN_PSIZE,
    HAMMER2_FREEMAP_LEVEL1_SIZE, HAMMER2_FREEMAP_LEVEL0_SIZE, HAMMER2_FREEMAP_LEVEL1_MASK,
    HAMMER2_FREEMAP_LEVEL0_MASK, HAMMER2_SEGRADIX, HAMMER2_SEGSIZE, HAMMER2_SEGMASK,
    HAMMER2_PBUFRADIX, HAMMER2_PBUFSIZE, HAMMER2_PBUFMASK, HAMMER2_LBUFRADIX,
    HAMMER2_LBUFSIZE, HAMMER2_ZONE_MASK64, HAMMER2_ZONE_BYTES64, HAMMER2_ZONE_SEG,
    HAMMER2_ZONE_FREEMAP_INC,
    HAMMER2_ZONE_FREEMAP_00, HAMMER2_ZONE_FREEMAP_END, HAMMER2_NFREEMAPS,
    HAMMER2_ZONEFM_LEVEL1, HAMMER2_ZONEFM_LEVEL2, HAMMER2_ZONEFM_LEVEL3,
    HAMMER2_ZONEFM_LEVEL4, HAMMER2_ZONEFM_LEVEL5, HAMMER2_FREEMAP_COUNT,
    HAMMER2_FREEMAP_BLOCK_SIZE, HAMMER2_FREEMAP_BLOCK_MASK, HAMMER2_FREEMAP_BLOCK_RADIX,
    HAMMER2_BMAP_ELEMENTS, HAMMER2_BMAP_BITS_PER_ELEMENT, HAMMER2_BMAP_INDEX_RADIX,
    HAMMER2_BMAP_BLOCKS_PER_ELEMENT, HAMMER2_BMAP_INDEX_SIZE, HAMMER2_BMAP_INDEX_MASK,
    HAMMER2_BMAP_SIZE, HAMMER2_BMAP_MASK, HAMMER2_OFF_MASK_RADIX,
    HAMMER2_FREEMAP_LEVEL1_RADIX, HAMMER2_FREEMAP_LEVEL0_RADIX in *.

Lemma H2FMBASE_spec key r : 0 <= r -> H2FMBASE key r = key - key mod 2 ^ r.
Proof.
  intros Hr. unfold H2FMBASE. rewrite Z.shiftl_1_l. by apply rounddown2_spec.
Qed.

Lemma H2FMZONEBASE_spec key : H2FMZONEBASE key = key - key mod 2 ^ 30.
Proof. unfold H2FMZONEBASE. h2const. by apply (ldiff_low key 30). Qed.
