(* ===== verification/Subr.v ===== *)
(** hammer2_subr.c and the error conversions of hammer2.h: object types,
    times, the directory hash, allocation radixes and block sizes. *)
From S2P Require Import Prelude Disk.
From Stdlib Require Import ZArith Lia Bool.
From stdpp Require Import base list.
Open Scope Z_scope.

(** ** Object types *)

Module ObjType.

Definition HAMMER2_OBJTYPE_UNKNOWN : Z := 0.
Definition HAMMER2_OBJTYPE_DIRECTORY : Z := 1.
Definition HAMMER2_OBJTYPE_REGFILE : Z := 2.
Definition HAMMER2_OBJTYPE_FIFO : Z := 4.
Definition HAMMER2_OBJTYPE_CDEV : Z := 5.
Definition HAMMER2_OBJTYPE_BDEV : Z := 6.
Definition HAMMER2_OBJTYPE_SOFTLINK : Z := 7.
Definition HAMMER2_OBJTYPE_SOCKET : Z := 9.
Definition HAMMER2_OBJTYPE_WHITEOUT : Z := 10.

(** [enum vtype] of hammer2_compat.h. *)
Inductive vtype := VNON | VREG | VDIR | VBLK | VCHR | VLNK | VSOCK | VFIFO | VBAD.
(** The DT_ values getdents reports. *)
Inductive dtype := DT_UNKNOWN | DT_DIR | DT_REG | DT_FIFO | DT_CHR | DT_BLK | DT_LNK | DT_SOCK.

Definition hammer2_get_dtype (type : Z) : dtype :=
  match type with
  | 0 => DT_UNKNOWN
  | 1 => DT_DIR
  | 2 => DT_REG
  | 4 => DT_FIFO
  | 5 => DT_CHR
  | 6 => DT_BLK
  | 7 => DT_LNK
  | 9 => DT_SOCK
  | 10 => DT_UNKNOWN
  | _ => DT_UNKNOWN
  end.

Definition hammer2_get_vtype (type : Z) : vtype :=
  match type with
  | 0 => VBAD
  | 1 => VDIR
  | 2 => VREG
  | 4 => VFIFO
  | 5 => VCHR
  | 6 => VBLK
  | 7 => VLNK
  | 9 => VSOCK
  | 10 => VBAD
  | _ => VBAD
  end.

Definition hammer2_get_obj_type (vtype : vtype) : Z :=
  match vtype with
  | VDIR => HAMMER2_OBJTYPE_DIRECTORY
  | VREG => HAMMER2_OBJTYPE_REGFILE
  | VFIFO => HAMMER2_OBJTYPE_FIFO
  | VSOCK => HAMMER2_OBJTYPE_SOCKET
  | VCHR => HAMMER2_OBJTYPE_CDEV
  | VBLK => HAMMER2_OBJTYPE_BDEV
  | VLNK => HAMMER2_OBJTYPE_SOFTLINK
  | _ => HAMMER2_OBJTYPE_UNKNOWN
  end.

End ObjType.

(** ** Errors *)

Module Errno.

(** The errnos the module exchanges with the kernel; [EOTHER] is any other. *)
Inductive errno :=
  | E0 | EIO | EDOM | ENOSPC | ENOENT | ENOTEMPTY | EAGAIN | ENOTDIR | EISDIR | EINPROGRESS
  | ETIMEDOUT | EINTR | EINVAL | EEXIST | EDEADLK | ESRCH | ENOTCONN | EOPNOTSUPP | EOTHER.

#[export] Instance errno_eq_dec : EqDecision errno.
Proof. solve_decision. Defined.

Definition hammer2_error_to_errno (error : Z) : errno :=
  if error =? 0 then E0
  else if has error HAMMER2_ERROR_EIO then EIO
  else if has error HAMMER2_ERROR_CHECK then EDOM
  else if has error HAMMER2_ERROR_BADBREF then EIO
  else if has error HAMMER2_ERROR_ENOSPC then ENOSPC
  else if has error HAMMER2_ERROR_ENOENT then ENOENT
  else if has error HAMMER2_ERROR_ENOTEMPTY then ENOTEMPTY
  else if has error HAMMER2_ERROR_EAGAIN then EAGAIN
  else if has error HAMMER2_ERROR_ENOTDIR then ENOTDIR
  else if has error HAMMER2_ERROR_EISDIR then EISDIR
  else if has error HAMMER2_ERROR_EINPROGRESS then EINPROGRESS
  else if has error HAMMER2_ERROR_ETIMEDOUT then ETIMEDOUT
  else if has error HAMMER2_ERROR_ABORTED then EINTR
  else if has error HAMMER2_ERROR_EINVAL then EINVAL
  else if has error HAMMER2_ERROR_EEXIST then EEXIST
  else if has error HAMMER2_ERROR_EDEADLK then EDEADLK
  else if has error HAMMER2_ERROR_ESRCH then ESRCH
  else if has error HAMMER2_ERROR_ENOTCONN then ENOTCONN
  else if has error HAMMER2_ERROR_EOPNOTSUPP then EOPNOTSUPP
  else EDOM.

Definition hammer2_errno_to_error (error : errno) : Z :=
  match error with
  | E0 => 0
  | EIO => HAMMER2_ERROR_EIO
  | EDOM => HAMMER2_ERROR_CHECK
  | ENOSPC => HAMMER2_ERROR_ENOSPC
  | ENOENT => HAMMER2_ERROR_ENOENT
  | ENOTEMPTY => HAMMER2_ERROR_ENOTEMPTY
  | EAGAIN => HAMMER2_ERROR_EAGAIN
  | ENOTDIR => HAMMER2_ERROR_ENOTDIR
  | EISDIR => HAMMER2_ERROR_EISDIR
  | EINPROGRESS => HAMMER2_ERROR_EINPROGRESS
  | ETIMEDOUT => HAMMER2_ERROR_ETIMEDOUT
  | EINTR => HAMMER2_ERROR_ABORTED
  | EINVAL => HAMMER2_ERROR_EINVAL
  | EEXIST => HAMMER2_ERROR_EEXIST
  | EOPNOTSUPP => HAMMER2_ERROR_EOPNOTSUPP
  | ENOTCONN => HAMMER2_ERROR_ENOTCONN
  | _ => HAMMER2_ERROR_EINVAL
  end.

End Errno.

(** ** Times *)

Module Time.

Record timespec64 := mkTs { tv_sec : Z; tv_nsec : Z }.

Definition hammer2_time_to_timespec (xtime : Z) : timespec64 :=
  mkTs (u64 (xtime / 1000000)) (u32 (xtime mod 1000000) * 1000).

(** [tv_nsec / 1000] truncates towards zero and is then cast to [unsigned]. *)
Definition hammer2_timespec_to_time (ts : timespec64) : Z :=
  u64 (u32 (Z.quot (tv_nsec ts) 1000) + u64 (tv_sec ts) * 1000000).

End Time.

(** ** Unix ids in uuids *)

Module Xid.

(** The six [node] bytes of a [struct uuid]; [hammer2_guid_to_uuid] stores the
    id in [node[2..5]] in host order, little-endian here, over a zeroed uuid
    of 16 bytes. *)
Definition le32 (b0 b1 b2 b3 : Z) : Z :=
  b0 ||| Z.shiftl b1 8 ||| Z.shiftl b2 16 ||| Z.shiftl b3 24.

Definition hammer2_to_unix_xid (uuid : list Z) : Z :=
  le32 (aget 0 uuid 12) (aget 0 uuid 13) (aget 0 uuid 14) (aget 0 uuid 15).

Definition hammer2_guid_to_uuid (guid : Z) : list Z :=
  replicate 12 0 ++
  [guid & 255; Z.shiftr guid 8 & 255; Z.shiftr guid 16 & 255; Z.shiftr guid 24 & 255].

End Xid.

(** ** The directory hash *)

Module Dirhash.
Section Dirhash.
(** The kernel's [crc32c(seed, buf, len)]. *)
Variable crc32c : Z -> list Z -> Z.

(** [hammer2_icrc32(buf, size)] is [~crc32c(~0U, buf, size)]. *)
Definition hammer2_icrc32 (buf : list Z) : Z := u32 (Z.lnot (crc32c (2 ^ 32 - 1) buf)).

(** The characters that end a field: [.], [-], [_] and [~]. *)
Definition is_separator (c : Z) : bool :=
  (c =? 46) || (c =? 45) || (c =? 95) || (c =? 126).

Definition add_field (aname : list Z) (i j : nat) (crcx : Z) : Z :=
  if decide (i = j) then crcx
  else u32 (crcx + hammer2_icrc32 (take (i - j) (drop j aname))).

(** The field loop at index [i], with [rest] the characters from [i] on. *)
Fixpoint dirhash_loop (aname rest : list Z) (i j : nat) (crcx : Z) : nat * nat * Z :=
  match rest with
  | [] => (i, j, crcx)
  | c :: rest' =>
      if is_separator c
      then dirhash_loop aname rest' (S i) (S i) (add_field aname i j crcx)
      else dirhash_loop aname rest' (S i) j crcx
  end.

Definition hammer2_dirhash (aname : list Z) : Z :=
  let key := 0 in
  let '(i, j, crcx) := dirhash_loop aname aname 0 0 0 in
  let crcx := add_field aname i j crcx in
  let crcx := crcx ||| 0x80000000 in
  let key := key ||| u64 (Z.shiftl crcx 32) in
  let crcx := hammer2_icrc32 aname in
  let crcx := Z.lxor crcx (u32 (Z.shiftl crcx 16)) in
  let key := key ||| (crcx & 0xFFFF0000) in
  key ||| 0x8000.

(** The reference: the name's non-empty fields, and the sum of their codes. *)
Fixpoint fields (cur rest : list Z) : list (list Z) :=
  match rest with
  | [] => if decide (cur = []) then [] else [cur]
  | c :: rest' =>
      if is_separator c
      then (if decide (cur = []) then [] else [cur]) ++ fields [] rest'
      else fields (cur ++ [c]) rest'
  end.

Definition field_sum (fs : list (list Z)) : Z :=
  u32 (foldl (fun acc f => acc + hammer2_icrc32 f) 0 fs).

End Dirhash.
End Dirhash.

(** ** Allocation radix and block sizes *)

Module Sizes.

(** [while (((size_t)1 << radix) < bytes) ++radix;]: [None] when the shift
    count reaches the width of [size_t]. *)
Fixpoint radix_loop (fuel : nat) (bytes radix : Z) : option Z :=
  match fuel with
  | O => None
  | S f =>
      if radix <? 64
      then if Z.shiftl 1 radix <? bytes then radix_loop f bytes (radix + 1) else Some radix
      else None
  end.

Definition hammer2_getradix (bytes : Z) : option Z :=
  let radix :=
    if bytes =? HAMMER2_PBUFSIZE then HAMMER2_PBUFRADIX
    else if HAMMER2_LBUFSIZE <=? bytes then HAMMER2_LBUFRADIX
    else if HAMMER2_ALLOC_MIN <=? bytes then HAMMER2_RADIX_MIN
    else 0 in
  radix_loop 65 bytes radix.

(** [hammer2_calc_logical]: the block size, the block's base and the end of
    file rounded up, from the offset and [ip->meta.size]. *)
Definition hammer2_calc_logical (size uoff : Z) : Z * Z * Z :=
  (HAMMER2_PBUFSIZE, uoff &~ HAMMER2_PBUFMASK,
   u64 (size + HAMMER2_PBUFMASK) &~ HAMMER2_PBUFMASK).

Definition hammer2_get_logical : Z := (hammer2_calc_logical 0 0).1.1.

Fixpoint physical_loop (fuel : nat) (pblksize eofbytes : Z) : Z :=
  match fuel with
  | O => pblksize
  | S f =>
      if (eofbytes <=? pblksize) && (HAMMER2_ALLOC_MIN <=? pblksize)
      then physical_loop f (Z.shiftr pblksize 1) eofbytes
      else pblksize
  end.

Definition hammer2_calc_physical (size lbase : Z) : Z :=
  let lblksize := (hammer2_calc_logical size lbase).1.1 in
  if u64 (lbase + lblksize) <=? size then lblksize
  else if size <=? lbase then 0
  else
    let eofbytes := i32 (size - lbase) in
    let pblksize := physical_loop 17 lblksize eofbytes in
    Z.shiftl pblksize 1.

End Sizes.

(** ** Theorems *)

Module SubrFacts.
Import ObjType Errno Time Xid Dirhash Sizes.

(** Storing a file type and reading it back. *)
Lemma obj_type_vtype_id v : v <> VNON -> v <> VBAD ->
  hammer2_get_vtype (hammer2_get_obj_type v) = v.
Proof. by destruct v. Qed.

(** The flags a [hammer2_error_to_errno] result cannot be traced back to. *)
Definition error_flags : list Z :=
  [HAMMER2_ERROR_EIO; HAMMER2_ERROR_CHECK; HAMMER2_ERROR_BADBREF; HAMMER2_ERROR_ENOSPC;
   HAMMER2_ERROR_ENOENT; HAMMER2_ERROR_ENOTEMPTY; HAMMER2_ERROR_EAGAIN; HAMMER2_ERROR_ENOTDIR;
   HAMMER2_ERROR_EISDIR; HAMMER2_ERROR_EINPROGRESS; HAMMER2_ERROR_ABORTED; HAMMER2_ERROR_EOF;
   HAMMER2_ERROR_EINVAL; HAMMER2_ERROR_EEXIST; HAMMER2_ERROR_EDEADLK; HAMMER2_ERROR_ESRCH;
   HAMMER2_ERROR_ETIMEDOUT; HAMMER2_ERROR_ENOTCONN; HAMMER2_ERROR_EOPNOTSUPP].

Definition error_roundtrips (e : Z) : bool :=
  hammer2_errno_to_error (hammer2_error_to_errno e) =? e.

Lemma has_zero_iff x f : has x f = false <-> Z.land x f = 0.
Proof.
  unfold has, nz. rewrite negb_false_iff. apply Z.eqb_eq.
Qed.

(** *** Times *)

Lemma time_ts_time xtime : is_u64 xtime ->
  hammer2_timespec_to_time (hammer2_time_to_timespec xtime) = xtime.
Proof.
  intros Hx. unfold hammer2_timespec_to_time, hammer2_time_to_timespec. simpl.
  pose proof (Z.mod_pos_bound xtime 1000000). pose proof (Z.div_mod xtime 1000000).
  assert (0 <= xtime / 1000000 < 2 ^ 64).
  { split; [apply Z.div_pos; wrap_unfold; lia|]. wrap_unfold.
    apply Z.div_lt_upper_bound; lia. }
  rewrite (u32_small (xtime mod 1000000)) by (wrap_unfold; lia).
  rewrite Z.quot_mul, u32_small by (wrap_unfold; lia).
  rewrite !(u64_small (xtime / 1000000)) by (wrap_unfold; lia).
  rewrite u64_small by (wrap_unfold; lia). lia.
Qed.

Lemma ts_time_ts s n : 0 <= s -> 0 <= n < 1000000000 -> s * 1000000 + 999999 < 2 ^ 64 ->
  hammer2_time_to_timespec (hammer2_timespec_to_time (mkTs s n)) = mkTs s (n / 1000 * 1000).
Proof.
  intros Hs Hn Hb. unfold hammer2_timespec_to_time, hammer2_time_to_timespec. simpl.
  assert (0 <= n / 1000 < 1000000).
  { split; [apply Z.div_pos; lia | apply Z.div_lt_upper_bound; lia]. }
  rewrite Z.quot_div_nonneg by lia.
  rewrite (u32_small (n / 1000)) by (wrap_unfold; lia).
  rewrite (u64_small s) by (wrap_unfold; lia).
  rewrite (u64_small (_ + _)) by (wrap_unfold; lia).
  rewrite Z.div_add, Z.mod_add by lia.
  rewrite (Z.div_small (n / 1000)), (Z.mod_small (n / 1000)) by lia.
  rewrite u64_small, u32_small by (wrap_unfold; lia). done.
Qed.

(** *** Radix *)

Lemma radix_loop_spec fuel bytes radix :
  0 <= radix -> 0 <= bytes <= 2 ^ 63 -> radix <= Z.log2_up bytes ->
  Z.log2_up bytes - radix < Z.of_nat fuel ->
  radix_loop fuel bytes radix = Some (Z.log2_up bytes).
Proof.
  revert radix. induction fuel as [|f IH]; intros radix Hr Hb Hle Hf; [lia|].
  simpl. rewrite Z.shiftl_1_l.
  assert (Z.log2_up bytes <= 63).
  { rewrite <- (Z.log2_up_pow2 63) by lia. apply Z.log2_up_le_mono. lia. }
  destruct (Z.ltb_spec radix 64); [|lia].
  destruct (Z.ltb_spec (2 ^ radix) bytes) as [Hlt|Hge].
  - apply IH; try lia. assert (radix < Z.log2_up bytes); [|lia].
    apply Z.log2_up_lt_pow2; lia.
  - f_equal. assert (Z.log2_up bytes <= radix); [|lia].
    rewrite <- (Z.log2_up_pow2 radix) by lia. apply Z.log2_up_le_mono. lia.
Qed.

Lemma log2_up_ge_pow2 k bytes : 0 <= k -> 2 ^ k <= bytes -> k <= Z.log2_up bytes.
Proof.
  intros Hk Hb. rewrite <- (Z.log2_up_pow2 k) by lia. by apply Z.log2_up_le_mono.
Qed.

Lemma getradix_log2_up bytes : 0 <= bytes <= 2 ^ 63 ->
  hammer2_getradix bytes = Some (Z.log2_up bytes).
Proof.
  intros Hb. unfold hammer2_getradix. h2const.
  pose proof (Z.log2_up_nonneg bytes).
  assert (Z.log2_up bytes <= 63).
  { rewrite <- (Z.log2_up_pow2 63) by lia. apply Z.log2_up_le_mono. lia. }
  zcases.
  - subst. reflexivity.
  - apply radix_loop_spec; try lia. apply log2_up_ge_pow2; lia.
  - apply radix_loop_spec; try lia. apply log2_up_ge_pow2; lia.
  - apply radix_loop_spec; lia.
Qed.

Lemma getradix_pow2 r : 0 <= r <= 63 -> hammer2_getradix (2 ^ r) = Some r.
Proof.
  intros Hr. pose proof (Z.pow_le_mono_r 2 r 63). pose proof (Z.pow_pos_nonneg 2 r).
  by rewrite getradix_log2_up, Z.log2_up_pow2 by lia.
Qed.

(** *** Physical block sizes *)

Lemma physical_step f p e : 1024 <= p ->
  physical_loop (S f) p e = if e <=? p then physical_loop f (Z.shiftr p 1) e else p.
Proof. intros Hp. simpl. h2const. zcases; done. Qed.

Lemma physical_stop f p e : p < 1024 -> physical_loop f p e = p.
Proof. intros Hp. destruct f; simpl; [done|]. h2const. zcases; by rewrite ?andb_false_r. Qed.

(** The loop halves 65536 until the next half no longer covers the tail or
    falls below the minimum allocation. *)
Lemma physical_loop_spec eof : 0 < eof < 65536 ->
  Z.shiftl (physical_loop 17 65536 eof) 1 = Z.max 1024 (2 ^ Z.log2_up eof).
Proof.
  intros He.
  assert (forall k, 9 <= k -> 2 ^ k < eof <= 2 ^ (k + 1) -> Z.log2_up eof = k + 1) as Hlog.
  { intros k Hk Hr. apply Z.log2_up_unique; [lia|].
    replace (Z.pred (k + 1)) with k by lia. lia. }
  rewrite (physical_step _ 65536) by lia. change (Z.shiftr 65536 1) with 32768.
  rewrite (physical_step _ 32768) by lia. change (Z.shiftr 32768 1) with 16384.
  rewrite (physical_step _ 16384) by lia. change (Z.shiftr 16384 1) with 8192.
  rewrite (physical_step _ 8192) by lia. change (Z.shiftr 8192 1) with 4096.
  rewrite (physical_step _ 4096) by lia. change (Z.shiftr 4096 1) with 2048.
  rewrite (physical_step _ 2048) by lia. change (Z.shiftr 2048 1) with 1024.
  rewrite (physical_step _ 1024) by lia. change (Z.shiftr 1024 1) with 512.
  rewrite physical_stop by lia. zcases.
  2: rewrite (Hlog 10) by lia. 3: rewrite (Hlog 11) by lia. 4: rewrite (Hlog 12) by lia.
  5: rewrite (Hlog 13) by lia. 6: rewrite (Hlog 14) by lia. 7: rewrite (Hlog 15) by lia.
  2-7: reflexivity.
  assert (2 ^ Z.log2_up eof <= 1024); [|change (Z.shiftl 512 1) with 1024; lia].
  apply (Z.pow_le_mono_r 2 _ 10); [lia|].
  change 10 with (Z.log2_up 1024). apply Z.log2_up_le_mono. lia.
Qed.

Lemma log2_up_spec_lt eof : 0 < eof -> eof <= 2 ^ Z.log2_up eof.
Proof.
  intros He. destruct (Z.eq_dec eof 1) as [->|]; [done|]. apply Z.log2_up_spec. lia.
Qed.

(** The size of the block that holds the end of file. *)
Lemma calc_physical_tail size lbase :
  is_u64 size -> is_u64 lbase -> u64 (lbase + 65536) > size -> lbase < size ->
  hammer2_calc_physical size lbase = Z.max 1024 (2 ^ Z.log2_up (size - lbase)).
Proof.
  intros Hs Hl Hgt Hlt. unfold is_u64 in *.
  assert (u64 (lbase + 65536) = lbase + 65536) as E.
  { destruct (Z.lt_ge_cases (lbase + 65536) (2 ^ 64)).
    - apply u64_small. unfold is_u64. lia.
    - exfalso. assert (u64 (lbase + 65536) = lbase + 65536 - 2 ^ 64); [|lia].
      symmetry. apply (Z.mod_unique _ _ 1); lia. }
  rewrite E in Hgt. unfold hammer2_calc_physical, hammer2_calc_logical, fst, HAMMER2_PBUFSIZE.
  rewrite E. zcases. rewrite i32_small by lia. apply physical_loop_spec. lia.
Qed.

(** *** The directory hash *)

Section DirhashFacts.
Context (crc32c : Z -> list Z -> Z).
Local Abbreviation icrc := (hammer2_icrc32 crc32c).

Lemma u32_add_l x y : u32 (u32 x + y) = u32 (x + y).
Proof. unfold u32. by rewrite Zplus_mod_idemp_l. Qed.

Lemma foldl_sum_shift fs a :
  foldl (fun acc f => acc + icrc f) a fs = a + foldl (fun acc f => acc + icrc f) 0 fs.
Proof.
  revert a. induction fs as [|f fs IH]; intros a; simpl; [lia|].
  rewrite IH, (IH (0 + icrc f)). lia.
Qed.

Lemma add_field_cur pre cur tl crcx i j :
  i = length (pre ++ cur) -> j = length pre -> u32 crcx = crcx ->
  add_field crc32c (pre ++ cur ++ tl) i j crcx =
  u32 (crcx + foldl (fun acc f => acc + icrc f) 0 (if decide (cur = []) then [] else [cur])).
Proof.
  rewrite length_app. intros Hi Hj Hc. unfold add_field.
  destruct (decide (cur = [])) as [->|Hcur].
  - rewrite decide_True by (simpl in *; lia). simpl. by rewrite Z.add_0_r.
  - rewrite decide_False by (destruct cur; simpl in *; [done|lia]).
    rewrite drop_app_length', take_app_length' by lia. done.
Qed.

(** The loop from index [i], whose current field began at [j], adds the codes
    of the fields of the rest of the name. *)
Lemma dirhash_loop_spec pre cur rest crcx i j :
  i = length (pre ++ cur) -> j = length pre -> u32 crcx = crcx ->
  let '(i', j', c') := dirhash_loop crc32c (pre ++ cur ++ rest) rest i j crcx in
  add_field crc32c (pre ++ cur ++ rest) i' j' c' =
  u32 (crcx + foldl (fun acc f => acc + icrc f) 0 (fields cur rest)).
Proof.
  revert pre cur crcx i j. induction rest as [|c rest IH]; intros pre cur crcx i j Hi Hj Hc.
  - simpl. by apply add_field_cur.
  - simpl. destruct (is_separator c).
    + rewrite (add_field_cur pre cur (c :: rest)) by done.
      set (crcx' := u32 _).
      specialize (IH (pre ++ cur ++ [c]) [] crcx' (S i) (S i)).
      rewrite app_nil_l, app_nil_r, <- !app_assoc in IH. simpl in IH.
      rewrite foldl_app, foldl_sum_shift, Z.add_assoc, <- u32_add_l.
      apply IH; rewrite ?length_app in *; simpl; [lia|lia|].
      unfold crcx', u32. apply Z.mod_mod. lia.
    + specialize (IH pre (cur ++ [c]) crcx (S i) j).
      rewrite <- !app_assoc in IH. simpl in IH. apply IH; [|done|done].
      rewrite Hi, !length_app. simpl. lia.
Qed.

(** The four parts of a hash never share a bit. *)
Lemma dirhash_parts name :
  hammer2_dirhash crc32c name =
  Z.lor (Z.lor (Z.shiftl (Z.lor (field_sum crc32c (fields [] name)) 0x80000000) 32)
          (Z.land (Z.lxor (icrc name) (u32 (Z.shiftl (icrc name) 16))) 0xFFFF0000)) 0x8000.
Proof.
  unfold hammer2_dirhash, field_sum.
  pose proof (dirhash_loop_spec [] [] name 0 0 0 eq_refl eq_refl eq_refl) as H.
  simpl in H. destruct (dirhash_loop _ _ _ _ _ _) as [[i j] c]. simpl in H. rewrite H.
  rewrite Z.add_0_l, Z.lor_0_l. set (F := foldl _ _ _). do 2 f_equal.
  apply u64_small. pose proof (u32_range F) as HF. unfold is_u32, is_u64 in *.
  assert (0 <= Z.lor (u32 F) 0x80000000 < 2 ^ 32).
  { split; [apply Z.lor_nonneg; lia|].
    apply Z.log2_lt_pow2; [|rewrite Z.log2_lor by lia].
    - assert (Z.lor (u32 F) 0x80000000 <> 0); [|pose proof (Z.lor_nonneg (u32 F) 0x80000000); lia].
      intros E. apply Z.lor_eq_0_iff in E. lia.
    - apply Z.max_lub_lt; [|done].
      destruct (Z.eq_dec (u32 F) 0) as [->|]; [done|]. apply Z.log2_lt_pow2; lia. }
  rewrite Z.shiftl_mul_pow2 by lia. lia.
Qed.

Lemma dirhash_u64 name : is_u64 (hammer2_dirhash crc32c name).
Proof.
  rewrite dirhash_parts. set (F := field_sum _ _). set (M := Z.lxor _ _).
  apply is_u64_bits.
  - intros n Hn. rewrite !Z.lor_spec, Z.shiftl_spec, Z.lor_spec, Z.land_spec by lia.
    rewrite (u64_testbit_high 0xFFFF0000), (u64_testbit_high 0x8000) by (unfold is_u64; lia).
    rewrite andb_false_r, !orb_false_r.
    rewrite (u32_testbit_high F), (u32_testbit_high 0x80000000);
      unfold is_u32; lia || apply u32_range || done.
  - assert (0 <= F) by apply u32_range.
    rewrite !Z.lor_nonneg, Z.shiftl_nonneg, Z.lor_nonneg, Z.land_nonneg. lia.
Qed.

Lemma dirhash_bit63 name : Z.testbit (hammer2_dirhash crc32c name) 63 = true.
Proof.
  rewrite dirhash_parts, !Z.lor_spec, Z.shiftl_spec, Z.lor_spec by lia.
  change (Z.testbit 0x80000000 (63 - 32)) with true. by rewrite orb_true_r.
Qed.

Lemma dirhash_low name : Z.land (hammer2_dirhash crc32c name) 0xFFFF = 0x8000.
Proof.
  rewrite dirhash_parts. apply Z.bits_inj'. intros n Hn.
  rewrite Z.land_spec, !Z.lor_spec, Z.shiftl_spec, Z.land_spec by lia.
  change 0xFFFF with (Z.ones 16). change 0xFFFF0000 with (ones_at 16 16).
  rewrite Z.testbit_ones_nonneg, testbit_ones_at by lia.
  destruct (Z.ltb_spec n 16); [|rewrite andb_false_r; symmetry; apply Z.bits_above_log2; [lia|]].
  - rewrite (Z.testbit_neg_r _ (n - 32)) by lia. zcases. simpl.
    by rewrite andb_false_r, andb_true_r.
  - change (Z.log2 0x8000) with 15. lia.
Qed.
End DirhashFacts.


(** *** Unix ids *)

Lemma le32_bytes g : is_u32 g ->
  le32 (Z.land g 255) (Z.land (Z.shiftr g 8) 255) (Z.land (Z.shiftr g 16) 255)
    (Z.land (Z.shiftr g 24) 255) = g.
Proof.
  intros Hg. apply Z.bits_inj'. intros n Hn. unfold le32. change 255 with (Z.ones 8).
  rewrite !Z.lor_spec, !Z.shiftl_spec, Z.land_spec, Z.testbit_ones_nonneg by lia.
  assert (forall k, 0 <= k -> Z.testbit (Z.land (Z.shiftr g k) (Z.ones 8)) (n - k) =
    (k <=? n) && (n <? k + 8) && Z.testbit g n) as Hb.
  { intros k Hk. destruct (Z.leb_spec k n).
    - rewrite Z.land_spec, Z.shiftr_spec, Z.testbit_ones_nonneg by lia.
      replace (n - k + k) with n by lia. rewrite andb_comm. f_equal. zcases.
    - by rewrite Z.testbit_neg_r by lia. }
  rewrite !Hb by lia. destruct (Z.testbit g n) eqn:E; rewrite ?andb_false_r; [|done].
  assert (n < 32). { destruct (Z.lt_ge_cases n 32); [done|]. by rewrite u32_testbit_high in E. }
  zcases; done.
Qed.

(** *** The theorems *)

(** hammer2_dirhash() is its description: the upper half is the sum of the
    codes of the non-empty fields of the name, cut at [.], [-], [_] and [~],
    with the top bit set, and the lower half is the folded code of the whole
    name with its low half replaced by 0x8000.  So a hash is a [uint64_t]
    key of the visible name space (bit 63) whose low 16 bits are the first
    collision iterator, for every name and every CRC. *)
Theorem dirhash_reference crc32c name :
  hammer2_dirhash crc32c name =
    Z.lor (Z.lor (Z.shiftl (Z.lor (field_sum crc32c (fields [] name)) 0x80000000) 32)
            (Z.land (Z.lxor (hammer2_icrc32 crc32c name)
               (u32 (Z.shiftl (hammer2_icrc32 crc32c name) 16))) 0xFFFF0000)) 0x8000 /\
  is_u64 (hammer2_dirhash crc32c name) /\
  Z.testbit (hammer2_dirhash crc32c name) 63 = true /\
  Z.land (hammer2_dirhash crc32c name) 0xFFFF = 0x8000.
Proof.
  split; [apply dirhash_parts|]. split; [apply dirhash_u64|].
  split; [apply dirhash_bit63|apply dirhash_low].
Qed.

(** Hammer2_getradix() ends for every size up to 2^63 and returns the
    smallest radix whose power of two covers it; its shortcuts for 64KB, 16KB
    and 1KB never start above that radix. *)
Theorem getradix_minimal bytes : 1 <= bytes <= 2 ^ 63 ->
  exists r, hammer2_getradix bytes = Some r /\ 0 <= r <= 63 /\ bytes <= 2 ^ r /\
    forall r', 0 <= r' -> bytes <= 2 ^ r' -> r <= r'.
Proof.
  intros Hb. exists (Z.log2_up bytes). split; [apply getradix_log2_up; lia|]. split; [|split].
  - split; [apply Z.log2_up_nonneg|]. change 63 with (Z.log2_up (2 ^ 63)).
    apply Z.log2_up_le_mono. lia.
  - apply log2_up_spec_lt. lia.
  - intros r' Hr' Hle. rewrite <- (Z.log2_up_pow2 r') by lia. by apply Z.log2_up_le_mono.
Qed.

Lemma getradix_minimal_witness :
  exists r, hammer2_getradix 20000 = Some r /\ 0 <= r <= 63 /\ 20000 <= 2 ^ r /\
    forall r', 0 <= r' -> 20000 <= 2 ^ r' -> r <= r'.
Proof. apply (getradix_minimal 20000). vm_compute. split; congruence. Defined.

(** hammer2_calc_physical() for a logical block at [lbase] of a file of
    [size] bytes: a full 64KB inside the file, nothing past its end, and for
    the block with the end of file the smallest power of two, at least 1KB,
    that covers the tail. *)
Theorem calc_physical_exact size lbase :
  is_u64 size -> is_u64 lbase -> lbase + 65536 < 2 ^ 64 ->
  hammer2_calc_physical size lbase =
    (if lbase + 65536 <=? size then 65536
     else if size <=? lbase then 0
     else Z.max 1024 (2 ^ Z.log2_up (size - lbase))) /\
  (lbase < size -> Z.min 65536 (size - lbase) <= hammer2_calc_physical size lbase <= 65536).
Proof.
  intros Hs Hl Hlt.
  assert (u64 (lbase + 65536) = lbase + 65536) as E by (apply u64_small; unfold is_u64 in *; lia).
  assert (hammer2_calc_physical size lbase =
    if lbase + 65536 <=? size then 65536
    else if size <=? lbase then 0 else Z.max 1024 (2 ^ Z.log2_up (size - lbase))) as Ec.
  { destruct (Z.leb_spec (lbase + 65536) size), (Z.leb_spec size lbase); try lia.
    3: apply calc_physical_tail; try done; lia.
    all: unfold hammer2_calc_physical, hammer2_calc_logical, fst, HAMMER2_PBUFSIZE;
      rewrite E; zcases. }
  split; [done|]. intros Hin. rewrite Ec. zcases.
  pose proof (log2_up_spec_lt (size - lbase) ltac:(lia)).
  assert (2 ^ Z.log2_up (size - lbase) <= 65536); [|lia].
  apply (Z.pow_le_mono_r 2 _ 16); [lia|]. change 16 with (Z.log2_up 65536).
  apply Z.log2_up_le_mono. lia.
Qed.

Lemma calc_physical_exact_witness :
  hammer2_calc_physical 70000 65536 = Z.max 1024 (2 ^ Z.log2_up (70000 - 65536)).
Proof.
  refine (proj1 (calc_physical_exact 70000 65536 _ _ _)); vm_compute; intuition congruence.
Defined.

(** Timestamps survive the conversions: every on-media time (microseconds,
    64 bits) comes back unchanged through a timespec, and a timespec comes
    back with its nanoseconds rounded down to the microsecond. *)
Theorem time_roundtrip xtime s n :
  is_u64 xtime -> 0 <= s -> 0 <= n < 1000000000 -> s * 1000000 + 999999 < 2 ^ 64 ->
  hammer2_timespec_to_time (hammer2_time_to_timespec xtime) = xtime /\
  hammer2_time_to_timespec (hammer2_timespec_to_time (mkTs s n)) = mkTs s (n / 1000 * 1000).
Proof. intros. split; [by apply time_ts_time|by apply ts_time_ts]. Qed.

Lemma time_roundtrip_witness :
  hammer2_timespec_to_time (hammer2_time_to_timespec 1700000000123456) = 1700000000123456 /\
  hammer2_time_to_timespec (hammer2_timespec_to_time (mkTs 1700000000 123456789)) =
    mkTs 1700000000 (123456789 / 1000 * 1000).
Proof. apply time_roundtrip; vm_compute; intuition congruence. Defined.

(** A unix id stored in a uuid by hammer2_guid_to_uuid() is read back by
    hammer2_to_unix_xid(), and the uuid's other twelve bytes are zero. *)
Theorem xid_roundtrip guid : is_u32 guid ->
  hammer2_to_unix_xid (hammer2_guid_to_uuid guid) = guid /\
  length (hammer2_guid_to_uuid guid) = 16%nat /\
  take 12 (hammer2_guid_to_uuid guid) = replicate 12 0.
Proof. intros Hg. split; [by apply le32_bytes|done]. Qed.

Lemma xid_roundtrip_witness :
  hammer2_to_unix_xid (hammer2_guid_to_uuid 1000) = 1000 /\
  length (hammer2_guid_to_uuid 1000) = 16%nat /\
  take 12 (hammer2_guid_to_uuid 1000) = replicate 12 0.
Proof. apply xid_roundtrip. vm_compute. intuition congruence. Defined.

(** an error flag that crosses the errno boundary and comes back is the
    same flag, with exactly four exceptions: BADBREF and EOF, which share an
    errno with EIO and CHECK, and EDEADLK and ESRCH, which
    hammer2_errno_to_error() does not know and turns into EINVAL. *)
Theorem error_roundtrip_exact :
  filter (fun e => error_roundtrips e = false) error_flags =
  [HAMMER2_ERROR_BADBREF; HAMMER2_ERROR_EOF; HAMMER2_ERROR_EDEADLK; HAMMER2_ERROR_ESRCH] /\
  hammer2_errno_to_error (hammer2_error_to_errno HAMMER2_ERROR_EDEADLK) = HAMMER2_ERROR_EINVAL /\
  hammer2_errno_to_error (hammer2_error_to_errno HAMMER2_ERROR_ESRCH) = HAMMER2_ERROR_EINVAL.
Proof. vm_compute. done. Qed.
End SubrFacts.
