(* ===== verification/Bmap.v ===== *)
(** hammer2_bmap_alloc() of hammer2_freemap.c: the allocator of one 4MB
    segment, its refinement of a ledger of disjoint extents and its free
    space accounting. *)
From S2P Require Import Prelude Disk Subr.
From Stdlib Require Import ZArith Lia Bool.
From stdpp Require Import base list gmap.
Open Scope Z_scope.

(** ** One segment: hammer2_bmap_alloc() *)


(** Bits of the bitmap one allocation takes, two for every 16KB block. *)
Definition bmradix_of (radix : Z) : Z :=
  if radix <=? HAMMER2_FREEMAP_BLOCK_RADIX then 2
  else Z.shiftl 2 (radix - HAMMER2_FREEMAP_BLOCK_RADIX).

Definition bmmask_of (bmradix : Z) : Z :=
  if bmradix =? HAMMER2_BMAP_BITS_PER_ELEMENT then HAMMER2_BMAP_ALLONES
  else Z.shiftl 1 bmradix - 1.

(** The inner loop of the general scan, on one 64-bit element: the bit index
    and mask of the first clear, aligned run. *)
Fixpoint scan_bits (fuel : nat) (q bmradix j bmmask : Z) : option (Z * Z) :=
  match fuel with
  | O => None
  | S f =>
      if j <? HAMMER2_BMAP_BITS_PER_ELEMENT
      then if (q & bmmask) =? 0 then Some (j, bmmask)
           else scan_bits f q bmradix (j + bmradix) (u64 (Z.shiftl bmmask bmradix))
      else None
  end.

(** The outer loop, [n] elements from [i] on. *)
Fixpoint scan_elements (n : nat) (bitmapq : list Z) (bmradix i : Z) : option (Z * Z * Z) :=
  match n with
  | O => None
  | S n' =>
      match scan_bits 33 (aget 0 bitmapq i) bmradix 0 (bmmask_of bmradix) with
      | Some (j, bmmask) => Some (i, j, bmmask)
      | None => scan_elements n' bitmapq bmradix (i + 1)
      end
  end.

(** The linear iterator serves the request when it is inside a block and the
    request fits the rest of it. *)
Definition linear_usable (bm : hammer2_bmap_data) (size : Z) : bool :=
  (u32 (bm_linear bm) & HAMMER2_FREEMAP_BLOCK_MASK) + size <=? HAMMER2_FREEMAP_BLOCK_SIZE.

Definition linear_active (bm : hammer2_bmap_data) : bool :=
  nz (bm_linear bm & HAMMER2_FREEMAP_BLOCK_MASK) && (bm_linear bm <? HAMMER2_SEGSIZE).

(** The position the [sub_key] suggests, for DATA of a block or more. *)
Definition sub_key_pos (class sub_key radix : Z) : option (Z * Z) :=
  if (Z.shiftr class 8 =? HAMMER2_BREF_TYPE_DATA) && (HAMMER2_FREEMAP_BLOCK_RADIX <=? radix)
  then Some ((sub_key & HAMMER2_BMAP_MASK) / (HAMMER2_BMAP_SIZE / HAMMER2_BMAP_ELEMENTS),
             (sub_key & HAMMER2_BMAP_INDEX_MASK) /
             (HAMMER2_BMAP_INDEX_SIZE / HAMMER2_BMAP_BLOCKS_PER_ELEMENT) * 2)
  else None.

Definition bitmap_pos (bm : hammer2_bmap_data) (class sub_key radix : Z) : option (Z * Z * Z) :=
  let bmradix := bmradix_of radix in
  match sub_key_pos class sub_key radix with
  | Some (i, j) =>
      let bmmask := u64 (Z.shiftl (bmmask_of bmradix) j) in
      if (aget 0 (bm_bitmapq bm) i & bmmask) =? 0 then Some (i, j, bmmask)
      else scan_elements 8 (bm_bitmapq bm) bmradix 0
  | None => scan_elements 8 (bm_bitmapq bm) bmradix 0
  end.

(** The choice of a position: element, mask, byte offset in the segment and
    the new linear iterator; [None] is ENOSPC. *)
Definition pick (bm : hammer2_bmap_data) (class sub_key radix : Z) : option (Z * Z * Z * Z) :=
  let size := Z.shiftl 1 radix in
  let bmradix := bmradix_of radix in
  if linear_usable bm size && linear_active bm then
    let offset := bm_linear bm in
    let i := Z.quot offset (HAMMER2_SEGSIZE / HAMMER2_BMAP_ELEMENTS) in
    let j := Z.quot offset (HAMMER2_FREEMAP_BLOCK_SIZE / 2) & 62 in
    Some (i, u64 (Z.shiftl (bmmask_of bmradix) j), offset, i32 (offset + size))
  else
    match bitmap_pos bm class sub_key radix with
    | None => None
    | Some (i, j, bmmask) =>
        let offset := i * (HAMMER2_SEGSIZE / HAMMER2_BMAP_ELEMENTS) +
                      j * (HAMMER2_FREEMAP_BLOCK_SIZE / 2) in
        Some (i, bmmask, offset,
              if nz (size & HAMMER2_FREEMAP_BLOCK_MASK) then i32 (offset + size)
              else bm_linear bm)
    end.

(** [while ((pbmmask & bmmask) == 0) pbmmask <<= pbmradix;] *)
Fixpoint pbm_loop (fuel : nat) (pbmmask bmmask pbmradix : Z) : Z :=
  match fuel with
  | O => pbmmask
  | S f => if (pbmmask & bmmask) =? 0
           then pbm_loop f (u64 (Z.shiftl pbmmask pbmradix)) bmmask pbmradix
           else pbmmask
  end.

(** Whether the whole 64KB device buffer around the run is free, so that it
    can be instantiated without a read. *)
Definition newnz_wanted (q bmmask size : Z) : bool :=
  let pbmradix := Z.shiftl 2 (HAMMER2_PBUFRADIX - HAMMER2_FREEMAP_BLOCK_RADIX) in
  ((q & bmmask) =? 0) && negb (HAMMER2_PBUFSIZE =? size) &&
  ((q & pbm_loop 9 (bmmask_of pbmradix) bmmask pbmradix) =? 0).

(** The bitmap-granular change of the free space. *)
Definition bgsize_of (q bmmask radix : Z) : Z :=
  if radix <? HAMMER2_FREEMAP_BLOCK_RADIX
  then if nz (q & bmmask) then 0 else HAMMER2_FREEMAP_BLOCK_SIZE
  else Z.shiftl 1 radix.

(** What one call leaves: the segment, the device offset in [*basep], the
    volume header's [allocator_free] and the buffer passed to
    [hammer2_io_newnz()], if any. *)
Record bmap_alloc_result := mkAlloc {
  ba_bmap : hammer2_bmap_data;
  ba_base : Z;
  ba_free : Z;
  ba_newnz : option Z
}.

(** [None] is HAMMER2_ERROR_ENOSPC, which changes nothing. *)
Definition hammer2_bmap_alloc (allocator_free : Z) (bm : hammer2_bmap_data)
    (class sub_key radix base : Z) : option bmap_alloc_result :=
  match pick bm class sub_key radix with
  | None => None
  | Some (i, bmmask, offset, linear) =>
      let q := aget 0 (bm_bitmapq bm) i in
      let newnz :=
        if newnz_wanted q bmmask (Z.shiftl 1 radix)
        then Some (u64 (base + (offset &~ HAMMER2_PBUFMASK)) ||| HAMMER2_PBUFRADIX)
        else None in
      let bgsize := bgsize_of q bmmask radix in
      Some (mkAlloc
        (mkBmap linear (if bm_class bm =? 0 then class else bm_class bm)
           (u32 (bm_avail bm - bgsize))
           (aset (bm_bitmapq bm) i (q ||| bmmask)))
        (u64 (base + offset)) (u64 (allocator_free - bgsize)) newnz)
  end.

(** *** The reference view: 256 blocks of 16KB *)

(** The state of block [b] of a segment: 0 free, 2 staged, 3 allocated. *)
Definition blk (bm : hammer2_bmap_data) (b : Z) : Z :=
  pair2 (aget 0 (bm_bitmapq bm) (b / 32)) (b mod 32).

(** How many blocks a request of [radix] takes. *)
Definition nblocks (radix : Z) : Z := if radix <=? 14 then 1 else 2 ^ (radix - 14).

Record bmap_ok (bm : hammer2_bmap_data) : Prop := {
  bok_len : length (bm_bitmapq bm) = 8%nat;
  bok_u64 : Forall is_u64 (bm_bitmapq bm);
  bok_linear : 0 <= bm_linear bm <= HAMMER2_SEGSIZE;
  bok_lalign : bm_linear bm mod 1024 = 0
}.

(** The requests the callers make: 1KB to 64KB, file data at 64KB keys. *)
Definition request_ok (class sub_key radix : Z) : Prop :=
  10 <= radix <= 16 /\ (Z.shiftr class 8 = HAMMER2_BREF_TYPE_DATA -> sub_key mod 65536 = 0).

(** An aligned run of [w] free blocks from [k] inside one element. *)
Definition free_run (bm : hammer2_bmap_data) (k w : Z) : Prop :=
  0 <= k < 256 /\ k mod w = 0 /\ forall b, k <= b < k + w -> blk bm b = 0.

(** *** Masks *)

Lemma nblocks_cases radix : 10 <= radix <= 16 ->
  nblocks radix = 1 \/ nblocks radix = 2 \/ nblocks radix = 4.
Proof.
  intros Hr. unfold nblocks. zcases.
  assert (radix = 15 \/ radix = 16) as [-> | ->] by lia; vm_compute; lia.
Qed.

Lemma bmradix_nblocks radix : 10 <= radix <= 16 -> bmradix_of radix = 2 * nblocks radix.
Proof.
  intros Hr. unfold bmradix_of, nblocks. h2const. zcases.
  rewrite Z.shiftl_mul_pow2 by lia. lia.
Qed.

Lemma bmmask_ones w : w = 1 \/ w = 2 \/ w = 4 -> bmmask_of (2 * w) = ones_at 0 (2 * w).
Proof. by intros [-> | [-> | ->]]. Qed.

Lemma ones_at_shift k w d : 0 <= k -> 0 <= w -> 0 <= d -> k + d + w <= 64 ->
  u64 (Z.shiftl (ones_at k w) d) = ones_at (k + d) w.
Proof.
  intros Hk Hw Hd Hb. unfold ones_at. rewrite Z.shiftl_shiftl by lia.
  apply u64_small, is_u64_ones_at; lia.
Qed.

(** *** The scan *)

Section Scan.
Context (w : Z) (Hw : w = 1 \/ w = 2 \/ w = 4).

Lemma scan_bits_some fuel q t mask j m :
  0 <= t -> (2 * (w * t) < 64 -> mask = ones_at (2 * (w * t)) (2 * w)) ->
  scan_bits fuel q (2 * w) (2 * (w * t)) mask = Some (j, m) ->
  exists t', t <= t' /\ j = 2 * (w * t') /\ w * t' + w <= 32 /\
    m = ones_at (2 * (w * t')) (2 * w) /\ Z.land q m = 0.
Proof.
  revert t mask. induction fuel as [|f IH]; intros t mask Ht Hm; simpl; [done|]. h2const.
  destruct (Z.ltb_spec (2 * (w * t)) 64) as [Hlt|]; [|done].
  destruct (Z.eqb_spec (Z.land q mask) 0) as [Hz|].
  - intros [= <- <-]. exists t. rewrite <- Hm by lia.
    repeat split; try lia; done || (destruct Hw as [-> | [-> | ->]]; lia).
  - replace (2 * (w * t) + 2 * w) with (2 * (w * (t + 1))) by lia. intros E.
    apply IH in E; [|lia|].
    + destruct E as (t' & H1 & H2). exists t'. split; [lia|done].
    + intros Hlt'. rewrite Hm by lia. rewrite ones_at_shift by lia. f_equal. lia.
Qed.

Lemma scan_bits_none fuel q t mask :
  0 <= t -> (2 * (w * t) < 64 -> mask = ones_at (2 * (w * t)) (2 * w)) ->
  32 <= w * t + Z.of_nat fuel ->
  scan_bits fuel q (2 * w) (2 * (w * t)) mask = None ->
  forall t', t <= t' -> w * t' + w <= 32 -> Z.land q (ones_at (2 * (w * t')) (2 * w)) <> 0.
Proof.
  revert t mask. induction fuel as [|f IH]; intros t mask Ht Hm Hf; simpl.
  - intros _ t' Ht' Hb. assert (w * t <= w * t') by (apply Z.mul_le_mono_nonneg_l; lia). lia.
  - h2const. destruct (Z.ltb_spec (2 * (w * t)) 64) as [Hlt|Hge].
    + destruct (Z.eqb_spec (Z.land q mask) 0) as [Hz|Hnz]; [done|].
      replace (2 * (w * t) + 2 * w) with (2 * (w * (t + 1))) by lia. intros E t' Ht' Hb.
      destruct (Z.eq_dec t' t) as [->|]; [by rewrite <- Hm by lia|].
      eapply IH; [| |..|exact E| |]; try lia.
      intros Hlt'. rewrite Hm by lia. rewrite ones_at_shift by lia. f_equal. lia.
    + intros _ t' Ht' Hb. assert (w * t <= w * t') by (apply Z.mul_le_mono_nonneg_l; lia). lia.
Qed.

Lemma scan_elements_some n bq i0 i j m :
  0 <= i0 -> scan_elements n bq (2 * w) i0 = Some (i, j, m) ->
  i0 <= i < i0 + Z.of_nat n /\ exists t, 0 <= t /\ j = 2 * (w * t) /\ w * t + w <= 32 /\
    m = ones_at (2 * (w * t)) (2 * w) /\ Z.land (aget 0 bq i) m = 0.
Proof.
  revert i0. induction n as [|n IH]; intros i0 Hi; cbn [scan_elements]; [done|].
  destruct (scan_bits _ _ _ _ _) as [[j' m']|] eqn:E.
  - intros [= <- <- <-]. split; [lia|].
    replace 0 with (2 * (w * 0)) in E at 2 by lia.
    apply scan_bits_some in E; [|lia|].
    + destruct E as (t & Ht & Hrest). exists t. split; [lia|done].
    + intros _. rewrite bmmask_ones by done. f_equal. lia.
  - intros E'. apply IH in E'; [|lia]. destruct E' as [H1 H2]. split; [lia|done].
Qed.

Lemma scan_elements_none n bq i0 :
  0 <= i0 -> scan_elements n bq (2 * w) i0 = None ->
  forall i t, i0 <= i < i0 + Z.of_nat n -> 0 <= t -> w * t + w <= 32 ->
    Z.land (aget 0 bq i) (ones_at (2 * (w * t)) (2 * w)) <> 0.
Proof.
  revert i0. induction n as [|n IH]; intros i0 Hi; cbn [scan_elements]; [lia|].
  destruct (scan_bits _ _ _ _ _) as [[j' m']|] eqn:E; [done|].
  intros E' i t Hi' Ht Hb. destruct (Z.eq_dec i i0) as [->|].
  - replace 0 with (2 * (w * 0)) in E at 2 by lia.
    eapply scan_bits_none; [| |..|exact E| |]; try lia.
    intros _. rewrite bmmask_ones by done. f_equal. lia.
  - eapply IH; [|exact E'| | |]; lia.
Qed.
End Scan.

(** *** From elements to blocks *)

Lemma block_split i t : 0 <= t < 32 -> (32 * i + t) / 32 = i /\ (32 * i + t) mod 32 = t.
Proof.
  intros Ht. rewrite Z.mul_comm, Z.add_comm.
  rewrite Z.div_add, Z.mod_add, Z.div_small, Z.mod_small by lia. lia.
Qed.

Lemma run_free_iff bm i t w : 0 <= i -> 0 <= t -> 0 <= w -> t + w <= 32 ->
  Z.land (aget 0 (bm_bitmapq bm) i) (ones_at (2 * t) (2 * w)) = 0 <->
  (forall b, 32 * i + t <= b < 32 * i + t + w -> blk bm b = 0).
Proof.
  intros Hi Ht Hw Hb. rewrite land_run_zero by lia. unfold blk. split; intros H b Hr.
  - destruct (block_split i (b - 32 * i)) as [E1 E2]; [lia|].
    replace (32 * i + (b - 32 * i)) with b in * by lia. rewrite E1, E2. apply H. lia.
  - destruct (block_split i b) as [E1 E2]; [lia|].
    specialize (H (32 * i + b)). rewrite E1, E2 in H. apply H. lia.
Qed.

Lemma mod32_mod k w : w = 1 \/ w = 2 \/ w = 4 -> k mod w = 0 -> (k mod 32) mod w = 0.
Proof.
  intros Hw Hm. rewrite Z.mod_mod_divide; [done|].
  destruct Hw as [-> | [-> | ->]]; [by exists 32|by exists 16|by exists 8].
Qed.

Lemma run_in_element k w : w = 1 \/ w = 2 \/ w = 4 -> 0 <= k -> k mod w = 0 ->
  k mod 32 + w <= 32.
Proof.
  intros Hw Hk Hm. pose proof (Z.mod_pos_bound k 32).
  assert ((k mod 32) mod w = 0) as E.
  { by apply mod32_mod. }
  destruct Hw as [-> | [-> | ->]]; [lia|..]; pose proof (Z.div_mod (k mod 32) 2);
    pose proof (Z.div_mod (k mod 32) 4); lia.
Qed.

Lemma free_run_land bm k w : w = 1 \/ w = 2 \/ w = 4 -> free_run bm k w ->
  Z.land (aget 0 (bm_bitmapq bm) (k / 32)) (ones_at (2 * (k mod 32)) (2 * w)) = 0.
Proof.
  intros Hw (Hk & Hm & Hf). pose proof (run_in_element k w Hw ltac:(lia) Hm).
  pose proof (Z.mod_pos_bound k 32). pose proof (Z.div_mod k 32).
  apply run_free_iff; try lia.
  intros b Hb. apply Hf. lia.
Qed.

Lemma mul_mod_aligned i t w : w = 1 \/ w = 2 \/ w = 4 -> (32 * i + w * t) mod w = 0.
Proof.
  intros Hw. replace (32 * i + w * t) with ((32 / w * i + t) * w).
  - apply Z.mod_mul. lia.
  - destruct Hw as [-> | [-> | ->]]; [change (32 / 1) with 32|change (32 / 2) with 16|
      change (32 / 4) with 8]; lia.
Qed.

(** The position a successful search returns is a free run; a failed search
    means there is none. *)
Lemma scan_run bm radix i j m : 10 <= radix <= 16 ->
  scan_elements 8 (bm_bitmapq bm) (bmradix_of radix) 0 = Some (i, j, m) ->
  exists k, free_run bm k (nblocks radix) /\ i = k / 32 /\ j = 2 * (k mod 32) /\
    m = ones_at (2 * (k mod 32)) (2 * nblocks radix).
Proof.
  intros Hr E. pose proof (nblocks_cases radix Hr) as Hw. rewrite bmradix_nblocks in E by done.
  set (w := nblocks radix) in *. apply scan_elements_some in E; [|done|lia].
  destruct E as (Hi & t & Ht & -> & Hb & -> & Hz). exists (32 * i + w * t).
  assert (0 <= w * t) by (apply Z.mul_nonneg_nonneg; lia).
  destruct (block_split i (w * t)) as [-> ->]; [lia|].
  split; [|done]. split; [lia|split; [by apply mul_mod_aligned|]].
  rewrite run_free_iff in Hz by lia. intros b Hbb. apply Hz. lia.
Qed.

Lemma scan_no_run bm radix : 10 <= radix <= 16 ->
  scan_elements 8 (bm_bitmapq bm) (bmradix_of radix) 0 = None ->
  forall k, ~ free_run bm k (nblocks radix).
Proof.
  intros Hr E k Hf. pose proof (nblocks_cases radix Hr) as Hw.
  rewrite bmradix_nblocks in E by done. set (w := nblocks radix) in *.
  pose proof (free_run_land bm k w Hw Hf) as Hz. destruct Hf as (Hk & Hm & _).
  pose proof (run_in_element k w Hw ltac:(lia) Hm).
  pose proof (Z.mod_pos_bound k 32). pose proof (Z.div_mod k 32).
  assert (k mod 32 = w * (k mod 32 / w)) as Ht.
  { pose proof (mod32_mod k w Hw Hm). pose proof (Z.div_mod (k mod 32) w). lia. }
  rewrite Ht in Hz. revert Hz.
  eapply scan_elements_none; [done| |exact E| | |]; lia.
Qed.

(** The [sub_key] position is an aligned run of its element. *)
Lemma sub_key_run class sub_key radix i j : request_ok class sub_key radix ->
  sub_key_pos class sub_key radix = Some (i, j) ->
  exists k, 0 <= k < 256 /\ k mod nblocks radix = 0 /\ i = k / 32 /\ j = 2 * (k mod 32).
Proof.
  intros [Hr Hal] E. unfold sub_key_pos in E. h2const.
  destruct (Z.eqb_spec (Z.shiftr class 8) HAMMER2_BREF_TYPE_DATA) as [Hd|]; [|done].
  specialize (Hal Hd). simpl in E. destruct (14 <=? radix); [|done].
  injection E as <- <-.
  change 4194303 with (2 ^ 22 - 1). change 524287 with (2 ^ 19 - 1).
  rewrite !land_low by lia.
  change (4194304 / 8) with (2 ^ 19). change (524288 / 32) with (2 ^ 14).
  exists (sub_key mod 2 ^ 22 / 2 ^ 14).
  pose proof (Z.mod_pos_bound sub_key (2 ^ 22)).
  repeat split.
  - apply Z.div_pos; lia.
  - apply Z.div_lt_upper_bound; lia.
  - assert ((sub_key mod 2 ^ 22 / 2 ^ 14) mod 4 = 0) as E4.
    { assert (sub_key mod 2 ^ 22 = 65536 * (sub_key mod 2 ^ 22 / 65536)) as ->.
      { assert ((sub_key mod 2 ^ 22) mod 65536 = 0).
        { rewrite Z.mod_mod_divide; [done|by exists 64]. }
        pose proof (Z.div_mod (sub_key mod 2 ^ 22) 65536). lia. }
      set (x := _ / 65536). replace (65536 * x) with (4 * x * 2 ^ 14) by lia.
      rewrite Z.div_mul by lia. rewrite Z.mul_comm. apply Z.mod_mul. lia. }
    destruct (nblocks_cases radix Hr) as [-> | [-> | ->]]; [by rewrite Z.mod_1_r| |done].
    rewrite <- (Z.mod_mod_divide _ 4 2) by (by exists 2). by rewrite E4.
  - rewrite Z.div_div by lia. done.
  - rewrite Z.mul_comm. f_equal.
    rewrite <- (Z.mod_mod_divide sub_key (2 ^ 22) (2 ^ 19)) by (by exists 8).
    set (x := sub_key mod 2 ^ 22). change (2 ^ 19) with (2 ^ 14 * 32).
    rewrite Z.rem_mul_r by lia. rewrite (Z.mul_comm (2 ^ 14)), Z.div_add by lia.
    rewrite Z.div_small by (apply Z.mod_pos_bound; lia). lia.
Qed.

(** *** What one allocation picks *)

(** The two ways a request is served: inside the block the linear iterator
    is in, or a free, aligned run of whole blocks. *)
Inductive picked (bm : hammer2_bmap_data) (radix : Z) : Z -> Z -> Z -> Z -> Prop :=
  | picked_linear :
      radix < 14 -> bm_linear bm mod 16384 <> 0 -> bm_linear bm < HAMMER2_SEGSIZE ->
      bm_linear bm mod 16384 + 2 ^ radix <= 16384 ->
      picked bm radix (bm_linear bm / 16384 / 32)
        (ones_at (2 * ((bm_linear bm / 16384) mod 32)) (2 * 1))
        (bm_linear bm) (bm_linear bm + 2 ^ radix)
  | picked_run k :
      free_run bm k (nblocks radix) ->
      picked bm radix (k / 32) (ones_at (2 * (k mod 32)) (2 * nblocks radix))
        (16384 * k) (if radix <? 14 then 16384 * k + 2 ^ radix else bm_linear bm).

Lemma bitmap_pos_run bm class sub_key radix i j m : request_ok class sub_key radix ->
  bitmap_pos bm class sub_key radix = Some (i, j, m) ->
  exists k, free_run bm k (nblocks radix) /\ i = k / 32 /\ j = 2 * (k mod 32) /\
    m = ones_at (2 * (k mod 32)) (2 * nblocks radix).
Proof.
  intros Hreq. pose proof Hreq as [Hr _]. unfold bitmap_pos.
  destruct (sub_key_pos class sub_key radix) as [[i' j']|] eqn:E.
  - apply sub_key_run in E; [|done]. destruct E as (k & Hk & Hm & -> & ->).
    pose proof (nblocks_cases radix Hr) as Hw.
    pose proof (run_in_element k _ Hw ltac:(lia) Hm) as Hin.
    rewrite bmradix_nblocks, bmmask_ones by done.
    rewrite ones_at_shift, Z.add_0_l by (clear Hm; dlia).
    destruct (Z.eqb_spec (Z.land (aget 0 (bm_bitmapq bm) (k / 32))
      (ones_at (2 * (k mod 32)) (2 * nblocks radix))) 0) as [Hz|Hnz].
    + intros [= <- <- <-]. exists k. split; [|done]. split; [done|split; [done|]].
      clear Hm. rewrite run_free_iff in Hz by dlia. intros b Hb. apply Hz. dlia.
    + intros E. apply scan_run; [done|]. by rewrite bmradix_nblocks.
  - by apply scan_run.
Qed.

Lemma land_block_mask x : 0 <= x -> Z.land x HAMMER2_FREEMAP_BLOCK_MASK = x mod 16384.
Proof. intros _. h2const. by apply (land_low x 14). Qed.

Lemma land_62 x : Z.land x 62 = 2 * ((x / 2) mod 32).
Proof.
  transitivity (Z.shiftl (Z.land (Z.shiftr x 1) (2 ^ 5 - 1)) 1).
  2:{ rewrite Z.shiftl_mul_pow2, land_low, Z.shiftr_div_pow2 by lia.
      change (2 ^ 1) with 2. change (2 ^ 5) with 32. lia. }
  apply Z.bits_inj'. intros n Hn. rewrite Z.land_spec, Z.shiftl_spec by lia.
  change 62 with (ones_at 1 5). change (2 ^ 5 - 1) with (ones_at 0 5).
  rewrite testbit_ones_at by lia. destruct (Z.lt_ge_cases n 1).
  - rewrite (Z.testbit_neg_r _ (n - 1)) by lia. zcases.
  - rewrite Z.land_spec, Z.shiftr_spec, testbit_ones_at by lia.
    replace (n - 1 + 1) with n by lia. f_equal. zcases; done.
Qed.

Lemma size_mod_block radix : 10 <= radix <= 16 ->
  nz ((2 ^ radix) mod 16384) = (radix <? 14).
Proof.
  intros Hr. assert (radix = 10 \/ radix = 11 \/ radix = 12 \/ radix = 13 \/ radix = 14 \/
    radix = 15 \/ radix = 16) as Hc by lia.
  by repeat (destruct Hc as [-> | Hc]); [..|subst].
Qed.

Lemma pow2_radix_bounds radix : 10 <= radix <= 16 ->
  1024 <= 2 ^ radix <= 65536 /\ (2 ^ radix) mod 1024 = 0 /\ (radix < 14 -> 2 ^ radix < 16384) /\
  (14 <= radix -> 2 ^ radix = 16384 * nblocks radix).
Proof.
  intros Hr. assert (radix = 10 \/ radix = 11 \/ radix = 12 \/ radix = 13 \/ radix = 14 \/
    radix = 15 \/ radix = 16) as Hc by lia.
  by repeat (destruct Hc as [-> | Hc]); [..|subst]; vm_compute.
Qed.

(** Every successful pick is one of the two. *)
Lemma pick_some bm class sub_key radix i m off lin :
  bmap_ok bm -> request_ok class sub_key radix ->
  pick bm class sub_key radix = Some (i, m, off, lin) -> picked bm radix i m off lin.
Proof.
  intros [Hlen Hu Hl Hla] Hreq. pose proof Hreq as [Hr _].
  destruct (pow2_radix_bounds radix Hr) as (Hsz & Hszm & Hszlt & Hszge).
  unfold pick, linear_usable, linear_active. rewrite Z.shiftl_1_l.
  h2const. rewrite u32_small by (unfold is_u32; lia).
  fold HAMMER2_FREEMAP_BLOCK_MASK. rewrite !land_block_mask by lia.
  change (4194304 / 8) with 524288. change (16384 / 2) with 8192.
  destruct (Z.leb_spec (bm_linear bm mod 16384 + 2 ^ radix) 16384) as [Hfit|]; simpl.
  1: destruct (nz_spec (bm_linear bm mod 16384)) as [Hne|]; simpl.
  1: destruct (Z.ltb_spec (bm_linear bm) 4194304) as [Hlt|]; simpl.
  1:{ intros [= <- <- <- <-]. rewrite i32_small by lia.
      rewrite !Z.quot_div_nonneg by lia.
      assert (radix < 14).
      { destruct (Z.lt_ge_cases radix 14); [done|]. rewrite Hszge in Hfit by done.
        pose proof (Z.mod_pos_bound (bm_linear bm) 16384). destruct (nblocks_cases radix Hr); lia. }
      assert (nblocks radix = 1) as Hn by (unfold nblocks; zcases).
      rewrite bmradix_nblocks, bmmask_ones, Hn by (done || lia).
      assert (Z.land (bm_linear bm / 8192) 62 = 2 * ((bm_linear bm / 16384) mod 32)) as ->.
      { replace (bm_linear bm / 16384) with (bm_linear bm / 8192 / 2)
          by (rewrite Z.div_div by lia; done).
        apply land_62. }
      rewrite ones_at_shift, Z.add_0_l by dlia.
      replace (bm_linear bm / 524288) with (bm_linear bm / 16384 / 32)
        by (rewrite Z.div_div by lia; done).
      by apply picked_linear. }
  all: destruct (bitmap_pos bm class sub_key radix) as [[[i' j'] m']|] eqn:E; [|done].
  all: apply bitmap_pos_run in E; [|done]; destruct E as (k & Hf & -> & -> & ->).
  all: rewrite size_mod_block by done; intros [= <- <- <- <-].
  all: pose proof Hf as (Hk & _ & _).
  all: replace (k / 32 * 524288 + 2 * (k mod 32) * 8192) with (16384 * k) by dlia.
  all: rewrite i32_small by lia; by apply picked_run.
Qed.

(** A failed pick: no run is free, and the linear iterator cannot serve. *)
Lemma pick_none bm class sub_key radix :
  bmap_ok bm -> 10 <= radix <= 16 -> pick bm class sub_key radix = None ->
  (forall k, ~ free_run bm k (nblocks radix)) /\
  (bm_linear bm mod 16384 = 0 \/ bm_linear bm = HAMMER2_SEGSIZE \/
   16384 < bm_linear bm mod 16384 + 2 ^ radix).
Proof.
  intros [Hlen Hu Hl Hla] Hr. unfold pick, linear_usable, linear_active.
  rewrite Z.shiftl_1_l. h2const. rewrite u32_small by (unfold is_u32; lia).
  fold HAMMER2_FREEMAP_BLOCK_MASK. rewrite !land_block_mask by lia.
  destruct (_ && _) eqn:Hlin; [done|].
  destruct (bitmap_pos bm class sub_key radix) as [[[i' j'] m']|] eqn:E; [done|].
  intros _. split.
  - apply scan_no_run; [done|]. unfold bitmap_pos in E.
    destruct (sub_key_pos _ _ _) as [[i j]|]; [|done]. by destruct (_ =? 0).
  - revert Hlin. unfold nz. zcases; simpl; auto; lia.
Qed.

(** *** The effect of one allocation on the blocks *)

(** Setting a run of an element marks its blocks 11 and no other. *)
Lemma blk_set_run bm l c v k w b :
  length (bm_bitmapq bm) = 8%nat -> 0 <= k < 256 -> 0 <= w -> k mod 32 + w <= 32 -> 0 <= b < 256 ->
  blk (mkBmap l c v (aset (bm_bitmapq bm) (k / 32)
    (Z.lor (aget 0 (bm_bitmapq bm) (k / 32)) (ones_at (2 * (k mod 32)) (2 * w))))) b =
  if (k <=? b) && (b <? k + w) then 3 else blk bm b.
Proof.
  intros Hlen Hk Hw Hin Hb. unfold blk. simpl.
  rewrite aget_aset by (rewrite ?Hlen; dlia).
  destruct (Z.eqb_spec (b / 32) (k / 32)) as [E|E].
  - rewrite E, pair2_lor_run by dlia.
    replace ((k mod 32 <=? b mod 32) && (b mod 32 <? k mod 32 + w))
      with ((k <=? b) && (b <? k + w)); [done|].
    f_equal; [destruct (Z.leb_spec k b), (Z.leb_spec (k mod 32) (b mod 32))
             |destruct (Z.ltb_spec b (k + w)), (Z.ltb_spec (b mod 32) (k mod 32 + w))];
      done || dlia.
  - replace ((k <=? b) && (b <? k + w)) with false; [done|].
    symmetry. zcases; done || dlia.
Qed.

(** The run of blocks a picked position covers. *)
Lemma picked_blocks bm radix i m off lin : bmap_ok bm -> 10 <= radix <= 16 ->
  picked bm radix i m off lin ->
  exists k w, 0 <= k < 256 /\ 1 <= w /\ k mod 32 + w <= 32 /\ i = k / 32 /\
    m = ones_at (2 * (k mod 32)) (2 * w) /\ k = off / 16384 /\
    (forall b, off / 16384 <= b <= (off + 2 ^ radix - 1) / 16384 <-> k <= b < k + w) /\
    ((forall b, k <= b < k + w -> blk bm b = 0) \/ (radix < 14 /\ w = 1)) /\
    0 <= off /\ off + 2 ^ radix <= HAMMER2_SEGSIZE /\ w = nblocks radix.
Proof.
  intros [Hlen Hu Hl Hla] Hr Hp. destruct (pow2_radix_bounds radix Hr) as (Hsz & Hszm & Hlt & Hge).
  h2const. destruct Hp as [Hr14 Hne Hseg Hfit | k Hf].
  - h2const. exists (bm_linear bm / 16384), 1.
    assert (nblocks radix = 1) by (unfold nblocks; zcases).
    repeat split; try dlia.
  - pose proof (nblocks_cases radix Hr) as Hw. pose proof Hf as (Hk & Hm & Hz).
    pose proof (run_in_element k _ Hw ltac:(lia) Hm) as Hin. clear Hm Hf.
    exists k, (nblocks radix). set (w := nblocks radix) in *.
    destruct (Z.lt_ge_cases radix 14) as [H14|H14].
    + assert (w = 1) by (unfold w, nblocks; zcases). specialize (Hlt H14). clear Hge.
      repeat split; try dlia; try done; by left.
    + specialize (Hge H14). rewrite Hge in *. repeat split; try dlia; try done; by left.
Qed.

Lemma alloc_picked fr bm class sub_key radix base r :
  bmap_ok bm -> request_ok class sub_key radix ->
  hammer2_bmap_alloc fr bm class sub_key radix base = Some r ->
  exists i m off lin, picked bm radix i m off lin /\ ba_base r = u64 (base + off) /\
    bm_linear (ba_bmap r) = lin /\
    bm_bitmapq (ba_bmap r) =
      aset (bm_bitmapq bm) i (Z.lor (aget 0 (bm_bitmapq bm) i) m) /\
    bm_avail (ba_bmap r) = u32 (bm_avail bm - bgsize_of (aget 0 (bm_bitmapq bm) i) m radix) /\
    ba_free r = u64 (fr - bgsize_of (aget 0 (bm_bitmapq bm) i) m radix).
Proof.
  intros Hok Hreq E. unfold hammer2_bmap_alloc in E.
  destruct (pick bm class sub_key radix) as [[[[i m] off] lin]|] eqn:Ep; [|done].
  injection E as <-. exists i, m, off, lin. split; [|done]. by eapply pick_some.
Qed.

(** After an allocation at [off]: its blocks are 11, the others untouched. *)
Lemma picked_blk bm bm' radix i m off lin : bmap_ok bm -> 10 <= radix <= 16 ->
  picked bm radix i m off lin ->
  bm_bitmapq bm' = aset (bm_bitmapq bm) i (Z.lor (aget 0 (bm_bitmapq bm) i) m) ->
  0 <= off /\ off + 2 ^ radix <= HAMMER2_SEGSIZE /\
  forall b, 0 <= b < 256 -> blk bm' b =
    if (off / 16384 <=? b) && (b <=? (off + 2 ^ radix - 1) / 16384) then 3 else blk bm b.
Proof.
  intros Hok Hr Hp Hq. destruct (picked_blocks _ _ _ _ _ _ Hok Hr Hp)
    as (k & w & Hk & Hw & Hin & -> & -> & Hko & Hrun & _ & Ho1 & Ho2 & _).
  split; [done|]. split; [done|]. intros b Hbr.
  pose proof (blk_set_run bm 0 0 0 k w b (bok_len _ Hok) Hk ltac:(lia) Hin Hbr) as Hset.
  unfold blk in Hset at 1. simpl in Hset. unfold blk at 1. rewrite Hq, Hset.
  specialize (Hrun b).
  destruct (Z.leb_spec k b), (Z.ltb_spec b (k + w)), (Z.leb_spec (off / 16384) b),
    (Z.leb_spec b ((off + 2 ^ radix - 1) / 16384)); done || lia.
Qed.

Lemma alloc_bmap_ok fr bm class sub_key radix base r :
  bmap_ok bm -> request_ok class sub_key radix ->
  hammer2_bmap_alloc fr bm class sub_key radix base = Some r -> bmap_ok (ba_bmap r).
Proof.
  intros Hok Hreq E. pose proof Hreq as [Hr _].
  destruct (alloc_picked _ _ _ _ _ _ _ Hok Hreq E) as (i & m & off & lin & Hp & _ & Hl & Hq & _).
  destruct (picked_blocks _ _ _ _ _ _ Hok Hr Hp)
    as (k & w & Hk & Hw & Hin & -> & -> & _ & _ & _ & Ho1 & Ho2 & _).
  destruct (pow2_radix_bounds radix Hr) as (Hsz & Hszm & Hlt & _).
  destruct Hok as [Hlen Hu Hlr Hla]. split.
  - by rewrite Hq, length_aset.
  - rewrite Hq. apply Forall_aset; [done|]. apply is_u64_lor.
    + apply aget_Forall; [done|]. rewrite Hlen. dlia.
    + apply is_u64_ones_at; dlia.
  - rewrite Hl. h2const. destruct Hp; h2const; [dlia|]. zcases.
  - rewrite Hl. destruct Hp; [dlia|]. zcases. dlia.
Qed.

(** *** The ledger of live extents *)

(** Byte extents [(offset, size)] of a segment. *)
Definition sep (e1 e2 : Z * Z) : Prop := e1.1 + e1.2 <= e2.1 \/ e2.1 + e2.2 <= e1.1.

(** The abstract state of the allocator: the extents handed out, disjoint,
    on blocks that are not free, and clear of what the linear iterator can
    still hand out. *)
Record ledger_inv (bm : hammer2_bmap_data) (L : list (Z * Z)) : Prop := {
  led_in : forall o s, (o, s) ∈ L -> 0 <= o /\ 0 < s /\ o + s <= HAMMER2_SEGSIZE;
  led_marked : forall o s b, (o, s) ∈ L -> o / 16384 <= b <= (o + s - 1) / 16384 -> blk bm b <> 0;
  led_sep : ForallOrdPairs sep L;
  led_linear : bm_linear bm mod 16384 <> 0 -> bm_linear bm < HAMMER2_SEGSIZE ->
    blk bm (bm_linear bm / 16384) <> 0 /\
    forall e, e ∈ L -> sep (bm_linear bm, 16384 - bm_linear bm mod 16384) e
}.

(** Extents that share no block share no byte. *)
Lemma sep_blocks o1 s1 o2 s2 : 0 < s1 -> 0 < s2 ->
  (forall b, o1 / 16384 <= b <= (o1 + s1 - 1) / 16384 ->
             o2 / 16384 <= b <= (o2 + s2 - 1) / 16384 -> False) ->
  sep (o1, s1) (o2, s2).
Proof.
  intros H1 H2 Hno. unfold sep. simpl.
  destruct (Z.le_gt_cases (o1 + s1) o2); [by left|].
  destruct (Z.le_gt_cases (o2 + s2) o1); [by right|].
  exfalso. apply (Hno (Z.max o1 o2 / 16384)); split; apply Z.div_le_mono; lia.
Qed.

(** A picked position is clear of every live extent. *)
Lemma picked_sep bm L radix i m off lin : bmap_ok bm -> 10 <= radix <= 16 -> ledger_inv bm L ->
  picked bm radix i m off lin -> forall e, e ∈ L -> sep (off, 2 ^ radix) e.
Proof.
  intros Hok Hr [Lin Lmk Lsep Llin] Hp [o s] He. pose proof (Lin o s He) as Hos.
  destruct (picked_blocks _ _ _ _ _ _ Hok Hr Hp)
    as (k & w & _ & _ & _ & _ & _ & Hko & Hrun & _ & _ & _ & Hwn).
  destruct (pow2_radix_bounds radix Hr) as (Hsz & _).
  destruct Hp as [Hr14 Hne Hseg Hfit | k' Hf].
  - destruct (Llin Hne Hseg) as [_ Hs]. specialize (Hs _ He). unfold sep in *. simpl in *. lia.
  - apply sep_blocks; [lia|lia|]. intros b Hb1 Hb2. apply (Lmk o s b He Hb2).
    apply Hf. rewrite Hrun in Hb1. rewrite <- Hwn. dlia.
Qed.

(** The iterator a pick leaves is inside a marked block, past everything
    live in it. *)
Lemma picked_linear_next bm bm' L radix i m off lin :
  bmap_ok bm -> 10 <= radix <= 16 -> ledger_inv bm L -> picked bm radix i m off lin ->
  (forall b, 0 <= b < 256 -> blk bm' b =
    if (off / 16384 <=? b) && (b <=? (off + 2 ^ radix - 1) / 16384) then 3 else blk bm b) ->
  lin mod 16384 <> 0 -> lin < HAMMER2_SEGSIZE ->
  blk bm' (lin / 16384) <> 0 /\
  forall e, e ∈ (off, 2 ^ radix) :: L -> sep (lin, 16384 - lin mod 16384) e.
Proof.
  intros Hok Hr [Lin Lmk Lsep Llin] Hp Hblk Hne Hseg. h2const.
  destruct (pow2_radix_bounds radix Hr) as (Hsz & _ & Hlt & Hge).
  setoid_rewrite elem_of_cons. destruct Hp as [Hr14 Hne' Hseg' Hfit | k Hf].
  - (* the iterator advanced inside its block *)
    destruct (Llin Hne' Hseg') as [_ Hs]. destruct Hok. h2const. split.
    + rewrite Hblk by dlia. zcases; done || dlia.
    + intros e [->|He]; [right; simpl; lia|]. specialize (Hs _ He).
      unfold sep in *. simpl in *. dlia.
  - pose proof Hf as (Hk & _ & Hfree). destruct (Z.ltb_spec radix 14) as [H14|H14].
    + (* a fragment opened a block *)
      specialize (Hlt H14). split.
      * rewrite Hblk by dlia. zcases; done || dlia.
      * intros [o s] [[= -> ->]|He]; [right; simpl; lia|]. pose proof (Lin o s He).
        assert (sep (16384 * k, 16384) (o, s)) as Hs; [|unfold sep in *; simpl in *; dlia].
        apply sep_blocks; [lia|lia|]. intros b Hb1 Hb2. apply (Lmk o s b He Hb2).
        apply Hfree. destruct (nblocks_cases radix Hr); dlia.
    + (* whole blocks leave the iterator alone *)
      destruct (Llin Hne Hseg) as [Hlb Hs]. rewrite (Hge H14) in *.
      assert (~ (k <= bm_linear bm / 16384 < k + nblocks radix)) as Hout.
      { intros Hc. apply Hlb. by apply Hfree. }
      destruct Hok. h2const. split.
      * rewrite Hblk by dlia. zcases; done || dlia.
      * intros e [->|He]; [|by apply Hs]. unfold sep. simpl. dlia.
Qed.

(** An allocation refines the abstract step that adds an extent. *)
Lemma ledger_alloc fr bm class sub_key radix base r L :
  bmap_ok bm -> request_ok class sub_key radix -> ledger_inv bm L ->
  hammer2_bmap_alloc fr bm class sub_key radix base = Some r ->
  exists off, ba_base r = u64 (base + off) /\ ledger_inv (ba_bmap r) ((off, 2 ^ radix) :: L).
Proof.
  intros Hok Hreq HL E. pose proof Hreq as [Hr _].
  destruct (alloc_picked _ _ _ _ _ _ _ Hok Hreq E) as (i & m & off & lin & Hp & Hb & Hl & Hq & _).
  pose proof (picked_blk _ _ _ _ _ _ _ Hok Hr Hp Hq) as (Ho1 & Ho2 & Hblk).
  destruct (pow2_radix_bounds radix Hr) as (Hsz & _).
  exists off. split; [done|]. pose proof HL as [Lin Lmk Lsep Llin]. split.
  - intros o s He. rewrite elem_of_cons in He. destruct He as [[= -> ->]|He]; [lia|by apply Lin].
  - intros o s b He Hbb. rewrite elem_of_cons in He. destruct He as [[= -> ->]|He].
    + rewrite Hblk by (h2const; dlia). zcases; done.
    + pose proof (Lin o s He). rewrite Hblk by (h2const; dlia).
      destruct (_ && _); [done|by eapply Lmk].
  - constructor; [|done]. apply List.Forall_forall. intros e He.
    eapply picked_sep; try done. by apply list_elem_of_In.
  - rewrite Hl. by eapply picked_linear_next.
Qed.

(** *** Free space accounting *)

Definition free_blocks (bm : hammer2_bmap_data) : Z := cntb (fun b => blk bm b =? 0) 256.

Lemma free_blocks_eq bm : free_blocks bm = cntb (fun b => blk bm b =? 0) 256.
Proof. reflexivity. Qed.
#[global] Opaque free_blocks.

(** [avail] is bitmap-granular: 16KB for every free block. *)
Definition avail_ok (bm : hammer2_bmap_data) : Prop := bm_avail bm = 16384 * free_blocks bm.

(** Marking a run either takes [w] free blocks or, when its one block was
    taken already, none. *)
Lemma free_blocks_run bm bm' k w : 0 <= k -> 1 <= w -> k + w <= 256 ->
  (forall b, 0 <= b < 256 ->
     blk bm' b = if (k <=? b) && (b <? k + w) then 3 else blk bm b) ->
  ((forall b, k <= b < k + w -> blk bm b = 0) -> free_blocks bm = free_blocks bm' + w) /\
  (w = 1 -> blk bm k <> 0 -> free_blocks bm = free_blocks bm').
Proof.
  intros Hk Hw Hkw Hblk. rewrite !free_blocks_eq. split.
  - intros Hz. rewrite <- (cntb_run k w 256) by lia. apply cntb_split. intros b Hb.
    rewrite Hblk by lia. destruct (Z.leb_spec k b), (Z.ltb_spec b (k + w)); simpl; try lia.
    by rewrite Hz by lia.
  - intros -> Hnz. apply cntb_ext. intros b Hb. rewrite Hblk by lia.
    destruct (Z.leb_spec k b), (Z.ltb_spec b (k + 1)); simpl; try done.
    assert (b = k) as -> by lia. by apply Z.eqb_neq.
Qed.

Lemma bgsize_run bm radix i m off lin bm' : bmap_ok bm -> 10 <= radix <= 16 ->
  picked bm radix i m off lin ->
  bm_bitmapq bm' = aset (bm_bitmapq bm) i (Z.lor (aget 0 (bm_bitmapq bm) i) m) ->
  16384 * free_blocks bm =
  16384 * free_blocks bm' + bgsize_of (aget 0 (bm_bitmapq bm) i) m radix.
Proof.
  intros Hok Hr Hp Hq. destruct (picked_blocks _ _ _ _ _ _ Hok Hr Hp)
    as (k & w & Hk & Hw & Hin & -> & -> & Hko & Hrun & Hfree & Ho1 & Ho2 & Hwn).
  assert (forall b, 0 <= b < 256 ->
    blk bm' b = if (k <=? b) && (b <? k + w) then 3 else blk bm b) as Hblk.
  { intros b Hb. unfold blk at 1. rewrite Hq.
    by apply (blk_set_run bm 0 0 0 k w b (bok_len _ Hok) Hk ltac:(lia) Hin). }
  destruct (free_blocks_run bm bm' k w ltac:(lia) Hw ltac:(dlia) Hblk) as [Hall Hnone].
  destruct (pow2_radix_bounds radix Hr) as (_ & _ & _ & Hge).
  assert ((Z.land (aget 0 (bm_bitmapq bm) (k / 32)) (ones_at (2 * (k mod 32)) (2 * w)) = 0)
    <-> (forall b, k <= b < k + w -> blk bm b = 0)) as Hland.
  { rewrite run_free_iff by dlia. split; intros H b Hb; apply H; dlia. }
  unfold bgsize_of. h2const. rewrite Z.shiftl_1_l. destruct (Z.ltb_spec radix 14) as [H14|H14].
  - assert (w = 1) as -> by (rewrite Hwn; unfold nblocks; zcases).
    destruct (nz_spec (Z.land (aget 0 (bm_bitmapq bm) (k / 32))
                              (ones_at (2 * (k mod 32)) (2 * 1)))) as [Hnz|Hz].
    + rewrite (Hnone eq_refl); [lia|]. intros Hbz. apply Hnz, Hland. intros b Hb.
      by replace b with k by lia.
    + rewrite Hall; [lia|]. apply Hland. lia.
  - destruct Hfree as [Hfree|]; [|lia]. rewrite (Hall Hfree), (Hge H14). lia.
Qed.

Lemma free_blocks_range bm : 0 <= free_blocks bm <= 256.
Proof. rewrite free_blocks_eq. apply cntb_range. Qed.

Lemma alloc_avail fr bm class sub_key radix base r :
  bmap_ok bm -> request_ok class sub_key radix -> avail_ok bm ->
  hammer2_bmap_alloc fr bm class sub_key radix base = Some r ->
  avail_ok (ba_bmap r) /\ bm_avail (ba_bmap r) <= bm_avail bm /\
  ba_free r = u64 (fr - (bm_avail bm - bm_avail (ba_bmap r))).
Proof.
  intros Hok Hreq Hav E. pose proof Hreq as [Hr _]. unfold avail_ok in *.
  destruct (alloc_picked _ _ _ _ _ _ _ Hok Hreq E)
    as (i & m & off & lin & Hp & _ & _ & Hq & Ha & Hf).
  pose proof (bgsize_run _ _ _ _ _ _ _ Hok Hr Hp Hq) as Hbg. rewrite <- Hav in Hbg.
  pose proof (free_blocks_range (ba_bmap r)).
  rewrite Ha, Hf. rewrite u32_small by (unfold is_u32; lia).
  split; [lia|]. split; [|f_equal; lia].
  unfold bgsize_of in *. h2const. repeat case_match; rewrite ?Z.shiftl_1_l in *;
    pose proof (Z.pow_nonneg 2 radix); lia.
Qed.

(** *** Runs of requests *)

(** One request of a segment: class, sub_key, radix. *)
Record request := mkReq { rq_class : Z; rq_sub_key : Z; rq_radix : Z }.
Definition req_ok (q : request) : Prop := request_ok (rq_class q) (rq_sub_key q) (rq_radix q).

(** The allocator over a list of requests: final segment, final
    [allocator_free] and the offsets returned, newest first. *)
Fixpoint alloc_run (fr : Z) (bm : hammer2_bmap_data) (qs : list request) (L : list (Z * Z))
    : Z * hammer2_bmap_data * list (Z * Z) :=
  match qs with
  | [] => (fr, bm, L)
  | q :: qs' =>
      match hammer2_bmap_alloc fr bm (rq_class q) (rq_sub_key q) (rq_radix q) 0 with
      | None => alloc_run fr bm qs' L
      | Some r => alloc_run (ba_free r) (ba_bmap r) qs' ((ba_base r, 2 ^ rq_radix q) :: L)
      end
  end.

Lemma alloc_run_inv qs : forall fr bm L fr' bm' L',
  bmap_ok bm -> avail_ok bm -> ledger_inv bm L -> Forall req_ok qs ->
  alloc_run fr bm qs L = (fr', bm', L') ->
  bmap_ok bm' /\ avail_ok bm' /\ ledger_inv bm' L'.
Proof.
  induction qs as [|q qs IH]; intros fr bm L fr' bm' L' Hok Hav HL Hq E; simpl in E.
  - by injection E as <- <- <-.
  - inversion Hq as [|?? Hq1 Hqs]; subst.
    destruct (hammer2_bmap_alloc fr bm _ _ _ 0) as [r|] eqn:Er.
    + destruct (ledger_alloc _ _ _ _ _ _ _ _ Hok Hq1 HL Er) as (off & Hbase & HL').
      assert (ba_base r = off) as Hoff.
      { rewrite Hbase. apply u64_small. destruct (led_in _ _ HL' off (2 ^ rq_radix q)).
        - apply elem_of_cons; by left.
        - unfold is_u64. h2const. lia. }
      rewrite Hoff in E. eapply IH; [| |exact HL'|done|exact E].
      * by eapply alloc_bmap_ok.
      * by eapply alloc_avail.
    + by eapply IH.
Qed.

(** A segment as freemap_init() leaves it: zeroed, or fully allocated. *)
Definition bmap_free : hammer2_bmap_data :=
  mkBmap 0 0 HAMMER2_FREEMAP_LEVEL0_SIZE (replicate 8 0).
Definition bmap_full : hammer2_bmap_data :=
  mkBmap HAMMER2_SEGSIZE 0 0 (replicate 8 HAMMER2_BMAP_ALLONES).

Lemma bmap_free_ok : bmap_ok bmap_free /\ avail_ok bmap_free /\ ledger_inv bmap_free [].
Proof.
  split; [|split]; [split|..].
  - done.
  - repeat constructor; done.
  - vm_compute; done.
  - done.
  - reflexivity.
  - split; [intros; set_solver|intros; set_solver|constructor|done].
Qed.

Lemma bmap_full_ok : bmap_ok bmap_full /\ avail_ok bmap_full /\ ledger_inv bmap_full [].
Proof.
  split; [|split]; [split|..].
  - done.
  - repeat constructor; done.
  - vm_compute; done.
  - done.
  - reflexivity.
  - split; [intros; set_solver|intros; set_solver|constructor|done].
Qed.


Lemma alloc_run_free qs : forall fr bm L fr' bm' L',
  is_u64 fr -> bmap_ok bm -> avail_ok bm -> Forall req_ok qs ->
  alloc_run fr bm qs L = (fr', bm', L') ->
  is_u64 fr' /\ fr' = u64 (fr - (bm_avail bm - bm_avail bm')).
Proof.
  induction qs as [|q qs IH]; intros fr bm L fr' bm' L' Hfr Hok Hav Hq E; cbn [alloc_run] in E.
  - injection E as <- <- <-. split; [done|]. rewrite Z.sub_diag, Z.sub_0_r. by rewrite u64_small.
  - inversion Hq as [|?? Hq1 Hqs]; subst.
    destruct (hammer2_bmap_alloc fr bm _ _ _ 0) as [r|] eqn:Er; [|by eapply IH].
    destruct (alloc_avail _ _ _ _ _ _ _ Hok Hq1 Hav Er) as (Hav1 & Hle & Hfree).
    pose proof (alloc_bmap_ok _ _ _ _ _ _ _ Hok Hq1 Er) as Hok1.
    apply IH in E as [Hu ->]; try done; [|rewrite Hfree; apply u64_range].
    split; [apply u64_range|]. rewrite Hfree. unfold u64. rewrite Zminus_mod_idemp_l. f_equal. lia.
Qed.

(** *** The theorems *)

(** C21: the allocator of one 4MB segment refines a ledger of extents.  After
    any sequence of requests of 1KB to 64KB on a free segment, whatever their
    classes and key hints, the extents handed out are pairwise disjoint and
    inside the segment, the 16KB blocks under them are not free, [avail] is
    16KB for every free block left, and [allocator_free] went down by what
    [avail] went down. *)
Theorem bmap_alloc_refines_ledger fr qs fr' bm' L :
  is_u64 fr -> Forall req_ok qs -> alloc_run fr bmap_free qs [] = (fr', bm', L) ->
  ForallOrdPairs sep L /\
  (forall o s, (o, s) ∈ L -> 0 <= o /\ 0 < s /\ o + s <= HAMMER2_SEGSIZE /\
    forall b, o / 16384 <= b <= (o + s - 1) / 16384 -> blk bm' b <> 0) /\
  bm_avail bm' = 16384 * free_blocks bm' /\ fr' = u64 (fr - (HAMMER2_SEGSIZE - bm_avail bm')).
Proof.
  intros Hfr Hq E. destruct bmap_free_ok as (Hok & Hav & HL).
  destruct (alloc_run_free qs _ _ _ _ _ _ Hfr Hok Hav Hq E) as [_ Hf].
  destruct (alloc_run_inv qs _ _ _ _ _ _ Hok Hav HL Hq E) as (_ & Hav' & [Hin Hmk Hsep _]).
  split; [done|]. split; [|by split].
  intros o s Hel. destruct (Hin o s Hel) as (? & ? & ?). split_and!; try done. intros b. by apply Hmk.
Qed.

Lemma bmap_alloc_refines_ledger_witness :
  exists fr' bm' L, alloc_run 4194304 bmap_free
      [mkReq 272 0 10; mkReq 784 65536 16; mkReq 272 0 12] [] = (fr', bm', L) /\
    ForallOrdPairs sep L /\ length L = 3%nat.
Proof.
  destruct (alloc_run 4194304 bmap_free [mkReq 272 0 10; mkReq 784 65536 16; mkReq 272 0 12] [])
    as [[fr' bm'] L] eqn:E.
  exists fr', bm', L. split; [reflexivity|].
  split; [|vm_compute in E; injection E as _ _ <-; reflexivity].
  refine (proj1 (bmap_alloc_refines_ledger 4194304
    [mkReq 272 0 10; mkReq 784 65536 16; mkReq 272 0 12] fr' bm' L _ _ E)).
  - vm_compute; split; congruence.
  - repeat constructor; vm_compute; congruence.
Defined.

(** what one successful hammer2_bmap_alloc() does.  The offset it adds to
    the segment's base is 1KB aligned and the whole extent lies inside the
    segment; the 16KB blocks under the extent become allocated and no other
    block changes; [avail] stays exact, and [allocator_free] drops by the
    bytes of the blocks that were free before. *)
Theorem bmap_alloc_exact fr bm class sub_key radix base r :
  bmap_ok bm -> avail_ok bm -> request_ok class sub_key radix ->
  hammer2_bmap_alloc fr bm class sub_key radix base = Some r ->
  exists off, ba_base r = u64 (base + off) /\ off mod 1024 = 0 /\
    0 <= off /\ off + 2 ^ radix <= HAMMER2_SEGSIZE /\
    (forall b, 0 <= b < 256 -> blk (ba_bmap r) b =
      if (off / 16384 <=? b) && (b <=? (off + 2 ^ radix - 1) / 16384) then 3 else blk bm b) /\
    bmap_ok (ba_bmap r) /\ avail_ok (ba_bmap r) /\
    ba_free r = u64 (fr - 16384 * (free_blocks bm - free_blocks (ba_bmap r))).
Proof.
  intros Hok Hav Hreq E. pose proof (proj1 Hreq) as Hr.
  destruct (alloc_picked _ _ _ _ _ _ _ Hok Hreq E) as (i & m & off & lin & Hp & Hb & _ & Hq & _).
  destruct (picked_blk _ _ _ _ _ _ _ Hok Hr Hp Hq) as (Ho1 & Ho2 & Hblk).
  destruct (alloc_avail _ _ _ _ _ _ _ Hok Hreq Hav E) as (Hav' & _ & Hf).
  exists off. split_and!; try done.
  - pose proof (bok_lalign _ Hok). destruct Hp; [done|dlia].
  - by eapply alloc_bmap_ok.
  - rewrite Hf, Hav, Hav'. f_equal. lia.
Qed.

Lemma bmap_alloc_exact_witness :
  exists r off, hammer2_bmap_alloc 4194304 bmap_free 784 65536 15 8388608 = Some r /\
    ba_base r = u64 (8388608 + off) /\ off mod 1024 = 0.
Proof.
  destruct (hammer2_bmap_alloc 4194304 bmap_free 784 65536 15 8388608) as [r|] eqn:E;
    [|vm_compute in E; discriminate].
  destruct (bmap_alloc_exact 4194304 bmap_free 784 65536 15 8388608 r) as (off & H1 & H2 & _);
    [apply bmap_free_ok|apply bmap_free_ok|split; [lia|reflexivity]|exact E|].
  exists r, off. split; [reflexivity|]. split; [exact H1|exact H2].
Defined.
