(* ===== verification/Freemap.v ===== *)
(** hammer2_freemap.c above the segment: the reservation of the freemap's own
    blocks, the initialization of a leaf, the 1GB scan, the iteration over
    leaves and the recovery adjustment. *)
From S2P Require Import Prelude Disk Subr Bmap.
From Stdlib Require Import ZArith Lia Bool.
From stdpp Require Import base list gmap.
Import Sizes.
Open Scope Z_scope.

(** ** The freemap's own blocks *)

Module Reserve.

(** The slot of the level in a rotation, [None] where the code panics. *)
Definition zonefm_level (keybits : Z) : option Z :=
  if keybits =? HAMMER2_FREEMAP_LEVEL5_RADIX then Some HAMMER2_ZONEFM_LEVEL5
  else if keybits =? HAMMER2_FREEMAP_LEVEL4_RADIX then Some HAMMER2_ZONEFM_LEVEL4
  else if keybits =? HAMMER2_FREEMAP_LEVEL3_RADIX then Some HAMMER2_ZONEFM_LEVEL3
  else if keybits =? HAMMER2_FREEMAP_LEVEL2_RADIX then Some HAMMER2_ZONEFM_LEVEL2
  else if keybits =? HAMMER2_FREEMAP_LEVEL1_RADIX then Some HAMMER2_ZONEFM_LEVEL1
  else None.

(** The next of the eight rotations. *)
Definition reserve_index (data_off : Z) : Z :=
  if data_off &~ HAMMER2_OFF_MASK_RADIX =? 0 then 0
  else
    let off := data_off &~ HAMMER2_OFF_MASK_RADIX & HAMMER2_SEGMASK in
    let off := off / HAMMER2_PBUFSIZE in
    let index := Z.quot (i32 (off - HAMMER2_ZONE_FREEMAP_00)) HAMMER2_ZONE_FREEMAP_INC in
    if index + 1 =? HAMMER2_NFREEMAPS then 0 else index + 1.

(** [inl] is the returned error, [inr] the blockref with its new offset. *)
Definition hammer2_freemap_reserve (bref : hammer2_blockref) (radix : Z) : Z + hammer2_blockref :=
  let index_inc := reserve_index (br_data_off bref) * HAMMER2_ZONE_FREEMAP_INC in
  match zonefm_level (br_keybits bref) with
  | None => inl HAMMER2_ERROR_EIO
  | Some level =>
      let off := u64 (H2FMBASE (br_key bref) (br_keybits bref) +
                      (index_inc + HAMMER2_ZONE_FREEMAP_00 + level) * HAMMER2_PBUFSIZE) in
      inr (bref_set_data_off bref (off ||| radix))
  end.

End Reserve.

(** ** Leaves *)

Module Leaf.

(** The part of a leaf's gigabyte that is marked free, [lokey] to [hikey]. *)
Definition init_lokey (allocator_beg key : Z) : Z :=
  let lokey := u64 (allocator_beg + HAMMER2_SEGMASK) &~ HAMMER2_SEGMASK in
  let lokey :=
    if lokey <? H2FMBASE key HAMMER2_FREEMAP_LEVEL1_RADIX
    then H2FMBASE key HAMMER2_FREEMAP_LEVEL1_RADIX else lokey in
  if lokey <? u64 (H2FMZONEBASE key + HAMMER2_ZONE_SEG)
  then u64 (H2FMZONEBASE key + HAMMER2_ZONE_SEG) else lokey.

Definition init_hikey (total_size key : Z) : Z :=
  let hikey := u64 (key + HAMMER2_FREEMAP_LEVEL1_SIZE) in
  if total_size <? hikey then total_size &~ HAMMER2_SEGMASK else hikey.

(** The loop over the segments from [key] on: the new segments and what is
    left of [check.freemap.avail]. *)
Fixpoint init_loop (bmaps : list hammer2_bmap_data) (key lokey hikey avail : Z)
    : list hammer2_bmap_data * Z :=
  match bmaps with
  | [] => ([], avail)
  | bm :: rest =>
      let full := (key <? lokey) || (hikey <=? key) in
      let bm' :=
        if full
        then mkBmap HAMMER2_SEGSIZE (bm_class bm) 0
               (replicate (length (bm_bitmapq bm)) HAMMER2_BMAP_ALLONES)
        else mkBmap (bm_linear bm) (bm_class bm) HAMMER2_FREEMAP_LEVEL0_SIZE (bm_bitmapq bm) in
      let avail' := if full then u64 (avail - HAMMER2_FREEMAP_LEVEL0_SIZE) else avail in
      let '(rest', a) :=
        init_loop rest (u64 (key + HAMMER2_FREEMAP_LEVEL0_SIZE)) lokey hikey avail' in
      (bm' :: rest', a)
  end.

Definition hammer2_freemap_init (allocator_beg total_size key : Z) (leaf : freemap_leaf)
    : freemap_leaf :=
  let lokey := init_lokey allocator_beg key in
  let hikey := init_hikey total_size key in
  let '(bms, avail) := init_loop (lf_bmdata leaf) key lokey hikey HAMMER2_FREEMAP_LEVEL1_SIZE in
  mkLeaf bms (lf_bigmask leaf) avail.

Definition bmap_zero : hammer2_bmap_data := mkBmap 0 0 0 (replicate 8 0).

(** A leaf as hammer2_chain_create() makes it, and after the caller's bzero()
    and its two stores to the blockref. *)
Definition leaf_created : freemap_leaf := mkLeaf (replicate 256 bmap_zero) 0 0.
Definition leaf_zeroed : freemap_leaf :=
  mkLeaf (replicate 256 bmap_zero) (u32 (-1)) HAMMER2_FREEMAP_LEVEL1_SIZE.

End Leaf.

(** ** The scan of one leaf *)

Module Scan.

(** The parameters of one scan that do not change. *)
Record scan_args := mkScan {
  sa_key : Z;       (* base of the leaf *)
  sa_class : Z;
  sa_sub_key : Z;   (* (int)bref->key *)
  sa_radix : Z;
  sa_relaxed : Z
}.

Definition availchk (bm : hammer2_bmap_data) (radix : Z) : bool :=
  nz (bm_avail bm) ||
  ((radix <? HAMMER2_FREEMAP_BLOCK_RADIX) && nz (bm_linear bm & HAMMER2_FREEMAP_BLOCK_MASK)).

(** One segment: not out of range, possibly available, of a compatible class,
    and then the allocation itself. *)
Definition try_segment (a : scan_args) (fr : Z) (bmaps : list hammer2_bmap_data) (n : Z)
    : option bmap_alloc_result :=
  if (0 <=? n) && (n <? HAMMER2_FREEMAP_COUNT) then
    let bm := aget Leaf.bmap_zero bmaps n in
    if availchk bm (sa_radix a) &&
       ((bm_class bm =? 0) || (bm_class bm =? sa_class a) || nz (sa_relaxed a))
    then hammer2_bmap_alloc fr bm (sa_class a) (sa_sub_key a) (sa_radix a)
           (u64 (sa_key a + n * HAMMER2_FREEMAP_LEVEL0_SIZE))
    else None
  else None.

(** The loop on [count]: forwards from [start], then backwards. *)
Fixpoint scan_segments (fuel : nat) (a : scan_args) (fr : Z) (bmaps : list hammer2_bmap_data)
    (start count : Z) : option (Z * bmap_alloc_result) :=
  match fuel with
  | O => None
  | S f =>
      if (HAMMER2_FREEMAP_COUNT <=? start + count) && (start - count <? 0) then None
      else
        match try_segment a fr bmaps (start + count) with
        | Some r => Some (start + count, r)
        | None =>
            match try_segment a fr bmaps (start - count) with
            | Some r => Some (start - count, r)
            | None => scan_segments f a fr bmaps start (count + 1)
            end
        end
  end.

End Scan.

(** ** The allocator *)

Module Alloc.
Import Leaf Scan.

(** [struct hammer2_fiterate]. *)
Record hammer2_fiterate := mkIter {
  it_bpref : Z;
  it_bnext : Z;
  it_loops : Z;
  it_relaxed : Z
}.

(** The part of [hammer2_dev_t] the allocator works on.  [hd_leaves] is the
    chain topology under [fchain], the FREEMAP_LEAF chains by key; the two
    logs are the calls into the buffer layer. *)
Record fm_dev := mkDev {
  hd_allocator_beg : Z;
  hd_total_size : Z;
  hd_allocator_free : Z;
  hd_freemap_relaxed : Z;
  hd_heur_freemap : list Z;
  hd_leaves : gmap Z freemap_leaf;
  hd_newnz : list Z;          (* hammer2_io_newnz() *)
  hd_dedup : list Z;          (* hammer2_io_dedup_set() *)
  hd_tick : nat               (* chain calls so far *)
}.

Definition dev_tick (d : fm_dev) : fm_dev :=
  mkDev (hd_allocator_beg d) (hd_total_size d) (hd_allocator_free d) (hd_freemap_relaxed d)
    (hd_heur_freemap d) (hd_leaves d) (hd_newnz d) (hd_dedup d) (S (hd_tick d)).
Definition dev_leaf (d : fm_dev) (key : Z) (leaf : freemap_leaf) : fm_dev :=
  mkDev (hd_allocator_beg d) (hd_total_size d) (hd_allocator_free d) (hd_freemap_relaxed d)
    (hd_heur_freemap d) (<[key := leaf]> (hd_leaves d)) (hd_newnz d) (hd_dedup d) (hd_tick d).
Definition dev_alloc (d : fm_dev) (r : bmap_alloc_result) : fm_dev :=
  mkDev (hd_allocator_beg d) (hd_total_size d) (ba_free r) (hd_freemap_relaxed d)
    (hd_heur_freemap d) (hd_leaves d)
    (match ba_newnz r with Some o => o :: hd_newnz d | None => hd_newnz d end)
    (hd_dedup d) (hd_tick d).
Definition dev_dedup (d : fm_dev) (off : Z) : fm_dev :=
  mkDev (hd_allocator_beg d) (hd_total_size d) (hd_allocator_free d) (hd_freemap_relaxed d)
    (hd_heur_freemap d) (hd_leaves d) (hd_newnz d) (off :: hd_dedup d) (hd_tick d).
Definition dev_heur (d : fm_dev) (relaxed hindex bnext : Z) : fm_dev :=
  mkDev (hd_allocator_beg d) (hd_total_size d) (hd_allocator_free d)
    (hd_freemap_relaxed d ||| relaxed) (aset (hd_heur_freemap d) hindex bnext)
    (hd_leaves d) (hd_newnz d) (hd_dedup d) (hd_tick d).
Definition dev_adjust (d : fm_dev) (modified : bool) (bgsize : Z) : fm_dev :=
  mkDev (hd_allocator_beg d) (hd_total_size d) (u64 (hd_allocator_free d - bgsize))
    (if modified then 0 else hd_freemap_relaxed d)
    (hd_heur_freemap d) (hd_leaves d) (hd_newnz d) (hd_dedup d) (hd_tick d).

(** What the chain layer answers at the [n]th call for a key: the error a
    lookup returns with no chain (an errored FREEMAP_NODE on the way), the
    [chain->error] of a leaf found, and the errors of hammer2_chain_create()
    and hammer2_chain_modify(). *)
Record chain_io := mkIo {
  io_node_error : nat -> Z -> Z;
  io_leaf_error : nat -> Z -> Z;
  io_create_error : nat -> Z -> Z;
  io_modify_error : nat -> Z -> Z
}.

Section Alloc.
Variable io : chain_io.

(** [iter->bnext] moves to the next gigabyte; after the end of the media it
    starts over, twice, and once more relaxed. *)
Definition hammer2_freemap_iterate (total_size : Z) (iter : hammer2_fiterate)
    : Z * hammer2_fiterate :=
  let bnext := u64 ((it_bnext iter &~ HAMMER2_FREEMAP_LEVEL1_MASK) +
                    HAMMER2_FREEMAP_LEVEL1_SIZE) in
  if total_size <=? bnext then
    let loops := it_loops iter + 1 in
    if 2 <=? loops then
      if it_relaxed iter =? 0
      then (HAMMER2_ERROR_EAGAIN, mkIter (it_bpref iter) 0 loops 1)
      else (HAMMER2_ERROR_ENOSPC, mkIter (it_bpref iter) 0 loops (it_relaxed iter))
    else (HAMMER2_ERROR_EAGAIN, mkIter (it_bpref iter) 0 loops (it_relaxed iter))
  else (HAMMER2_ERROR_EAGAIN, mkIter (it_bpref iter) bnext (it_loops iter) (it_relaxed iter)).

(** hammer2_chain_lookup() of the leaf: no chain when there is none, and also
    when a node on the way is errored. *)
Definition lookup_leaf (d : fm_dev) (key : Z) : option freemap_leaf :=
  if nz (io_node_error io (hd_tick d) key) then None else hd_leaves d !! key.

(** The creation and initialization of a missing leaf; the device and the
    error that decides whether the leaf is scanned. *)
Definition create_leaf (d : fm_dev) (key : Z) : fm_dev * Z :=
  let error := io_create_error io (hd_tick d) key in
  let d := dev_tick d in
  if nz error then (d, error)
  else
    let d := dev_leaf d key leaf_created in
    let error := io_modify_error io (hd_tick d) key in
    let d := dev_tick d in
    if nz error then (d, error)
    else (dev_leaf d key
            (hammer2_freemap_init (hd_allocator_beg d) (hd_total_size d) key leaf_zeroed), 0).

(** The first half of hammer2_freemap_try_alloc(): find or make the leaf. *)
Definition try_leaf (d : fm_dev) (key radix : Z) : fm_dev * Z :=
  let t := hd_tick d in
  match lookup_leaf d key with
  | None => create_leaf (dev_tick d) key
  | Some leaf =>
      if nz (io_leaf_error io t key) then (dev_tick d, HAMMER2_ERROR_EIO)
      else if (lf_bigmask leaf & Z.shiftl 1 radix) =? 0 then (dev_tick d, HAMMER2_ERROR_ENOSPC)
      else (dev_tick (dev_tick d), io_modify_error io (S t) key)
  end.

(** The second half: modify and scan the leaf's 4MB segments.  [inl] is an
    error, [inr] the device offset allocated. *)
Definition try_scan (d : fm_dev) (key class sub_key radix : Z) (iter : hammer2_fiterate)
    : fm_dev * (Z + Z) :=
  let start := Z.shiftr (it_bnext iter - key) HAMMER2_FREEMAP_LEVEL0_RADIX in
  let error := io_modify_error io (hd_tick d) key in
  let d := dev_tick d in
  if nz error then (d, inl error)
  else
    let leaf := default leaf_created (hd_leaves d !! key) in
    match scan_segments 256 (mkScan key class sub_key radix (it_relaxed iter))
            (hd_allocator_free d) (lf_bmdata leaf) start 0 with
    | Some (n, r) =>
        (dev_leaf (dev_alloc d r) key
           (mkLeaf (aset (lf_bmdata leaf) n (ba_bmap r)) (lf_bigmask leaf) (lf_avail leaf)),
         inr (ba_base r))
    | None =>
        if (start =? 0) && nz (it_relaxed iter)
        then (dev_leaf d key (mkLeaf (lf_bmdata leaf) (lf_bigmask leaf &~ Z.shiftl 1 radix)
                                (lf_avail leaf)), inl HAMMER2_ERROR_ENOSPC)
        else (d, inl HAMMER2_ERROR_ENOSPC)
    end.

(** [class = (bref->type << 8) | HAMMER2_PBUFRADIX], a [uint16_t]. *)
Definition class_of (type : Z) : Z := u16 (Z.shiftl type 8 ||| HAMMER2_PBUFRADIX).

Definition hammer2_freemap_try_alloc (d : fm_dev) (bref : hammer2_blockref) (radix : Z)
    (iter : hammer2_fiterate) : fm_dev * hammer2_blockref * hammer2_fiterate * Z :=
  let key := H2FMBASE (it_bnext iter) HAMMER2_FREEMAP_LEVEL1_RADIX in
  let '(d, error) := try_leaf d key radix in
  let '(d, res) :=
    if nz error then (d, inl error)
    else try_scan d key (class_of (br_type bref)) (i32 (br_key bref)) radix iter in
  match res with
  | inr off =>
      let bref := bref_set_data_off bref (off ||| radix) in
      let d := if br_type bref =? HAMMER2_BREF_TYPE_DATA
               then dev_dedup d (br_data_off bref) else d in
      (d, bref, iter, 0)
  | inl error =>
      if error =? HAMMER2_ERROR_ENOSPC then
        let '(error, iter) := hammer2_freemap_iterate (hd_total_size d) iter in
        (d, bref, iter, error)
      else (d, bref, iter, error)
  end.

(** [while (error == HAMMER2_ERROR_EAGAIN)] of hammer2_freemap_alloc();
    [None] when the fuel runs out. *)
Fixpoint alloc_loop (fuel : nat) (d : fm_dev) (bref : hammer2_blockref) (radix : Z)
    (iter : hammer2_fiterate) : option (fm_dev * hammer2_blockref * hammer2_fiterate * Z) :=
  match fuel with
  | O => None
  | S f =>
      let '(d, bref, iter, error) := hammer2_freemap_try_alloc d bref radix iter in
      if error =? HAMMER2_ERROR_EAGAIN then alloc_loop f d bref radix iter
      else Some (d, bref, iter, error)
  end.

Definition HAMMER2_FREEMAP_HEUR_NRADIX : Z := 4.
Definition HAMMER2_FREEMAP_HEUR_TYPES : Z := 8.

(** The heuristic index, by bref type. *)
Definition heur_index (type : Z) : Z :=
  let hindex := HAMMER2_PBUFRADIX - HAMMER2_LBUFRADIX in
  let hindex := hindex + type * HAMMER2_FREEMAP_HEUR_NRADIX in
  hindex & (HAMMER2_FREEMAP_HEUR_TYPES * HAMMER2_FREEMAP_HEUR_NRADIX - 1).

(** Three passes over the leaves of the media, and the first, partial one. *)
Definition alloc_fuel (d : fm_dev) : nat :=
  Z.to_nat (4 * (hd_total_size d / HAMMER2_FREEMAP_LEVEL1_SIZE + 2)).

(** [None] is a loop that does not end (or a size with no radix). *)
Definition hammer2_freemap_alloc (d : fm_dev) (bref : hammer2_blockref) (bytes : Z)
    : option (fm_dev * hammer2_blockref * Z) :=
  if bytes =? 0 then Some (d, bref_set_data_off bref 0, 0)
  else
    match hammer2_getradix bytes with
    | None => None
    | Some radix =>
        if (br_type bref =? HAMMER2_BREF_TYPE_FREEMAP_NODE) ||
           (br_type bref =? HAMMER2_BREF_TYPE_FREEMAP_LEAF)
        then match Reserve.hammer2_freemap_reserve bref radix with
             | inl error => Some (d, bref, error)
             | inr bref => Some (d, bref, 0)
             end
        else
          let hindex := heur_index (br_type bref) in
          let bpref := aget 0 (hd_heur_freemap d) hindex in
          let bpref := if hd_total_size d <? bpref then u64 (hd_total_size d - 1) else bpref in
          let iter := mkIter bpref bpref 0 (hd_freemap_relaxed d) in
          match alloc_loop (alloc_fuel d) d bref radix iter with
          | None => None
          | Some (d, bref, iter, error) =>
              Some (dev_heur d (it_relaxed iter) hindex (it_bnext iter), bref, error)
          end
    end.

(** The bit loop of hammer2_freemap_adjust(), [count] entries from [bmmask11]
    on in element [e]; [None] when the first modification of the chain fails. *)
Fixpoint adjust_loop (count : nat) (modify_error class e : Z) (bm : hammer2_bmap_data)
    (bmmask11 bgsize : Z) (modified : bool) : option (hammer2_bmap_data * Z * bool) :=
  match count with
  | O => Some (bm, bgsize, modified)
  | S c =>
      let q := aget 0 (bm_bitmapq bm) e in
      if (q & bmmask11) =? bmmask11
      then adjust_loop c modify_error class e bm (u64 (Z.shiftl bmmask11 2)) bgsize modified
      else if negb modified && nz modify_error then None
      else
        let free := (q & bmmask11) =? 0 in
        let bm' := mkBmap (if modified then bm_linear bm else 0)
                     (if bm_class bm =? 0 then class else bm_class bm)
                     (if free then u32 (bm_avail bm - HAMMER2_FREEMAP_BLOCK_SIZE)
                      else bm_avail bm)
                     (aset (bm_bitmapq bm) e (q ||| bmmask11)) in
        adjust_loop c modify_error class e bm' (u64 (Z.shiftl bmmask11 2))
          (if free then bgsize + HAMMER2_FREEMAP_BLOCK_SIZE else bgsize) true
  end.

(** The bitmap part: which segment, element and bits a data offset selects. *)
Definition adjust_segment (modify_error class data_off radix : Z) (bm : hammer2_bmap_data)
    : option (hammer2_bmap_data * Z * bool) :=
  let start := (i32 (Z.shiftr data_off HAMMER2_FREEMAP_BLOCK_RADIX) & 15) * 2 in
  let bmmask11 := u64 (Z.shiftl 3 start) in
  let count := if radix <? HAMMER2_FREEMAP_BLOCK_RADIX then 1
               else Z.shiftl 1 (radix - HAMMER2_FREEMAP_BLOCK_RADIX) in
  let e := i32 (Z.shiftr data_off (HAMMER2_SEGRADIX - 3)) & 7 in
  adjust_loop (Z.to_nat count) modify_error class e bm bmmask11 0 false.

(** hammer2_freemap_adjust(hmp, bref, HAMMER2_FREEMAP_DORECOVER). *)
Definition hammer2_freemap_adjust (d : fm_dev) (bref : hammer2_blockref) : fm_dev :=
  let radix := br_data_off bref & HAMMER2_OFF_MASK_RADIX in
  let data_off := br_data_off bref &~ HAMMER2_OFF_MASK_RADIX in
  if data_off <? hd_allocator_beg d then d
  else
    let key := H2FMBASE data_off HAMMER2_FREEMAP_LEVEL1_RADIX in
    let t := hd_tick d in
    let '(d, error) :=
      match lookup_leaf d key with
      | Some _ => (dev_tick d, io_leaf_error io t key)
      | None => create_leaf (dev_tick d) key
      end in
    if nz error then d
    else
      let leaf := default leaf_created (hd_leaves d !! key) in
      let n := i32 (Z.shiftr data_off HAMMER2_SEGRADIX) & (HAMMER2_FREEMAP_COUNT - 1) in
      match adjust_segment (io_modify_error io (hd_tick d) key) (class_of (br_type bref))
              data_off radix (aget bmap_zero (lf_bmdata leaf) n) with
      | None => dev_tick d
      | Some (bm, bgsize, modified) =>
          if modified
          then dev_adjust (dev_leaf (dev_tick d) key
                             (mkLeaf (aset (lf_bmdata leaf) n bm) (u32 (-1)) (lf_avail leaf)))
                 true bgsize
          else dev_adjust d false bgsize
      end.

End Alloc.
End Alloc.
