(* ===== verification/FreemapProof.v ===== *)
(** The leaf level of the freemap: reservation, initialization, the safety,
    termination and completeness of the allocator, and recovery. *)
From S2P Require Import Prelude Disk Subr Bmap Freemap.
From Stdlib Require Import ZArith Lia Bool.
From stdpp Require Import base list gmap.
Import Sizes Reserve Leaf Scan Alloc.
Open Scope Z_scope.

(** ** Reservation *)

(** The offset of rotation [index] of a level in the reserved area. *)
Definition reserve_slot (key keybits level index : Z) : Z :=
  H2FMBASE key keybits + (index * 5 + 1 + level) * 65536.

Lemma zonefm_level_cases kb level : zonefm_level kb = Some level ->
  30 <= kb <= 62 /\ 0 <= level <= 4 /\ level = (kb - 30) / 8.
Proof. unfold zonefm_level. h2const. zcases; intros [= <-]; subst; vm_compute; intuition done. Qed.

Lemma H2FMBASE_u64 key r : is_u64 key -> 0 <= r -> 0 <= H2FMBASE key r <= key.
Proof.
  intros Hk Hr. rewrite H2FMBASE_spec by done. unfold is_u64 in Hk.
  assert (0 < 2 ^ r) by (apply Z.pow_pos_nonneg; lia).
  pose proof (Z.mod_pos_bound key (2 ^ r)). pose proof (Z.mod_le key (2 ^ r)). lia.
Qed.

Lemma H2FMBASE_mod30 key r : 30 <= r -> H2FMBASE key r mod 2 ^ 30 = 0.
Proof.
  intros Hr. rewrite <- (Z.mod_mod_divide _ (2 ^ r) (2 ^ 30)).
  - unfold H2FMBASE. rewrite Z.shiftl_1_l, rounddown2_mod by lia. apply Z.mod_0_l. lia.
  - exists (2 ^ (r - 30)). rewrite <- Z.pow_add_r by lia. f_equal. lia.
Qed.

(** Decoding a slot gives back its rotation. *)
Lemma reserve_index_slot base index level radix :
  0 <= base -> base mod 2 ^ 30 = 0 -> 0 <= index < 8 -> 0 <= level <= 4 -> 0 <= radix < 64 ->
  reserve_index (Z.lor (base + (index * 5 + 1 + level) * 65536) radix) = (index + 1) mod 8.
Proof.
  intros Hb Hm Hi Hl Hr. unfold reserve_index. h2const.
  set (off := base + (index * 5 + 1 + level) * 65536).
  assert (off mod 2 ^ 6 = 0) as Hoff by (unfold off; change (2 ^ 30) with 1073741824 in Hm;
    change (2 ^ 6) with 64; dlia).
  assert (Z.ldiff (Z.lor off radix) 63 = off) as ->.
  { change 63 with (2 ^ 6 - 1). rewrite (lor_low off radix 6) by lia.
    rewrite ldiff_low by lia. rewrite Z.add_mod, Hoff, Z.add_0_l, Z.mod_mod by lia.
    rewrite (Z.mod_small radix) by lia. lia. }
  change 4194303 with (2 ^ 22 - 1). rewrite land_low by lia.
  assert (off mod 2 ^ 22 = (index * 5 + 1 + level) * 65536) as ->.
  { unfold off. change (2 ^ 30) with 1073741824 in Hm. change (2 ^ 22) with 4194304. dlia. }
  rewrite Z.div_mul by lia. rewrite i32_small by lia.
  rewrite Z.quot_div_nonneg by lia.
  replace ((index * 5 + 1 + level - 1) / 5) with index by dlia.
  destruct (Z.eqb_spec off 0) as [E|_]; [unfold off in E; lia|].
  change (2 ^ 3) with 8. destruct (Z.eqb_spec (index + 1) 8) as [E|E].
  - by rewrite E.
  - by rewrite Z.mod_small by lia.
Qed.

(** [n] successive reservations of one freemap chain. *)
Fixpoint reserve_n (n : nat) (bref : hammer2_blockref) (radix : Z) : option hammer2_blockref :=
  match n with
  | O => Some bref
  | S m =>
      match hammer2_freemap_reserve bref radix with
      | inl _ => None
      | inr bref => reserve_n m bref radix
      end
  end.

Lemma reserve_step bref radix level index :
  is_u64 (br_key bref) -> zonefm_level (br_keybits bref) = Some level -> 0 <= radix < 64 ->
  0 <= index < 8 -> reserve_index (br_data_off bref) = index ->
  hammer2_freemap_reserve bref radix =
  inr (bref_set_data_off bref
         (Z.lor (reserve_slot (br_key bref) (br_keybits bref) level index) radix)).
Proof.
  intros Hk Hl Hr Hi Hidx. unfold hammer2_freemap_reserve. rewrite Hl, Hidx.
  destruct (zonefm_level_cases _ _ Hl) as (Hkb & Hlv & _).
  do 3 f_equal. h2const. unfold reserve_slot. apply u64_small.
  pose proof (H2FMBASE_u64 (br_key bref) (br_keybits bref) Hk ltac:(lia)).
  pose proof (H2FMBASE_mod30 (br_key bref) (br_keybits bref) ltac:(lia)) as Hm.
  unfold is_u64 in *. change (2 ^ 30) with 1073741824 in Hm.
  assert (H2FMBASE (br_key bref) (br_keybits bref) <= 2 ^ 64 - 1073741824) by dlia. lia.
Qed.

Lemma reserve_n_slot n : forall bref radix level index,
  is_u64 (br_key bref) -> zonefm_level (br_keybits bref) = Some level -> 0 <= radix < 64 ->
  0 <= index < 8 -> reserve_index (br_data_off bref) = index ->
  reserve_n (S n) bref radix =
  Some (bref_set_data_off bref
    (Z.lor (reserve_slot (br_key bref) (br_keybits bref) level ((index + Z.of_nat n) mod 8)) radix)).
Proof.
  induction n as [|n IH]; intros bref radix level index Hk Hl Hr Hi Hidx.
  - cbn [reserve_n]. rewrite (reserve_step _ _ level index) by done.
    by rewrite Z.add_0_r, Z.mod_small by lia.
  - remember (S n) as m. cbn [reserve_n]. subst m. rewrite (reserve_step _ _ level index) by done.
    destruct (zonefm_level_cases _ _ Hl) as (Hkb & Hlv & _).
    rewrite (IH _ _ level ((index + 1) mod 8)); try done.
    + simpl. do 4 f_equal. rewrite Zplus_mod_idemp_l. f_equal. lia.
    + apply Z.mod_pos_bound. lia.
    + simpl. unfold reserve_slot. apply reserve_index_slot; try done.
      * apply (H2FMBASE_u64 (br_key bref) (br_keybits bref)); [done|lia].
      * apply H2FMBASE_mod30. lia.
Qed.

(** ** Leaf initialization *)

(** A segment the allocator may use: past the static area, inside the media
    and outside the 4MB reserved at every gigabyte. *)
Definition usable (beg total k : Z) : Prop :=
  beg <= k /\ k + HAMMER2_SEGSIZE <= total /\ HAMMER2_ZONE_SEG <= k mod 2 ^ 30.

#[export] Instance usable_dec beg total k : Decision (usable beg total k).
Proof. unfold usable. apply _. Defined.

(** The reserved areas of the 2GB zones are among them. *)
Lemma usable_zone beg total k o : usable beg total k -> k mod HAMMER2_SEGSIZE = 0 ->
  0 <= o < HAMMER2_SEGSIZE -> HAMMER2_ZONE_SEG <= Z.land (k + o) HAMMER2_ZONE_MASK64.
Proof.
  intros (_ & _ & Hz) Hm Ho. change HAMMER2_ZONE_MASK64 with (2 ^ 31 - 1). rewrite land_low by lia.
  h2const. change (2 ^ 31) with 2147483648. change (2 ^ 30) with 1073741824 in Hz. dlia.
Qed.

Lemma init_loop_spec m : forall key lokey hikey a n,
  0 <= key -> key + Z.of_nat m * 4194304 < 2 ^ 64 -> 0 <= n < Z.of_nat m ->
  length (init_loop (replicate m bmap_zero) key lokey hikey a).1 = m /\
  aget bmap_zero (init_loop (replicate m bmap_zero) key lokey hikey a).1 n =
  if (key + n * 4194304 <? lokey) || (hikey <=? key + n * 4194304) then bmap_full else bmap_free.
Proof.
  induction m as [|m IH]; intros key lokey hikey a n Hk Hm Hn; [lia|].
  cbn [replicate init_loop]. h2const.
  destruct (init_loop (replicate m bmap_zero) _ _ _ _) as [rest a'] eqn:E. cbn [fst length].
  rewrite u64_small in E by (unfold is_u64; lia).
  destruct (Z.eq_dec n 0) as [->|Hn0].
  - unfold aget. simpl. rewrite Z.add_0_r. split.
    + f_equal. destruct m as [|m]; [by injection E as <- <-|].
      destruct (IH (key + 4194304) lokey hikey
        (if (key <? lokey) || (hikey <=? key) then u64 (a - 4194304) else a) 0) as [Hl _];
        [lia..|]. by rewrite E in Hl.
    + by destruct ((key <? lokey) || (hikey <=? key)).
  - destruct (IH (key + 4194304) lokey hikey
      (if (key <? lokey) || (hikey <=? key) then u64 (a - 4194304) else a) (n - 1)) as [Hl Ha];
      [lia..|]. rewrite E in Hl, Ha. cbn [fst] in Hl, Ha. split; [by f_equal|].
    replace (key + 4194304 + (n - 1) * 4194304) with (key + n * 4194304) in Ha by lia.
    rewrite <- Ha. unfold aget. replace (Z.to_nat n) with (S (Z.to_nat (n - 1))) by lia. done.
Qed.

Lemma roundup_seg beg : 0 <= beg <= 2 ^ 63 ->
  let lo := Z.ldiff (u64 (beg + HAMMER2_SEGMASK)) HAMMER2_SEGMASK in
  beg <= lo < beg + 4194304 /\ lo mod 4194304 = 0.
Proof.
  intros Hb. h2const. cbv zeta. rewrite u64_small by (unfold is_u64; lia).
  pose proof (ldiff_low (beg + 4194303) 22 ltac:(lia)) as E.
  change (2 ^ 22 - 1) with 4194303 in E. rewrite E.
  change (2 ^ 22) with 4194304. dlia.
Qed.

(** A fresh leaf is free exactly on the usable segments of its gigabyte. *)
Lemma init_segment beg total key n :
  0 <= beg <= total -> total <= 2 ^ 63 -> 0 <= key <= total -> key mod 2 ^ 30 = 0 ->
  0 <= n < 256 ->
  length (lf_bmdata (hammer2_freemap_init beg total key leaf_zeroed)) = 256%nat /\
  aget bmap_zero (lf_bmdata (hammer2_freemap_init beg total key leaf_zeroed)) n =
  if decide (usable beg total (key + n * HAMMER2_SEGSIZE)) then bmap_free else bmap_full.
Proof.
  intros Hb Ht Hk Hm Hn. unfold hammer2_freemap_init, leaf_zeroed. cbn [lf_bmdata lf_bigmask].
  destruct (init_loop (replicate 256 bmap_zero) key (init_lokey beg key) (init_hikey total key)
     HAMMER2_FREEMAP_LEVEL1_SIZE) as [bms a] eqn:E. cbn [lf_bmdata].
  pose proof (init_loop_spec 256 key (init_lokey beg key) (init_hikey total key)
    HAMMER2_FREEMAP_LEVEL1_SIZE n) as Hs.
  rewrite E in Hs. cbn [fst] in Hs. destruct Hs as [Hl Ha]; [lia..|]. split; [done|].
  rewrite Ha. h2const. clear E Hl Ha.
  change (2 ^ 30) with 1073741824 in *.
  assert (init_lokey beg key = Z.max (Z.ldiff (u64 (beg + HAMMER2_SEGMASK)) HAMMER2_SEGMASK)
            (key + 4194304)) as ->.
  { unfold init_lokey. rewrite H2FMBASE_spec, H2FMZONEBASE_spec by done.
    h2const. change (2 ^ 30) with 1073741824. rewrite Hm, Z.sub_0_r.
    rewrite (u64_small (key + _)) by (unfold is_u64; lia). cbv zeta.
    set (lo := Z.ldiff _ _). destruct (Z.ltb_spec lo key); zcases; lia. }
  assert (init_hikey total key = Z.min (key + 1073741824) (total - total mod 4194304)) as ->.
  { unfold init_hikey. h2const. rewrite (u64_small (key + _)) by (unfold is_u64; lia).
    change 4194303 with (2 ^ 22 - 1). rewrite ldiff_low by lia.
    change (2 ^ 22) with 4194304. zcases; dlia. }
  destruct (roundup_seg beg) as [Hlo Hlom]; [lia|].
  set (lo := Z.ldiff _ _) in *. clearbody lo.
  assert ((key + n * 4194304) mod 1073741824 = n * 4194304) as E by dlia.
  case_decide as Hd; unfold usable in Hd; h2const; change (2 ^ 30) with 1073741824 in Hd;
    rewrite E in Hd; clear E; zcases; try done; exfalso; apply Hd || clear Hd; dlia.
Qed.

(** ** When a segment cannot serve a request *)

(** No aligned free run, and the linear iterator has no room either. *)
Definition exhausted (bm : hammer2_bmap_data) (radix : Z) : Prop :=
  (forall k, ~ free_run bm k (nblocks radix)) /\
  (bm_linear bm mod 16384 = 0 \/ bm_linear bm = HAMMER2_SEGSIZE \/
   16384 < bm_linear bm mod 16384 + 2 ^ radix).

Lemma exhausted_none fr bm class sub_key radix base :
  bmap_ok bm -> request_ok class sub_key radix -> exhausted bm radix ->
  hammer2_bmap_alloc fr bm class sub_key radix base = None.
Proof.
  intros Hok Hreq [Hrun Hlin].
  destruct (hammer2_bmap_alloc fr bm class sub_key radix base) as [r|] eqn:E; [exfalso|done].
  destruct (alloc_picked _ _ _ _ _ _ _ Hok Hreq E) as (i & m & off & lin & Hp & _).
  destruct Hp; [lia|by eapply Hrun].
Qed.

Lemma none_exhausted fr bm class sub_key radix base :
  bmap_ok bm -> 10 <= radix <= 16 ->
  hammer2_bmap_alloc fr bm class sub_key radix base = None -> exhausted bm radix.
Proof.
  intros Hok Hr E. apply (pick_none bm class sub_key); [done..|].
  unfold hammer2_bmap_alloc in E. by destruct (pick bm class sub_key radix) as [[[[? ?] ?] ?]|].
Qed.

(** Exhaustion is stable under further allocations. *)
Lemma exhausted_alloc fr bm class sub_key radix base r rad :
  bmap_ok bm -> request_ok class sub_key radix -> 10 <= rad <= 16 -> exhausted bm rad ->
  hammer2_bmap_alloc fr bm class sub_key radix base = Some r -> exhausted (ba_bmap r) rad.
Proof.
  intros Hok Hreq Hrad [Hrun Hlin] E. pose proof (proj1 Hreq) as Hr.
  destruct (alloc_picked _ _ _ _ _ _ _ Hok Hreq E) as (i & m & off & lin & Hp & _ & Hl & Hq & _).
  pose proof (picked_blk _ _ _ _ _ _ _ Hok Hr Hp Hq) as (Ho1 & Ho2 & Hblk).
  destruct (pow2_radix_bounds rad Hrad) as (Hsz & _ & Hlt & Hge).
  destruct (pow2_radix_bounds radix Hr) as (Hsz' & _ & Hlt' & _).
  split.
  - intros k (Hk & Hm & Hf). apply (Hrun k). split; [done|]. split; [done|].
    intros b Hb. specialize (Hf b Hb). pose proof (run_in_element k _ (nblocks_cases _ Hrad)
      ltac:(lia) Hm) as Hin. rewrite Hblk in Hf by (clear Hm; dlia).
    by destruct ((_ <=? b) && _).
  - rewrite Hl. destruct Hp as [H14 Hne Hs Hfit | k Hf]; [dlia|].
    destruct (Z.ltb_spec radix 14) as [H14|]; [|done].
    destruct (Z.le_gt_cases rad 14) as [Hle|Hgt].
    + exfalso. apply (Hrun k). replace (nblocks rad) with (nblocks radix); [done|].
      unfold nblocks. zcases.
    + right; right. assert (2 <= nblocks rad) by (unfold nblocks; zcases;
        change 2 with (2 ^ 1); apply Z.pow_le_mono_r; lia). dlia.
Qed.

Lemma bmap_full_exhausted radix : exhausted bmap_full radix.
Proof.
  split; [|by left]. intros k (Hk & _ & Hf). specialize (Hf k).
  assert (blk bmap_full k = 3) as E.
  { unfold blk. cbn [bmap_full bm_bitmapq]. rewrite aget_replicate by dlia.
    apply pair2_allones. dlia. }
  rewrite Hf in E; [done|]. unfold nblocks. zcases.
Qed.

Lemma no_free_run bm k w : free_blocks bm = 0 -> 1 <= w -> ~ free_run bm k w.
Proof.
  rewrite !free_blocks_eq. intros Hz Hw (Hk & _ & Hf).
  pose proof (cntb_zero (fun b => blk bm b =? 0) 256 Hz k Hk) as Hb.
  cbv beta in Hb. apply Z.eqb_neq in Hb. apply Hb, Hf. lia.
Qed.

(** [availchk] only skips segments that cannot serve the request. *)
Lemma availchk_exhausted bm radix : bmap_ok bm -> avail_ok bm -> 10 <= radix <= 16 ->
  availchk bm radix = false -> exhausted bm radix.
Proof.
  intros Hok Hav Hr E. unfold availchk in E. apply orb_false_iff in E as [E1 E2].
  destruct (nz_spec (bm_avail bm)) as [|Ha]; [done|].
  assert (free_blocks bm = 0) as Hz by (unfold avail_ok in Hav; lia).
  destruct (pow2_radix_bounds radix Hr) as (Hsz & _ & _ & Hge). split.
  - intros k. apply no_free_run; [done|]. pose proof (nblocks_cases radix Hr). lia.
  - destruct Hok as [_ _ Hl _]. h2const. fold HAMMER2_FREEMAP_BLOCK_MASK in E2.
    rewrite land_block_mask in E2 by lia.
    destruct (Z.ltb_spec radix 14); simpl in E2.
    + left. destruct (nz_spec (bm_linear bm mod 16384)); [done|lia].
    + pose proof (nblocks_cases radix Hr). pose proof (Z.mod_pos_bound (bm_linear bm) 16384).
      rewrite Hge by done. lia.
Qed.

(** ** The scan *)

Lemma scan_segments_some fuel a fr bms start count n r :
  scan_segments fuel a fr bms start count = Some (n, r) ->
  0 <= n < 256 /\
  hammer2_bmap_alloc fr (aget bmap_zero bms n) (sa_class a) (sa_sub_key a) (sa_radix a)
    (u64 (sa_key a + n * HAMMER2_SEGSIZE)) = Some r.
Proof.
  assert (forall m r', try_segment a fr bms m = Some r' -> 0 <= m < 256 /\
    hammer2_bmap_alloc fr (aget bmap_zero bms m) (sa_class a) (sa_sub_key a) (sa_radix a)
      (u64 (sa_key a + m * HAMMER2_SEGSIZE)) = Some r') as Htry.
  { intros m r'. unfold try_segment. destruct ((0 <=? m) && (m <? _)) eqn:Eb; [|done].
    destruct (availchk _ _ && _); [|done]. intros Hal. split; [h2const; lia|exact Hal]. }
  revert count. induction fuel as [|f IH]; intros count; cbn [scan_segments]; [done|].
  destruct ((_ <=? _) && _); [done|].
  destruct (try_segment a fr bms (start + count)) as [r1|] eqn:E1;
    [intros [= <- <-]; by apply Htry|].
  destruct (try_segment a fr bms (start - count)) as [r2|] eqn:E2;
    [intros [= <- <-]; by apply Htry|]. apply IH.
Qed.

(** The scan covers every segment. *)
Lemma scan_segments_none fuel a fr bms start count :
  0 <= start < 256 -> 0 <= count -> 256 <= count + Z.of_nat fuel ->
  scan_segments fuel a fr bms start count = None ->
  forall n, 0 <= n < 256 -> count <= Z.abs (n - start) -> try_segment a fr bms n = None.
Proof.
  revert count. induction fuel as [|f IH]; intros count Hs Hc Hf; cbn [scan_segments]; [lia|].
  h2const. destruct (Z.leb_spec 256 (start + count)), (Z.ltb_spec (start - count) 0);
    cbn [andb]; [lia|..];
    (destruct (try_segment a fr bms (start + count)) eqn:E1; [done|];
     destruct (try_segment a fr bms (start - count)) eqn:E2; [done|];
     intros E n Hn Hd; destruct (Z.eq_dec n (start + count)) as [->|]; [done|];
     destruct (Z.eq_dec n (start - count)) as [->|]; [done|];
     apply (IH (count + 1)); lia || done).
Qed.

(** In relaxed mode a failed scan exhausts the whole leaf. *)
Lemma scan_exhausted key class sub_key radix relaxed fr bms start :
  10 <= radix <= 16 -> 0 <= start < 256 -> relaxed <> 0 ->
  (forall n, 0 <= n < 256 -> bmap_ok (aget bmap_zero bms n) /\ avail_ok (aget bmap_zero bms n)) ->
  scan_segments 256 (mkScan key class sub_key radix relaxed) fr bms start 0 = None ->
  forall n, 0 <= n < 256 -> exhausted (aget bmap_zero bms n) radix.
Proof.
  intros Hr Hs Hrel Hbm E n Hn. destruct (Hbm n Hn) as [Hok Hav].
  apply scan_segments_none with (n := n) in E; [|lia..]. unfold try_segment in E. h2const.
  replace ((0 <=? n) && (n <? 256)) with true in E by zcases. cbn [sa_relaxed sa_radix] in E.
  destruct (nz_spec relaxed); [|done]. rewrite orb_true_r, andb_true_r in E.
  destruct (availchk _ _) eqn:Ea; [|by apply availchk_exhausted].
  by apply none_exhausted in E.
Qed.

(** ** The device invariant *)

(** The extents of [G] in the segment at [k], relative to it. *)
Definition localize (k : Z) (G : list (Z * Z)) : list (Z * Z) :=
  omap (fun e => if (k <=? e.1) && (e.1 <? k + HAMMER2_SEGSIZE) then Some (e.1 - k, e.2) else None) G.

Lemma elem_of_localize k G o s : (o, s) ∈ localize k G <->
  (k + o, s) ∈ G /\ 0 <= o < HAMMER2_SEGSIZE.
Proof.
  unfold localize. rewrite list_elem_of_omap. split.
  - intros ([o' s'] & He & E). simpl in E. destruct (Z.leb_spec k o'), (Z.ltb_spec o' (k + HAMMER2_SEGSIZE));
      try done. injection E as <- <-. replace (k + (o' - k)) with o' by lia. split; [done|lia].
  - intros [He Ho]. exists (k + o, s). split; [done|]. simpl.
    replace ((k <=? k + o) && (k + o <? k + HAMMER2_SEGSIZE)) with true by (symmetry; zcases).
    do 2 f_equal. lia.
Qed.

Lemma localize_hit k o s G : 0 <= o < HAMMER2_SEGSIZE ->
  localize k ((k + o, s) :: G) = (o, s) :: localize k G.
Proof.
  intros Ho. unfold localize. simpl.
  replace ((k <=? k + o) && (k + o <? k + HAMMER2_SEGSIZE)) with true by (symmetry; zcases).
  replace (k + o - k) with o by lia. done.
Qed.

Lemma localize_miss k k' o s G : 0 <= o < HAMMER2_SEGSIZE -> k <> k' ->
  k mod HAMMER2_SEGSIZE = 0 -> k' mod HAMMER2_SEGSIZE = 0 ->
  localize k' ((k + o, s) :: G) = localize k' G.
Proof.
  intros Ho Hne Hk Hk'. unfold localize. simpl. h2const.
  replace ((k' <=? k + o) && (k + o <? k' + 4194304)) with false; [done|].
  symmetry. apply andb_false_iff. destruct (Z.leb_spec k' (k + o)); [right|by left].
  apply Z.ltb_ge. dlia.
Qed.

Lemma seg_base_mod key n : key mod 2 ^ 30 = 0 -> (key + n * HAMMER2_SEGSIZE) mod HAMMER2_SEGSIZE = 0.
Proof. h2const. change (2 ^ 30) with 1073741824. intros. dlia. Qed.

Lemma seg_base_inj key key' n n' : key mod 2 ^ 30 = 0 -> key' mod 2 ^ 30 = 0 ->
  0 <= n < 256 -> 0 <= n' < 256 ->
  key + n * HAMMER2_SEGSIZE = key' + n' * HAMMER2_SEGSIZE -> key = key' /\ n = n'.
Proof. h2const. change (2 ^ 30) with 1073741824. intros. dlia. Qed.

Lemma seg_base_key key n o : key mod 2 ^ 30 = 0 -> 0 <= n < 256 -> 0 <= o < HAMMER2_SEGSIZE ->
  H2FMBASE (key + n * HAMMER2_SEGSIZE + o) 30 = key.
Proof.
  intros Hk Hn Ho. rewrite H2FMBASE_spec by done. h2const. change (2 ^ 30) with 1073741824 in *. dlia.
Qed.

Section Device.
Context (beg total : Z).
(** Whether a leaf may have been left behind by a failed initialization. *)
Context (dead : Prop).

(** One segment of a leaf: its bitmap, its accounting, that it is closed to
    the allocator when it is not usable, and that the leaf's [bigmask] hint
    only excludes requests it cannot serve. *)
Record seg_live (k bigmask : Z) (bm : hammer2_bmap_data) : Prop := {
  sl_ok : bmap_ok bm;
  sl_avail : avail_ok bm;
  sl_usable : usable beg total k \/ forall r, 10 <= r <= 16 -> exhausted bm r;
  sl_hint : forall r, 10 <= r <= 16 -> Z.land bigmask (Z.shiftl 1 r) = 0 -> exhausted bm r
}.

Definition leaf_live (key : Z) (leaf : freemap_leaf) : Prop :=
  length (lf_bmdata leaf) = 256%nat /\
  forall n, 0 <= n < 256 ->
    seg_live (key + n * HAMMER2_SEGSIZE) (lf_bigmask leaf) (aget bmap_zero (lf_bmdata leaf) n).

Record leaf_inv (G : list (Z * Z)) (key : Z) (leaf : freemap_leaf) : Prop := {
  lv_key : key mod 2 ^ 30 = 0;
  lv_range : 0 <= key <= total;
  lv_live : leaf_live key leaf \/ dead /\ leaf = leaf_created;
  lv_ledger : forall n, 0 <= n < 256 ->
    ledger_inv (aget bmap_zero (lf_bmdata leaf) n) (localize (key + n * HAMMER2_SEGSIZE) G)
}.

(** An allocated extent: inside one usable segment of a leaf. *)
Definition extent_ok (leaves : gmap Z freemap_leaf) (e : Z * Z) : Prop :=
  exists key n o, e.1 = key + n * HAMMER2_SEGSIZE + o /\ key mod 2 ^ 30 = 0 /\ 0 <= n < 256 /\
    0 <= o /\ 0 < e.2 /\ o + e.2 <= HAMMER2_SEGSIZE /\
    usable beg total (key + n * HAMMER2_SEGSIZE) /\ is_Some (leaves !! key).

Record fm_inv (leaves : gmap Z freemap_leaf) (G : list (Z * Z)) : Prop := {
  fi_leaf : forall key leaf, leaves !! key = Some leaf -> leaf_inv G key leaf;
  fi_ext : forall e, e ∈ G -> extent_ok leaves e;
  fi_sep : ForallOrdPairs sep G
}.

Lemma extent_ok_insert leaves key leaf e :
  extent_ok leaves e -> extent_ok (<[key := leaf]> leaves) e.
Proof.
  intros (key' & n & o & H1 & H2 & H3 & H4 & H5 & H6 & H7 & H8). exists key', n, o.
  do 7 (split; [done|]). destruct (decide (key = key')) as [->|].
  - by rewrite lookup_insert_eq.
  - by rewrite lookup_insert_ne.
Qed.

(** No extent lies in a gigabyte without a leaf. *)
Lemma localize_absent leaves G key n : fm_inv leaves G -> leaves !! key = None ->
  key mod 2 ^ 30 = 0 -> 0 <= n < 256 -> localize (key + n * HAMMER2_SEGSIZE) G = [].
Proof.
  intros [_ He _] Hnone Hk Hn. apply elem_of_nil_inv. intros [o s] Hel.
  apply elem_of_localize in Hel as [HG Ho].
  destruct (He _ HG) as (key' & n' & o' & E & Hk' & Hn' & Ho' & Hs & Hos & _ & [lf Hlf]).
  simpl in *. assert (key = key') as ->; [|congruence].
  rewrite <- (seg_base_key key n o), <- (seg_base_key key' n' o') by (done || lia). by f_equal.
Qed.

Lemma fm_put leaves G key leaf : fm_inv leaves G -> leaf_inv G key leaf ->
  fm_inv (<[key := leaf]> leaves) G.
Proof.
  intros [Hl He Hs] Hnew. split; [|intros e He'; by apply extent_ok_insert, He|done].
  intros key' leaf'. rewrite lookup_insert. case_decide as Hd; [|apply Hl].
  intros [= <-]. by subst.
Qed.

(** The leaf after an allocation from its segment [n]. *)
Lemma leaf_live_alloc key leaf fr class sub_key radix base n r a :
  leaf_live key leaf -> request_ok class sub_key radix -> 0 <= n < 256 ->
  hammer2_bmap_alloc fr (aget bmap_zero (lf_bmdata leaf) n) class sub_key radix base = Some r ->
  usable beg total (key + n * HAMMER2_SEGSIZE) /\
  leaf_live key (mkLeaf (aset (lf_bmdata leaf) n (ba_bmap r)) (lf_bigmask leaf) a).
Proof.
  intros [Hlen Hseg] Hreq Hn E. pose proof (Hseg n Hn) as [Hok Hav Hus Hhint].
  assert (usable beg total (key + n * HAMMER2_SEGSIZE)) as Hu.
  { destruct Hus as [|Hex]; [done|]. rewrite exhausted_none in E; try done. apply Hex, Hreq. }
  split; [done|]. split; [cbn [lf_bmdata]; by rewrite length_aset|]. intros m Hm. cbn [lf_bmdata lf_bigmask].
  rewrite aget_aset by (rewrite ?Hlen; lia). destruct (Z.eqb_spec m n) as [->|]; [|by apply Hseg].
  split; [by eapply alloc_bmap_ok|by eapply alloc_avail|by left|].
  intros rad Hrad Hb. by eapply exhausted_alloc; eauto.
Qed.

Lemma extents_sep key n o s key' n' o' s' :
  key mod 2 ^ 30 = 0 -> key' mod 2 ^ 30 = 0 ->
  0 <= o -> 0 <= o' -> o + s <= HAMMER2_SEGSIZE -> o' + s' <= HAMMER2_SEGSIZE ->
  key + n * HAMMER2_SEGSIZE <> key' + n' * HAMMER2_SEGSIZE ->
  sep (key + n * HAMMER2_SEGSIZE + o, s) (key' + n' * HAMMER2_SEGSIZE + o', s').
Proof.
  unfold sep. h2const. change (2 ^ 30) with 1073741824. cbn [fst snd]. intros. dlia.
Qed.

(** A new extent of the segment's ledger is clear of all extents. *)
Lemma ledger_global leaves G key n bm o s :
  fm_inv leaves G -> key mod 2 ^ 30 = 0 -> 0 <= n < 256 ->
  ledger_inv bm ((o, s) :: localize (key + n * HAMMER2_SEGSIZE) G) ->
  Forall (sep (key + n * HAMMER2_SEGSIZE + o, s)) G.
Proof.
  intros [_ He _] Hk Hn [Hin _ Hsep _]. inversion Hsep as [|? ? Hhd _]; subst.
  destruct (Hin o s) as (Ho & Hs & Hos); [apply elem_of_cons; by left|].
  apply Forall_forall. intros [eo es] Hel.
  destruct (He _ Hel) as (key' & n' & o' & E & Hk' & Hn' & Ho' & Hs' & Hos' & _). simpl in *.
  subst eo. destruct (Z.eq_dec (key + n * HAMMER2_SEGSIZE) (key' + n' * HAMMER2_SEGSIZE)) as [Eq|Ne].
  - rewrite Forall_forall in Hhd. specialize (Hhd (o', es)).
    rewrite elem_of_localize, Eq in Hhd. unfold sep in *. simpl in *. rewrite Eq.
    assert (0 <= o' < HAMMER2_SEGSIZE) as Hr by lia. specialize (Hhd (conj Hel Hr)). lia.
  - by apply extents_sep.
Qed.

Lemma fm_alloc leaves G key leaf fr class sub_key radix n r a :
  total <= 2 ^ 63 -> fm_inv leaves G -> leaves !! key = Some leaf -> leaf_live key leaf ->
  request_ok class sub_key radix -> 0 <= n < 256 ->
  hammer2_bmap_alloc fr (aget bmap_zero (lf_bmdata leaf) n) class sub_key radix
    (u64 (key + n * HAMMER2_SEGSIZE)) = Some r ->
  fm_inv (<[key := mkLeaf (aset (lf_bmdata leaf) n (ba_bmap r)) (lf_bigmask leaf) a]> leaves)
    ((ba_base r, 2 ^ radix) :: G).
Proof.
  intros Ht Hfm Hlf Hlive Hreq Hn E. pose proof Hfm as [Hl He Hs].
  destruct (Hl _ _ Hlf) as [Hk Hrange _ Hled].
  destruct (leaf_live_alloc _ _ _ _ _ _ _ _ _ a Hlive Hreq Hn E) as [Hu Hlive'].
  destruct Hlive as [Hlen Hseg].
  destruct (ledger_alloc _ _ _ _ _ _ _ _ (sl_ok _ _ _ (Hseg n Hn)) Hreq (Hled n Hn) E)
    as (off & Hbase & Hled').
  destruct (led_in _ _ Hled' off (2 ^ radix)) as (Ho & Hsz & Hos); [apply elem_of_cons; by left|].
  assert (ba_base r = key + n * HAMMER2_SEGSIZE + off) as ->.
  { rewrite Hbase. h2const. rewrite !u64_small; unfold is_u64; try lia.
    rewrite u64_small; unfold is_u64; lia. }
  assert (forall key' n', key' mod 2 ^ 30 = 0 -> key + n * HAMMER2_SEGSIZE <> key' + n' * HAMMER2_SEGSIZE ->
    localize (key' + n' * HAMMER2_SEGSIZE) ((key + n * HAMMER2_SEGSIZE + off, 2 ^ radix) :: G) =
    localize (key' + n' * HAMMER2_SEGSIZE) G) as Hmiss.
  { intros key' n' Hk' Hne. apply localize_miss; [lia|done|by apply seg_base_mod..]. }
  split.
  - intros key' leaf'. rewrite lookup_insert. case_decide as Hd.
    + intros [= <-]. subst key'. split; [done|done|by left|]. intros m Hm. cbn [lf_bmdata].
      rewrite aget_aset by (rewrite ?Hlen; lia). destruct (Z.eqb_spec m n) as [->|Hmn].
      * rewrite localize_hit by lia. done.
      * rewrite Hmiss; [by apply Hled|done|]. h2const; lia.
    + intros Hlf'. destruct (Hl _ _ Hlf') as [Hk' Hr' Hlv' Hled'']. split; [done..|].
      intros m Hm. rewrite Hmiss; [by apply Hled''|done|].
      intros Eq. by destruct (seg_base_inj key key' n m).
  - intros e. rewrite elem_of_cons. intros [-> | Hel]; [|by apply extent_ok_insert, He].
    exists key, n, off. rewrite lookup_insert_eq. cbn [fst snd]. eauto 12.
  - constructor; [|done]. by eapply ledger_global.
Qed.
End Device.

(** ** The operations on the device *)

(** The extent is in one device buffer of 64KB. *)
Definition in_buffer (e : Z * Z) : Prop := e.1 mod 1024 = 0 /\ e.1 mod 65536 + e.2 <= 65536.

Lemma picked_buffer bm radix i m off lin : 10 <= radix <= 16 -> picked bm radix i m off lin ->
  off mod 65536 + 2 ^ radix <= 65536.
Proof.
  intros Hr [|k (_ & Hm & _)].
  - generalize dependent (2 ^ radix). intros s Hs. clear -Hs. dlia.
  - unfold nblocks in Hm. rewrite Z.mul_comm.
    assert (radix < 14 \/ radix = 14 \/ radix = 15 \/ radix = 16) as [H|[->|[->| ->]]] by lia.
    + pose proof (Z.pow_le_mono_r 2 radix 14 ltac:(lia) ltac:(lia)) as Hp. change (2 ^ 14) with 16384 in Hp.
      generalize dependent (2 ^ radix). intros s Hs. clear -Hs. dlia.
    + clear -k. cbn. dlia.
    + change (k mod 2 = 0) in Hm. clear -Hm. cbn. dlia.
    + change (k mod 4 = 0) in Hm. clear -Hm. cbn. dlia.
Qed.

Lemma alloc_align fr bm class sub_key radix base r :
  bmap_ok bm -> request_ok class sub_key radix -> base mod 65536 = 0 ->
  hammer2_bmap_alloc fr bm class sub_key radix base = Some r -> in_buffer (ba_base r, 2 ^ radix).
Proof.
  intros Hok Hreq Hb E. pose proof (proj1 Hreq) as Hr.
  destruct (alloc_picked _ _ _ _ _ _ _ Hok Hreq E) as (i & m & off & lin & Hp & -> & _).
  destruct Hok as [_ _ _ Hla]. assert (off mod 1024 = 0) as Ho by (destruct Hp; dlia).
  assert (off mod 65536 + 2 ^ radix <= 65536) as Hs by (by eapply picked_buffer).
  unfold in_buffer, u64. cbn [fst snd].
  assert (base mod 1024 = 0) as Hb' by (clear -Hb; dlia). split.
  - rewrite Z.mod_mod_divide by (by exists 18014398509481984). by rewrite Z.add_mod, Hb', Ho by done.
  - rewrite Z.mod_mod_divide by (by exists 281474976710656).
    by rewrite Z.add_mod, Hb, Z.add_0_l, Z.mod_mod by done.
Qed.

Lemma bit_clear_ne x r r' : 0 <= r -> 0 <= r' -> r <> r' ->
  Z.land (Z.ldiff x (Z.shiftl 1 r)) (Z.shiftl 1 r') = Z.land x (Z.shiftl 1 r').
Proof.
  intros Hr Hr' Hne. apply Z.bits_inj'. intros n Hn.
  rewrite !Z.land_spec, Z.ldiff_spec, !Z.shiftl_1_l, !Z.pow2_bits_eqb by lia.
  destruct (Z.eqb_spec r n), (Z.eqb_spec r' n); subst; simpl; rewrite ?andb_true_r, ?andb_false_r;
    done || lia.
Qed.

(** What the allocator never changes. *)
Definition frame (d d' : fm_dev) : Prop :=
  hd_allocator_beg d' = hd_allocator_beg d /\ hd_total_size d' = hd_total_size d /\
  hd_heur_freemap d' = hd_heur_freemap d.

#[export] Instance frame_preorder : PreOrder frame.
Proof. split; [done|]. intros d1 d2 d3. unfold frame. intuition congruence. Qed.

Definition geometry (d : fm_dev) : Prop :=
  0 <= hd_allocator_beg d <= hd_total_size d /\ 0 < hd_total_size d <= 2 ^ 63.

Definition live_at (d : fm_dev) (key : Z) : Prop :=
  exists leaf, hd_leaves d !! key = Some leaf /\
    leaf_live (hd_allocator_beg d) (hd_total_size d) key leaf.

Section Ops.
Context (io : chain_io) (dead : Prop).
(** No FREEMAP_NODE on the way to a leaf is errored, and a leaf is left
    uninitialized only when a modification can fail. *)
Context (Hnode : forall t k, io_node_error io t k = 0).
Context (Hdead : forall t k, io_modify_error io t k <> 0 -> dead).

Abbreviation dinv d G :=
  (fm_inv (hd_allocator_beg d) (hd_total_size d) dead (hd_leaves d) G).

Lemma created_inv d G key : dinv d G -> hd_leaves d !! key = None -> dead ->
  key mod 2 ^ 30 = 0 -> 0 <= key <= hd_total_size d ->
  leaf_inv (hd_allocator_beg d) (hd_total_size d) dead G key leaf_created.
Proof.
  intros Hd Hnone Hdd Hk Hr. split; [done|done|by right|]. intros n Hn.
  rewrite (localize_absent _ _ _ _ _ _ _ Hd Hnone Hk Hn). cbn [lf_bmdata leaf_created].
  rewrite aget_replicate by lia. split; [set_solver|set_solver|constructor|done].
Qed.

Lemma init_bigmask beg total key :
  lf_bigmask (hammer2_freemap_init beg total key leaf_zeroed) = 4294967295.
Proof.
  unfold hammer2_freemap_init. destruct (init_loop _ key _ _ _) as [bms a]. reflexivity.
Qed.

Lemma init_live beg total key : 0 <= beg <= total -> total <= 2 ^ 63 -> 0 <= key <= total ->
  key mod 2 ^ 30 = 0 -> leaf_live beg total key (hammer2_freemap_init beg total key leaf_zeroed).
Proof.
  intros Hb Ht Hr Hk. split.
  - by destruct (init_segment beg total key 0).
  - intros n Hn. destruct (init_segment beg total key n Hb Ht Hr Hk Hn) as [_ ->].
    rewrite init_bigmask.
    assert (forall r, 10 <= r <= 16 -> Z.land 4294967295 (Z.shiftl 1 r) <> 0) as Hbit.
    { intros r Hrr Hz. assert (Z.testbit (Z.land 4294967295 (Z.shiftl 1 r)) r = true) as Hb'.
      { change 4294967295 with (Z.ones 32).
        rewrite Z.land_spec, Z.testbit_ones_nonneg, Z.shiftl_1_l, Z.pow2_bits_true by lia. zcases. }
      by rewrite Hz, Z.bits_0 in Hb'. }
    case_decide as Hu.
    + destruct bmap_free_ok as (Hok & Hav & _). split; [exact Hok|exact Hav|by left|].
      intros r Hrr Hz. by destruct (Hbit r Hrr).
    + destruct bmap_full_ok as (Hok & Hav & _). split; [exact Hok|exact Hav|right|];
        intros; apply bmap_full_exhausted.
Qed.

Lemma init_inv d G key : geometry d -> dinv d G -> hd_leaves d !! key = None ->
  key mod 2 ^ 30 = 0 -> 0 <= key <= hd_total_size d ->
  leaf_inv (hd_allocator_beg d) (hd_total_size d) dead G key
    (hammer2_freemap_init (hd_allocator_beg d) (hd_total_size d) key leaf_zeroed).
Proof.
  intros [Hb Ht] Hd Hnone Hk Hr. split; [exact Hk|exact Hr|left; apply init_live; lia|]. intros n Hn.
  rewrite (localize_absent _ _ _ _ _ _ _ Hd Hnone Hk Hn).
  destruct (init_segment (hd_allocator_beg d) (hd_total_size d) key n Hb (proj2 Ht) Hr Hk Hn) as [_ ->].
  case_decide; [apply bmap_free_ok|apply bmap_full_ok].
Qed.

Lemma create_leaf_inv d G key d' error :
  geometry d -> dinv d G -> hd_leaves d !! key = None ->
  key mod 2 ^ 30 = 0 -> 0 <= key <= hd_total_size d -> create_leaf io d key = (d', error) ->
  frame d d' /\ dinv d' G /\ (error = 0 -> live_at d' key).
Proof.
  intros Hg Hd Hnone Hk Hr. unfold create_leaf.
  destruct (nz_spec (io_create_error io (hd_tick d) key)) as [He|_].
  { intros [= <- <-]. split; [done|]. split; [done|]. intros. by destruct He. }
  cbn [hd_tick dev_tick dev_leaf].
  destruct (nz_spec (io_modify_error io (S (hd_tick d)) key)) as [Hm|_]; intros [= <- <-].
  - split; [done|]. split; [|intros; by destruct Hm].
    apply (fm_put _ _ _ _ G key leaf_created Hd). apply created_inv; try done. by eapply Hdead.
  - split; [done|]. split.
    + cbn [hd_leaves dev_leaf dev_tick hd_allocator_beg hd_total_size]. rewrite insert_insert_eq.
      apply fm_put; [exact Hd|]. by apply init_inv.
    + intros _. eexists. cbn [hd_leaves dev_leaf dev_tick]. rewrite lookup_insert_eq.
      split; [done|]. destruct Hg. apply init_live; done || lia.
Qed.

Lemma lookup_leaf_eq d key : lookup_leaf io d key = hd_leaves d !! key.
Proof. unfold lookup_leaf. by rewrite Hnode. Qed.

Lemma try_leaf_inv d G key radix d' error :
  geometry d -> dinv d G -> key mod 2 ^ 30 = 0 -> 0 <= key <= hd_total_size d ->
  try_leaf io d key radix = (d', error) ->
  frame d d' /\ dinv d' G /\ (error = 0 -> live_at d' key).
Proof.
  intros Hg Hd Hk Hr. unfold try_leaf. rewrite lookup_leaf_eq.
  destruct (hd_leaves d !! key) as [leaf|] eqn:Hlf.
  - destruct (nz_spec (io_leaf_error io (hd_tick d) key)); [by intros [= <- <-]|].
    destruct (Z.eqb_spec (Z.land (lf_bigmask leaf) (Z.shiftl 1 radix)) 0) as [Hz|Hz];
      [by intros [= <- <-]|]. intros [= <- <-]. split; [done|]. split; [done|]. intros _.
    exists leaf. split; [done|].
    destruct (lv_live _ _ _ _ _ _ (fi_leaf _ _ _ _ _ Hd _ _ Hlf)) as [|[_ ->]]; [done|].
    by rewrite Z.land_0_l in Hz.
  - intros E. by apply (create_leaf_inv (dev_tick d) G) in E.
Qed.

Lemma try_scan_inv d G key class sub_key radix iter d' res :
  geometry d -> dinv d G -> live_at d key -> request_ok class sub_key radix ->
  key <= it_bnext iter < key + 2 ^ 30 ->
  try_scan io d key class sub_key radix iter = (d', res) ->
  frame d d' /\
  match res with
  | inl _ => dinv d' G
  | inr off => dinv d' ((off, 2 ^ radix) :: G) /\ in_buffer (off, 2 ^ radix)
  end.
Proof.
  intros [_ Ht] Hd (leaf & Hlf & Hlive) Hreq Hb. unfold try_scan. h2const.
  rewrite Z.shiftr_div_pow2 by lia. set (start := (it_bnext iter - key) / 2 ^ 22).
  assert (0 <= start < 256) as Hs by (unfold start; change (2 ^ 30) with 1073741824 in Hb;
    change (2 ^ 22) with 4194304; clear -Hb; dlia).
  destruct (nz_spec (io_modify_error io (hd_tick d) key)) as [|_]; [by intros [= <- <-]|].
  cbn [hd_leaves dev_tick hd_allocator_free]. rewrite Hlf. cbn [default].
  pose proof (fi_leaf _ _ _ _ _ Hd _ _ Hlf) as [Hk Hr _ Hled].
  destruct (scan_segments 256 _ _ _ start 0) as [[n r]|] eqn:E.
  - apply scan_segments_some in E as [Hn E]. cbn [sa_class sa_sub_key sa_radix sa_key] in E.
    intros [= <- <-]. split; [done|]. split.
    + eapply (fm_alloc _ _ _ (hd_leaves d) G key leaf); eauto. apply Ht.
    + eapply alloc_align; [apply Hlive, Hn|exact Hreq| |exact E].
      unfold u64. rewrite Z.mod_mod_divide by (by exists 281474976710656).
      h2const. change (2 ^ 30) with 1073741824 in Hk. clear -Hk. dlia.
  - destruct ((start =? 0) && nz (it_relaxed iter)) eqn:Ec; intros [= <- <-]; [|done].
    split; [done|]. apply andb_true_iff in Ec as [_ Hrel].
    apply fm_put; [exact Hd|]. split; [done|done| |exact Hled]. left.
    destruct Hlive as [Hlen Hseg]. split; [done|]. intros n Hn. cbn [lf_bmdata lf_bigmask].
    destruct (Hseg n Hn) as [H1 H2 H3 H4]. split; [done..|]. intros r Hr' Hz.
    destruct (Z.eq_dec r radix) as [->|Hne].
    + eapply scan_exhausted; [exact Hr'|exact Hs| | |exact E|exact Hn].
      * by destruct (nz_spec (it_relaxed iter)).
      * intros m Hm. destruct (Hseg m Hm). done.
    + apply H4; [done|]. rewrite <- Hz. symmetry. destruct Hreq. apply bit_clear_ne; lia.
Qed.

Lemma try_scan_error d key class sub_key radix iter d' res :
  try_scan io d key class sub_key radix iter = (d', res) ->
  match res with inl e => e <> 0 | inr _ => True end.
Proof.
  unfold try_scan. destruct (nz_spec (io_modify_error io (hd_tick d) key)); [by intros [= <- <-]|].
  destruct (scan_segments _ _ _ _ _ _) as [[n' r]|]; [by intros [= <- <-]|].
  destruct (_ && _); by intros [= <- <-].
Qed.

Lemma iterate_bounds total iter error iter' : 0 < total <= 2 ^ 63 -> 0 <= it_bnext iter <= total ->
  hammer2_freemap_iterate total iter = (error, iter') ->
  (error = HAMMER2_ERROR_EAGAIN \/ error = HAMMER2_ERROR_ENOSPC) /\ 0 <= it_bnext iter' <= total.
Proof.
  intros Ht Hb. unfold hammer2_freemap_iterate. h2const.
  rewrite (ldiff_low (it_bnext iter) 30 ltac:(lia) : Z.ldiff _ 1073741823 = _).
  change (2 ^ 30) with 1073741824.
  rewrite u64_small by (unfold is_u64; pose proof (Z.mod_pos_bound (it_bnext iter) 1073741824);
    pose proof (Z.mod_le (it_bnext iter) 1073741824); lia).
  pose proof (Z.mod_pos_bound (it_bnext iter) 1073741824).
  zcases; intros [= <- <-]; cbn [it_bnext]; (split; [by auto|lia]).
Qed.

(** A block reference the allocator is called for. *)
Definition bref_ok (bref : hammer2_blockref) : Prop :=
  is_u8 (br_type bref) /\ (br_type bref = HAMMER2_BREF_TYPE_DATA -> br_key bref mod 65536 = 0).

Lemma bref_request bref radix : bref_ok bref -> 10 <= radix <= 16 ->
  request_ok (class_of (br_type bref)) (i32 (br_key bref)) radix.
Proof.
  intros [Ht Hk] Hr. split; [done|]. intros E.
  assert (br_type bref = HAMMER2_BREF_TYPE_DATA) as HD.
  { rewrite <- E. unfold class_of. h2const. unfold is_u8 in Ht.
    rewrite Z.shiftl_mul_pow2, (lor_low _ 16 8), Z.shiftr_div_pow2 by dlia.
    change (2 ^ 8) with 256. unfold u16. change (2 ^ 16) with 65536. dlia. }
  specialize (Hk HD). unfold i32. change (2 ^ 31) with 2147483648.
  change (2 ^ 32) with 4294967296. dlia.
Qed.

(** The device and block reference after an attempt that returned [error]. *)
Definition alloc_post (G : list (Z * Z)) (radix : Z) (bref : hammer2_blockref)
    (d' : fm_dev) (bref' : hammer2_blockref) (error : Z) : Prop :=
  if error =? 0
  then exists off, bref' = bref_set_data_off bref (Z.lor off radix) /\ in_buffer (off, 2 ^ radix) /\
         dinv d' ((off, 2 ^ radix) :: G)
  else bref' = bref /\ dinv d' G.

Lemma try_alloc_inv d G bref radix iter d' bref' iter' error :
  geometry d -> dinv d G -> bref_ok bref -> 10 <= radix <= 16 ->
  0 <= it_bnext iter <= hd_total_size d ->
  hammer2_freemap_try_alloc io d bref radix iter = (d', bref', iter', error) ->
  frame d d' /\ alloc_post G radix bref d' bref' error /\ 0 <= it_bnext iter' <= hd_total_size d.
Proof.
  intros Hg Hd Hbr Hr Hb. unfold hammer2_freemap_try_alloc. h2const.
  set (key := H2FMBASE (it_bnext iter) 30).
  assert (key mod 2 ^ 30 = 0 /\ key <= it_bnext iter < key + 2 ^ 30 /\ 0 <= key) as (Hk & Hkb & Hk0).
  { unfold key. split; [by apply H2FMBASE_mod30|]. rewrite H2FMBASE_spec by lia.
    change (2 ^ 30) with 1073741824. clear -Hb. dlia. }
  destruct (try_leaf io d key radix) as [d1 e1] eqn:E1.
  apply (try_leaf_inv _ G) in E1; [|done..|lia]. destruct E1 as (Hf1 & Hd1 & Hl1).
  assert (geometry d1) as Hg1 by (unfold geometry in *; by destruct Hf1 as (-> & -> & _)).
  destruct (if nz e1 then _ else _) as [d2 res] eqn:E2.
  assert (frame d1 d2 /\ match res with inl e => e <> 0 /\ dinv d2 G
    | inr off => dinv d2 ((off, 2 ^ radix) :: G) /\ in_buffer (off, 2 ^ radix) end) as [Hf2 Hres].
  { destruct (nz_spec e1) as [Hne|He]; [by injection E2 as <- <-|].
    pose proof (try_scan_error _ _ _ _ _ _ _ _ E2) as Hne.
    apply (try_scan_inv _ G) in E2; [|done|done|apply Hl1; lia|by apply bref_request|done].
    destruct E2 as [? ?]. split; [done|]. by destruct res. }
  assert (hd_total_size d2 = hd_total_size d) as Et by (destruct Hf1 as (_ & <- & _); apply Hf2).
  destruct res as [e|off].
  - destruct Hres as [Hne Hd2]. destruct (Z.eqb_spec e HAMMER2_ERROR_ENOSPC) as [->|].
    + destruct (hammer2_freemap_iterate _ _) as [e' it'] eqn:Ei. intros [= <- <- <- <-].
      rewrite Et in Ei. apply iterate_bounds in Ei as [He' Hb']; [|apply Hg|done].
      split; [by transitivity d1|]. split; [|done]. unfold alloc_post.
      by destruct He' as [-> | ->].
    + intros [= <- <- <- <-]. split; [by transitivity d1|]. split; [|done].
      unfold alloc_post. by destruct (Z.eqb_spec e 0).
  - intros [= <- <- <- <-]. destruct Hres as [Hd2 Hal].
    assert (forall off', frame d (dev_dedup d2 off') /\ dinv (dev_dedup d2 off') ((off, 2 ^ radix) :: G))
      as Hded by (intros off'; split; [by transitivity d1; [|transitivity d2]|done]).
    assert (frame d d2) by (by transitivity d1).
    destruct (_ =? HAMMER2_BREF_TYPE_DATA); (split; [by try apply Hded|split; [exists off; eauto|done]]).
Qed.
End Ops.

(** ** Termination *)

Section Termination.
Context (io : chain_io).
(** The chain layer never asks for a retry. *)
Context (Hcreate : forall t k, io_create_error io t k <> HAMMER2_ERROR_EAGAIN).
Context (Hmodify : forall t k, io_modify_error io t k <> HAMMER2_ERROR_EAGAIN).

Lemma try_leaf_total d key radix d' e : try_leaf io d key radix = (d', e) ->
  hd_total_size d' = hd_total_size d /\ e <> HAMMER2_ERROR_EAGAIN.
Proof.
  unfold try_leaf, create_leaf. destruct (lookup_leaf io d key) as [leaf|].
  - destruct (nz _); [by intros [= <- <-]|]. destruct (_ =? 0); by intros [= <- <-].
  - destruct (nz _); [by intros [= <- <-]|].
    destruct (nz _) eqn:E; intros [= <- <-]; [|done]. split; [done|]. apply Hmodify.
Qed.

Lemma try_scan_total d key class sub_key radix iter d' res :
  try_scan io d key class sub_key radix iter = (d', res) ->
  hd_total_size d' = hd_total_size d /\ res <> inl HAMMER2_ERROR_EAGAIN.
Proof.
  unfold try_scan. destruct (nz _).
  - intros [= <- <-]. split; [done|]. intros [= E]. by apply Hmodify in E.
  - destruct (scan_segments _ _ _ _ _ _) as [[n r]|]; [by intros [= <- <-]|].
    destruct (_ && _); by intros [= <- <-].
Qed.

(** A retry is always the iterator's. *)
Lemma try_alloc_total d bref radix iter d' bref' iter' e :
  hammer2_freemap_try_alloc io d bref radix iter = (d', bref', iter', e) ->
  hd_total_size d' = hd_total_size d /\
  (e = HAMMER2_ERROR_EAGAIN ->
   hammer2_freemap_iterate (hd_total_size d) iter = (HAMMER2_ERROR_EAGAIN, iter')).
Proof.
  unfold hammer2_freemap_try_alloc. set (key := H2FMBASE _ _).
  destruct (try_leaf io d key radix) as [d1 e1] eqn:E1. apply try_leaf_total in E1 as [Et1 He1].
  destruct (if nz e1 then _ else _) as [d2 res] eqn:E2.
  assert (hd_total_size d2 = hd_total_size d /\ res <> inl HAMMER2_ERROR_EAGAIN) as [Et2 He2].
  { destruct (nz e1); [injection E2 as <- <-; split; [done|congruence]|].
    apply try_scan_total in E2 as [-> ?]. done. }
  destruct res as [e2|off].
  - destruct (Z.eqb_spec e2 HAMMER2_ERROR_ENOSPC) as [->|].
    + rewrite Et2. destruct (hammer2_freemap_iterate _ _) as [e' it'] eqn:Ei.
      intros [= <- <- <- <-]. split; [done|]. by intros ->.
    + intros [= <- <- <- <-]. split; [done|]. intros ->. done.
  - intros [= <- <- <- <-]. by destruct (_ =? HAMMER2_BREF_TYPE_DATA).
Qed.

(** Gigabytes left to visit: of this pass, and of the passes to come. *)
Definition iter_measure (total : Z) (iter : hammer2_fiterate) : Z :=
  (3 - it_loops iter) * (total / 2 ^ 30 + 2) + (total / 2 ^ 30 + 1 - it_bnext iter / 2 ^ 30).

Definition iter_ok (total : Z) (iter : hammer2_fiterate) : Prop :=
  0 <= it_bnext iter <= total /\ 0 <= it_loops iter <= 2 /\
  (it_loops iter = 2 -> it_relaxed iter <> 0).

Lemma iter_measure_pos total iter : iter_ok total iter -> 0 < iter_measure total iter.
Proof.
  intros (Hb & Hl & _). unfold iter_measure. change (2 ^ 30) with 1073741824.
  assert (it_bnext iter / 1073741824 <= total / 1073741824) by (apply Z.div_le_mono; lia).
  assert (0 <= total / 1073741824) by dlia. nia.
Qed.

Lemma iterate_measure total iter iter' : 0 < total <= 2 ^ 63 -> iter_ok total iter ->
  hammer2_freemap_iterate total iter = (HAMMER2_ERROR_EAGAIN, iter') ->
  iter_ok total iter' /\ iter_measure total iter' < iter_measure total iter.
Proof.
  intros Ht (Hb & Hl & Hr). unfold hammer2_freemap_iterate, iter_ok, iter_measure. h2const.
  rewrite (ldiff_low (it_bnext iter) 30 ltac:(lia) : Z.ldiff _ 1073741823 = _).
  change (2 ^ 30) with 1073741824.
  set (T := total / 1073741824). set (b := it_bnext iter / 1073741824).
  assert (b <= T) by (apply Z.div_le_mono; lia). assert (0 <= b) by (unfold b; clear -Hb; dlia).
  assert (it_bnext iter - it_bnext iter mod 1073741824 = 1073741824 * b) as ->
    by (unfold b; clear; dlia).
  assert (1073741824 * T <= total) by (unfold T; clear; dlia).
  rewrite u64_small by (unfold is_u64; lia). cbv zeta.
  destruct (Z.leb_spec total (1073741824 * b + 1073741824)) as [Hw|Hw].
  - destruct (Z.leb_spec 2 (it_loops iter + 1)).
    + destruct (Z.eqb_spec (it_relaxed iter) 0); [|done]. intros [= <-]. cbn. rewrite Z.div_0_l by lia.
      split; [|nia]. split_and!; lia.
    + intros [= <-]. cbn. rewrite Z.div_0_l by lia. split; [|nia]. split_and!; lia.
  - intros [= <-]. cbn [it_bnext it_loops it_relaxed].
    replace ((1073741824 * b + 1073741824) / 1073741824) with (b + 1) by (clear; dlia).
    split; [|lia]. split_and!; lia || done.
Qed.

Lemma alloc_loop_total fuel : forall d bref radix iter, 0 < hd_total_size d <= 2 ^ 63 ->
  iter_ok (hd_total_size d) iter -> iter_measure (hd_total_size d) iter <= Z.of_nat fuel ->
  is_Some (alloc_loop io fuel d bref radix iter).
Proof.
  induction fuel as [|f IH]; intros d bref radix iter Ht Hit Hm;
    pose proof (iter_measure_pos _ _ Hit); [lia|]. cbn [alloc_loop].
  destruct (hammer2_freemap_try_alloc io d bref radix iter) as [[[d' bref'] iter'] e] eqn:E.
  apply try_alloc_total in E as [Et He].
  destruct (Z.eqb_spec e HAMMER2_ERROR_EAGAIN) as [->|]; [|done].
  destruct (iterate_measure _ _ _ Ht Hit (He eq_refl)). apply IH; rewrite Et; [done..|lia].
Qed.
End Termination.

(** ** Sequences of allocations *)

Section Sequences.
Context (io : chain_io) (dead : Prop).
Context (Hnode : forall t k, io_node_error io t k = 0).
Context (Hdead : forall t k, io_modify_error io t k <> 0 -> dead).

Abbreviation dinv d G :=
  (fm_inv (hd_allocator_beg d) (hd_total_size d) dead (hd_leaves d) G).

Lemma alloc_loop_inv fuel : forall d G bref radix iter d' bref' iter' error,
  geometry d -> dinv d G -> bref_ok bref -> 10 <= radix <= 16 ->
  0 <= it_bnext iter <= hd_total_size d ->
  alloc_loop io fuel d bref radix iter = Some (d', bref', iter', error) ->
  frame d d' /\ alloc_post dead G radix bref d' bref' error /\
  0 <= it_bnext iter' <= hd_total_size d.
Proof.
  induction fuel as [|f IH]; intros d G bref radix iter d' bref' iter' error Hg Hd Hbr Hr Hb;
    cbn [alloc_loop]; [done|].
  destruct (hammer2_freemap_try_alloc io d bref radix iter) as [[[d1 bref1] iter1] e1] eqn:E.
  apply (try_alloc_inv io dead Hnode Hdead d G) in E; try done. destruct E as (Hf & Hp & Hb1).
  destruct (Z.eqb_spec e1 HAMMER2_ERROR_EAGAIN) as [->|]; [|by intros [= <- <- <- <-]].
  destruct Hp as [-> Hd1]. pose proof Hf as (Eb & Et & _). rewrite <- Et in Hb1.
  intros E. apply (IH _ G) in E; try done.
  - destruct E as (Hf' & Hp & Hb'). rewrite Et in Hb'. by split; [transitivity d1|].
  - unfold geometry. by rewrite Eb, Et.
Qed.

(** The heuristic positions are device offsets. *)
Definition heur_ok (d : fm_dev) : Prop := Forall (fun x => 0 <= x) (hd_heur_freemap d).

Lemma heur_get d i : heur_ok d -> 0 <= aget 0 (hd_heur_freemap d) i.
Proof.
  intros H. unfold aget. destruct (hd_heur_freemap d !! Z.to_nat i) as [x|] eqn:E; simpl; [|done].
  by eapply (Forall_lookup_1 _ _ _ _ H) in E.
Qed.

(** The requests of hammer2_chain_modify() for everything but the freemap
    itself: a block of 1KB to 64KB. *)
Definition alloc_req_ok (q : hammer2_blockref * Z) : Prop :=
  bref_ok q.1 /\ br_type q.1 <> HAMMER2_BREF_TYPE_FREEMAP_NODE /\
  br_type q.1 <> HAMMER2_BREF_TYPE_FREEMAP_LEAF /\ HAMMER2_ALLOC_MIN <= q.2 <= HAMMER2_PBUFSIZE.

Lemma req_radix q : alloc_req_ok q -> hammer2_getradix q.2 = Some (Z.log2_up q.2) /\
  10 <= Z.log2_up q.2 <= 16 /\ q.2 <= 2 ^ Z.log2_up q.2.
Proof.
  intros (_ & _ & _ & Hb). h2const. split; [apply SubrFacts.getradix_log2_up; lia|]. split.
  - change 10 with (Z.log2_up 1024). change 16 with (Z.log2_up 65536).
    split; apply Z.log2_up_le_mono; lia.
  - apply Z.log2_up_spec. lia.
Qed.

(** The three ways hammer2_freemap_alloc() starts its iteration. *)
Definition start_iter (d : fm_dev) (type : Z) : hammer2_fiterate :=
  let bpref := aget 0 (hd_heur_freemap d) (heur_index type) in
  let bpref := if hd_total_size d <? bpref then u64 (hd_total_size d - 1) else bpref in
  mkIter bpref bpref 0 (hd_freemap_relaxed d).

Lemma alloc_unfold d q : alloc_req_ok q ->
  hammer2_freemap_alloc io d q.1 q.2 =
  match alloc_loop io (alloc_fuel d) d q.1 (Z.log2_up q.2) (start_iter d (br_type q.1)) with
  | None => None
  | Some (d, bref, iter, error) =>
      Some (dev_heur d (it_relaxed iter) (heur_index (br_type q.1)) (it_bnext iter), bref, error)
  end.
Proof.
  intros Hq. destruct (req_radix q Hq) as (Er & _). destruct Hq as (_ & H1 & H2 & H3).
  unfold hammer2_freemap_alloc. rewrite Er. h2const.
  destruct (Z.eqb_spec q.2 0) as [|_]; [lia|].
  destruct (Z.eqb_spec (br_type q.1) HAMMER2_BREF_TYPE_FREEMAP_NODE) as [|_]; [done|].
  by destruct (Z.eqb_spec (br_type q.1) HAMMER2_BREF_TYPE_FREEMAP_LEAF) as [|_].
Qed.

Lemma start_iter_ok d type : 0 < hd_total_size d <= 2 ^ 63 -> heur_ok d ->
  iter_ok (hd_total_size d) (start_iter d type).
Proof.
  intros Ht Hh. unfold start_iter, iter_ok. cbn. pose proof (heur_get d (heur_index type) Hh).
  split; [|lia]. zcases. rewrite u64_small by (unfold is_u64; lia). lia.
Qed.

Lemma freemap_alloc_inv d G q d' bref' error :
  geometry d -> heur_ok d -> dinv d G -> alloc_req_ok q ->
  hammer2_freemap_alloc io d q.1 q.2 = Some (d', bref', error) ->
  geometry d' /\ heur_ok d' /\ alloc_post dead G (Z.log2_up q.2) q.1 d' bref' error /\
  hd_allocator_beg d' = hd_allocator_beg d /\ hd_total_size d' = hd_total_size d.
Proof.
  intros Hg Hh Hd Hq. rewrite alloc_unfold by done. destruct (req_radix q Hq) as (_ & Hr & _).
  destruct (start_iter_ok d (br_type q.1) (proj2 Hg) Hh) as (Hb & _).
  destruct (alloc_loop _ _ _ _ _ _) as [[[[d1 bref1] iter1] e1]|] eqn:E; [|done].
  apply (alloc_loop_inv _ _ G) in E; [|done..|apply Hq|done|done].
  destruct E as ((Eb & Et & Eh) & Hp & Hb1).
  intros [= <- <- <-]. unfold geometry, heur_ok, alloc_post in *. cbn. rewrite Eb, Et, Eh.
  split; [done|]. split; [by apply Forall_aset; [|lia]|]. cbn in *. by rewrite Eb, Et in Hp.
Qed.
End Sequences.

(** The extent a block reference names. *)
Definition bref_extent (bref : hammer2_blockref) : Z * Z :=
  (Z.ldiff (br_data_off bref) HAMMER2_OFF_MASK_RADIX,
   2 ^ Z.land (br_data_off bref) HAMMER2_OFF_MASK_RADIX).

Lemma bref_extent_lor bref off radix : off mod 1024 = 0 -> 0 <= radix < 64 ->
  bref_extent (bref_set_data_off bref (Z.lor off radix)) = (off, 2 ^ radix).
Proof.
  intros Ho Hr. unfold bref_extent. destruct bref. cbn. change HAMMER2_OFF_MASK_RADIX with (2 ^ 6 - 1).
  rewrite (lor_low off radix 6), ldiff_low, land_low by (change (2 ^ 6) with 64; dlia).
  change (2 ^ 6) with 64. replace ((off + radix) mod 64) with radix by dlia. f_equal. lia.
Qed.

(** A sequence of allocations; the extents returned, newest first. *)
Fixpoint freemap_run (io : chain_io) (d : fm_dev) (qs : list (hammer2_blockref * Z))
    (G : list (Z * Z)) : option (fm_dev * list (Z * Z)) :=
  match qs with
  | [] => Some (d, G)
  | q :: qs' =>
      match hammer2_freemap_alloc io d q.1 q.2 with
      | None => None
      | Some (d', bref', error) =>
          freemap_run io d' qs' (if error =? 0 then bref_extent bref' :: G else G)
      end
  end.

Lemma freemap_alloc_total io d q :
  (forall t k, io_create_error io t k <> HAMMER2_ERROR_EAGAIN) ->
  (forall t k, io_modify_error io t k <> HAMMER2_ERROR_EAGAIN) ->
  0 < hd_total_size d <= 2 ^ 63 -> heur_ok d -> alloc_req_ok q ->
  is_Some (hammer2_freemap_alloc io d q.1 q.2).
Proof.
  intros Hc Hm Ht Hh Hq. rewrite alloc_unfold by done.
  pose proof (start_iter_ok d (br_type q.1) Ht Hh) as Hit.
  destruct (alloc_loop_total io Hc Hm (alloc_fuel d) d q.1 (Z.log2_up q.2)
    (start_iter d (br_type q.1)) Ht Hit) as [[[[d1 b1] i1] e1] ->]; [|done].
  destruct Hit as (Hb & _). unfold iter_measure, alloc_fuel. h2const. cbn [start_iter it_loops].
  change (2 ^ 30) with 1073741824.
  assert (0 <= hd_total_size d / 1073741824) by (clear -Ht; dlia).
  assert (0 <= it_bnext (start_iter d (br_type q.1)) / 1073741824) by (clear -Hb; dlia). lia.
Qed.

Lemma freemap_run_inv io qs : forall d G,
  (forall t k, io_node_error io t k = 0) ->
  (forall t k, io_create_error io t k <> HAMMER2_ERROR_EAGAIN) ->
  (forall t k, io_modify_error io t k <> HAMMER2_ERROR_EAGAIN) ->
  geometry d -> heur_ok d -> Forall alloc_req_ok qs ->
  fm_inv (hd_allocator_beg d) (hd_total_size d) True (hd_leaves d) G ->
  exists d' G', freemap_run io d qs G = Some (d', G') /\
    fm_inv (hd_allocator_beg d) (hd_total_size d) True (hd_leaves d') G'.
Proof.
  induction qs as [|q qs IH]; intros d G Hn Hc Hm Hg Hh Hqs Hd; cbn [freemap_run]; [by eauto|].
  inversion Hqs as [|? ? Hq Hqs']; subst.
  destruct (freemap_alloc_total io d q Hc Hm (proj2 Hg) Hh Hq) as [[[d1 bref1] e1] E]. rewrite E.
  apply (freemap_alloc_inv io True Hn (fun _ _ _ => I) d G) in E; try done.
  destruct E as (Hg1 & Hh1 & Hp & Eb & Et). rewrite <- Eb, <- Et. apply IH; try done.
  unfold alloc_post in Hp. destruct (Z.eqb_spec e1 0); [|by destruct Hp].
  destruct Hp as (off & -> & Hal & Hd1). destruct (req_radix q Hq) as (_ & Hr & _).
  by rewrite bref_extent_lor by (apply Hal || lia).
Qed.

Lemma fm_inv_empty beg total dead : fm_inv beg total dead ∅ [].
Proof. split; [by intros ? ? ?|set_solver|constructor]. Qed.

(** What the code asserts of every offset it returns. *)
Lemma extent_ok_safe beg total leaves o s : extent_ok beg total leaves (o, s) ->
  beg <= o /\ o + s <= total /\ HAMMER2_ZONE_SEG <= Z.land o HAMMER2_ZONE_MASK64 /\
  HAMMER2_ZONE_SEG <= o mod 2 ^ 30.
Proof.
  intros (key & n & o' & E & Hk & Hn & Ho & Hs & Hos & Hu & _). cbn [fst snd] in *. subst o.
  assert (0 <= o' < HAMMER2_SEGSIZE) as Ho' by lia.
  pose proof (usable_zone _ _ _ o' Hu (seg_base_mod key n Hk) Ho').
  pose proof Hu as (Hu1 & Hu2 & Hu3). split; [lia|]. split; [lia|]. split; [done|].
  h2const. change (2 ^ 30) with 1073741824 in *. clear -Hk Hn Ho' Hu3. dlia.
Qed.

(** ** ENOSPC is exact *)

(** The leaf at [key] exists and none of its segments can serve [radix]. *)
Definition drained (d : fm_dev) (radix key : Z) : Prop :=
  exists leaf, hd_leaves d !! key = Some leaf /\
    forall n, 0 <= n < 256 -> exhausted (aget bmap_zero (lf_bmdata leaf) n) radix.

(** A failed attempt leaves the bitmaps of the existing leaves alone. *)
Definition bitmaps_kept (d d' : fm_dev) : Prop :=
  forall key leaf, hd_leaves d !! key = Some leaf ->
    exists leaf', hd_leaves d' !! key = Some leaf' /\ lf_bmdata leaf' = lf_bmdata leaf.

#[export] Instance bitmaps_kept_preorder : PreOrder bitmaps_kept.
Proof.
  split; [by intros d key leaf ?; exists leaf|]. intros d1 d2 d3 H1 H2 key leaf Hl.
  destruct (H1 _ _ Hl) as (l2 & Hl2 & E2). destruct (H2 _ _ Hl2) as (l3 & Hl3 & E3).
  exists l3. split; [done|congruence].
Qed.

Lemma drained_kept d d' radix key : bitmaps_kept d d' -> drained d radix key -> drained d' radix key.
Proof. intros Hk (leaf & Hl & Hx). destruct (Hk _ _ Hl) as (l' & Hl' & E). exists l'. by rewrite E. Qed.

Lemma kept_insert d d' key leaf leaf' : hd_leaves d !! key = Some leaf ->
  hd_leaves d' = <[key := leaf']> (hd_leaves d) -> lf_bmdata leaf' = lf_bmdata leaf ->
  bitmaps_kept d d'.
Proof.
  intros Hl E Eb k l Hk. rewrite E, lookup_insert. case_decide as Hd; [|by eauto].
  subst k. exists leaf'. split; [done|]. congruence.
Qed.

Lemma kept_new d d' key leaf' : hd_leaves d !! key = None ->
  hd_leaves d' = <[key := leaf']> (hd_leaves d) -> bitmaps_kept d d'.
Proof.
  intros Hl E k l Hk. rewrite E, lookup_insert_ne by congruence. by exists l.
Qed.

Section Enospc.
Context (io : chain_io).
(** The chain layer has no errors. *)
Context (Hio : forall t k, io_node_error io t k = 0 /\ io_leaf_error io t k = 0 /\
  io_create_error io t k = 0 /\ io_modify_error io t k = 0).

Abbreviation dinv d G :=
  (fm_inv (hd_allocator_beg d) (hd_total_size d) False (hd_leaves d) G).

Lemma try_leaf_drained d G key radix d' e : dinv d G -> 10 <= radix <= 16 ->
  try_leaf io d key radix = (d', e) ->
  bitmaps_kept d d' /\ (e = 0 \/ e = HAMMER2_ERROR_ENOSPC /\ drained d' radix key).
Proof.
  intros Hd Hr. unfold try_leaf, create_leaf, lookup_leaf. cbn [nz hd_tick dev_tick dev_leaf].
  rewrite !(proj1 (Hio _ _)), !(proj1 (proj2 (Hio _ _))), !(proj1 (proj2 (proj2 (Hio _ _)))),
    !(proj2 (proj2 (proj2 (Hio _ _)))). cbn [nz Z.eqb negb].
  destruct (hd_leaves d !! key) as [leaf|] eqn:Hl.
  - destruct (Z.eqb_spec (Z.land (lf_bigmask leaf) (Z.shiftl 1 radix)) 0) as [Hz|];
      intros [= <- <-]; (split; [intros k l Hk; by exists l|]); [right|by left].
    split; [done|]. exists leaf. split; [done|]. intros n Hn.
    destruct (lv_live _ _ _ _ _ _ (fi_leaf _ _ _ _ _ Hd _ _ Hl)) as [[_ Hs]|[[] _]].
    by apply (sl_hint _ _ _ _ _ (Hs n Hn)).
  - intros [= <- <-]. split; [|by left]. eapply kept_new; [exact Hl|]. apply insert_insert_eq.
Qed.

Lemma try_scan_drained d key class sub_key radix iter d' e :
  live_at d key -> request_ok class sub_key radix -> key <= it_bnext iter < key + 2 ^ 30 ->
  try_scan io d key class sub_key radix iter = (d', inl e) ->
  bitmaps_kept d d' /\ e = HAMMER2_ERROR_ENOSPC /\
  (it_relaxed iter <> 0 -> drained d' radix key).
Proof.
  intros (leaf & Hl & Hlen & Hs) Hreq Hb. unfold try_scan. h2const.
  rewrite !(proj2 (proj2 (proj2 (Hio _ _)))), Z.shiftr_div_pow2 by lia. cbn [nz Z.eqb negb].
  set (start := (it_bnext iter - key) / 2 ^ 22).
  assert (0 <= start < 256) as Hst by (unfold start; change (2 ^ 30) with 1073741824 in Hb;
    change (2 ^ 22) with 4194304; clear -Hb; dlia).
  cbn [hd_leaves dev_tick hd_allocator_free]. rewrite Hl. cbn [default].
  destruct (scan_segments 256 _ _ _ start 0) as [[n r]|] eqn:E; [done|].
  assert (it_relaxed iter <> 0 -> forall n, 0 <= n < 256 ->
    exhausted (aget bmap_zero (lf_bmdata leaf) n) radix) as Hx.
  { intros Hrel. eapply scan_exhausted; [apply Hreq|exact Hst|exact Hrel| |exact E].
    intros n Hn. destruct (Hs n Hn). done. }
  destruct (_ && _); intros [= <- <-].
  - split; [by eapply kept_insert|]. split; [done|]. intros Hrel. eexists.
    cbn [dev_leaf hd_leaves]. rewrite lookup_insert_eq. split; [done|]. by apply Hx.
  - split; [by intros k l Hk; exists l|]. split; [done|]. intros Hrel. exists leaf. by auto.
Qed.

Lemma try_alloc_drained d G bref radix iter d' bref' iter' e :
  geometry d -> dinv d G -> bref_ok bref -> 10 <= radix <= 16 ->
  0 <= it_bnext iter <= hd_total_size d -> e <> 0 ->
  hammer2_freemap_try_alloc io d bref radix iter = (d', bref', iter', e) ->
  bitmaps_kept d d' /\ hammer2_freemap_iterate (hd_total_size d) iter = (e, iter') /\
  (it_relaxed iter <> 0 -> drained d' radix (H2FMBASE (it_bnext iter) 30)).
Proof.
  intros Hg Hd Hbr Hr Hb Hne. unfold hammer2_freemap_try_alloc. h2const.
  set (key := H2FMBASE (it_bnext iter) 30).
  assert (key mod 2 ^ 30 = 0 /\ key <= it_bnext iter < key + 2 ^ 30 /\ 0 <= key) as (Hk & Hkb & Hk0).
  { unfold key. split; [by apply H2FMBASE_mod30|]. rewrite H2FMBASE_spec by lia.
    change (2 ^ 30) with 1073741824. clear -Hb. dlia. }
  assert (forall t k, io_modify_error io t k <> 0 -> False) as Hdead
    by (intros t k; by destruct (Hio t k) as (_ & _ & _ & ->)).
  destruct (try_leaf io d key radix) as [d1 e1] eqn:E1.
  pose proof (try_leaf_inv io False (fun t k => proj1 (Hio t k)) Hdead _ G _ _ _ _ Hg Hd Hk
    ltac:(lia) E1) as ((_ & Et1 & _) & _ & Hl1).
  apply (try_leaf_drained _ G) in E1; [|done..]. destruct E1 as (Hk1 & He1).
  destruct (if nz e1 then _ else _) as [d2 res] eqn:E2.
  assert (match res with
    | inl e2 => e2 = HAMMER2_ERROR_ENOSPC /\ hd_total_size d2 = hd_total_size d /\
        bitmaps_kept d1 d2 /\ (it_relaxed iter <> 0 -> drained d2 radix key)
    | inr _ => True end) as Hres.
  { destruct He1 as [-> | [-> Hdr]]; cbn in E2; [|by injection E2 as <- <-].
    destruct res as [e2|]; [|done].
    assert (hd_total_size d2 = hd_total_size d1) as Et2
      by (eapply (try_scan_total io); [|exact E2];
          intros t k; by destruct (Hio t k) as (_ & _ & _ & ->)).
    apply try_scan_drained in E2; [|by apply Hl1|by apply bref_request|done].
    destruct E2 as (? & ? & ?). by rewrite Et2, Et1. }
  destruct res as [e2|off].
  - destruct Hres as (-> & Et2 & Hk2 & Hdr). cbn [Z.eqb]. rewrite Z.eqb_refl, Et2.
    destruct (hammer2_freemap_iterate _ _) as [e' it']. intros [= <- <- <- <-].
    split; [by transitivity d1|]. done.
  - intros [= <- <- <- <-]. done.
Qed.

(** The last pass: it starts at the beginning of the media, in relaxed
    mode, and has drained every gigabyte behind it. *)
Definition last_pass (d : fm_dev) (radix : Z) (iter : hammer2_fiterate) : Prop :=
  it_relaxed iter <> 0 -> 1 <= it_loops iter ->
  it_bnext iter mod 2 ^ 30 = 0 /\
  forall key, key mod 2 ^ 30 = 0 -> 0 <= key < it_bnext iter -> drained d radix key.

Lemma iterate_last_pass d d' radix iter iter' e :
  0 < hd_total_size d <= 2 ^ 63 -> 0 <= it_bnext iter <= hd_total_size d ->
  0 <= it_loops iter -> last_pass d radix iter -> bitmaps_kept d d' ->
  (it_relaxed iter <> 0 -> drained d' radix (H2FMBASE (it_bnext iter) 30)) ->
  hammer2_freemap_iterate (hd_total_size d) iter = (e, iter') ->
  0 <= it_loops iter' /\ last_pass d' radix iter' /\
  (e = HAMMER2_ERROR_ENOSPC ->
   forall key, key mod 2 ^ 30 = 0 -> 0 <= key < hd_total_size d -> drained d' radix key).
Proof.
  intros Ht Hb Hl Hlp Hk Hdr. unfold hammer2_freemap_iterate, last_pass in *. h2const.
  rewrite (ldiff_low (it_bnext iter) 30 ltac:(lia) : Z.ldiff _ 1073741823 = _).
  rewrite H2FMBASE_spec in Hdr by lia. change (2 ^ 30) with 1073741824 in *.
  set (b := it_bnext iter - it_bnext iter mod 1073741824) in *.
  assert (b mod 1073741824 = 0 /\ 0 <= b <= it_bnext iter) as [Hbm Hbb] by (unfold b; clear -Hb; dlia).
  rewrite u64_small by (unfold is_u64; lia).
  assert (forall key, it_relaxed iter <> 0 -> 1 <= it_loops iter -> key mod 1073741824 = 0 ->
    0 <= key < b + 1073741824 -> drained d' radix key) as Hnext.
  { intros key Hrel Hlo Hkm Hkr. destruct (Hlp Hrel Hlo) as [Hbn Hall].
    destruct (Z.lt_ge_cases key b); [eapply drained_kept; [done|]; apply Hall; lia|].
    replace key with b by (clear -Hbm Hkm Hkr H; dlia). by apply Hdr. }
  destruct (Z.leb_spec (hd_total_size d) (b + 1073741824)) as [Hw|Hw].
  - destruct (Z.leb_spec 2 (it_loops iter + 1)).
    + destruct (Z.eqb_spec (it_relaxed iter) 0); intros [= <- <-]; cbn;
        (split; [lia|split; [intros; split; [done|lia]|]]); [done|].
      intros _ key Hkm Hkr. apply Hnext; done || lia.
    + intros [= <- <-]. cbn. split; [lia|]. split; [intros; split; [done|lia]|done].
  - intros [= <- <-]. cbn [it_bnext it_loops it_relaxed]. split; [done|]. split; [|done].
    intros Hrel Hlo. split; [clear -Hbm; dlia|]. intros key Hkm Hkr. by apply Hnext.
Qed.

Lemma alloc_loop_drained fuel : forall d G bref radix iter d' bref' iter',
  geometry d -> dinv d G -> bref_ok bref -> 10 <= radix <= 16 ->
  0 <= it_bnext iter <= hd_total_size d -> 0 <= it_loops iter -> last_pass d radix iter ->
  alloc_loop io fuel d bref radix iter = Some (d', bref', iter', HAMMER2_ERROR_ENOSPC) ->
  forall key, key mod 2 ^ 30 = 0 -> 0 <= key < hd_total_size d -> drained d' radix key.
Proof.
  induction fuel as [|f IH]; intros d G bref radix iter d' bref' iter' Hg Hd Hbr Hr Hb Hl Hlp;
    cbn [alloc_loop]; [done|].
  assert (forall t k, io_modify_error io t k <> 0 -> False) as Hdead
    by (intros t k; by destruct (Hio t k) as (_ & _ & _ & ->)).
  destruct (hammer2_freemap_try_alloc io d bref radix iter) as [[[d1 bref1] iter1] e1] eqn:E.
  pose proof (try_alloc_inv io False (fun t k => proj1 (Hio t k)) Hdead d G _ _ _ _ _ _ _ Hg Hd
    Hbr Hr Hb E) as ((Eb & Et & _) & Hp & Hb1).
  assert (e1 <> 0 -> 0 <= it_loops iter1 /\ last_pass d1 radix iter1 /\
    (e1 = HAMMER2_ERROR_ENOSPC ->
     forall key, key mod 2 ^ 30 = 0 -> 0 <= key < hd_total_size d -> drained d1 radix key)) as Hstep.
  { intros Hne. apply (try_alloc_drained _ G) in E; try done. destruct E as (Hk & Hit & Hdr).
    apply (iterate_last_pass d d1 radix iter iter1 e1); try done. apply Hg. }
  destruct (Z.eqb_spec e1 HAMMER2_ERROR_EAGAIN) as [->|].
  - destruct Hstep as (Hl1 & Hlp1 & _); [done|]. destruct Hp as [-> Hd1]. intros E' key Hkm Hkr.
    rewrite <- Et in Hb1, Hkr. eapply (IH d1 G); try done. unfold geometry. by rewrite Eb, Et.
  - intros [= <- <- <- ->]. by apply Hstep.
Qed.
End Enospc.

(** ** The theorems *)

(** A 1GB device with an empty freemap, and a chain layer without errors. *)
Definition dev_1g : fm_dev :=
  mkDev 8388608 1073741824 1061158912 0 (replicate 32 0) ∅ [] [] 0.
Definition io_quiet : chain_io :=
  mkIo (fun _ _ => 0) (fun _ _ => 0) (fun _ _ => 0) (fun _ _ => 0).



(** C30: hammer2_freemap_alloc() ends: the iterator makes at most three
    passes over the gigabytes of the media after the one it starts in,
    whatever the state of the leaves and the errors of the chain layer, as
    long as that layer does not itself ask for a retry. *)
Theorem freemap_alloc_terminates io d q :
  (forall t k, io_create_error io t k <> HAMMER2_ERROR_EAGAIN) ->
  (forall t k, io_modify_error io t k <> HAMMER2_ERROR_EAGAIN) ->
  0 < hd_total_size d <= 2 ^ 63 -> heur_ok d -> alloc_req_ok q ->
  exists r, hammer2_freemap_alloc io d q.1 q.2 = Some r.
Proof. intros. by apply freemap_alloc_total. Qed.

Lemma freemap_alloc_terminates_witness :
  exists r, hammer2_freemap_alloc io_quiet dev_1g bref_zero 16384 = Some r.
Proof.
  apply (freemap_alloc_terminates io_quiet dev_1g (bref_zero, 16384)).
  - discriminate.
  - discriminate.
  - vm_compute; split; congruence.
  - apply Forall_replicate. reflexivity.
  - repeat constructor; vm_compute; congruence.
Defined.

(** C23: with no errors below it, hammer2_freemap_alloc() returns ENOSPC only
    when the device is full for that size: the leaf of every gigabyte exists
    and none of its segments has an aligned free run for the request or room
    for it in the block of its linear iterator.  In particular the [bigmask]
    and [avail] hints, the class preference and the starting point never hide
    space. *)
Theorem freemap_alloc_enospc_exact io d G q d' bref' :
  (forall t k, io_node_error io t k = 0 /\ io_leaf_error io t k = 0 /\
    io_create_error io t k = 0 /\ io_modify_error io t k = 0) ->
  geometry d -> heur_ok d -> alloc_req_ok q ->
  fm_inv (hd_allocator_beg d) (hd_total_size d) False (hd_leaves d) G ->
  hammer2_freemap_alloc io d q.1 q.2 = Some (d', bref', HAMMER2_ERROR_ENOSPC) ->
  forall key, key mod 2 ^ 30 = 0 -> 0 <= key < hd_total_size d ->
    drained d' (Z.log2_up q.2) key.
Proof.
  intros Hio Hg Hh Hq Hd E key Hk Hr. rewrite alloc_unfold in E by done.
  destruct (alloc_loop _ _ _ _ _ _) as [[[[d1 bref1] iter1] e1]|] eqn:El; [|done].
  injection E as <- <- ->. destruct (req_radix q Hq) as (_ & Hrad & _).
  destruct (start_iter_ok d (br_type q.1) (proj2 Hg) Hh) as (Hb & _).
  destruct (alloc_loop_drained io Hio _ _ _ _ _ _ _ _ _ Hg Hd (proj1 Hq) Hrad Hb
    ltac:(done) ltac:(intros _ Hlo; cbn in Hlo; lia) El key Hk Hr) as (leaf & Hl & Hx).
  by exists leaf.
Qed.

(** A device whose 8MB are all static area. *)
Definition dev_full : fm_dev := mkDev 8388608 8388608 0 0 (replicate 32 0) ∅ [] [] 0.

Lemma dev_full_error :
  match hammer2_freemap_alloc io_quiet dev_full bref_zero 1024 with
  | Some (_, _, e) => e = HAMMER2_ERROR_ENOSPC
  | None => False
  end.
Proof. vm_compute. reflexivity. Qed.

Lemma freemap_alloc_enospc_exact_witness :
  exists d' bref', hammer2_freemap_alloc io_quiet dev_full bref_zero 1024 =
    Some (d', bref', HAMMER2_ERROR_ENOSPC) /\ drained d' 10 0.
Proof.
  pose proof dev_full_error as He.
  destruct (hammer2_freemap_alloc io_quiet dev_full bref_zero 1024) as [[[d' bref'] e]|] eqn:E;
    [|destruct He].
  exists d', bref'. rewrite He. split; [reflexivity|]. rewrite He in E.
  apply (freemap_alloc_enospc_exact io_quiet dev_full [] (bref_zero, 1024) d' bref').
  - intros t k. repeat split.
  - split; vm_compute; split; congruence.
  - apply Forall_replicate. reflexivity.
  - repeat constructor; vm_compute; congruence.
  - apply fm_inv_empty.
  - exact E.
  - reflexivity.
  - vm_compute; split; congruence.
Defined.

(** a leaf made by hammer2_freemap_init() for the gigabyte at [key] has
    its 4MB segments free exactly where the allocator may use them: past
    [allocator_beg], inside the volume and outside the 4MB reserved at the
    start of the gigabyte.  Every other segment is fully allocated with its
    linear iterator at the end, so that nothing can come out of it. *)
Theorem freemap_init_exact beg total key n :
  0 <= beg <= total -> total <= 2 ^ 63 -> 0 <= key <= total -> key mod 2 ^ 30 = 0 ->
  0 <= n < 256 ->
  aget bmap_zero (lf_bmdata (hammer2_freemap_init beg total key leaf_zeroed)) n =
  (if decide (usable beg total (key + n * HAMMER2_SEGSIZE)) then bmap_free else bmap_full) /\
  (~ usable beg total (key + n * HAMMER2_SEGSIZE) ->
   forall fr class sub_key radix base, request_ok class sub_key radix ->
     hammer2_bmap_alloc fr
       (aget bmap_zero (lf_bmdata (hammer2_freemap_init beg total key leaf_zeroed)) n)
       class sub_key radix base = None).
Proof.
  intros Hb Ht Hk Hm Hn. destruct (init_segment beg total key n Hb Ht Hk Hm Hn) as [_ E].
  split; [exact E|]. intros Hu fr class sub_key radix base Hreq. rewrite E.
  case_decide as Hd; [by destruct (Hu Hd)|].
  apply exhausted_none; [apply bmap_full_ok|exact Hreq|apply bmap_full_exhausted].
Qed.

Lemma freemap_init_exact_witness :
  usable 8388608 1073741824 (0 + 3 * HAMMER2_SEGSIZE) /\
  aget bmap_zero (lf_bmdata (hammer2_freemap_init 8388608 1073741824 0 leaf_zeroed)) 3 =
  (if decide (usable 8388608 1073741824 (0 + 3 * HAMMER2_SEGSIZE)) then bmap_free else bmap_full).
Proof.
  split; [repeat split; vm_compute; congruence|].
  refine (proj1 (freemap_init_exact 8388608 1073741824 0 3 _ _ _ _ _));
    repeat split; vm_compute; congruence.
Defined.

(** successive reservations of one freemap chain rotate through the
    eight copies reserved for its level: the offset after [n + 1] calls is
    slot [(i + n) mod 8], [i] being the slot after the current one, inside
    the reserved area of the zone; so that a block is not reused before seven
    others were written, and two chains of different levels never share
    one. *)
Theorem freemap_reserve_rotates n bref radix level :
  is_u64 (br_key bref) -> zonefm_level (br_keybits bref) = Some level -> 0 <= radix < 64 ->
  0 <= reserve_index (br_data_off bref) < 8 ->
  exists b', reserve_n (S n) bref radix = Some b' /\
    bref_extent b' = (reserve_slot (br_key bref) (br_keybits bref) level
      ((reserve_index (br_data_off bref) + Z.of_nat n) mod 8), 2 ^ radix) /\
    (forall level' index', 0 <= level' <= 4 -> 0 <= index' < 8 ->
      reserve_slot (br_key bref) (br_keybits bref) level' index' = (bref_extent b').1 ->
      level' = level /\ index' = (reserve_index (br_data_off bref) + Z.of_nat n) mod 8) /\
    0 < (bref_extent b').1 - H2FMBASE (br_key bref) (br_keybits bref) < HAMMER2_ZONE_SEG - 65536.
Proof.
  intros Hk Hl Hr Hi. eexists. split; [by apply reserve_n_slot|].
  pose proof (Z.mod_pos_bound (reserve_index (br_data_off bref) + Z.of_nat n) 8 ltac:(lia)) as Hm.
  set (j := (_ + _) mod 8) in *. destruct (zonefm_level_cases _ _ Hl) as (Hkb & Hlv & _).
  pose proof (H2FMBASE_mod30 (br_key bref) (br_keybits bref) ltac:(lia)) as Hb30.
  rewrite bref_extent_lor; [|unfold reserve_slot; change (2 ^ 30) with 1073741824 in Hb30; dlia|done].
  split; [done|]. unfold reserve_slot. cbn [fst]. h2const. split; [|lia]. intros. lia.
Qed.

Lemma freemap_reserve_rotates_witness :
  exists b', reserve_n 9 (mkBref 6 0 0 30 0 0 0 0 0 0 0 0 0 0 0) 15 = Some b' /\
    (bref_extent b').1 = 65536.
Proof.
  destruct (freemap_reserve_rotates 8 (mkBref 6 0 0 30 0 0 0 0 0 0 0 0 0 0 0) 15 0) as (b' & E & X & _);
    [vm_compute; split; congruence|reflexivity|lia|vm_compute; split; congruence|].
  exists b'. split; [exact E|]. rewrite X. reflexivity.
Defined.

(** A chain layer in which one lookup, the fifth call, meets an errored
    FREEMAP_NODE. *)
Definition io_node_eio : chain_io :=
  mkIo (fun t _ => if Nat.eqb t 4 then HAMMER2_ERROR_EIO else 0)
    (fun _ _ => 0) (fun _ _ => 0) (fun _ _ => 0).

