(* ===== verification/Recovery.v ===== *)
(** hammer2_freemap_adjust(): what recovery marks in the freemap, where that
    is the block referenced, and where it is not. *)
From S2P Require Import Prelude Disk Subr Bmap Freemap FreemapProof.
From Stdlib Require Import ZArith Lia Bool.
From stdpp Require Import base list gmap.
Import Leaf Alloc.
Open Scope Z_scope.

Lemma ones_at_2 s : 0 <= s -> Z.shiftl 3 (2 * s) = ones_at (2 * s) (2 * 1).
Proof. done. Qed.

Lemma land_full q s : 0 <= s ->
  (Z.land q (ones_at (2 * s) (2 * 1)) = ones_at (2 * s) (2 * 1) <-> pair2 q s = 3).
Proof.
  intros Hs. split.
  - intros E. assert (forall n, 2 * s <= n < 2 * s + 2 -> Z.testbit q n = true) as Hb.
    { intros n Hn. assert (Z.testbit (Z.land q (ones_at (2 * s) (2 * 1))) n = true) as Ht
        by (rewrite E, testbit_ones_at by lia; zcases).
      rewrite Z.land_spec in Ht. by apply andb_true_iff in Ht as [-> _]. }
    rewrite pair2_bits, !Hb by lia. done.
  - intros E. rewrite pair2_bits in E by lia.
    assert (Z.testbit q (2 * s) = true /\ Z.testbit q (2 * s + 1) = true) as [E0 E1]
      by (destruct (Z.testbit q (2 * s)), (Z.testbit q (2 * s + 1)); simpl in E; split; done || lia).
    apply Z.bits_inj'. intros n Hn. rewrite Z.land_spec, testbit_ones_at by lia.
    destruct (Z.eq_dec n (2 * s)) as [->|]; [by rewrite E0|].
    destruct (Z.eq_dec n (2 * s + 1)) as [->|]; [by rewrite E1|].
    replace ((2 * s <=? n) && (n <? 2 * s + 2 * 1)) with false by (symmetry; zcases).
    apply andb_false_r.
Qed.

(** One entry of the loop: block [32 * e + s] of the segment becomes allocated. *)
Lemma adjust_entry bm e s l c v b : length (bm_bitmapq bm) = 8%nat -> 0 <= e < 8 -> 0 <= s < 32 ->
  0 <= b < 256 ->
  blk (mkBmap l c v (aset (bm_bitmapq bm) e
         (Z.lor (aget 0 (bm_bitmapq bm) e) (ones_at (2 * s) (2 * 1))))) b =
  if b =? 32 * e + s then 3 else blk bm b.
Proof.
  intros Hlen He Hs Hb. destruct (block_split e s Hs) as [E1 E2].
  pose proof (blk_set_run bm l c v (32 * e + s) 1 b Hlen ltac:(lia) ltac:(lia) ltac:(lia) Hb) as H.
  rewrite E1, E2 in H. rewrite H.
  replace ((32 * e + s <=? b) && (b <? 32 * e + s + 1)) with (b =? 32 * e + s) by zcases. done.
Qed.

Lemma blk_free_iff bm e s : 0 <= e -> 0 <= s < 32 ->
  (Z.land (aget 0 (bm_bitmapq bm) e) (ones_at (2 * s) (2 * 1)) = 0 <-> blk bm (32 * e + s) = 0) /\
  (Z.land (aget 0 (bm_bitmapq bm) e) (ones_at (2 * s) (2 * 1)) = ones_at (2 * s) (2 * 1) <->
   blk bm (32 * e + s) = 3).
Proof.
  intros He Hs. unfold blk. destruct (block_split e s Hs) as [-> ->]. split.
  - rewrite land_run_zero by lia. split; [intros H; apply H; lia|].
    intros H b Hb. by replace b with s by lia.
  - apply land_full. lia.
Qed.

Lemma free_blocks_one bm bm' k : 0 <= k < 256 ->
  (forall b, 0 <= b < 256 -> blk bm' b = if b =? k then 3 else blk bm b) ->
  free_blocks bm = free_blocks bm' + (if blk bm k =? 0 then 1 else 0).
Proof.
  intros Hk H. destruct (free_blocks_run bm bm' k 1) as [H1 H2]; try lia.
  { intros b Hb. rewrite H by done. replace ((k <=? b) && (b <? k + 1)) with (b =? k) by zcases. done. }
  destruct (Z.eqb_spec (blk bm k) 0); [apply H1|by rewrite Z.add_0_r; apply H2].
  intros b Hb. by replace b with k by lia.
Qed.

(** One entry of the loop that is not fully allocated yet. *)
Lemma adjust_step bm l c e s : length (bm_bitmapq bm) = 8%nat -> avail_ok bm ->
  0 <= e < 8 -> 0 <= s < 32 ->
  let free := Z.land (aget 0 (bm_bitmapq bm) e) (ones_at (2 * s) (2 * 1)) =? 0 in
  let bm1 := mkBmap l c (if free then u32 (bm_avail bm - 16384) else bm_avail bm)
    (aset (bm_bitmapq bm) e (Z.lor (aget 0 (bm_bitmapq bm) e) (ones_at (2 * s) (2 * 1)))) in
  length (bm_bitmapq bm1) = 8%nat /\ avail_ok bm1 /\
  bm_avail bm - bm_avail bm1 = (if free then 16384 else 0) /\
  forall b, 0 <= b < 256 -> blk bm1 b = if b =? 32 * e + s then 3 else blk bm b.
Proof.
  intros Hlen Hav He Hs free bm1.
  assert (forall b, 0 <= b < 256 -> blk bm1 b = if b =? 32 * e + s then 3 else blk bm b) as Hb
    by (intros; by apply adjust_entry).
  pose proof (free_blocks_one bm bm1 (32 * e + s) ltac:(lia) Hb) as Hfb.
  destruct (blk_free_iff bm e s ltac:(lia) Hs) as [Hz _].
  assert (free = (blk bm (32 * e + s) =? 0)) as Ef.
  { unfold free. destruct (Z.eqb_spec (blk bm (32 * e + s)) 0) as [E|E].
    - by apply Z.eqb_eq, Hz.
    - apply Z.eqb_neq. by rewrite Hz. }
  pose proof (free_blocks_range bm). pose proof (free_blocks_range bm1).
  rewrite <- Ef in Hfb. unfold avail_ok in *.
  assert (bm_avail bm1 = 16384 * free_blocks bm1) as Ha.
  { unfold bm1 at 1. cbn [bm_avail]. rewrite Hav. destruct free; [|lia].
    rewrite u32_small by (unfold is_u32; lia). lia. }
  split; [unfold bm1; cbn [bm_bitmapq]; by rewrite length_aset|].
  split; [done|]. split; [|done]. rewrite Ha, Hav. destruct free; lia.
Qed.

Lemma adjust_loop_spec count : forall class e bm s mask bg modified,
  length (bm_bitmapq bm) = 8%nat -> avail_ok bm -> 0 <= e < 8 -> 0 <= s -> s + Z.of_nat count <= 32 ->
  (s < 32 -> mask = ones_at (2 * s) (2 * 1)) ->
  exists bm' bg' modified', adjust_loop count 0 class e bm mask bg modified = Some (bm', bg', modified') /\
    avail_ok bm' /\ bm_avail bm - bm_avail bm' = bg' - bg /\
    (forall b, 0 <= b < 256 ->
      blk bm' b = if (32 * e + s <=? b) && (b <? 32 * e + s + Z.of_nat count) then 3 else blk bm b).
Proof.
  induction count as [|c IH]; intros class e bm s mask bg modified Hlen Hav He Hs Hc Hm.
  - exists bm, bg, modified. cbn [adjust_loop]. repeat (split; [done || lia|]).
    intros b Hb. replace (_ && _) with false by (symmetry; zcases). done.
  - rewrite Hm by lia. cbn [adjust_loop]. h2const.
    destruct (blk_free_iff bm e s ltac:(lia) ltac:(lia)) as [_ Hf].
    assert (s + 1 < 32 -> u64 (Z.shiftl (ones_at (2 * s) (2 * 1)) 2) = ones_at (2 * (s + 1)) (2 * 1))
      as Hm' by (intros; rewrite ones_at_shift by lia; f_equal; lia).
    assert (forall b, b <> 32 * e + s ->
      (32 * e + (s + 1) <=? b) && (b <? 32 * e + (s + 1) + Z.of_nat c) =
      (32 * e + s <=? b) && (b <? 32 * e + s + Z.of_nat (S c))) as Hrun by (intros; zcases).
    destruct (Z.eqb_spec (Z.land (aget 0 (bm_bitmapq bm) e) (ones_at (2 * s) (2 * 1)))
      (ones_at (2 * s) (2 * 1))) as [E3|_].
    + destruct (IH class e bm (s + 1) _ bg modified Hlen Hav He ltac:(lia) ltac:(lia) Hm')
        as (bm' & bg' & m' & -> & Hav' & Ha & Hb'). exists bm', bg', m'.
      repeat (split; [done|]). intros b Hb. rewrite Hb' by done. apply Hf in E3.
      destruct (Z.eq_dec b (32 * e + s)) as [->|]; [|by rewrite Hrun].
      rewrite E3. by destruct (_ && _), (_ && _).
    + rewrite andb_false_r.
      pose proof (adjust_step bm (if modified then bm_linear bm else 0)
        (if bm_class bm =? 0 then class else bm_class bm) e s Hlen Hav He ltac:(lia)) as Hstep.
      cbv zeta in Hstep. set (bm1 := mkBmap _ _ _ _) in *. clearbody bm1.
      destruct Hstep as (Hlen1 & Hav1 & Ha1 & Hb1). set (bg1 := if _ =? 0 then bg + _ else bg).
      destruct (IH class e bm1 (s + 1) _ bg1 true Hlen1 Hav1 He ltac:(lia) ltac:(lia) Hm')
        as (bm' & bg' & m' & -> & Hav' & Ha & Hb'). exists bm', bg', m'.
      split; [done|]. split; [done|]. split.
      { unfold bg1 in Ha.
        destruct (Z.land (aget 0 (bm_bitmapq bm) e) (ones_at (2 * s) (2 * 1)) =? 0); lia. }
      intros b Hb. rewrite Hb', Hb1 by done.
      destruct (Z.eqb_spec b (32 * e + s)) as [->|]; [|by rewrite Hrun].
      replace ((32 * e + s <=? 32 * e + s) && _) with true by (symmetry; zcases).
      by destruct (_ && _).
Qed.

Lemma i32_low x k : 0 <= k <= 31 -> Z.land (i32 x) (2 ^ k - 1) = x mod 2 ^ k.
Proof.
  intros Hk. rewrite land_low by lia. unfold i32.
  assert ((2 ^ k | 2 ^ 31) /\ (2 ^ k | 2 ^ 32)) as [H31 H32].
  { split; [exists (2 ^ (31 - k))|exists (2 ^ (32 - k))];
      rewrite <- Z.pow_add_r by lia; f_equal; lia. }
  rewrite Zminus_mod, Z.mod_mod_divide, <- Zminus_mod by done. f_equal. lia.
Qed.

(** The first block of [data_off] in its segment, and the one the code
    computes. *)
Definition own_block (data_off : Z) : Z := (data_off / 2 ^ 14) mod 256.
Definition adjust_block (data_off : Z) : Z :=
  32 * ((data_off / 2 ^ 19) mod 8) + (data_off / 2 ^ 14) mod 16.

Lemma adjust_own data_off : 0 <= data_off ->
  own_block data_off = adjust_block data_off + (if Z.testbit data_off 18 then 16 else 0).
Proof.
  intros Hd. unfold own_block, adjust_block.
  pose proof (Z.testbit_spec' data_off 18 ltac:(lia)) as Hb.
  change (2 ^ 14) with 16384 in *. change (2 ^ 19) with 524288 in *. change (2 ^ 18) with 262144 in *.
  destruct (Z.testbit data_off 18); cbn [Z.b2z] in Hb; dlia.
Qed.

Lemma run_fits data_off radix : 0 <= data_off -> 10 <= radix <= 16 -> data_off mod 2 ^ radix = 0 ->
  (data_off / 2 ^ 14) mod 16 + nblocks radix <= 16.
Proof.
  intros Hd Hr Hm. destruct (pow2_radix_bounds radix Hr) as (_ & _ & _ & Hge).
  destruct (nblocks_cases radix Hr) as [E | [E | E]]; rewrite E in *.
  - change (2 ^ 14) with 16384. dlia.
  - assert (radix = 15) as -> by (destruct (Z.eq_dec radix 16) as [->|]; [done|];
      unfold nblocks in E; destruct (Z.leb_spec radix 14); lia).
    change (2 ^ 15) with 32768 in Hm. change (2 ^ 14) with 16384. clear -Hm Hd. dlia.
  - assert (radix = 16) as -> by (destruct (Z.eq_dec radix 15) as [->|]; [done|];
      unfold nblocks in E; destruct (Z.leb_spec radix 14); lia).
    change (2 ^ 16) with 65536 in Hm. change (2 ^ 14) with 16384. clear -Hm Hd. dlia.
Qed.

Lemma adjust_count radix : 10 <= radix <= 16 ->
  (if radix <? HAMMER2_FREEMAP_BLOCK_RADIX then 1
   else Z.shiftl 1 (radix - HAMMER2_FREEMAP_BLOCK_RADIX)) = nblocks radix.
Proof.
  intros Hr. unfold nblocks. h2const. rewrite Z.shiftl_1_l.
  destruct (Z.eq_dec radix 14) as [->|]; [done|]. zcases.
Qed.

Lemma adjust_segment_spec class data_off radix bm :
  length (bm_bitmapq bm) = 8%nat -> avail_ok bm -> 0 <= data_off -> 10 <= radix <= 16 ->
  data_off mod 2 ^ radix = 0 ->
  exists bm' bg m, adjust_segment 0 class data_off radix bm = Some (bm', bg, m) /\
    avail_ok bm' /\ bm_avail bm - bm_avail bm' = bg /\
    (forall b, 0 <= b < 256 ->
      blk bm' b = if (adjust_block data_off <=? b) && (b <? adjust_block data_off + nblocks radix)
                  then 3 else blk bm b).
Proof.
  intros Hlen Hav Hd Hr Hm. unfold adjust_segment. rewrite adjust_count by done. h2const.
  rewrite !Z.shiftr_div_pow2 by lia.
  rewrite (i32_low (data_off / 2 ^ 14) 4 ltac:(lia) : Z.land _ 15 = _).
  rewrite (i32_low (data_off / 2 ^ (22 - 3)) 3 ltac:(lia) : Z.land _ 7 = _).
  change (2 ^ 4) with 16. change (2 ^ 3) with 8. change (22 - 3) with 19.
  set (s := (data_off / 2 ^ 14) mod 16). set (e := (data_off / 2 ^ 19) mod 8).
  pose proof (Z.mod_pos_bound (data_off / 2 ^ 14) 16). pose proof (Z.mod_pos_bound (data_off / 2 ^ 19) 8).
  pose proof (run_fits data_off radix Hd Hr Hm) as Hfit. fold s in Hfit.
  pose proof (nblocks_cases radix Hr).
  destruct (adjust_loop_spec (Z.to_nat (nblocks radix)) class e bm s (u64 (Z.shiftl 3 (s * 2))) 0 false)
    as (bm' & bg & m & E & Hav' & Ha & Hb); try done; try lia.
  - intros Hs. rewrite (Z.mul_comm s 2), ones_at_2 by lia. apply u64_small, is_u64_ones_at; lia.
  - exists bm', bg, m. split; [done|]. split; [done|]. split; [lia|]. intros b Hbr.
    rewrite Hb by done. by rewrite Z2Nat.id by lia.
Qed.

(** ** The theorems *)

(** Hammer2_freemap_adjust() on a block whose offset has bit 18 clear:
    the 16KB blocks of the reference become allocated, no other block of the
    segment changes, and [avail] and the amount taken from [allocator_free]
    account for exactly the blocks that were free. *)
Theorem adjust_marks_block class data_off radix bm :
  length (bm_bitmapq bm) = 8%nat -> avail_ok bm -> 0 <= data_off -> 10 <= radix <= 16 ->
  data_off mod 2 ^ radix = 0 -> Z.testbit data_off 18 = false ->
  exists bm' bg m, adjust_segment 0 class data_off radix bm = Some (bm', bg, m) /\
    avail_ok bm' /\ bm_avail bm - bm_avail bm' = bg /\
    (forall b, 0 <= b < 256 ->
      blk bm' b = if (own_block data_off <=? b) && (b <? own_block data_off + nblocks radix)
                  then 3 else blk bm b).
Proof.
  intros Hlen Hav Hd Hr Hm Hb. rewrite (adjust_own data_off), Hb, Z.add_0_r by done.
  by apply adjust_segment_spec.
Qed.

Lemma adjust_marks_block_witness :
  exists bm' bg m, adjust_segment 0 272 4194304 16 bmap_free = Some (bm', bg, m) /\
    avail_ok bm' /\ bm_avail bmap_free - bm_avail bm' = bg /\
    (forall b, 0 <= b < 256 ->
      blk bm' b = if (own_block 4194304 <=? b) && (b <? own_block 4194304 + nblocks 16)
                  then 3 else blk bmap_free b).
Proof.
  apply adjust_marks_block; [reflexivity|apply bmap_free_ok|vm_compute; congruence
    |vm_compute; split; congruence|reflexivity|reflexivity].
Defined.

(** the offset of the bit in the 64-bit element is computed modulo 16
    although the element holds 32 blocks: for a block whose offset has bit 18
    set, hammer2_freemap_adjust() leaves the blocks of the reference exactly
    as they were, free when they were free, and marks the blocks 256KB below
    instead. *)
Theorem adjust_misses_block class data_off radix bm :
  length (bm_bitmapq bm) = 8%nat -> avail_ok bm -> 0 <= data_off -> 10 <= radix <= 16 ->
  data_off mod 2 ^ radix = 0 -> Z.testbit data_off 18 = true ->
  exists bm' bg m, adjust_segment 0 class data_off radix bm = Some (bm', bg, m) /\
    (forall b, own_block data_off <= b < own_block data_off + nblocks radix -> blk bm' b = blk bm b) /\
    (forall b, own_block data_off - 16 <= b < own_block data_off - 16 + nblocks radix -> blk bm' b = 3).
Proof.
  intros Hlen Hav Hd Hr Hm Hb.
  pose proof (adjust_own data_off Hd) as Eo. rewrite Hb in Eo.
  destruct (adjust_segment_spec class data_off radix bm Hlen Hav Hd Hr Hm)
    as (bm' & bg & m & E & _ & _ & Hblk). exists bm', bg, m. split; [done|].
  pose proof (run_fits data_off radix Hd Hr Hm). pose proof (nblocks_cases radix Hr).
  assert (0 <= adjust_block data_off /\ adjust_block data_off + 16 + nblocks radix <= 256) as Hr8.
  { unfold adjust_block. pose proof (Z.mod_pos_bound (data_off / 2 ^ 19) 8).
    pose proof (Z.mod_pos_bound (data_off / 2 ^ 14) 16). lia. }
  split; intros b Hbr; rewrite Hblk by lia.
  - replace (_ && _) with false by (symmetry; zcases). done.
  - replace (_ && _) with true by (symmetry; zcases). done.
Qed.

Lemma adjust_misses_block_witness :
  exists bm' bg m, adjust_segment 0 272 4456448 16 bmap_free = Some (bm', bg, m) /\
    (forall b, own_block 4456448 <= b < own_block 4456448 + nblocks 16 -> blk bm' b = blk bmap_free b) /\
    (forall b, own_block 4456448 - 16 <= b < own_block 4456448 - 16 + nblocks 16 -> blk bm' b = 3).
Proof.
  apply adjust_misses_block; [reflexivity|apply bmap_free_ok|vm_compute; congruence
    |vm_compute; split; congruence|reflexivity|reflexivity].
Defined.

