(* ===== verification/Bulkfree.v ===== *)
(** hammer2_bulkfree.c: the in-memory freemap a topology scan builds, and its
    two-stage reconciliation with the live freemap. *)
From S2P Require Import Prelude Disk Subr Bmap Freemap.
From Stdlib Require Import ZArith Lia Bool.
From stdpp Require Import base list gmap.
Import Leaf Alloc.
Open Scope Z_scope.

(** ** The in-memory freemap *)

Module Gather.

(** One iteration of cbinfo_bmap_init(): [lokey] only ever moves up. *)
Definition bmap_init_lokey (key lokey : Z) : Z :=
  let lokey := if lokey <? H2FMBASE key HAMMER2_FREEMAP_LEVEL1_RADIX
               then H2FMBASE key HAMMER2_FREEMAP_LEVEL1_RADIX else lokey in
  if lokey <? u64 (H2FMZONEBASE key + HAMMER2_ZONE_SEG)
  then u64 (H2FMZONEBASE key + HAMMER2_ZONE_SEG) else lokey.

Fixpoint bmap_init_loop (n : nat) (key lokey hikey : Z) : list hammer2_bmap_data :=
  match n with
  | O => []
  | S m =>
      let lokey := bmap_init_lokey key lokey in
      (if (key <? lokey) || (hikey <=? key)
       then mkBmap HAMMER2_SEGSIZE 0 0 (replicate 8 HAMMER2_BMAP_ALLONES)
       else mkBmap 0 0 HAMMER2_FREEMAP_LEVEL0_SIZE (replicate 8 0))
      :: bmap_init_loop m (u64 (key + HAMMER2_FREEMAP_LEVEL0_SIZE)) lokey hikey
  end.

(** [n] is [size / sizeof( *bmap)]. *)
Definition cbinfo_bmap_init (allocator_beg total_size sbase : Z) (n : nat)
    : list hammer2_bmap_data :=
  bmap_init_loop n sbase (u64 (allocator_beg + HAMMER2_SEGMASK) &~ HAMMER2_SEGMASK)
    (total_size &~ HAMMER2_SEGMASK).

(** The loop of h2_bulkfree_callback() over the 16KB blocks of a reference. *)
Fixpoint mark_loop (fuel : nat) (bm : hammer2_bmap_data) (data_off bytes : Z) : hammer2_bmap_data :=
  match fuel with
  | O => bm
  | S f =>
      if bytes =? 0 then bm
      else
        let bindex := Z.shiftr data_off (HAMMER2_FREEMAP_BLOCK_RADIX + HAMMER2_BMAP_INDEX_RADIX) in
        let bmask := u64 (Z.shiftl 3 (Z.shiftl
          (Z.shiftr (data_off & HAMMER2_BMAP_INDEX_MASK) HAMMER2_FREEMAP_BLOCK_RADIX) 1)) in
        let q := aget 0 (bm_bitmapq bm) bindex in
        let bm :=
          if (q & bmask) =? 0
          then mkBmap (bm_linear bm) (bm_class bm)
                 (u32 (bm_avail bm -
                    (if bytes <? HAMMER2_FREEMAP_BLOCK_SIZE
                     then HAMMER2_FREEMAP_BLOCK_SIZE else bytes)))
                 (aset (bm_bitmapq bm) bindex (q ||| bmask))
          else bm in
        mark_loop f bm (data_off + HAMMER2_FREEMAP_BLOCK_SIZE)
          (if bytes <? HAMMER2_FREEMAP_BLOCK_SIZE then 0 else bytes - HAMMER2_FREEMAP_BLOCK_SIZE)
  end.

(** The linear hint of the segment: the end of the highest sub-block
    allocation, kept clear of whole-block ones. *)
Definition mark_linear (linear data_off bytes : Z) : Z :=
  if nz (bytes & HAMMER2_FREEMAP_BLOCK_MASK)
  then if linear <? data_off + bytes then data_off + bytes else linear
  else if (data_off <=? linear) && (linear <? data_off + bytes) then data_off + bytes
  else linear.

(** What the callback does to the bmap entry of the reference; [data_off] is
    relative to the segment. *)
Definition mark_segment (bm : hammer2_bmap_data) (class data_off bytes : Z) : hammer2_bmap_data :=
  let bytes := if HAMMER2_FREEMAP_LEVEL0_SIZE <? data_off + bytes
               then HAMMER2_FREEMAP_LEVEL0_SIZE - data_off else bytes in
  let bm := if bm_class bm =? 0
            then mkBmap (bm_linear bm) class HAMMER2_FREEMAP_LEVEL0_SIZE (bm_bitmapq bm)
            else bm in
  let bm := mkBmap (mark_linear (bm_linear bm) data_off bytes) (bm_class bm) (bm_avail bm)
              (bm_bitmapq bm) in
  mark_loop 257 bm data_off bytes.

(** h2_bulkfree_callback() without its signal check and its throttle: the
    window [sbase, sstop) of the freemap being gathered. *)
Definition h2_bulkfree_callback (allocator_beg total_size sbase sstop : Z)
    (bmaps : list hammer2_bmap_data) (bref : hammer2_blockref) : list hammer2_bmap_data :=
  let data_off := br_data_off bref &~ HAMMER2_OFF_MASK_RADIX in
  if (data_off <? sbase) || (sstop <=? data_off) then bmaps
  else if data_off <? allocator_beg then bmaps
  else if total_size <=? data_off then bmaps
  else
    let radix := br_data_off bref & HAMMER2_OFF_MASK_RADIX in
    let bytes := Z.shiftl 1 radix in
    let bytes := if sstop <? data_off + bytes then sstop - data_off else bytes in
    let rel := data_off - sbase in
    let n := Z.shiftr rel HAMMER2_FREEMAP_LEVEL0_RADIX in
    aset bmaps n (mark_segment (aget bmap_zero bmaps n) (class_of (br_type bref))
      (rel & HAMMER2_FREEMAP_LEVEL0_MASK) bytes).

End Gather.

(** ** Reconciliation with the live freemap *)

Module Sync.

(** The statistics of a pass, with the buffer layer's dedup bits: blocks whose
    bits were deleted, and blocks asserted to have none. *)
Record sync_stats := mkStats {
  st_10_00 : Z;
  st_11_10 : Z;
  st_00_11 : Z;
  st_01_11 : Z;
  st_10_11 : Z;
  st_l0cleans : Z;
  st_linadjusts : Z;
  st_adj_free : Z;
  st_dedup_delete : list Z;
  st_dedup_assert : list Z
}.

Definition stats_zero : sync_stats := mkStats 0 0 0 0 0 0 0 0 [] [].

Definition stat_10_00 (s : sync_stats) (off : Z) : sync_stats :=
  mkStats (st_10_00 s + 1) (st_11_10 s) (st_00_11 s) (st_01_11 s) (st_10_11 s) (st_l0cleans s)
    (st_linadjusts s) (u64 (st_adj_free s + HAMMER2_FREEMAP_BLOCK_SIZE))
    (st_dedup_delete s) (off :: st_dedup_assert s).
Definition stat_11_10 (s : sync_stats) (off : Z) : sync_stats :=
  mkStats (st_10_00 s) (st_11_10 s + 1) (st_00_11 s) (st_01_11 s) (st_10_11 s) (st_l0cleans s)
    (st_linadjusts s) (st_adj_free s) (off :: st_dedup_delete s) (st_dedup_assert s).
Definition stat_00_11 (s : sync_stats) : sync_stats :=
  mkStats (st_10_00 s) (st_11_10 s) (st_00_11 s + 1) (st_01_11 s) (st_10_11 s) (st_l0cleans s)
    (st_linadjusts s) (u64 (st_adj_free s - HAMMER2_FREEMAP_BLOCK_SIZE))
    (st_dedup_delete s) (st_dedup_assert s).
Definition stat_01_11 (s : sync_stats) : sync_stats :=
  mkStats (st_10_00 s) (st_11_10 s) (st_00_11 s) (st_01_11 s + 1) (st_10_11 s) (st_l0cleans s)
    (st_linadjusts s) (st_adj_free s) (st_dedup_delete s) (st_dedup_assert s).
Definition stat_10_11 (s : sync_stats) : sync_stats :=
  mkStats (st_10_00 s) (st_11_10 s) (st_00_11 s) (st_01_11 s) (st_10_11 s + 1) (st_l0cleans s)
    (st_linadjusts s) (st_adj_free s) (st_dedup_delete s) (st_dedup_assert s).
Definition stat_l0clean (s : sync_stats) : sync_stats :=
  mkStats (st_10_00 s) (st_11_10 s) (st_00_11 s) (st_01_11 s) (st_10_11 s) (st_l0cleans s + 1)
    (st_linadjusts s) (st_adj_free s) (st_dedup_delete s) (st_dedup_assert s).
Definition stat_linadjust (s : sync_stats) : sync_stats :=
  mkStats (st_10_00 s) (st_11_10 s) (st_00_11 s) (st_01_11 s) (st_10_11 s) (st_l0cleans s)
    (st_linadjusts s + 1) (st_adj_free s) (st_dedup_delete s) (st_dedup_assert s).

(** One block: [q] is [live->bitmapq[bindex]], [avail] is [live->avail]. *)
Definition sync_block (scount lmask mmask q avail tmp_off : Z) (s : sync_stats)
    : Z * Z * sync_stats :=
  let off := tmp_off ||| HAMMER2_FREEMAP_BLOCK_RADIX in
  if (mmask & 3) =? 0 then
    if (lmask & 3) =? 2 then
      let avail := u32 (avail + HAMMER2_FREEMAP_BLOCK_SIZE) in
      (q &~ u64 (Z.shiftl 2 scount),
       if HAMMER2_FREEMAP_LEVEL0_SIZE <? avail then HAMMER2_FREEMAP_LEVEL0_SIZE else avail,
       stat_10_00 s off)
    else if (lmask & 3) =? 3 then (q &~ u64 (Z.shiftl 1 scount), avail, stat_11_10 s off)
    else (q, avail, s)
  else if (mmask & 3) =? 3 then
    let q := q ||| u64 (Z.shiftl 3 scount) in
    if (lmask & 3) =? 0 then
      let avail := u32 (avail - HAMMER2_FREEMAP_BLOCK_SIZE) in
      (q, if i32 avail <? 0 then 0 else avail, stat_00_11 s)
    else if (lmask & 3) =? 1 then (q, avail, stat_01_11 s)
    else if (lmask & 3) =? 2 then (q, avail, stat_10_11 s)
    else (q, avail, s)
  else (q, avail, s).

(** The loop on [scount], [n] entries. *)
Fixpoint sync_bits (n : nat) (scount lmask mmask q avail tmp_off : Z) (s : sync_stats)
    : Z * Z * sync_stats :=
  match n with
  | O => (q, avail, s)
  | S m =>
      let '(q, avail, s) := sync_block scount lmask mmask q avail tmp_off s in
      sync_bits m (scount + 2) (Z.shiftr lmask 2) (Z.shiftr mmask 2) q avail
        (u64 (tmp_off + HAMMER2_FREEMAP_BLOCK_SIZE)) s
  end.

(** The loop on [bindex], [n] elements from [i] on. *)
Fixpoint sync_elements (n : nat) (i : Z) (lq mq : list Z) (avail tmp_off : Z) (s : sync_stats)
    : list Z * Z * sync_stats :=
  match n with
  | O => (lq, avail, s)
  | S m =>
      let lmask := aget 0 lq i in
      let mmask := aget 0 mq i in
      let '(q, avail, s) :=
        if lmask =? mmask then (lmask, avail, s)
        else sync_bits 32 0 lmask mmask lmask avail tmp_off s in
      sync_elements m (i + 1) (aset lq i q) mq avail (u64 (tmp_off + HAMMER2_BMAP_INDEX_SIZE)) s
  end.

(** The highest element that is not zero, -1 if there is none. *)
Fixpoint top_element (n : nat) (q : list Z) : Z :=
  match n with
  | O => -1
  | S m => if nz (aget 0 q (Z.of_nat m)) then Z.of_nat m else top_element m q
  end.

(** The end of h2_bulkfree_sync_adjust(): an empty segment is reset, and
    otherwise the linear iterator is brought to a place that is safe. *)
Definition sync_tail (live mem : hammer2_bmap_data) (s : sync_stats)
    : hammer2_bmap_data * sync_stats :=
  let bindex := top_element 8 (bm_bitmapq live) in
  if bindex <? 0
  then (mkBmap 0 0 HAMMER2_FREEMAP_LEVEL0_SIZE (bm_bitmapq live), stat_l0clean s)
  else if bindex <? 7 then
    let linear :=
      if (bm_linear live <? bm_linear mem) &&
         ((Z.lxor (bm_linear live) (bm_linear mem) &~ HAMMER2_FREEMAP_BLOCK_MASK) =? 0)
      then bm_linear mem
      else i32 (bm_linear mem + HAMMER2_FREEMAP_BLOCK_MASK) &~ HAMMER2_FREEMAP_BLOCK_MASK in
    (mkBmap linear (bm_class live) (bm_avail live) (bm_bitmapq live), stat_linadjust s)
  else (mkBmap HAMMER2_SEGSIZE (bm_class live) (bm_avail live) (bm_bitmapq live), s).

Definition h2_bulkfree_sync_adjust (data_off : Z) (live mem : hammer2_bmap_data) (s : sync_stats)
    : hammer2_bmap_data * sync_stats :=
  let '(q, avail, s) :=
    sync_elements 8 0 (bm_bitmapq live) (bm_bitmapq mem) (bm_avail live) data_off s in
  sync_tail (mkBmap (bm_linear live) (bm_class live) avail q) mem s.

(** bigmask_get(): the inner loop on [j], the loop on [iter] and the one on
    the elements. *)
Fixpoint bigmask_bits (fuel : nat) (mask iter j scan : Z) : bool :=
  match fuel with
  | O => false
  | S f =>
      if j <? HAMMER2_BMAP_BITS_PER_ELEMENT
      then ((scan & mask) =? 0) ||
           bigmask_bits f mask iter (j + iter)
             (if j + iter <? HAMMER2_BMAP_BITS_PER_ELEMENT then u64 (Z.shiftl scan iter) else scan)
      else false
  end.

Fixpoint bigmask_iter (fuel : nat) (mask iter radix_mask bigmask : Z) : Z :=
  match fuel with
  | O => bigmask
  | S f =>
      if iter <=? HAMMER2_BMAP_BITS_PER_ELEMENT then
        let scan := if iter =? HAMMER2_BMAP_BITS_PER_ELEMENT then HAMMER2_BMAP_ALLONES
                    else Z.shiftl 1 iter - 1 in
        let bigmask := if bigmask_bits 33 mask iter 0 scan then bigmask ||| radix_mask else bigmask in
        bigmask_iter f mask (Z.shiftl iter 1) (u32 (Z.shiftl radix_mask 1) ||| 1) bigmask
      else bigmask
  end.

Definition bigmask_radix_mask : Z :=
  Z.shiftl 1 HAMMER2_FREEMAP_BLOCK_RADIX ||| (Z.shiftl 1 HAMMER2_FREEMAP_BLOCK_RADIX - 1).

Fixpoint bigmask_elements (n : nat) (q : list Z) (bigmask : Z) : Z :=
  match n with
  | O => bigmask
  | S m =>
      bigmask_iter 7 (aget 0 q (Z.of_nat m)) 2 bigmask_radix_mask (bigmask_elements m q bigmask)
  end.

Definition bigmask_get (bm : hammer2_bmap_data) : Z := bigmask_elements 8 (bm_bitmapq bm) 0.

Definition bigmask_good (bm : hammer2_bmap_data) (live_bigmask : Z) : bool :=
  (live_bigmask & bigmask_get bm) =? bigmask_get bm.

(** The shortcut of h2_bulkfree_sync(). *)
Definition sync_skip (live mem : hammer2_bmap_data) (live_bigmask : Z) : bool :=
  bool_decide (bm_bitmapq live = bm_bitmapq mem) && (bm_linear mem <=? bm_linear live) &&
  bigmask_good mem live_bigmask.

End Sync.
