(* ===== verification/BulkfreePass.v ===== *)
(** hammer2_bulkfree.c above the segment: the dedup table that keeps shared
    sub-trees from being scanned twice, the topology scan with its deferral
    list, the synchronization of a window and the pass over the media. *)
From S2P Require Import Prelude Disk Subr Bmap Freemap Bulkfree.
From Stdlib Require Import ZArith Lia Bool.
From stdpp Require Import base list gmap.
Import Leaf Alloc Gather Sync.
Open Scope Z_scope.

(** ** The dedup heuristic *)

Module Dedup.

Record hammer2_dedup := mkDedup {
  dd_data_off : Z;
  dd_ticks : Z;
  dd_saved_error : Z
}.

Definition dedup_zero : hammer2_dedup := mkDedup 0 0 0.

(** [cbinfo->dedup], zeroed at the start of every window. *)
Abbreviation dedup_table := (gmap Z hammer2_dedup).

Definition HAMMER2_DEDUP_HEUR_SIZE : Z := 65536 * 4.
Definition HAMMER2_DEDUP_HEUR_MASK : Z := HAMMER2_DEDUP_HEUR_SIZE - 1.

Definition dd_get (t : dedup_table) (i : Z) : hammer2_dedup := default dedup_zero (t !! i).

(** [hammer2_icrc32()] of the eight bytes of [data_off], the kernel's CRC. *)
Section Test.
Variable icrc32 : Z -> Z.

Definition dedup_base (data_off : Z) : Z :=
  i32 (icrc32 data_off) & (HAMMER2_DEDUP_HEUR_MASK &~ 7).

(** The loop over the eight ways from [i] on: [inl] is the way that matches,
    [inr] the one with the fewest ticks. *)
Fixpoint test_loop (n : nat) (t : dedup_table) (base data_off i best : Z) : Z + Z :=
  match n with
  | O => inr best
  | S m =>
      let d := dd_get t (base + i) in
      if dd_data_off d =? data_off then inl i
      else test_loop m t base data_off (i + 1)
             (if dd_ticks d <? dd_ticks (dd_get t (base + best)) then i else best)
  end.

(** The table, what is added to [count_dedup_factor], and the result. *)
Definition h2_bulkfree_test (t : dedup_table) (data_off pri saved_error : Z)
    : dedup_table * Z * Z :=
  let base := dedup_base data_off in
  match test_loop 8 t base data_off 0 0 with
  | inl i =>
      let d := dd_get t (base + i) in
      let ticks := if dd_ticks d <? u32 pri then u32 pri else dd_ticks d in
      (<[base + i := mkDedup (dd_data_off d) ticks (dd_saved_error d)]> t,
       if pri =? 1 then ticks else 0, dd_saved_error d ||| HAMMER2_ERROR_EOF)
  | inr best =>
      (<[base + best := mkDedup data_off (u32 pri) (u32 saved_error)]> t, 0, 0)
  end.

End Test.

End Dedup.

(** ** The topology scan *)

Module TopoScan.
Import Dedup.

(** The isolated topology a scan walks.  A chain has the error known when it
    was retrieved without its data and the one known once it is locked with
    its data, and what hammer2_chain_scan() yields on it, in order: a blockref,
    and a chain if one is instantiated.  After the last entry the function
    returns HAMMER2_ERROR_EOF; on a parent with an error it returns that. *)
Inductive chain :=
  | Chain (bref : hammer2_blockref) (nodata_error error bytes : Z) (entries : list entry)
with entry :=
  | Entry (bref : hammer2_blockref) (child : option chain).

Definition c_bref (c : chain) : hammer2_blockref := let '(Chain b _ _ _ _) := c in b.
Definition c_nodata_error (c : chain) : Z := let '(Chain _ e _ _ _) := c in e.
Definition c_error (c : chain) : Z := let '(Chain _ _ e _ _) := c in e.
Definition c_bytes (c : chain) : Z := let '(Chain _ _ _ n _) := c in n.
Definition c_entries (c : chain) : list entry := let '(Chain _ _ _ _ l) := c in l.
Definition e_bref (e : entry) : hammer2_blockref := let '(Entry b _) := e in b.
Definition e_child (e : entry) : option chain := let '(Entry _ c) := e in c.

(** hammer2_chain_save: the pointer is a number that is never used again. *)
Record chain_save := mkSave { sv_id : nat; sv_chain : chain }.

(** The fields of hammer2_bulkfree_info the scan works on; [bi_next] numbers
    the allocations, [bi_st] is what the callback works on. *)
Record bulkfree_info (T : Type) := mkInfo {
  bi_st : T;
  bi_dedup : dedup_table;
  bi_depth : Z;
  bi_pri : Z;
  bi_list : list chain_save;
  bi_list_count : Z;
  bi_list_count_max : Z;
  bi_backout : option nat;
  bi_next : nat;
  bi_inodes : Z;
  bi_dirents : Z;
  bi_bytes : Z;
  bi_chains : Z;
  bi_dedup_factor : Z
}.
Arguments mkInfo {T}.
Arguments bi_st {T}. Arguments bi_dedup {T}. Arguments bi_depth {T}. Arguments bi_pri {T}.
Arguments bi_list {T}. Arguments bi_list_count {T}. Arguments bi_list_count_max {T}.
Arguments bi_backout {T}. Arguments bi_next {T}. Arguments bi_inodes {T}.
Arguments bi_dirents {T}. Arguments bi_bytes {T}. Arguments bi_chains {T}.
Arguments bi_dedup_factor {T}.

Section Scan.
Context {T : Type}.
Variable icrc32 : Z -> Z.
(** The callback: its error and its effect on the state it works on. *)
Variable func : T -> hammer2_blockref -> T * Z.
(** The two tunables. *)
Variables hammer2_limit_scan_depth hammer2_limit_saved_chains : Z.
Implicit Type i : bulkfree_info T.

Definition bi_set_pri i (pri : Z) : bulkfree_info T :=
  mkInfo (bi_st i) (bi_dedup i) (bi_depth i) pri (bi_list i) (bi_list_count i)
    (bi_list_count_max i) (bi_backout i) (bi_next i) (bi_inodes i) (bi_dirents i) (bi_bytes i)
    (bi_chains i) (bi_dedup_factor i).
Definition bi_set_depth i (depth : Z) : bulkfree_info T :=
  mkInfo (bi_st i) (bi_dedup i) depth (bi_pri i) (bi_list i) (bi_list_count i)
    (bi_list_count_max i) (bi_backout i) (bi_next i) (bi_inodes i) (bi_dirents i) (bi_bytes i)
    (bi_chains i) (bi_dedup_factor i).
Definition bi_set_st i (st : T) : bulkfree_info T :=
  mkInfo st (bi_dedup i) (bi_depth i) (bi_pri i) (bi_list i) (bi_list_count i)
    (bi_list_count_max i) (bi_backout i) (bi_next i) (bi_inodes i) (bi_dirents i) (bi_bytes i)
    (bi_chains i) (bi_dedup_factor i).
Definition bi_count i (inodes dirents bytes chains : Z) : bulkfree_info T :=
  mkInfo (bi_st i) (bi_dedup i) (bi_depth i) (bi_pri i) (bi_list i) (bi_list_count i)
    (bi_list_count_max i) (bi_backout i) (bi_next i) (bi_inodes i + inodes)
    (bi_dirents i + dirents) (bi_bytes i + bytes) (bi_chains i + chains) (bi_dedup_factor i).

(** h2_bulkfree_test() on the info. *)
Definition bi_test i (bref : hammer2_blockref) (pri saved_error : Z) : bulkfree_info T * Z :=
  let '(t, factor, res) := h2_bulkfree_test icrc32 (bi_dedup i) (br_data_off bref) pri saved_error in
  (mkInfo (bi_st i) t (bi_depth i) (bi_pri i) (bi_list i) (bi_list_count i)
     (bi_list_count_max i) (bi_backout i) (bi_next i) (bi_inodes i) (bi_dirents i) (bi_bytes i)
     (bi_chains i) (bi_dedup_factor i + factor), res).

(** TAILQ_INSERT_AFTER(); [None] when the element is not in the list. *)
Fixpoint insert_after (l : list chain_save) (id : nat) (s : chain_save) : option (list chain_save) :=
  match l with
  | [] => None
  | x :: r => if Nat.eqb (sv_id x) id then Some (x :: s :: r)
              else (cons x) <$> insert_after r id s
  end.

(** Defer the recursion into [c]. *)
Definition defer i (c : chain) : option (bulkfree_info T) :=
  let save := mkSave (bi_next i) c in
  l ← match bi_backout i with
      | Some b => insert_after (bi_list i) b save
      | None => Some (save :: bi_list i)
      end;
  let n := bi_list_count i + 1 in
  Some (mkInfo (bi_st i) (bi_dedup i) (bi_depth i) (bi_pri i + 10) l n
    (if bi_list_count_max i <? n then n else bi_list_count_max i) (Some (bi_next i))
    (S (bi_next i)) (bi_inodes i) (bi_dirents i) (bi_bytes i) (bi_chains i) (bi_dedup_factor i)).

(** TAILQ_REMOVE() of the first element, the list given without it. *)
Definition bi_pop i (l : list chain_save) (pri : Z) : bulkfree_info T :=
  mkInfo (bi_st i) (bi_dedup i) (bi_depth i) pri l (bi_list_count i - 1)
    (bi_list_count_max i) None (bi_next i) (bi_inodes i) (bi_dirents i) (bi_bytes i)
    (bi_chains i) (bi_dedup_factor i).

(** The chain types the switch recurses into. *)
Definition recursive_type (type : Z) : bool :=
  (type =? HAMMER2_BREF_TYPE_INODE) || (type =? HAMMER2_BREF_TYPE_FREEMAP_NODE) ||
  (type =? HAMMER2_BREF_TYPE_INDIRECT) || (type =? HAMMER2_BREF_TYPE_VOLUME) ||
  (type =? HAMMER2_BREF_TYPE_FREEMAP).

Definition is_pfsroot (b : hammer2_blockref) : bool :=
  (br_type b =? HAMMER2_BREF_TYPE_INODE) && nz (br_flags b & HAMMER2_BREF_FLAG_PFSROOT).

(** Too deep, backing out, or too many chains saved. *)
Definition must_defer i : bool :=
  (16 <? bi_depth i) || (match bi_backout i with Some _ => true | None => false end) ||
  ((hammer2_limit_scan_depth <? bi_depth i) &&
   (Z.shiftr hammer2_limit_saved_chains 2 <=? bi_list_count i)).

(** The switch on [chain->bref.type]; [scan] is the recursive call.  The
    result is the error the recursion adds to [rup_error]. *)
Definition scan_chain (scan : chain -> bulkfree_info T -> option (bulkfree_info T * Z)) i (c : chain)
    : option (bulkfree_info T * Z) :=
  if recursive_type (br_type (c_bref c)) then
    let i := bi_set_depth i (bi_depth i + 1) in
    '(i, e) ←
      (if nz (c_nodata_error c & HAMMER2_ERROR_CHECK) then Some (i, 0)
       else if must_defer i then i ← defer i c; Some (i, 0)
       else
         let savepri := bi_pri i in
         '(i, e) ← scan c (bi_set_pri i 0);
         Some (bi_set_pri i (bi_pri i + savepri), e));
    Some (bi_set_depth i (bi_depth i - 1), e)
  else Some (i, 0).

(** What one iteration of the loop does once hammer2_chain_scan() returned an
    entry: the info, [error], [rup_error] and whether the loop is left. *)
Definition scan_entry (scan : chain -> bulkfree_info T -> option (bulkfree_info T * Z)) i (e : entry)
    (error rup_error : Z) : option (bulkfree_info T * Z * Z * bool) :=
  let bref := e_bref e in
  let i := if br_type bref =? HAMMER2_BREF_TYPE_DIRENT then bi_count i 0 1 0 0 else i in
  if (br_data_off bref &~ HAMMER2_OFF_MASK_RADIX) =? 0 then Some (i, error, rup_error, false)
  else
    let i := bi_set_pri i (bi_pri i + 1) in
    let '(i, e2) := bi_test i bref 1 0 in
    if nz e2 then Some (i, error ||| (e2 &~ HAMMER2_ERROR_EOF), rup_error, false)
    else
      let i := if br_type bref =? HAMMER2_BREF_TYPE_INODE then bi_count i 1 0 0 0 else i in
      let '(st, fe) := func (bi_st i) bref in
      let i := bi_set_st i st in
      let error := error ||| fe in
      if nz (error &~ HAMMER2_ERROR_CHECK) then Some (i, error, rup_error, true)
      else
        match e_child e with
        | None => Some (i, error, rup_error, false)
        | Some c =>
            '(i, re) ← scan_chain scan (bi_count i 0 0 (c_bytes c) 1) c;
            let rup_error := rup_error ||| re in
            Some (i, error, rup_error, nz (rup_error & HAMMER2_ERROR_ABORTED))
        end.

(** [for (;;)]: on the entries not yet returned by hammer2_chain_scan(). *)
Fixpoint scan_loop (scan : chain -> bulkfree_info T -> option (bulkfree_info T * Z)) i
    (l : list entry) (error rup_error : Z) : option (bulkfree_info T * Z * Z) :=
  match l with
  | [] => Some (i, error ||| HAMMER2_ERROR_EOF, rup_error)
  | e :: l =>
      if nz (error &~ HAMMER2_ERROR_CHECK) then Some (i, error, rup_error)
      else
        '(i, error, rup_error, brk) ← scan_entry scan i e error rup_error;
        if (brk : bool) then Some (i, error, rup_error) else scan_loop scan i l error rup_error
  end.

(** The loop of a PFS root over the elements deferred during its scan, up to
    [tail].  [None] is a missing element, or no fuel. *)
Fixpoint drain_pfs (n : nat) (scan : chain -> bulkfree_info T -> option (bulkfree_info T * Z)) i
    (tail : option nat) (rup_error : Z) : option (bulkfree_info T * Z) :=
  match n with
  | O => None
  | S m =>
      if bool_decide (sv_id <$> head (bi_list i) = tail) then Some (i, rup_error)
      else
        match bi_list i with
        | [] => None
        | save :: l =>
            let savepri := bi_pri i in
            '(i, re) ← scan (sv_chain save) (bi_pop i l 0);
            drain_pfs m scan (bi_set_pri i savepri) tail (rup_error ||| re)
        end
  end.

(** The end of the scan of [parent], its own blockref recorded once more. *)
Definition scan_finish i (parent : chain) (error rup_error : Z) : bulkfree_info T * Z :=
  let error := error ||| rup_error in
  let '(i, _) := bi_test i (c_bref parent) (bi_pri i + 1) (error &~ HAMMER2_ERROR_EOF) in
  (i, error &~ HAMMER2_ERROR_EOF).

Fixpoint hammer2_bulkfree_scan (fuel : nat) (parent : chain) i : option (bulkfree_info T * Z) :=
  match fuel with
  | O => None
  | S f =>
      let i := bi_set_pri i (bi_pri i + 1) in
      let tail := sv_id <$> head (bi_list i) in
      if nz (c_error parent & HAMMER2_ERROR_CHECK)
      then Some (i, c_error parent &~ HAMMER2_ERROR_EOF)
      else
        '(i, error, rup_error) ←
          (if nz (c_error parent) then Some (i, c_error parent, 0)
           else scan_loop (hammer2_bulkfree_scan f) i (c_entries parent) 0 0);
        '(i, rup_error) ←
          (if is_pfsroot (c_bref parent)
           then drain_pfs fuel (hammer2_bulkfree_scan f) i tail rup_error
           else Some (i, rup_error));
        Some (scan_finish i parent error rup_error)
  end.

(** The loop of hammer2_bulkfree_pass() over what is still deferred. *)
Fixpoint drain_list (n fuel : nat) i (error : Z) : option (bulkfree_info T * Z) :=
  match n with
  | O => None
  | S m =>
      match bi_list i with
      | [] => Some (i, error)
      | save :: l =>
          if nz (error &~ HAMMER2_ERROR_CHECK) then Some (i, error)
          else
            '(i, e) ← hammer2_bulkfree_scan fuel (sv_chain save) (bi_pop i l 0);
            drain_list m fuel i (error ||| e)
      end
  end.

End Scan.

End TopoScan.

(** ** The synchronization of a window *)

Module SyncWindow.

(** [hmp->freemap_relaxed = 0], and the new value of [allocator_free]. *)
Definition dev_unrelax (d : fm_dev) : fm_dev :=
  mkDev (hd_allocator_beg d) (hd_total_size d) (hd_allocator_free d) 0
    (hd_heur_freemap d) (hd_leaves d) (hd_newnz d) (hd_dedup d) (hd_tick d).
Definition dev_add_free (d : fm_dev) (adj_free : Z) : fm_dev :=
  mkDev (hd_allocator_beg d) (hd_total_size d) (u64 (hd_allocator_free d + adj_free))
    (hd_freemap_relaxed d) (hd_heur_freemap d) (hd_leaves d) (hd_newnz d) (hd_dedup d) (hd_tick d).

Section Sync.
Variable io : chain_io.

(** [live_chain] at the time of the test [live_chain == NULL]: kept when it is
    the leaf of [key], else looked up.  [None] is the lookup that fails with an
    error, where the code reads [live_chain->error] through a null pointer. *)
Definition sync_lookup (d : fm_dev) (live_chain : option Z) (key : Z)
    : option (fm_dev * option Z * Z) :=
  if bool_decide (live_chain = Some key) then Some (d, live_chain, 0)
  else if nz (io_node_error io (hd_tick d) key) then None
  else match hd_leaves d !! key with
       | None => Some (dev_tick d, None, 0)
       | Some _ => Some (dev_tick d, Some key, io_leaf_error io (hd_tick d) key)
       end.

(** What happens to the segment once its leaf is at hand. *)
Definition sync_leaf (d : fm_dev) (key data_off : Z) (mem : hammer2_bmap_data) (s : sync_stats)
    : fm_dev * option Z * sync_stats :=
  let leaf := default leaf_created (hd_leaves d !! key) in
  let bmapindex := Z.shiftr (data_off & HAMMER2_FREEMAP_LEVEL1_MASK) HAMMER2_FREEMAP_LEVEL0_RADIX in
  let live := aget bmap_zero (lf_bmdata leaf) bmapindex in
  if sync_skip live mem (lf_bigmask leaf) then (d, Some key, s)
  else
    let error := io_modify_error io (hd_tick d) key in
    let d := dev_tick d in
    if nz error then (d, None, s)
    else
      let '(live, s) := h2_bulkfree_sync_adjust data_off live mem s in
      (dev_leaf (dev_unrelax d) key
         (mkLeaf (aset (lf_bmdata leaf) bmapindex live) (u32 (-1)) (lf_avail leaf)), Some key, s).

(** One iteration of the loop, without the increments. *)
Definition sync_segment (d : fm_dev) (live_chain : option Z) (data_off : Z)
    (mem : hammer2_bmap_data) (s : sync_stats) : option (fm_dev * option Z * sync_stats) :=
  if data_off <? hd_allocator_beg d then Some (d, live_chain, s)
  else if hd_total_size d <=? data_off then Some (d, live_chain, s)
  else
    let key := data_off &~ HAMMER2_FREEMAP_LEVEL1_MASK in
    '(d, live_chain, error) ← sync_lookup d live_chain key;
    match live_chain with
    | None => Some (d, None, s)
    | Some _ => if nz error then Some (d, None, s) else Some (sync_leaf d key data_off mem s)
    end.

(** [while (data_off < cbinfo->sstop)]; [None] also where the code would run
    off the end of [cbinfo->bmap]. *)
Fixpoint sync_loop (bmaps : list hammer2_bmap_data) (d : fm_dev) (live_chain : option Z)
    (data_off sstop : Z) (s : sync_stats) : option (fm_dev * sync_stats) :=
  if sstop <=? data_off then Some (d, s)
  else
    match bmaps with
    | [] => None
    | mem :: rest =>
        '(d, live_chain, s) ← sync_segment d live_chain data_off mem s;
        sync_loop rest d live_chain (u64 (data_off + HAMMER2_FREEMAP_LEVEL0_SIZE)) sstop s
    end.

(** The error returned is always 0: the only path that sets one is the failed
    lookup. *)
Definition h2_bulkfree_sync (bmaps : list hammer2_bmap_data) (d : fm_dev) (sbase sstop : Z)
    (s : sync_stats) : option (fm_dev * sync_stats * Z) :=
  '(d, s) ← sync_loop bmaps d None sbase sstop s; Some (d, s, 0).

End Sync.

End SyncWindow.

(** ** The pass *)

Module Pass.
Import Dedup TopoScan SyncWindow.

(** What h2_bulkfree_callback() works on: the in-memory freemap, the number of
    calls made, and [cbinfo->signaled]. *)
Record gather_state := mkGather {
  gs_bmap : list hammer2_bmap_data;
  gs_calls : nat;
  gs_signaled : bool
}.

(** The callback with its signal check; [pending n] is whether a signal is
    pending at the [n]th call. *)
Definition bulkfree_func (pending : nat -> bool) (allocator_beg total_size sbase sstop : Z)
    (g : gather_state) (bref : hammer2_blockref) : gather_state * Z :=
  if pending (gs_calls g) && negb (gs_signaled g)
  then (mkGather (gs_bmap g) (S (gs_calls g)) true, HAMMER2_ERROR_ABORTED)
  else (mkGather (h2_bulkfree_callback allocator_beg total_size sbase sstop (gs_bmap g) bref)
          (S (gs_calls g)) (gs_signaled g), 0).

Definition howmany (x y : Z) : Z := (x + (y - 1)) / y.

Definition HAMMER2_FREEMAP_SIZEDIV : Z :=
  HAMMER2_FREEMAP_LEVEL1_SIZE / HAMMER2_FREEMAP_LEVELN_PSIZE.

(** Rounded up to a whole leaf. *)
Definition round_psize (size : Z) : Z :=
  u64 (size + HAMMER2_FREEMAP_LEVELN_PSIZE - 1) &~ (HAMMER2_FREEMAP_LEVELN_PSIZE - 1).

(** The size of the in-memory freemap. *)
Definition bulkfree_size (bfi_size total_size : Z) : Z :=
  let size := round_psize bfi_size in
  let size := if total_size / HAMMER2_FREEMAP_SIZEDIV <? size
              then howmany total_size HAMMER2_FREEMAP_SIZEDIV else size in
  let size := if size <? 1024 * 1024 then 1024 * 1024 else size in
  round_psize size.

Definition bulkfree_sbase (bfi_sbase total_size : Z) : Z :=
  (if total_size <? bfi_sbase then total_size else bfi_sbase) &~ HAMMER2_FREEMAP_LEVEL1_MASK.

(** The bytes of media a buffer of [size] represents. *)
Definition bulkfree_incr (size : Z) : Z :=
  size / HAMMER2_FREEMAP_LEVELN_PSIZE * HAMMER2_FREEMAP_LEVEL1_SIZE.

Definition bulkfree_sstop (total_size sbase incr : Z) : Z :=
  if total_size - sbase <=? incr then total_size else sbase + incr.

(** The tables of the device and the state that lives through the windows. *)
Record pass_state := mkPass {
  ps_dev : fm_dev;
  ps_stats : sync_stats;
  ps_calls : nat;
  ps_signaled : bool;
  ps_list_count_max : Z;
  ps_dedup_factor : Z
}.

Definition stat_reset_adj (s : sync_stats) : sync_stats :=
  mkStats (st_10_00 s) (st_11_10 s) (st_00_11 s) (st_01_11 s) (st_10_11 s) (st_l0cleans s)
    (st_linadjusts s) 0 (st_dedup_delete s) (st_dedup_assert s).

Section Pass.
Variable io : chain_io.
Variable icrc32 : Z -> Z.
Variable pending : nat -> bool.
Variables hammer2_limit_scan_depth hammer2_limit_saved_chains : Z.

(** The topology scan of the window [sbase, sstop) and what it left deferred. *)
Definition window_scan (fuel : nat) (vchain : chain) (p : pass_state) (size sbase sstop : Z)
    : option (bulkfree_info gather_state * Z) :=
  let d := ps_dev p in
  let func := bulkfree_func pending (hd_allocator_beg d) (hd_total_size d) sbase sstop in
  let bmaps := cbinfo_bmap_init (hd_allocator_beg d) (hd_total_size d) sbase
                 (Z.to_nat (size / 128)) in
  let i := mkInfo (mkGather bmaps (ps_calls p) (ps_signaled p)) ∅ 0 0 [] 0 (ps_list_count_max p)
             None 0 0 0 0 0 (ps_dedup_factor p) in
  '(i, error) ← hammer2_bulkfree_scan icrc32 func hammer2_limit_scan_depth
                  hammer2_limit_saved_chains fuel vchain i;
  drain_list icrc32 func hammer2_limit_scan_depth hammer2_limit_saved_chains
    (S fuel) fuel i error.

(** One iteration of the loop of hammer2_bulkfree_pass(), without the step to
    the next window. *)
Definition pass_window (fuel : nat) (vchain : chain) (p : pass_state) (size sbase sstop : Z)
    : option (pass_state * Z) :=
  '(i, error) ← window_scan fuel vchain p size sbase sstop;
  let g := bi_st i in
  let p := mkPass (ps_dev p) (ps_stats p) (gs_calls g) (gs_signaled g)
             (bi_list_count_max i) (bi_dedup_factor i) in
  if nz (error &~ HAMMER2_ERROR_CHECK) then Some (p, error)
  else
    '(d, s, error) ← h2_bulkfree_sync io (gs_bmap g) (ps_dev p) sbase sstop (ps_stats p);
    Some (mkPass (dev_add_free d (st_adj_free s)) s (ps_calls p) (ps_signaled p)
            (ps_list_count_max p) (ps_dedup_factor p), error).

(** [while (cbinfo.sbase < hmp->total_size)]: also [bfi->sstop] and the error. *)
Fixpoint pass_loop (n fuel : nat) (vchain : chain) (p : pass_state) (size sbase error : Z)
    : option (pass_state * Z * Z) :=
  match n with
  | O => None
  | S m =>
      let total_size := hd_total_size (ps_dev p) in
      if total_size <=? sbase then Some (p, sbase, error)
      else
        let sstop := bulkfree_sstop total_size sbase (bulkfree_incr size) in
        '(p, error) ← pass_window fuel vchain p size sbase sstop;
        if nz (error &~ HAMMER2_ERROR_CHECK) then Some (p, sbase, error)
        else
          pass_loop m fuel vchain
            (mkPass (ps_dev p) (stat_reset_adj (ps_stats p)) (ps_calls p) (ps_signaled p)
               (ps_list_count_max p) (ps_dedup_factor p)) size sstop error
  end.

Definition hammer2_bulkfree_pass (n fuel : nat) (d : fm_dev) (vchain : chain)
    (bfi_size bfi_sbase : Z) : option (pass_state * Z * Z) :=
  let size := bulkfree_size bfi_size (hd_total_size d) in
  let sbase := bulkfree_sbase bfi_sbase (hd_total_size d) in
  pass_loop n fuel vchain (mkPass d stats_zero 0 false 0 0) size sbase 0.

End Pass.

End Pass.
