(* ===== verification/BulkfreeScan.v ===== *)
(** The topology scan of bulkfree: it ends, and it reaches every blockref of
    the topology although it skips what its dedup table remembers and defers
    what is too deep. *)
From S2P Require Import Prelude Disk Subr Bmap Freemap Bulkfree BulkfreePass.
From Stdlib Require Import ZArith Lia Bool.
From stdpp Require Import base list gmap.
Import Dedup TopoScan.
Open Scope Z_scope.

(** ** The dedup table *)

Section Table.
Variable icrc32 : Z -> Z.

(** The offsets the table remembers. *)
Definition in_table (t : dedup_table) (o : Z) : Prop := exists k, dd_data_off (dd_get t k) = o.

Lemma test_loop_spec n t base o i best :
  match test_loop n t base o i best with
  | inl j => i <= j < i + Z.of_nat n /\ dd_data_off (dd_get t (base + j)) = o
  | inr b => (b = best \/ i <= b < i + Z.of_nat n) /\
             forall j, i <= j < i + Z.of_nat n -> dd_data_off (dd_get t (base + j)) <> o
  end.
Proof.
  revert i best. induction n as [|n IH]; intros i best; cbn [test_loop].
  { split; [by left|lia]. }
  destruct (Z.eqb_spec (dd_data_off (dd_get t (base + i))) o) as [E|E]; [split; [lia|done]|].
  set (b := if _ <? _ then i else best).
  specialize (IH (i + 1) b). destruct (test_loop _ _ _ _ _ _) as [j|b'].
  - split; [lia|apply IH].
  - destruct IH as [Hb Hj]. split.
    + subst b. destruct Hb as [->|]; [|lia]. destruct (_ <? _); [right; lia|by left].
    + intros j Hjj. destruct (decide (j = i)) as [->|]; [done|]. apply Hj. lia.
Qed.

Lemma dd_get_insert t k d j : dd_get (<[k := d]> t) j = if decide (k = j) then d else dd_get t j.
Proof. unfold dd_get. rewrite lookup_insert. by case_decide. Qed.

(** A hit means that the offset was in the table; otherwise it is now, and
    nothing else is that was not. *)
Lemma test_table t o pri e t' factor res :
  h2_bulkfree_test icrc32 t o pri e = (t', factor, res) ->
  (res <> 0 -> in_table t o) /\ (forall o', in_table t' o' -> o' = o \/ in_table t o').
Proof.
  unfold h2_bulkfree_test. pose proof (test_loop_spec 8 t (dedup_base icrc32 o) o 0 0) as H.
  destruct (test_loop _ _ _ _ _ _) as [j|b]; intros [= <- <- <-].
  - split; [intros _; eexists; apply H|]. intros o' [k Hk]. rewrite dd_get_insert in Hk.
    right. case_decide; [|by exists k]. cbn in Hk. by exists (dedup_base icrc32 o + j).
  - split; [done|]. intros o' [k Hk]. rewrite dd_get_insert in Hk.
    case_decide; [by left|]. right. by exists k.
Qed.

Lemma in_table_empty o : o <> 0 -> ~ in_table ∅ o.
Proof. intros Ho [k Hk]. unfold dd_get in Hk. rewrite lookup_empty in Hk. by destruct Ho. Qed.

End Table.

(** ** The topology *)

(** A blockref that names a block. *)
Definition has_data (e : entry) : bool := nz (br_data_off (e_bref e) &~ HAMMER2_OFF_MASK_RADIX).
Definition e_off (e : entry) : Z := br_data_off (e_bref e).

(** The chains a scan goes through: of a type that recurses, whose check codes
    are good. *)
Definition scannable (c : chain) : bool :=
  recursive_type (br_type (c_bref c)) && ((c_nodata_error c & HAMMER2_ERROR_CHECK) =? 0) &&
  ((c_error c & HAMMER2_ERROR_CHECK) =? 0).

Fixpoint c_size (c : chain) : nat :=
  let '(Chain _ _ _ _ l) := c in
  S ((fix go l := match l with [] => O | e :: l => (e_size e + go l)%nat end) l)
with e_size (e : entry) : nat :=
  match e with Entry _ (Some c) => c_size c | Entry _ None => O end.

(** Every blockref with data below a chain. *)
Fixpoint c_flat (c : chain) : list entry :=
  if scannable c then
    let '(Chain _ _ _ _ l) := c in
    (fix go l := match l with [] => [] | e :: l => e_flat e ++ go l end) l
  else []
with e_flat (e : entry) : list entry :=
  if has_data e then
    e :: match e with Entry _ (Some c) => c_flat c | Entry _ None => [] end
  else [].

Lemma c_size_eq c : c_size c = S (sum_list_with e_size (c_entries c)).
Proof. by destruct c. Qed.

Lemma c_flat_eq c : c_flat c = if scannable c then mbind e_flat (c_entries c) else [].
Proof.
  destruct c as [b n e k l]. cbn [c_flat c_entries]. destruct (scannable _); [|done].
  induction l as [|x l IH]; [done|]. cbn. by rewrite IH.
Qed.

Lemma e_flat_eq e : e_flat e =
  if has_data e then e :: match e_child e with Some c => c_flat c | None => [] end else [].
Proof. by destruct e as [b [c|]]. Qed.

Lemma e_size_child e c : e_child e = Some c -> e_size e = c_size c.
Proof. by destruct e as [b [d|]]; cbn; intros [= ->]. Qed.

Lemma entry_size c e : e ∈ c_entries c -> (e_size e < c_size c)%nat.
Proof.
  rewrite c_size_eq. induction (c_entries c) as [|x l IH]; [by intros H%elem_of_nil|].
  intros [->|H]%elem_of_cons; cbn; [lia|]. specialize (IH H). lia.
Qed.

Lemma flat_entry c e : scannable c = true -> e ∈ c_entries c -> has_data e = true -> e ∈ c_flat c.
Proof.
  intros Hs He Hd. rewrite c_flat_eq, Hs.
  apply list_elem_of_bind. exists e. split; [|done]. rewrite e_flat_eq, Hd. by left.
Qed.

Lemma flat_child c e c' e' : scannable c = true -> e ∈ c_entries c -> has_data e = true ->
  e_child e = Some c' ->
  e' ∈ c_flat c' -> e' ∈ c_flat c.
Proof.
  intros Hs He Hd Hc He'. rewrite c_flat_eq, Hs.
  apply list_elem_of_bind. exists e. split; [|done]. rewrite e_flat_eq, Hc, Hd. by right.
Qed.

Lemma flat_trans n : forall c e c' e', (c_size c <= n)%nat -> e ∈ c_flat c -> e_child e = Some c' ->
  e' ∈ c_flat c' -> e' ∈ c_flat c.
Proof.
  induction n as [|n IH]; intros c e c' e' Hn He Hc He'; [rewrite c_size_eq in Hn; lia|].
  rewrite c_flat_eq in He. destruct (scannable c) eqn:Hs; [|by apply elem_of_nil in He].
  apply list_elem_of_bind in He as (x & He & Hx). pose proof (entry_size c x Hx) as Hsz.
  rewrite e_flat_eq in He. destruct (has_data x) eqn:Hd; [|by apply elem_of_nil in He].
  apply elem_of_cons in He as [->|He]; [by eapply (flat_child c x c')|].
  destruct (e_child x) as [d|] eqn:Hd'; [|by apply elem_of_nil in He].
  eapply (flat_child c x d); try done. apply (IH d e c' e'); try done.
  rewrite (e_size_child x d Hd') in Hsz. lia.
Qed.

(** ** Termination *)

Section Total.
Context {T : Type} (icrc32 : Z -> Z) (func : T -> hammer2_blockref -> T * Z) (sd sc : Z).
Implicit Type i : bulkfree_info T.
Abbreviation scan := (hammer2_bulkfree_scan icrc32 func sd sc).

(** The chains still to be scanned, by size. *)
Definition weight (l : list chain_save) : nat := sum_list_with (fun s => c_size (sv_chain s)) l.

(** [l] with deferred elements of a total size of at most [w] in front, the
    insertion point among them. *)
Definition grown (l : list chain_save) (w : nat) i : Prop :=
  exists xs, bi_list i = xs ++ l /\ (weight xs <= w)%nat /\
    match bi_backout i with Some b => b ∈ (sv_id <$> xs) | None => True end.

Lemma weight_cons s l : weight (s :: l) = (c_size (sv_chain s) + weight l)%nat.
Proof. done. Qed.

Lemma weight_app l1 l2 : weight (l1 ++ l2) = (weight l1 + weight l2)%nat.
Proof. apply sum_list_with_app. Qed.

Lemma grown_le l w w' i : (w <= w')%nat -> grown l w i -> grown l w' i.
Proof. intros H (xs & E & W & B). exists xs. split; [done|]. split; [lia|done]. Qed.

Lemma insert_after_spec xs l b s : b ∈ (sv_id <$> xs) -> exists ys,
  insert_after (xs ++ l) b s = Some (ys ++ l) /\ weight ys = (c_size (sv_chain s) + weight xs)%nat /\
  sv_id s ∈ (sv_id <$> ys).
Proof.
  induction xs as [|x xs IH]; [by intros H%elem_of_nil|]. intros H. cbn [insert_after app].
  destruct (Nat.eqb_spec (sv_id x) b) as [E|E].
  - exists (x :: s :: xs). split; [done|]. split; [rewrite !weight_cons; lia|]. right. by left.
  - destruct IH as (ys & -> & W & I). { rewrite fmap_cons in H. by apply elem_of_cons in H as [->|H]. }
    exists (x :: ys). split; [done|]. split; [rewrite !weight_cons; lia|]. by right.
Qed.

Lemma defer_grown l w i c : grown l w i -> exists i', defer i c = Some i' /\ grown l (w + c_size c) i'.
Proof.
  intros (xs & E & W & B). unfold defer. rewrite E. destruct (bi_backout i) as [b|] eqn:Eb.
  - destruct (insert_after_spec xs l b (mkSave (bi_next i) c) B) as (ys & -> & Wy & I).
    eexists. split; [reflexivity|]. exists ys. split; [done|]. split; [cbn in Wy; lia|done].
  - eexists. split; [reflexivity|]. exists (mkSave (bi_next i) c :: xs).
    split; [done|]. split; [rewrite weight_cons; cbn; lia|]. cbn. by left.
Qed.

(** What a scan with enough fuel promises. *)
Definition total_at (f : nat) : Prop := forall c i, bi_backout i = None ->
  (c_size c + weight (bi_list i) <= f)%nat ->
  exists i' e, scan f c i = Some (i', e) /\ grown (bi_list i) (c_size c - 1) i'.

Lemma scan_chain_total f l w i c : total_at f -> grown l w i -> (w + c_size c + weight l <= f)%nat ->
  exists i' e, scan_chain sd sc (scan f) i c = Some (i', e) /\ grown l (w + c_size c) i'.
Proof.
  intros Hf Hg Hw. unfold scan_chain.
  destruct (recursive_type _); [|exists i, 0; split; [done|]; apply (grown_le l w); [lia|done]].
  set (i1 := bi_set_depth i _). assert (grown l w i1) as Hg1 by exact Hg.
  destruct (nz _). { do 2 eexists. split; [reflexivity|]. apply (grown_le l w); [lia|done]. }
  destruct (must_defer sd sc i1) eqn:Hd.
  { destruct (defer_grown l w i1 c Hg1) as (i2 & -> & Hg2). do 2 eexists. split; [reflexivity|]. done. }
  assert (bi_backout i = None) as Hb.
  { unfold must_defer in Hd. destruct (bi_backout i1) eqn:E; [|done].
    apply orb_false_iff in Hd as [Hd _]. apply orb_false_iff in Hd as [_ Hd]. done. }
  destruct Hg as (xs & E & W & B).
  destruct (Hf c (bi_set_pri i1 0) Hb) as (i2 & e & -> & (ys & Ey & Wy & By)).
  { cbn. rewrite E, weight_app. lia. }
  do 2 eexists. split; [reflexivity|]. exists (ys ++ xs). cbn in *. rewrite Ey, E, app_assoc.
  split; [done|]. rewrite weight_app. rewrite (c_size_eq c) in *. split; [lia|].
  destruct (bi_backout i2); [|done]. rewrite fmap_app. apply elem_of_app. by left.
Qed.

Lemma bi_test_frame i b pri e i' r : bi_test icrc32 i b pri e = (i', r) ->
  bi_list i' = bi_list i /\ bi_backout i' = bi_backout i /\ bi_st i' = bi_st i.
Proof. unfold bi_test. destruct (h2_bulkfree_test _ _ _ _ _) as [[t f] x]. by intros [= <- <-]. Qed.

Lemma grown_frame l w i i' : bi_list i' = bi_list i -> bi_backout i' = bi_backout i ->
  grown l w i -> grown l w i'.
Proof. intros E1 E2 H. unfold grown. by rewrite E1, E2. Qed.

Lemma scan_entry_total f l w i x e r : total_at f -> grown l w i -> (w + e_size x + weight l <= f)%nat ->
  exists i' e' r' b, scan_entry icrc32 func sd sc (scan f) i x e r = Some (i', e', r', b) /\
    grown l (w + e_size x) i'.
Proof.
  intros Hf Hg Hw. unfold scan_entry.
  set (i1 := if br_type _ =? HAMMER2_BREF_TYPE_DIRENT then _ else _).
  assert (grown l w i1) as Hg1 by (subst i1; by destruct (_ =? _)).
  assert (grown l (w + e_size x) i1) as Hg1' by (apply (grown_le l w); [lia|done]).
  destruct (_ =? 0); [by eauto 10|].
  destruct (bi_test _ _ _ _ _) as [i2 e2] eqn:Et. apply bi_test_frame in Et as (L & Bk & _).
  assert (forall w, grown l w i1 -> grown l w i2) as Hfr by (intros w'; by apply grown_frame).
  destruct (nz e2); [by eauto 10|].
  set (i3 := if br_type _ =? HAMMER2_BREF_TYPE_INODE then _ else _).
  destruct (func (bi_st i3) _) as [st fe].
  assert (forall w, grown l w i2 -> grown l w (bi_set_st i3 st)) as Hfr3
    by (intros w' H; subst i3; clearbody i1; destruct (br_type _ =? HAMMER2_BREF_TYPE_INODE); exact H).
  destruct (nz _); [by eauto 10|].
  destruct (e_child x) as [c|] eqn:Ec; [|by eauto 10].
  rewrite (e_size_child x c Ec) in *.
  destruct (scan_chain_total f l w (bi_count (bi_set_st i3 st) 0 0 (c_bytes c) 1) c Hf) as (i4 & re & -> & Hg4);
    [by apply Hfr3, Hfr|done|]. cbn. eauto 10.
Qed.

Lemma scan_loop_total f l es : forall w i e r, total_at f -> grown l w i ->
  (w + sum_list_with e_size es + weight l <= f)%nat ->
  exists i' e' r', scan_loop icrc32 func sd sc (scan f) i es e r = Some (i', e', r') /\
    grown l (w + sum_list_with e_size es) i'.
Proof.
  induction es as [|x es IH]; intros w i e r Hf Hg Hw; cbn [scan_loop sum_list_with] in *.
  { do 3 eexists. split; [reflexivity|]. apply (grown_le l w); [lia|done]. }
  destruct (nz _). { do 3 eexists. split; [reflexivity|]. apply (grown_le l w); [lia|done]. }
  destruct (scan_entry_total f l w i x e r Hf Hg) as (i1 & e1 & r1 & b & -> & Hg1); [lia|]. cbn.
  destruct b.
  - do 3 eexists. split; [reflexivity|]. apply (grown_le l (w + e_size x)); [lia|done].
  - destruct (IH (w + e_size x)%nat i1 e1 r1 Hf Hg1) as (i2 & e2 & r2 & -> & Hg2); [lia|].
    do 3 eexists. split; [reflexivity|]. by rewrite Nat.add_assoc.
Qed.

Lemma drain_pfs_total f l n : forall w i r, total_at f -> grown l w i -> (w + weight l <= f)%nat ->
  (w < n)%nat -> exists i' r', drain_pfs n (scan f) i (sv_id <$> head l) r = Some (i', r') /\ grown l w i'.
Proof.
  induction n as [|n IH]; intros w i r Hf Hg Hw Hn; [lia|]. cbn [drain_pfs].
  case_bool_decide as Hh; [by eauto|]. destruct Hg as (xs & E & W & B).
  destruct xs as [|x xs]; [by rewrite E in Hh|]. rewrite E. cbn [app]. rewrite weight_cons in W.
  pose proof (c_size_eq (sv_chain x)) as Hp.
  destruct (Hf (sv_chain x) (bi_pop i (xs ++ l) 0) eq_refl) as (i1 & e & -> & (ys & Ey & Wy & By)).
  { cbn. rewrite weight_app. lia. }
  cbn. destruct (IH (w - 1)%nat (bi_set_pri i1 (bi_pri i)) (r ||| e) Hf) as (i2 & r2 & -> & Hg2);
    [|lia|lia|].
  - exists (ys ++ xs). cbn in *. rewrite Ey, app_assoc. split; [done|]. rewrite weight_app.
    split; [lia|]. destruct (bi_backout i1); [|done].
    rewrite fmap_app. apply elem_of_app. by left.
  - do 2 eexists. split; [reflexivity|]. apply (grown_le l (w - 1)); [lia|done].
Qed.

Lemma scan_finish_grown l w i c e r i' x : grown l w i -> scan_finish icrc32 i c e r = (i', x) ->
  grown l w i'.
Proof.
  unfold scan_finish. destruct (bi_test _ _ _ _ _) as [i1 y] eqn:Et.
  apply bi_test_frame in Et as (L & Bk & _). intros H [= <- _]. by apply (grown_frame l w i).
Qed.

Lemma scan_total f : total_at f.
Proof.
  induction f as [|f IH]; intros c i Hb Hw; [rewrite c_size_eq in Hw; lia|].
  cbn [hammer2_bulkfree_scan]. set (i0 := bi_set_pri i _).
  assert (forall w, grown (bi_list i) w i0) as Hg0.
  { intros w. exists []. split; [done|]. split; [cbn; lia|]. cbn. by rewrite Hb. }
  destruct (nz _); [by eauto|].
  assert (exists i1 e r, (if nz (c_error c) then Some (i0, c_error c, 0)
    else scan_loop icrc32 func sd sc (scan f) i0 (c_entries c) 0 0) = Some (i1, e, r) /\
    grown (bi_list i) (c_size c - 1) i1) as (i1 & e & r & -> & Hg1).
  { rewrite c_size_eq in *. destruct (nz _); [by eauto 10|].
    destruct (scan_loop_total f (bi_list i) (c_entries c) 0 i0 0 0 IH (Hg0 0%nat)) as (i1 & e & r & -> & Hg);
      [lia|]. do 3 eexists. split; [reflexivity|]. eapply grown_le; [|done]. lia. }
  cbn [mbind option_bind].
  assert (exists i2 r2, (if is_pfsroot (c_bref c)
    then drain_pfs (S f) (scan f) i1 (sv_id <$> head (bi_list i0)) r else Some (i1, r)) = Some (i2, r2) /\
    grown (bi_list i) (c_size c - 1) i2) as (i2 & r2 & -> & Hg2).
  { pose proof (c_size_eq c). destruct (is_pfsroot _); [|by eauto].
    apply (drain_pfs_total f (bi_list i)); [done|done|lia|lia]. }
  cbn [mbind option_bind]. destruct (scan_finish icrc32 i2 c e r2) as [i3 x] eqn:Ef.
  do 2 eexists. split; [reflexivity|]. by eapply scan_finish_grown.
Qed.

Lemma drain_list_total f n : forall i e, bi_backout i = None \/ bi_list i <> [] ->
  (weight (bi_list i) <= f)%nat -> (weight (bi_list i) < n)%nat ->
  exists i' e', drain_list icrc32 func sd sc n f i e = Some (i', e').
Proof.
  induction n as [|n IH]; intros i e Hb Hw Hn; [lia|]. cbn [drain_list].
  destruct (bi_list i) as [|s l] eqn:E; [by eauto|]. destruct (nz _); [by eauto|].
  rewrite weight_cons in Hw, Hn. pose proof (c_size_eq (sv_chain s)).
  destruct (scan_total f (sv_chain s) (bi_pop i l 0) eq_refl) as (i1 & e1 & -> & (ys & Ey & Wy & By)).
  { change (bi_list (bi_pop i l 0)) with l. lia. }
  change (bi_list (bi_pop i l 0)) with l in *. cbn [mbind option_bind].
  assert (weight (bi_list i1) <= weight l + c_size (sv_chain s) - 1)%nat as Hw1
    by (rewrite Ey, weight_app; lia).
  apply IH; [|lia..].
  destruct (bi_backout i1) eqn:Eb; [right|by left]. rewrite Ey.
  destruct ys; [by apply elem_of_nil in By|done].
Qed.

End Total.

(** ** Coverage *)

(** The bits of an error that do not stop a pass. *)
Definition benign (e : Z) : Prop := e &~ (HAMMER2_ERROR_CHECK ||| HAMMER2_ERROR_EOF) = 0.


Lemma testbit_check n : 0 <= n -> Z.testbit HAMMER2_ERROR_CHECK n = (1 =? n).
Proof. intros. change HAMMER2_ERROR_CHECK with (2 ^ 1). by rewrite Z.pow2_bits_eqb by lia. Qed.

Lemma testbit_eof n : 0 <= n -> Z.testbit HAMMER2_ERROR_EOF n = (13 =? n).
Proof. intros. change HAMMER2_ERROR_EOF with (2 ^ 13). by rewrite Z.pow2_bits_eqb by lia. Qed.

Lemma zero_bits a : a = 0 <-> forall n, 0 <= n -> Z.testbit a n = false.
Proof.
  split; [intros -> n _; apply Z.bits_0|]. intros H. apply Z.bits_inj'. intros n Hn.
  by rewrite Z.bits_0, H.
Qed.

Lemma benign_bits e : benign e <-> forall n, 0 <= n -> Z.testbit e n = true -> n = 1 \/ n = 13.
Proof.
  unfold benign. rewrite zero_bits. split; intros H n Hn.
  - specialize (H n Hn). rewrite Z.ldiff_spec, Z.lor_spec, testbit_check, testbit_eof in H by done.
    intros E. rewrite E in H. destruct (Z.eqb_spec 1 n), (Z.eqb_spec 13 n); cbn in H; done || lia.
  - specialize (H n Hn). rewrite Z.ldiff_spec, Z.lor_spec, testbit_check, testbit_eof by done.
    destruct (Z.testbit e n); [|done]. destruct (H eq_refl) as [->| ->]; done.
Qed.

Lemma benign_or a b : benign (a ||| b) <-> benign a /\ benign b.
Proof.
  rewrite !benign_bits. setoid_rewrite Z.lor_spec. setoid_rewrite orb_true_iff.
  split; [intros H; split|intros [H1 H2] n Hn [|]]; eauto.
Qed.

Lemma benign_ldiff a : benign (a &~ HAMMER2_ERROR_EOF) <-> benign a.
Proof.
  rewrite !benign_bits. split; intros H n Hn; specialize (H n Hn); rewrite Z.ldiff_spec, testbit_eof in * by done;
    destruct (Z.eqb_spec 13 n), (Z.testbit a n); cbn in *; naive_solver.
Qed.

Lemma benign_check a : a &~ HAMMER2_ERROR_CHECK = 0 -> benign a.
Proof.
  rewrite benign_bits, zero_bits. intros H n Hn E. specialize (H n Hn).
  rewrite Z.ldiff_spec, testbit_check, E in H by done. destruct (Z.eqb_spec 1 n); [by left|done].
Qed.

(** [error] without the EOF bit, as it is inside the loop. *)
Definition no_eof (e : Z) : Prop := Z.testbit e 13 = false.

Lemma check_benign a : benign a -> no_eof a -> a &~ HAMMER2_ERROR_CHECK = 0.
Proof.
  rewrite benign_bits, zero_bits. unfold no_eof. intros H E n Hn.
  rewrite Z.ldiff_spec, testbit_check by done. destruct (Z.testbit a n) eqn:En; [|done].
  destruct (H n Hn En) as [->| ->]; [done|congruence].
Qed.

Lemma benign_aborted e : benign e -> e & HAMMER2_ERROR_ABORTED = 0.
Proof.
  rewrite benign_bits, zero_bits. intros H n Hn. rewrite Z.land_spec.
  destruct (Z.testbit e n) eqn:En; [|done]. by destruct (H n Hn En) as [->| ->].
Qed.

(** What a callback is to a scan: it returns 0 or HAMMER2_ERROR_ABORTED, and
    once it returned 0 for a blockref what it is for holds and stays; [ok] is an
    invariant of its state, [good] what it expects of a blockref. *)
Class ScanCallback {T : Type} (func : T -> hammer2_blockref -> T * Z) (good : hammer2_blockref -> Prop)
    (ok : T -> Prop) (seen : T -> Z -> Prop) := {
  cb_ok : forall s b s' e, good b -> ok s -> func s b = (s', e) -> ok s';
  cb_error : forall s b s' e, func s b = (s', e) -> e = 0 \/ e = HAMMER2_ERROR_ABORTED;
  cb_seen : forall s b s', good b -> ok s -> func s b = (s', 0) -> seen s' (br_data_off b);
  cb_mono : forall s b s' e o, good b -> ok s -> func s b = (s', e) -> seen s o -> seen s' o
}.

Section Coverage.
Context {T : Type} (icrc32 : Z -> Z) (func : T -> hammer2_blockref -> T * Z) (sd sc : Z).
Context (good : hammer2_blockref -> Prop) (ok : T -> Prop) (seen : T -> Z -> Prop).
Context `{!ScanCallback func good ok seen}.
Implicit Type i : bulkfree_info T.
Abbreviation scan := (hammer2_bulkfree_scan icrc32 func sd sc).

(** Every blockref below a chain is seen, except below the chains [Q] that are
    still to be scanned and below those that cannot be. *)
Inductive cov (s : T) (Q : list chain) : chain -> Prop :=
  | cov_pending c : c ∈ Q -> cov s Q c
  | cov_skip c : scannable c = false -> cov s Q c
  | cov_done c :
      (forall e, e ∈ c_entries c -> has_data e = true -> seen s (e_off e)) ->
      (forall e c', e ∈ c_entries c -> has_data e = true -> e_child e = Some c' -> cov s Q c') ->
      cov s Q c.

Lemma cov_mono s Q s' Q' c : (forall o, seen s o -> seen s' o) -> Q ⊆ Q' -> cov s Q c -> cov s' Q' c.
Proof.
  intros Hs HQ. induction 1 as [c H|c H|c H1 H2 IH]; [apply cov_pending; set_solver|by apply cov_skip|].
  apply cov_done; [by eauto|]. intros. by eapply IH.
Qed.

(** A chain is not below itself. *)
Lemma cov_below s Q t c : (c_size c < c_size t)%nat -> cov s (t :: Q) c -> cov s Q c.
Proof.
  intros Hc. induction 1 as [c H|c H|c H1 H2 IH]; [|by apply cov_skip|].
  - apply elem_of_cons in H as [->|H]; [lia|by apply cov_pending].
  - apply cov_done; [done|]. intros e c' He Hd Hch. eapply IH; try done.
    pose proof (entry_size c e He). rewrite (e_size_child e c' Hch) in *. lia.
Qed.

Lemma cov_cut s Q t c : cov s Q t -> cov s (t :: Q) c -> cov s Q c.
Proof.
  intros Ht. induction 1 as [c H|c H|c H1 H2 IH]; [|by apply cov_skip|by apply cov_done].
  apply elem_of_cons in H as [->|H]; [done|by apply cov_pending].
Qed.

Lemma cov_flat n : forall s c e, (c_size c <= n)%nat -> cov s [] c -> e ∈ c_flat c -> seen s (e_off e).
Proof.
  induction n as [|n IH]; intros s c e Hn Hc He; [rewrite c_size_eq in Hn; lia|].
  rewrite c_flat_eq in He. destruct (scannable c) eqn:Hs; [|by apply elem_of_nil in He].
  destruct Hc as [c H|c H|c H1 H2]; [by apply elem_of_nil in H|congruence|].
  apply list_elem_of_bind in He as (x & He & Hx). pose proof (entry_size c x Hx) as Hsz.
  rewrite e_flat_eq in He. destruct (has_data x) eqn:Hd; [|by apply elem_of_nil in He].
  apply elem_of_cons in He as [->|He]; [by apply H1|].
  destruct (e_child x) as [d|] eqn:Hd'; [|by apply elem_of_nil in He].
  rewrite (e_size_child x d Hd') in Hsz. eapply (IH s d); [lia|by eapply H2|done].
Qed.

(** The blockrefs of the topology: one block has one content, and a chain is
    that of its blockref. *)
Context (U : entry -> Prop).
Hypothesis U_below : forall e c e', U e -> e_child e = Some c -> scannable c = true ->
  e' ∈ c_entries c -> has_data e' = true -> U e'.
Hypothesis U_good : forall e, U e -> good (e_bref e).
Hypothesis U_same : forall e1 e2, U e1 -> U e2 -> e_off e1 = e_off e2 -> e_child e1 = e_child e2.
Hypothesis U_chain : forall e c, U e -> e_child e = Some c ->
  br_data_off (c_bref c) = e_off e /\ no_eof (c_error c).

Definition pending i : list chain := sv_chain <$> bi_list i.

(** A chain whose scan may begin. *)
Definition ready (s : T) (c : chain) : Prop :=
  (scannable c = true -> forall e, e ∈ c_entries c -> has_data e = true -> U e) /\
  no_eof (c_error c) /\ c_nodata_error c & HAMMER2_ERROR_CHECK = 0 /\
  recursive_type (br_type (c_bref c)) = true /\
  forall e, U e -> e_off e = br_data_off (c_bref c) -> seen s (e_off e) /\ e_child e = Some c.

(** The invariant with the chains [A] being scanned: what the table remembers
    has been seen, and so will be what is below it. *)
Record scan_inv (A : list chain) i : Prop := {
  si_table : forall e, U e -> in_table (bi_dedup i) (e_off e) ->
    seen (bi_st i) (e_off e) /\ forall c, e_child e = Some c -> cov (bi_st i) (A ++ pending i) c;
  si_list : forall c, c ∈ pending i -> ready (bi_st i) c;
  si_ok : ok (bi_st i)
}.

(** What was covered with [A] stays covered with [A']. *)
Definition keeps (A A' : list chain) i i' : Prop :=
  (forall o, seen (bi_st i) o -> seen (bi_st i') o) /\
  forall c, cov (bi_st i) (A ++ pending i) c -> cov (bi_st i') (A' ++ pending i') c.

Lemma keeps_trans A B C i j k : keeps A B i j -> keeps B C j k -> keeps A C i k.
Proof. intros [S1 K1] [S2 K2]. split; auto. Qed.

Lemma ready_mono s s' c : (forall o, seen s o -> seen s' o) -> ready s c -> ready s' c.
Proof.
  intros Hs (H1 & H2 & H3 & H4 & H5). split_and!; try done. intros e He Ho. destruct (H5 e He Ho). auto.
Qed.

(** A step that changes neither the table nor the list. *)
Lemma inv_frame A i i' : bi_dedup i' = bi_dedup i -> bi_list i' = bi_list i -> bi_st i' = bi_st i ->
  scan_inv A i -> scan_inv A i' /\ keeps A A i i'.
Proof.
  intros E1 E2 E3 [Ht Hl Hok]. assert (pending i' = pending i) as Ep by (unfold pending; by rewrite E2).
  split; [split|split]; rewrite ?E1, ?E3, ?Ep; done.
Qed.

Lemma inv_same A i i' : bi_dedup i' = bi_dedup i -> bi_list i' = bi_list i -> bi_st i' = bi_st i ->
  scan_inv A i -> scan_inv A i'.
Proof. intros. by apply (inv_frame A i i'). Qed.

Lemma inv_keeps A A' i i' : (forall o, seen (bi_st i) o -> seen (bi_st i') o) ->
  keeps A A' i i' -> (forall e, U e -> in_table (bi_dedup i') (e_off e) -> in_table (bi_dedup i) (e_off e)) ->
  (forall c, c ∈ pending i' -> ready (bi_st i') c) -> ok (bi_st i') -> scan_inv A i -> scan_inv A' i'.
Proof.
  intros Hs [_ K] Ht Hl Hok [H _ _]. split; [|done|done]. intros e He Hin. destruct (H e He (Ht e He Hin)) as [H1 H2].
  split; [by apply Hs|]. intros c Hc. by apply K, H2.
Qed.

(** A chain that is covered need not be pending. *)
Lemma inv_cut A i c : cov (bi_st i) (A ++ pending i) c -> scan_inv (c :: A) i ->
  scan_inv A i /\ keeps (c :: A) A i i.
Proof.
  intros Hc Hi. assert (keeps (c :: A) A i i) as K by (split; [done|]; intros d; by apply cov_cut).
  split; [|done]. apply (inv_keeps (c :: A) A i i); try done; apply Hi.
Qed.

(** A call of h2_bulkfree_test() for a blockref whose block is accounted for. *)
Lemma test_inv A i b pri er i' r : bi_test icrc32 i b pri er = (i', r) ->
  (forall e, U e -> e_off e = br_data_off b -> seen (bi_st i) (e_off e) /\
     forall c, e_child e = Some c -> cov (bi_st i) (A ++ pending i) c) ->
  scan_inv A i -> scan_inv A i' /\ keeps A A i i'.
Proof.
  intros E H [Ht Hl Hok]. unfold bi_test in E.
  destruct (h2_bulkfree_test _ _ _ _ _) as [[t fa] x] eqn:Et. injection E as <- _.
  apply test_table in Et as [_ Hin]. split; [split|done]; [|exact Hl|exact Hok].
  intros e He Hi. destruct (Hin _ Hi) as [Ho|Ho]; [by apply H|by apply Ht].
Qed.

Lemma insert_after_elem l b s l' x : insert_after l b s = Some l' -> x ∈ l' <-> x = s \/ x ∈ l.
Proof.
  revert l'. induction l as [|y l IH]; intros l'; [done|]. cbn.
  destruct (Nat.eqb _ _); [intros [= <-]; rewrite !elem_of_cons; tauto|].
  destruct (insert_after l b s) as [m|]; [|done]. intros [= <-].
  rewrite !elem_of_cons, (IH m) by done. tauto.
Qed.

Lemma defer_spec i c i' : defer i c = Some i' ->
  bi_st i' = bi_st i /\ bi_dedup i' = bi_dedup i /\ forall d, d ∈ pending i' <-> d = c \/ d ∈ pending i.
Proof.
  unfold defer. destruct (match bi_backout i with Some _ => _ | None => _ end) as [l|] eqn:E; [|done].
  intros [= <-]. split; [done|]. split; [done|]. intros d. unfold pending. cbn.
  assert (forall x, x ∈ l <-> x = mkSave (bi_next i) c \/ x ∈ bi_list i) as H.
  { intros x. destruct (bi_backout i); [by apply (insert_after_elem _ n)|]. injection E as <-.
    apply elem_of_cons. }
  rewrite !list_elem_of_fmap. split.
  - intros (x & -> & Hx). apply H in Hx as [->|]; eauto.
  - intros [->|(x & -> & Hx)]; [exists (mkSave (bi_next i) c)|exists x]; rewrite H; auto.
Qed.

Lemma defer_inv A i c i' : defer i c = Some i' -> ready (bi_st i) c -> scan_inv (c :: A) i ->
  scan_inv A i' /\ keeps (c :: A) A i i'.
Proof.
  intros (E1 & E2 & Hp)%defer_spec Hr Hi.
  assert (keeps (c :: A) A i i') as K.
  { split; [by rewrite E1|]. intros d. rewrite E1. apply cov_mono; [done|].
    intros x Hx. rewrite elem_of_app, Hp. apply elem_of_app in Hx as [[->|]%elem_of_cons|]; tauto. }
  split; [|done]. apply (inv_keeps (c :: A) A i i'); try done; [by rewrite E1|by rewrite E2| |rewrite E1; apply Hi].
  intros d Hd. rewrite E1. apply Hp in Hd as [->|Hd]; [done|by apply Hi].
Qed.

Definition child_ok (s : T) (c : chain) : Prop := exists x, U x /\ e_child x = Some c /\ seen s (e_off x).

Lemma ready_child s c : child_ok s c -> recursive_type (br_type (c_bref c)) = true ->
  c_nodata_error c & HAMMER2_ERROR_CHECK = 0 -> ready s c.
Proof.
  intros (x & Hx & Hc & Hs) Hr Hn. destruct (U_chain x c Hx Hc) as [Ho He].
  split_and!; try done.
  - intros Hsc e Hin Hd. by eapply U_below.
  - intros e Hu E. rewrite Ho in E. rewrite E. split; [done|]. rewrite <- Hc. by apply U_same.
Qed.

(** What a scan promises to the one that calls it. *)
Definition covers_at (f : nat) : Prop := forall t A i i' e, scan f t i = Some (i', e) -> benign e ->
  ready (bi_st i) t -> scan_inv (t :: A) i -> scan_inv A i' /\ keeps (t :: A) A i i'.

Lemma scan_chain_covers f A i c i' re : covers_at f -> scan_chain sd sc (scan f) i c = Some (i', re) ->
  benign re -> child_ok (bi_st i) c -> scan_inv (c :: A) i -> scan_inv A i' /\ keeps (c :: A) A i i'.
Proof.
  intros Hf E Hb Hc Hi. unfold scan_chain in E.
  destruct (recursive_type _) eqn:Hr.
  2: { injection E as <- <-. apply inv_cut; [|done]. apply cov_skip. unfold scannable. by rewrite Hr. }
  set (i1 := bi_set_depth i _) in *. assert (scan_inv (c :: A) i1) as Hi1 by exact (inv_same _ i i1 eq_refl eq_refl eq_refl Hi).
  destruct (nz_spec (c_nodata_error c & HAMMER2_ERROR_CHECK)) as [Hn|Hn].
  { injection E as <- <-.
    destruct (inv_cut A i c) as [I K]; [|done|split; [by apply (inv_same _ i)|exact K]].
    apply cov_skip. unfold scannable.
    destruct (Z.eqb_spec (c_nodata_error c & HAMMER2_ERROR_CHECK) 0); [done|]. by rewrite andb_false_r. }
  assert (ready (bi_st i) c) as Hrd by (apply ready_child; [done|done|lia]).
  destruct (must_defer sd sc i1).
  - destruct (defer i1 c) as [i2|] eqn:Ed; [|done]. injection E as <- <-.
    destruct (defer_inv A i1 c i2 Ed Hrd Hi1) as [I K].
    split; [by apply (inv_same _ i2)|exact K].
  - destruct (scan f c _) as [[i2 e2]|] eqn:Es; [|done]. injection E as <- <-.
    destruct (Hf c A _ i2 e2 Es Hb Hrd) as [I K]; [by apply (inv_same _ i)|].
    split; [by apply (inv_same _ i2)|exact K].
Qed.

(** An entry that has been dealt with. *)
Definition entry_done (Q : list chain) (s : T) (x : entry) : Prop :=
  has_data x = true -> seen s (e_off x) /\ forall c, e_child x = Some c -> cov s Q c.

Lemma entry_done_keeps A i i' x : keeps A A i i' ->
  entry_done (A ++ pending i) (bi_st i) x -> entry_done (A ++ pending i') (bi_st i') x.
Proof. intros [Hs K] H Hd. destruct (H Hd) as [H1 H2]. split; [by apply Hs|]. intros c Hc. by apply K, H2. Qed.

Lemma no_eof_or a b : no_eof a -> no_eof b -> no_eof (a ||| b).
Proof. unfold no_eof. intros Ha Hb. by rewrite Z.lor_spec, Ha, Hb. Qed.

Lemma no_eof_ldiff a : no_eof (a &~ HAMMER2_ERROR_EOF).
Proof. unfold no_eof. rewrite Z.ldiff_spec, testbit_eof by done. by rewrite andb_false_r. Qed.

(** The blockref is new to the table: the callback runs, and the chain below
    it, if there is one, is scanned or deferred. *)
Lemma fresh_covers A i x i1 st : U x -> scan_inv A i ->
  (forall e, U e -> in_table (bi_dedup i1) (e_off e) -> e_off e = e_off x \/ in_table (bi_dedup i) (e_off e)) ->
  bi_list i1 = bi_list i -> bi_st i1 = st -> func (bi_st i) (e_bref x) = (st, 0) ->
  scan_inv (match e_child x with Some c => c :: A | None => A end) i1 /\
  keeps A (match e_child x with Some c => c :: A | None => A end) i i1 /\ seen st (e_off x).
Proof.
  intros Hx [Ht Hl Hok] Hin El Es Hf. pose proof (cb_seen _ _ _ (U_good x Hx) Hok Hf) as Hseen. change (br_data_off _) with (e_off x) in Hseen.
  assert (forall o, seen (bi_st i) o -> seen st o) as Hs by (intros o; by apply (cb_mono _ _ _ _ _ (U_good x Hx) Hok Hf)).
  assert (pending i1 = pending i) as Ep by (unfold pending; by rewrite El).
  set (A' := match e_child x with Some _ => _ | None => _ end).
  assert (A ⊆ A') as HA by (subst A'; destruct (e_child x); [by apply list_subseteq_cons|done]).
  assert (forall c, cov (bi_st i) (A ++ pending i) c -> cov st (A' ++ pending i) c) as K
    by (intros c; apply cov_mono; [done|apply list_subseteq_app_iff_l; split; [by apply list_subseteq_app_l|by apply list_subseteq_app_r]]).
  split; [split|split; [split|done]]; rewrite ?Es, ?Ep; try done.
  - intros e He Hi. destruct (Hin e He Hi) as [Ho|Ho].
    + rewrite Ho. split; [done|]. intros c Hc. rewrite (U_same e x He Hx Ho) in Hc.
      subst A'. rewrite Hc. apply cov_pending. by left.
    + destruct (Ht e He Ho). split; auto.
  - intros c Hc. eapply ready_mono; [exact Hs|by apply Hl].
  - exact (cb_ok _ _ _ _ (U_good x Hx) Hok Hf).
Qed.

(** h2_bulkfree_test() for an entry of the topology: a hit is an entry that
    has been dealt with. *)
Lemma test_entry A i x pri er i' r : U x -> scan_inv A i -> bi_test icrc32 i (e_bref x) pri er = (i', r) ->
  bi_list i' = bi_list i /\ bi_st i' = bi_st i /\
  (r <> 0 -> scan_inv A i' /\ keeps A A i i' /\ entry_done (A ++ pending i') (bi_st i') x) /\
  (forall e, U e -> in_table (bi_dedup i') (e_off e) -> e_off e = e_off x \/ in_table (bi_dedup i) (e_off e)).
Proof.
  intros Hx Hi Et. pose proof (bi_test_frame _ _ _ _ _ _ _ Et) as (L & _ & S).
  pose proof (test_inv A i (e_bref x) pri er i' r Et) as Ht.
  unfold bi_test in Et. destruct (h2_bulkfree_test _ _ _ _ _) as [[t fa] z] eqn:Eh. injection Et as <- <-.
  apply test_table in Eh as [Hhit Hin]. split; [done|]. split; [done|]. split; [|by intros e _; apply Hin].
  intros Hz. specialize (Hhit Hz). change (br_data_off (e_bref x)) with (e_off x) in *.
  pose proof (si_table _ _ Hi x Hx Hhit) as Hd.
  destruct Ht as [I K]; [|done|split; [done|split; [done|by intros _]]].
  intros e He Ho. rewrite Ho. split; [apply Hd|]. intros c Hc. apply Hd. rewrite <- Hc. symmetry. by apply U_same.
Qed.

(** The counters of the scan. *)
Lemma count_frame i (c : bool) a b d e : let i' := if c then bi_count i a b d e else i in
  bi_dedup i' = bi_dedup i /\ bi_list i' = bi_list i /\ bi_st i' = bi_st i.
Proof. by destruct c. Qed.

Lemma scan_entry_covers f A i x e r i' e' r' b : covers_at f -> has_data x = false \/ U x ->
  scan_entry icrc32 func sd sc (scan f) i x e r = Some (i', e', r', b) ->
  no_eof e -> benign e' -> benign r' -> scan_inv A i ->
  b = false /\ benign e /\ benign r /\ no_eof e' /\ scan_inv A i' /\ keeps A A i i' /\
  entry_done (A ++ pending i') (bi_st i') x.
Proof.
  intros Hf Hx E Hn Hb Hbr Hi. unfold scan_entry in E.
  destruct (count_frame i (br_type (e_bref x) =? HAMMER2_BREF_TYPE_DIRENT) 0 1 0 0) as (D1 & L1 & S1).
  destruct (inv_frame A i _ D1 L1 S1 Hi) as [Hi1 K1]. revert E.
  generalize dependent (if br_type (e_bref x) =? HAMMER2_BREF_TYPE_DIRENT then bi_count i 0 1 0 0 else i).
  intros i1 D1 L1 S1 Hi1 K1.
  destruct (Z.eqb_spec (br_data_off (e_bref x) &~ HAMMER2_OFF_MASK_RADIX) 0) as [Hz|Hz].
  { intros [= <- <- <- <-]. split_and!; try done. unfold entry_done, has_data. by rewrite Hz. }
  destruct Hx as [Hx|Hx].
  { unfold has_data in Hx. destruct (nz_spec (br_data_off (e_bref x) &~ HAMMER2_OFF_MASK_RADIX)); [done|lia]. }
  apply (inv_same A i1 (bi_set_pri i1 (bi_pri i1 + 1))) in Hi1; try done.
  destruct (bi_test _ _ _ _ _) as [i2 e2] eqn:Et.
  destruct (test_entry A _ x 1 0 i2 e2 Hx Hi1 Et) as (L2 & S2 & Hhit & Hin).
  destruct (nz_spec e2) as [Hnz|Hnz].
  { intros [= <- <- <- <-]. apply benign_or in Hb as [Hbe _]. destruct (Hhit Hnz) as (I2 & K2 & Hd).
    split_and!; try done; [by apply no_eof_or, no_eof_ldiff|]. by eapply (keeps_trans A A A i i1 i2). }
  destruct (count_frame i2 (br_type (e_bref x) =? HAMMER2_BREF_TYPE_INODE) 1 0 0 0) as (D3 & L3 & S3).
  generalize dependent (if br_type (e_bref x) =? HAMMER2_BREF_TYPE_INODE then bi_count i2 1 0 0 0 else i2).
  intros i3 D3 L3 S3. rewrite S3, S2. destruct (func _ _) as [st fe] eqn:Ef.
  assert (benign (e ||| fe) -> fe = 0) as Hfe.
  { intros [_ Hbe]%benign_or. destruct (cb_error _ _ _ _ Ef) as [|E]; [done|].
    subst fe. by apply benign_aborted in Hbe. }
  destruct (nz_spec ((e ||| fe) &~ HAMMER2_ERROR_CHECK)) as [Hne|_].
  { intros [= <- <- <- <-]. pose proof (Hfe Hb). subst fe. rewrite Z.lor_0_r in *.
    by destruct Hne; apply check_benign. }
  assert (forall i4, bi_dedup i4 = bi_dedup i3 -> bi_list i4 = bi_list i3 -> bi_st i4 = st -> fe = 0 ->
    scan_inv (match e_child x with Some c => c :: A | None => A end) i4 /\
    keeps A (match e_child x with Some c => c :: A | None => A end) i i4 /\ seen st (e_off x)) as Hfresh.
  { intros i4 D4 L4 S4 ->. destruct (fresh_covers A _ x i4 st Hx Hi1) as (I4 & K4 & Hs); try done.
    - rewrite D4, D3. exact Hin.
    - by rewrite L4, L3, L2.
    - split; [done|]. split; [|done]. by eapply (keeps_trans A A _ i i1). }
  destruct (e_child x) as [c|] eqn:Ec.
  2: { intros [= <- <- <- <-]. destruct (Hfresh (bi_set_st i3 st)) as (I & K & Hs); try done; [by apply Hfe|].
       pose proof (Hfe Hb). subst fe. rewrite Z.lor_0_r in *. split_and!; try done. intros _. by rewrite Ec. }
  destruct (scan_chain _ _ _ _ _) as [[i5 re]|] eqn:Es; [|done]. intros [= <- <- <- <-].
  apply benign_or in Hbr as [Hbr Hre]. pose proof (Hfe Hb). subst fe. rewrite Z.lor_0_r in *.
  destruct (Hfresh (bi_count (bi_set_st i3 st) 0 0 (c_bytes c) 1)) as (I & K & Hs); try done.
  destruct (scan_chain_covers f A _ c i5 re Hf Es Hre) as [I5 K5]; [by exists x|done|].
  split_and!; try done.
  - destruct (nz_spec ((r ||| re) & HAMMER2_ERROR_ABORTED)) as [Hab|]; [|done]. destruct Hab.
    apply benign_aborted, benign_or. done.
  - by eapply keeps_trans.
  - intros _. split; [by apply K5|]. intros d Hd. rewrite Ec in Hd. injection Hd as <-. apply K5.
    apply cov_pending. by left.
Qed.

(** Errors accumulate. *)
Lemma scan_entry_errors sf i x e r i' e' r' b :
  scan_entry icrc32 func sd sc sf i x e r = Some (i', e', r', b) ->
  (benign e' -> benign e) /\ (benign r' -> benign r).
Proof.
  unfold scan_entry. destruct (_ =? 0); [by intros [= <- <- <- <-]|].
  destruct (bi_test _ _ _ _ _) as [i2 e2]. destruct (nz e2).
  { intros [= <- <- <- <-]. split; [|done]. by intros [? _]%benign_or. }
  destruct (func _ _) as [st fe]. destruct (nz _).
  { intros [= <- <- <- <-]. split; [|done]. by intros [? _]%benign_or. }
  destruct (e_child x) as [c|].
  - destruct (scan_chain _ _ _ _ _) as [[i5 re]|]; [|done]. intros [= <- <- <- <-].
    split; by intros [? _]%benign_or.
  - intros [= <- <- <- <-]. split; [|done]. by intros [? _]%benign_or.
Qed.

Lemma scan_loop_errors sf es : forall i e r i' e' r',
  scan_loop icrc32 func sd sc sf i es e r = Some (i', e', r') ->
  (benign e' -> benign e) /\ (benign r' -> benign r).
Proof.
  induction es as [|x es IH]; intros i e r i' e' r'; cbn [scan_loop].
  { intros [= <- <- <-]. split; [|done]. by intros [? _]%benign_or. }
  destruct (nz _); [by intros [= <- <- <-]|].
  destruct (scan_entry _ _ _ _ _ _ _ _ _) as [[[[i1 e1] r1] b]|] eqn:Ee; [|done]. cbn.
  apply scan_entry_errors in Ee as [He Hr]. destruct b; [by intros [= <- <- <-]|].
  intros [IHe IHr]%IH. auto.
Qed.

Lemma scan_loop_covers f A es : forall i e r i' e' r', covers_at f ->
  (forall x, x ∈ es -> has_data x = true -> U x) ->
  scan_loop icrc32 func sd sc (scan f) i es e r = Some (i', e', r') ->
  no_eof e -> benign e' -> benign r' -> scan_inv A i ->
  scan_inv A i' /\ keeps A A i i' /\ forall x, x ∈ es -> entry_done (A ++ pending i') (bi_st i') x.
Proof.
  induction es as [|x es IH]; intros i e r i' e' r' Hf HU E Hn Hb Hbr Hi; cbn [scan_loop] in E.
  { injection E as <- <- <-. split; [done|]. split; [done|]. by intros x Hx%elem_of_nil. }
  destruct (nz_spec (e &~ HAMMER2_ERROR_CHECK)) as [Hne|_].
  { injection E as <- <- <-. by destruct Hne; apply check_benign. }
  destruct (scan_entry _ _ _ _ _ _ _ _ _) as [[[[i1 e1] r1] b]|] eqn:Ee; [|done]. cbn in E.
  assert (benign e1 /\ benign r1) as [Hb1 Hr1].
  { destruct b; [by injection E as <- <- <-|]. apply scan_loop_errors in E as [He Hr]. auto. }
  destruct (scan_entry_covers f A i x e r i1 e1 r1 b Hf) as (-> & _ & _ & Hn1 & I1 & K1 & Hd); try done.
  { destruct (has_data x) eqn:Ed; [right|by left]. apply HU; [by left|done]. }
  destruct (IH i1 e1 r1 i' e' r' Hf) as (I2 & K2 & Hds); try done.
  { intros y Hy. apply HU. by right. }
  split; [done|]. split; [by eapply keeps_trans|]. intros y [->|Hy]%elem_of_cons; [|by apply Hds].
  by eapply entry_done_keeps.
Qed.

(** The deferred chain at the head of the list is scanned. *)
Lemma pop_covers f A i s l pri i' e : covers_at f -> bi_list i = s :: l -> scan_inv A i ->
  scan f (sv_chain s) (bi_pop i l pri) = Some (i', e) -> benign e -> scan_inv A i' /\ keeps A A i i'.
Proof.
  intros Hf El [Ht Hl Hok] E Hb.
  assert (pending i = sv_chain s :: pending (bi_pop i l pri)) as Ep by (unfold pending; by rewrite El).
  assert (forall c, cov (bi_st i) (A ++ pending i) c <->
    cov (bi_st i) ((sv_chain s :: A) ++ pending (bi_pop i l pri)) c) as Hq.
  { intros c. rewrite Ep. cbn [app]. split; apply cov_mono; try done; intros x; rewrite ?elem_of_cons, ?elem_of_app, ?elem_of_cons; tauto. }
  destruct (Hf (sv_chain s) A _ i' e E Hb) as [I [Ks K]].
  - apply Hl. rewrite Ep. by left.
  - split.
    + intros e0 He0 Hi0. destruct (Ht e0 He0 Hi0) as [H1 H2]. split; [done|]. intros c Hc. by apply Hq, H2.
    + intros c Hc. apply Hl. rewrite Ep. by right.
    + done.
  - split; [done|]. split; [done|]. intros c Hc. by apply K, Hq.
Qed.

Lemma drain_pfs_errors sf n tail : forall i r i' r', drain_pfs n sf i tail r = Some (i', r') ->
  benign r' -> benign r.
Proof.
  induction n as [|n IH]; intros i r i' r' E Hb; [done|]. cbn [drain_pfs] in E.
  case_bool_decide; [by injection E as <- <-|]. destruct (bi_list i) as [|s l]; [done|].
  destruct (sf _ _) as [[i1 re]|]; [|done]. by apply IH in E as [? _]%benign_or.
Qed.

Lemma drain_pfs_covers f A n tail : forall i r i' r', covers_at f ->
  drain_pfs n (scan f) i tail r = Some (i', r') -> benign r' -> scan_inv A i ->
  scan_inv A i' /\ keeps A A i i'.
Proof.
  induction n as [|n IH]; intros i r i' r' Hf E Hb Hi; [done|]. cbn [drain_pfs] in E.
  case_bool_decide; [by injection E as <- <-|]. destruct (bi_list i) as [|s l] eqn:El; [done|].
  destruct (scan f _ _) as [[i1 re]|] eqn:Es; [|done]. cbn in E.
  pose proof (drain_pfs_errors _ _ _ _ _ _ _ E Hb) as [_ Hre]%benign_or.
  destruct (pop_covers f A i s l 0 i1 re Hf El Hi Es Hre) as [I1 K1].
  destruct (IH _ _ _ _ Hf E Hb) as [I2 K2]; [by apply (inv_same A i1)|].
  split; [done|]. by eapply (keeps_trans A A A i i1).
Qed.

(** All entries dealt with: the chain is done. *)
Lemma chain_done A i t : (forall x, x ∈ c_entries t -> entry_done ((t :: A) ++ pending i) (bi_st i) x) ->
  cov (bi_st i) (A ++ pending i) t.
Proof.
  intros H. apply cov_done.
  - intros e He Hd. by apply (H e He Hd).
  - intros e c He Hd Hc. apply (cov_below _ _ t); [|by apply (H e He Hd)].
    pose proof (entry_size t e He). by rewrite (e_size_child e c Hc) in *.
Qed.

Lemma scan_finish_covers A i t e r i' x : scan_finish icrc32 i t e r = (i', x) -> ready (bi_st i) t ->
  cov (bi_st i) (A ++ pending i) t -> scan_inv A i ->
  scan_inv A i' /\ keeps A A i i' /\ (benign x -> benign e /\ benign r).
Proof.
  intros E Hr Hc Hi. unfold scan_finish in E.
  destruct (bi_test _ _ _ _ _) as [i1 y] eqn:Et. injection E as <- <-.
  destruct (test_inv A i (c_bref t) _ _ i1 y Et) as [I K]; [|done|].
  - intros e0 He0 Ho. destruct Hr as (_ & _ & _ & _ & H). destruct (H e0 He0 Ho) as [H1 H2].
    split; [done|]. intros c. rewrite H2. by intros [= <-].
  - split; [done|]. split; [done|]. by rewrite benign_ldiff, benign_or.
Qed.

Lemma scan_covers f : covers_at f.
Proof.
  induction f as [|f IH]; intros t A i i' e E Hb Hr Hi; [done|]. cbn [hammer2_bulkfree_scan] in E.
  set (i0 := bi_set_pri i _) in E. assert (scan_inv (t :: A) i0) as Hi0 by (by apply (inv_same _ i)).
  destruct (nz_spec (c_error t & HAMMER2_ERROR_CHECK)) as [Hc|Hc].
  { injection E as <- <-. destruct (inv_cut A i0 t) as [I K]; [|done|by split].
    apply cov_skip. unfold scannable.
    destruct (Z.eqb_spec (c_error t & HAMMER2_ERROR_CHECK) 0); [done|]. by rewrite andb_false_r. }
  destruct (if nz (c_error t) then _ else _) as [[[i1 e1] r1]|] eqn:El; [|done]. cbn [mbind option_bind] in E.
  destruct (if is_pfsroot (c_bref t) then _ else _) as [[i2 r2]|] eqn:Ed; [|done]. cbn [mbind option_bind] in E.
  injection E as E. pose proof Hr as (HU & Hne & Hnd & Hrt & _).
  assert (benign e1 /\ benign r2) as [Hb1 Hb2].
  { unfold scan_finish in E. destruct (bi_test _ _ _ _ _). injection E as _ <-.
    by rewrite benign_ldiff, benign_or in Hb. }
  assert (benign r1) as Hr1.
  { destruct (is_pfsroot _); [exact (drain_pfs_errors _ _ _ _ _ _ _ Ed Hb2)|]. by injection Ed as _ <-. }
  destruct (nz_spec (c_error t)) as [Hz|Hz].
  { injection El as <- <- <-. exfalso. apply Hz. clear -Hb1 Hne Hc. apply zero_bits. intros n Hn.
    destruct (Z.testbit (c_error t) n) eqn:En; [|done]. rewrite benign_bits in Hb1.
    destruct (Hb1 n Hn En) as [->| ->]; [|by rewrite Hne in En].
    destruct Hc. intros Hc. assert (Z.testbit (c_error t & HAMMER2_ERROR_CHECK) 1 = false) as Hf by (by rewrite Hc).
    by rewrite Z.land_spec, En in Hf. }
  assert (scannable t = true) as Hs.
  { unfold scannable. rewrite Hrt, Hnd. destruct (Z.eqb_spec (c_error t & HAMMER2_ERROR_CHECK) 0); [done|lia]. }
  destruct (scan_loop_covers f (t :: A) (c_entries t) i0 0 0 i1 e1 r1 IH (HU Hs) El) as (I1 & K1 & Hd1); try done.
  apply chain_done in Hd1. destruct (inv_cut A i1 t Hd1 I1) as [J1 L1].
  assert (scan_inv A i2 /\ keeps A A i1 i2) as [J2 L2].
  { destruct (is_pfsroot _); [exact (drain_pfs_covers f A _ _ _ _ _ _ IH Ed Hb2 J1)|]. injection Ed as <- <-. by split. }
  assert (keeps (t :: A) A i0 i2) as K02 by (eapply keeps_trans; [|exact L2]; by eapply keeps_trans).
  destruct (scan_finish_covers A i2 t e1 r2 i' e E) as (J3 & L3 & _); [|by apply L2|done|].
  - eapply ready_mono; [|exact Hr]. apply K02.
  - split; [done|]. by eapply (keeps_trans _ A).
Qed.

Lemma drain_list_errors f n : forall i e i' e', drain_list icrc32 func sd sc n f i e = Some (i', e') ->
  benign e' -> benign e.
Proof.
  induction n as [|n IH]; intros i e i' e' E Hb; [done|]. cbn [drain_list] in E.
  destruct (bi_list i) as [|s l]; [by injection E as _ <-|].
  destruct (nz _); [by injection E as _ <-|]. destruct (scan _ _ _) as [[i1 e1]|]; [|done].
  by apply IH in E as [? _]%benign_or.
Qed.

Lemma drain_list_covers f n : forall i e i' e', drain_list icrc32 func sd sc n f i e = Some (i', e') ->
  e' &~ HAMMER2_ERROR_CHECK = 0 -> scan_inv [] i ->
  scan_inv [] i' /\ keeps [] [] i i' /\ bi_list i' = [].
Proof.
  induction n as [|n IH]; intros i e i' e' E Hb Hi; [done|]. cbn [drain_list] in E.
  destruct (bi_list i) as [|s l] eqn:El; [by injection E as <- <-|].
  destruct (nz_spec (e &~ HAMMER2_ERROR_CHECK)) as [Hz|_]; [by injection E as <- <-|].
  destruct (scan _ _ _) as [[i1 e1]|] eqn:Es; [|done]. cbn in E.
  pose proof (drain_list_errors _ _ _ _ _ _ E (benign_check _ Hb)) as [_ He1]%benign_or.
  destruct (pop_covers f [] i s l 0 i1 e1 (scan_covers f) El Hi Es He1) as [I1 K1].
  destruct (IH i1 _ i' e' E Hb I1) as (I2 & K2 & Hl). split; [done|]. split; [by eapply keeps_trans|done].
Qed.

End Coverage.
