(* ===== verification/BulkfreeProof.v ===== *)
(** The reconciliation of bulkfree: its transition table, its accounting, its
    hints, and what two passes with allocations in between may do. *)
From S2P Require Import Prelude Disk Subr Bmap Freemap FreemapProof Bulkfree.
From Stdlib Require Import ZArith Lia Bool.
From stdpp Require Import base list gmap.
Import Leaf Gather Sync.
Open Scope Z_scope.

(** ** The transition table *)

(** What becomes of a block that is [l] in the live freemap and [m] in the
    in-memory one. *)
Definition trans (m l : Z) : Z :=
  if m =? 0 then (if l =? 2 then 0 else if l =? 3 then 2 else l)
  else if m =? 3 then 3 else l.

Lemma trans_refl x : trans x x = x.
Proof. unfold trans. zcases. Qed.

Lemma u64_shift2 m c : 0 <= m <= 3 -> 0 <= c < 32 -> u64 (Z.shiftl m (2 * c)) = Z.shiftl m (2 * c).
Proof.
  intros Hm Hc. apply u64_small. unfold is_u64. rewrite Z.shiftl_mul_pow2 by lia.
  assert (2 ^ (2 * c) <= 2 ^ 62) by (apply Z.pow_le_mono_r; lia).
  pose proof (Z.pow_pos_nonneg 2 (2 * c)). change (2 ^ 62) with 4611686018427387904 in *. nia.
Qed.

(** One block: only entry [c] of the element changes, to what the table says. *)
Lemma sync_block_bits c L M q avail off s q' avail' s' :
  0 <= c < 32 -> is_u64 q -> pair2 q c = pair2 L c ->
  sync_block (2 * c) (Z.shiftr L (2 * c)) (Z.shiftr M (2 * c)) q avail off s = (q', avail', s') ->
  is_u64 q' /\
  forall b, 0 <= b -> pair2 q' b = if b =? c then trans (pair2 M c) (pair2 L c) else pair2 q b.
Proof.
  intros Hc Hq Eq. unfold sync_block, trans. fold (pair2 L c). fold (pair2 M c).
  rewrite !u64_shift2 by lia. h2const.
  assert (forall b, 0 <= b -> pair2 (Z.lor q (Z.shiftl 3 (2 * c))) b =
    if b =? c then 3 else pair2 q b) as H3.
  { intros b Hb. change (Z.shiftl 3 (2 * c)) with (ones_at (2 * c) (2 * 1)).
    rewrite pair2_lor_run by lia.
    replace ((c <=? b) && (b <? c + 1)) with (b =? c) by zcases. done. }
  assert (is_u64 (Z.lor q (Z.shiftl 3 (2 * c)))) as Hq3
    by (apply is_u64_lor; [done|]; apply (is_u64_ones_at (2 * c) (2 * 1)); lia).
  assert (forall b, 0 <= b -> pair2 q b = if b =? c then pair2 L c else pair2 q b) as Hid
    by (intros b _; destruct (Z.eqb_spec b c) as [->|]; done).
  pose proof (pair2_cases L c ltac:(lia)) as HL.
  destruct (Z.eqb_spec (pair2 M c) 0); [|destruct (Z.eqb_spec (pair2 M c) 3)].
  - destruct (Z.eqb_spec (pair2 L c) 2) as [E2|]; [|destruct (Z.eqb_spec (pair2 L c) 3) as [E3|]];
      intros [= <- <- <-]; (split; [by auto using is_u64_ldiff|]); [| |done]; intros b Hb.
    + rewrite pair2_clear_high by lia. destruct (Z.eqb_spec b c) as [->|]; [|done].
      by rewrite Eq, E2.
    + rewrite pair2_clear_low by lia. destruct (Z.eqb_spec b c) as [->|]; [|done].
      by rewrite Eq, E3.
  - destruct HL as [E | [E | [E | E]]]; rewrite E in *; cbn [Z.eqb]; intros [= <- <- <-]; done.
  - by intros [= <- <- <-].
Qed.

(** The accounting of one block, [N] being the number of free blocks of the
    segment. *)
Lemma sync_block_avail c L M q avail off s q' avail' s' N :
  0 <= c < 32 -> pair2 q c = pair2 L c ->
  avail = 16384 * N -> 0 <= N <= 256 -> (pair2 q c = 0 -> 1 <= N) -> (pair2 q c <> 0 -> N <= 255) ->
  sync_block (2 * c) (Z.shiftr L (2 * c)) (Z.shiftr M (2 * c)) q avail off s = (q', avail', s') ->
  avail' = 16384 * (N - Z.b2z (pair2 L c =? 0) + Z.b2z (trans (pair2 M c) (pair2 L c) =? 0)) /\
  u64 (st_adj_free s') = u64 (st_adj_free s + (avail' - avail)).
Proof.
  intros Hc Eq -> HN H0 H1. rewrite Eq in *. unfold sync_block, trans.
  fold (pair2 L c). fold (pair2 M c). h2const.
  assert (forall x, u64 (u64 x) = u64 x) as Huu by (intros; unfold u64; by rewrite Z.mod_mod).
  destruct (Z.eqb_spec (pair2 M c) 0); [|destruct (Z.eqb_spec (pair2 M c) 3)];
    destruct (pair2_cases L c ltac:(lia)) as [E | [E | [E | E]]]; rewrite E in *; cbn [Z.eqb Pos.eqb];
    intros [= <- <- <-]; cbn [Z.b2z Z.eqb st_adj_free stat_10_00 stat_11_10 stat_00_11 stat_01_11 stat_10_11];
    rewrite ?Huu; try (split; [lia|f_equal; lia]).
  - h2const. rewrite u32_small by (unfold is_u32; lia). zcases. split; [lia|]. f_equal; lia.
  - h2const. rewrite u32_small by (unfold is_u32; lia). rewrite i32_small by lia. zcases.
    split; [lia|]. f_equal; lia.
Qed.

(** ** Elements *)

(** A bitmap on its own. *)
Abbreviation bits q := (mkBmap 0 0 0 q).

Lemma blk_aset lq i q b : length lq = 8%nat -> 0 <= i < 8 -> 0 <= b < 256 ->
  blk (bits (aset lq i q)) b = if b / 32 =? i then pair2 q (b mod 32) else blk (bits lq) b.
Proof.
  intros Hl Hi Hb. unfold blk. cbn [bm_bitmapq].
  rewrite aget_aset by (rewrite ?Hl; dlia). destruct (Z.eqb_spec (b / 32) i); done.
Qed.

Lemma free_blocks_ext bm bm' : bm_bitmapq bm = bm_bitmapq bm' -> free_blocks bm = free_blocks bm'.
Proof. intros E. rewrite !free_blocks_eq. apply cntb_ext. intros b _. unfold blk. by rewrite E. Qed.

Lemma free_blocks_upd bm bm' k : 0 <= k < 256 ->
  (forall b, 0 <= b < 256 -> b <> k -> blk bm' b = blk bm b) ->
  free_blocks bm' = free_blocks bm - Z.b2z (blk bm k =? 0) + Z.b2z (blk bm' k =? 0).
Proof.
  intros Hk H. rewrite !free_blocks_eq.
  set (p := fun b => blk bm b =? 0). set (p' := fun b => blk bm' b =? 0).
  set (p0 := fun b => negb (b =? k) && (blk bm b =? 0)).
  assert (forall r, cntb (fun b => (b =? k) && r) 256 = Z.b2z r) as Hone.
  { intros r. rewrite (cntb_ext _ (fun b => (k <=? b) && (b <? k + 1) && r)) by (intros; zcases; done).
    destruct r; [|by rewrite cntb_false by (intros; apply andb_false_r)].
    rewrite (cntb_ext _ (fun b => (k <=? b) && (b <? k + 1))) by (intros; apply andb_true_r).
    by rewrite cntb_run by lia. }
  rewrite (cntb_split p p0 (fun b => (b =? k) && (blk bm k =? 0))).
  2:{ intros b _. unfold p, p0. destruct (Z.eqb_spec b k) as [->|]; simpl; lia. }
  rewrite (cntb_split p' p0 (fun b => (b =? k) && (blk bm' k =? 0))).
  2:{ intros b Hb. unfold p', p0. destruct (Z.eqb_spec b k) as [->|]; simpl; [lia|].
      rewrite H by lia. lia. }
  rewrite !Hone. lia.
Qed.

Lemma free_blocks_entry lq i q q' c : length lq = 8%nat -> 0 <= i < 8 -> 0 <= c < 32 ->
  (forall b, 0 <= b < 32 -> b <> c -> pair2 q' b = pair2 q b) ->
  free_blocks (bits (aset lq i q')) =
  free_blocks (bits (aset lq i q)) - Z.b2z (pair2 q c =? 0) + Z.b2z (pair2 q' c =? 0).
Proof.
  intros Hl Hi Hc H. rewrite (free_blocks_upd (bits (aset lq i q)) _ (32 * i + c)); [|lia|].
  - destruct (block_split i c Hc) as [E1 E2].
    rewrite !blk_aset, E1, E2, Z.eqb_refl by (done || lia). done.
  - intros b Hb Hne. rewrite !blk_aset by done. destruct (Z.eqb_spec (b / 32) i); [|done].
    apply H; dlia.
Qed.

(** [avail] counts at least the entry itself, and at most the others. *)
Lemma free_blocks_entry_bounds lq i q c : length lq = 8%nat -> 0 <= i < 8 -> 0 <= c < 32 ->
  (pair2 q c = 0 -> 1 <= free_blocks (bits (aset lq i q))) /\
  (pair2 q c <> 0 -> free_blocks (bits (aset lq i q)) <= 255).
Proof.
  intros Hl Hi Hc. set (q1 := Z.lor q (ones_at (2 * c) (2 * 1))). set (q0 := Z.ldiff q (ones_at (2 * c) 2)).
  assert (forall b, 0 <= b -> pair2 q1 b = if b =? c then 3 else pair2 q b) as H1.
  { intros b Hb. unfold q1. rewrite pair2_lor_run by lia.
    replace ((c <=? b) && (b <? c + 1)) with (b =? c) by zcases. done. }
  assert (forall b, 0 <= b -> pair2 q0 b = if b =? c then 0 else pair2 q b) as H0.
  { intros b Hb. unfold q0. rewrite !pair2_bits, !Z.ldiff_spec, !testbit_ones_at by lia.
    destruct (Z.eqb_spec b c) as [->|].
    - replace (2 * c + 1 <? 2 * c + 2) with true by (symmetry; zcases).
      zcases; rewrite !andb_false_r; done.
    - zcases; rewrite !andb_true_r; done. }
  pose proof (free_blocks_range (bits (aset lq i q1))). pose proof (free_blocks_range (bits (aset lq i q0))).
  pose proof (free_blocks_entry lq i q q1 c Hl Hi Hc) as E1.
  pose proof (free_blocks_entry lq i q q0 c Hl Hi Hc) as E0.
  rewrite H1, Z.eqb_refl in E1 by lia. rewrite H0, Z.eqb_refl in E0 by lia.
  split; intros E.
  - rewrite E in E1. cbn [Z.eqb Z.b2z] in E1. rewrite E1 in H; [lia|].
    intros b Hb Hne. rewrite H1 by lia. zcases; done.
  - destruct (Z.eqb_spec (pair2 q c) 0); [done|]. cbn [Z.eqb Z.b2z] in E0. rewrite E0 in H2; [lia|].
    intros b Hb Hne. rewrite H0 by lia. zcases; done.
Qed.

Lemma sync_bits_spec n : forall c L M q avail off s q' avail' s' lq i,
  length lq = 8%nat -> 0 <= i < 8 -> 0 <= c -> c + Z.of_nat n <= 32 -> is_u64 q ->
  (forall b, c <= b < 32 -> pair2 q b = pair2 L b) ->
  avail = 16384 * free_blocks (bits (aset lq i q)) ->
  sync_bits n (2 * c) (Z.shiftr L (2 * c)) (Z.shiftr M (2 * c)) q avail off s = (q', avail', s') ->
  is_u64 q' /\
  (forall b, 0 <= b < 32 -> pair2 q' b =
    if (c <=? b) && (b <? c + Z.of_nat n) then trans (pair2 M b) (pair2 L b) else pair2 q b) /\
  avail' = 16384 * free_blocks (bits (aset lq i q')) /\
  u64 (st_adj_free s') = u64 (st_adj_free s + (avail' - avail)).
Proof.
  induction n as [|n IH]; intros c L M q avail off s q' avail' s' lq i Hl Hi Hc Hn Hq HL Ha;
    cbn [sync_bits].
  - intros [= <- <- <-]. split; [done|]. split; [|split; [done|f_equal; lia]].
    intros b Hb. replace (_ && _) with false by (symmetry; zcases). done.
  - destruct (sync_block _ _ _ q avail off s) as [[q1 a1] s1] eqn:E1. intros E.
    destruct (free_blocks_entry_bounds lq i q c Hl Hi ltac:(lia)) as [Hge Hle].
    destruct (sync_block_bits c L M q avail off s q1 a1 s1 ltac:(lia) Hq (HL c ltac:(lia)) E1)
      as [Hq1 Hb1].
    destruct (sync_block_avail c L M q avail off s q1 a1 s1 _ ltac:(lia) (HL c ltac:(lia)) Ha
      (free_blocks_range _) Hge Hle E1) as [Ha1 Hs1].
    replace (2 * c + 2) with (2 * (c + 1)) in E by lia. rewrite !Z.shiftr_shiftr in E by lia.
    replace (2 * c + 2) with (2 * (c + 1)) in E by lia.
    assert (a1 = 16384 * free_blocks (bits (aset lq i q1))) as Ha1'.
    { rewrite (free_blocks_entry lq i q q1 c), Hb1, Z.eqb_refl, (HL c) by
        (done || lia || (intros b Hb Hne; rewrite Hb1 by lia; zcases; done)). done. }
    assert (forall b, c + 1 <= b < 32 -> pair2 q1 b = pair2 L b) as HL1.
    { intros b Hb. rewrite Hb1 by lia. destruct (Z.eqb_spec b c); [lia|]. apply HL. lia. }
    destruct (IH (c + 1) L M q1 a1 _ s1 q' avail' s' lq i Hl Hi ltac:(lia) ltac:(lia) Hq1 HL1 Ha1' E)
      as (Hq' & Hb' & Ha' & Hs').
    split; [exact Hq'|]. split; [|split; [exact Ha'|]].
    + intros b Hb. rewrite Hb', Hb1 by lia. destruct (Z.eqb_spec b c) as [->|].
      * replace (c + 1 <=? c) with false by (symmetry; zcases).
        replace ((c <=? c) && _) with true by (symmetry; zcases). done.
      * replace ((c + 1 <=? b) && _) with ((c <=? b) && (b <? c + Z.of_nat (S n))) by zcases. done.
    + rewrite Hs'. unfold u64 in *. rewrite <- Zplus_mod_idemp_l, Hs1, Zplus_mod_idemp_l. f_equal. lia.
Qed.

(** The whole bitmap follows the table, block by block; the elements that are
    skipped because they match would not change either. *)
Lemma sync_elements_spec n : forall i lq mq avail off s q' avail' s',
  length lq = 8%nat -> Forall is_u64 lq -> 0 <= i -> i + Z.of_nat n = 8 -> avail = 16384 * free_blocks (bits lq) ->
  sync_elements n i lq mq avail off s = (q', avail', s') ->
  length q' = 8%nat /\ Forall is_u64 q' /\
  (forall b, 0 <= b < 256 ->
    blk (bits q') b = if i <=? b / 32 then trans (blk (bits mq) b) (blk (bits lq) b)
                      else blk (bits lq) b) /\
  avail' = 16384 * free_blocks (bits q') /\
  u64 (st_adj_free s') = u64 (st_adj_free s + (avail' - avail)).
Proof.
  induction n as [|n IH]; intros i lq mq avail off s q' avail' s' Hl Hu Hi Hn Ha;
    cbn [sync_elements].
  - intros [= <- <- <-]. split; [done|]. split; [done|]. split; [|split; [done|f_equal; lia]].
    intros b Hb. replace (i <=? b / 32) with false by (symmetry; apply Z.leb_gt; dlia). done.
  - set (L := aget 0 lq i). set (M := aget 0 mq i).
    assert (is_u64 L) as HuL by (apply aget_Forall; [done|rewrite Hl; lia]).
    assert (aset lq i L = lq) as Eid by (apply aset_aget; rewrite Hl; lia).
    destruct (if L =? M then (L, avail, s) else _) as [[q a] s1] eqn:E1.
    assert (is_u64 q /\ (forall b, 0 <= b < 32 -> pair2 q b = trans (pair2 M b) (pair2 L b)) /\
      a = 16384 * free_blocks (bits (aset lq i q)) /\
      u64 (st_adj_free s1) = u64 (st_adj_free s + (a - avail))) as (Hq & Hb & Ha1 & Hs1).
    { destruct (Z.eqb_spec L M) as [EM|].
      - injection E1 as <- <- <-. split; [done|]. rewrite Eid. split; [|split; [done|f_equal; lia]].
        intros b Hb. by rewrite <- EM, trans_refl.
      - rewrite <- Eid in Ha.
        destruct (sync_bits_spec 32 0 L M L avail off s q a s1 lq i Hl ltac:(lia) ltac:(lia)
          ltac:(lia) HuL ltac:(intros; reflexivity) Ha E1) as (H1 & H2 & H3 & H4).
        split; [exact H1|]. split; [|split; [exact H3|exact H4]].
        intros b Hb. rewrite H2 by done. by replace ((0 <=? b) && _) with true by (symmetry; zcases). }
    intros E. apply IH in E; try done; try lia.
    + destruct E as (H1 & H2 & H3 & H4 & H5). split; [done|]. split; [done|].
      split; [|split; [done|]].
      * intros b Hbr. rewrite H3 by done. rewrite blk_aset by (done || lia).
        destruct (Z.eqb_spec (b / 32) i) as [Ei|].
        -- replace (i + 1 <=? b / 32) with false by (symmetry; zcases).
           replace (i <=? b / 32) with true by (symmetry; zcases).
           rewrite Hb by dlia. unfold blk. cbn [bm_bitmapq]. by rewrite Ei.
        -- replace (i + 1 <=? b / 32) with (i <=? b / 32) by zcases. done.
      * rewrite H5. unfold u64 in *. rewrite <- Zplus_mod_idemp_l, Hs1, Zplus_mod_idemp_l. f_equal. lia.
    + by rewrite length_aset.
    + by apply Forall_aset.
Qed.

(** ** The end of the adjustment *)

Lemma top_element_range n q : -1 <= top_element n q < Z.of_nat n.
Proof. induction n as [|n IH]; cbn [top_element]; [lia|]. destruct (nz _); lia. Qed.

Lemma top_element_neg n q : top_element n q < 0 -> forall i, 0 <= i < Z.of_nat n -> aget 0 q i = 0.
Proof.
  induction n as [|n IH]; cbn [top_element]; intros H i Hi; [lia|].
  destruct (nz_spec (aget 0 q (Z.of_nat n))) as [|Hz]; [lia|].
  destruct (Z.eq_dec i (Z.of_nat n)) as [->|]; [lia|]. apply IH; lia.
Qed.

Lemma all_free_blocks bm : (forall b, 0 <= b < 256 -> blk bm b = 0) -> free_blocks bm = 256.
Proof. intros H. rewrite !free_blocks_eq. apply cntb_true. intros b Hb. by rewrite H by exact Hb. Qed.

(** Where the linear iterator of a segment that is not empty ends up. *)
Definition linear_after (live mem : hammer2_bmap_data) (lin : Z) : Prop :=
  lin = 0 \/ lin = HAMMER2_SEGSIZE \/ lin = 16384 * ((bm_linear mem + 16383) / 16384) \/
  (lin = bm_linear mem /\ bm_linear live < bm_linear mem /\
   bm_linear live / 16384 = bm_linear mem / 16384).

Lemma lxor_block x y : 0 <= x -> 0 <= y ->
  Z.ldiff (Z.lxor x y) HAMMER2_FREEMAP_BLOCK_MASK = 0 -> x / 16384 = y / 16384.
Proof.
  intros Hx Hy E. change HAMMER2_FREEMAP_BLOCK_MASK with (Z.ones 14) in E.
  rewrite Z.ldiff_ones_r in E by lia. apply Z.shiftl_eq_0_iff in E; [|lia].
  rewrite Z.shiftr_lxor in E. apply Z.lxor_eq in E. by rewrite !Z.shiftr_div_pow2 in E by lia.
Qed.

Lemma top_element_pos n q : 0 <= top_element n q -> aget 0 q (top_element n q) <> 0.
Proof.
  induction n as [|n IH]; cbn [top_element]; [lia|].
  by destruct (nz_spec (aget 0 q (Z.of_nat n))); [intros _|apply IH].
Qed.

Lemma blocks_zero_elements bm : Forall is_u64 (bm_bitmapq bm) -> length (bm_bitmapq bm) = 8%nat ->
  (forall b, 0 <= b < 256 -> blk bm b = 0) -> forall i, 0 <= i < 8 -> aget 0 (bm_bitmapq bm) i = 0.
Proof.
  intros Hu Hl H i Hi. apply pair2_inj; [apply aget_Forall; [done|rewrite Hl; lia]|done|].
  intros b Hb. rewrite pair2_0. specialize (H (32 * i + b) ltac:(lia)). unfold blk in H.
  destruct (block_split i b Hb) as [E1 E2]. by rewrite E1, E2 in H.
Qed.

Lemma roundup_block x : 0 <= x <= HAMMER2_SEGSIZE ->
  Z.ldiff (i32 (x + HAMMER2_FREEMAP_BLOCK_MASK)) HAMMER2_FREEMAP_BLOCK_MASK =
  16384 * ((x + 16383) / 16384).
Proof.
  h2const. intros Hx. rewrite i32_small by lia. pose proof (ldiff_low (x + 16383) 14 ltac:(lia)) as E.
  change (2 ^ 14) with 16384 in E. change (16384 - 1) with 16383 in E. rewrite E. dlia.
Qed.

(** The segment after the adjustment, from the one its bitmap loop leaves. *)
Lemma sync_tail_spec live mem s live' s' :
  length (bm_bitmapq live) = 8%nat -> Forall is_u64 (bm_bitmapq live) -> avail_ok live ->
  0 <= bm_linear live -> 0 <= bm_linear mem <= HAMMER2_SEGSIZE ->
  sync_tail live mem s = (live', s') ->
  bm_bitmapq live' = bm_bitmapq live /\ bm_avail live' = bm_avail live /\
  st_adj_free s' = st_adj_free s /\ linear_after live mem (bm_linear live') /\
  ((forall b, 0 <= b < 256 -> blk live b = 0) -> bm_linear live' = 0 /\ bm_class live' = 0).
Proof.
  intros Hl Hu Hav Hlin Hmem. unfold sync_tail.
  destruct (Z.ltb_spec (top_element 8 (bm_bitmapq live)) 0) as [Hneg|Hpos].
  - intros [= <- <-]. cbn. assert (forall b, 0 <= b < 256 -> blk live b = 0) as Hz.
    { intros b Hb. unfold blk. rewrite (top_element_neg 8) by (done || dlia). apply pair2_0. }
    unfold avail_ok in Hav. rewrite Hav, all_free_blocks by done.
    split_and!; try done. by left.
  - pose proof (top_element_range 8 (bm_bitmapq live)). pose proof (top_element_pos 8 _ Hpos) as Hne.
    assert (~ (forall b, 0 <= b < 256 -> blk live b = 0)) as Hnz
      by (intros Hz; apply Hne, blocks_zero_elements; [done..|lia]).
    destruct (Z.ltb_spec (top_element 8 (bm_bitmapq live)) 7); intros [= <- <-]; cbn;
      (split; [done|]; split; [done|]; split; [done|]; split; [|done]).
    + destruct (Z.ltb_spec (bm_linear live) (bm_linear mem)); cbn [andb].
      1: destruct (Z.eqb_spec (Z.ldiff (Z.lxor (bm_linear live) (bm_linear mem))
           HAMMER2_FREEMAP_BLOCK_MASK) 0) as [Ex|].
      1: { do 3 right. split; [done|]. split; [done|]. apply lxor_block; done || lia. }
      all: do 2 right; left; by apply roundup_block.
    + by right; left.
Qed.

(** The whole of h2_bulkfree_sync_adjust(). *)
Lemma sync_adjust_spec off live mem s live' s' :
  bmap_ok live -> avail_ok live -> 0 <= bm_linear mem <= HAMMER2_SEGSIZE ->
  h2_bulkfree_sync_adjust off live mem s = (live', s') ->
  length (bm_bitmapq live') = 8%nat /\ Forall is_u64 (bm_bitmapq live') /\
  (forall b, 0 <= b < 256 -> blk live' b = trans (blk mem b) (blk live b)) /\
  avail_ok live' /\ u64 (st_adj_free s') = u64 (st_adj_free s + (bm_avail live' - bm_avail live)) /\
  linear_after live mem (bm_linear live') /\
  ((forall b, 0 <= b < 256 -> blk live' b = 0) -> bm_linear live' = 0 /\ bm_class live' = 0).
Proof.
  intros [Hl Hu Hlin _] Hav Hmem. unfold h2_bulkfree_sync_adjust.
  assert (bm_avail live = 16384 * free_blocks (bits (bm_bitmapq live))) as Ha
    by (rewrite (free_blocks_ext (bits (bm_bitmapq live)) live eq_refl); exact Hav).
  destruct (sync_elements 8 0 _ _ _ _ _) as [[q a] s1] eqn:E1.
  destruct (sync_elements_spec 8 0 (bm_bitmapq live) (bm_bitmapq mem) (bm_avail live) off s q a s1
    Hl Hu ltac:(lia) ltac:(lia) Ha E1) as (L1 & U1 & B1 & A1 & S1).
  assert (forall b, 0 <= b < 256 -> blk (bits q) b = trans (blk mem b) (blk live b)) as Hb.
  { intros b Hb. rewrite B1 by done. by replace (0 <=? b / 32) with true by (symmetry; apply Z.leb_le; dlia). }
  intros E. apply sync_tail_spec in E; [|exact L1|exact U1| |apply Hlin|exact Hmem].
  2:{ unfold avail_ok. cbn [bm_avail]. rewrite A1 at 1.
      by rewrite (free_blocks_ext (mkBmap (bm_linear live) (bm_class live) a q) (bits q) eq_refl). }
  destruct E as (Eq & Ea & Es & El & Hempty). cbn [bm_bitmapq bm_avail] in Eq, Ea.
  assert (forall b, blk live' b = blk (bits q) b) as Hb' by (intros b; unfold blk; by rewrite Eq).
  rewrite Eq. split; [done|]. split; [done|]. split; [intros b Hbb; rewrite Hb'; by apply Hb|].
  split; [|split; [by rewrite Ea, Es|split; [exact El|]]].
  - unfold avail_ok. by rewrite Ea, A1, (free_blocks_ext live' (bits q) Eq).
  - intros Hz. apply Hempty. intros b Hbb. rewrite <- (Hz b Hbb), Hb'. done.
Qed.

(** ** The bigmask hint *)

(** An aligned run of [w] free entries in an element. *)
Definition run_in (mask w : Z) : Prop :=
  exists t, 0 <= t /\ w * t + w <= 32 /\ forall b, w * t <= b < w * t + w -> pair2 mask b = 0.

Lemma run_in_half mask w : 0 < w -> run_in mask (2 * w) -> run_in mask w.
Proof. intros Hw (t & Ht & Hb & H). exists (2 * t). split; [lia|]. split; [lia|]. intros b Hr. apply H. lia. Qed.

Lemma bigmask_bits_spec w fuel mask t scan : 0 < w -> (exists p, 32 = w * p) ->
  0 <= t -> (w * t < 32 -> scan = ones_at (2 * (w * t)) (2 * w)) -> 32 <= w * t + Z.of_nat fuel ->
  bigmask_bits fuel mask (2 * w) (2 * (w * t)) scan = true <->
  exists t', t <= t' /\ w * t' + w <= 32 /\ forall b, w * t' <= b < w * t' + w -> pair2 mask b = 0.
Proof.
  intros Hw [p Hp].
  assert (forall t, w * t < 32 -> w * t + w <= 32) as Hfit.
  { intros t' Hlt. assert (t' < p) by (apply (Z.mul_lt_mono_pos_l w); lia).
    assert (w * (t' + 1) <= w * p) by (apply Z.mul_le_mono_nonneg_l; lia). lia. }
  revert t scan. induction fuel as [|f IH]; intros t scan Ht Hs Hf; cbn [bigmask_bits].
  - split; [done|]. intros (t' & H1 & H2 & _).
    assert (w * t <= w * t') by (apply Z.mul_le_mono_nonneg_l; lia). lia.
  - h2const. destruct (Z.ltb_spec (2 * (w * t)) 64) as [Hlt|Hge].
    2:{ split; [done|]. intros (t' & H1 & H2 & _).
        assert (w * t <= w * t') by (apply Z.mul_le_mono_nonneg_l; lia). lia. }
    assert (0 <= w * t) by (apply Z.mul_nonneg_nonneg; lia).
    pose proof (Hfit t ltac:(lia)).
    rewrite orb_true_iff, Z.eqb_eq, Z.land_comm, Hs, land_run_zero by lia.
    replace (2 * (w * t) + 2 * w) with (2 * (w * (t + 1))) by lia.
    rewrite IH; [|lia| |lia].
    2:{ intros Hlt'. pose proof (Hfit (t + 1) Hlt').
        replace (2 * (w * (t + 1)) <? 64) with true by (symmetry; zcases).
        rewrite ones_at_shift by lia. f_equal. lia. }
    split.
    + intros [Hz|(t' & H1 & H2)]; [exists t|exists t']; (split; [lia|done]).
    + intros (t' & H1 & H2 & H3). destruct (Z.eq_dec t' t) as [->|]; [by left|right].
      exists t'. split; [lia|done].
Qed.

Lemma bigmask_bits_run mask w scan : w ∈ [1; 2; 4; 8; 16; 32] -> scan = ones_at 0 (2 * w) ->
  bigmask_bits 33 mask (2 * w) 0 scan = true <-> run_in mask w.
Proof.
  intros Hw Hs. assert (0 < w /\ exists p, 32 = w * p) as [Hpos Hp].
  { rewrite !elem_of_cons, elem_of_nil in Hw.
    destruct Hw as [-> | [-> | [-> | [-> | [-> | [-> | []]]]]]];
      (split; [lia|]); [exists 32|exists 16|exists 8|exists 4|exists 2|exists 1]; done. }
  replace 0 with (2 * (w * 0)) at 1 by lia.
  rewrite bigmask_bits_spec; [done|done|done|lia| |lia]. intros _. rewrite Hs. f_equal. lia.
Qed.

(** One step of the loop on [iter]. *)
Definition bigmask_step (mask w radix_mask B : Z) : Z :=
  if bigmask_bits 33 mask (2 * w) 0 (ones_at 0 (2 * w)) then Z.lor B radix_mask else B.

Lemma bigmask_iter_S f mask w m B : (w, m) ∈ [(1, 15); (2, 16); (4, 17); (8, 18); (16, 19); (32, 20)] ->
  bigmask_iter (S f) mask (2 * w) (Z.ones m) B =
  bigmask_iter f mask (2 * (2 * w)) (Z.ones (m + 1)) (bigmask_step mask w (Z.ones m) B).
Proof.
  intros Hw. cbn [bigmask_iter]. unfold bigmask_step. h2const.
  assert ((2 * w <=? 64) = true /\ Z.shiftl (2 * w) 1 = 2 * (2 * w) /\
    (if 2 * w =? 64 then HAMMER2_BMAP_ALLONES else Z.shiftl 1 (2 * w) - 1) = ones_at 0 (2 * w) /\
    Z.lor (u32 (Z.shiftl (Z.ones m) 1)) 1 = Z.ones (m + 1)) as (-> & -> & -> & ->); [|done].
  rewrite !elem_of_cons, elem_of_nil in Hw.
  by destruct Hw as [[= -> ->] | [[= -> ->] | [[= -> ->] | [[= -> ->] | [[= -> ->] | [[= -> ->] | []]]]]]].
Qed.

Lemma bigmask_iter_steps mask B :
  bigmask_iter 7 mask 2 bigmask_radix_mask B =
  bigmask_step mask 32 (Z.ones 20) (bigmask_step mask 16 (Z.ones 19) (bigmask_step mask 8 (Z.ones 18)
    (bigmask_step mask 4 (Z.ones 17) (bigmask_step mask 2 (Z.ones 16)
      (bigmask_step mask 1 (Z.ones 15) B))))).
Proof.
  change bigmask_radix_mask with (Z.ones 15). change 2 with (2 * 1) at 1.
  rewrite !bigmask_iter_S by set_solver. done.
Qed.

Lemma bigmask_step_bit mask w m B r : w ∈ [1; 2; 4; 8; 16; 32] -> 0 <= r -> 0 <= m ->
  Z.testbit (bigmask_step mask w (Z.ones m) B) r = true <->
  Z.testbit B r = true \/ (run_in mask w /\ r < m).
Proof.
  intros Hw Hr Hm. unfold bigmask_step. pose proof (bigmask_bits_run mask w _ Hw eq_refl) as Hb.
  destruct (bigmask_bits 33 mask (2 * w) 0 (ones_at 0 (2 * w))).
  - rewrite Z.lor_spec, orb_true_iff, Z.testbit_ones_nonneg, Z.ltb_lt by lia. intuition.
  - split; [by left|]. intros [|[H _]]; [done|]. by apply Hb in H.
Qed.

Lemma bigmask_iter_bit mask B r : 10 <= r <= 16 ->
  Z.testbit (bigmask_iter 7 mask 2 bigmask_radix_mask B) r = true <->
  Z.testbit B r = true \/ run_in mask (nblocks r).
Proof.
  intros Hr. rewrite bigmask_iter_steps, !bigmask_step_bit by (lia || (clear; set_solver)).
  pose proof (run_in_half mask 1 ltac:(lia)). pose proof (run_in_half mask 2 ltac:(lia)).
  pose proof (run_in_half mask 4 ltac:(lia)). pose proof (run_in_half mask 8 ltac:(lia)).
  pose proof (run_in_half mask 16 ltac:(lia)).
  change (2 * 1) with 2 in *. change (2 * 2) with 4 in *. change (2 * 4) with 8 in *.
  change (2 * 8) with 16 in *. change (2 * 16) with 32 in *.
  assert (r < 17 /\ r < 18 /\ r < 19 /\ r < 20) as (? & ? & ? & ?) by lia.
  destruct (Z.le_gt_cases r 14); [|assert (r = 15 \/ r = 16) as [-> | ->] by lia].
  - replace (nblocks r) with 1 by (unfold nblocks; zcases). assert (r < 15 /\ r < 16) by lia. tauto.
  - change (nblocks 15) with 2. assert (15 < 16 /\ ~ 15 < 15) by lia. tauto.
  - change (nblocks 16) with 4. assert (~ 16 < 15 /\ ~ 16 < 16) by lia. tauto.
Qed.

Lemma bigmask_elements_bit n q B r : 10 <= r <= 16 ->
  Z.testbit (bigmask_elements n q B) r = true <->
  Z.testbit B r = true \/ exists i, 0 <= i < Z.of_nat n /\ run_in (aget 0 q i) (nblocks r).
Proof.
  intros Hr. induction n as [|n IH]; cbn [bigmask_elements].
  - split; [by left|]. intros [|(i & Hi & _)]; [done|lia].
  - rewrite bigmask_iter_bit, IH by done. split.
    + intros [[|(i & Hi & H)]|H]; [by left|right; exists i|right; exists (Z.of_nat n)]; (split; [lia|done]).
    + intros [|(i & Hi & H)]; [by left; left|].
      destruct (Z.eq_dec i (Z.of_nat n)) as [->|]; [by right|].
      left; right. exists i. split; [lia|done].
Qed.

Lemma run_in_free bm i w : w = 1 \/ w = 2 \/ w = 4 -> 0 <= i < 8 ->
  run_in (aget 0 (bm_bitmapq bm) i) w -> exists k, free_run bm k w.
Proof.
  intros Hw Hi (t & Ht & Hb & H). exists (32 * i + w * t).
  assert (0 <= w * t) by (apply Z.mul_nonneg_nonneg; lia).
  split; [lia|]. split; [by apply mul_mod_aligned|]. intros b Hr. unfold blk.
  destruct (block_split i (b - 32 * i)) as [E1 E2]; [lia|].
  replace (32 * i + (b - 32 * i)) with b in * by lia. rewrite E1, E2. apply H. lia.
Qed.

Lemma free_run_in bm k w : w = 1 \/ w = 2 \/ w = 4 -> free_run bm k w ->
  run_in (aget 0 (bm_bitmapq bm) (k / 32)) w.
Proof.
  intros Hw (Hk & Hm & Hf). pose proof (run_in_element k w Hw ltac:(lia) Hm).
  pose proof (mod32_mod k w Hw Hm) as Hm'. exists (k mod 32 / w).
  pose proof (Z.div_mod (k mod 32) w ltac:(lia)) as E. rewrite Hm', Z.add_0_r in E.
  rewrite <- E. split; [apply Z.div_pos; [dlia|lia]|]. split; [lia|]. intros b Hb.
  specialize (Hf (32 * (k / 32) + b)). unfold blk in Hf.
  destruct (block_split (k / 32) b) as [E1 E2]; [clear -H Hb Hk; dlia|]. rewrite E1, E2 in Hf.
  apply Hf. clear -H Hb Hk. dlia.
Qed.

(** ** Gathering *)

(** The in-memory bitmaps hold 00 and 11 only. *)
Definition mem_ok (bm : hammer2_bmap_data) : Prop :=
  length (bm_bitmapq bm) = 8%nat /\ forall b, 0 <= b < 256 -> blk bm b = 0 \/ blk bm b = 3.

Lemma blk_free_entry bm k : 0 <= k < 256 ->
  (Z.land (aget 0 (bm_bitmapq bm) (k / 32)) (ones_at (2 * (k mod 32)) (2 * 1)) = 0 <-> blk bm k = 0).
Proof.
  intros Hk. rewrite land_run_zero by dlia. unfold blk.
  split; [intros H; apply H; lia|]. intros H b Hb. by replace b with (k mod 32) by lia.
Qed.

Lemma mark_pos o : 0 <= o < 4194304 ->
  Z.shiftr o (HAMMER2_FREEMAP_BLOCK_RADIX + HAMMER2_BMAP_INDEX_RADIX) = o / 16384 / 32 /\
  u64 (Z.shiftl 3 (Z.shiftl (Z.shiftr (Z.land o HAMMER2_BMAP_INDEX_MASK)
    HAMMER2_FREEMAP_BLOCK_RADIX) 1)) = ones_at (2 * ((o / 16384) mod 32)) (2 * 1).
Proof.
  intros Ho. h2const. split.
  - rewrite Z.shiftr_div_pow2, Z.div_div by lia. done.
  - change 524287 with (2 ^ 19 - 1). rewrite land_low, Z.shiftr_div_pow2, (Z.shiftl_mul_pow2 _ 1) by lia.
    assert (o mod 2 ^ 19 / 2 ^ 14 = (o / 16384) mod 32) as ->
      by (change (2 ^ 19) with 524288; change (2 ^ 14) with 16384; dlia).
    rewrite Z.mul_comm. change (2 ^ 1) with 2. rewrite u64_shift2 by dlia. done.
Qed.

(** The loop marks the blocks from [data_off] on, one for every 16KB begun. *)
Lemma mark_loop_spec fuel : forall bm o bytes, mem_ok bm -> 0 <= o -> 0 <= bytes ->
  o / 16384 + (bytes + 16383) / 16384 <= 256 -> (bytes + 16383) / 16384 < Z.of_nat fuel ->
  mem_ok (mark_loop fuel bm o bytes) /\
  bm_linear (mark_loop fuel bm o bytes) = bm_linear bm /\
  (forall b, 0 <= b < 256 -> blk (mark_loop fuel bm o bytes) b =
    if (o / 16384 <=? b) && (b <? o / 16384 + (bytes + 16383) / 16384) then 3 else blk bm b).
Proof.
  induction fuel as [|f IH]; intros bm o bytes Hm Ho Hb Hfit Hf; [dlia|]. cbn [mark_loop].
  destruct (Z.eqb_spec bytes 0) as [->|Hne].
  { split; [done|]. split; [done|]. intros b Hbb. change ((0 + 16383) / 16384) with 0.
    replace (_ && _) with false by (symmetry; zcases). done. }
  assert (0 <= o < 4194304) as Hor by dlia.
  destruct (mark_pos o Hor) as [-> ->]. set (k := o / 16384) in *.
  assert (0 <= k < 256) as Hk by (unfold k; dlia).
  set (bm1 := if _ =? 0 then _ else bm).
  assert (forall b, 0 <= b < 256 -> blk bm1 b = if b =? k then 3 else blk bm b) as Hb1.
  { destruct Hm as [Hl Hm]. pose proof (blk_free_entry bm k Hk) as Hz.
    intros b Hbb. unfold bm1.
    destruct (Z.eqb_spec (Z.land (aget 0 (bm_bitmapq bm) (k / 32)) (ones_at (2 * (k mod 32)) (2 * 1))) 0)
      as [E|E].
    - pose proof (blk_set_run bm (bm_linear bm) (bm_class bm) (u32 (bm_avail bm -
        (if bytes <? HAMMER2_FREEMAP_BLOCK_SIZE then HAMMER2_FREEMAP_BLOCK_SIZE else bytes)))
        k 1 b Hl Hk ltac:(lia) ltac:(dlia) Hbb) as Hs.
      rewrite Hs. replace ((k <=? b) && (b <? k + 1)) with (b =? k) by zcases. done.
    - destruct (Z.eqb_spec b k) as [->|]; [|done].
      destruct (Hm k Hk) as [H0|]; [|done]. by apply Hz in H0. }
  assert (mem_ok bm1) as Hm1.
  { split; [unfold bm1; destruct (_ =? 0); [cbn [bm_bitmapq]; rewrite length_aset|]; apply Hm|].
    intros b Hbb. rewrite Hb1 by done. destruct (b =? k); [by right|by apply Hm]. }
  assert (bm_linear bm1 = bm_linear bm) as Hl1 by (unfold bm1; by destruct (_ =? 0)).
  h2const. set (bytes1 := if bytes <? 16384 then 0 else bytes - 16384).
  assert ((o + 16384) / 16384 = k + 1) as Ek by (unfold k; dlia).
  assert ((bytes1 + 16383) / 16384 = (bytes + 16383) / 16384 - 1 /\ 0 <= bytes1) as [Eb Hb1p]
    by (unfold bytes1; destruct (Z.ltb_spec bytes 16384); dlia).
  destruct (IH bm1 (o + 16384) bytes1 Hm1 ltac:(lia) Hb1p ltac:(lia) ltac:(lia)) as (H1 & H2 & H3).
  split; [done|]. split; [congruence|]. intros b Hbb. rewrite H3, Hb1, Ek, Eb by done.
  assert (1 <= (bytes + 16383) / 16384) by dlia.
  destruct (Z.eqb_spec b k) as [->|]; [|f_equal; zcases].
  replace (k + 1 <=? k) with false by (symmetry; zcases).
  replace ((k <=? k) && _) with true by (symmetry; zcases). done.
Qed.

(** ** Initialization of the in-memory freemap *)

(** h2_bulkfree_callback() on a segment, for any reference. *)
Lemma mark_segment_any bm class o bytes : mem_ok bm -> 0 <= o < 4194304 -> 0 <= bytes ->
  let n := Z.min bytes (4194304 - o) in
  mem_ok (mark_segment bm class o bytes) /\
  bm_linear (mark_segment bm class o bytes) = mark_linear (bm_linear bm) o n /\
  (forall b, 0 <= b < 256 -> blk (mark_segment bm class o bytes) b =
    if (o / 16384 <=? b) && (b <? o / 16384 + (n + 16383) / 16384) then 3 else blk bm b).
Proof.
  intros [Hl Hm] Ho Hb n. unfold mark_segment. h2const.
  replace (if 4194304 <? o + bytes then 4194304 - o else bytes) with n by (subst n; zcases; lia).
  assert (0 <= n <= 4194304 - o) as Hn by (subst n; lia). clearbody n.
  set (bm0 := if bm_class bm =? 0 then _ else bm).
  assert (bm_bitmapq bm0 = bm_bitmapq bm /\ bm_linear bm0 = bm_linear bm) as [Eq El]
    by (unfold bm0; by destruct (_ =? 0)).
  set (bm1 := mkBmap _ _ _ _).
  assert (forall b, blk bm1 b = blk bm b) as Eb by (intros b; unfold blk, bm1; cbn; by rewrite Eq).
  assert (mem_ok bm1) as Hm1.
  { split; [unfold bm1; cbn; by rewrite Eq|]. intros b Hbb. rewrite Eb. by apply Hm. }
  assert (o / 16384 + (n + 16383) / 16384 <= 256 /\ (n + 16383) / 16384 < 257) as [F1 F2]
    by (clear -Ho Hn; dlia).
  destruct (mark_loop_spec 257 bm1 o n Hm1 ltac:(lia) ltac:(lia) F1 F2) as (R1 & R2 & R3).
  split; [done|]. split; [rewrite R2; unfold bm1; cbn [bm_linear]; by rewrite El|].
  intros b Hbb. by rewrite R3, Eb.
Qed.

Lemma bmap_init_lokey_spec key lokey : 0 <= key < 2 ^ 63 ->
  bmap_init_lokey key lokey = Z.max lokey (key - key mod 2 ^ 30 + 4194304).
Proof.
  intros Hk. unfold bmap_init_lokey. rewrite H2FMBASE_spec, H2FMZONEBASE_spec by done. h2const.
  change (2 ^ 30) with 1073741824.
  rewrite u64_small by (unfold is_u64; clear -Hk; dlia). cbv zeta.
  set (z := key - key mod 1073741824). destruct (Z.ltb_spec lokey z); zcases; lia.
Qed.

(** [lokey] is the start of the usable part of the current gigabyte once the
    static area is behind. *)
Lemma bmap_init_loop_spec beg total n : forall key lokey i, let lo := Z.ldiff (u64 (beg + HAMMER2_SEGMASK)) HAMMER2_SEGMASK in
  0 <= beg <= total -> total < 2 ^ 62 -> 0 <= key -> key mod 4194304 = 0 ->
  key + Z.of_nat n * 4194304 < 2 ^ 63 ->
  lo <= lokey -> lokey <= Z.max lo (key - key mod 2 ^ 30 + 4194304) ->
  0 <= i < Z.of_nat n ->
  aget bmap_zero (bmap_init_loop n key lokey (Z.ldiff total HAMMER2_SEGMASK)) i =
  if decide (usable beg total (key + i * HAMMER2_SEGSIZE)) then bmap_free else bmap_full.
Proof.
  induction n as [|n IH]; intros key lokey i lo Hb Ht Hk Hkm Hn Hl1 Hl2 Hi; [lia|].
  cbn [bmap_init_loop]. rewrite bmap_init_lokey_spec by lia.
  set (lokey' := Z.max lokey (key - key mod 2 ^ 30 + 4194304)).
  destruct (roundup_seg beg) as [Hlo Hlom]; [lia|]. fold lo in Hlo, Hlom.
  assert (Z.ldiff total HAMMER2_SEGMASK = total - total mod 4194304) as Eh
    by (exact (ldiff_low total 22 ltac:(lia))).
  destruct (Z.eq_dec i 0) as [->|Hi0].
  - unfold aget at 1. cbn [lookup list_lookup Z.to_nat default]. rewrite Z.mul_0_l, Z.add_0_r.
    fold bmap_full. fold bmap_free. rewrite Eh. change (2 ^ 30) with 1073741824 in *. h2const.
    assert (lokey' = Z.max lo (key - key mod 1073741824 + 4194304)) as -> by (unfold lokey'; lia).
    case_decide as Hu; unfold usable in Hu; h2const; change (2 ^ 30) with 1073741824 in Hu;
      destruct (_ || _) eqn:Ec; try done; exfalso;
      (rewrite orb_true_iff in Ec || rewrite orb_false_iff in Ec);
      clear IH Eh; [|apply Hu]; clear Hl1 Hl2; dlia.
  - specialize (IH (key + 4194304) lokey' (i - 1)). cbv zeta in IH. fold lo in IH. clearbody lo.
    h2const. rewrite u64_small by (unfold is_u64; lia).
    replace (key + 4194304 + (i - 1) * 4194304) with (key + i * 4194304) in IH by lia.
    rewrite <- IH; clear IH; try lia.
    + unfold aget. replace (Z.to_nat i) with (S (Z.to_nat (i - 1))) by lia. done.
    + clear -Hkm. dlia.
    + unfold lokey'. change (2 ^ 30) with 1073741824 in *. clear -Hl2 Hk. dlia.
Qed.

Lemma linear_after_ok live mem lin : 0 <= bm_linear mem <= HAMMER2_SEGSIZE ->
  bm_linear mem mod 1024 = 0 -> linear_after live mem lin ->
  0 <= lin <= HAMMER2_SEGSIZE /\ lin mod 1024 = 0.
Proof.
  intros Hm Ha [-> | [-> | [-> | [-> _]]]]; h2const; clear -Hm Ha; dlia.
Qed.

(** The synchronization keeps the shape of the live bitmap. *)
Lemma sync_adjust_ok off live mem s live' s' :
  bmap_ok live -> avail_ok live -> 0 <= bm_linear mem <= HAMMER2_SEGSIZE ->
  bm_linear mem mod 1024 = 0 -> h2_bulkfree_sync_adjust off live mem s = (live', s') ->
  bmap_ok live' /\ avail_ok live'.
Proof.
  intros Hok Hav Hml Hma E.
  destruct (sync_adjust_spec off live mem s live' s' Hok Hav Hml E) as (L & U & _ & Ha & _ & Hl & _).
  destruct (linear_after_ok live mem (bm_linear live') Hml Hma Hl). split; [by split|exact Ha].
Qed.

(** ** The theorems *)

(** h2_bulkfree_sync_adjust() block by block.  A block the scan did not
    find goes from allocated to staged and from staged to free, never from
    allocated to free; a block it found becomes allocated; nothing else
    changes.  [avail] stays exact, [adj_free] is changed by what [avail] is
    changed, and a segment that ends up all free is reset for any class. *)
Theorem bulkfree_sync_table off live mem s live' s' :
  bmap_ok live -> avail_ok live -> 0 <= bm_linear mem <= HAMMER2_SEGSIZE ->
  h2_bulkfree_sync_adjust off live mem s = (live', s') ->
  (forall b, 0 <= b < 256 ->
    (blk mem b = 0 -> blk live b = 3 -> blk live' b = 2) /\
    (blk mem b = 0 -> blk live b = 2 -> blk live' b = 0) /\
    (blk mem b = 0 -> blk live b = 0 -> blk live' b = 0) /\
    (blk mem b = 3 -> blk live' b = 3)) /\
  bm_avail live' = 16384 * free_blocks live' /\
  u64 (st_adj_free s') = u64 (st_adj_free s + (bm_avail live' - bm_avail live)) /\
  ((forall b, 0 <= b < 256 -> blk live' b = 0) ->
   bm_linear live' = 0 /\ bm_class live' = 0 /\ bm_avail live' = HAMMER2_FREEMAP_LEVEL0_SIZE).
Proof.
  intros Hok Hav Hml E.
  destruct (sync_adjust_spec off live mem s live' s' Hok Hav Hml E) as (_ & _ & Hb & Ha & Hs & _ & Hz).
  split; [|split; [exact Ha|split; [exact Hs|]]].
  - intros b Hbb. rewrite Hb by done. unfold trans.
    split_and!; intros H1; rewrite H1; [intros ->..|]; done.
  - intros Hall. destruct (Hz Hall). split; [done|]. split; [done|].
    unfold avail_ok in Ha. by rewrite Ha, all_free_blocks.
Qed.

Lemma bulkfree_sync_table_witness :
  exists live' s', h2_bulkfree_sync_adjust 4194304 bmap_full bmap_free stats_zero = (live', s') /\
    blk live' 0 = 2 /\ bm_avail live' = 16384 * free_blocks live'.
Proof.
  destruct (h2_bulkfree_sync_adjust 4194304 bmap_full bmap_free stats_zero) as [live' s'] eqn:E.
  exists live', s'. split; [reflexivity|].
  destruct (bulkfree_sync_table 4194304 bmap_full bmap_free stats_zero live' s') as (H1 & H2 & _).
  - apply bmap_full_ok.
  - apply bmap_full_ok.
  - vm_compute. split; congruence.
  - exact E.
  - split; [|exact H2]. destruct (H1 0) as (H & _); [lia|]. apply H; reflexivity.
Defined.

(** two passes in a row that find no reference free every block that was
    allocated or staged, whatever the state of the rest of the segment. *)
Theorem bulkfree_two_passes_free off live mem1 s live1 s1 mem2 live2 s2 b :
  bmap_ok live -> avail_ok live -> bmap_ok mem1 -> 0 <= bm_linear mem2 <= HAMMER2_SEGSIZE ->
  h2_bulkfree_sync_adjust off live mem1 s = (live1, s1) ->
  h2_bulkfree_sync_adjust off live1 mem2 s1 = (live2, s2) ->
  0 <= b < 256 -> blk live b <> 1 -> blk mem1 b = 0 -> blk mem2 b = 0 -> blk live2 b = 0.
Proof.
  intros Hok Hav [_ _ Hm1 Hm1a] Hm2 E1 E2 Hb Hne M1 M2.
  destruct (sync_adjust_ok off live mem1 s live1 s1 Hok Hav Hm1 Hm1a E1) as [Hok1 A1].
  destruct (sync_adjust_spec off live mem1 s live1 s1 Hok Hav Hm1 E1) as (_ & _ & B1 & _).
  destruct (sync_adjust_spec off live1 mem2 s1 live2 s2 Hok1 A1 Hm2 E2) as (_ & _ & B2 & _).
  rewrite B2, B1, M1, M2 by done. unfold trans.
  pose proof (pair2_cases (aget 0 (bm_bitmapq live) (b / 32)) (b mod 32) ltac:(dlia)) as Hc.
  unfold blk in *. destruct Hc as [-> | [Hc | [-> | ->]]]; done.
Qed.

Lemma bulkfree_two_passes_free_witness :
  exists live1 s1 live2 s2,
    h2_bulkfree_sync_adjust 0 bmap_full bmap_free stats_zero = (live1, s1) /\
    h2_bulkfree_sync_adjust 0 live1 bmap_free s1 = (live2, s2) /\ blk live2 7 = 0.
Proof.
  destruct (h2_bulkfree_sync_adjust 0 bmap_full bmap_free stats_zero) as [live1 s1] eqn:E1.
  destruct (h2_bulkfree_sync_adjust 0 live1 bmap_free s1) as [live2 s2] eqn:E2.
  exists live1, s1, live2, s2. split; [reflexivity|]. split; [exact E2|].
  apply (bulkfree_two_passes_free 0 bmap_full bmap_free stats_zero live1 s1 bmap_free live2 s2 7).
  - apply bmap_full_ok.
  - apply bmap_full_ok.
  - apply bmap_free_ok.
  - vm_compute. split; congruence.
  - exact E1.
  - exact E2.
  - lia.
  - vm_compute. congruence.
  - vm_compute. reflexivity.
  - vm_compute. reflexivity.
Defined.

(** bigmask_get() is exact on the radixes the allocator is asked for: bit
    [r] is set exactly when the segment has an aligned free run for a request
    of [2^r] bytes.  So when bigmask_good() lets h2_bulkfree_sync() skip a
    segment, every radix missing in the live leaf's bigmask is one the
    segment's bitmap cannot serve. *)
Theorem bigmask_get_exact bm r : 10 <= r <= 16 ->
  (Z.testbit (bigmask_get bm) r = true <-> exists k, free_run bm k (nblocks r)) /\
  (forall live_bigmask, bigmask_good bm live_bigmask = true -> Z.testbit live_bigmask r = false ->
   forall k, ~ free_run bm k (nblocks r)).
Proof.
  intros Hr. pose proof (nblocks_cases r Hr) as Hw.
  assert (Z.testbit (bigmask_get bm) r = true <-> exists k, free_run bm k (nblocks r)) as Hex.
  { unfold bigmask_get. rewrite bigmask_elements_bit, Z.bits_0 by done. split.
    - intros [|(i & Hi & H)]; [done|]. by eapply run_in_free.
    - intros (k & Hk). right. exists (k / 32). split; [destruct Hk; dlia|]. by apply free_run_in. }
  split; [done|]. intros lb Hg Hb k Hk. unfold bigmask_good in Hg. apply Z.eqb_eq in Hg.
  assert (Z.testbit (bigmask_get bm) r = true) as Ht by (apply Hex; eauto).
  rewrite <- Hg, Z.land_spec, Hb in Ht. done.
Qed.

Lemma bigmask_get_exact_witness :
  Z.testbit (bigmask_get bmap_free) 16 = true <-> exists k, free_run bmap_free k (nblocks 16).
Proof. apply (bigmask_get_exact bmap_free 16). lia. Defined.

(** H2_bulkfree_callback() charges a 64KB reference with 160KB: on every
    position of a free segment [avail] drops by 163840 bytes while only four
    of its 16KB blocks become allocated. *)
Theorem bulkfree_callback_avail :
  forallb (fun i => let bm := mark_segment bmap_free 784 (65536 * Z.of_nat i) 65536 in
     (bm_avail bm =? HAMMER2_FREEMAP_LEVEL0_SIZE - 163840) && (free_blocks bm =? 252))
    (seq 0 64) = true.
Proof. vm_compute. reflexivity. Qed.

(** Cbinfo_bmap_init() agrees with hammer2_freemap_init(): in every window
    of a pass the in-memory freemap is free exactly on the segments the
    allocator may use and fully allocated everywhere else, so that bulkfree
    never stages a segment outside of the usable area. *)
Theorem cbinfo_bmap_init_exact beg total sbase n i :
  0 <= beg <= total -> total < 2 ^ 62 -> 0 <= sbase -> sbase mod 2 ^ 30 = 0 ->
  sbase + Z.of_nat n * 4194304 < 2 ^ 63 -> 0 <= i < Z.of_nat n ->
  aget bmap_zero (cbinfo_bmap_init beg total sbase n) i =
  if decide (usable beg total (sbase + i * HAMMER2_SEGSIZE)) then bmap_free else bmap_full.
Proof.
  intros Hb Ht Hs Hsm Hn Hi. apply bmap_init_loop_spec; try done; [|lia].
  change (2 ^ 30) with 1073741824 in Hsm. clear -Hsm. dlia.
Qed.

Lemma cbinfo_bmap_init_exact_witness :
  aget bmap_zero (cbinfo_bmap_init 8388608 1073741824 0 256) 5 =
  if decide (usable 8388608 1073741824 (0 + 5 * HAMMER2_SEGSIZE)) then bmap_free else bmap_full.
Proof. apply cbinfo_bmap_init_exact; vm_compute; intuition congruence. Defined.
