(* ===== verification/BulkfreeSafety.v ===== *)
(** Allocation, deletion and bulkfree on one segment, interleaved: a state
    machine, its invariant by induction on its steps, and that no allocation
    ever overlaps an extent that is still referenced. *)
From S2P Require Import Prelude Disk Subr Bmap Freemap FreemapProof Bulkfree BulkfreeProof.
From Stdlib Require Import ZArith Lia Bool.
From stdpp Require Import base list gmap relations.
Import Leaf Gather Sync.
Open Scope Z_scope.

(** ** Extents and their blocks *)

(** An extent the allocator makes: whole blocks, or part of one block. *)
Definition ext_ok (e : Z * Z) : Prop :=
  0 <= e.1 /\ 0 < e.2 /\ e.1 + e.2 <= HAMMER2_SEGSIZE /\ e.1 mod 1024 = 0 /\ e.2 mod 1024 = 0 /\
  ((e.1 mod 16384 = 0 /\ e.2 mod 16384 = 0) \/
   (e.2 mod 16384 <> 0 /\ e.1 mod 16384 + e.2 <= 16384)).

Definition covers (e : Z * Z) (b : Z) : Prop := e.1 / 16384 <= b <= (e.1 + e.2 - 1) / 16384.

#[export] Instance covers_dec e b : Decision (covers e b).
Proof. unfold covers. apply _. Defined.

Lemma ext_blocks e : ext_ok e ->
  e.1 / 16384 + (e.2 + 16383) / 16384 = (e.1 + e.2 - 1) / 16384 + 1 /\
  0 <= e.1 / 16384 /\ (e.1 + e.2 - 1) / 16384 < 256.
Proof. destruct e as [o s]. intros (H1 & H2 & H3 & _ & _ & H4). cbn [fst snd] in *. h2const. dlia. Qed.

Lemma covers_range e b : ext_ok e -> covers e b -> 0 <= b < 256.
Proof. intros H Hc. destruct (ext_blocks e H) as (_ & ? & ?). unfold covers in Hc. lia. Qed.

Lemma mark_segment_spec bm class e : mem_ok bm -> ext_ok e ->
  mem_ok (mark_segment bm class e.1 e.2) /\
  bm_linear (mark_segment bm class e.1 e.2) = mark_linear (bm_linear bm) e.1 e.2 /\
  (forall b, 0 <= b < 256 ->
    blk (mark_segment bm class e.1 e.2) b = if decide (covers e b) then 3 else blk bm b).
Proof.
  intros Hm He. destruct (ext_blocks e He) as (E & H1 & H2). pose proof He as (Ho & Hs & Hf & _).
  h2const. destruct (mark_segment_any bm class e.1 e.2 Hm ltac:(lia) ltac:(lia)) as (R1 & R2 & R3).
  rewrite Z.min_l in R2, R3 by lia. split; [done|]. split; [done|].
  intros b Hb. rewrite R3, E by done.
  destruct (decide (covers e b)) as [Hc|Hc]; unfold covers in Hc; [|destruct (_ && _) eqn:Ec; [|done]].
  - replace (_ && _) with true by (symmetry; zcases). done.
  - exfalso. apply Hc. lia.
Qed.

(** ** A scan of the references *)

Definition gather (class : Z) (l : list (Z * Z)) : hammer2_bmap_data :=
  foldr (fun e bm => mark_segment bm class e.1 e.2) bmap_free l.

Record gathered (l : list (Z * Z)) (mem : hammer2_bmap_data) : Prop := {
  ga_mem : mem_ok mem;
  ga_blk : forall b, 0 <= b < 256 -> (blk mem b = 3 <-> exists e, e ∈ l /\ covers e b);
  ga_lin : 0 <= bm_linear mem <= HAMMER2_SEGSIZE /\ bm_linear mem mod 1024 = 0;
  ga_last : 0 < bm_linear mem -> blk mem ((bm_linear mem - 1) / 16384) = 3;
  ga_max : forall e, e ∈ l -> e.2 mod 16384 <> 0 -> e.1 + e.2 <= bm_linear mem;
  ga_frag : bm_linear mem mod 16384 <> 0 ->
    exists e, e ∈ l /\ e.2 mod 16384 <> 0 /\ e.1 + e.2 = bm_linear mem
}.

Lemma mark_linear_cases lin e : 0 <= lin -> ext_ok e ->
  (mark_linear lin e.1 e.2 = lin /\ (e.2 mod 16384 <> 0 -> e.1 + e.2 <= lin)) \/
  (mark_linear lin e.1 e.2 = e.1 + e.2 /\ lin < e.1 + e.2).
Proof.
  intros Hl (Ho & Hs & _). unfold mark_linear. rewrite land_block_mask by lia.
  destruct (nz_spec (e.2 mod 16384)); zcases; cbn [andb]; lia.
Qed.

Lemma bmap_free_blk b : 0 <= b < 256 -> blk bmap_free b = 0.
Proof.
  intros Hb. unfold blk. cbn [bmap_free bm_bitmapq]. rewrite aget_replicate by dlia. apply pair2_0.
Qed.

Lemma gather_spec class l : Forall ext_ok l -> gathered l (gather class l).
Proof.
  induction l as [|e l IH]; intros Hok; cbn [gather foldr].
  - split.
    + split; [done|]. intros b Hb. left. by apply bmap_free_blk.
    + intros b Hb. rewrite bmap_free_blk by done. split; [done|]. intros (e & He & _). set_solver.
    + vm_compute. intuition congruence.
    + done.
    + set_solver.
    + done.
  - inversion Hok as [|? ? He Hok']; subst. fold (gather class l). set (mem := gather class l) in *.
    destruct (IH Hok') as [G1 G2 [G3 G3'] G4 G5 G6].
    destruct (mark_segment_spec mem class e G1 He) as (M1 & M2 & M3).
    pose proof He as (Ho & Hs & Hf & Ha1 & Ha2 & Hc).
    assert (forall b, 0 <= b < 256 -> (blk (mark_segment mem class e.1 e.2) b = 3 <->
      exists e', e' ∈ e :: l /\ covers e' b)) as Hb.
    { intros b Hb. rewrite M3 by done. setoid_rewrite elem_of_cons.
      destruct (decide (covers e b)) as [Hcv|Hcv]; [by split; eauto|]. rewrite G2 by done.
      split; [intros (e' & H1 & H2); eauto|]. intros (e' & [-> | H1] & H2); [done|eauto]. }
    destruct (mark_linear_cases (bm_linear mem) e ltac:(lia) He) as [[El Hle]|[El Hlt]];
      rewrite El in M2; split; rewrite ?M2; try done.
    + intros Hpos. rewrite M3 by (h2const; dlia). case_decide; [done|by apply G4].
    + intros e'. rewrite elem_of_cons. intros [-> | H1]; [done|by apply G5].
    + intros Hfr. destruct (G6 Hfr) as (e' & H1 & H2). exists e'. split; [by apply elem_of_cons; right|done].
    + h2const. split; [lia|]. clear -Ha1 Ha2. dlia.
    + intros _. destruct (ext_blocks e He) as (_ & H1 & H2). rewrite M3 by (clear -Ho Hs H2; dlia).
      rewrite decide_True; [done|]. unfold covers. clear -Ho Hs. dlia.
    + intros e'. rewrite elem_of_cons. intros [-> | H1]; [done|]. intros H2. specialize (G5 e' H1 H2). lia.
    + intros Hfr. exists e. split; [by apply elem_of_cons; left|]. split; [|done].
      destruct Hc as [[H1 H2]|[H1 _]]; [|done]. clear -H1 H2 Hfr. dlia.
Qed.

(** ** The lowest free block *)

Lemma scan_bits_first fuel q t mask j m :
  0 <= t -> (t < 32 -> mask = ones_at (2 * t) (2 * 1)) ->
  scan_bits fuel q 2 (2 * t) mask = Some (j, m) ->
  forall t', t <= t' -> 2 * t' < j -> t' < 32 -> pair2 q t' <> 0.
Proof.
  revert t mask. induction fuel as [|f IH]; intros t mask Ht Hm; cbn [scan_bits]; [done|].
  h2const. destruct (Z.ltb_spec (2 * t) 64) as [Hlt|]; [|done].
  destruct (Z.eqb_spec (Z.land q mask) 0) as [Hz|Hnz]; [intros [= <- <-]; lia|].
  replace (2 * t + 2) with (2 * (t + 1)) by lia. intros E t' H1 H2 H3.
  destruct (Z.eq_dec t' t) as [->|].
  - rewrite Hm in Hnz by lia. intros Hp. apply Hnz. apply land_run_zero; [lia..|].
    intros b Hb. by replace b with t by lia.
  - eapply IH; [| |exact E| | |]; try lia. intros Hlt'. rewrite Hm by lia.
    rewrite ones_at_shift by lia. f_equal. lia.
Qed.

Lemma scan_elements_first n bq i0 i j m :
  0 <= i0 -> scan_elements n bq 2 i0 = Some (i, j, m) ->
  forall b, 32 * i0 <= b < 32 * i + j / 2 -> pair2 (aget 0 bq (b / 32)) (b mod 32) <> 0.
Proof.
  revert i0. induction n as [|n IH]; intros i0 Hi; cbn [scan_elements]; [done|].
  destruct (scan_bits 33 (aget 0 bq i0) 2 0 (bmmask_of 2)) as [[j' m']|] eqn:E.
  - intros [= <- <- <-] b Hb. change 0 with (2 * 0) in E at 2.
    pose proof E as Hs. change 2 with (2 * 1) in Hs at 1. change (2 * 0) with (2 * (1 * 0)) in Hs.
    apply scan_bits_some in Hs; [|by left|lia|done]. destruct Hs as (t & _ & Hj & Ht & _).
    replace (b / 32) with i0 by dlia.
    apply (scan_bits_first 33 _ 0 (bmmask_of 2) j' m'); try done; dlia.
  - intros E' b Hb. destruct (Z.lt_ge_cases b (32 * (i0 + 1))).
    + replace (b / 32) with i0 by dlia. intros Hp.
      pose proof (scan_bits_none 1 ltac:(by left) 33 (aget 0 bq i0) 0 (bmmask_of 2)) as Hn.
      apply (Hn ltac:(lia) ltac:(done) ltac:(lia) E (b mod 32)); [dlia..|].
      apply land_run_zero; [dlia..|]. intros b' Hb'. by replace b' with (b mod 32) by lia.
    + eapply IH; [|exact E'|]; lia.
Qed.

(** A sub-block request that the linear iterator does not serve takes the
    lowest free block. *)
Lemma alloc_lowest fr bm class sub_key radix r :
  bmap_ok bm -> request_ok class sub_key radix -> radix < 14 ->
  hammer2_bmap_alloc fr bm class sub_key radix 0 = Some r -> ba_base r mod 16384 = 0 ->
  forall b, 0 <= b < ba_base r / 16384 -> blk bm b <> 0.
Proof.
  intros Hok Hreq H14 E. pose proof (proj1 Hreq) as Hr.
  destruct (alloc_picked _ _ _ _ _ _ _ Hok Hreq E) as (i' & m' & off' & lin' & Hp & Hb & _).
  destruct (picked_blocks _ _ _ _ _ _ Hok Hr Hp) as (_ & _ & _ & _ & _ & _ & _ & _ & _ & _ & Ho1 & Ho2 & _).
  destruct (pow2_radix_bounds radix Hr) as (Hsz & _).
  assert (ba_base r = off') as Eb by (rewrite Hb; apply u64_small; unfold is_u64; h2const; lia).
  unfold hammer2_bmap_alloc, pick in E.
  destruct (linear_usable bm (Z.shiftl 1 radix) && linear_active bm) eqn:Hlin.
  - injection E as <-. cbn [ba_base] in Eb |- *. intros Hm. exfalso.
    apply andb_true_iff in Hlin as [_ Ha]. unfold linear_active in Ha. apply andb_true_iff in Ha as [Ha _].
    rewrite land_block_mask in Ha by apply Hok. destruct (nz_spec (bm_linear bm mod 16384)) as [Hn|]; [|done].
    apply Hn. destruct Hok as [_ _ Hlr _]. rewrite u64_small in Hm by (unfold is_u64; h2const; lia). done.
  - unfold bitmap_pos, sub_key_pos in E. h2const.
    replace ((Z.shiftr class 8 =? HAMMER2_BREF_TYPE_DATA) && (14 <=? radix)) with false in E
      by (symmetry; apply andb_false_iff; right; zcases).
    destruct (scan_elements 8 (bm_bitmapq bm) (bmradix_of radix) 0) as [[[i j] m]|] eqn:Es; [|done].
    injection E as <-. cbn [ba_base] in Eb |- *. rewrite Eb. intros Hm b Hbb.
    replace (bmradix_of radix) with 2 in Es by (unfold bmradix_of; h2const; zcases).
    pose proof (scan_elements_some 1 ltac:(by left) 8 (bm_bitmapq bm) 0 i j m ltac:(lia) Es)
      as (Hi & t & Ht & Hj & Hf & _).
    apply (scan_elements_first 8 (bm_bitmapq bm) 0 i j m ltac:(lia) Es). split; [lia|].
    rewrite u64_small in Eb; [|unfold is_u64; change (4194304 / 8) with 524288; change (16384 / 2) with 8192; lia].
    change (4194304 / 8) with 524288 in Eb. change (16384 / 2) with 8192 in Eb. clear -Hbb Eb Hj. dlia.
Qed.

(** The three ways a segment serves a request. *)
Inductive served (bm : hammer2_bmap_data) (radix off lin' : Z) : Prop :=
  | served_linear : radix < 14 -> off = bm_linear bm -> bm_linear bm mod 16384 <> 0 ->
      bm_linear bm < HAMMER2_SEGSIZE -> off mod 16384 + 2 ^ radix <= 16384 ->
      lin' = off + 2 ^ radix -> served bm radix off lin'
  | served_block k : radix < 14 -> off = 16384 * k -> 0 <= k < 256 -> blk bm k = 0 ->
      (forall b, 0 <= b < k -> blk bm b <> 0) -> lin' = off + 2 ^ radix -> served bm radix off lin'
  | served_run : 14 <= radix -> (forall b, covers (off, 2 ^ radix) b -> blk bm b = 0) ->
      lin' = bm_linear bm -> served bm radix off lin'.

Lemma alloc_served fr bm class sub_key radix r :
  bmap_ok bm -> request_ok class sub_key radix ->
  hammer2_bmap_alloc fr bm class sub_key radix 0 = Some r ->
  ext_ok (ba_base r, 2 ^ radix) /\
  (forall b, 0 <= b < 256 -> blk (ba_bmap r) b =
    if decide (covers (ba_base r, 2 ^ radix) b) then 3 else blk bm b) /\
  served bm radix (ba_base r) (bm_linear (ba_bmap r)).
Proof.
  intros Hok Hreq E. pose proof (proj1 Hreq) as Hr.
  destruct (alloc_picked _ _ _ _ _ _ _ Hok Hreq E) as (i & m & off & lin & Hp & Hb & Hl & Hq & _).
  destruct (picked_blk _ _ _ _ _ _ _ Hok Hr Hp Hq) as (Ho1 & Ho2 & Hblk).
  destruct (pow2_radix_bounds radix Hr) as (Hsz & Hszm & Hlt & Hge).
  assert (ba_base r = off) as -> by (rewrite Hb; apply u64_small; unfold is_u64; h2const; lia).
  pose proof Hok as Hok0. destruct Hok as [_ _ Hlr Hla].
  assert (2 ^ radix mod 16384 = if radix <? 14 then 2 ^ radix else 0) as Hmod.
  { destruct (Z.ltb_spec radix 14); [apply Z.mod_small; lia|]. rewrite Hge, Z.mul_comm by lia.
    apply Z.mod_mul. lia. }
  split; [|split].
  - unfold ext_ok. cbn [fst snd]. split; [done|]. split; [lia|]. split; [done|].
    split; [destruct Hp; [done|dlia]|]. split; [done|]. rewrite Hmod.
    destruct Hp as [H14 Hne Hs Hfit|k Hf]; [right|destruct (Z.ltb_spec radix 14); [right|left]].
    + destruct (Z.ltb_spec radix 14); lia.
    + replace ((16384 * k) mod 16384) with 0 by dlia. lia.
    + split; [dlia|done].
  - intros b Hbb. rewrite Hblk by done. unfold covers. cbn [fst snd].
    destruct (decide _) as [Hd|Hd]; [|destruct (_ && _) eqn:Ec; [|done]].
    + replace (_ && _) with true by (symmetry; zcases). done.
    + exfalso. apply Hd. lia.
  - rewrite Hl. pose proof (nblocks_cases radix Hr).
    destruct Hp as [H14 Hne Hs Hfit|k Hf]; [by apply served_linear|].
    destruct (Z.ltb_spec radix 14) as [H14|H14].
    + apply (served_block _ _ _ _ k); try done; [apply Hf|apply Hf; lia|].
      assert (ba_base r = 16384 * k) as Ek by (rewrite Hb; apply u64_small; unfold is_u64; h2const; lia).
      pose proof (alloc_lowest _ _ _ _ _ _ Hok0 Hreq H14 E) as Hlow. rewrite Ek in Hlow.
      replace (16384 * k / 16384) with k in Hlow by dlia. apply Hlow. dlia.
    + apply served_run; try done. intros b. unfold covers. cbn [fst snd]. rewrite Hge by done.
      intros Hc. destruct Hf as (_ & _ & Hf). apply Hf. clear -Hc H. dlia.
Qed.

(** ** The machine *)

(** A segment: its live bitmap, the extents the flushed and unflushed topology
    still references, and the in-memory bitmap of a bulkfree pass between its
    scan and its reconciliation. *)
Record seg := mkSeg {
  sg_live : hammer2_bmap_data;
  sg_refs : list (Z * Z);
  sg_snap : option hammer2_bmap_data
}.

Definition seg_fresh : seg := mkSeg bmap_free [] None.

Inductive seg_step : seg -> seg -> Prop :=
  | step_alloc live refs snap fr class sub_key radix r :
      request_ok class sub_key radix ->
      hammer2_bmap_alloc fr live class sub_key radix 0 = Some r ->
      seg_step (mkSeg live refs snap)
               (mkSeg (ba_bmap r) ((ba_base r, 2 ^ radix) :: refs) snap)
  | step_delete live refs1 e refs2 snap :
      seg_step (mkSeg live (refs1 ++ e :: refs2) snap) (mkSeg live (refs1 ++ refs2) snap)
  | step_scan live refs order class :
      order ≡ₚ refs ->
      seg_step (mkSeg live refs None) (mkSeg live refs (Some (gather class order)))
  | step_skip live refs mem bigmask :
      sync_skip live mem bigmask = true ->
      seg_step (mkSeg live refs (Some mem)) (mkSeg live refs None)
  | step_sync live refs mem off s live' s' :
      h2_bulkfree_sync_adjust off live mem s = (live', s') ->
      seg_step (mkSeg live refs (Some mem)) (mkSeg live' refs None).

(** Where the linear iterator may stand. *)
Record linear_inv (live : hammer2_bmap_data) : Prop := {
  ln_mid : bm_linear live mod 16384 <> 0 -> bm_linear live < HAMMER2_SEGSIZE ->
    0 < bm_linear live / 16384 -> blk live (bm_linear live / 16384 - 1) <> 0;
  ln_aligned : bm_linear live mod 16384 = 0 -> 0 < bm_linear live < HAMMER2_SEGSIZE ->
    blk live (bm_linear live / 16384 - 1) = 3
}.

(** A pass in progress: what it has not seen was allocated since and is 11,
    what it has seen is not free, and moving the linear iterator up to the
    scan's is either harmless or will not happen. *)
Record snap_inv (live : hammer2_bmap_data) (refs : list (Z * Z)) (mem : hammer2_bmap_data) : Prop := {
  sn_mem : mem_ok mem;
  sn_lin : 0 <= bm_linear mem <= HAMMER2_SEGSIZE /\ bm_linear mem mod 1024 = 0;
  sn_cov : forall e b, e ∈ refs -> covers e b -> 0 <= b < 256 -> blk mem b = 3 \/ blk live b = 3;
  sn_seen : forall b, 0 <= b < 256 -> blk mem b = 3 -> blk live b <> 0;
  sn_last : 0 < bm_linear mem -> blk mem ((bm_linear mem - 1) / 16384) = 3;
  sn_mid : bm_linear mem mod 16384 <> 0 -> bm_linear live mod 16384 <> 0 ->
    bm_linear live / 16384 = bm_linear mem / 16384 -> bm_linear mem <= bm_linear live;
  sn_raise : bm_linear mem mod 16384 <> 0 ->
    (forall e, e ∈ refs -> sep (bm_linear mem, 16384 - bm_linear mem mod 16384) e) \/
    (~ (16384 * (bm_linear mem / 16384 - 1) < bm_linear live < bm_linear mem) /\
     (0 < bm_linear mem / 16384 -> blk live (bm_linear mem / 16384 - 1) <> 0))
}.

Record seg_inv (s : seg) : Prop := {
  si_ok : bmap_ok (sg_live s);
  si_avail : avail_ok (sg_live s);
  si_ext : Forall ext_ok (sg_refs s);
  si_ledger : ledger_inv (sg_live s) (sg_refs s);
  si_linear : linear_inv (sg_live s);
  si_snap : match sg_snap s with None => True | Some mem => snap_inv (sg_live s) (sg_refs s) mem end
}.

Lemma seg_fresh_inv : seg_inv seg_fresh.
Proof.
  destruct bmap_free_ok as (H1 & H2 & H3).
  split; [exact H1|exact H2|constructor|exact H3| |exact I].
  split; intros H; vm_compute in H; [done|]. vm_compute. intros [? _]. done.
Qed.

(** *** Allocation *)

(** Blocks only ever become 11 by an allocation. *)
Lemma served_mono live live' off radix b : ext_ok (off, 2 ^ radix) ->
  (forall b, 0 <= b < 256 ->
    blk live' b = if decide (covers (off, 2 ^ radix) b) then 3 else blk live b) ->
  0 <= b < 256 -> (blk live b <> 0 -> blk live' b <> 0) /\ (blk live b = 3 -> blk live' b = 3).
Proof. intros He H Hb. rewrite H by done. case_decide; [split; lia|done]. Qed.

Lemma served_block_covers k s : 0 <= k -> 0 < s < 16384 -> covers (16384 * k, s) k.
Proof. intros. unfold covers. cbn. dlia. Qed.

Section Served.
Context (live live' : hammer2_bmap_data) (radix off : Z).
Context (Hok : bmap_ok live) (Hr : 10 <= radix <= 16) (He : ext_ok (off, 2 ^ radix)).
Context (Hb : forall b, 0 <= b < 256 ->
  blk live' b = if decide (covers (off, 2 ^ radix) b) then 3 else blk live b).
Context (Hs : served live radix off (bm_linear live')).

Lemma served_nonzero b : 0 <= b < 256 -> blk live b <> 0 -> blk live' b <> 0.
Proof. intros Hbb. by apply (served_mono live live' off radix). Qed.
Lemma served_three b : 0 <= b < 256 -> blk live b = 3 -> blk live' b = 3.
Proof. intros Hbb. by apply (served_mono live live' off radix). Qed.
Lemma served_covered b : 0 <= b < 256 -> covers (off, 2 ^ radix) b -> blk live' b = 3.
Proof. intros Hbb Hc. rewrite Hb by done. by rewrite decide_True. Qed.

Lemma served_linear_inv : linear_inv live -> linear_inv live'.
Proof.
  intros [L1 L2]. pose proof (bok_linear _ Hok) as Hlr.
  destruct (pow2_radix_bounds radix Hr) as (Hsz & _ & Hlt & _).
  destruct Hs as [H14 Eo Hne Hls Hfit El | k H14 Eo Hk Hz Hlow El | H14 Hf El];
    split; rewrite El; intros H1 H2; h2const.
  - assert ((off + 2 ^ radix) / 16384 = bm_linear live / 16384) as ->
      by (clear -H1 Hfit Hsz Eo; dlia). intros H3.
    apply served_nonzero; [clear -Hlr Hls H3; dlia|]. by apply L1.
  - apply served_covered; [clear -H1 H2 Hfit Hlr Hls Eo; dlia|].
    unfold covers. cbn [fst snd]. clear -H1 Hne Hfit Hsz Eo. dlia.
  - assert ((off + 2 ^ radix) / 16384 = k) as ->
      by (specialize (Hlt H14); clear -Eo Hsz Hlt; dlia). intros H3.
    apply served_nonzero; [lia|]. apply Hlow. lia.
  - exfalso. specialize (Hlt H14). clear -Eo H1 Hsz Hlt. dlia.
  - intros H3. apply served_nonzero; [clear -Hlr H2 H3; dlia|]. by apply L1.
  - apply served_three; [clear -H1 H2; dlia|]. by apply L2.
Qed.

(** Entering the block of the scan's linear iterator, or coming back to its
    start, is impossible: that block is not free, nor the one below. *)
Lemma served_snap_mid mem refs : snap_inv live refs mem ->
  bm_linear mem mod 16384 <> 0 -> bm_linear live' mod 16384 <> 0 ->
  bm_linear live' / 16384 = bm_linear mem / 16384 -> bm_linear mem <= bm_linear live'.
Proof.
  intros HS. pose proof HS as [_ [Hml _] _ Hseen Hlast Hmid _]. intros Hm Hl' Eb.
  destruct (pow2_radix_bounds radix Hr) as (Hsz & _ & Hlt & _). pose proof (bok_linear _ Hok) as Hlr.
  destruct Hs as [H14 Eo Hne Hls Hfit El | k H14 Eo Hk Hz Hlow El | H14 Hf El]; rewrite El in Hl', Eb |- *; h2const.
  - assert (bm_linear mem <= bm_linear live); [|lia]. apply Hmid; [done|done|].
    rewrite <- Eb. clear -Hl' Hfit Hsz Hne Eo. dlia.
  - exfalso. specialize (Hlt H14). assert (k = bm_linear mem / 16384) as Ek by (rewrite <- Eb; clear -Eo Hsz Hlt; dlia).
    apply (Hseen k Hk); [|done]. rewrite Ek.
    replace (bm_linear mem / 16384) with ((bm_linear mem - 1) / 16384) by (clear -Hm; dlia).
    apply Hlast. clear -Hml Hm. dlia.
  - by apply Hmid.
Qed.

(** The block of the scan's linear iterator is not free. *)
Lemma snap_block mem refs : snap_inv live refs mem -> bm_linear mem mod 16384 <> 0 ->
  0 <= bm_linear mem / 16384 < 256 /\ blk live (bm_linear mem / 16384) <> 0.
Proof.
  intros [_ [Hml _] _ Hseen Hlast _ _] Hm. h2const.
  assert (0 <= bm_linear mem / 16384 < 256) as Hrange by (clear -Hml Hm; dlia).
  split; [done|]. apply Hseen; [done|].
  replace (bm_linear mem / 16384) with ((bm_linear mem - 1) / 16384) by (clear -Hm; dlia).
  apply Hlast. clear -Hml Hm. dlia.
Qed.

Lemma served_snap_raise mem refs : linear_inv live -> snap_inv live refs mem ->
  bm_linear mem mod 16384 <> 0 ->
  (forall e, e ∈ (off, 2 ^ radix) :: refs -> sep (bm_linear mem, 16384 - bm_linear mem mod 16384) e) \/
  (~ (16384 * (bm_linear mem / 16384 - 1) < bm_linear live' < bm_linear mem) /\
   (0 < bm_linear mem / 16384 -> blk live' (bm_linear mem / 16384 - 1) <> 0)).
Proof.
  intros [L1 _] HS Hm. destruct (snap_block mem refs HS Hm) as [Hmb Hmz].
  pose proof HS as [_ [Hml _] _ _ _ _ Hraise]. pose proof (bok_linear _ Hok) as Hlr.
  destruct (pow2_radix_bounds radix Hr) as (Hsz & _ & Hlt & _).
  set (m := bm_linear mem / 16384) in *. assert (16384 * m < bm_linear mem < 16384 * (m + 1)) as Hmr
    by (unfold m; clear -Hm; dlia).
  replace (16384 - bm_linear mem mod 16384) with (16384 * (m + 1) - bm_linear mem) in *
    by (unfold m; clear; dlia).
  destruct (Hraise Hm) as [J1|[J2 J2b]].
  - destruct (decide (sep (bm_linear mem, 16384 * (m + 1) - bm_linear mem) (off, 2 ^ radix))) as [Hsep|Hn].
    { left. intros e. rewrite elem_of_cons. intros [-> |]; [done|by apply J1]. }
    right. unfold sep in Hn. cbn [fst snd] in Hn.
    destruct Hs as [H14 Eo Hne Hls Hfit El | k H14 Eo Hk Hz Hlow El | H14 Hf El]; rewrite El; h2const.
    + split; [lia|]. intros H0. apply served_nonzero; [lia|].
      assert (bm_linear live / 16384 = m) as Em by (clear -Hn Hmr Eo Hfit Hsz; dlia).
      rewrite <- Em. apply L1; [done|done|lia].
    + exfalso. apply Hmz. assert (m = k) as -> by (specialize (Hlt H14); clear -Hn Hmr Eo Hlt Hsz; dlia). done.
    + exfalso. apply Hmz, Hf. unfold covers. cbn [fst snd]. clear -Hn Hmr Hsz. dlia.
  - right. split; [|intros H0; apply served_nonzero; [lia|by apply J2b]].
    destruct Hs as [H14 Eo Hne Hls Hfit El | k H14 Eo Hk Hz Hlow El | H14 Hf El]; rewrite El; h2const.
    + clear -J2 Eo Hne Hfit Hsz Hmr. dlia.
    + specialize (Hlt H14). intros Hin. assert (k = m \/ k = m - 1) as [-> | ->]
        by (clear -Hin Eo Hmr Hlt Hsz; lia); [done|]. apply J2b; [lia|done].
    + done.
Qed.

Lemma served_snap_inv mem refs : linear_inv live -> snap_inv live refs mem ->
  snap_inv live' ((off, 2 ^ radix) :: refs) mem.
Proof.
  intros HL HS. pose proof HS as [S1 S2 S3 S4 S5 _ _]. split; try done.
  - intros e b. rewrite elem_of_cons. intros [-> | Hel] Hc Hbb.
    + right. by apply served_covered.
    + destruct (S3 e b Hel Hc Hbb); [by left|right; by apply served_three].
  - intros b Hbb H3. by apply served_nonzero, S4.
  - by apply (served_snap_mid mem refs).
  - by apply served_snap_raise.
Qed.
End Served.

(** *** The steps *)

Lemma step_alloc_inv live refs snap fr class sub_key radix r :
  seg_inv (mkSeg live refs snap) -> request_ok class sub_key radix ->
  hammer2_bmap_alloc fr live class sub_key radix 0 = Some r ->
  seg_inv (mkSeg (ba_bmap r) ((ba_base r, 2 ^ radix) :: refs) snap).
Proof.
  intros [H1 H2 H3 H4 H5 H6] Hreq E. cbn [sg_live sg_refs sg_snap] in *.
  destruct (alloc_served _ _ _ _ _ _ H1 Hreq E) as (He & Hb & Hs).
  destruct (ledger_alloc _ _ _ _ _ _ _ _ H1 Hreq H4 E) as (off & Hbase & Hled).
  assert (ba_base r = off) as <-.
  { rewrite Hbase. apply u64_small. destruct (led_in _ _ Hled off (2 ^ radix)) as (? & ? & ?);
      [apply elem_of_cons; by left|]. unfold is_u64. h2const. lia. }
  split; cbn [sg_live sg_refs sg_snap].
  - by eapply alloc_bmap_ok.
  - by eapply alloc_avail.
  - by constructor.
  - done.
  - eapply (served_linear_inv live); eauto. apply Hreq.
  - destruct snap as [mem|]; [|done]. eapply (served_snap_inv live); eauto. apply Hreq.
Qed.

Lemma ordpairs_delete {A} (R : A -> A -> Prop) l1 e l2 :
  ForallOrdPairs R (l1 ++ e :: l2) -> ForallOrdPairs R (l1 ++ l2).
Proof.
  induction l1 as [|x l1 IH]; cbn; intros H; inversion H as [|? ? Hx Hl]; subst; [done|].
  constructor; [|by apply IH]. rewrite Forall_app in Hx |- *. destruct Hx as [? Hx].
  by inversion Hx.
Qed.

Lemma step_delete_inv live refs1 e refs2 snap :
  seg_inv (mkSeg live (refs1 ++ e :: refs2) snap) -> seg_inv (mkSeg live (refs1 ++ refs2) snap).
Proof.
  intros [H1 H2 H3 H4 H5 H6]. cbn [sg_live sg_refs sg_snap] in *.
  assert (forall x, x ∈ refs1 ++ refs2 -> x ∈ refs1 ++ e :: refs2) as Hsub
    by (intros x; rewrite !elem_of_app, elem_of_cons; tauto).
  destruct H4 as [A1 A2 A3 A4].
  split; cbn [sg_live sg_refs sg_snap]; try done.
  - rewrite Forall_forall in H3 |- *. by auto.
  - split; [by eauto|by eauto|by eapply ordpairs_delete|].
    intros X Y. destruct (A4 X Y). split; [done|by auto].
  - destruct snap as [mem|]; [|done]. destruct H6 as [S1 S2 S3 S4 S5 S6 S7]. split; try done; [by eauto|].
    intros X. destruct (S7 X); [left; by auto|by right].
Qed.

(** Distinct members of a separated list are apart. *)
Lemma ordpairs_sep l e e' : ForallOrdPairs sep l -> e ∈ l -> e' ∈ l -> e <> e' -> sep e e'.
Proof.
  intros Hl. induction Hl as [|x l Hx Hl IH]; intros H1 H2 Hne; [set_solver|].
  rewrite Forall_forall in Hx. rewrite elem_of_cons in H1, H2.
  destruct H1 as [-> | H1], H2 as [-> | H2]; [done|by apply Hx| |by apply IH].
  specialize (Hx e H1). unfold sep in *. lia.
Qed.

(** The scan's linear iterator has no reference above it in its block. *)
Lemma gathered_clear refs mem : Forall ext_ok refs -> ForallOrdPairs sep refs -> gathered refs mem ->
  bm_linear mem mod 16384 <> 0 ->
  forall e, e ∈ refs -> sep (bm_linear mem, 16384 - bm_linear mem mod 16384) e.
Proof.
  intros Hext Hsep [_ _ _ _ Gmax Gfrag] Hm e Hel. rewrite Forall_forall in Hext.
  destruct (Z.eq_dec (e.2 mod 16384) 0) as [Hw|Hf].
  - destruct (Gfrag Hm) as (e' & Hel' & Hf' & Eend).
    assert (sep e e') as Hs by (apply (ordpairs_sep refs); [done..|congruence]).
    destruct (Hext _ Hel) as (P1 & P2 & P3 & _ & _ & [[Pa _]|[Pa _]]); [|done].
    destruct (Hext _ Hel') as (Q1 & Q2 & Q3 & _ & _ & [[_ Qa]|[_ Qa]]); [done|].
    unfold sep in *. cbn [fst snd]. clear -P1 P2 Pa Q1 Q2 Qa Hs Eend Hm. dlia.
  - specialize (Gmax e Hel Hf). unfold sep. cbn [fst snd]. right. lia.
Qed.

Lemma step_scan_inv live refs order class : order ≡ₚ refs ->
  seg_inv (mkSeg live refs None) -> seg_inv (mkSeg live refs (Some (gather class order))).
Proof.
  intros Hp [H1 H2 H3 H4 H5 _]. cbn [sg_live sg_refs sg_snap] in *. split; try done.
  cbn [sg_live sg_refs sg_snap]. assert (gathered refs (gather class order)) as HG.
  { destruct (gather_spec class order) as [G1 G2 G3 G4 G5 G6]; [by rewrite Hp|].
    split; try done; setoid_rewrite <- Hp; done. }
  pose proof HG as [G1 G2 G3 G4 G5 G6]. destruct H4 as [A1 A2 A3 A4]. split; try done.
  - intros e b Hel Hc Hb. left. apply G2; [done|by exists e].
  - intros b Hb H. apply G2 in H as ([o s] & Hel & Hc); [|done]. by eapply A2.
  - intros Hm Hl Eb. destruct (G6 Hm) as (e & Hel & Hf & Eend).
    pose proof (bok_linear _ H1). destruct G3 as [G3 _]. h2const.
    destruct A4 as [_ Hs]; [done|h2const; clear -Eb Hm G3; dlia|]. specialize (Hs _ Hel).
    rewrite Forall_forall in H3. destruct (H3 _ Hel) as (P1 & P2 & _ & _ & _ & [[_ Pa]|[_ Pa]]); [done|].
    unfold sep in Hs. cbn [fst snd] in Hs. clear -Hs Eb Eend Pa P1 P2 Hl Hm. dlia.
  - intros Hm. left. by apply gathered_clear.
Qed.

(** A referenced block stays allocated or staged. *)
Lemma trans_kept m l : m = 0 \/ m = 3 -> m = 3 \/ l = 3 -> trans m l <> 0.
Proof. intros [-> | ->] H; unfold trans; zcases. Qed.

Section SyncStep.
Context (live mem live' : hammer2_bmap_data) (refs : list (Z * Z)).
Context (Hok : bmap_ok live) (Hext : Forall ext_ok refs).
Context (HL : ledger_inv live refs) (Hlin : linear_inv live) (HS : snap_inv live refs mem).
Context (Hb : forall b, 0 <= b < 256 -> blk live' b = trans (blk mem b) (blk live b)).
Context (Ha : linear_after live mem (bm_linear live')).

Lemma sync_seen b : 0 <= b < 256 -> blk mem b = 3 -> blk live' b = 3.
Proof. intros Hbb E. by rewrite Hb, E by done. Qed.

Lemma sync_kept b : 0 <= b < 256 -> blk mem b = 3 \/ blk live b = 3 -> blk live' b <> 0.
Proof. intros Hbb E. rewrite Hb by done. apply trans_kept; [|done]. by apply (sn_mem _ _ _ HS). Qed.

(** Where the iterator is moved up inside a block it stood at its start. *)
Lemma sync_raise : bm_linear live' mod 16384 <> 0 ->
  bm_linear live' = bm_linear mem /\ bm_linear live = 16384 * (bm_linear mem / 16384) /\
  0 <= bm_linear mem / 16384 < 256.
Proof.
  intros Hm. destruct (sn_lin _ _ _ HS) as [Hml _].
  destruct Ha as [E | [E | [E | (E & Hlt & Eb)]]]; rewrite E in Hm; h2const;
    try (exfalso; clear -Hm; dlia).
  split; [done|]. split; [|clear -Hml Hm; dlia].
  destruct (Z.eq_dec (bm_linear live mod 16384) 0) as [Hz|Hnz]; [rewrite <- Eb; clear -Hz; dlia|].
  pose proof (sn_mid _ _ _ HS Hm Hnz Eb). lia.
Qed.

Lemma sync_ledger : ledger_inv live' refs.
Proof.
  destruct HL as [A1 A2 A3 A4]. rewrite Forall_forall in Hext. split; try done.
  - intros o s b Hel Hc. assert (0 <= b < 256) by (by apply (covers_range (o, s)); [apply Hext|]).
    apply sync_kept; [done|]. by apply (sn_cov _ _ _ HS (o, s)).
  - intros Hm Hs. destruct (sync_raise Hm) as (E & El & Hr). rewrite E in *. split.
    + rewrite sync_seen; [done|done|]. pose proof (sn_last _ _ _ HS) as Hlast.
      replace (bm_linear mem / 16384) with ((bm_linear mem - 1) / 16384) by (clear -Hm; dlia).
      apply Hlast. clear -Hm Hr. dlia.
    + destruct (sn_raise _ _ _ HS Hm) as [J|[J _]]; [done|]. exfalso. apply J. clear -El Hm. dlia.
Qed.

Lemma sync_linear_inv : linear_inv live'.
Proof.
  split.
  - intros Hm _ H0. destruct (sync_raise Hm) as (E & El & Hr). rewrite E in *.
    apply sync_kept; [lia|]. right.
    replace (bm_linear mem / 16384) with (bm_linear live / 16384) in * by (clear -El; dlia).
    apply (ln_aligned _ Hlin); [clear -El; dlia|h2const; clear -El H0 Hr; lia].
  - intros Hm Hr. h2const. destruct (sn_lin _ _ _ HS) as [Hml _].
    destruct Ha as [E | [E | [E | (E & Hlt & Eb)]]]; rewrite E in *; h2const; [lia|lia| |].
    + apply sync_seen; [clear -Hr; dlia|].
      replace (16384 * ((bm_linear mem + 16383) / 16384) / 16384 - 1) with ((bm_linear mem - 1) / 16384)
        by (clear; dlia). apply (sn_last _ _ _ HS). clear -Hr Hml. dlia.
    + exfalso. pose proof (bok_linear _ Hok). clear -Hlt Eb Hm. dlia.
Qed.
End SyncStep.

Lemma step_sync_inv live refs mem off s live' s' :
  seg_inv (mkSeg live refs (Some mem)) -> h2_bulkfree_sync_adjust off live mem s = (live', s') ->
  seg_inv (mkSeg live' refs None).
Proof.
  intros [H1 H2 H3 H4 H5 H6] E. cbn [sg_live sg_refs sg_snap] in *.
  destruct (sn_lin _ _ _ H6) as [Hml Hm1k].
  destruct (sync_adjust_spec off live mem s live' s' H1 H2 Hml E) as (L & U & B & A & _ & Hla & _).
  split; cbn [sg_live sg_refs sg_snap]; try done.
  - destruct Hla as [El | [El | [El | (El & _)]]]; split; try done; rewrite El; h2const;
      try lia; try done; clear -Hml Hm1k; dlia.
  - by eapply sync_ledger.
  - by eapply sync_linear_inv.
Qed.

Lemma step_skip_inv live refs mem :
  seg_inv (mkSeg live refs (Some mem)) -> seg_inv (mkSeg live refs None).
Proof. by intros [H1 H2 H3 H4 H5 _]. Qed.

Lemma seg_step_inv s s' : seg_step s s' -> seg_inv s -> seg_inv s'.
Proof.
  destruct 1; intros Hinv.
  - by eapply step_alloc_inv.
  - by eapply step_delete_inv.
  - by eapply step_scan_inv.
  - by eapply step_skip_inv.
  - by eapply step_sync_inv.
Qed.

Lemma seg_reachable_inv s : rtc seg_step seg_fresh s -> seg_inv s.
Proof.
  intros H. apply rtc_ind_r with (P := seg_inv) (x := seg_fresh) in H; [done|apply seg_fresh_inv|].
  intros y z _ Hstep Hy. by eapply seg_step_inv.
Qed.

(** ** The theorems *)

(** C2: bulkfree is safe against the allocator.  Starting from a free segment,
    after any interleaving of allocations, deletions and bulkfree passes, in
    which allocations and deletions may happen between the scan of a pass and
    its reconciliation, and the scan may visit the references in any order: no
    16KB block under a referenced extent is free, and the next allocation,
    from the bitmap or from the linear iterator, is disjoint from every
    referenced extent. *)
Theorem bulkfree_alloc_disjoint s fr class sub_key radix r :
  rtc seg_step seg_fresh s -> request_ok class sub_key radix ->
  hammer2_bmap_alloc fr (sg_live s) class sub_key radix 0 = Some r ->
  forall e, e ∈ sg_refs s ->
    sep (ba_base r, 2 ^ radix) e /\ (forall b, covers e b -> blk (sg_live s) b <> 0).
Proof.
  intros Hreach Hreq E e Hel. pose proof (seg_reachable_inv s Hreach) as [H1 H2 H3 H4 H5 H6].
  destruct s as [live refs snap]. cbn [sg_live sg_refs sg_snap] in *.
  pose proof (step_alloc_inv live refs snap fr class sub_key radix r (Build_seg_inv (mkSeg live refs snap)
    H1 H2 H3 H4 H5 H6) Hreq E) as [_ _ _ A4 _ _]. cbn [sg_live sg_refs] in A4.
  split.
  - pose proof (led_sep _ _ A4) as Hs. inversion Hs as [|? ? Hx _]; subst.
    rewrite Forall_forall in Hx. by apply Hx.
  - intros b Hc. destruct e as [o s]. by apply (led_marked _ _ H4 o s).
Qed.

(** Two 1KB allocations around the scan of a pass, its reconciliation, and a
    third allocation. *)
Lemma bulkfree_alloc_disjoint_witness :
  exists s r, rtc seg_step seg_fresh s /\ length (sg_refs s) = 2%nat /\
    hammer2_bmap_alloc 0 (sg_live s) 272 0 10 0 = Some r /\
    forall e, e ∈ sg_refs s ->
      sep (ba_base r, 2 ^ 10) e /\ (forall b, covers e b -> blk (sg_live s) b <> 0).
Proof.
  assert (request_ok 272 0 10) as Hreq by (split; [lia|reflexivity]).
  destruct (hammer2_bmap_alloc 0 bmap_free 272 0 10 0) as [r1|] eqn:E1; [|vm_compute in E1; discriminate].
  destruct (hammer2_bmap_alloc 0 (ba_bmap r1) 272 0 10 0) as [r2|] eqn:E2;
    [|vm_compute in E1; injection E1 as <-; vm_compute in E2; discriminate].
  destruct (h2_bulkfree_sync_adjust 0 (ba_bmap r2) (gather 272 [(ba_base r1, 2 ^ 10)]) stats_zero)
    as [live' s'] eqn:E3.
  destruct (hammer2_bmap_alloc 0 live' 272 0 10 0) as [r3|] eqn:E4;
    [|vm_compute in E1; injection E1 as <-; vm_compute in E2; injection E2 as <-;
      vm_compute in E3; injection E3 as <- <-; vm_compute in E4; discriminate].
  exists (mkSeg live' [(ba_base r2, 2 ^ 10); (ba_base r1, 2 ^ 10)] None), r3.
  assert (rtc seg_step seg_fresh (mkSeg live' [(ba_base r2, 2 ^ 10); (ba_base r1, 2 ^ 10)] None)) as Hr.
  { eapply rtc_l; [by eapply (step_alloc bmap_free [] None 0 272 0 10 r1)|].
    eapply rtc_l; [by eapply (step_scan _ _ [(ba_base r1, 2 ^ 10)] 272)|].
    eapply rtc_l; [by eapply (step_alloc _ _ _ 0 272 0 10 r2)|].
    eapply rtc_l; [by eapply step_sync|]. apply rtc_refl. }
  split; [exact Hr|]. split; [reflexivity|]. split; [exact E4|].
  apply (bulkfree_alloc_disjoint _ 0 272 0 10 r3 Hr Hreq E4).
Defined.
