(* ===== verification/BulkfreeWindow.v ===== *)
(** A bulkfree pass as a whole: the scan of a window finds every block that is
    referenced, the synchronization of the window leaves those blocks
    allocated, and the windows cover the media. *)
From S2P Require Import Prelude Disk Subr Bmap Freemap FreemapProof Bulkfree BulkfreePass.
From S2P Require Import BulkfreeScan BulkfreeProof BulkfreeSafety.
From Stdlib Require Import ZArith Lia Bool.
From stdpp Require Import base list gmap.
Import Leaf Alloc Gather Sync Dedup TopoScan SyncWindow Pass.
Open Scope Z_scope.

(** ** The callback *)

(** A segment of the in-memory freemap. *)
Definition mem_seg_ok (mem : hammer2_bmap_data) : Prop :=
  mem_ok mem /\ 0 <= bm_linear mem <= HAMMER2_SEGSIZE /\ bm_linear mem mod 1024 = 0.

(** A blockref of at least 1KB, on a 1KB boundary. *)
Definition bref_aligned (b : hammer2_blockref) : Prop :=
  (br_data_off b &~ HAMMER2_OFF_MASK_RADIX) mod 1024 = 0 /\ 10 <= br_data_off b & HAMMER2_OFF_MASK_RADIX.

Section Callback.
Context (pend : nat -> bool) (beg total sbase sstop : Z).

(** The in-memory freemap covers the window. *)
Definition gather_ok (g : gather_state) : Prop :=
  Forall mem_seg_ok (gs_bmap g) /\ 0 <= sbase /\ sstop <= sbase + 4194304 * Z.of_nat (length (gs_bmap g)) /\
  sbase mod 1024 = 0 /\ sstop mod 1024 = 0.

(** The blocks of a reference inside the window are marked. *)
Definition marked (g : gather_state) (data_off : Z) : Prop :=
  let off := data_off &~ HAMMER2_OFF_MASK_RADIX in
  let bytes := Z.shiftl 1 (data_off & HAMMER2_OFF_MASK_RADIX) in
  sbase <= off < sstop -> beg <= off < total -> off + bytes <= sstop ->
  ext_ok ((off - sbase) mod 4194304, bytes) ->
  forall b, covers ((off - sbase) mod 4194304, bytes) b ->
  blk (aget bmap_zero (gs_bmap g) ((off - sbase) / 4194304)) b = 3.

Lemma radix_range x : 0 <= x & HAMMER2_OFF_MASK_RADIX < 64.
Proof.
  change HAMMER2_OFF_MASK_RADIX with (Z.ones 6). rewrite Z.land_ones by lia. apply Z.mod_pos_bound. lia.
Qed.

(** What the callback does to the freemap: nothing, or one segment. *)
Lemma callback_cases bmaps b : 0 <= sbase -> sstop <= sbase + 4194304 * Z.of_nat (length bmaps) ->
  let off := br_data_off b &~ HAMMER2_OFF_MASK_RADIX in
  let bytes := Z.shiftl 1 (br_data_off b & HAMMER2_OFF_MASK_RADIX) in
  let n := (off - sbase) / 4194304 in
  (h2_bulkfree_callback beg total sbase sstop bmaps b = bmaps /\
   ~ (sbase <= off < sstop /\ beg <= off < total)) \/
  (sbase <= off < sstop /\ 0 <= n < Z.of_nat (length bmaps) /\
   h2_bulkfree_callback beg total sbase sstop bmaps b =
   aset bmaps n (mark_segment (aget bmap_zero bmaps n) (class_of (br_type b))
     ((off - sbase) mod 4194304) (Z.min bytes (sstop - off)))).
Proof.
  intros Hs Hl off bytes n. unfold h2_bulkfree_callback. fold off. fold bytes.
  destruct (Z.ltb_spec off sbase); [left; split; [done|lia]|].
  destruct (Z.leb_spec sstop off); [left; split; [done|lia]|]. cbn [orb].
  destruct (Z.ltb_spec off beg); [left; split; [done|lia]|].
  destruct (Z.leb_spec total off); [left; split; [done|lia]|].
  right. split; [lia|]. assert (0 <= n < Z.of_nat (length bmaps)) as Hn by (subst n; clearbody off; dlia).
  split; [done|].
  change HAMMER2_FREEMAP_LEVEL0_RADIX with 22. change HAMMER2_FREEMAP_LEVEL0_MASK with (Z.ones 22).
  rewrite Z.shiftr_div_pow2, Z.land_ones by lia. change (2 ^ 22) with 4194304. fold n.
  replace (if sstop <? off + bytes then sstop - off else bytes) with (Z.min bytes (sstop - off))
    by (destruct (Z.ltb_spec sstop (off + bytes)); lia).
  exact eq_refl.
Qed.

Lemma bytes_aligned b : bref_aligned b -> Z.shiftl 1 (br_data_off b & HAMMER2_OFF_MASK_RADIX) mod 1024 = 0 /\
  0 < Z.shiftl 1 (br_data_off b & HAMMER2_OFF_MASK_RADIX).
Proof.
  intros [_ Hr]. rewrite Z.shiftl_1_l. split; [|apply Z.pow_pos_nonneg; lia].
  apply Z.mod_divide; [done|]. change 1024 with (2 ^ 10). exists (2 ^ ((br_data_off b & HAMMER2_OFF_MASK_RADIX) - 10)).
  rewrite <- Z.pow_add_r by lia. f_equal. lia.
Qed.

Lemma mark_linear_ok lin o n : 0 <= lin <= HAMMER2_SEGSIZE -> lin mod 1024 = 0 -> 0 <= o -> 0 <= n ->
  o + n <= HAMMER2_SEGSIZE -> o mod 1024 = 0 -> n mod 1024 = 0 ->
  0 <= mark_linear lin o n <= HAMMER2_SEGSIZE /\ mark_linear lin o n mod 1024 = 0.
Proof.
  intros H1 H2 H3 H4 H5 H6 H7. assert ((o + n) mod 1024 = 0) as H by (clear -H6 H7; dlia).
  unfold mark_linear. destruct (nz _); [destruct (_ <? _)|destruct (_ && _)]; (split; [lia|done]).
Qed.

Lemma callback_ok g b : gather_ok g -> bref_aligned b ->
  let bmaps' := h2_bulkfree_callback beg total sbase sstop (gs_bmap g) b in
  length bmaps' = length (gs_bmap g) /\ Forall mem_seg_ok bmaps' /\
  forall n k, 0 <= k < 256 -> 0 <= n < Z.of_nat (length (gs_bmap g)) ->
    blk (aget bmap_zero (gs_bmap g) n) k = 3 -> blk (aget bmap_zero bmaps' n) k = 3.
Proof.
  intros (Hm & Hs & Hl & Hsa & Hssa) Hb bmaps'. subst bmaps'.
  destruct (bytes_aligned b Hb) as [Hba Hbp]. destruct Hb as [Hoa _].
  destruct (callback_cases (gs_bmap g) b Hs Hl) as [[-> _]|(Hoff & Hn & ->)]; [done|].
  set (off := br_data_off b &~ HAMMER2_OFF_MASK_RADIX) in *. set (n0 := (off - sbase) / 4194304) in *.
  set (o := (off - sbase) mod 4194304). set (bytes := Z.min _ (sstop - off)).
  assert (0 <= o < 4194304 /\ o mod 1024 = 0) as [Ho Hom] by (subst o; clear -Hoa Hsa; dlia).
  assert (0 <= bytes /\ bytes mod 1024 = 0) as [Hb0 Hbm].
  { subst bytes. destruct (Z.min_spec (Z.shiftl 1 (br_data_off b & HAMMER2_OFF_MASK_RADIX)) (sstop - off)) as [[_ ->]|[_ ->]];
      (split; [lia|]); [done|]. clear -Hoa Hssa. dlia. }
  destruct (aget_Forall bmap_zero mem_seg_ok (gs_bmap g) n0 Hm Hn) as (Hm0 & Hl0 & Hla0).
  destruct (mark_segment_any (aget bmap_zero (gs_bmap g) n0) (class_of (br_type b)) o bytes Hm0 Ho Hb0) as (M1 & M2 & M3).
  split; [apply length_aset|]. split.
  - apply Forall_aset; [done|]. split; [done|]. rewrite M2. apply mark_linear_ok; try done; try lia.
    + h2const. lia.
    + destruct (Z.min_spec bytes (4194304 - o)) as [[_ ->]|[_ ->]]; [done|]. clear -Hom. dlia.
  - intros n k Hk Hnn H3. destruct (decide (n = n0)) as [->|Hne].
    + rewrite aget_aset_eq by lia. rewrite M3 by done. by destruct (_ && _).
    + rewrite aget_aset_ne by lia. done.
Qed.

#[export] Instance bulkfree_callback :
  ScanCallback (bulkfree_func pend beg total sbase sstop) bref_aligned gather_ok marked.
Proof.
  split.
  - intros s b s' e Hg Hok. unfold bulkfree_func. destruct (_ && _); intros [= <- <-]; [done|].
    destruct (callback_ok s b Hok Hg) as (E & Hm' & _). destruct Hok as (_ & H). unfold gather_ok. cbn. by rewrite E.
  - intros s b s' e. unfold bulkfree_func. destruct (_ && _); intros [= _ <-]; [by right|by left].
  - intros s b s' Hg (Hm & Hs & Hl & _). unfold bulkfree_func. destruct (_ && _); [done|]. intros [= <-].
    intros Hw Hd Hf He k Hk. cbn [gs_bmap].
    destruct (callback_cases (gs_bmap s) b Hs Hl) as [[_ Hno]|(Hoff & Hn & ->)]; [by destruct Hno|].
    rewrite aget_aset_eq by lia. rewrite Z.min_l by lia.
    destruct (aget_Forall bmap_zero mem_seg_ok (gs_bmap s) _ Hm Hn) as (Hm0 & _).
    destruct (mark_segment_spec _ (class_of (br_type b)) _ Hm0 He) as (_ & _ & M). cbn [fst snd] in M.
    rewrite M by (by eapply covers_range). by rewrite decide_True.
  - intros s b s' e o Hg Hok. unfold bulkfree_func. destruct (_ && _); intros [= <- _]; [done|].
    intros H Hw Hd Hf He k Hk. cbn [gs_bmap].
    destruct (callback_ok s b Hok Hg) as (E & Hm' & Hmono). destruct Hok as (_ & _ & Hl & _).
    apply Hmono; [by eapply covers_range| |by apply H]. clear -Hw Hl. dlia.
Qed.

End Callback.

(** ** The scan of a window *)

(** A topology as the media holds it: a block is one chain wherever it is
    referenced from, a chain is that of its blockref, the root is not
    referenced, HAMMER2_ERROR_EOF is no error of a chain, and blocks are of 1KB or
    more. *)
Record topo_ok (root : chain) : Prop := {
  to_scan : scannable root = true;
  to_eof : no_eof (c_error root);
  to_same : forall e1 e2, e1 ∈ c_flat root -> e2 ∈ c_flat root -> e_off e1 = e_off e2 ->
    e_child e1 = e_child e2;
  to_chain : forall e c, e ∈ c_flat root -> e_child e = Some c ->
    br_data_off (c_bref c) = e_off e /\ no_eof (c_error c);
  to_root : forall e, e ∈ c_flat root -> e_off e <> br_data_off (c_bref root);
  to_aligned : forall e, e ∈ c_flat root -> bref_aligned (e_bref e)
}.

Lemma flat_data n : forall c e, (c_size c <= n)%nat -> e ∈ c_flat c -> has_data e = true.
Proof.
  induction n as [|n IH]; intros c e Hn He; [rewrite c_size_eq in Hn; lia|].
  rewrite c_flat_eq in He. destruct (scannable c); [|by apply elem_of_nil in He].
  apply list_elem_of_bind in He as (x & He & Hx). pose proof (entry_size c x Hx) as Hsz.
  rewrite e_flat_eq in He. destruct (has_data x) eqn:Hd; [|by apply elem_of_nil in He].
  apply elem_of_cons in He as [->|He]; [done|].
  destruct (e_child x) as [d|] eqn:Hd'; [|by apply elem_of_nil in He].
  rewrite (e_size_child x d Hd') in Hsz. apply (IH d); [lia|done].
Qed.

Lemma has_data_off e : has_data e = true -> e_off e <> 0.
Proof. unfold has_data, e_off. intros H E. rewrite E in H. done. Qed.

(** A whole scan, from an empty table and an empty list, with what it leaves
    deferred. *)
Section Whole.
Context {T : Type} (icrc32 : Z -> Z) (func : T -> hammer2_blockref -> T * Z) (sd sc : Z).
Context (good : hammer2_blockref -> Prop) (ok : T -> Prop) (seen : T -> Z -> Prop).
Context `{!ScanCallback func good ok seen}.
Context (fuel : nat) (root : chain) (i0 i : bulkfree_info T) (error : Z).
Hypothesis Hlist : bi_list i0 = [].

Lemma whole_total e0 : bi_backout i0 = None -> (c_size root <= fuel)%nat ->
  exists i error, ('(i, e) ← hammer2_bulkfree_scan icrc32 func sd sc fuel root i0;
    drain_list icrc32 func sd sc (S fuel) fuel i (e0 ||| e)) = Some (i, error).
Proof.
  intros Hb Hf. destruct (scan_total icrc32 func sd sc fuel root i0 Hb) as (i1 & e & -> & (xs & El & W & B)).
  { rewrite Hlist. cbn. lia. }
  rewrite Hlist, app_nil_r in El. pose proof (c_size_eq root).
  apply drain_list_total; [|rewrite El; lia..]. rewrite El. destruct (bi_backout i1); [right|by left].
  destruct xs; [by apply elem_of_nil in B|done].
Qed.

Lemma whole_covers : topo_ok root -> (forall e, e ∈ c_flat root -> good (e_bref e)) -> bi_dedup i0 = ∅ -> ok (bi_st i0) ->
  ('(i, e) ← hammer2_bulkfree_scan icrc32 func sd sc fuel root i0;
   drain_list icrc32 func sd sc (S fuel) fuel i e) = Some (i, error) ->
  error &~ HAMMER2_ERROR_CHECK = 0 ->
  ok (bi_st i) /\ forall e, e ∈ c_flat root -> seen (bi_st i) (e_off e).
Proof.
  intros Ht Hgood Hd Hok E He. set (U := fun e => e ∈ c_flat root).
  destruct (hammer2_bulkfree_scan _ _ _ _ fuel root i0) as [[i1 e1]|] eqn:Es; [|done]. cbn [mbind option_bind] in E.
  assert (forall e c e', U e -> e_child e = Some c -> scannable c = true -> e' ∈ c_entries c ->
    has_data e' = true -> U e') as Hbelow.
  { intros e c e' H1 H2 H3 H4 H5. eapply (flat_trans (c_size root) root e c); try done. by apply flat_entry. }
  assert (ready seen U (bi_st i0) root) as Hr.
  { pose proof (to_scan root Ht) as Hs. unfold scannable in Hs.
    destruct (recursive_type _) eqn:Hrt; [|done]. 
    destruct (Z.eqb_spec (c_nodata_error root & HAMMER2_ERROR_CHECK) 0) as [Hz|]; [|done].
    split_and!; try done; [|apply Ht|].
    - intros _ e H1 H2. apply flat_entry; [apply Ht|done|done].
    - intros e H1 H2. by destruct (to_root root Ht e H1). }
  destruct (scan_covers icrc32 func sd sc good ok seen U Hbelow Hgood (to_same root Ht) (to_chain root Ht)
    fuel root [] i0 i1 e1 Es) as [I1 K1]; [|done| |].
  - eapply drain_list_errors; [exact E|by apply benign_check].
  - split; [|unfold pending; rewrite Hlist; by intros c Hc%elem_of_nil|done].
    intros e H1 H2. rewrite Hd in H2. apply in_table_empty in H2; [done|].
    apply has_data_off. by apply (flat_data (c_size root) root).
  - destruct (drain_list_covers icrc32 func sd sc good ok seen U Hbelow Hgood (to_same root Ht) (to_chain root Ht)
      fuel (S fuel) i1 e1 i error E He I1) as (I2 & K2 & Hl).
    split; [apply I2|]. intros e Hin. eapply (cov_flat seen (c_size root)); [done| |exact Hin].
    assert (cov seen (bi_st i) ([] ++ pending i) root) as Hc.
    { apply K2, K1, cov_pending. by left. }
    unfold pending in Hc. by rewrite Hl in Hc.
Qed.

End Whole.

(** ** The size of the windows *)

Lemma bmap_init_loop_ok n : forall key lokey hikey,
  length (bmap_init_loop n key lokey hikey) = n /\ Forall mem_seg_ok (bmap_init_loop n key lokey hikey).
Proof.
  induction n as [|n IH]; intros key lokey hikey; cbn [bmap_init_loop]; [done|].
  destruct (IH (u64 (key + HAMMER2_FREEMAP_LEVEL0_SIZE)) (bmap_init_lokey key lokey) hikey) as (IH1 & IH2).
  cbn [length]. rewrite IH1. split; [done|]. constructor; [|done].
  destruct (_ || _); (split; [split; [done|]|cbn [bm_linear]; h2const; done]); intros b Hb; [right|left];
    unfold blk; cbn [bm_bitmapq]; rewrite aget_replicate by dlia; [apply pair2_allones; dlia|apply pair2_0].
Qed.

Lemma sstop_fits total sbase size : 0 <= size -> sbase <= total ->
  bulkfree_sstop total sbase (bulkfree_incr size) <= sbase + 4194304 * (size / 128).
Proof.
  intros Hs Hb. unfold bulkfree_sstop, bulkfree_incr. change HAMMER2_FREEMAP_LEVELN_PSIZE with 32768.
  change HAMMER2_FREEMAP_LEVEL1_SIZE with 1073741824.
  assert (size / 32768 * 1073741824 <= 4194304 * (size / 128)) as H.
  { replace (size / 32768) with (size / 128 / 256) by (rewrite Z.div_div by lia; done). clear. dlia. }
  destruct (Z.leb_spec (total - sbase) (size / 32768 * 1073741824)); lia.
Qed.

Section Window.
Context (io : chain_io) (icrc32 : Z -> Z) (pend : nat -> bool) (sd sc : Z).
Context (fuel : nat) (vchain : chain) (p : pass_state) (size sbase : Z).
Let beg := hd_allocator_beg (ps_dev p).
Let total := hd_total_size (ps_dev p).
Let sstop := bulkfree_sstop total sbase (bulkfree_incr size).

Lemma window_gather_ok : 0 <= size -> 0 <= sbase <= total -> sbase mod 2 ^ 30 = 0 -> total mod 1024 = 0 ->
  gather_ok sbase sstop (mkGather (cbinfo_bmap_init beg total sbase (Z.to_nat (size / 128)))
    (ps_calls p) (ps_signaled p)).
Proof.
  intros Hs Hb Hsa Hta. unfold gather_ok. cbn [gs_bmap].
  destruct (bmap_init_loop_ok (Z.to_nat (size / 128)) sbase (u64 (beg + HAMMER2_SEGMASK) &~ HAMMER2_SEGMASK)
    (total &~ HAMMER2_SEGMASK)) as (L & M).
  unfold cbinfo_bmap_init. rewrite L. split; [done|]. split; [lia|].
  change (2 ^ 30) with 1073741824 in Hsa. split; [|split].
  - rewrite Z2Nat.id by (apply Z.div_pos; lia). apply sstop_fits; lia.
  - clear -Hsa. dlia.
  - subst sstop. unfold bulkfree_sstop, bulkfree_incr. change HAMMER2_FREEMAP_LEVEL1_SIZE with 1073741824.
    destruct (_ <=? _); [done|]. clear -Hsa. dlia.
Qed.

End Window.

(** the topology scan of a bulkfree window always ends: with fuel for the
    size of the topology it returns, whatever it finds in its dedup table,
    however much it defers and wherever a signal or an error interrupts it, and
    the insertion point of the deferral list is always an element of it. *)
Theorem bulkfree_window_terminates icrc32 pend sd sc fuel vchain p size sbase sstop :
  (c_size vchain <= fuel)%nat ->
  exists i error, window_scan icrc32 pend sd sc fuel vchain p size sbase sstop = Some (i, error).
Proof.
  intros Hf. unfold window_scan.
  destruct (whole_total icrc32 (bulkfree_func pend (hd_allocator_beg (ps_dev p)) (hd_total_size (ps_dev p)) sbase sstop)
    sd sc fuel vchain (mkInfo (mkGather (cbinfo_bmap_init (hd_allocator_beg (ps_dev p)) (hd_total_size (ps_dev p)) sbase
      (Z.to_nat (size / 128))) (ps_calls p) (ps_signaled p)) ∅ 0 0 [] 0 (ps_list_count_max p)
      None 0 0 0 0 0 (ps_dedup_factor p)) eq_refl 0 eq_refl Hf) as (i & error & E).
  exists i, error. exact E.
Qed.

Lemma window_covers icrc32 pend sd sc fuel vchain p size sbase i error :
  let beg := hd_allocator_beg (ps_dev p) in
  let total := hd_total_size (ps_dev p) in
  let sstop := bulkfree_sstop total sbase (bulkfree_incr size) in
  topo_ok vchain -> 0 <= size -> 0 <= sbase <= total -> sbase mod 2 ^ 30 = 0 -> total mod 1024 = 0 ->
  window_scan icrc32 pend sd sc fuel vchain p size sbase sstop = Some (i, error) ->
  error &~ HAMMER2_ERROR_CHECK = 0 ->
  gather_ok sbase sstop (bi_st i) /\
  forall e, e ∈ c_flat vchain -> marked beg total sbase sstop (bi_st i) (e_off e).
Proof.
  intros beg total sstop Ht Hs Hb Hsa Hta E He. unfold window_scan in E.
  eapply (whole_covers icrc32 (bulkfree_func pend beg total sbase sstop) sd sc bref_aligned (gather_ok sbase sstop)
    (marked beg total sbase sstop)); [|exact Ht|exact (to_aligned _ Ht)| | |exact E|exact He]; [done|done|].
  by apply window_gather_ok.
Qed.

(** completeness of the scan.  If a window's scan ends without an error
    other than failed check codes, every block of the window that a blockref
    reachable through good check codes refers to is marked allocated in the
    in-memory freemap, although shared sub-trees are scanned once and deep ones
    are deferred. *)
Theorem bulkfree_window_complete icrc32 pend sd sc fuel vchain p size sbase i error :
  let beg := hd_allocator_beg (ps_dev p) in
  let total := hd_total_size (ps_dev p) in
  let sstop := bulkfree_sstop total sbase (bulkfree_incr size) in
  topo_ok vchain -> 0 <= size -> 0 <= sbase <= total -> sbase mod 2 ^ 30 = 0 -> total mod 1024 = 0 ->
  window_scan icrc32 pend sd sc fuel vchain p size sbase sstop = Some (i, error) ->
  error &~ HAMMER2_ERROR_CHECK = 0 ->
  forall e, e ∈ c_flat vchain -> marked beg total sbase sstop (bi_st i) (e_off e).
Proof.
  intros beg total sstop Ht Hs Hb Hsa Hta E He. by eapply window_covers.
Qed.

(** A volume with a PFS root, an indirect block that is referenced twice and a
    data block that is referenced twice in it; the tunables make the scan defer
    every chain. *)
Definition sample_bref (type flags data_off : Z) : hammer2_blockref :=
  mkBref type 0 0 0 0 flags 0 0 0 0 data_off 0 0 0 0.

Definition sample_indirect : chain :=
  let d := sample_bref HAMMER2_BREF_TYPE_DATA 0 (8454144 + 16) in
  Chain (sample_bref HAMMER2_BREF_TYPE_INDIRECT 0 (8519680 + 14)) 0 0 16384
    [Entry d None; Entry (sample_bref HAMMER2_BREF_TYPE_DIRENT 0 0) None; Entry d None].

Definition sample_topology : chain :=
  let n := sample_bref HAMMER2_BREF_TYPE_INODE HAMMER2_BREF_FLAG_PFSROOT (8388608 + 10) in
  Chain (sample_bref HAMMER2_BREF_TYPE_VOLUME 0 0) 0 0 65536
    [Entry n (Some (Chain n 0 0 1024
       [Entry (c_bref sample_indirect) (Some sample_indirect);
        Entry (c_bref sample_indirect) (Some sample_indirect)]))].

Ltac flat_cases H := vm_compute in H; repeat (apply elem_of_cons in H as [-> | H]); [..|by apply elem_of_nil in H].

Lemma sample_topology_ok : topo_ok sample_topology.
Proof.
  split; try done.
  - intros e1 e2 H1 H2. flat_cases H1; flat_cases H2; vm_compute; congruence.
  - intros e c H. flat_cases H; intros Hc; vm_compute in Hc; (discriminate Hc || (injection Hc as <-; by vm_compute)).
  - intros e H. flat_cases H; by vm_compute.
  - intros e H. flat_cases H; by vm_compute.
Qed.

Definition sample_pass : pass_state := mkPass dev_1g stats_zero 0 false 0 0.

Definition sample_scan : option (bulkfree_info gather_state * Z) :=
  window_scan (fun o => o) (fun _ => false) 0 0 10 sample_topology sample_pass 1048576 0
    (bulkfree_sstop (hd_total_size dev_1g) 0 (bulkfree_incr 1048576)).

Lemma bulkfree_window_terminates_witness : exists i error,
  window_scan (fun o => o) (fun _ => false) 0 0 10 sample_topology sample_pass 1048576 0 1073741824 = Some (i, error).
Proof. apply bulkfree_window_terminates. vm_compute. lia. Defined.

Lemma bulkfree_window_complete_witness : exists i error, sample_scan = Some (i, error) /\
  forall e, e ∈ c_flat sample_topology ->
  marked (hd_allocator_beg dev_1g) (hd_total_size dev_1g) 0
    (bulkfree_sstop (hd_total_size dev_1g) 0 (bulkfree_incr 1048576)) (bi_st i) (e_off e).
Proof.
  assert ((snd <$> sample_scan) = Some 0) as He by (vm_compute; reflexivity).
  destruct sample_scan as [[i error]|] eqn:E; [|discriminate He].
  exists i, error. split; [reflexivity|].
  apply (bulkfree_window_complete (fun o => o) (fun _ => false) 0 0 10 sample_topology sample_pass 1048576 0 i error).
  - exact sample_topology_ok.
  - lia.
  - vm_compute. intuition congruence.
  - reflexivity.
  - reflexivity.
  - exact E.
  - injection He as ->. reflexivity.
Defined.

(** ** The synchronization of a window *)

(** The segment at a device offset. *)
Definition dev_seg (d : fm_dev) (off : Z) : option hammer2_bmap_data :=
  leaf ← hd_leaves d !! (off - off mod 2 ^ 30);
  Some (aget bmap_zero (lf_bmdata leaf) (off mod 2 ^ 30 / 4194304)).

(** Leaves of 256 segments whose shape and count are right. *)
Definition leaves_ok (d : fm_dev) : Prop := forall key leaf, hd_leaves d !! key = Some leaf ->
  length (lf_bmdata leaf) = 256%nat /\
  forall n, 0 <= n < 256 -> bmap_ok (aget bmap_zero (lf_bmdata leaf) n) /\ avail_ok (aget bmap_zero (lf_bmdata leaf) n).

(** What the synchronization makes of a live segment. *)
Definition synced (mem live live' : hammer2_bmap_data) : Prop :=
  forall b, 0 <= b < 256 -> blk live' b = trans (blk mem b) (blk live b).

Section SyncProof.
Context (io : chain_io).
Hypothesis Hnode : forall n k, io_node_error io n k = 0.
Hypothesis Hleaf : forall n k, io_leaf_error io n k = 0.
Hypothesis Hmodify : forall n k, io_modify_error io n k = 0.

Lemma off_parts off : 0 <= off ->
  off &~ HAMMER2_FREEMAP_LEVEL1_MASK = off - off mod 2 ^ 30 /\
  Z.shiftr (off & HAMMER2_FREEMAP_LEVEL1_MASK) HAMMER2_FREEMAP_LEVEL0_RADIX = off mod 2 ^ 30 / 4194304.
Proof.
  intros Ho. change HAMMER2_FREEMAP_LEVEL1_MASK with (Z.ones 30). change HAMMER2_FREEMAP_LEVEL0_RADIX with 22.
  rewrite Z.land_ones, Z.shiftr_div_pow2 by lia. change (2 ^ 22) with 4194304. split; [|done].
  exact (ldiff_low off 30 ltac:(lia)).
Qed.

Lemma skip_synced live mem bigmask : mem_ok mem -> sync_skip live mem bigmask = true -> synced mem live live.
Proof.
  intros [_ Hm] Hs b Hb. unfold sync_skip in Hs. apply andb_prop in Hs as [Hs _]. apply andb_prop in Hs as [Hs _].
  apply bool_decide_eq_true in Hs. specialize (Hm b Hb). unfold blk in *. rewrite Hs.
  destruct Hm as [-> | ->]; done.
Qed.

(** One segment whose leaf exists: its new content, and nothing else. *)
Lemma sync_leaf_spec d key off mem s leaf : 0 <= off -> off mod 4194304 = 0 -> key = off - off mod 2 ^ 30 ->
  hd_leaves d !! key = Some leaf -> leaves_ok d -> mem_seg_ok mem ->
  exists d' s', sync_leaf io d key off mem s = (d', Some key, s') /\ leaves_ok d' /\
    hd_allocator_beg d' = hd_allocator_beg d /\ hd_total_size d' = hd_total_size d /\
    (exists live', dev_seg d' off = Some live' /\
       synced mem (aget bmap_zero (lf_bmdata leaf) (off mod 2 ^ 30 / 4194304)) live') /\
    (forall off', 0 <= off' -> off' mod 4194304 = 0 -> off' <> off -> dev_seg d' off' = dev_seg d off') /\
    is_Some (hd_leaves d' !! key).
Proof.
  intros Ho Ha Hk Hl Hok (Hm & Hml & Hma). unfold sync_leaf. destruct (off_parts off Ho) as [_ ->]. rewrite Hl.
  change (default leaf_created (Some leaf)) with leaf. set (n := off mod 2 ^ 30 / 4194304) in *.
  assert (0 <= n < 256) as Hn by (subst n; change (2 ^ 30) with 1073741824; clear -Ho; dlia).
  destruct (Hok key leaf Hl) as [Hlen Hseg]. destruct (Hseg n Hn) as [Hb Hav].
  destruct (sync_skip _ _ _) eqn:Hs.
  { exists d, s. split_and!; try done. exists (aget bmap_zero (lf_bmdata leaf) n).
    unfold dev_seg. rewrite <- Hk, Hl. split; [done|]. by eapply skip_synced. }
  rewrite Hmodify. cbn [nz negb Z.eqb].
  destruct (h2_bulkfree_sync_adjust _ _ _ _) as [live' s'] eqn:E.
  destruct (sync_adjust_ok off _ mem s live' s' Hb Hav Hml Hma E) as [Hb' Hav'].
  destruct (sync_adjust_spec off _ mem s live' s' Hb Hav Hml E) as (_ & _ & Ht & _).
  do 2 eexists. split; [reflexivity|]. split; [|split; [done|split; [done|split; [|split]]]].
  - intros k l. cbn [hd_leaves dev_leaf dev_unrelax dev_tick]. rewrite lookup_insert. case_decide.
    + intros [= <-]. cbn [lf_bmdata]. rewrite length_aset. split; [done|]. intros j Hj.
      rewrite aget_aset by lia. destruct (j =? n); [done|]. by apply Hseg.
    + by apply Hok.
  - exists live'. unfold dev_seg. cbn [hd_leaves dev_leaf dev_unrelax dev_tick]. rewrite <- Hk, lookup_insert_eq.
    cbn [mbind option_bind lf_bmdata]. fold n. rewrite aget_aset_eq by lia. done.
  - intros off' Ho' Ha' Hne. unfold dev_seg. cbn [hd_leaves dev_leaf dev_unrelax dev_tick]. rewrite lookup_insert.
    case_decide as Hkk; [|done]. rewrite <- Hkk, Hl. cbn [mbind option_bind lf_bmdata].
    rewrite aget_aset_ne; [done|lia| |].
    + change (2 ^ 30) with 1073741824. clear -Ho'. dlia.
    + subst n. change (2 ^ 30) with 1073741824 in *. clear -Hkk Hk Hne Ha Ha' Ho Ho'. dlia.
  - cbn [hd_leaves dev_leaf dev_unrelax dev_tick]. by rewrite lookup_insert_eq.
Qed.

(** The segments the synchronization works on. *)
Definition in_use (d : fm_dev) (off : Z) : Prop := hd_allocator_beg d <= off < hd_total_size d.

Definition chain_live (d : fm_dev) (lc : option Z) : Prop :=
  match lc with Some k => is_Some (hd_leaves d !! k) | None => True end.

Lemma sync_segment_spec d lc off mem s : 0 <= off -> off mod 4194304 = 0 -> chain_live d lc ->
  leaves_ok d -> mem_seg_ok mem ->
  exists d' lc' s', sync_segment io d lc off mem s = Some (d', lc', s') /\ leaves_ok d' /\ chain_live d' lc' /\
    hd_allocator_beg d' = hd_allocator_beg d /\ hd_total_size d' = hd_total_size d /\
    (forall live, in_use d off -> dev_seg d off = Some live ->
       exists live', dev_seg d' off = Some live' /\ synced mem live live') /\
    (forall off', 0 <= off' -> off' mod 4194304 = 0 -> off' <> off \/ ~ in_use d off ->
       dev_seg d' off' = dev_seg d off').
Proof.
  intros Ho Ha Hlc Hok Hm. unfold sync_segment.
  destruct (Z.ltb_spec off (hd_allocator_beg d)) as [H1|H1].
  { exists d, lc, s. split_and!; try done. intros live [Hu _]. lia. }
  destruct (Z.leb_spec (hd_total_size d) off) as [H2|H2].
  { exists d, lc, s. split_and!; try done. intros live [_ Hu]. lia. }
  destruct (off_parts off Ho) as [-> _]. set (key := off - off mod 2 ^ 30).
  assert (exists d1, sync_lookup io d lc key = Some (d1, match hd_leaves d !! key with Some _ => Some key | None => None end, 0) /\
    hd_leaves d1 = hd_leaves d /\ hd_allocator_beg d1 = hd_allocator_beg d /\ hd_total_size d1 = hd_total_size d)
    as (d1 & -> & El & Eb & Et).
  { unfold sync_lookup. case_bool_decide as Hk.
    - exists d. subst lc. cbn in Hlc. destruct Hlc as [leaf ->]. done.
    - rewrite Hnode. cbn [nz negb Z.eqb]. exists (dev_tick d). destruct (hd_leaves d !! key); [|done]. by rewrite Hleaf. }
  cbn [mbind option_bind]. destruct (hd_leaves d !! key) as [leaf|] eqn:Hl; cbn [nz negb Z.eqb].
  - assert (leaves_ok d1) as Hok1 by (intros k l; rewrite El; apply Hok).
    destruct (sync_leaf_spec d1 key off mem s leaf Ho Ha eq_refl) as (d' & s' & -> & Hok' & Eb' & Et' & Hnew & Hold & Hsome);
      [by rewrite El|done|done|].
    do 3 eexists. split; [reflexivity|]. split_and!; try done; [congruence..| |].
    + intros live _. unfold dev_seg at 1. fold key. rewrite Hl. by intros [= <-].
    + intros off' Ho' Ha' Hne. destruct (decide (off' = off)) as [->|].
      * destruct Hne as [|Hne]; [done|]. destruct Hne. split; lia.
      * rewrite Hold by done. unfold dev_seg. by rewrite El.
  - do 3 eexists. split; [reflexivity|]. split_and!; try done.
    + intros k l. rewrite El. apply Hok.
    + intros live _. unfold dev_seg at 1. fold key. by rewrite Hl.
    + intros off' _ _ _. unfold dev_seg. by rewrite El.
Qed.

Lemma sync_loop_spec bmaps : forall d lc off sstop s, 0 <= off -> off mod 4194304 = 0 -> chain_live d lc ->
  leaves_ok d -> Forall mem_seg_ok bmaps -> sstop < 2 ^ 63 ->
  sstop <= off + 4194304 * Z.of_nat (length bmaps) ->
  exists d' s', sync_loop io bmaps d lc off sstop s = Some (d', s') /\ leaves_ok d' /\
    hd_allocator_beg d' = hd_allocator_beg d /\ hd_total_size d' = hd_total_size d /\
    (forall o live, off <= o < sstop -> o mod 4194304 = 0 -> in_use d o -> dev_seg d o = Some live ->
       exists live', dev_seg d' o = Some live' /\ synced (aget bmap_zero bmaps ((o - off) / 4194304)) live live') /\
    (forall o, 0 <= o -> o mod 4194304 = 0 -> ~ (off <= o < sstop /\ in_use d o) -> dev_seg d' o = dev_seg d o).
Proof.
  induction bmaps as [|mem bmaps IH]; intros d lc off sstop s Ho Ha Hlc Hok Hm Hss Hfit; cbn [sync_loop];
    destruct (Z.leb_spec sstop off) as [Hle|Hlt].
  - exists d, s. split_and!; try done. intros; lia.
  - cbn in Hfit. lia.
  - exists d, s. split_and!; try done. intros; lia.
  - inversion Hm as [|? ? Hm1 Hm2]; subst.
    destruct (sync_segment_spec d lc off mem s Ho Ha Hlc Hok Hm1) as (d1 & lc1 & s1 & -> & Hok1 & Hlc1 & Eb & Et & Hnew & Hold).
    cbn [mbind option_bind]. change HAMMER2_FREEMAP_LEVEL0_SIZE with 4194304. cbn [length] in Hfit.
    rewrite (u64_small (off + 4194304)) by (clear -Ho Hlt Hss; change (2 ^ 63) with 9223372036854775808 in Hss; unfold is_u64; lia).
    destruct (IH d1 lc1 (off + 4194304) sstop s1) as (d' & s' & -> & Hok' & Eb' & Et' & Hnew' & Hold'); try done; [lia|clear -Ha; dlia|lia|].
    do 2 eexists. split; [reflexivity|]. split; [done|]. split; [congruence|]. split; [congruence|].
    assert (forall o, in_use d1 o <-> in_use d o) as Hu by (intros o; unfold in_use; by rewrite Eb, Et).
    split.
    + intros o live Hr Hoa Hin Hs. destruct (decide (o = off)) as [->|Hne].
      * replace ((off - off) / 4194304) with 0 by (rewrite Z.sub_diag; done).
        rewrite (Hold' off) by (done || (rewrite Hu; lia)). by apply Hnew.
      * rewrite <- (Hold o) in Hs by (lia || done || by left).
        destruct (Hnew' o live) as (live' & E & S); try done; [clear -Hr Hne Hoa Ha; dlia|by apply Hu|].
        exists live'. split; [done|].
        replace ((o - off) / 4194304) with ((o - (off + 4194304)) / 4194304 + 1) by (clear; dlia).
        unfold aget in *. rewrite Z2Nat.inj_add by (clear -Hr Hne Hoa Ha; dlia). rewrite Nat.add_comm. exact S.
    + intros o Hoo Hoa Hno. rewrite Hold'; [|done|done|rewrite Hu; intros [Hr Hin]; apply Hno; lia || (split; [lia|done])].
      apply Hold; [done|done|]. destruct (decide (o = off)) as [->|]; [right|by left]. intros Hin. apply Hno. split; [lia|done].
Qed.

End SyncProof.

(** ** The pass *)

Lemma round_psize_spec x : 0 <= x < 2 ^ 62 -> x <= round_psize x < x + 32768 /\ round_psize x mod 32768 = 0.
Proof.
  intros Hx. unfold round_psize. change HAMMER2_FREEMAP_LEVELN_PSIZE with 32768. change (32768 - 1) with (2 ^ 15 - 1).
  rewrite u64_small by (unfold is_u64; change (2 ^ 62) with 4611686018427387904 in Hx; lia).
  rewrite ldiff_low by lia. change (2 ^ 15) with 32768. clear. dlia.
Qed.

Lemma bulkfree_size_spec bfi total : 0 <= total < 2 ^ 62 ->
  1048576 <= bulkfree_size bfi total < 2 ^ 62 /\ bulkfree_size bfi total mod 32768 = 0.
Proof.
  intros Ht. unfold bulkfree_size. change HAMMER2_FREEMAP_SIZEDIV with 32768.
  set (s1 := if _ <? round_psize bfi then _ else _).
  assert (s1 <= total / 32768 + 1) as H1.
  { subst s1. unfold howmany. destruct (Z.ltb_spec (total / 32768) (round_psize bfi)); [|lia]. clear. dlia. }
  set (s2 := if s1 <? 1024 * 1024 then _ else _).
  assert (1048576 <= s2 < 2 ^ 61) as H2.
  { subst s2. change (1024 * 1024) with 1048576. change (2 ^ 61) with 2305843009213693952.
    change (2 ^ 62) with 4611686018427387904 in Ht. destruct (Z.ltb_spec s1 1048576); [lia|].
    clear -H1 Ht H. dlia. }
  destruct (round_psize_spec s2) as [H3 H4]; [change (2 ^ 62) with (2 * 2 ^ 61); lia|].
  split; [|done]. change (2 ^ 62) with (2 * 2 ^ 61). change (2 ^ 61) with 2305843009213693952 in *. lia.
Qed.

Section PassProof.
Context (io : chain_io) (icrc32 : Z -> Z) (pend : nat -> bool) (sd sc : Z) (fuel : nat) (vchain : chain).
Hypothesis Hnode : forall n k, io_node_error io n k = 0.
Hypothesis Hleaf : forall n k, io_leaf_error io n k = 0.
Hypothesis Hmodify : forall n k, io_modify_error io n k = 0.
Hypothesis Htopo : topo_ok vchain.
Hypothesis Hfuel : (c_size vchain <= fuel)%nat.
Context (beg total size : Z).
Hypothesis Htotal : 0 <= total < 2 ^ 62.
Hypothesis Hta : total mod 1024 = 0.
Hypothesis Hsize : 1048576 <= size.

(** The device of a pass. *)
Definition pass_dev (d : fm_dev) : Prop :=
  leaves_ok d /\ hd_allocator_beg d = beg /\ hd_total_size d = total.

(** The blocks a reachable blockref refers to are allocated in the live
    freemap, for the references from [lo] up to [hi]. *)
Definition kept (lo hi : Z) (d d' : fm_dev) : Prop :=
  forall e live, e ∈ c_flat vchain ->
  let off := e_off e &~ HAMMER2_OFF_MASK_RADIX in
  let bytes := Z.shiftl 1 (e_off e & HAMMER2_OFF_MASK_RADIX) in
  lo <= off < hi -> beg <= off - off mod 4194304 -> off + bytes <= total -> ext_ok (off mod 4194304, bytes) ->
  dev_seg d (off - off mod 4194304) = Some live ->
  exists live', dev_seg d' (off - off mod 4194304) = Some live' /\
    forall b, covers (off mod 4194304, bytes) b -> blk live' b = 3.

(** Segments outside [lo, hi) are as before. *)
Definition untouched (lo hi : Z) (d d' : fm_dev) : Prop :=
  forall o, 0 <= o -> o mod 4194304 = 0 -> ~ (lo <= o < hi) -> dev_seg d' o = dev_seg d o.

Lemma sstop_aligned sbase : sbase mod 2 ^ 30 = 0 -> 0 <= sbase < total ->
  let sstop := bulkfree_sstop total sbase (bulkfree_incr size) in sstop mod 2 ^ 30 = 0 \/ sstop = total.
Proof.
  intros Hsa Hs. unfold bulkfree_sstop, bulkfree_incr. destruct (_ <=? _); [by right|left].
  change HAMMER2_FREEMAP_LEVEL1_SIZE with 1073741824. change (2 ^ 30) with 1073741824 in *. clear -Hsa. dlia.
Qed.

Lemma sstop_advances sbase : 
  let sstop := bulkfree_sstop total sbase (bulkfree_incr size) in sbase + 2 ^ 30 <= sstop \/ sstop = total.
Proof.
  unfold bulkfree_sstop, bulkfree_incr. destruct (_ <=? _); [by right|left].
  change HAMMER2_FREEMAP_LEVEL1_SIZE with 1073741824. change (2 ^ 30) with 1073741824 in *.
  change HAMMER2_FREEMAP_LEVELN_PSIZE with 32768. clear -Hsize. dlia.
Qed.

Lemma sstop_range sbase : 0 <= sbase < total ->
  sbase < bulkfree_sstop total sbase (bulkfree_incr size) <= total.
Proof.
  intros Hs. pose proof (sstop_advances sbase) as H. cbn zeta in H. unfold bulkfree_sstop in *.
  change (2 ^ 30) with 1073741824 in H. destruct (Z.leb_spec (total - sbase) (bulkfree_incr size)); lia.
Qed.

(** A reference inside a segment does not cross the end of the window. *)
Lemma seg_fits sbase off bytes : sbase mod 2 ^ 30 = 0 -> 0 <= sbase < total ->
  let sstop := bulkfree_sstop total sbase (bulkfree_incr size) in
  sbase <= off < sstop -> off + bytes <= total -> off mod 4194304 + bytes <= HAMMER2_SEGSIZE ->
  off + bytes <= sstop.
Proof.
  intros Hsa Hs sstop Hr Hbt Hseg. destruct (sstop_aligned sbase Hsa Hs) as [Ha|Ha]; fold sstop in Ha; [|lia].
  change (2 ^ 30) with 1073741824 in Ha. h2const. clear -Ha Hr Hseg. dlia.
Qed.

Lemma pass_window_spec p sbase : pass_dev (ps_dev p) -> 0 <= sbase < total -> sbase mod 2 ^ 30 = 0 ->
  let sstop := bulkfree_sstop total sbase (bulkfree_incr size) in
  exists p' error, pass_window io icrc32 pend sd sc fuel vchain p size sbase sstop = Some (p', error) /\
    pass_dev (ps_dev p') /\ untouched sbase sstop (ps_dev p) (ps_dev p') /\
    (error &~ HAMMER2_ERROR_CHECK = 0 -> kept sbase sstop (ps_dev p) (ps_dev p')).
Proof.
  intros (Hok & Eb & Et) Hs Hsa sstop. unfold pass_window.
  assert (sstop <= total) as Hst by (subst sstop; unfold bulkfree_sstop; destruct (Z.leb_spec (total - sbase) (bulkfree_incr size)); lia).
  assert (exists i error, window_scan icrc32 pend sd sc fuel vchain p size sbase sstop = Some (i, error)) as (i & error & E).
  { apply (whole_total icrc32 _ sd sc fuel vchain (mkInfo _ ∅ 0 0 [] 0 (ps_list_count_max p) None 0 0 0 0 0 (ps_dedup_factor p)) eq_refl 0 eq_refl Hfuel). }
  rewrite E. cbn [mbind option_bind]. destruct (nz_spec (error &~ HAMMER2_ERROR_CHECK)) as [He|He].
  { do 2 eexists. split; [reflexivity|]. split; [done|]. split; [done|]. intros; contradiction. }
  assert (error &~ HAMMER2_ERROR_CHECK = 0) as He0 by lia.
  subst sstop. rewrite <- Et in E.
  destruct (window_covers icrc32 pend sd sc fuel vchain p size sbase i error Htopo ltac:(lia) ltac:(lia) Hsa
    ltac:(by rewrite Et) E He0) as ((Hm & _ & Hl & _) & Hmk). rewrite Et, Eb in *.
  set (sstop := bulkfree_sstop total sbase (bulkfree_incr size)) in *.
  assert (sbase mod 4194304 = 0) as Hsa'.
  { change (2 ^ 30) with 1073741824 in Hsa. clear -Hsa. dlia. }
  destruct (sync_loop_spec io Hnode Hleaf Hmodify (gs_bmap (bi_st i)) (ps_dev p) None sbase sstop (ps_stats p))
    as (d' & s' & Es & Hok' & Eb' & Et' & Hnew & Hold); try done; [lia| |].
  { change (2 ^ 63) with (2 * 2 ^ 62). lia. }
  unfold h2_bulkfree_sync. cbn [ps_dev ps_stats]. rewrite Es. cbn [mbind option_bind].
  do 2 eexists. split; [reflexivity|]. cbn [ps_dev]. split; [|split].
  - split; [exact Hok'|]. cbn. by rewrite Eb', Et', Eb, Et.
  - intros o Ho Hoa Hno. change (dev_seg d' o = dev_seg (ps_dev p) o). apply Hold; try done. by intros [? _].
  - intros _ e live Hin off bytes Hr Hbo Hbt Hext Hlive.
    assert (off mod 4194304 = (off - sbase) mod 4194304) as Emod by (clear -Hsa'; dlia).
    destruct (Hnew (off - off mod 4194304) live) as (live' & E' & S'); [| | |done|].
    + clear -Hr Hsa'. dlia.
    + clear. dlia.
    + unfold in_use. rewrite Eb, Et. split; [done|]. clear -Hr Hst. dlia.
    + exists live'. split; [exact E'|]. intros b Hb. pose proof (covers_range _ b Hext Hb) as Hbr.
      rewrite (S' b Hbr).
      replace ((off - off mod 4194304 - sbase) / 4194304) with ((off - sbase) / 4194304) by (clear -Hsa'; dlia).
      rewrite (Hmk e Hin); [done|done| | | |]; fold off; fold bytes.
      * clear -Hbo Hr Hst. dlia.
      * apply (seg_fits sbase); try done. by destruct Hext as (_ & _ & ? & _).
      * by rewrite <- Emod.
      * by rewrite <- Emod.
Qed.

Lemma pass_loop_spec n : forall p sbase error, pass_dev (ps_dev p) -> 0 <= sbase <= total ->
  sbase mod 2 ^ 30 = 0 \/ sbase = total -> error &~ HAMMER2_ERROR_CHECK = 0 ->
  total - sbase <= (Z.of_nat n - 1) * 2 ^ 30 ->
  exists p' stop error', pass_loop io icrc32 pend sd sc n fuel vchain p size sbase error = Some (p', stop, error') /\
    pass_dev (ps_dev p') /\ untouched sbase total (ps_dev p) (ps_dev p') /\
    (error' &~ HAMMER2_ERROR_CHECK = 0 -> stop = total /\ kept sbase total (ps_dev p) (ps_dev p')).
Proof.
  induction n as [|n IH]; intros p sbase error Hd Hs Hsa He Hn;
    [change (2 ^ 30) with 1073741824 in Hn; lia|]. cbn [pass_loop].
  pose proof Hd as (_ & _ & ->). destruct (Z.leb_spec total sbase) as [Hle|Hlt].
  { do 3 eexists. split; [reflexivity|]. split; [done|]. split; [done|]. intros _. split; [lia|]. intros e live _ off bytes Hr. lia. }
  destruct Hsa as [Hsa|]; [|lia].
  destruct (pass_window_spec p sbase Hd ltac:(lia) Hsa) as (p1 & e1 & -> & Hd1 & Hu1 & Hk1).
  cbn [mbind option_bind]. set (sstop := bulkfree_sstop total sbase (bulkfree_incr size)) in *.
  assert (sbase + 2 ^ 30 <= sstop \/ sstop = total) as Hadv by (apply sstop_advances).
  assert (sbase < sstop <= total) as Hss by (apply sstop_range; lia).
  destruct (nz_spec (e1 &~ HAMMER2_ERROR_CHECK)) as [He1|He1].
  { do 3 eexists. split; [reflexivity|]. split; [done|]. split; [|intros; contradiction].
    intros o Ho Hoa Hno. apply Hu1; [done|done|lia]. }
  destruct (IH (mkPass (ps_dev p1) (stat_reset_adj (ps_stats p1)) (ps_calls p1) (ps_signaled p1) (ps_list_count_max p1)
    (ps_dedup_factor p1)) sstop e1 Hd1 ltac:(lia) (sstop_aligned sbase ltac:(done) ltac:(lia)) ltac:(lia)
    ltac:(change (2 ^ 30) with 1073741824 in *; lia))
    as (p2 & stop & e2 & -> & Hd2 & Hu2 & Hk2).
  cbn [ps_dev] in *. do 3 eexists. split; [reflexivity|]. split; [done|]. split.
  - intros o Ho Hoa Hno. rewrite Hu2, Hu1; [done|done|done|lia|done|done|lia].
  - intros He2. destruct (Hk2 He2) as [Hst Hk]. split; [done|].
    intros e live Hin off bytes Hr Hbo Hbt Hext Hlive.
    destruct (decide (off < sstop)) as [Ho|Ho].
    + destruct (Hk1 ltac:(lia) e live Hin) as (live1 & E1 & B1); try done; [fold off; lia|]. fold off in E1, B1.
      exists live1. split; [|done]. rewrite Hu2; [done| |clear; dlia|].
      * pose proof (Z.mod_le off 4194304). lia.
      * pose proof (Z.mod_pos_bound off 4194304). lia.
    + apply (Hk e live Hin); fold off; try done; [lia|]. rewrite Hu1; [done| |clear; dlia|].
      * pose proof (Z.mod_le off 4194304). lia.
      * intros [_ Hx]. destruct (sstop_aligned sbase Hsa ltac:(lia)) as [Ha|Ha]; fold sstop in Ha; [|lia].
        change (2 ^ 30) with 1073741824 in Ha. clear -Hx Ha Ho. dlia.
Qed.

End PassProof.

Lemma bulkfree_sbase_spec bfi total : 0 <= bfi -> 0 <= total ->
  0 <= bulkfree_sbase bfi total <= total /\ bulkfree_sbase bfi total mod 2 ^ 30 = 0.
Proof.
  intros Hb Ht. unfold bulkfree_sbase. set (x := if total <? bfi then total else bfi).
  assert (0 <= x <= total) as Hx by (subst x; destruct (Z.ltb_spec total bfi); lia).
  destruct (off_parts x) as [-> _]; [lia|]. change (2 ^ 30) with 1073741824. clear -Hx. dlia.
Qed.

(** C5: a bulkfree pass over a readable freemap always ends, keeps the
    freemap well formed, and if it was not aborted it has gone through all of
    the media from its starting point and every block that a blockref
    reachable through good check codes refers to is allocated in the live
    freemap, whatever the freemap said before. *)
Theorem bulkfree_pass_keeps_referenced io icrc32 pend sd sc n fuel d vchain bfi_size bfi_sbase :
  (forall n k, io_node_error io n k = 0) -> (forall n k, io_leaf_error io n k = 0) ->
  (forall n k, io_modify_error io n k = 0) ->
  topo_ok vchain -> leaves_ok d -> 0 <= hd_total_size d < 2 ^ 62 -> hd_total_size d mod 1024 = 0 ->
  0 <= bfi_sbase -> (c_size vchain <= fuel)%nat -> hd_total_size d <= (Z.of_nat n - 1) * 2 ^ 30 ->
  exists p' stop error,
    hammer2_bulkfree_pass io icrc32 pend sd sc n fuel d vchain bfi_size bfi_sbase = Some (p', stop, error) /\
    leaves_ok (ps_dev p') /\
    (error &~ HAMMER2_ERROR_CHECK = 0 -> stop = hd_total_size d /\
     kept vchain (hd_allocator_beg d) (hd_total_size d) (bulkfree_sbase bfi_sbase (hd_total_size d))
       (hd_total_size d) d (ps_dev p')).
Proof.
  intros H1 H2 H3 Ht Hok Htot Hta Hb Hf Hn. unfold hammer2_bulkfree_pass.
  destruct (bulkfree_size_spec bfi_size (hd_total_size d) Htot) as [Hsz _].
  destruct (bulkfree_sbase_spec bfi_sbase (hd_total_size d) Hb ltac:(lia)) as [Hs Hsa].
  destruct (pass_loop_spec io icrc32 pend sd sc fuel vchain H1 H2 H3 Ht Hf (hd_allocator_beg d) (hd_total_size d)
    (bulkfree_size bfi_size (hd_total_size d)) Htot Hta ltac:(lia) n (mkPass d stats_zero 0 false 0 0)
    (bulkfree_sbase bfi_sbase (hd_total_size d)) 0 ltac:(done) Hs (or_introl Hsa) eq_refl ltac:(lia))
    as (p' & stop & e & E & Hd & _ & Hk).
  exists p', stop, e. split; [exact E|]. split; [apply Hd|exact Hk].
Qed.

(** A 1GB device with its leaf as hammer2_freemap_init() makes it: the blocks
    of the sample topology are free in it. *)
Definition sample_dev : fm_dev :=
  mkDev 8388608 1073741824 1061158912 0 (replicate 32 0)
    {[0 := hammer2_freemap_init 8388608 1073741824 0 leaf_zeroed]} [] [] 0.

Lemma sample_dev_ok : leaves_ok sample_dev.
Proof.
  intros key leaf. unfold sample_dev. cbn [hd_leaves]. intros [<- <-]%lookup_singleton_Some.
  assert (forall n, 0 <= n < 256 ->
    length (lf_bmdata (hammer2_freemap_init 8388608 1073741824 0 leaf_zeroed)) = 256%nat /\
    aget bmap_zero (lf_bmdata (hammer2_freemap_init 8388608 1073741824 0 leaf_zeroed)) n =
    if decide (usable 8388608 1073741824 (0 + n * HAMMER2_SEGSIZE)) then bmap_free else bmap_full) as H.
  { intros n Hn. apply init_segment; done || lia. }
  split; [by apply (H 0)|]. intros n Hn. destruct (H n Hn) as [_ ->].
  case_decide; (split; [apply bmap_free_ok || apply bmap_full_ok..]).
Qed.

Definition sample_run : option (pass_state * Z * Z) :=
  hammer2_bulkfree_pass io_quiet (fun o => o) (fun _ => false) 0 0 3 10 sample_dev sample_topology 0 0.

Lemma bulkfree_pass_keeps_referenced_witness : exists p' stop error, sample_run = Some (p', stop, error) /\
  error = 0 /\ kept sample_topology 8388608 1073741824 0 1073741824 sample_dev (ps_dev p').
Proof.
  destruct (bulkfree_pass_keeps_referenced io_quiet (fun o => o) (fun _ => false) 0 0 3 10 sample_dev sample_topology 0 0)
    as (p' & stop & error & E & _ & Hk).
  - reflexivity.
  - reflexivity.
  - reflexivity.
  - exact sample_topology_ok.
  - exact sample_dev_ok.
  - cbn. lia.
  - reflexivity.
  - lia.
  - vm_compute. lia.
  - vm_compute. congruence.
  - assert ((snd <$> sample_run) = Some 0) as He by (vm_compute; reflexivity).
    exists p', stop, error. split; [exact E|]. unfold sample_run in He. rewrite E in He. injection He as ->.
    split; [reflexivity|]. apply (Hk eq_refl).
Defined.

(** ** Error paths *)

(** a freemap node that cannot be read stops the synchronization in a
    null pointer: hammer2_chain_lookup() returns no chain with its error, and
    the message about it reads [live_chain->error].  No state is the result,
    whatever the window and the device. *)
Theorem bulkfree_sync_lookup_fault io bmaps d sbase sstop s :
  hd_allocator_beg d <= sbase < hd_total_size d -> 0 <= sbase < sstop ->
  io_node_error io (hd_tick d) (sbase - sbase mod 2 ^ 30) <> 0 ->
  h2_bulkfree_sync io bmaps d sbase sstop s = None.
Proof.
  intros Hd Hs He. unfold h2_bulkfree_sync. destruct bmaps as [|mem bmaps]; cbn [sync_loop];
    (destruct (Z.leb_spec sstop sbase); [lia|]); [done|]. unfold sync_segment, sync_lookup.
  destruct (Z.ltb_spec sbase (hd_allocator_beg d)); [lia|].
  destruct (Z.leb_spec (hd_total_size d) sbase); [lia|].
  destruct (off_parts sbase) as [-> _]; [lia|]. rewrite bool_decide_eq_false_2 by done.
  by destruct (nz_spec (io_node_error io (hd_tick d) (sbase - sbase mod 2 ^ 30))).
Qed.

Lemma bulkfree_sync_lookup_fault_witness :
  h2_bulkfree_sync (mkIo (fun _ _ => HAMMER2_ERROR_EIO) (fun _ _ => 0) (fun _ _ => 0) (fun _ _ => 0))
    (replicate 4 bmap_free) (mkDev 0 1073741824 0 0 [] ∅ [] [] 0) 0 16777216 stats_zero = None.
Proof. apply bulkfree_sync_lookup_fault; [cbn; lia|lia|discriminate]. Defined.

(** A topology whose inode fails its check code. *)
Definition damaged_topology : chain :=
  let n := sample_bref HAMMER2_BREF_TYPE_INODE 0 (8388608 + 10) in
  Chain (sample_bref HAMMER2_BREF_TYPE_VOLUME 0 0) 0 0 65536
    [Entry n (Some (Chain n 0 HAMMER2_ERROR_CHECK 1024 [Entry (c_bref sample_indirect) (Some sample_indirect)]))].

