(* ===== verification/BlockTable.v ===== *)
(** The blockref table of a chain and its in-memory children
    (hammer2_chain.c): hammer2_base_find(), hammer2_base_insert(),
    hammer2_base_delete(), hammer2_chain_countbrefs(), hammer2_chain_find()
    and hammer2_combined_find().

    A failed KKASSERT is [None]; hpanic(), which marks the device in error and
    returns, is a flag of the result.  The red-black tree of the children is the
    list of its nodes in order. *)
From S2P Require Import Prelude Disk.
From Stdlib Require Import ZArith Lia Bool.
From stdpp Require Import base list.
Open Scope Z_scope.

Definition HAMMER2_CHAIN_DELETED : Z := 0x00000010.
Definition HAMMER2_CHAIN_COUNTEDBREFS : Z := 0x00002000.
Definition HAMMER2_CHAIN_BLKMAPPED : Z := 0x00040000.
Definition HAMMER2_CHAIN_BLKMAPUPD : Z := 0x00080000.
Definition HAMMER2_CHAIN_HINT_LEAF_COUNT : Z := 0x00800000.
Definition HAMMER2_BLOCKREF_LEAF_MAX : Z := 65535.

(** ** Keys *)

(** [(hammer2_key_t)1 << keybits], the last key of a blockref and the key after
    it, which wraps to 0 at the end of the key space. *)
Definition key_span (keybits : Z) : Z := u64 (Z.shiftl 1 keybits).
Definition key_last (b : hammer2_blockref) : Z := u64 (br_key b + key_span (br_keybits b) - 1).
Definition key_stop (b : hammer2_blockref) : Z := u64 (br_key b + key_span (br_keybits b)).

Definition bref_empty (b : hammer2_blockref) : bool := br_type b =? HAMMER2_BREF_TYPE_EMPTY.

(** ** State *)

(** An in-memory child of the chain. *)
Record child := mkChild { cd_bref : hammer2_blockref; cd_flags : Z }.

Definition cd_set (c : child) (f : Z) : child := mkChild (cd_bref c) (cd_flags c ||| f).
Definition cd_clear (c : child) (f : Z) : child := mkChild (cd_bref c) (cd_flags c &~ f).

(** The chain that has the table: its blockref, [cache_index] and the parts of
    its core. *)
Record parent := mkParent {
  pa_bref : hammer2_blockref;
  pa_flags : Z;
  pa_cache_index : Z;
  pa_live_zero : Z;
  pa_live_count : Z;
  pa_rbtree : list child
}.

Definition set_cache_index (p : parent) (i : Z) : parent :=
  mkParent (pa_bref p) (pa_flags p) i (pa_live_zero p) (pa_live_count p) (pa_rbtree p).
Definition set_live_zero (p : parent) (z : Z) : parent :=
  mkParent (pa_bref p) (pa_flags p) (pa_cache_index p) z (pa_live_count p) (pa_rbtree p).
Definition set_bref (p : parent) (b : hammer2_blockref) : parent :=
  mkParent b (pa_flags p) (pa_cache_index p) (pa_live_zero p) (pa_live_count p) (pa_rbtree p).

Definition bref_at (base : list hammer2_blockref) (i : Z) : hammer2_blockref := aget bref_zero base i.

(** ** Counting the table *)

(** [while (--count >= 0) if (base[count].type != EMPTY) break;]: one past the
    last entry below [n] that is in use. *)
Fixpoint used_below (base : list hammer2_blockref) (n : nat) : nat :=
  match n with
  | O => O
  | S k => if bref_empty (bref_at base (Z.of_nat k)) then used_below base k else n
  end.

(** The entries in use below [n]. *)
Fixpoint count_below (base : list hammer2_blockref) (n : nat) : Z :=
  match n with
  | O => 0
  | S k => (if bref_empty (bref_at base (Z.of_nat k)) then 0 else 1) + count_below base k
  end.

Definition hammer2_chain_countbrefs (p : parent) (base : option (list hammer2_blockref)) (count : Z) : parent :=
  if has (pa_flags p) HAMMER2_CHAIN_COUNTEDBREFS then p else
  let '(zero, n) :=
    match base with
    | Some base =>
        let k := used_below base (Z.to_nat count) in (Z.of_nat k, pa_live_count p + count_below base k)
    | None => (0, pa_live_count p)
    end in
  mkParent (pa_bref p) (pa_flags p ||| HAMMER2_CHAIN_COUNTEDBREFS) (pa_cache_index p) zero n (pa_rbtree p).

(** ** Searching the table *)

(** The loop backwards. *)
Fixpoint find_back (base : list hammer2_blockref) (key_beg : Z) (i : nat) : nat :=
  match i with
  | O => O
  | S k =>
      let scan := bref_at base (Z.of_nat i) in
      if bref_empty scan || (key_beg <? br_key scan) then find_back base key_beg k else i
  end.

(** The loop forwards: the index it stops at, or [None] where it returns. *)
Fixpoint find_forward (base : list hammer2_blockref) (key_beg limit count : Z) (fuel : nat) (i : Z) : option Z :=
  match fuel with
  | O => Some i
  | S fuel =>
      if i <? count then
        let scan := bref_at base i in
        if negb (bref_empty scan) && ((key_beg <? br_key scan) || (key_beg <=? key_last scan)) then Some i
        else if limit <=? i then None
        else find_forward base key_beg limit count fuel (i + 1)
      else Some i
  end.

(** The index and the next key. *)
Definition hammer2_base_find (p : parent) (base : option (list hammer2_blockref)) (count key_next key_beg : Z)
    : option (parent * Z * Z) :=
  if negb (has (pa_flags p) HAMMER2_CHAIN_COUNTEDBREFS) then None else
  match base with
  | None => Some (p, key_next, count)
  | Some base =>
      if count =? 0 then Some (p, key_next, count) else
      let limit := pa_live_zero p in
      let i := pa_cache_index p in
      let i := if limit <=? i then limit - 1 else i in
      let i := if i <? 0 then 0 else i in
      if negb (i <? count) then None else
      let i := Z.of_nat (find_back base key_beg (Z.to_nat i)) in
      let p := set_cache_index p i in
      match find_forward base key_beg limit count (Z.to_nat (count - i)) i with
      | None => Some (p, key_next, count)
      | Some i =>
          if i =? count then Some (p, key_next, i) else
          let p := set_cache_index p i in
          if limit <=? i then Some (p, key_next, count) else
          let scan_end := key_stop (bref_at base i) in
          Some (p, (if nz scan_end && ((scan_end <? key_next) || (key_next =? 0)) then scan_end else key_next), i)
      end
  end.

(** ** Searching the children *)

Record find_info := mkInfo { fi_best : option child; fi_key_next : Z }.

Definition hammer2_chain_find_cmp (key_beg key_end : Z) (c : child) : Z :=
  if key_last (cd_bref c) <? key_beg then -1
  else if key_end <? br_key (cd_bref c) then 1
  else 0.

(** [if (key_next > key || key_next == 0) key_next = key]. *)
Definition truncate (key_next key : Z) : Z :=
  if (key <? key_next) || (key_next =? 0) then key else key_next.

Definition hammer2_chain_find_callback (key_beg : Z) (info : find_info) (c : child) : option find_info :=
  let key := br_key (cd_bref c) in
  let info' :=
    match fi_best info with
    | None => Some (mkInfo (Some c) (fi_key_next info))
    | Some best =>
        let bkey := br_key (cd_bref best) in
        if (bkey <=? key_beg) && (key <=? key_beg) then None
        else if key <? bkey then Some (mkInfo (Some c) (truncate (fi_key_next info) bkey))
        else if key =? bkey then None
        else Some (mkInfo (Some best) (truncate (fi_key_next info) key))
    end in
  match info' with
  | None => None
  | Some info' =>
      let child_end := key_stop (cd_bref c) in
      Some (mkInfo (fi_best info')
        (if nz child_end then truncate (fi_key_next info') child_end else fi_key_next info'))
  end.

(** RB_SCAN(): the callback on the first node in the range and on its
    successors while they are in the range. *)
Fixpoint scan_run {A B : Type} (cmp : A -> Z) (f : B -> A -> option B) (l : list A) (acc : B) : option B :=
  match l with
  | [] => Some acc
  | x :: l =>
      if cmp x =? 0 then
        match f acc x with
        | None => None
        | Some acc => scan_run cmp f l acc
        end
      else Some acc
  end.

Fixpoint RB_SCAN {A B : Type} (cmp : A -> Z) (f : B -> A -> option B) (l : list A) (acc : B) : option B :=
  match l with
  | [] => Some acc
  | x :: l' => if cmp x =? 0 then scan_run cmp f l acc else RB_SCAN cmp f l' acc
  end.

Definition hammer2_chain_find (p : parent) (key_next key_beg key_end : Z) : option (option child * Z) :=
  match RB_SCAN (hammer2_chain_find_cmp key_beg key_end) (hammer2_chain_find_callback key_beg)
      (pa_rbtree p) (mkInfo None key_next) with
  | None => None
  | Some info => Some (fi_best info, fi_key_next info)
  end.

(** ** The combined search *)

(** The parent, the next key, the in-memory child and the blockref. *)
Definition hammer2_combined_find (p : parent) (base : option (list hammer2_blockref)) (count key_beg key_end : Z)
    : option (parent * Z * option child * option hammer2_blockref) :=
  match hammer2_base_find p base count (u64 (key_end + 1)) key_beg with
  | None => None
  | Some (p, key_next, i) =>
      match hammer2_chain_find p key_next key_beg key_end with
      | None => None
      | Some (chain, key_next) =>
          let found chain bref :=
            if key_end <? br_key bref then Some (p, key_next, None, None)
            else Some (p, key_next, chain, Some bref) in
          let bi := bref_at (default [] base) i in
          match chain with
          | None => if i =? count then Some (p, key_next, None, None) else found None bi
          | Some c =>
              let bref := cd_bref c in
              if i =? count then found chain bref
              else if ((br_key bref <=? key_beg) && (br_key bi <=? key_beg)) || (br_key bref =? br_key bi) then
                if br_key bref =? br_key bi then found chain bref else None
              else if br_key bref <? br_key bi then found chain bref
              else found None bi
          end
      end
  end.

(** ** Statistics *)

Definition bref_set_stats (b : hammer2_blockref) (leaf_count data_count inode_count : Z) : hammer2_blockref :=
  mkBref (br_type b) (br_methods b) (br_copyid b) (br_keybits b) (br_vradix b) (br_flags b)
    leaf_count (br_key b) (br_mirror_tid b) (br_modify_tid b) (br_data_off b) (br_update_tid b)
    data_count inode_count (br_check b).

(** The bytes of a blockref: none for radix 0. *)
Definition bref_bytes (b : hammer2_blockref) : Z :=
  let radix := br_data_off b & HAMMER2_OFF_MASK_RADIX in
  if nz radix then u64 (Z.shiftl 1 radix) else 0.

(** A step of [leaf_count] down, and whether the count is saturated and the
    child has to be told. *)
Definition leaf_sub (leaf n : Z) : Z :=
  if leaf =? HAMMER2_BLOCKREF_LEAF_MAX then leaf else if leaf <=? n then 0 else leaf - n.
Definition leaf_inc (leaf : Z) : Z := if leaf =? HAMMER2_BLOCKREF_LEAF_MAX then leaf else leaf + 1.
Definition leaf_add (leaf n : Z) : Z :=
  if leaf + n <? HAMMER2_BLOCKREF_LEAF_MAX then leaf + n else HAMMER2_BLOCKREF_LEAF_MAX.

(** The switch of hammer2_base_delete() on the type of the entry. *)
Definition stats_delete (b scan : hammer2_blockref) : hammer2_blockref :=
  let leaf := br_leaf_count b in
  let data := u64 (br_data_count b - bref_bytes scan) in
  let inode := br_inode_count b in
  let t := br_type scan in
  if t =? HAMMER2_BREF_TYPE_INODE then
    bref_set_stats b (leaf_sub leaf 1) (u64 (data - br_data_count scan))
      (u64 (u64 (inode - 1) - br_inode_count scan))
  else if t =? HAMMER2_BREF_TYPE_DATA then
    bref_set_stats b (leaf_sub (leaf_sub leaf 1) (br_leaf_count scan)) data inode
  else if t =? HAMMER2_BREF_TYPE_INDIRECT then
    bref_set_stats b (leaf_sub leaf (br_leaf_count scan)) (u64 (data - br_data_count scan))
      (u64 (inode - br_inode_count scan))
  else if t =? HAMMER2_BREF_TYPE_DIRENT then bref_set_stats b (leaf_sub leaf 1) data inode
  else bref_set_stats b leaf data inode.

(** The types whose deletion looks at [leaf_count]. *)
Definition counts_leaves (b : hammer2_blockref) : bool :=
  (br_type b =? HAMMER2_BREF_TYPE_INODE) || (br_type b =? HAMMER2_BREF_TYPE_DATA) ||
  (br_type b =? HAMMER2_BREF_TYPE_INDIRECT) || (br_type b =? HAMMER2_BREF_TYPE_DIRENT).

(** The switch of hammer2_base_insert() on the type of the element. *)
Definition stats_insert (b elm : hammer2_blockref) : hammer2_blockref :=
  let leaf := br_leaf_count b in
  let data := u64 (br_data_count b + bref_bytes elm) in
  let inode := br_inode_count b in
  let t := br_type elm in
  if t =? HAMMER2_BREF_TYPE_INODE then
    bref_set_stats b (leaf_inc leaf) (u64 (data + br_data_count elm))
      (u64 (u64 (inode + 1) + br_inode_count elm))
  else if t =? HAMMER2_BREF_TYPE_DATA then
    bref_set_stats b (leaf_add (leaf_inc leaf) (br_leaf_count elm)) data inode
  else if t =? HAMMER2_BREF_TYPE_INDIRECT then
    bref_set_stats b (leaf_add leaf (br_leaf_count elm)) (u64 (data + br_data_count elm))
      (u64 (inode + br_inode_count elm))
  else if t =? HAMMER2_BREF_TYPE_DIRENT then bref_set_stats b (leaf_inc leaf) data inode
  else bref_set_stats b leaf data inode.

(** ** Deleting an element *)

Record del_result := mkDel {
  dl_parent : parent;
  dl_base : list hammer2_blockref;
  dl_chain : child;
  dl_obref : option hammer2_blockref;   (* what is stored through obref *)
  dl_hpanic : bool
}.

Definition hammer2_base_delete (p : parent) (base : list hammer2_blockref) (count : Z) (chain : child)
    : option del_result :=
  let elm := cd_bref chain in
  match hammer2_base_find p (Some base) count 0 (br_key elm) with
  | None => None
  | Some (p, _, i) =>
      let scan := bref_at base i in
      if (i =? count) || bref_empty scan || negb (br_key scan =? br_key elm) ||
         (negb (has (cd_flags chain) HAMMER2_CHAIN_BLKMAPUPD) && negb (br_keybits scan =? br_keybits elm))
      then Some (mkDel p base chain None true)
      else
        let chain :=
          if counts_leaves scan && (br_leaf_count (pa_bref p) =? HAMMER2_BLOCKREF_LEAF_MAX)
          then cd_set chain HAMMER2_CHAIN_HINT_LEAF_COUNT else chain in
        let p := set_bref p (stats_delete (pa_bref p) scan) in
        let base := aset base i bref_zero in
        let p :=
          if pa_live_zero p =? i + 1 then set_live_zero p (Z.of_nat (used_below base (Z.to_nat i))) else p in
        Some (mkDel p base (cd_clear chain (HAMMER2_CHAIN_BLKMAPPED ||| HAMMER2_CHAIN_BLKMAPUPD)) (Some scan) false)
  end.

(** ** Inserting an element *)

(** memmove(&base[dst], &base[src], n * sizeof( *base)). *)
Definition brefs_move (base : list hammer2_blockref) (dst src n : Z) : list hammer2_blockref :=
  take (Z.to_nat dst) base ++ take (Z.to_nat n) (drop (Z.to_nat src) base) ++ drop (Z.to_nat (dst + n)) base.

Inductive slot :=
  | SlotBefore (j : Z)
  | SlotAfter (k : Z)
  | SlotNone.

(** The loop for an empty slot before or after. *)
Fixpoint find_slot (fuel : nat) (base : list hammer2_blockref) (count j k : Z) : slot :=
  match fuel with
  | O => SlotNone
  | S fuel =>
      if (0 <? j) || (k <? count) then
        let j := j - 1 in
        if (0 <=? j) && bref_empty (bref_at base j) then SlotBefore j else
        let k := k + 1 in
        if (k <? count) && bref_empty (bref_at base k) then SlotAfter k
        else find_slot fuel base count j k
      else SlotNone
  end.

(** The loop after [validate]: true when an element is out of order. *)
Fixpoint validate_from (base : list hammer2_blockref) (key_next : Z) : bool :=
  match base with
  | [] => false
  | b :: base =>
      if bref_empty b then validate_from base key_next
      else if br_key b <=? key_next then true
      else validate_from base (key_last b)
  end.

(** [validate]: the first element in use, then the loop. *)
Fixpoint validate (base : list hammer2_blockref) : bool :=
  match base with
  | [] => false
  | b :: base => if bref_empty b then validate base else validate_from base (key_last b)
  end.

Record ins_result := mkIns {
  in_parent : parent;
  in_base : list hammer2_blockref;
  in_chain : option child;
  in_hpanic : bool
}.

Definition hammer2_base_insert (p : parent) (base : list hammer2_blockref) (count : Z) (chain : option child)
    (elm : hammer2_blockref) : option ins_result :=
  match hammer2_base_find p (Some base) count 0 (br_key elm) with
  | None => None
  | Some (p, _, i) =>
      if negb ((0 <=? i) && (i <=? count)) then None else
      let chain := option_map (fun c => cd_set c HAMMER2_CHAIN_BLKMAPPED) chain in
      let p := set_bref p (stats_insert (pa_bref p) elm) in
      if (i =? count) && (pa_live_zero p <? count) then
        Some (mkIns (set_live_zero p (pa_live_zero p + 1)) (aset base (pa_live_zero p) elm) chain false)
      else if negb (i =? count) &&
              ((br_key (bref_at base i) <? br_key elm) || (br_key (bref_at base i) <=? key_last elm))
      then Some (mkIns p base chain true)
      else
        match find_slot (S (Z.to_nat count)) base count i i with
        | SlotBefore j =>
            let base :=
              if j =? i - 1 then aset base j elm
              else aset (brefs_move base j (j + 1) (i - j - 1)) (i - 1) elm in
            Some (mkIns p base chain (validate base))
        | SlotAfter k =>
            let base := aset (brefs_move base (i + 1) i (k - i)) i elm in
            let p := if pa_live_zero p <=? k then set_live_zero p (k + 1) else p in
            Some (mkIns p base chain (validate base))
        | SlotNone => Some (mkIns p base chain true)
        end
  end.
