(* ===== verification/BlockTableProof.v ===== *)
(** The blockref table of a chain implements a sorted list of disjoint key
    ranges. *)
From S2P Require Import Prelude Disk BlockTable.
From Stdlib Require Import ZArith Lia Bool.
From stdpp Require Import base list sorting.
Open Scope Z_scope.

(** ** The elements of a table *)

Definition used (b : hammer2_blockref) : bool := negb (bref_empty b).
Definition entries (base : list hammer2_blockref) : list hammer2_blockref := List.filter used base.
Arguments entries base : simpl never.

(** A range of keys that does not leave the key space. *)
Definition bref_ok (b : hammer2_blockref) : Prop :=
  0 <= br_key b /\ 0 <= br_keybits b < 64 /\ br_key b + 2 ^ br_keybits b <= 2 ^ 64.

(** The keys of [a] are all below those of [b]. *)
Definition before (a b : hammer2_blockref) : Prop := br_key a + 2 ^ br_keybits a <= br_key b.

Definition brefs_ok (l : list hammer2_blockref) : Prop := Forall bref_ok l /\ StronglySorted before l.
Definition table_ok (base : list hammer2_blockref) : Prop := brefs_ok (entries base).

(** [live_zero] as hammer2_chain_countbrefs() computes it. *)
Definition live_end (base : list hammer2_blockref) : Z := Z.of_nat (used_below base (length base)).

Lemma key_span_eq k : 0 <= k < 64 -> key_span k = 2 ^ k.
Proof.
  intros Hk. unfold key_span. rewrite Z.shiftl_1_l. apply u64_small. split.
  - apply Z.pow_nonneg. lia.
  - apply Z.pow_lt_mono_r; lia.
Qed.

Lemma key_last_eq b : bref_ok b -> key_last b = br_key b + 2 ^ br_keybits b - 1.
Proof.
  intros (? & ? & ?). unfold key_last. rewrite key_span_eq by done. apply u64_small.
  assert (0 < 2 ^ br_keybits b) by (apply Z.pow_pos_nonneg; lia). unfold is_u64. lia.
Qed.

Lemma span_pos b : bref_ok b -> 0 < 2 ^ br_keybits b.
Proof. intros (? & ? & ?). apply Z.pow_pos_nonneg; lia. Qed.

Lemma entries_app l1 l2 : entries (l1 ++ l2) = entries l1 ++ entries l2.
Proof. apply List.filter_app. Qed.

Lemma entries_cons b l : entries (b :: l) = if bref_empty b then entries l else b :: entries l.
Proof. unfold entries, used. cbn. by destruct (bref_empty b). Qed.

Lemma entries_split base i : entries base = entries (take i base) ++ entries (drop i base).
Proof. by rewrite <- entries_app, take_drop. Qed.

Lemma entries_elem b base : b ∈ entries base <-> b ∈ base /\ bref_empty b = false.
Proof.
  unfold entries. rewrite !list_elem_of_In, List.filter_In. unfold used.
  destruct (bref_empty b); cbn; intuition congruence.
Qed.

Lemma entries_none base : (forall b, b ∈ base -> bref_empty b = true) -> entries base = [].
Proof.
  intros H. destruct (entries base) as [|b l] eqn:E; [done|].
  assert (b ∈ entries base) as Hb by (rewrite E; apply elem_of_cons; by left).
  apply entries_elem in Hb as [Hb He]. by rewrite H in He.
Qed.

Lemma bref_at_lookup base n b : base !! n = Some b -> bref_at base (Z.of_nat n) = b.
Proof. intros H. unfold bref_at, aget. by rewrite Nat2Z.id, H. Qed.

Lemma bref_lookup base n : (n < length base)%nat -> base !! n = Some (bref_at base (Z.of_nat n)).
Proof.
  intros Hn. destruct (lookup_lt_is_Some_2 base n Hn) as [b Hb]. rewrite Hb. by rewrite (bref_at_lookup _ _ b).
Qed.

Lemma brefs_ok_app l1 l2 : brefs_ok (l1 ++ l2) <->
  brefs_ok l1 /\ brefs_ok l2 /\ (forall a b, a ∈ l1 -> b ∈ l2 -> before a b).
Proof.
  unfold brefs_ok. rewrite Forall_app. split.
  - intros [[F1 F2] S]. apply StronglySorted_app in S as (? & ? & ?). done.
  - intros ([F1 S1] & [F2 S2] & H). split; [done|]. by apply StronglySorted_app.
Qed.

Lemma brefs_ok_cons b l : brefs_ok (b :: l) <-> bref_ok b /\ brefs_ok l /\ (forall c, c ∈ l -> before b c).
Proof.
  unfold brefs_ok. rewrite Forall_cons. split.
  - intros [[F1 F2] S]. apply StronglySorted_cons in S as [HF S]. split_and!; try done. by apply Forall_forall.
  - intros (Fb & [F S] & H). split; [done|]. apply StronglySorted_cons. split; [|done]. by apply Forall_forall.
Qed.

Lemma brefs_ok_elem l b : brefs_ok l -> b ∈ l -> bref_ok b.
Proof. intros [F _] Hb. rewrite Forall_forall in F. auto. Qed.

(** ** Searching the table *)

Lemma used_below_spec base n : (n <= length base)%nat ->
  let k := used_below base n in
  (k <= n)%nat /\ entries (drop k (take n base)) = [] /\
  (k = O \/ exists b, base !! (k - 1)%nat = Some b /\ bref_empty b = false).
Proof.
  induction n as [|n IH]; intros Hn; cbn -[bref_at].
  { split_and!; [lia|done|by left]. }
  assert (Hl := bref_lookup base n ltac:(lia)).
  destruct (bref_empty (bref_at base (Z.of_nat n))) eqn:E.
  - destruct IH as (H1 & H2 & H3); [lia|]. split_and!; [lia| |done].
    rewrite (take_S_r base n _ Hl), drop_app_le by (rewrite length_take; lia).
    by rewrite entries_app, H2, entries_cons, E.
  - split_and!; [lia| |].
    + by rewrite drop_ge by (rewrite length_take; lia).
    + right. exists (bref_at base (Z.of_nat n)). by replace (S n - 1)%nat with n by lia.
Qed.

(** Nothing is in use from [live_zero] on. *)
Lemma live_end_spec base : 0 <= live_end base <= zlen base /\
  entries (drop (Z.to_nat (live_end base)) base) = [].
Proof.
  unfold live_end. destruct (used_below_spec base (length base)) as (H1 & H2 & _); [lia|].
  rewrite firstn_all in H2. rewrite Nat2Z.id. split; [lia|done].
Qed.

(** The search as a scan of the whole table: the first entry in use that ends
    at or after the key. *)
Fixpoint first_at (base : list hammer2_blockref) (key : Z) : nat :=
  match base with
  | [] => O
  | b :: base => if used b && (key <=? key_last b) then O else S (first_at base key)
  end.

Definition below (key : Z) (b : hammer2_blockref) : Prop := key_last b < key.

Lemma first_at_le base key : (first_at base key <= length base)%nat.
Proof. induction base as [|b base IH]; cbn; [lia|]. destruct (_ && _); lia. Qed.

Lemma first_at_spec base key : Forall (below key) (entries (take (first_at base key) base)) /\
  ((first_at base key < length base)%nat -> exists b, base !! first_at base key = Some b /\
     bref_empty b = false /\ key <= key_last b).
Proof.
  induction base as [|b base [IH1 IH2]]; cbn; [split; [constructor|lia]|]. unfold used.
  destruct (bref_empty b) eqn:E; cbn; [|destruct (Z.leb_spec key (key_last b))]; cbn.
  - rewrite entries_cons, E. split; [done|]. intros. apply IH2. lia.
  - split; [constructor|]. intros _. by exists b.
  - rewrite entries_cons, E. split; [by constructor|]. intros. apply IH2. lia.
Qed.

Lemma first_at_unique base key i : (i <= length base)%nat ->
  Forall (below key) (entries (take i base)) ->
  ((i < length base)%nat -> exists b, base !! i = Some b /\ bref_empty b = false /\ key <= key_last b) ->
  first_at base key = i.
Proof.
  revert i. induction base as [|b base IH]; intros i Hi HF Hs; cbn in *; [lia|].
  destruct i as [|i].
  - destruct Hs as (c & Hc & Hu & Hk); [lia|]. injection Hc as <-. unfold used. rewrite Hu.
    destruct (Z.leb_spec key (key_last b)); [done|lia].
  - cbn [take] in HF. rewrite entries_cons in HF. unfold used.
    destruct (bref_empty b); cbn.
    + f_equal. apply IH; [lia|done|]. intros. apply Hs. lia.
    + apply Forall_cons in HF as [Hb HF]. unfold below in Hb.
      destruct (Z.leb_spec key (key_last b)); [lia|]. f_equal. apply IH; [lia|done|]. intros. apply Hs. lia.
Qed.

(** Entries ahead of one in use that starts at or below the key end below it. *)
Lemma below_prefix base key k b : table_ok base -> base !! k = Some b -> bref_empty b = false ->
  br_key b <= key -> Forall (below key) (entries (take k base)).
Proof.
  intros Hok Hb He Hk. unfold table_ok in Hok. rewrite (entries_split base k) in Hok.
  apply brefs_ok_app in Hok as (H1 & _ & H). apply Forall_forall. intros a Ha.
  assert (before a b) as Hab.
  { apply H; [done|]. apply entries_elem. split; [|done].
    rewrite (drop_S base b k Hb). apply elem_of_cons. by left. }
  unfold below. rewrite key_last_eq by (by eapply brefs_ok_elem). unfold before in Hab. lia.
Qed.

Lemma find_back_spec base key i : table_ok base -> (i < length base)%nat ->
  (find_back base key i <= i)%nat /\ Forall (below key) (entries (take (find_back base key i) base)).
Proof.
  intros Hok. induction i as [|i IH]; intros Hi; cbn -[bref_at]; [split; [lia|constructor]|].
  change (Z.pos (Pos.of_succ_nat i)) with (Z.of_nat (S i)).
  assert (Hl := bref_lookup base (S i) Hi). set (b := bref_at base (Z.of_nat (S i))) in *.
  destruct (bref_empty b) eqn:E; cbn [orb].
  { destruct IH; [lia|]. split; [lia|done]. }
  destruct (Z.ltb_spec key (br_key b)); [destruct IH; [lia|]; split; [lia|done]|].
  split; [lia|]. by eapply below_prefix.
Qed.

Lemma find_forward_spec base key limit fuel i : table_ok base ->
  0 <= i <= zlen base -> zlen base - i <= Z.of_nat fuel -> 0 <= limit ->
  entries (drop (Z.to_nat limit) base) = [] ->
  Forall (below key) (entries (take (Z.to_nat i) base)) ->
  match find_forward base key limit (zlen base) fuel i with
  | Some k => k = Z.of_nat (first_at base key)
  | None => zlen base = Z.of_nat (first_at base key)
  end.
Proof.
  intros Hok. revert i. induction fuel as [|fuel IH]; intros i Hi Hf Hl Hlz HF; cbn -[bref_at].
  { assert (i = zlen base) as -> by lia. rewrite Nat2Z.id in HF. f_equal. symmetry.
    apply first_at_unique; [lia|done|lia]. }
  destruct (Z.ltb_spec i (zlen base)) as [Hlt|].
  2:{ assert (i = zlen base) as -> by lia. rewrite Nat2Z.id in HF. f_equal. symmetry.
      apply first_at_unique; [lia|done|lia]. }
  assert (Hb := bref_lookup base (Z.to_nat i) ltac:(lia)). rewrite Z2Nat.id in Hb by lia.
  set (b := bref_at base i) in *.
  assert (bref_empty b = false -> bref_ok b) as Hbok.
  { intros. eapply brefs_ok_elem; [exact Hok|]. apply entries_elem. split; [|done].
    by eapply list_elem_of_lookup_2. }
  destruct (negb (bref_empty b) && _) eqn:E.
  - apply andb_prop in E as [E1 E2]. apply negb_true_iff in E1. specialize (Hbok E1).
    rewrite <- (Z2Nat.id i) by lia. f_equal. symmetry. apply first_at_unique; [lia|done|].
    intros _. exists b. split_and!; try done. rewrite key_last_eq in * by done. assert (H := span_pos b Hbok).
    apply orb_prop in E2 as [E2|E2]; lia.
  - assert (Forall (below key) (entries (take (Z.to_nat (i + 1)) base))) as HF'.
    { replace (Z.to_nat (i + 1)) with (S (Z.to_nat i)) by lia. rewrite (take_S_r _ _ _ Hb), entries_app, entries_cons.
      apply Forall_app. split; [done|]. destruct (bref_empty b); [constructor|]. constructor; [|constructor].
      cbn in E. apply orb_false_iff in E as [E1 E2]. unfold below. lia. }
    destruct (Z.leb_spec limit i) as [Hge|]; [|apply IH; try done; lia].
    f_equal. symmetry. apply first_at_unique; [lia| |lia].
    rewrite firstn_all, (entries_split base (Z.to_nat i)). apply Forall_app. split; [done|].
    replace (drop (Z.to_nat i) base) with (drop (Z.to_nat i - Z.to_nat limit) (drop (Z.to_nat limit) base)).
    2:{ rewrite drop_drop. f_equal. lia. }
    rewrite (entries_split (drop (Z.to_nat limit) base) (Z.to_nat i - Z.to_nat limit)) in Hlz.
    apply app_eq_nil in Hlz as [_ ->]. constructor.
Qed.

(** A counted table: any [cache_index] will do. *)
Record counted (p : parent) (base : list hammer2_blockref) : Prop := {
  ct_flag : has (pa_flags p) HAMMER2_CHAIN_COUNTEDBREFS = true;
  ct_zero : pa_live_zero p = live_end base;
  ct_table : table_ok base
}.

(** The next key after a search for [key]: the end of the entry found, if that
    is nearer. *)
Definition next_after (key_next : Z) (b : option hammer2_blockref) : Z :=
  match b with
  | Some b => if nz (key_stop b) then truncate key_next (key_stop b) else key_next
  | None => key_next
  end.

Lemma base_find_spec p base key_next key : counted p base ->
  exists ci, hammer2_base_find p (Some base) (zlen base) key_next key =
    Some (set_cache_index p ci, next_after key_next (base !! first_at base key), Z.of_nat (first_at base key)).
Proof.
  intros [Hf Hz Hok]. unfold hammer2_base_find. rewrite Hf. cbn [negb].
  destruct (Z.eqb_spec (zlen base) 0) as [H0|H0].
  { destruct base; [|cbn in H0; lia]. exists (pa_cache_index p). by destruct p. }
  rewrite Hz. destruct (live_end_spec base) as [Hlz Hlast].
  set (limit := live_end base) in *. set (i := if _ <? 0 then _ else _).
  assert (0 <= i < zlen base) as Hi.
  { subst i. destruct (Z.leb_spec limit (pa_cache_index p)); cbv zeta;
      match goal with |- context [?a <? 0] => destruct (Z.ltb_spec a 0) end; lia. }
  destruct (Z.ltb_spec i (zlen base)); [|lia]. cbn [negb].
  destruct (find_back_spec base key (Z.to_nat i) Hok ltac:(lia)) as [Hb1 Hb2].
  set (k := find_back base key (Z.to_nat i)) in *.
  assert (HF := find_forward_spec base key limit (Z.to_nat (zlen base - Z.of_nat k)) (Z.of_nat k) Hok
    ltac:(lia) ltac:(lia) ltac:(lia) Hlast). rewrite Nat2Z.id in HF. specialize (HF Hb2).
  assert (Hfa := first_at_le base key). destruct (first_at_spec base key) as [_ Hat].
  destruct (find_forward _ _ _ _ _ _) as [j|].
  2:{ exists (Z.of_nat k). rewrite lookup_ge_None_2 by lia. by rewrite HF. }
  subst j. destruct (Z.eqb_spec (Z.of_nat (first_at base key)) (zlen base)) as [E|E].
  { exists (Z.of_nat k). by rewrite lookup_ge_None_2 by lia. }
  destruct Hat as (b & Hb & Hu & Hk); [lia|]. exists (Z.of_nat (first_at base key)).
  destruct (Z.leb_spec limit (Z.of_nat (first_at base key))) as [Hge|].
  - exfalso. assert (b ∈ entries (drop (Z.to_nat limit) base)) as Hin.
    { apply entries_elem. split; [|done]. apply list_elem_of_lookup.
      exists (first_at base key - Z.to_nat limit)%nat. rewrite lookup_drop.
      by replace (Z.to_nat limit + (first_at base key - Z.to_nat limit))%nat with (first_at base key) by lia. }
    rewrite Hlast in Hin. by apply elem_of_nil in Hin.
  - rewrite Hb, (bref_at_lookup _ _ _ Hb). cbn [next_after]. unfold truncate. by destruct (nz (key_stop b)).
Qed.

(** ** Inserting an element *)

Lemma live_end_unique base z : (z <= length base)%nat -> entries (drop z base) = [] ->
  (z = O \/ exists b, base !! (z - 1)%nat = Some b /\ bref_empty b = false) -> live_end base = Z.of_nat z.
Proof.
  intros Hz He Hu. unfold live_end. f_equal.
  destruct (used_below_spec base (length base)) as (H1 & H2 & H3); [lia|]. rewrite firstn_all in H2.
  assert (forall k m b, entries (drop k base) = [] -> base !! m = Some b -> bref_empty b = false -> (m < k)%nat) as X.
  { intros k m b Hk Hm Hb. destruct (decide (m < k)%nat); [done|]. exfalso.
    assert (b ∈ entries (drop k base)) as Hin.
    { apply entries_elem. split; [|done]. apply list_elem_of_lookup. exists (m - k)%nat. rewrite lookup_drop.
      by replace (k + (m - k))%nat with m by lia. }
    rewrite Hk in Hin. by apply elem_of_nil in Hin. }
  set (k := used_below base (length base)) in *.
  assert (k <= z)%nat by (destruct H3 as [->|(b & Hb & Hu')]; [lia|specialize (X z _ _ He Hb Hu'); lia]).
  assert (z <= k)%nat by (destruct Hu as [->|(b & Hb & Hu')]; [lia|specialize (X k _ _ H2 Hb Hu'); lia]).
  lia.
Qed.

Lemma insert_middle {A} (l1 l2 : list A) (x y : A) n : n = length l1 ->
  <[n := x]> (l1 ++ y :: l2) = l1 ++ x :: l2.
Proof. intros ->. rewrite insert_app_r_alt by lia. by rewrite Nat.sub_diag. Qed.

(** The table after a slot before the element was taken. *)
Lemma move_before base elm j i : (j < i)%nat -> (i <= length base)%nat ->
  (if Z.of_nat j =? Z.of_nat i - 1 then aset base (Z.of_nat j) elm
   else aset (brefs_move base (Z.of_nat j) (Z.of_nat j + 1) (Z.of_nat i - Z.of_nat j - 1)) (Z.of_nat i - 1) elm) =
  take j base ++ take (i - j - 1) (drop (S j) base) ++ elm :: drop i base.
Proof.
  intros Hj Hi. unfold aset, brefs_move.
  assert (Hl := bref_lookup base (i - 1) ltac:(lia)). apply drop_S in Hl. rewrite (Nat.sub_1_r i), Nat.succ_pred in Hl by lia.
  rewrite <- Nat.sub_1_r in Hl.
  destruct (Z.eqb_spec (Z.of_nat j) (Z.of_nat i - 1)).
  - assert (j = i - 1)%nat as -> by lia. replace (i - (i - 1) - 1)%nat with O by lia. cbn [take app].
    rewrite Nat2Z.id. rewrite <- (take_drop (i - 1) base) at 1. rewrite Hl. apply insert_middle.
    rewrite length_take. lia.
  - rewrite Nat2Z.id. replace (Z.to_nat (Z.of_nat j + 1)) with (S j) by lia.
    replace (Z.to_nat (Z.of_nat i - Z.of_nat j - 1)) with (i - j - 1)%nat by lia.
    replace (Z.to_nat (Z.of_nat j + (Z.of_nat i - Z.of_nat j - 1))) with (i - 1)%nat by lia.
    replace (Z.to_nat (Z.of_nat i - 1)) with (i - 1)%nat by lia.
    rewrite Hl, !(app_assoc (take j base)). apply insert_middle.
    rewrite length_app, !length_take, length_drop. lia.
Qed.

(** The table after a slot behind the element was taken. *)
Lemma move_after base elm i k : (i < k)%nat -> (k < length base)%nat ->
  aset (brefs_move base (Z.of_nat i + 1) (Z.of_nat i) (Z.of_nat k - Z.of_nat i)) (Z.of_nat i) elm =
  take i base ++ elm :: take (k - i) (drop i base) ++ drop (S k) base.
Proof.
  intros Hik Hk. unfold aset, brefs_move. rewrite !Nat2Z.id.
  replace (Z.to_nat (Z.of_nat i + 1)) with (S i) by lia.
  replace (Z.to_nat (Z.of_nat k - Z.of_nat i)) with (k - i)%nat by lia.
  replace (Z.to_nat (Z.of_nat i + 1 + (Z.of_nat k - Z.of_nat i))) with (S k) by lia.
  rewrite (take_S_r _ _ _ (bref_lookup base i ltac:(lia))), <- app_assoc. cbn [app]. apply insert_middle.
  rewrite length_take. lia.
Qed.

(** What the loop for a slot finds. *)
Definition slot_ok (base : list hammer2_blockref) (i : nat) (s : slot) : Prop :=
  let in_use m := forall b, base !! m = Some b -> bref_empty b = false in
  match s with
  | SlotBefore j => exists n, j = Z.of_nat n /\ (n < i)%nat /\
      exists b, base !! n = Some b /\ bref_empty b = true
  | SlotAfter k => exists n, k = Z.of_nat n /\ (i < n < length base)%nat /\
      (exists b, base !! n = Some b /\ bref_empty b = true) /\ (forall m, (i < m < n)%nat -> in_use m)
  | SlotNone => forall m, m <> i -> in_use m
  end.

Lemma find_slot_spec base i fuel j k : (i <= length base)%nat -> j <= Z.of_nat i <= k ->
  j <= Z.of_nat fuel -> zlen base - k <= Z.of_nat fuel ->
  (forall m b, j <= Z.of_nat m <= k -> m <> i -> base !! m = Some b -> bref_empty b = false) ->
  slot_ok base i (find_slot fuel base (zlen base) j k).
Proof.
  intros Hi. revert j k. induction fuel as [|fuel IH]; intros j k Hjk Hj Hk Hseen; cbn [find_slot].
  { intros m Hm b Hb. apply (Hseen m); try done. apply lookup_lt_Some in Hb. lia. }
  destruct (Z.ltb_spec 0 j), (Z.ltb_spec k (zlen base)); cbn [orb].
  4:{ intros m Hm b Hb. apply (Hseen m); try done. apply lookup_lt_Some in Hb. lia. }
  all: destruct ((0 <=? j - 1) && _) eqn:E1;
    [apply andb_prop in E1 as [E1 E1']; apply Z.leb_le in E1; exists (Z.to_nat (j - 1));
     split_and!; [lia|lia|]; exists (bref_at base (j - 1)); split; [|done];
     rewrite <- (Z2Nat.id (j - 1)) at 2 by lia; apply bref_lookup; lia|].
  all: destruct ((k + 1 <? zlen base) && _) eqn:E2;
    [apply andb_prop in E2 as [E2 E2']; apply Z.ltb_lt in E2; exists (Z.to_nat (k + 1));
     split_and!; [lia|lia|lia| |];
     [exists (bref_at base (k + 1)); split; [|done];
      rewrite <- (Z2Nat.id (k + 1)) at 2 by lia; apply bref_lookup; lia
     |intros m Hm b Hb; apply (Hseen m); try done; lia]|].
  all: apply IH; try lia; intros m b Hm Hne Hb; apply lookup_lt_Some in Hb as Hlt;
    destruct (Z.eq_dec (Z.of_nat m) (j - 1)) as [Em|]; [|destruct (Z.eq_dec (Z.of_nat m) (k + 1)) as [Em|]];
    [| |apply (Hseen m); try done; lia];
    rewrite <- Em, (bref_at_lookup _ _ _ Hb) in *;
    [destruct (Z.leb_spec 0 (Z.of_nat m)); [done|lia] | destruct (Z.ltb_spec (Z.of_nat m) (zlen base)); [done|lia]].
Qed.

(** The insertion into a sorted list. *)
Fixpoint list_ins (elm : hammer2_blockref) (l : list hammer2_blockref) : list hammer2_blockref :=
  match l with
  | [] => [elm]
  | b :: l' => if br_key elm <? br_key b then elm :: l else b :: list_ins elm l'
  end.

Definition overlaps (a b : hammer2_blockref) : bool :=
  (br_key a <=? key_last b) && (br_key b <=? key_last a).

(** Every slot of the table is in use. *)
Definition full (base : list hammer2_blockref) : bool := (length (entries base) =? length base)%nat.

Lemma entries_length base : (length (entries base) <= length base)%nat.
Proof. apply List.filter_length_le. Qed.

Lemma full_used base : full base = true <-> (forall b, b ∈ base -> bref_empty b = false).
Proof.
  unfold full. rewrite Nat.eqb_eq. induction base as [|b base IH]; [split; [intros _ b Hb; by apply elem_of_nil in Hb|done]|].
  assert (H := entries_length base). rewrite entries_cons. cbn [length]. destruct (bref_empty b) eqn:E; cbn [length].
  - split; [lia|]. intros Hb. specialize (Hb b). rewrite E in Hb. discriminate Hb. apply elem_of_cons. by left.
  - rewrite Nat.succ_inj_wd, IH. split; intros X c Hc.
    + apply elem_of_cons in Hc as [->|Hc]; auto.
    + apply X, elem_of_cons. by right.
Qed.

Section InsertPoint.
Context (base : list hammer2_blockref) (elm : hammer2_blockref).
Hypothesis Hok : table_ok base.
Hypothesis Helm : bref_ok elm.

Definition point : nat := first_at base (br_key elm).
Definition lower : list hammer2_blockref := entries (take point base).
Definition upper : list hammer2_blockref := entries (drop point base).

Lemma point_split : entries base = lower ++ upper.
Proof. apply entries_split. Qed.

Lemma lower_below b : b ∈ lower -> bref_ok b /\ before b elm.
Proof.
  intros Hb. destruct (first_at_spec base (br_key elm)) as [HF _]. rewrite Forall_forall in HF.
  specialize (HF b Hb). assert (bref_ok b) as Hbok.
  { eapply brefs_ok_elem; [apply Hok|]. rewrite point_split. apply elem_of_app. by left. }
  split; [done|]. unfold below in HF. rewrite key_last_eq in HF by done. unfold before. lia.
Qed.

(** The first entry of the upper part. *)
Lemma upper_head : match base !! point with
  | None => upper = []
  | Some b => bref_ok b /\ br_key elm <= key_last b /\ bref_empty b = false /\
      exists l, upper = b :: l /\ (forall c, c ∈ l -> bref_ok c /\ before b c)
  end.
Proof.
  destruct (first_at_spec base (br_key elm)) as [_ Hat]. fold point in Hat.
  destruct (base !! point) as [b|] eqn:E.
  - destruct Hat as (b' & Hb' & Hu & Hk); [by apply lookup_lt_Some in E|]. injection Hb' as <-.
    assert (upper = b :: entries (drop (S point) base)) as Hup.
    { unfold upper. by rewrite (drop_S _ _ _ E), entries_cons, Hu. }
    assert (H := Hok). unfold table_ok in H. rewrite point_split, Hup in H.
    apply brefs_ok_app in H as (_ & H & _). apply brefs_ok_cons in H as (Hb & Hl & Hbl).
    split_and!; try done. exists (entries (drop (S point) base)). split; [done|].
    intros c Hc. split; [by eapply brefs_ok_elem|auto].
  - unfold upper. rewrite drop_ge; [done|]. by apply lookup_ge_None_1.
Qed.

Lemma overlap_point : existsb (overlaps elm) (entries base) =
  match base !! point with Some b => br_key b <=? key_last elm | None => false end.
Proof.
  assert (existsb (overlaps elm) lower = false) as HL.
  { destruct (existsb _ lower) eqn:E; [|done]. apply existsb_exists in E as (b & Hb & Ho).
    apply list_elem_of_In, lower_below in Hb as [Hb Hbe]. unfold overlaps, before in *.
    apply andb_prop in Ho as [Ho _]. rewrite key_last_eq in Ho by done. lia. }
  rewrite point_split, existsb_app, HL. cbn [orb]. assert (H := upper_head).
  destruct (base !! point) as [b|]; [|by rewrite H]. destruct H as (Hb & Hk & _ & l & -> & Hl).
  cbn [existsb]. unfold overlaps at 1. destruct (Z.leb_spec (br_key elm) (key_last b)); [|lia]. cbn [andb].
  destruct (Z.leb_spec (br_key b) (key_last elm)); [done|]. cbn [orb].
  destruct (existsb _ l) eqn:E; [|done]. apply existsb_exists in E as (c & Hc & Ho).
  apply list_elem_of_In, Hl in Hc as [Hc Hbc]. unfold overlaps, before in *. apply andb_prop in Ho as [_ Ho].
  assert (Hs := span_pos b Hb). lia.
Qed.

Hypothesis Hno : existsb (overlaps elm) (entries base) = false.

Lemma upper_after c : c ∈ upper -> before elm c.
Proof.
  intros Hc. rewrite overlap_point in Hno. assert (H := upper_head).
  destruct (base !! point) as [b|]; [|rewrite H in Hc; by apply elem_of_nil in Hc].
  destruct H as (Hb & _ & _ & l & Hl & Hbl). rewrite Hl in Hc. rewrite key_last_eq in Hno by done.
  assert (before elm b) as Heb by (unfold before; lia).
  apply elem_of_cons in Hc as [->|Hc]; [done|]. destruct (Hbl c Hc) as [_ Hbc].
  assert (Hs := span_pos b Hb). unfold before in *. lia.
Qed.

Lemma point_brefs_ok : brefs_ok (lower ++ elm :: upper).
Proof.
  assert (H := Hok). unfold table_ok in H. rewrite point_split in H. apply brefs_ok_app in H as (H1 & H2 & H3).
  apply brefs_ok_app. split_and!; [done| |].
  - apply brefs_ok_cons. split_and!; try done. apply upper_after.
  - intros a b Ha Hb. apply elem_of_cons in Hb as [->|Hb]; [by apply lower_below|auto].
Qed.

Lemma list_ins_point : list_ins elm (entries base) = lower ++ elm :: upper.
Proof.
  assert (forall l, (forall c, c ∈ l -> before elm c) -> list_ins elm l = elm :: l) as HU.
  { intros [|c l] Hl; [done|]. cbn. assert (H := Hl c ltac:(apply elem_of_cons; by left)).
    assert (Hs := span_pos elm Helm). unfold before in H. destruct (Z.ltb_spec (br_key elm) (br_key c)); [done|lia]. }
  rewrite point_split. assert (H := lower_below). revert H. induction lower as [|b l IH]; intros H; cbn [app list_ins].
  - apply HU, upper_after.
  - destruct (H b ltac:(apply elem_of_cons; by left)) as [Hb Hbe]. assert (Hs := span_pos b Hb). unfold before in Hbe.
    destruct (Z.ltb_spec (br_key elm) (br_key b)); [lia|]. f_equal. apply IH. intros c Hc. apply H, elem_of_cons. by right.
Qed.
End InsertPoint.

Lemma live_end_used base : let z := Z.to_nat (live_end base) in
  (z <= length base)%nat /\ entries (drop z base) = [] /\
  (z = O \/ exists b, base !! (z - 1)%nat = Some b /\ bref_empty b = false) /\
  (forall m b, base !! m = Some b -> bref_empty b = false -> (m < z)%nat).
Proof.
  unfold live_end. rewrite Nat2Z.id. destruct (used_below_spec base (length base)) as (H1 & H2 & H3); [lia|].
  rewrite firstn_all in H2. cbv zeta. split_and!; try done. intros m b Hm Hb.
  destruct (decide (m < used_below base (length base))%nat) as [|Hge]; [done|]. exfalso.
  assert (b ∈ entries (drop (used_below base (length base)) base)) as Hin.
  { apply entries_elem. split; [|done]. apply list_elem_of_lookup.
    exists (m - used_below base (length base))%nat. rewrite lookup_drop. rewrite <- Hm. f_equal. lia. }
  rewrite H2 in Hin. by apply elem_of_nil in Hin.
Qed.

(** The three ways to place an element at [i]. *)
Section Place.
Context (base : list hammer2_blockref) (elm : hammer2_blockref) (i : nat).
Hypothesis Hu : bref_empty elm = false.
Hypothesis Hi : (i <= length base)%nat.

Definition placed (base' : list hammer2_blockref) : Prop :=
  entries base' = entries (take i base) ++ elm :: entries (drop i base) /\ length base' = length base.

Lemma place_before n b : (n < i)%nat -> base !! n = Some b -> bref_empty b = true ->
  (i < length base -> exists c, base !! i = Some c /\ bref_empty c = false)%nat ->
  (i = length base -> live_end base = zlen base) ->
  let base' := take n base ++ take (i - n - 1) (drop (S n) base) ++ elm :: drop i base in
  placed base' /\ live_end base' = live_end base.
Proof.
  intros Hn Hb He Hat Hend base'. set (A := take n base ++ take (i - n - 1) (drop (S n) base)).
  assert (base' = A ++ elm :: drop i base) as EA by (subst base' A; by rewrite <- app_assoc).
  assert (length A = i - 1)%nat as LA by (subst A; rewrite length_app, !length_take, length_drop; lia).
  assert (take i base = take n base ++ b :: take (i - n - 1) (drop (S n) base)) as Ht.
  { rewrite <- (take_drop n base) at 1. rewrite (drop_S _ _ _ Hb), take_app_ge by (rewrite length_take; lia).
    f_equal. rewrite length_take. replace (i - n `min` length base)%nat with (S (i - n - 1)) by lia. done. }
  split; [split|].
  - rewrite EA, entries_app, entries_cons, Hu. f_equal. subst A. by rewrite Ht, !entries_app, entries_cons, He.
  - rewrite EA, length_app, LA. cbn [length]. rewrite length_drop. lia.
  - destruct (live_end_used base) as (Hz & Hd & Hl & Hm). destruct (live_end_spec base) as [Hr _].
    set (z := Z.to_nat (live_end base)) in *. assert (live_end base = Z.of_nat z) as -> by lia.
    assert (i <= z)%nat.
    { destruct (decide (i < length base)%nat) as [Hlt|]; [|lia]. destruct (Hat Hlt) as (c & Hc & Huc).
      specialize (Hm i c Hc Huc). lia. }
    apply live_end_unique.
    + rewrite EA, length_app, LA. cbn [length]. rewrite length_drop. lia.
    + rewrite EA, drop_app_ge by lia. rewrite LA. replace (z - (i - 1))%nat with (S (z - i)) by lia. cbn [drop].
      rewrite drop_drop. by replace (i + (z - i))%nat with z by lia.
    + right. rewrite EA. destruct (decide (z = i)) as [->|].
      * exists elm. split; [|done]. by rewrite lookup_app_r, LA, Nat.sub_diag by lia.
      * destruct Hl as [|(c & Hc & Huc)]; [lia|]. exists c. split; [|done].
        rewrite lookup_app_r by lia. rewrite LA. replace (z - 1 - (i - 1))%nat with (S (z - 1 - i)) by lia. cbn [lookup list_lookup].
        change (drop i base !! (z - 1 - i)%nat = Some c). rewrite lookup_drop. rewrite <- Hc. f_equal. lia.
Qed.

Lemma place_after n b : (i < n)%nat -> base !! n = Some b -> bref_empty b = true ->
  (exists c, base !! i = Some c /\ bref_empty c = false) ->
  (forall m, (i < m < n)%nat -> forall c, base !! m = Some c -> bref_empty c = false) ->
  let base' := take i base ++ elm :: take (n - i) (drop i base) ++ drop (S n) base in
  placed base' /\ live_end base' = Z.max (live_end base) (Z.of_nat n + 1).
Proof.
  intros Hn Hb He (c0 & Hc0 & Hu0) Hmid base'. apply lookup_lt_Some in Hb as Hlen.
  set (A := take i base ++ elm :: take (n - i) (drop i base)).
  assert (base' = A ++ drop (S n) base) as EA by (subst base' A; by rewrite <- app_assoc).
  assert (length A = S n) as LA by (subst A; rewrite length_app; cbn [length]; rewrite !length_take, length_drop; lia).
  assert (drop i base = take (n - i) (drop i base) ++ b :: drop (S n) base) as Hd'.
  { rewrite <- (take_drop (n - i) (drop i base)) at 1. f_equal. rewrite drop_drop.
    replace (i + (n - i))%nat with n by lia. by apply drop_S. }
  split; [split|].
  - subst base'. rewrite entries_app, entries_cons, Hu. f_equal. f_equal.
    by rewrite Hd' at 2; rewrite !entries_app, entries_cons, He.
  - rewrite EA, length_app, LA, length_drop. lia.
  - destruct (live_end_used base) as (Hz & Hd & Hl & Hm). destruct (live_end_spec base) as [Hr _].
    set (z := Z.to_nat (live_end base)) in *. assert (live_end base = Z.of_nat z) as -> by lia.
    assert (exists c, base !! (n - 1)%nat = Some c /\ bref_empty c = false) as (c1 & Hc1 & Hu1).
    { destruct (decide (n - 1 = i)%nat) as [->|]; [by exists c0|]. exists (bref_at base (Z.of_nat (n - 1))).
      assert (X := bref_lookup base (n - 1) ltac:(lia)). split; [done|]. apply (Hmid (n - 1)%nat); [lia|done]. }
    assert (Hz1 := Hm _ _ Hc1 Hu1).
    replace (Z.max (Z.of_nat z) (Z.of_nat n + 1)) with (Z.of_nat (Nat.max z (S n))) by lia.
    apply live_end_unique.
    + rewrite EA, length_app, LA, length_drop. lia.
    + rewrite EA, drop_app_ge, LA, drop_drop by lia.
      replace (S n + (Nat.max z (S n) - S n))%nat with (z + (Nat.max z (S n) - z))%nat by lia. rewrite <- drop_drop.
      rewrite (entries_split (drop z base) (Nat.max z (S n) - z)) in Hd. by apply app_eq_nil in Hd as [_ ->].
    + right. rewrite EA. destruct (decide (z <= S n)%nat).
      * exists c1. split; [|done]. replace (Nat.max z (S n) - 1)%nat with n by lia. subst A.
        rewrite <- app_assoc. rewrite lookup_app_r, length_take by (rewrite length_take; lia).
        replace (n - i `min` length base)%nat with (S (n - 1 - i)) by lia. cbn [app lookup list_lookup].
        change ((take (n - i) (drop i base) ++ drop (S n) base) !! (n - 1 - i)%nat = Some c1).
        rewrite lookup_app_l by (rewrite length_take, length_drop; lia).
        rewrite lookup_take_lt, lookup_drop by lia. rewrite <- Hc1. f_equal. lia.
      * destruct Hl as [|(c & Hc & Huc)]; [lia|]. exists c. split; [|done].
        rewrite lookup_app_r by lia. rewrite LA, lookup_drop. rewrite <- Hc. f_equal. lia.
Qed.
End Place.

Lemma place_append base elm : bref_empty elm = false -> live_end base < zlen base ->
  placed base elm (length base) (aset base (live_end base) elm) /\
  live_end (aset base (live_end base) elm) = live_end base + 1.
Proof.
  intros Hu Hlt. destruct (live_end_used base) as (Hz & Hd & _ & _). destruct (live_end_spec base) as [Hr _].
  unfold aset. set (z := Z.to_nat (live_end base)) in *.
  assert (<[z := elm]> base = take z base ++ elm :: drop (S z) base) as E.
  { rewrite <- (take_drop z base) at 1. rewrite (drop_S _ _ _ (bref_lookup base z ltac:(lia))).
    apply insert_middle. rewrite length_take. lia. }
  assert (entries (drop (S z) base) = []) as Hd'.
  { rewrite (drop_S _ _ _ (bref_lookup base z ltac:(lia))), entries_cons in Hd. destruct (bref_empty (bref_at base (Z.of_nat z))); [done|discriminate Hd]. }
  split; [split|].
  - rewrite E, entries_app, entries_cons, Hu, Hd', firstn_all, drop_all. f_equal.
    by rewrite (entries_split base z), Hd, app_nil_r.
  - apply length_insert.
  - replace (live_end base + 1) with (Z.of_nat (S z)) by lia. apply live_end_unique.
    + rewrite length_insert. lia.
    + rewrite E, drop_app_ge by (rewrite length_take; lia). rewrite length_take.
      by replace (S z - z `min` length base)%nat with 1%nat by lia.
    + right. exists elm. split; [|done]. replace (S z - 1)%nat with z by lia. apply list_lookup_insert_eq. lia.
Qed.

Lemma validate_from_ok base k : table_ok base -> (forall b, b ∈ entries base -> k < br_key b) ->
  validate_from base k = false.
Proof.
  unfold table_ok. revert k. induction base as [|b base IH]; intros k Hok Hk; [done|]. cbn [validate_from].
  rewrite entries_cons in *. destruct (bref_empty b); [by apply IH|]. apply brefs_ok_cons in Hok as (Hb & Hok & Hbl).
  assert (H := Hk b ltac:(apply elem_of_cons; by left)). destruct (Z.leb_spec (br_key b) k); [lia|].
  apply IH; [done|]. intros c Hc. specialize (Hbl c Hc). rewrite key_last_eq by done. unfold before in Hbl. lia.
Qed.

Lemma validate_ok base : table_ok base -> validate base = false.
Proof.
  unfold table_ok. induction base as [|b base IH]; intros Hok; [done|]. cbn [validate]. rewrite entries_cons in Hok.
  destruct (bref_empty b); [by apply IH|]. apply brefs_ok_cons in Hok as (Hb & Hok & Hbl).
  apply validate_from_ok; [done|]. intros c Hc. specialize (Hbl c Hc). rewrite key_last_eq by done.
  unfold before in Hbl. lia.
Qed.

(** What an insertion leaves alone. *)
Definition same_core (p p' : parent) : Prop :=
  pa_flags p' = pa_flags p /\ pa_live_count p' = pa_live_count p /\ pa_rbtree p' = pa_rbtree p.

Definition inserted (p : parent) (base : list hammer2_blockref) (elm : hammer2_blockref) (r : ins_result) : Prop :=
  in_hpanic r = false /\ entries (in_base r) = list_ins elm (entries base) /\
  length (in_base r) = length base /\ counted (in_parent r) (in_base r).

Lemma placed_inserted p base elm p' base' chain hp : counted p base -> bref_ok elm ->
  existsb (overlaps elm) (entries base) = false -> placed base elm (point base elm) base' ->
  same_core p p' -> pa_live_zero p' = live_end base' -> hp = false \/ hp = validate base' ->
  inserted p base elm (mkIns p' base' chain hp).
Proof.
  intros [Hf Hz Hok] Helm Hno [Pe Pl] [Sf _] Hz' Hv.
  assert (entries base' = list_ins elm (entries base)) as Ee by (rewrite Pe; symmetry; by apply list_ins_point).
  assert (table_ok base') as Hok'.
  { unfold table_ok. rewrite Pe. by apply point_brefs_ok. }
  split_and!; try done.
  - cbn. destruct Hv as [->| ->]; [done|by apply validate_ok].
  - split; cbn; try done. by rewrite Sf.
Qed.

(** A free slot when the loop has one, and a full table when it has none. *)
Lemma slot_full base i s : slot_ok base i s -> ((i < length base)%nat ->
  exists c, base !! i = Some c /\ bref_empty c = false) ->
  full base = match s with SlotNone => true | _ => false end.
Proof.
  intros Hs Hat. destruct (full base) eqn:E.
  - destruct s as [j|k|]; [| |done]; cbn in Hs.
    + destruct Hs as (n & _ & _ & b & Hb & He). apply list_elem_of_lookup_2 in Hb.
      rewrite full_used in E. by rewrite (E b Hb) in He.
    + destruct Hs as (n & _ & _ & (b & Hb & He) & _). apply list_elem_of_lookup_2 in Hb.
      rewrite full_used in E. by rewrite (E b Hb) in He.
  - destruct s; try done. cbn in Hs. rewrite <- E. apply full_used. intros b Hb.
    apply list_elem_of_lookup in Hb as [m Hm]. destruct (decide (m = i)) as [->|]; [|by apply (Hs m)].
    destruct Hat as (c & Hc & Hu); [by apply lookup_lt_Some in Hm|]. by rewrite Hm in Hc; injection Hc as <-.
Qed.

Lemma base_insert_spec p base chain elm : counted p base -> bref_ok elm -> bref_empty elm = false ->
  exists r, hammer2_base_insert p base (zlen base) chain elm = Some r /\
    in_chain r = option_map (fun c => cd_set c HAMMER2_CHAIN_BLKMAPPED) chain /\
    same_core p (in_parent r) /\ pa_bref (in_parent r) = stats_insert (pa_bref p) elm /\
    if existsb (overlaps elm) (entries base) || full base then in_hpanic r = true /\ in_base r = base
    else inserted p base elm r.
Proof.
  intros Hct Helm Hu. destruct (base_find_spec p base 0 (br_key elm) Hct) as [ci Hfind].
  fold (point base elm) in Hfind. destruct Hct as [Hf Hz Hok]. assert (counted p base) as Hct by done.
  unfold hammer2_base_insert. rewrite Hfind. cbv zeta.
  assert (Hi := first_at_le base (br_key elm)). fold (point base elm) in Hi.
  assert (Hov := overlap_point base elm Hok). assert (Hup := upper_head base elm Hok).
  set (i := point base elm) in *.
  destruct (Z.leb_spec 0 (Z.of_nat i)); [|lia]. destruct (Z.leb_spec (Z.of_nat i) (zlen base)); [|lia]. cbn [andb negb].
  cbn [set_bref set_cache_index pa_live_zero pa_bref]. rewrite Hz.
  destruct (Z.eqb_spec (Z.of_nat i) (zlen base)) as [Ei|Ei]; cbn [andb negb].
  - rewrite lookup_ge_None_2 in Hov by lia. rewrite Hov. cbn [orb].
    assert (i = length base) as Eil by lia.
    destruct (Z.ltb_spec (live_end base) (zlen base)) as [Hlt|Hge].
    + eexists. split; [done|]. destruct (place_append base elm Hu Hlt) as [Hp Hl].
      assert (full base = false) as ->.
      { apply Nat.eqb_neq. destruct (live_end_used base) as (_ & Hd & _). rewrite (entries_split base (Z.to_nat (live_end base))), Hd.
        rewrite app_nil_r. assert (X := entries_length (take (Z.to_nat (live_end base)) base)). rewrite length_take in X. destruct (live_end_spec base). lia. }
      split_and!; try done. apply placed_inserted; try done; [by rewrite <- Eil in Hp|by left].
    + assert (Hs := find_slot_spec base i (S (Z.to_nat (zlen base))) (Z.of_nat i) (Z.of_nat i) ltac:(lia) ltac:(lia) ltac:(lia) ltac:(lia)
        ltac:(intros; lia)).
      rewrite (slot_full _ _ _ Hs) by lia.
      destruct (find_slot _ _ _ _ _) as [j|k|]; cbn in Hs; [|destruct Hs as (n & _ & Hn & _); lia|];
        (eexists; split; [done|]); split_and!; try done.
      destruct Hs as (n & -> & Hn & b & Hb & He). rewrite move_before by lia.
      destruct (place_before base elm i Hu ltac:(lia) n b) as [Hp Hl]; try done; [lia| |].
      { destruct (live_end_spec base). intros. lia. }
      apply placed_inserted; try done; [cbn; by rewrite Hl|by right].
  - destruct (lookup_lt_is_Some_2 base i) as [b Hb]; [lia|]. rewrite Hb in Hov, Hup.
    destruct Hup as (Hbok & Hbk & Hbu & _). rewrite (bref_at_lookup _ _ _ Hb), Hov.
    assert (Hs := span_pos elm Helm). rewrite !key_last_eq in * by done.
    destruct (Z.leb_spec (br_key b) (br_key elm + 2 ^ br_keybits elm - 1)); cbn [orb].
    { rewrite orb_true_r. eexists. split; [done|]. by split_and!. }
    destruct (Z.ltb_spec (br_key b) (br_key elm)); [lia|]. cbn [orb].
    assert (Hsl := find_slot_spec base i (S (Z.to_nat (zlen base))) (Z.of_nat i) (Z.of_nat i) ltac:(lia) ltac:(lia) ltac:(lia) ltac:(lia)
      ltac:(intros; lia)).
    rewrite (slot_full _ _ _ Hsl) by (intros _; by exists b).
    destruct (find_slot _ _ _ _ _) as [j|k|]; cbn in Hsl; (eexists; split; [done|]); split_and!; try done.
    + destruct Hsl as (n & -> & Hn & c & Hc & He). rewrite move_before by lia.
      destruct (place_before base elm i Hu ltac:(lia) n c) as [Hp Hl]; try done; [intros; by exists b|lia|].
      apply placed_inserted; try done; [cbn; by rewrite Hl|by right].
    + by destruct (_ <=? _).
    + by destruct (_ <=? _).
    + destruct Hsl as (n & -> & Hn & (c & Hc & He) & Hmid). rewrite move_after by lia.
      destruct (place_after base elm i Hu ltac:(lia) n c) as [Hp Hl]; try done; [lia|by exists b|].
      apply placed_inserted; try done; [by destruct (_ <=? _)| |by right].
      rewrite Hl. destruct (Z.leb_spec (live_end base) (Z.of_nat n)); cbn; lia.
Qed.

(** ** Deleting an element *)

Definition at_key (key : Z) (b : hammer2_blockref) : bool := br_key b =? key.
Definition del_key (key : Z) (l : list hammer2_blockref) : list hammer2_blockref :=
  List.filter (fun b => negb (at_key key b)) l.

(** An entry with the key is where the search stops. *)
Lemma first_at_key base e : table_ok base -> e ∈ entries base ->
  base !! first_at base (br_key e) = Some e.
Proof.
  intros Hok He. assert (bref_ok e) as Heok by (by eapply brefs_ok_elem). assert (Hs := span_pos e Heok).
  apply entries_elem in He as [He Hu]. apply list_elem_of_lookup in He as [n Hn].
  replace (first_at base (br_key e)) with n; [done|]. symmetry. apply lookup_lt_Some in Hn as Hlt.
  apply first_at_unique; [lia|eapply below_prefix; done || lia|]. intros _. exists e. rewrite key_last_eq by done.
  split_and!; [done|done|lia].
Qed.

(** Without one the search stops elsewhere. *)
Lemma find_key base key : table_ok base ->
  List.find (at_key key) (entries base) =
  match base !! first_at base key with Some b => if at_key key b then Some b else None | None => None end.
Proof.
  intros Hok. destruct (first_at_spec base key) as [_ Hat].
  destruct (List.find _ _) as [e|] eqn:E.
  - apply List.find_some in E as [He Hk]. apply list_elem_of_In in He. unfold at_key in Hk.
    apply Z.eqb_eq in Hk as <-. rewrite (first_at_key base e) by done. unfold at_key. by rewrite Z.eqb_refl.
  - destruct (base !! first_at base key) as [b|] eqn:Eb; [|done]. destruct (at_key key b) eqn:Ek; [|done].
    destruct Hat as (c & Hc & Hu & _); [by apply lookup_lt_Some in Eb|]. injection Hc as <-.
    rewrite (List.find_none _ _ E b) in Ek; [done|]. apply list_elem_of_In, entries_elem.
    split; [by eapply list_elem_of_lookup_2|done].
Qed.

(** The table without the entry at [i]. *)
Lemma delete_entry base i e : table_ok base -> base !! i = Some e -> bref_empty e = false ->
  entries (aset base (Z.of_nat i) bref_zero) = del_key (br_key e) (entries base) /\
  table_ok (aset base (Z.of_nat i) bref_zero).
Proof.
  intros Hok Hi Hu. unfold aset. rewrite Nat2Z.id. apply lookup_lt_Some in Hi as Hlt.
  assert (base = take i base ++ e :: drop (S i) base) as E.
  { by rewrite <- (drop_S _ _ _ Hi), take_drop. }
  assert (entries (<[i := bref_zero]> base) = entries (take i base) ++ entries (drop (S i) base)) as Ed.
  { rewrite E at 1. rewrite insert_middle by (rewrite length_take; lia). by rewrite entries_app, entries_cons. }
  assert (Ho := Hok). unfold table_ok in Ho. rewrite E, entries_app, entries_cons, Hu in Ho.
  apply brefs_ok_app in Ho as (H1 & H2 & H3). apply brefs_ok_cons in H2 as (He & H2 & H4).
  assert (Hs := span_pos e He). assert (forall l, (forall b, b ∈ l -> br_key b <> br_key e) -> del_key (br_key e) l = l) as Hid.
  { intros l Hl. unfold del_key. apply List.forallb_filter_id, List.forallb_forall. intros b Hb. apply list_elem_of_In in Hb.
    unfold at_key. specialize (Hl b Hb). by destruct (Z.eqb_spec (br_key b) (br_key e)). }
  split.
  - rewrite Ed. rewrite E at 3. rewrite entries_app, entries_cons, Hu. unfold del_key. rewrite List.filter_app. cbn [List.filter].
    unfold at_key at 2. rewrite Z.eqb_refl. cbn [negb]. fold (del_key (br_key e) (entries (take i base))).
    fold (del_key (br_key e) (entries (drop (S i) base))). rewrite !Hid; [done| |].
    + intros b Hb. specialize (H4 b Hb). unfold before in H4. lia.
    + intros b Hb. specialize (H3 b e Hb ltac:(apply elem_of_cons; by left)).
      assert (Hsb := span_pos b (brefs_ok_elem _ _ H1 Hb)). unfold before in H3. lia.
  - unfold table_ok. rewrite Ed. apply brefs_ok_app. split_and!; try done.
    intros a b Ha Hb. apply H3; [done|]. apply elem_of_cons. by right.
Qed.

Lemma delete_live base i e : base !! i = Some e -> bref_empty e = false ->
  let base' := aset base (Z.of_nat i) bref_zero in
  live_end base' = if live_end base =? Z.of_nat i + 1 then Z.of_nat (used_below base' i) else live_end base.
Proof.
  intros Hi Hu base'. destruct (live_end_used base) as (Hz & Hd & Hl & Hm). destruct (live_end_spec base) as [Hr _].
  set (z := Z.to_nat (live_end base)) in *. assert (live_end base = Z.of_nat z) as -> by lia.
  assert (Hzi := Hm i e Hi Hu). apply lookup_lt_Some in Hi as Hlt.
  assert (forall m, m <> i -> base' !! m = base !! m) as Hne.
  { intros m Hmi. unfold base', aset. rewrite Nat2Z.id. by apply list_lookup_insert_ne. }
  assert (length base' = length base) as Hlen by apply length_insert.
  assert (forall m, (i < m)%nat -> drop m base' = drop m base) as Hdrop.
  { intros m Hmi. unfold base', aset. rewrite Nat2Z.id. by apply drop_insert_lt. }
  destruct (Z.eqb_spec (Z.of_nat z) (Z.of_nat i + 1)) as [E|E].
  - destruct (used_below_spec base' i) as (K1 & K2 & K3); [lia|]. apply live_end_unique; [lia| |done].
    set (k := used_below base' i) in *. rewrite <- (take_drop i base'). rewrite drop_app_le by (rewrite length_take; lia).
    assert (base' !! i = Some bref_zero) as Hbi.
    { unfold base', aset. rewrite Nat2Z.id. apply list_lookup_insert_eq. lia. }
    rewrite entries_app, K2, (drop_S _ _ _ Hbi), entries_cons. cbn [bref_empty bref_zero br_type]. cbn [app].
    rewrite Hdrop by lia. by replace (S i) with z by lia.
  - apply live_end_unique; [lia|by rewrite Hdrop by lia|]. right.
    destruct Hl as [|(c & Hc & Huc)]; [lia|]. exists c. by rewrite Hne by lia.
Qed.

(** The entry a deletion of the child's blockref applies to. *)
Definition doomed (chain : child) (base : list hammer2_blockref) : option hammer2_blockref :=
  match List.find (at_key (br_key (cd_bref chain))) (entries base) with
  | Some e =>
      if has (cd_flags chain) HAMMER2_CHAIN_BLKMAPUPD || (br_keybits e =? br_keybits (cd_bref chain))
      then Some e else None
  | None => None
  end.

Definition deleted (p : parent) (base : list hammer2_blockref) (chain : child) (e : hammer2_blockref)
    (r : del_result) : Prop :=
  (exists f, dl_chain r = cd_clear (mkChild (cd_bref chain) f) (HAMMER2_CHAIN_BLKMAPPED ||| HAMMER2_CHAIN_BLKMAPUPD)) /\
  dl_hpanic r = false /\ dl_obref r = Some e /\ entries (dl_base r) = del_key (br_key e) (entries base) /\
  length (dl_base r) = length base /\ counted (dl_parent r) (dl_base r) /\
  pa_bref (dl_parent r) = stats_delete (pa_bref p) e.

Lemma base_delete_spec p base chain : counted p base ->
  exists r, hammer2_base_delete p base (zlen base) chain = Some r /\ same_core p (dl_parent r) /\
    match doomed chain base with
    | Some e => deleted p base chain e r
    | None => dl_hpanic r = true /\ dl_base r = base /\ pa_bref (dl_parent r) = pa_bref p /\ dl_chain r = chain
    end.
Proof.
  intros Hct. set (key := br_key (cd_bref chain)). destruct (base_find_spec p base 0 key Hct) as [ci Hfind].
  assert (counted p base) as [Hf Hz Hok] by done.
  unfold hammer2_base_delete, doomed. fold key. rewrite Hfind, (find_key base key Hok).
  assert (Hle := first_at_le base key). destruct (first_at_spec base key) as [_ Hat].
  set (i := first_at base key) in *. destruct (base !! i) as [b|] eqn:Eb.
  2:{ apply lookup_ge_None_1 in Eb. destruct (Z.eqb_spec (Z.of_nat i) (zlen base)); [|lia]. cbn [orb].
      eexists. split; [done|]. by split_and!. }
  apply lookup_lt_Some in Eb as Hlt. destruct Hat as (c & Hc & Hu & _); [done|]. injection Hc as <-.
  destruct (Z.eqb_spec (Z.of_nat i) (zlen base)); [lia|]. rewrite (bref_at_lookup _ _ _ Eb), Hu. cbn [orb].
  unfold at_key. destruct (Z.eqb_spec (br_key b) key) as [Ek|]; cbn [negb orb].
  2:{ eexists. split; [done|]. by split_and!. }
  rewrite <- negb_orb. destruct (_ || _); cbn [negb]; [|eexists; split; [done|]; by split_and!].
  destruct (delete_entry base i b Hok Eb Hu) as [De Do]. assert (Dl := delete_live base i b Eb Hu). cbv zeta in Dl.
  rewrite Nat2Z.id in *. eexists. split; [done|]. cbn [dl_parent pa_live_zero set_bref set_cache_index].
  rewrite Hz. split; [by destruct (_ =? _)|]. split_and!; try done.
  - cbn [dl_chain]. destruct chain as [cb cf]. destruct (_ && _); by eexists.
  - apply length_insert.
  - split; [by cbn; destruct (_ =? _)| |done]. cbn [dl_base dl_parent]. rewrite Dl. by destruct (_ =? _).
  - cbn. by destruct (_ =? _).
Qed.

(** ** Statistics *)

(** What an entry adds to the counts of the chain. *)
Definition leaves_of (b : hammer2_blockref) : Z :=
  let t := br_type b in
  if t =? HAMMER2_BREF_TYPE_INODE then 1
  else if t =? HAMMER2_BREF_TYPE_DATA then 1 + br_leaf_count b
  else if t =? HAMMER2_BREF_TYPE_INDIRECT then br_leaf_count b
  else if t =? HAMMER2_BREF_TYPE_DIRENT then 1 else 0.
Definition below_counts (b : hammer2_blockref) : bool :=
  (br_type b =? HAMMER2_BREF_TYPE_INODE) || (br_type b =? HAMMER2_BREF_TYPE_INDIRECT).
Definition data_of (b : hammer2_blockref) : Z :=
  bref_bytes b + if below_counts b then br_data_count b else 0.
Definition inodes_of (b : hammer2_blockref) : Z :=
  (if br_type b =? HAMMER2_BREF_TYPE_INODE then 1 else 0) + if below_counts b then br_inode_count b else 0.

Definition sum_of (f : hammer2_blockref -> Z) (l : list hammer2_blockref) : Z := foldr (fun b s => f b + s) 0 l.

(** The counts of the chain are those of its entries; [leaf_count] sticks at its
    maximum. *)
Record stats_ok (b : hammer2_blockref) (l : list hammer2_blockref) : Prop := {
  st_data : br_data_count b = u64 (sum_of data_of l);
  st_inode : br_inode_count b = u64 (sum_of inodes_of l);
  st_leaf : br_leaf_count b = HAMMER2_BLOCKREF_LEAF_MAX \/ br_leaf_count b = sum_of leaves_of l;
  st_leaves : Forall (fun e => 0 <= br_leaf_count e) l
}.

Lemma sum_of_ins f elm l : sum_of f (list_ins elm l) = f elm + sum_of f l.
Proof. induction l as [|b l IH]; [done|]. cbn. destruct (_ <? _); cbn; [done|]. unfold sum_of in *. rewrite IH. lia. Qed.

Lemma sum_of_del f e l : brefs_ok l -> e ∈ l -> sum_of f (del_key (br_key e) l) = sum_of f l - f e.
Proof.
  intros Hok He. assert (bref_ok e) as Heok by (by eapply brefs_ok_elem). assert (Hs := span_pos e Heok).
  induction l as [|b l IH]; [by apply elem_of_nil in He|]. apply brefs_ok_cons in Hok as (Hb & Hl & Hbl).
  assert (Hsb := span_pos b Hb). unfold del_key. cbn. unfold at_key at 1.
  fold (del_key (br_key e) l). destruct (Z.eqb_spec (br_key b) (br_key e)) as [Ek|Ek]; cbn.
  - assert (b = e) as ->.
    { apply elem_of_cons in He as [->|He]; [done|]. specialize (Hbl e He). unfold before in Hbl. lia. }
    assert (del_key (br_key e) l = l) as ->; [|lia]. unfold del_key.
    apply List.forallb_filter_id, List.forallb_forall. intros c Hc. apply list_elem_of_In in Hc. specialize (Hbl c Hc).
    unfold at_key. unfold before in Hbl. destruct (Z.eqb_spec (br_key c) (br_key e)); [lia|done].
  - apply elem_of_cons in He as [->|He]; [done|]. unfold sum_of in *. rewrite IH by done. lia.
Qed.

Lemma leaves_nonneg l : Forall (fun e => 0 <= br_leaf_count e) l -> 0 <= sum_of leaves_of l.
Proof.
  induction 1 as [|b l Hb _ IH]; [done|]. change (0 <= leaves_of b + sum_of leaves_of l).
  assert (0 <= leaves_of b) by (unfold leaves_of; repeat case_match; lia). lia.
Qed.

Lemma u64_u64_add x y : u64 (u64 x + y) = u64 (x + y).
Proof. unfold u64. apply Zplus_mod_idemp_l. Qed.
Lemma u64_u64_sub x y : u64 (u64 x - y) = u64 (x - y).
Proof. unfold u64. apply Zminus_mod_idemp_l. Qed.
Lemma u64_add_add x y z : u64 (u64 (u64 x + y) + z) = u64 (x + y + z).
Proof. by rewrite (u64_u64_add x), u64_u64_add. Qed.
Lemma u64_sub_sub x y z : u64 (u64 (u64 x - y) - z) = u64 (x - y - z).
Proof. by rewrite (u64_u64_sub x), u64_u64_sub. Qed.

(** [leaf_count] sticks at its maximum or is exact. *)
Definition sticky (leaf t : Z) : Prop := leaf = HAMMER2_BLOCKREF_LEAF_MAX \/ leaf = t.

Lemma sticky_inc leaf t : sticky leaf t -> sticky (leaf_inc leaf) (t + 1).
Proof. unfold sticky, leaf_inc. zcases. Qed.
Lemma sticky_add leaf t n : 0 <= n -> sticky leaf t -> sticky (leaf_add leaf n) (t + n).
Proof. unfold sticky, leaf_add, HAMMER2_BLOCKREF_LEAF_MAX. zcases. Qed.
Lemma sticky_sub leaf t n : n <= t -> sticky leaf t -> sticky (leaf_sub leaf n) (t - n).
Proof. unfold sticky, leaf_sub, HAMMER2_BLOCKREF_LEAF_MAX. zcases. Qed.
Lemma sticky_eq leaf t t' : t = t' -> sticky leaf t -> sticky leaf t'.
Proof. by intros ->. Qed.
#[local] Hint Resolve sticky_inc sticky_add sticky_sub : h2.

(** Case on the type of the entry, with the counts of the chain in view. *)
Ltac by_type e :=
  repeat match goal with |- context [br_type e =? ?t] => destruct (Z.eqb_spec (br_type e) t) end;
  cbn [br_data_count br_inode_count br_leaf_count bref_set_stats orb];
  try (exfalso; unfold HAMMER2_BREF_TYPE_INODE, HAMMER2_BREF_TYPE_DATA, HAMMER2_BREF_TYPE_INDIRECT,
    HAMMER2_BREF_TYPE_DIRENT in *; congruence).

Lemma stats_insert_ok b l elm l' : stats_ok b l -> 0 <= br_leaf_count elm ->
  Forall (fun e => 0 <= br_leaf_count e) l' -> (forall f, sum_of f l' = f elm + sum_of f l) ->
  stats_ok (stats_insert b elm) l'.
Proof.
  intros [Hd Hi Hl Hf] Helm Hf' Ht. split; [| | |done]; rewrite !Ht.
  - set (T := sum_of data_of l) in *. clearbody T. unfold stats_insert, data_of, below_counts.
    by_type elm; rewrite Hd, ?u64_add_add, ?u64_u64_add; f_equal; lia.
  - set (T := sum_of inodes_of l) in *. clearbody T. unfold stats_insert, inodes_of, below_counts.
    by_type elm; rewrite Hi, ?u64_add_add, ?u64_u64_add; f_equal; lia.
  - fold (sticky (br_leaf_count b) (sum_of leaves_of l)) in Hl.
    fold (sticky (br_leaf_count (stats_insert b elm)) (leaves_of elm + sum_of leaves_of l)).
    set (T := sum_of leaves_of l) in *. clearbody T. unfold stats_insert, leaves_of. by_type elm; (eapply sticky_eq; [|eauto with h2]; lia).
Qed.

Lemma stats_delete_ok b l e l' : stats_ok b l -> 0 <= br_leaf_count e -> Forall (fun e => 0 <= br_leaf_count e) l' ->
  (forall f, sum_of f l' = sum_of f l - f e) -> stats_ok (stats_delete b e) l'.
Proof.
  intros [Hd Hi Hl Hf] He Hf' Ht. assert (Hn := leaves_nonneg l' Hf'). rewrite Ht in Hn. split; [| | |done]; rewrite !Ht.
  - set (T := sum_of data_of l) in *. clearbody T. unfold stats_delete, data_of, below_counts.
    by_type e; rewrite Hd, ?u64_sub_sub, ?u64_u64_sub; f_equal; lia.
  - set (T := sum_of inodes_of l) in *. clearbody T. unfold stats_delete, inodes_of, below_counts.
    by_type e; rewrite Hi, ?u64_sub_sub, ?u64_u64_sub; f_equal; lia.
  - fold (sticky (br_leaf_count b) (sum_of leaves_of l)) in Hl.
    fold (sticky (br_leaf_count (stats_delete b e)) (sum_of leaves_of l - leaves_of e)).
    set (T := sum_of leaves_of l) in *. clearbody T. unfold stats_delete, leaves_of in *. by_type e; rewrite ?Z.sub_add_distr, ?Z.sub_0_r; try done;
      repeat (apply sticky_sub; [lia|]); done.
Qed.

(** ** Refinement *)

(** The operations of the flush and of the chain code on a table. *)
Inductive table_op :=
  | OpInsert (elm : hammer2_blockref)
  | OpDelete (chain : child).

(** The table: an operation that calls hpanic() is the last one. *)
Fixpoint table_run (p : parent) (base : list hammer2_blockref) (ops : list table_op)
    : option (parent * list hammer2_blockref * bool) :=
  match ops with
  | [] => Some (p, base, false)
  | OpInsert elm :: ops =>
      match hammer2_base_insert p base (zlen base) None elm with
      | None => None
      | Some r => if in_hpanic r then Some (in_parent r, in_base r, true) else table_run (in_parent r) (in_base r) ops
      end
  | OpDelete chain :: ops =>
      match hammer2_base_delete p base (zlen base) chain with
      | None => None
      | Some r => if dl_hpanic r then Some (dl_parent r, dl_base r, true) else table_run (dl_parent r) (dl_base r) ops
      end
  end.

(** The sorted list it stands for, of at most [size] elements. *)
Definition spec_op (size : nat) (l : list hammer2_blockref) (op : table_op) : option (list hammer2_blockref) :=
  match op with
  | OpInsert elm => if existsb (overlaps elm) l || (length l =? size)%nat then None else Some (list_ins elm l)
  | OpDelete chain =>
      match List.find (at_key (br_key (cd_bref chain))) l with
      | Some e =>
          if has (cd_flags chain) HAMMER2_CHAIN_BLKMAPUPD || (br_keybits e =? br_keybits (cd_bref chain))
          then Some (del_key (br_key e) l) else None
      | None => None
      end
  end.

Fixpoint spec_run (size : nat) (l : list hammer2_blockref) (ops : list table_op) : option (list hammer2_blockref) :=
  match ops with
  | [] => Some l
  | op :: ops => match spec_op size l op with Some l => spec_run size l ops | None => None end
  end.

Definition elm_ok (elm : hammer2_blockref) : Prop :=
  bref_ok elm /\ bref_empty elm = false /\ 0 <= br_leaf_count elm.
Definition op_ok (op : table_op) : Prop := match op with OpInsert elm => elm_ok elm | OpDelete _ => True end.

Record table_inv (p : parent) (base : list hammer2_blockref) : Prop := {
  ti_counted : counted p base;
  ti_stats : stats_ok (pa_bref p) (entries base)
}.

Lemma list_ins_elem elm l b : b ∈ list_ins elm l <-> b = elm \/ b ∈ l.
Proof.
  induction l as [|c l IH]; cbn; [by rewrite elem_of_cons|]. destruct (_ <? _); rewrite !elem_of_cons; [done|].
  rewrite IH. tauto.
Qed.

Lemma insert_inv p base chain elm r : table_inv p base -> elm_ok elm ->
  hammer2_base_insert p base (zlen base) chain elm = Some r -> in_hpanic r = false -> table_inv (in_parent r) (in_base r).
Proof.
  intros [Hct Hst] (Hok & Hu & Hl) E Hp. destruct (base_insert_spec p base chain elm Hct Hok Hu) as (r' & E' & _ & _ & Hb & H).
  rewrite E in E'. injection E' as <-. destruct (_ || _); [destruct H; congruence|]. destruct H as (_ & He & _ & Hc).
  split; [done|]. rewrite Hb. eapply stats_insert_ok; [exact Hst|done| |].
  - rewrite He. apply Forall_forall. intros b Hin. apply list_ins_elem in Hin as [->|Hin]; [done|].
    assert (X := st_leaves _ _ Hst). rewrite Forall_forall in X. auto.
  - intros f. by rewrite He, sum_of_ins.
Qed.

Lemma delete_inv p base chain r : table_inv p base ->
  hammer2_base_delete p base (zlen base) chain = Some r -> dl_hpanic r = false -> table_inv (dl_parent r) (dl_base r).
Proof.
  intros [Hct Hst] E Hp. destruct (base_delete_spec p base chain Hct) as (r' & E' & _ & H).
  rewrite E in E'. injection E' as <-. destruct (doomed chain base) as [e|] eqn:Ed; [|destruct H; congruence].
  destruct H as (_ & _ & _ & He & _ & Hc & Hb). assert (X := st_leaves _ _ Hst). rewrite Forall_forall in X.
  assert (e ∈ entries base) as Hin.
  { unfold doomed in Ed. destruct (List.find _ _) as [e'|] eqn:Ef; [|done]. apply List.find_some in Ef as [Ef _].
    destruct (_ || _); [|done]. injection Ed as <-. by apply list_elem_of_In. }
  split; [done|]. rewrite Hb. eapply stats_delete_ok; [exact Hst|auto| |].
  - rewrite He. apply Forall_forall. intros b Hb'. apply list_elem_of_In, List.filter_In in Hb' as [Hb' _].
    apply X. by apply list_elem_of_In.
  - intros f. rewrite He. apply sum_of_del; [apply Hct|done].
Qed.

Lemma table_run_spec ops p base : table_inv p base -> Forall op_ok ops ->
  exists p' base', match spec_run (length base) (entries base) ops with
  | Some l => table_run p base ops = Some (p', base', false) /\ entries base' = l /\
      length base' = length base /\ table_inv p' base'
  | None => table_run p base ops = Some (p', base', true)
  end.
Proof.
  revert p base. induction ops as [|op ops IH]; intros p base Hinv Hops; [by exists p, base|].
  apply Forall_cons in Hops as [Hop Hops]. cbn [spec_run table_run]. destruct op as [elm|chain]; cbn [spec_op].
  - destruct Hop as (Hok & Hu & Hl).
    destruct (base_insert_spec p base None elm (ti_counted _ _ Hinv) Hok Hu) as (r & E & _ & _ & _ & H). rewrite E.
    change (length (entries base) =? length base)%nat with (full base). destruct (_ || _).
    + destruct H as [-> _]. by eexists _, _.
    + assert (Hinv' := insert_inv p base None elm r Hinv ltac:(done) E). destruct H as (Hp & He & Hlen & _).
      rewrite Hp, <- He, <- Hlen. apply IH; [auto|done].
  - destruct (base_delete_spec p base chain (ti_counted _ _ Hinv)) as (r & E & _ & H). rewrite E. unfold doomed in H.
    destruct (List.find _ _) as [e|] eqn:Ef; [destruct (_ || _)|].
    + assert (Hinv' := delete_inv p base chain r Hinv E). destruct H as (_ & Hp & _ & He & Hlen & _).
      rewrite Hp, <- He, <- Hlen. apply IH; [auto|done].
    + destruct H as [-> _]. by eexists _, _.
    + destruct H as [-> _]. by eexists _, _.
Qed.

(** ** What the table promises *)

(** hammer2_base_find() on a counted table finds what a scan of the whole
    table finds: the first entry in use that ends at or after the key, whatever
    [cache_index] holds.  It lowers the next key to the end of that entry, and
    none of its assertions fails. *)
Theorem base_find_exact p base key_next key : counted p base ->
  exists ci, hammer2_base_find p (Some base) (zlen base) key_next key =
    Some (set_cache_index p ci, next_after key_next (base !! first_at base key), Z.of_nat (first_at base key)).
Proof. apply base_find_spec. Qed.

(** A table of an inode: two 16KB data blocks and two holes. *)
Definition sample_data (key : Z) : hammer2_blockref :=
  mkBref HAMMER2_BREF_TYPE_DATA 0 0 14 0 0 0 key 0 0 (1048576 * 64 + 14) 0 0 0 0.
Definition sample_table : list hammer2_blockref := [bref_zero; sample_data 16384; bref_zero; sample_data 65536].
Definition sample_parent (cache_index : Z) : parent :=
  mkParent (bref_set_stats bref_zero 2 32768 0) HAMMER2_CHAIN_COUNTEDBREFS cache_index 4 2 [].

Lemma sample_counted ci : counted (sample_parent ci) sample_table.
Proof.
  split; [done|done|]. split.
  - repeat constructor; cbn; lia.
  - apply StronglySorted_cons. split; [|repeat constructor]. constructor; [|constructor]. unfold before. cbn. lia.
Qed.

Lemma base_find_exact_witness : exists ci,
  hammer2_base_find (sample_parent 77) (Some sample_table) 4 0 20000 = Some (set_cache_index (sample_parent 77) ci, 32768, 1).
Proof. exact (base_find_exact (sample_parent 77) sample_table 0 20000 (sample_counted 77)). Defined.

(** C9: hammer2_base_insert() and hammer2_base_delete() make the table a sorted
    list of disjoint key ranges.  Any sequence of them on a table that holds its
    invariant does what the list does: hpanic() is called exactly when an
    insertion overlaps an entry or finds every slot in use, or when a deletion
    finds no entry of its key, and otherwise the entries are those of the list,
    [live_zero] is what a recount gives, and the statistics of the chain are the
    sums over its entries. *)
Theorem block_table_refines ops p base : table_inv p base -> Forall op_ok ops ->
  exists p' base', match spec_run (length base) (entries base) ops with
  | Some l => table_run p base ops = Some (p', base', false) /\ entries base' = l /\
      length base' = length base /\ table_inv p' base'
  | None => table_run p base ops = Some (p', base', true)
  end.
Proof. apply table_run_spec. Qed.

Definition sample_ops : list table_op :=
  [OpInsert (sample_data 0); OpInsert (sample_data 32768); OpDelete (mkChild (sample_data 16384) 0);
   OpInsert (sample_data 49152)].

Lemma block_table_refines_witness : exists p' base',
  table_run (sample_parent 0) sample_table sample_ops = Some (p', base', false) /\
  entries base' = [sample_data 0; sample_data 32768; sample_data 49152; sample_data 65536] /\
  length base' = 4%nat /\ table_inv p' base'.
Proof.
  apply (block_table_refines sample_ops (sample_parent 0) sample_table).
  - split; [apply sample_counted|]. split; [done|done|by right|repeat constructor; cbn; lia].
  - repeat constructor; cbn; lia.
Defined.
