(* ===== verification/BlockView.v ===== *)
(** The live view of a chain, its blockref table overlaid by its in-memory
    children, and hammer2_combined_find() as a search of that view. *)
From S2P Require Import Prelude Disk BlockTable BlockTableProof.
From Stdlib Require Import ZArith Lia Bool.
From stdpp Require Import base list sorting.
Open Scope Z_scope.

(** ** The view *)

(** The live view of a chain: the in-memory children, and the entries of the
    table that have none. *)
Definition elem : Type := option child * hammer2_blockref.
Definition of_child (c : child) : elem := (Some c, cd_bref c).
Definition of_entry (e : hammer2_blockref) : elem := (None, e).

Fixpoint overlay (rb : list child) : list hammer2_blockref -> list elem :=
  fix go (l : list hammer2_blockref) : list elem :=
    match rb, l with
    | [], _ => of_entry <$> l
    | _, [] => of_child <$> rb
    | c :: rb', e :: l' =>
        if br_key (cd_bref c) =? br_key e then of_child c :: overlay rb' l'
        else if br_key (cd_bref c) <? br_key e then of_child c :: overlay rb' l
        else of_entry e :: go l'
    end.

Definition view (p : parent) (base : list hammer2_blockref) : list elem := overlay (pa_rbtree p) (entries base).

(** A child and an entry have the same range, or ranges apart. *)
Definition coherent (rb : list child) (l : list hammer2_blockref) : Prop :=
  forall c e, c ∈ rb -> e ∈ l ->
    (br_key (cd_bref c) = br_key e /\ br_keybits (cd_bref c) = br_keybits e) \/
    before (cd_bref c) e \/ before e (cd_bref c).

Lemma overlay_nil_l l : overlay [] l = of_entry <$> l.
Proof. by destruct l. Qed.

Lemma overlay_nil_r rb : overlay rb [] = of_child <$> rb.
Proof. by destruct rb. Qed.

Lemma overlay_cons c rb e l : overlay (c :: rb) (e :: l) =
  if br_key (cd_bref c) =? br_key e then of_child c :: overlay rb l
  else if br_key (cd_bref c) <? br_key e then of_child c :: overlay rb (e :: l)
  else of_entry e :: overlay (c :: rb) l.
Proof. done. Qed.

Lemma coherent_tail_l c rb l : coherent (c :: rb) l -> coherent rb l.
Proof. intros H a e Ha He. apply H; [|done]. apply elem_of_cons. by right. Qed.

Lemma coherent_tail_r rb e l : coherent rb (e :: l) -> coherent rb l.
Proof. intros H a b Ha Hb. apply H; [done|]. apply elem_of_cons. by right. Qed.

Lemma overlay_elem rb l v : v ∈ overlay rb l -> (exists c, c ∈ rb /\ v = of_child c) \/ (exists e, e ∈ l /\ v = of_entry e).
Proof.
  revert l. induction rb as [|c rb IHr]; intros l.
  { rewrite overlay_nil_l. intros (e & -> & He)%list_elem_of_fmap. right. by exists e. }
  induction l as [|e l IHl].
  { rewrite overlay_nil_r. intros (a & -> & Ha)%list_elem_of_fmap. left. by exists a. }
  rewrite overlay_cons. repeat destruct (_ =? _); [|destruct (_ <? _)]; intros [->|Hv]%elem_of_cons.
  all: try (left; exists c; split; [apply elem_of_cons; by left|done]).
  all: try (right; exists e; split; [apply elem_of_cons; by left|done]).
  - apply IHr in Hv as [(a & Ha & ->)|(b & Hb & ->)]; [left; exists a|right; exists b]; split; try done; apply elem_of_cons; by right.
  - apply IHr in Hv as [(a & Ha & ->)|(b & Hb & ->)]; [left; exists a|right; exists b]; split; try done; apply elem_of_cons; by right.
  - apply IHl in Hv as [(a & Ha & ->)|(b & Hb & ->)]; [left; exists a|right; exists b]; split; try done; apply elem_of_cons; by right.
Qed.

Lemma overlay_child rb l c : c ∈ rb -> of_child c ∈ overlay rb l.
Proof.
  revert l. induction rb as [|a rb IHr]; intros l Hc; [by apply elem_of_nil in Hc|]. induction l as [|e l IHl].
  { rewrite overlay_nil_r. by apply list_elem_of_fmap_2. }
  rewrite overlay_cons. apply elem_of_cons in Hc as Hc'. destruct (_ =? _); [|destruct (_ <? _)]; apply elem_of_cons.
  - destruct Hc' as [->|Hc']; [by left|right; auto].
  - destruct Hc' as [->|Hc']; [by left|right; auto].
  - right. apply IHl.
Qed.

(** Every entry is in the view, itself or as a child with its key. *)
Lemma overlay_entry rb l e : e ∈ l -> of_entry e ∈ overlay rb l \/ exists c, c ∈ rb /\ br_key (cd_bref c) = br_key e.
Proof.
  revert l. induction rb as [|a rb IHr]; intros l He.
  { left. rewrite overlay_nil_l. by apply list_elem_of_fmap_2. }
  induction l as [|b l IHl]; [by apply elem_of_nil in He|]. rewrite overlay_cons.
  destruct (Z.eqb_spec (br_key (cd_bref a)) (br_key b)) as [Ek|]; [|destruct (_ <? _)].
  - apply elem_of_cons in He as [->|He]; [right; exists a; split; [apply elem_of_cons; by left|done]|].
    destruct (IHr l He) as [H|(c & Hc & Hk)]; [left; apply elem_of_cons; by right|right; exists c].
    split; [apply elem_of_cons; by right|done].
  - destruct (IHr (b :: l) He) as [H|(c & Hc & Hk)]; [left; apply elem_of_cons; by right|right; exists c].
    split; [apply elem_of_cons; by right|done].
  - apply elem_of_cons in He as [->|He]; [left; apply elem_of_cons; by left|].
    destruct (IHl He) as [H|H]; [left; apply elem_of_cons; by right|by right].
Qed.

(** The view is in the order of its keys, its ranges apart. *)
Lemma overlay_sorted rb l : brefs_ok (cd_bref <$> rb) -> brefs_ok l -> coherent rb l -> brefs_ok (snd <$> overlay rb l).
Proof.
  revert l. induction rb as [|c rb IHr]; intros l Hr Hl Hco.
  { rewrite overlay_nil_l, <- list_fmap_compose. by rewrite list_fmap_id. }
  induction l as [|e l IHl].
  { rewrite overlay_nil_r, <- list_fmap_compose. done. }
  apply brefs_ok_cons in Hr as Hr'. destruct Hr' as (Hc & Hr' & Hcr). apply brefs_ok_cons in Hl as Hl'.
  destruct Hl' as (He & Hl' & Hel). assert (Hs := span_pos _ Hc). assert (Hse := span_pos _ He).
  assert (Hce := Hco c e ltac:(apply elem_of_cons; by left) ltac:(apply elem_of_cons; by left)).
  assert (Hcr' : forall a, a ∈ rb -> before (cd_bref c) (cd_bref a)) by (intros a Ha; by apply Hcr, list_elem_of_fmap_2).
  rewrite overlay_cons. unfold before in *.
  destruct (Z.eqb_spec (br_key (cd_bref c)) (br_key e)) as [Ek|Ek]; [|destruct (Z.ltb_spec (br_key (cd_bref c)) (br_key e))].
  - cbn [fmap list_fmap]. apply brefs_ok_cons. split_and!; [done| |].
    + apply IHr; try done. by eapply coherent_tail_l, coherent_tail_r.
    + intros b (v & -> & Hv)%list_elem_of_fmap. unfold before.
      apply overlay_elem in Hv as [(a & Ha & ->)|(b & Hb & ->)]; cbn; [auto|]. specialize (Hel b Hb).
      destruct Hce as [[_ ->]|[|]]; lia.
  - cbn [fmap list_fmap]. apply brefs_ok_cons. split_and!; [done| |].
    + apply IHr; try done. by eapply coherent_tail_l.
    + intros b (v & -> & Hv)%list_elem_of_fmap. unfold before.
      apply overlay_elem in Hv as [(a & Ha & ->)|(b & Hb & ->)]; cbn; [auto|].
      apply elem_of_cons in Hb as [->|Hb]; [lia|]. specialize (Hel b Hb). lia.
  - cbn [fmap list_fmap]. apply brefs_ok_cons. split_and!; [done| |].
    + apply IHl; try done. by eapply coherent_tail_r.
    + intros b (v & -> & Hv)%list_elem_of_fmap. unfold before.
      apply overlay_elem in Hv as [(a & Ha & ->)|(b & Hb & ->)]; cbn; [|auto].
      apply elem_of_cons in Ha as [->|Ha]; [lia|]. specialize (Hcr' a Ha). lia.
Qed.

(** The next key 0 stands for the end of the key space. *)
Definition key_ord (x : Z) : Z := if x =? 0 then 2 ^ 64 else x.

Lemma key_ord_inj x y : is_u64 x -> is_u64 y -> key_ord x = key_ord y -> x = y.
Proof. unfold key_ord, is_u64. zcases. Qed.

Lemma key_stop_ord b : bref_ok b -> is_u64 (key_stop b) /\ key_ord (key_stop b) = br_key b + 2 ^ br_keybits b.
Proof.
  intros Hb. assert (Hs := span_pos b Hb). destruct Hb as (H1 & H2 & H3). split; [apply u64_range|].
  unfold key_stop. rewrite key_span_eq by done. unfold key_ord.
  destruct (Z.eq_dec (br_key b + 2 ^ br_keybits b) (2 ^ 64)) as [->|]; [done|].
  rewrite u64_small by (unfold is_u64; lia). zcases.
Qed.

Lemma next_after_ord kn b : is_u64 kn -> bref_ok b -> is_u64 (next_after kn (Some b)) /\
  key_ord (next_after kn (Some b)) = Z.min (key_ord kn) (br_key b + 2 ^ br_keybits b).
Proof.
  intros Hk Hb. destruct (key_stop_ord b Hb) as [Hu Ho]. rewrite <- Ho. unfold next_after, truncate, nz, key_ord in *.
  unfold is_u64 in *. zcases; cbn [negb orb] in *; lia.
Qed.

Definition hits (key_beg key_end : Z) (b : hammer2_blockref) : bool :=
  (key_beg <=? key_last b) && (br_key b <=? key_end).

Lemma hits_spec kb ke b : bref_ok b -> hits kb ke b = true <-> kb < br_key b + 2 ^ br_keybits b /\ br_key b <= ke.
Proof. intros Hb. unfold hits. rewrite key_last_eq by done. rewrite andb_true_iff, !Z.leb_le. lia. Qed.

Lemma find_cmp_hits kb ke c : (hammer2_chain_find_cmp kb ke c =? 0) = hits kb ke (cd_bref c).
Proof. unfold hammer2_chain_find_cmp, hits. zcases; done. Qed.

(** The children behind the first one in the range change nothing. *)
Lemma scan_run_rest kb ke best kn l : is_u64 kn -> kn <> 0 ->
  (forall a, a ∈ l -> bref_ok (cd_bref a) /\ kn <= br_key (cd_bref a) /\
     br_key (cd_bref best) < br_key (cd_bref a) /\ kb < br_key (cd_bref a)) ->
  scan_run (hammer2_chain_find_cmp kb ke) (hammer2_chain_find_callback kb) l (mkInfo (Some best) kn) =
  Some (mkInfo (Some best) kn).
Proof.
  intros Hk Hk0. induction l as [|a l IH]; intros Hl; [done|]. cbn [scan_run].
  destruct (_ =? 0); [|done]. destruct (Hl a ltac:(apply elem_of_cons; by left)) as (Ha & H1 & H2 & H3).
  unfold hammer2_chain_find_callback. cbn [fi_best fi_key_next].
  destruct (key_stop_ord (cd_bref a) Ha) as [Hsu Hso]. assert (Hs := span_pos _ Ha).
  destruct (Z.leb_spec (br_key (cd_bref a)) kb); [lia|]. rewrite andb_false_r.
  destruct (Z.ltb_spec (br_key (cd_bref a)) (br_key (cd_bref best))); [lia|].
  destruct (Z.eqb_spec (br_key (cd_bref a)) (br_key (cd_bref best))); [lia|]. cbn [fi_best fi_key_next].
  assert (truncate kn (br_key (cd_bref a)) = kn) as -> by (unfold truncate; by zcases).
  assert ((if nz (key_stop (cd_bref a)) then truncate kn (key_stop (cd_bref a)) else kn) = kn) as ->.
  { unfold truncate, nz, key_ord in *. zcases; cbn [negb orb] in *; lia. }
  apply IH. intros b Hb. apply Hl, elem_of_cons. by right.
Qed.

Lemma chain_find_spec p kn kb ke : is_u64 kn -> 0 <= kb -> brefs_ok (cd_bref <$> pa_rbtree p) ->
  let best := List.find (fun c => hits kb ke (cd_bref c)) (pa_rbtree p) in
  hammer2_chain_find p kn kb ke = Some (best, next_after kn (cd_bref <$> best)).
Proof.
  intros Hk Hkb Hok. unfold hammer2_chain_find. cbv zeta. induction (pa_rbtree p) as [|c rb IH]; [done|].
  cbn [fmap list_fmap] in Hok. apply brefs_ok_cons in Hok as (Hc & Hok & Hcr). cbn [RB_SCAN List.find].
  rewrite find_cmp_hits. destruct (hits kb ke (cd_bref c)) eqn:Eh; [|by apply IH].
  cbn [scan_run]. rewrite find_cmp_hits, Eh. cbn [hammer2_chain_find_callback fi_best fi_key_next fmap option_fmap option_map].
  apply hits_spec in Eh; [|done]. destruct (next_after_ord kn (cd_bref c) Hk Hc) as [Hnu Hno].
  change (if nz (key_stop (cd_bref c)) then truncate kn (key_stop (cd_bref c)) else kn)
    with (next_after kn (Some (cd_bref c))). set (kn1 := next_after kn (Some (cd_bref c))) in *.
  assert (Hs := span_pos _ Hc). destruct rb as [|a rb]; [done|].
  assert (bref_ok (cd_bref a)) as Ha by (eapply brefs_ok_elem; [exact Hok|]; apply elem_of_cons; by left).
  assert (Hca := Hcr (cd_bref a) ltac:(apply elem_of_cons; by left)). assert (Hsa := span_pos _ Ha).
  unfold before in Hca. rewrite scan_run_rest; [done|done| |].
  - intros ->. destruct Ha as (_ & _ & Ha). unfold key_ord in Hno. cbn [Z.eqb] in Hno. lia.
  - intros b Hb. assert (before (cd_bref c) (cd_bref b)) as Hcb by (by apply Hcr, list_elem_of_fmap_2).
    assert (bref_ok (cd_bref b)) as Hbok by (eapply brefs_ok_elem; [exact Hok|]; by apply list_elem_of_fmap_2).
    unfold before in Hcb. split_and!; [done| |lia|lia].
    assert (kn1 <= key_ord kn1) by (unfold key_ord, is_u64 in *; zcases). lia.
Qed.

Lemma first_at_find base key : base !! first_at base key = List.find (fun b => key <=? key_last b) (entries base).
Proof.
  induction base as [|b base IH]; [done|]. cbn [first_at]. rewrite entries_cons. unfold used.
  destruct (bref_empty b); cbn [negb andb List.find]; [done|]. by destruct (key <=? key_last b).
Qed.

(** The first element of a sorted list with a property. *)
Lemma find_first {A} (f : A -> hammer2_blockref) (P : A -> bool) (l : list A) : brefs_ok (f <$> l) ->
  match List.find P l with
  | Some x => x ∈ l /\ P x = true /\ (forall y, y ∈ l -> P y = true -> y = x \/ before (f x) (f y))
  | None => forall y, y ∈ l -> P y = false
  end.
Proof.
  induction l as [|a l IH]; intros Hok; cbn [List.find]; [intros y Hy; by apply elem_of_nil in Hy|].
  cbn [fmap list_fmap] in Hok. apply brefs_ok_cons in Hok as (Ha & Hok & Hal). destruct (P a) eqn:E.
  - split_and!; [apply elem_of_cons; by left|done|]. intros y [->|Hy]%elem_of_cons _; [by left|right].
    by apply Hal, list_elem_of_fmap_2.
  - specialize (IH Hok). destruct (List.find P l) as [x|].
    + destruct IH as (H1 & H2 & H3). split_and!; [apply elem_of_cons; by right|done|].
      intros y [->|Hy]%elem_of_cons HP; [congruence|auto].
    + intros y [->|Hy]%elem_of_cons; auto.
Qed.

Lemma find_first_eq {A} (f : A -> hammer2_blockref) (P : A -> bool) (l : list A) x : brefs_ok (f <$> l) ->
  x ∈ l -> P x = true -> (forall y, y ∈ l -> P y = true -> br_key (f x) <= br_key (f y)) -> List.find P l = Some x.
Proof.
  intros Hok Hx HP Hmin. assert (H := find_first f P l Hok). destruct (List.find P l) as [y|].
  - destruct H as (H1 & H2 & H3). destruct (H3 x Hx HP) as [->|Hb]; [done|].
    assert (Hs := span_pos (f y) (brefs_ok_elem _ _ Hok ltac:(by apply list_elem_of_fmap_2))).
    specialize (Hmin y H1 H2). unfold before in Hb. lia.
  - by rewrite (H x Hx) in HP.
Qed.

Lemma find_none_eq {A} (P : A -> bool) (l : list A) : (forall y, y ∈ l -> P y = false) -> List.find P l = None.
Proof.
  intros H. destruct (List.find P l) as [x|] eqn:E; [|done]. apply List.find_some in E as [Hx HP].
  rewrite H in HP; [done|]. by apply list_elem_of_In.
Qed.

(** A chain with its table and its in-memory children. *)
Record view_ok (p : parent) (base : list hammer2_blockref) : Prop := {
  vo_counted : counted p base;
  vo_children : brefs_ok (cd_bref <$> pa_rbtree p);
  vo_coherent : coherent (pa_rbtree p) (entries base)
}.

Definition nearest (key_beg key_end : Z) (l : list elem) : option elem :=
  List.find (fun v : elem => hits key_beg key_end v.2) l.

Section Nearest.
Context (p : parent) (base : list hammer2_blockref) (kb ke : Z).
Hypothesis Hv : view_ok p base.
Let ec := List.find (fun b => kb <=? key_last b) (entries base).
Let cc := List.find (fun c => hits kb ke (cd_bref c)) (pa_rbtree p).

(** The nearest element out of the nearest entry and the nearest child. *)
Definition select_elem : option elem :=
  match cc, ec with
  | Some c, Some e => if br_key e <? br_key (cd_bref c) then Some (of_entry e) else Some (of_child c)
  | Some c, None => Some (of_child c)
  | None, Some e => if ke <? br_key e then None else Some (of_entry e)
  | None, None => None
  end.

Lemma entry_ok e : e ∈ entries base -> bref_ok e.
Proof. apply brefs_ok_elem, Hv. Qed.

Lemma child_ok c : c ∈ pa_rbtree p -> bref_ok (cd_bref c).
Proof. intros Hc. eapply brefs_ok_elem; [apply (vo_children _ _ Hv)|]. by apply list_elem_of_fmap_2. Qed.

Lemma entry_first : match ec with
  | Some e => e ∈ entries base /\ kb < br_key e + 2 ^ br_keybits e /\
      forall e', e' ∈ entries base -> hits kb ke e' = true -> br_key e <= br_key e'
  | None => forall e', e' ∈ entries base -> hits kb ke e' = false
  end.
Proof.
  assert (H := find_first (fun b => b) (fun b => kb <=? key_last b) (entries base)). rewrite list_fmap_id in H.
  specialize (H (ct_table _ _ (vo_counted _ _ Hv))). unfold ec. destruct (List.find _ _) as [e|].
  - destruct H as (H1 & H2 & H3). assert (He := entry_ok e H1). assert (Hs := span_pos e He).
    rewrite key_last_eq in H2 by done. split_and!; [done|lia|]. intros e' He' Hh. apply andb_prop in Hh as [Hh _].
    destruct (H3 e' He' Hh) as [->|Hb]; [lia|]. unfold before in Hb. lia.
  - intros e' He'. unfold hits. by rewrite (H e' He').
Qed.

Lemma child_first : match cc with
  | Some c => c ∈ pa_rbtree p /\ hits kb ke (cd_bref c) = true /\
      forall c', c' ∈ pa_rbtree p -> hits kb ke (cd_bref c') = true -> br_key (cd_bref c) <= br_key (cd_bref c')
  | None => forall c', c' ∈ pa_rbtree p -> hits kb ke (cd_bref c') = false
  end.
Proof.
  assert (H := find_first cd_bref (fun c => hits kb ke (cd_bref c)) (pa_rbtree p) (vo_children _ _ Hv)). fold cc in H.
  destruct cc as [c|]; [|exact H]. destruct H as (H1 & H2 & H3). split_and!; try done.
  intros c' Hc' Hh. destruct (H3 c' Hc' Hh) as [->|Hb]; [lia|]. assert (Hs := span_pos _ (child_ok c H1)).
  unfold before in Hb. lia.
Qed.

Lemma view_sorted : brefs_ok (snd <$> view p base).
Proof. apply overlay_sorted; apply Hv. Qed.

(** An entry nearer than every child in the range is in the view. *)
Lemma entry_in_view e : e ∈ entries base -> kb < br_key e + 2 ^ br_keybits e -> br_key e <= ke ->
  (forall c, c ∈ pa_rbtree p -> hits kb ke (cd_bref c) = true -> br_key e < br_key (cd_bref c)) -> of_entry e ∈ view p base.
Proof.
  intros He Hk Hke Hnc. destruct (overlay_entry (pa_rbtree p) (entries base) e He) as [|(c & Hc & Ek)]; [done|]. exfalso.
  assert (Hs := span_pos _ (child_ok c Hc)). assert (Hse := span_pos _ (entry_ok e He)).
  assert (br_keybits (cd_bref c) = br_keybits e) as Eb.
  { destruct (vo_coherent _ _ Hv c e Hc He) as [[_ E]|[Hb|Hb]]; [done| |]; unfold before in Hb; lia. }
  specialize (Hnc c Hc). rewrite hits_spec in Hnc by (by apply child_ok). rewrite Eb in Hnc. lia.
Qed.

Lemma pick_nearest : nearest kb ke (view p base) = select_elem.
Proof.
  assert (He := entry_first). assert (Hc := child_first). unfold select_elem, nearest.
  assert (forall v, v ∈ view p base -> (exists c, c ∈ pa_rbtree p /\ v = of_child c) \/ (exists e, e ∈ entries base /\ v = of_entry e))
    as Hel by (intros v; apply overlay_elem).
  destruct cc as [c|], ec as [e|].
  - destruct Hc as (Hc1 & Hc2 & Hc3), He as (He1 & He2 & He3). assert (X := Hc2). rewrite hits_spec in X by (by apply child_ok).
    destruct (Z.ltb_spec (br_key e) (br_key (cd_bref c))); apply (find_first_eq snd); try apply view_sorted; try done.
    + apply entry_in_view; try done; [lia|]. intros c' Hc' Hh. specialize (Hc3 c' Hc' Hh). lia.
    + apply hits_spec; [by apply entry_ok|]. cbn. lia.
    + intros v [(a & Ha & ->)|(b & Hb & ->)]%Hel Hh; cbn in *; [specialize (Hc3 a Ha Hh); lia|auto].
    + by apply overlay_child.
    + intros v [(a & Ha & ->)|(b & Hb & ->)]%Hel Hh; cbn in *; [auto|specialize (He3 b Hb Hh); lia].
  - destruct Hc as (Hc1 & Hc2 & Hc3). apply (find_first_eq snd); [apply view_sorted|by apply overlay_child|done|].
    intros v [(a & Ha & ->)|(b & Hb & ->)]%Hel Hh; cbn in *; [auto|by rewrite He in Hh].
  - destruct He as (He1 & He2 & He3). assert (Heok := entry_ok e He1). destruct (Z.ltb_spec ke (br_key e)).
    + apply find_none_eq. intros v [(a & Ha & ->)|(b & Hb & ->)]%Hel; cbn; [auto|].
      destruct (hits kb ke b) eqn:Eh; [|done]. specialize (He3 b Hb Eh). apply andb_prop in Eh as [_ Eh]. lia.
    + apply (find_first_eq snd); [apply view_sorted| | |].
      * apply entry_in_view; try done. intros c Hc' Hh. by rewrite Hc in Hh.
      * by apply hits_spec.
      * intros v [(a & Ha & ->)|(b & Hb & ->)]%Hel Hh; cbn in *; [by rewrite Hc in Hh|auto].
  - apply find_none_eq. intros v [(a & Ha & ->)|(b & Hb & ->)]%Hel; cbn; auto.
Qed.
End Nearest.

Lemma combined_find_spec p base kb ke : view_ok p base -> 0 <= kb <= ke -> ke < 2 ^ 64 ->
  let r := nearest kb ke (view p base) in
  exists ci, hammer2_combined_find p (Some base) (zlen base) kb ke =
    Some (set_cache_index p ci, next_after (u64 (ke + 1)) (snd <$> r), r ≫= fst, snd <$> r).
Proof.
  intros Hv Hkb Hke r. unfold r. rewrite (pick_nearest p base kb ke Hv). unfold hammer2_combined_find.
  destruct (base_find_spec p base (u64 (ke + 1)) kb (vo_counted _ _ Hv)) as [ci ->]. exists ci.
  assert (is_u64 (u64 (ke + 1))) as Hk0 by apply u64_range. set (kn0 := u64 (ke + 1)) in *.
  assert (key_ord kn0 = ke + 1) as Ho0.
  { unfold kn0, key_ord. destruct (Z.eq_dec ke (2 ^ 64 - 1)) as [->|]; [done|].
    rewrite u64_small by (unfold is_u64; lia). zcases. }
  assert (Hec := entry_first p base kb ke Hv). assert (Hcc := child_first p base kb ke Hv). unfold select_elem.
  rewrite (first_at_find base kb).
  assert (base !! first_at base kb = List.find (fun b => kb <=? key_last b) (entries base)) as Hat by apply first_at_find.
  assert (Hle := first_at_le base kb). set (i := first_at base kb) in *.
  set (ec := List.find (fun b => kb <=? key_last b) (entries base)) in *.
  assert (is_u64 (next_after kn0 ec)) as Hk1.
  { destruct ec as [e|]; [|done]. apply next_after_ord; [done|]. apply (entry_ok p base Hv), Hec. }
  assert (Hf := chain_find_spec (set_cache_index p ci) (next_after kn0 ec) kb ke Hk1 ltac:(lia) (vo_children _ _ Hv)).
  cbv zeta in Hf. cbn [pa_rbtree set_cache_index] in Hf. rewrite Hf. clear Hf. cbn [default].
  set (cc := List.find (fun c => hits kb ke (cd_bref c)) (pa_rbtree p)) in *.
  destruct ec as [e|]; cbn [from_option id].
  - apply lookup_lt_Some in Hat as Hlt. rewrite (bref_at_lookup _ _ _ Hat).
    destruct (Z.eqb_spec (Z.of_nat i) (zlen base)); [lia|]. destruct Hec as (He1 & He2 & He3).
    assert (Heok := entry_ok p base Hv e He1). assert (Hse := span_pos e Heok).
    destruct (next_after_ord kn0 e Hk0 Heok) as [_ Ho1]. destruct cc as [c|].
    + destruct Hcc as (Hc1 & Hc2 & Hc3). assert (Hcok := child_ok p base Hv c Hc1). assert (Hsc := span_pos _ Hcok).
      apply hits_spec in Hc2; [|done]. assert (Hco := vo_coherent _ _ Hv c e Hc1 He1). unfold before in Hco.
      cbn [fmap option_fmap option_map]. destruct (next_after_ord _ (cd_bref c) Hk1 Hcok) as [Hu2 Ho2].
      destruct (next_after_ord kn0 (cd_bref c) Hk0 Hcok) as [Hu3 Ho3].
      destruct (Z.eqb_spec (br_key (cd_bref c)) (br_key e)) as [Ek|Ek].
      * rewrite orb_true_r. destruct (Z.ltb_spec ke (br_key (cd_bref c))); [lia|].
        destruct (Z.ltb_spec (br_key e) (br_key (cd_bref c))); [lia|]. cbn [fmap option_fmap option_map mbind option_bind of_child of_entry fst snd].
        do 4 f_equal. apply key_ord_inj; [done|done|]. destruct Hco as [[_ Eb]|[|]]; [rewrite Eb in *; lia|lia|lia].
      * rewrite orb_false_r. destruct (Z.leb_spec (br_key (cd_bref c)) kb), (Z.leb_spec (br_key e) kb); cbn [andb].
        1: { exfalso. destruct Hco as [[? _]|[|]]; lia. }
        all: destruct (Z.ltb_spec (br_key (cd_bref c)) (br_key e)), (Z.ltb_spec (br_key e) (br_key (cd_bref c))); try lia.
        all: match goal with |- context [if ?a <? ?b then _ else _] => destruct (Z.ltb_spec a b); [lia|] end; cbn [fmap option_fmap option_map mbind option_bind of_child of_entry fst snd].
        all: do 4 f_equal; apply key_ord_inj; try done; destruct Hco as [[? _]|[|]]; lia.
    + cbn [fmap option_fmap option_map]. destruct (Z.ltb_spec ke (br_key e)); [|done].
      cbn [fmap option_fmap option_map mbind option_bind of_child of_entry fst snd].
      do 4 f_equal. apply key_ord_inj; [done|done|]. change (key_ord (next_after kn0 (Some e)) = key_ord kn0). lia.
  - apply lookup_ge_None_1 in Hat. destruct (Z.eqb_spec (Z.of_nat i) (zlen base)); [|lia].
    destruct cc as [c|]; [|done]. destruct Hcc as (Hc1 & Hc2 & _). apply hits_spec in Hc2; [|by apply (child_ok p base Hv)].
    destruct (Z.ltb_spec ke (br_key (cd_bref c))); [lia|done].
Qed.

(** hammer2_combined_find() finds the nearest element of the live view, in
    which an in-memory child stands for the entry of its key: the first one
    that meets the range of keys, taken from the children where there is one.
    The next key is the end of that element or of the range, whichever is
    nearer, and no assertion fails. *)
Theorem combined_find_nearest p base key_beg key_end : view_ok p base -> 0 <= key_beg <= key_end -> key_end < 2 ^ 64 ->
  let r := nearest key_beg key_end (view p base) in
  exists ci, hammer2_combined_find p (Some base) (zlen base) key_beg key_end =
    Some (set_cache_index p ci, next_after (u64 (key_end + 1)) (snd <$> r), r ≫= fst, snd <$> r).
Proof. apply combined_find_spec. Qed.

(** The first block is in memory, and a new one between the two of the table. *)
Definition sample_children : list child := [mkChild (sample_data 16384) 0; mkChild (sample_data 49152) 0].
Definition sample_live : parent :=
  mkParent (bref_set_stats bref_zero 2 32768 0) HAMMER2_CHAIN_COUNTEDBREFS 3 4 3 sample_children.

Lemma sample_view_ok : view_ok sample_live sample_table.
Proof.
  split.
  - destruct (sample_counted 3) as [H1 H2 H3]. by split.
  - split; [repeat constructor; cbn; lia|]. repeat constructor. unfold before. cbn. lia.
  - intros c e Hc He. unfold before. cbn in Hc, He.
    repeat (apply elem_of_cons in Hc as [->|Hc]); try by apply elem_of_nil in Hc.
    all: apply list_elem_of_In in He; cbn in He; destruct He as [<-|[<-|[]]]; cbn; lia.
Qed.

Lemma combined_find_nearest_witness : exists ci,
  hammer2_combined_find sample_live (Some sample_table) 4 40000 100000 =
  Some (set_cache_index sample_live ci, 65536, Some (mkChild (sample_data 49152) 0), Some (sample_data 49152)).
Proof.
  exact (combined_find_nearest sample_live sample_table 40000 100000 sample_view_ok ltac:(lia) ltac:(lia)).
Defined.
