(* ===== verification/Indirect.v ===== *)
(** The creation of indirect blocks (hammer2_chain.c): the choice of their key
    range by hammer2_chain_indkey_freemap(), hammer2_chain_indkey_file() and
    hammer2_chain_indkey_dir(), and hammer2_chain_create_indirect(), which moves
    the elements of a full table that are in the range into the new block.

    As in the block tables a failed assertion is [None], here also a shift by
    the width of the key or more, and hpanic() is a flag.  The chains are locked
    throughout, so that no other thread changes the tables between two searches;
    the reads and allocations of hammer2_chain_modify() are parameters. *)
From S2P Require Import Prelude Disk Subr BlockTable.
From Stdlib Require Import ZArith Lia Bool.
From stdpp Require Import base list.
Import Sizes.
Open Scope Z_scope.

Definition HAMMER2_IND_BYTES_MIN : Z := 4096.
Definition HAMMER2_IND_BYTES_NOM : Z := HAMMER2_LBUFSIZE.
Definition HAMMER2_IND_BYTES_MAX : Z := HAMMER2_PBUFSIZE.
Definition HAMMER2_IND_RADIX_MIN : Z := 12.
Definition HAMMER2_IND_RADIX_NOM : Z := HAMMER2_LBUFRADIX.
Definition HAMMER2_IND_RADIX_MAX : Z := HAMMER2_PBUFRADIX.
Definition HAMMER2_BLOCKREF_BYTES : Z := 128.
Definition HAMMER2_BLOCKREF_RADIX : Z := 7.
Definition HAMMER2_IND_COUNT_MIN : Z := HAMMER2_IND_BYTES_MIN / HAMMER2_BLOCKREF_BYTES.
Definition HAMMER2_IND_COUNT_NOM : Z := HAMMER2_IND_BYTES_NOM / HAMMER2_BLOCKREF_BYTES.
Definition HAMMER2_IND_COUNT_MAX : Z := HAMMER2_IND_BYTES_MAX / HAMMER2_BLOCKREF_BYTES.

Definition HAMMER2_CHAIN_INITIAL : Z := 0x00000020.
Definition HAMMER2_CHAIN_UPDATE : Z := 0x00000040.
Definition HAMMER2_CHAIN_ONRBTREE : Z := 0x00004000.

(** ** The scan of the live elements *)

Definition cd_deleted (c : option child) : bool :=
  match c with Some c => has (cd_flags c) HAMMER2_CHAIN_DELETED | None => false end.

Inductive scan_end (B : Type) :=
  | ScanDone (p : parent) (acc : B)
  | ScanPanic (p : parent)
  | ScanBug.
Arguments ScanDone {B} p acc.
Arguments ScanPanic {B} p.
Arguments ScanBug {B}.

(** The loop the three functions share around what they do with an element
    ([None]: hpanic() and return).  [loops] is [maxloops - 1]. *)
Fixpoint scan_live {B : Type} (body : B -> hammer2_blockref -> option B) (loops : nat) (p : parent)
    (base : list hammer2_blockref) (key_beg : Z) (acc : B) : scan_end B :=
  match loops with
  | O => ScanPanic p
  | S loops =>
      match hammer2_combined_find p (Some base) (zlen base) key_beg HAMMER2_KEY_MAX with
      | None => ScanBug
      | Some (p, _, _, None) => ScanDone p acc
      | Some (p, key_next, chain, Some bref) =>
          if cd_deleted chain then
            if (key_next =? 0) || (HAMMER2_KEY_MAX <? key_next) then ScanDone p acc
            else scan_live body loops p base key_next acc
          else
            match body acc bref with
            | None => ScanPanic p
            | Some acc =>
                let key_next := key_stop bref in
                if key_next =? 0 then ScanDone p acc else scan_live body loops p base key_next acc
            end
      end
  end.

Definition maxloops : nat := Z.to_nat 299999.
#[global] Opaque maxloops.

(** The chain, the key stored through [keyp], the keybits returned, and whether
    hpanic() was called. *)
Record indkey := mkIndkey { ik_parent : parent; ik_key : Z; ik_keybits : Z; ik_hpanic : bool }.

(** ** Freemap and file blocks *)

(** The smallest key among the elements with the fewest keybits. *)
Definition smallest (acc : Z * Z) (bref : hammer2_blockref) : option (Z * Z) :=
  let '(key, keybits) := acc in
  if br_keybits bref <? keybits then Some (br_key bref, br_keybits bref)
  else if (keybits =? br_keybits bref) && (br_key bref <? key) then Some (br_key bref, keybits)
  else Some acc.

Definition freemap_up (keybits : Z) : option Z :=
  if keybits =? HAMMER2_FREEMAP_LEVEL0_RADIX then Some HAMMER2_FREEMAP_LEVEL1_RADIX
  else if keybits =? HAMMER2_FREEMAP_LEVEL1_RADIX then Some HAMMER2_FREEMAP_LEVEL2_RADIX
  else if keybits =? HAMMER2_FREEMAP_LEVEL2_RADIX then Some HAMMER2_FREEMAP_LEVEL3_RADIX
  else if keybits =? HAMMER2_FREEMAP_LEVEL3_RADIX then Some HAMMER2_FREEMAP_LEVEL4_RADIX
  else if keybits =? HAMMER2_FREEMAP_LEVEL4_RADIX then Some HAMMER2_FREEMAP_LEVEL5_RADIX
  else None.

Definition hammer2_chain_indkey_freemap (p : parent) (base : list hammer2_blockref) (keyp : Z) : option indkey :=
  match scan_live smallest maxloops p base 0 (keyp, 64) with
  | ScanBug => None
  | ScanPanic p => Some (mkIndkey p keyp (-1) true)
  | ScanDone p (key, keybits) =>
      match freemap_up keybits with
      | Some keybits => Some (mkIndkey p key keybits false)
      | None => Some (mkIndkey p keyp (-1) true)
      end
  end.

Definition file_nradix (ncount : Z) : option Z :=
  if ncount =? HAMMER2_IND_COUNT_MIN then Some (HAMMER2_IND_RADIX_MIN - HAMMER2_BLOCKREF_RADIX)
  else if ncount =? HAMMER2_IND_COUNT_NOM then Some (HAMMER2_IND_RADIX_NOM - HAMMER2_BLOCKREF_RADIX)
  else if ncount =? HAMMER2_IND_COUNT_MAX then Some (HAMMER2_IND_RADIX_MAX - HAMMER2_BLOCKREF_RADIX)
  else None.

Definition hammer2_chain_indkey_file (p : parent) (base : list hammer2_blockref) (keyp ncount : Z) : option indkey :=
  match scan_live smallest maxloops p base 0 (keyp, 64) with
  | ScanBug => None
  | ScanPanic p => Some (mkIndkey p keyp (-1) true)
  | ScanDone p (key, keybits) =>
      match file_nradix ncount with
      | None => Some (mkIndkey p key (-1) true)
      | Some nradix =>
          let nradix := if 64 <=? nradix then 63 else nradix in
          Some (mkIndkey p key (keybits + nradix) false)
      end
  end.

(** ** Directory blocks *)

(** [while (nkeybits < 64 && rounddown2(key ^ bref->key, 1 << nkeybits) != 0)]. *)
Fixpoint widen (fuel : nat) (key bkey nkeybits : Z) : Z :=
  match fuel with
  | O => nkeybits
  | S fuel =>
      if (nkeybits <? 64) && nz (rounddown2 (Z.lxor key bkey) (key_span nkeybits))
      then widen fuel key bkey (nkeybits + 1) else nkeybits
  end.

(** The keybits of the range, and the counts of its lower and upper half. *)
Record dir_counts := mkDir { dc_keybits : Z; dc_lo : Z; dc_hi : Z }.

(** All counted so far are on the side of the key. *)
Definition collapse (key : Z) (d : dir_counts) (keybits bit : Z) : dir_counts :=
  if has key (key_span bit) then mkDir keybits 0 (dc_hi d + dc_lo d)
  else mkDir keybits (dc_lo d + dc_hi d) 0.

Definition dir_count (key : Z) (d : dir_counts) (bref : hammer2_blockref) : option dir_counts :=
  if (dc_keybits d <? br_keybits bref) && (64 <? br_keybits bref) then None else
  let nkeybits := if dc_keybits d <? br_keybits bref then br_keybits bref else dc_keybits d in
  let nkeybits := widen 65 key (br_key bref) nkeybits in
  let d := if dc_keybits d =? nkeybits then d else collapse key d nkeybits (nkeybits - 1) in
  if has (br_key bref) (key_span (nkeybits - 1)) then Some (mkDir (dc_keybits d) (dc_lo d) (dc_hi d + 1))
  else Some (mkDir (dc_keybits d) (dc_lo d + 1) (dc_hi d)).

(** [while ((1 << keybits) < ncount)]. *)
Fixpoint expand (fuel : nat) (key ncount : Z) (d : dir_counts) : dir_counts :=
  match fuel with
  | O => d
  | S fuel =>
      if key_span (dc_keybits d) <? ncount
      then expand fuel key ncount (collapse key d (dc_keybits d + 1) (dc_keybits d + 1)) else d
  end.

Definition hammer2_chain_indkey_dir (p : parent) (base : list hammer2_blockref) (keyp keybits ncount : Z)
    : option indkey :=
  match scan_live (dir_count keyp) maxloops p base 0 (mkDir keybits 0 0) with
  | ScanBug => None
  | ScanPanic p => Some (mkIndkey p keyp (-1) true)
  | ScanDone p d =>
      let d := expand 64 keyp ncount (mkDir (dc_keybits d - 1) (dc_lo d) (dc_hi d)) in
      let key :=
        if dc_lo d <? dc_hi d then keyp ||| key_span (dc_keybits d)
        else keyp & u64 (Z.shiftl (u64 (Z.lnot 1)) (dc_keybits d)) in
      Some (mkIndkey p key (dc_keybits d) false)
  end.

(** ** The new block *)

(** [rounddown2(key ^ bref->key, 1 << keybits) == 0]. *)
Definition in_block (key keybits bkey : Z) : bool :=
  negb (nz (rounddown2 (Z.lxor key bkey) (key_span keybits))).

Definition for_freemap (for_type : Z) : bool :=
  (for_type =? HAMMER2_BREF_TYPE_FREEMAP_NODE) || (for_type =? HAMMER2_BREF_TYPE_FREEMAP_LEAF).

(** The size of the block: [dir] when the parent is the inode of a directory.
    [None]: the assertion on the freemap. *)
Definition ind_nbytes (ptype for_type : Z) (dir : bool) (count : Z) : option Z :=
  let nbytes :=
    if for_freemap for_type then HAMMER2_FREEMAP_LEVELN_PSIZE
    else if ptype =? HAMMER2_BREF_TYPE_INODE then
      if dir then HAMMER2_IND_BYTES_MIN else HAMMER2_IND_BYTES_NOM
    else HAMMER2_IND_BYTES_NOM in
  if nbytes <? count * HAMMER2_BLOCKREF_BYTES then
    if for_freemap for_type then None else Some (count * HAMMER2_BLOCKREF_BYTES)
  else Some nbytes.

(** The number of elements the helpers plan for, bounded below an indirect
    parent. *)
Definition ind_ncount (pkeybits nbytes : Z) : Z :=
  let ncount := nbytes / HAMMER2_BLOCKREF_BYTES in
  if 0 <? pkeybits then
    let pmax := key_span (pkeybits - 1) in
    let pmax := if 128 <? pmax then 128 else pmax in
    if pmax <? ncount then pmax else ncount
  else ncount.

Definition HAMMER2_ENC_CHECK (n : Z) : Z := Z.shiftl (n & 15) 4.
Definition HAMMER2_DEC_CHECK (n : Z) : Z := Z.shiftr n 4 & 15.

(** The blockref of the block. *)
Definition ind_bref (methods for_type key keybits radix : Z) : hammer2_blockref :=
  mkBref (if for_freemap for_type then HAMMER2_BREF_TYPE_FREEMAP_NODE else HAMMER2_BREF_TYPE_INDIRECT)
    (HAMMER2_ENC_CHECK (HAMMER2_DEC_CHECK methods)) 0 (u8 keybits) 0 0 0 key 0 0 radix 0 0 0 0.

(** The block does not fit an indirect parent. *)
Definition ind_misfit (pb ib : hammer2_blockref) : bool :=
  ((br_type pb =? HAMMER2_BREF_TYPE_INDIRECT) || (br_type pb =? HAMMER2_BREF_TYPE_FREEMAP_NODE)) &&
  (0 <? br_keybits pb) && (0 <? br_keybits ib) &&
  ((br_key ib <? br_key pb) || (key_last pb <? key_last ib) || (br_keybits pb <=? br_keybits ib)).

(** ** Moving an element *)

(** A chain with its table. *)
Record node := mkNode { nd_parent : parent; nd_base : list hammer2_blockref }.

Definition set_children (p : parent) (n : Z) (rb : list child) : parent :=
  mkParent (pa_bref p) (pa_flags p) (pa_cache_index p) (pa_live_zero p) n rb.

(** hammer2_chain_cmp() of two children. *)
Definition hammer2_chain_cmp (c1 c2 : child) : Z :=
  if key_last (cd_bref c1) <? br_key (cd_bref c2) then -1
  else if key_last (cd_bref c2) <? br_key (cd_bref c1) then 1
  else 0.

(** RB_INSERT(): [None] on a collision. *)
Fixpoint RB_INSERT (c : child) (l : list child) : option (list child) :=
  match l with
  | [] => Some [c]
  | a :: l' =>
      let cmp := hammer2_chain_cmp c a in
      if cmp <? 0 then Some (c :: l)
      else if 0 <? cmp then match RB_INSERT c l' with Some l' => Some (a :: l') | None => None end
      else None
  end.

Definition at_child (key : Z) (c : child) : bool := br_key (cd_bref c) =? key.
Definition RB_REMOVE (key : Z) (l : list child) : list child := List.filter (fun c => negb (at_child key c)) l.

(** hammer2_chain_insert() of a child: [live] for INSERT_LIVE. *)
Definition hammer2_chain_insert (p : parent) (c : child) (live : bool) : option (parent * child) :=
  let c := cd_set c HAMMER2_CHAIN_ONRBTREE in
  match RB_INSERT c (pa_rbtree p) with
  | None => None
  | Some rb => Some (set_children p (if live then pa_live_count p + 1 else pa_live_count p) rb, c)
  end.

(** hammer2_chain_get() of an entry: a child that is in the block map. *)
Definition hammer2_chain_get (p : parent) (bref : hammer2_blockref) : option (parent * child) :=
  hammer2_chain_insert p (mkChild bref HAMMER2_CHAIN_BLKMAPPED) false.

(** _hammer2_chain_delete_helper(): the node, the child, the old blockref, the
    error and hpanic(); [modify] is the error of hammer2_chain_modify(). *)
Definition delete_helper (modify : Z) (n : node) (c : child)
    : option (node * child * option hammer2_blockref * Z * bool) :=
  if has (cd_flags c) HAMMER2_CHAIN_DELETED then None else
  let p := nd_parent n in
  let detach p c :=
    (set_children p (pa_live_count p - 1) (RB_REMOVE (br_key (cd_bref c)) (pa_rbtree p)),
     cd_clear (cd_set c HAMMER2_CHAIN_DELETED) HAMMER2_CHAIN_ONRBTREE) in
  if has (cd_flags c) HAMMER2_CHAIN_BLKMAPPED then
    if nz modify then Some (n, c, None, modify, false) else
    if negb (has (cd_flags c) HAMMER2_CHAIN_ONRBTREE) then None else
    let '(p, c) := detach p c in
    match hammer2_base_delete p (nd_base n) (zlen (nd_base n)) c with
    | None => None
    | Some r => Some (mkNode (dl_parent r) (dl_base r), dl_chain r, dl_obref r, 0, dl_hpanic r)
    end
  else if has (cd_flags c) HAMMER2_CHAIN_ONRBTREE then
    let '(p, c) := detach p c in Some (mkNode p (nd_base n), c, None, 0, false)
  else Some (n, cd_set c HAMMER2_CHAIN_DELETED, None, 0, false).

(** hammer2_chain_create() of a chain that was deleted elsewhere.  [None]
    also where the table has no slot left and a block would be created below
    the new one. *)
Definition reattach (n : node) (c : child) : option (node * child) :=
  let c := cd_clear c HAMMER2_CHAIN_DELETED in
  let p := hammer2_chain_countbrefs (nd_parent n) (Some (nd_base n)) (zlen (nd_base n)) in
  if negb ((0 <=? pa_live_count p) && (pa_live_count p <=? zlen (nd_base n))) then None else
  if pa_live_count p =? zlen (nd_base n) then None else
  match hammer2_chain_insert p c true with
  | None => None
  | Some (p, c) => Some (mkNode p (nd_base n), cd_set c HAMMER2_CHAIN_UPDATE)
  end.

(** The child as it is after its flags changed. *)
Definition set_child (p : parent) (c : child) : parent :=
  set_children p (pa_live_count p)
    ((fun a => if at_child (br_key (cd_bref c)) a then c else a) <$> pa_rbtree p).

(** hammer2_chain_rename_obref(): the child goes under the new block, with the
    blockref its old parent had for it.  The flag is hpanic(). *)
Definition rename_obref (n : node) (c : child) (obref : option hammer2_blockref) : option (node * bool) :=
  match reattach n c with
  | None => None
  | Some (n, c) =>
      match obref with
      | None => Some (mkNode (set_child (nd_parent n) c) (nd_base n), false)
      | Some o =>
          if has (cd_flags c) HAMMER2_CHAIN_BLKMAPPED then None else
          match hammer2_base_insert (nd_parent n) (nd_base n) (zlen (nd_base n)) (Some c) o with
          | None => None
          | Some r =>
              let c := default c (in_chain r) in
              let c :=
                if decide (o = cd_bref c) then cd_clear c HAMMER2_CHAIN_UPDATE
                else cd_set c (HAMMER2_CHAIN_BLKMAPUPD ||| HAMMER2_CHAIN_UPDATE) in
              Some (mkNode (set_child (in_parent r) c) (in_base r), in_hpanic r)
          end
      end
  end.

(** ** Creating the block *)

(** The loop over the elements of the parent.  [loops] is what is left of its
    100000 rounds, [maxl] of [maxloops - 1], and [modify] gives the error of the
    modifications of the parent.  The old parent, the new block, the error and
    hpanic(). *)
Fixpoint move_loop (modify : nat -> Z) (loops maxl : nat) (P N : node) (key keybits key_beg : Z) (hp : bool)
    : option (node * node * Z * bool) :=
  match loops with
  | O => Some (P, N, HAMMER2_ERROR_EIO, true)
  | S loops =>
      let base := nd_base P in
      match hammer2_combined_find (nd_parent P) (Some base) (zlen base) key_beg HAMMER2_KEY_MAX with
      | None => None
      | Some (p, _, _, None) => Some (mkNode p base, N, 0, hp)
      | Some (p, _, chain, Some bref) =>
          let key_next := key_stop bref in
          let next P N hp :=
            match maxl with
            | O => Some (P, N, HAMMER2_ERROR_EIO, true)
            | S maxl =>
                if (key_next =? 0) || (HAMMER2_KEY_MAX <? key_next) then Some (P, N, 0, hp)
                else move_loop modify loops maxl P N key keybits key_next hp
            end in
          if negb (in_block key keybits (br_key bref)) then next (mkNode p base) N hp else
          match (match chain with Some c => Some (p, c) | None => hammer2_chain_get p bref end) with
          | None => None
          | Some (p, c) =>
              if has (cd_flags c) HAMMER2_CHAIN_DELETED
              then move_loop modify loops maxl (mkNode p base) N key keybits key_beg hp
              else
                match delete_helper (modify loops) (mkNode p base) c with
                | None => None
                | Some (P, c, obref, error, hp1) =>
                    if nz error then Some (P, N, HAMMER2_ERROR_EIO, true) else
                    match rename_obref N c obref with
                    | None => None
                    | Some (N, hp2) => next P N (hp || hp1 || hp2)
                    end
                end
          end
      end
  end.

(** [if (++loops > 100000)]. *)
Definition move_rounds : nat := Z.to_nat 100000.
#[global] Opaque move_rounds.

Inductive ind_ret := RetNull | RetParent | RetIchain.

Record ind_result := mkInd {
  ir_parent : node;
  ir_ichain : option node;      (* the new block, once it is in the parent *)
  ir_ret : ind_ret;             (* what is returned *)
  ir_error : Z;
  ir_hpanic : bool
}.

(** The helper for the type of the element that is to be created. *)
Definition indkey_for (p : parent) (base : list hammer2_blockref) (for_type key keybits ncount : Z) : option indkey :=
  if for_freemap for_type then hammer2_chain_indkey_freemap p base key
  else if for_type =? HAMMER2_BREF_TYPE_DATA then hammer2_chain_indkey_file p base key ncount
  else if (for_type =? HAMMER2_BREF_TYPE_DIRENT) || (for_type =? HAMMER2_BREF_TYPE_INODE)
  then hammer2_chain_indkey_dir p base key keybits ncount
  else Some (mkIndkey p key (-1) true).

(** A fresh block, modified, of [n] slots. *)
Definition fresh_node (b : hammer2_blockref) (n : Z) : node :=
  mkNode (mkParent b 0 0 0 0 []) (replicate (Z.to_nat n) bref_zero).

(** [modify_p] and [modify_i] are the errors of the modifications of the parent
    and of the new block ahead of the loop. *)
Definition hammer2_chain_create_indirect (modify_p modify_i : Z) (modify : nat -> Z) (dir : bool) (P : node)
    (create_key create_bits for_type : Z) : option ind_result :=
  if nz modify_p then Some (mkInd P None RetNull modify_p false) else
  let pb := pa_bref (nd_parent P) in
  match ind_nbytes (br_type pb) for_type dir (zlen (nd_base P)) with
  | None => None
  | Some nbytes =>
      match indkey_for (nd_parent P) (nd_base P) for_type create_key create_bits (ind_ncount (br_keybits pb) nbytes) with
      | None => None
      | Some ik =>
          let P := mkNode (ik_parent ik) (nd_base P) in
          let keybits := ik_keybits ik in
          if keybits <? 0 then Some (mkInd P None RetNull HAMMER2_ERROR_EIO true) else
          if 64 <=? keybits then None else
          let key := ik_key ik &~ (key_span keybits - 1) in
          match hammer2_getradix nbytes with
          | None => None
          | Some radix =>
              let ib := ind_bref (br_methods pb) for_type key keybits radix in
              if nz modify_i then Some (mkInd P None RetNull modify_i false) else
              if ind_misfit pb ib then Some (mkInd P None RetNull HAMMER2_ERROR_EIO false) else
              match move_loop modify move_rounds maxloops P (fresh_node ib (nbytes / HAMMER2_BLOCKREF_BYTES))
                  key keybits 0 false with
              | None => None
              | Some (P, N, error, hp) =>
                  match hammer2_chain_insert (nd_parent P) (mkChild (pa_bref (nd_parent N)) 0) true with
                  | None => None
                  | Some (p, _) =>
                      Some (mkInd (mkNode p (nd_base P)) (Some N)
                        (if in_block create_key keybits key then RetIchain else RetParent) error hp)
                  end
              end
          end
      end
  end.
