(* ===== verification/IndirectProof.v ===== *)
(** The key range of a new indirect block: the scans visit every live element
    once, in order, and the range chosen for a directory separates the elements
    and takes in at least half of them. *)
From S2P Require Import Prelude Disk Subr BlockTable BlockTableProof BlockView Indirect.
From Stdlib Require Import ZArith Lia Bool.
From stdpp Require Import base list sorting.
Open Scope Z_scope.

(** ** The scan *)

Definition live (l : list elem) : list hammer2_blockref :=
  snd <$> List.filter (fun v : elem => negb (cd_deleted v.1)) l.

Fixpoint fold_opt {A B : Type} (f : B -> A -> option B) (acc : B) (l : list A) : option B :=
  match l with
  | [] => Some acc
  | x :: l => match f acc x with Some acc => fold_opt f acc l | None => None end
  end.

Definition range_end (b : hammer2_blockref) : Z := br_key b + 2 ^ br_keybits b.

Lemma next_after_max b : next_after (u64 (HAMMER2_KEY_MAX + 1)) (Some b) = key_stop b.
Proof.
  change (u64 (HAMMER2_KEY_MAX + 1)) with 0. unfold next_after, truncate, nz.
  destruct (Z.eqb_spec (key_stop b) 0) as [->|]; cbn [negb]; [done|]. by rewrite orb_true_r.
Qed.

Lemma view_elem_ok p base v : view_ok p base -> v ∈ view p base -> bref_ok v.2.
Proof. intros Hv Hin. eapply brefs_ok_elem; [by apply view_sorted|]. by apply list_elem_of_fmap_2. Qed.

Lemma view_ok_cache p base ci : view_ok p base -> view_ok (set_cache_index p ci) base.
Proof. intros [[H1 H2 H3] H4 H5]. split; [by split|done|done]. Qed.

(** The search from the end of what was visited finds the next element. *)
Lemma nearest_rest p base seen rest kb : view_ok p base -> view p base = seen ++ rest ->
  (forall v, v ∈ seen -> range_end v.2 <= kb) -> (forall v, v ∈ rest -> kb <= br_key v.2) ->
  nearest kb HAMMER2_KEY_MAX (view p base) = head rest.
Proof.
  intros Hv E Hd Hr. destruct rest as [|v rest].
  - rewrite app_nil_r in E. apply find_none_eq. intros w Hw. destruct (hits kb HAMMER2_KEY_MAX w.2) eqn:Eh; [|done].
    apply hits_spec in Eh; [|by apply (view_elem_ok p base)]. rewrite E in Hw. specialize (Hd w Hw). unfold range_end in Hd. lia.
  - assert (v ∈ view p base) as Hin by (rewrite E; apply elem_of_app; right; apply elem_of_cons; by left).
    assert (Hvok := view_elem_ok p base v Hv Hin). assert (Hs := span_pos _ Hvok).
    assert (Hk := Hr v ltac:(apply elem_of_cons; by left)). apply (find_first_eq snd); [by apply view_sorted|done| |].
    + apply hits_spec; [done|]. destruct Hvok as (_ & _ & Hlast). unfold HAMMER2_KEY_MAX. lia.
    + intros w Hw Eh. apply hits_spec in Eh; [|by apply (view_elem_ok p base)]. rewrite E in Hw.
      apply elem_of_app in Hw as [Hw|[->|Hw]%elem_of_cons]; [|lia|].
      * specialize (Hd w Hw). unfold range_end in Hd. lia.
      * assert (Hso := view_sorted p base Hv). rewrite E, fmap_app in Hso. apply brefs_ok_app in Hso as (_ & Hso & _).
        cbn [fmap list_fmap] in Hso. apply brefs_ok_cons in Hso as (_ & _ & Hso).
        assert (before v.2 w.2) as Hb by (by apply Hso, list_elem_of_fmap_2). unfold before in Hb. lia.
Qed.

Lemma scan_live_rest {B : Type} (body : B -> hammer2_blockref -> option B) base rest : forall seen loops p kb acc,
  view_ok p base -> view p base = seen ++ rest -> (forall v, v ∈ seen -> range_end v.2 <= kb) ->
  (forall v, v ∈ rest -> kb <= br_key v.2) -> 0 <= kb < 2 ^ 64 -> (length rest < loops)%nat ->
  exists ci, scan_live body loops p base kb acc =
    match fold_opt body acc (live rest) with
    | Some acc => ScanDone (set_cache_index p ci) acc
    | None => ScanPanic (set_cache_index p ci)
    end.
Proof.
  induction rest as [|v rest IH]; intros seen loops p kb acc Hv E Hd Hr Hkb Hl; (destruct loops as [|loops]; [lia|]);
    cbn [scan_live]; (destruct (combined_find_spec p base kb HAMMER2_KEY_MAX Hv) as [ci ->]; [unfold HAMMER2_KEY_MAX; lia|done|]);
    rewrite (nearest_rest p base seen _ kb Hv E Hd Hr); cbn [head].
  { by exists ci. }
  cbn [fmap option_fmap option_map mbind option_bind]. rewrite next_after_max.
  assert (v ∈ view p base) as Hin by (rewrite E; apply elem_of_app; right; apply elem_of_cons; by left).
  assert (Hvok := view_elem_ok p base v Hv Hin). assert (Hs := span_pos _ Hvok).
  destruct (key_stop_ord v.2 Hvok) as [Hsu Hso].
  assert (Hso' := view_sorted p base Hv). rewrite E, fmap_app in Hso'. apply brefs_ok_app in Hso' as (_ & Hso' & _).
  cbn [fmap list_fmap] in Hso'. apply brefs_ok_cons in Hso' as (_ & Hrok & Hafter).
  assert (forall w, w ∈ rest -> range_end v.2 <= br_key w.2) as Hr'.
  { intros w Hw. by apply Hafter, list_elem_of_fmap_2. }
  assert (key_stop v.2 = 0 -> rest = []) as Hlast.
  { intros E0. rewrite E0 in Hso. destruct rest as [|w rest]; [done|]. exfalso.
    assert (Hw := Hr' w ltac:(apply elem_of_cons; by left)). unfold range_end in Hw. rewrite <- Hso in Hw.
    assert (bref_ok w.2) as (H1 & H2 & H3) by (eapply brefs_ok_elem; [exact Hrok|]; apply elem_of_cons; by left).
    assert (0 < 2 ^ br_keybits w.2) by (apply Z.pow_pos_nonneg; lia). cbn [key_ord Z.eqb] in Hw. lia. }
  assert (forall acc, key_stop v.2 <> 0 -> exists ci', scan_live body loops (set_cache_index p ci) base (key_stop v.2) acc =
    match fold_opt body acc (live rest) with
    | Some acc => ScanDone (set_cache_index p ci') acc
    | None => ScanPanic (set_cache_index p ci')
    end) as Hnext.
  { intros acc' Hne. assert (key_stop v.2 = range_end v.2) as Ek.
    { unfold key_ord in Hso. destruct (Z.eqb_spec (key_stop v.2) 0); [done|]. unfold range_end. lia. }
    rewrite Ek. destruct (IH (seen ++ [v]) loops (set_cache_index p ci) (range_end v.2) acc') as [ci' ->]; try done.
    - by apply view_ok_cache.
    - rewrite <- app_assoc. exact E.
    - intros w [Hw|Hw]%elem_of_app; [specialize (Hd w Hw)|apply list_elem_of_singleton in Hw as ->; lia].
      specialize (Hr v ltac:(apply elem_of_cons; by left)). unfold range_end in *. lia.
    - rewrite <- Ek. exact Hsu.
    - cbn in Hl. lia.
    - by exists ci'. }
  unfold live. cbn [List.filter]. destruct v as [c b]. cbn [fst snd] in *. destruct (cd_deleted c); cbn [negb].
  - destruct (Z.eqb_spec (key_stop b) 0) as [E0|Hne]; cbn [orb].
    + rewrite (Hlast E0). by exists ci.
    + destruct (Z.ltb_spec HAMMER2_KEY_MAX (key_stop b)); [unfold is_u64, HAMMER2_KEY_MAX in *; lia|]. by apply Hnext.
  - cbn [fmap list_fmap fold_opt snd]. destruct (body acc b) as [acc'|]; [|by exists ci].
    destruct (Z.eqb_spec (key_stop b) 0) as [E0|Hne]; [rewrite (Hlast E0); by exists ci|]. by apply Hnext.
Qed.

(** The scan from the lowest key. *)
Lemma scan_live_spec {B : Type} (body : B -> hammer2_blockref -> option B) loops p base acc :
  view_ok p base -> (length (view p base) < loops)%nat ->
  exists ci, scan_live body loops p base 0 acc =
    match fold_opt body acc (live (view p base)) with
    | Some acc => ScanDone (set_cache_index p ci) acc
    | None => ScanPanic (set_cache_index p ci)
    end.
Proof.
  intros Hv Hl. apply (scan_live_rest body base (view p base) []); try done; [intros v Hin; by apply elem_of_nil in Hin|].
  intros v Hin. by destruct (view_elem_ok p base v Hv Hin).
Qed.

(** ** Keys that agree above a bit *)

Definition same_above (m x y : Z) : Prop := forall n, m <= n -> Z.testbit x n = Z.testbit y n.

Lemma same_above_mono m m' x y : m <= m' -> same_above m x y -> same_above m' x y.
Proof. intros Hm H n Hn. apply H. lia. Qed.

Lemma in_block_bits key kb bkey : 0 <= kb < 64 -> in_block key kb bkey = true <-> same_above kb key bkey.
Proof.
  intros Hk. unfold in_block, rounddown2, nz. rewrite key_span_eq by done. rewrite negb_involutive, Z.eqb_eq.
  rewrite Z.sub_1_r, <- Z.ones_equiv. split.
  - intros E n Hn. assert (Z.testbit (Z.ldiff (Z.lxor key bkey) (Z.ones kb)) n = false) as T by (by rewrite E, Z.bits_0).
    rewrite Z.ldiff_spec, Z.lxor_spec, Z.testbit_ones_nonneg in T by lia.
    destruct (Z.ltb_spec n kb); [lia|]. rewrite andb_true_r in T.
    by destruct (Z.testbit key n), (Z.testbit bkey n).
  - intros H. apply Z.bits_inj'. intros n Hn. rewrite Z.ldiff_spec, Z.lxor_spec, Z.testbit_ones_nonneg, Z.bits_0 by lia.
    destruct (Z.ltb_spec n kb); [by rewrite andb_false_r|]. rewrite (H n) by lia. by rewrite xorb_nilpotent.
Qed.

Lemma has_span x m : 0 <= m < 64 -> has x (key_span m) = Z.testbit x m.
Proof.
  intros Hm. unfold has. rewrite key_span_eq by done. destruct (nz_spec (Z.land x (2 ^ m))) as [H|H].
  - destruct (Z.testbit x m) eqn:E; [done|]. exfalso. apply H. apply Z.bits_inj'. intros n Hn.
    rewrite Z.land_spec, Z.bits_0, Z.pow2_bits_eqb by lia. destruct (Z.eqb_spec m n) as [->|]; [by rewrite E|apply andb_false_r].
  - destruct (Z.testbit x m) eqn:E; [|done]. exfalso.
    assert (Z.testbit (Z.land x (2 ^ m)) m = true) as T by (rewrite Z.land_spec, E, Z.pow2_bits_true by lia; done).
    rewrite Z.land_spec in T. assert (Z.land x (2 ^ m) = 0) as E0 by (destruct (Z.eq_dec (Z.land x (2 ^ m)) 0); [done|by destruct H]).
    rewrite <- Z.land_spec, E0, Z.bits_0 in T. done.
Qed.

(** The loop that widens the range up to the new key. *)
Lemma widen_spec key bkey fuel nk : is_u64 key -> is_u64 bkey -> 0 <= nk <= 64 -> 64 - nk < Z.of_nat fuel ->
  let n := widen fuel key bkey nk in nk <= n <= 64 /\ same_above n key bkey.
Proof.
  intros Hk Hb. revert nk. induction fuel as [|fuel IH]; intros nk Hn Hf; [lia|]. cbn [widen].
  assert (same_above 64 key bkey) as H64 by (intros n Hn'; by rewrite !u64_testbit_high).
  destruct (Z.ltb_spec nk 64); cbn [andb].
  - assert (H0 := in_block_bits key nk bkey ltac:(lia)). unfold in_block in H0. destruct (nz _) eqn:E.
    + destruct (IH (nk + 1)) as [H1 H2]; [lia|lia|]. cbv zeta. split; [lia|done].
    + split; [lia|]. by apply H0.
  - assert (nk = 64) as -> by lia. split; [lia|done].
Qed.

Lemma widen_ge key bkey fuel nk : nk <= widen fuel key bkey nk.
Proof.
  revert nk. induction fuel as [|fuel IH]; intros nk; cbn [widen]; [lia|]. destruct (_ && _); [|lia]. specialize (IH (nk + 1)). lia.
Qed.

Lemma widen_le key bkey m fuel nk : 0 <= nk <= m -> m <= 64 -> same_above m key bkey -> widen fuel key bkey nk <= m.
Proof.
  intros Hn Hm Hs. revert nk Hn. induction fuel as [|fuel IH]; intros nk Hn; cbn [widen]; [lia|].
  destruct (Z.ltb_spec nk 64); cbn [andb]; [|lia]. assert (H0 := in_block_bits key nk bkey ltac:(lia)). unfold in_block in H0.
  destruct (nz _); [|lia]. apply IH. destruct (Z.eq_dec nk m) as [->|]; [|lia]. by apply H0 in Hs.
Qed.

(** Ranges of keys that start on a multiple of their size. *)
Definition aligned (b : hammer2_blockref) : Prop := br_key b mod 2 ^ br_keybits b = 0.

(** An aligned range ends inside the larger aligned range its first key is in. *)
Lemma mod_room x m n : 0 <= m <= n -> x mod 2 ^ m = 0 -> x mod 2 ^ n + 2 ^ m <= 2 ^ n.
Proof.
  intros Hm Hx. assert (2 ^ n = 2 ^ (n - m) * 2 ^ m) as En by (rewrite <- Z.pow_add_r by lia; f_equal; lia).
  assert (0 < 2 ^ m) by (apply Z.pow_pos_nonneg; lia). assert (0 < 2 ^ (n - m)) by (apply Z.pow_pos_nonneg; lia).
  assert ((x mod 2 ^ n) mod 2 ^ m = 0) as Hxm.
  { rewrite Z.mod_mod_divide; [done|]. exists (2 ^ (n - m)). done. }
  assert (Xb := Z.mod_pos_bound x (2 ^ n) ltac:(nia)). apply Z.mod_divide in Hxm as [q Hq]; [|lia].
  rewrite Hq, En in *. assert (q < 2 ^ (n - m)) by (apply (Z.mul_lt_mono_pos_r (2 ^ m)); lia).
  apply Z.le_trans with ((q + 1) * 2 ^ m); [lia|]. apply Z.mul_le_mono_nonneg_r; lia.
Qed.

Lemma same_above_div k x y : 0 <= k -> same_above k x y <-> x / 2 ^ k = y / 2 ^ k.
Proof.
  intros Hk. rewrite <- !Z.shiftr_div_pow2 by lia. split; intros H.
  - apply Z.bits_inj'. intros i Hi. rewrite !Z.shiftr_spec by lia. apply H. lia.
  - intros n Hn. replace n with (n - k + k) by lia. rewrite <- !Z.shiftr_spec by lia. by rewrite H.
Qed.

(** Two aligned ranges whose first keys agree above the larger radix meet. *)
Lemma aligned_apart x m y n : 0 <= m -> 0 <= n -> x mod 2 ^ m = 0 -> y mod 2 ^ n = 0 ->
  x + 2 ^ m <= y \/ y + 2 ^ n <= x -> ~ same_above (Z.max m n) x y.
Proof.
  intros Hm Hn Hx Hy Hd H. apply same_above_div in H; [|lia]. set (k := Z.max m n) in *.
  assert (0 < 2 ^ k) as Hp by (apply Z.pow_pos_nonneg; lia).
  assert (X := Z.div_mod x (2 ^ k) ltac:(lia)). assert (Y := Z.div_mod y (2 ^ k) ltac:(lia)). rewrite H in X.
  assert (Xb := Z.mod_pos_bound x (2 ^ k) Hp). assert (Yb := Z.mod_pos_bound y (2 ^ k) Hp).
  destruct (Z.max_spec m n) as [[H1 H2]|[H1 H2]]; fold k in H2.
  - assert (R := mod_room x m k ltac:(lia) Hx). rewrite H2 in *. lia.
  - assert (R := mod_room y n k ltac:(lia) Hy). rewrite H2 in *. lia.
Qed.

(** ** The two halves of a directory *)

Lemma countb_split {A} (f : A -> bool) l : countb f l + countb (fun x => negb (f x)) l = Z.of_nat (length l).
Proof. induction l as [|x l IH]; [done|]. rewrite !countb_cons. cbn [length]. destruct (f x); cbn [negb]; lia. Qed.

(** The range is no wider than one that has the key and the elements. *)
Lemma dir_count_le key m d b d' : 0 <= dc_keybits d <= m -> m <= 64 -> same_above m key (br_key b) -> 0 <= br_keybits b <= m ->
  dir_count key d b = Some d' -> 0 <= dc_keybits d' <= m.
Proof.
  intros Hd Hm Hs Hb. unfold dir_count. destruct (_ && _); [done|].
  set (nk := if dc_keybits d <? br_keybits b then br_keybits b else dc_keybits d).
  assert (0 <= nk <= m) as Hnk by (unfold nk; zcases).
  assert (X := widen_le key (br_key b) m 65 nk Hnk Hm Hs). assert (Y := widen_ge key (br_key b) 65 nk).
  set (K := widen 65 key (br_key b) nk) in *. set (d1 := if dc_keybits d =? K then d else collapse key d K (K - 1)).
  assert (dc_keybits d1 = K) as Ed.
  { unfold d1. destruct (Z.eqb_spec (dc_keybits d) K); [done|]. unfold collapse. by destruct (has _ _). }
  destruct (has _ _); intros E; injection E as <-; cbn [dc_keybits]; lia.
Qed.

Lemma dir_fold_le key m l d d' : 0 <= dc_keybits d <= m -> m <= 64 ->
  (forall b, b ∈ l -> same_above m key (br_key b) /\ 0 <= br_keybits b <= m) ->
  fold_opt (dir_count key) d l = Some d' -> dc_keybits d' <= m.
Proof.
  revert d. induction l as [|b l IH]; intros d Hd Hm Hl E; cbn [fold_opt] in E; [injection E as <-; lia|].
  destruct (dir_count key d b) as [d1|] eqn:E1; [|done]. destruct (Hl b ltac:(apply elem_of_cons; by left)) as [H1 H2].
  apply (IH d1); [by apply (dir_count_le key m d b)|done| |done]. intros x Hx. apply Hl, elem_of_cons. by right.
Qed.

(** The loop that makes room for [ncount] keys goes no further than it has to. *)
Lemma expand_le key ncount fuel d : 0 <= dc_keybits d -> 63 - dc_keybits d < Z.of_nat fuel -> ncount <= 2 ^ 63 -> dc_keybits d <= 63 ->
  let d' := expand fuel key ncount d in dc_keybits d' = dc_keybits d \/ (1 <= dc_keybits d' /\ 2 ^ (dc_keybits d' - 1) < ncount).
Proof.
  revert d. induction fuel as [|fuel IH]; intros d Hd Hf Hn H63; [lia|]. cbn [expand]. rewrite key_span_eq by lia.
  destruct (Z.ltb_spec (2 ^ dc_keybits d) ncount) as [Hlt|]; [|by left]. right.
  assert (dc_keybits d < 63) by (destruct (Z.eq_dec (dc_keybits d) 63) as [E|]; [rewrite E in Hlt; lia|lia]).
  set (c := collapse key d (dc_keybits d + 1) (dc_keybits d + 1)).
  assert (dc_keybits c = dc_keybits d + 1) as Ec by (unfold c, collapse; by destruct (has _ _)).
  destruct (IH c) as [E|E]; [lia|lia|done|lia| |done]. rewrite E, Ec. replace (dc_keybits d + 1 - 1) with (dc_keybits d) by lia. lia.
Qed.

Section Dir.
Context (key kb0 : Z).
Hypothesis Hkey : is_u64 key.
Hypothesis Hkb0 : 0 <= kb0 < 64.
Hypothesis Hkal : key mod 2 ^ kb0 = 0.

(** An element of the table, apart from the one that is to be created. *)
Definition fits (b : hammer2_blockref) : Prop :=
  bref_ok b /\ aligned b /\ (key + 2 ^ kb0 <= br_key b \/ range_end b <= key).

Definition upper_half (K : Z) (b : hammer2_blockref) : bool := Z.testbit (br_key b) (K - 1).

(** The range counted so far holds the key and the elements, which are smaller
    than it, and the counts are those of its halves. *)
Record dir_inv (d : dir_counts) (l : list hammer2_blockref) : Prop := {
  di_bits : kb0 <= dc_keybits d <= 64;
  di_pos : l <> [] -> 1 <= dc_keybits d;
  di_same : forall b, b ∈ l -> same_above (dc_keybits d) key (br_key b) /\ br_keybits b < dc_keybits d;
  di_lo : dc_lo d = countb (fun b => negb (upper_half (dc_keybits d) b)) l;
  di_hi : dc_hi d = countb (upper_half (dc_keybits d)) l
}.

Lemma fits_u64 b : fits b -> is_u64 (br_key b).
Proof. intros ((H1 & H2 & H3) & _). assert (0 < 2 ^ br_keybits b) by (apply Z.pow_pos_nonneg; lia). unfold is_u64. lia. Qed.

(** Once the range reaches a new bit all elements are on the side of the key. *)
Lemma collapse_inv d l K k : dir_inv d l -> dc_keybits d < K <= 64 ->
  dir_inv (mkDir K (dc_lo (collapse key d k (K - 1))) (dc_hi (collapse key d k (K - 1)))) l.
Proof.
  intros [H1 H2 H3 H4 H5] HK. assert (Hsum := countb_split (upper_half (dc_keybits d)) l). rewrite <- H4, <- H5 in Hsum.
  assert (forall b, b ∈ l -> upper_half K b = Z.testbit key (K - 1)) as Hside.
  { intros b Hb. destruct (H3 b Hb) as [Hs _]. symmetry. apply Hs. lia. }
  assert (Hsum' := countb_split (upper_half K) l). unfold collapse. rewrite has_span by lia.
  split; cbn [dc_keybits]; [lia|lia| | |].
  - intros b Hb. destruct (H3 b Hb) as [Hs Hk]. split; [|lia]. eapply same_above_mono; [|exact Hs]. lia.
  - destruct (Z.testbit key (K - 1)); cbn [dc_lo].
    + rewrite countb_none; [done|]. intros b Hb. by rewrite Hside.
    + rewrite (countb_none (upper_half K)) in Hsum' by done. lia.
  - destruct (Z.testbit key (K - 1)); cbn [dc_hi].
    + rewrite (countb_none (fun b => negb (upper_half K b))) in Hsum'; [lia|]. intros b Hb. by rewrite Hside.
    + by rewrite countb_none.
Qed.

Lemma dir_count_inv d l b : dir_inv d l -> fits b -> exists d', dir_count key d b = Some d' /\ dir_inv d' (l ++ [b]).
Proof.
  intros Hinv Hb. assert (Hbu := fits_u64 b Hb). destruct Hb as (Hbok & Hal & Hap). assert (Hbok' := Hbok).
  destruct Hbok' as (Hb1 & Hb2 & Hb3). assert (Hd := di_bits _ _ Hinv). unfold dir_count.
  destruct (Z.ltb_spec 64 (br_keybits b)); [lia|]. rewrite andb_false_r.
  set (nk := if dc_keybits d <? br_keybits b then br_keybits b else dc_keybits d).
  assert (Z.max (dc_keybits d) (br_keybits b) = nk) as Enk by (unfold nk; zcases).
  destruct (widen_spec key (br_key b) 65 nk Hkey Hbu ltac:(lia) ltac:(lia)) as [Hw1 Hw2].
  set (K := widen 65 key (br_key b) nk) in *.
  assert (Z.max kb0 (br_keybits b) < K) as HK.
  { destruct (Z.lt_ge_cases (Z.max kb0 (br_keybits b)) K) as [|Hge]; [done|]. exfalso.
    apply (aligned_apart key kb0 (br_key b) (br_keybits b)); try done; try lia. eapply same_above_mono; [|exact Hw2]. done. }
  set (d' := if dc_keybits d =? K then d else collapse key d K (K - 1)).
  assert (dir_inv d' l /\ dc_keybits d' = K) as [Hinv' EK].
  { unfold d'. destruct (Z.eqb_spec (dc_keybits d) K); [done|]. split.
    - assert (X := collapse_inv d l K K Hinv ltac:(lia)). unfold collapse in *. by destruct (has _ _).
    - unfold collapse. by destruct (has _ _). }
  assert (has (br_key b) (key_span (K - 1)) = upper_half K b) as -> by (apply has_span; lia).
  destruct Hinv' as [I1 I2 I3 I4 I5]. rewrite EK in *.
  destruct (upper_half K b) eqn:Eu; eexists; (split; [done|]); split; cbn [dc_keybits dc_lo dc_hi]; rewrite ?EK; try lia.
  all: try (intros c [Hc|Hc]%elem_of_app; [by apply I3|apply list_elem_of_singleton in Hc as ->; split; [done|lia]]).
  all: rewrite countb_snoc, Eu; cbn [negb]; lia.
Qed.

Lemma dir_fold l1 l2 d : dir_inv d l1 -> Forall fits l2 ->
  exists d', fold_opt (dir_count key) d l2 = Some d' /\ dir_inv d' (l1 ++ l2).
Proof.
  revert l1 d. induction l2 as [|b l2 IH]; intros l1 d Hinv Hf; [exists d; by rewrite app_nil_r|].
  apply Forall_cons in Hf as [Hb Hf]. destruct (dir_count_inv d l1 b Hinv Hb) as (d' & E & Hinv').
  cbn [fold_opt]. rewrite E. destruct (IH (l1 ++ [b]) d' Hinv' Hf) as (d'' & E' & H). exists d''. split; [done|].
  by rewrite <- app_assoc in H.
Qed.

(** The loop that makes room for [ncount] keys. *)
Lemma expand_inv l ncount fuel d : ncount <= 2 ^ 63 -> 0 <= dc_keybits d <= 63 -> 63 - dc_keybits d < Z.of_nat fuel ->
  dir_inv (mkDir (dc_keybits d + 1) (dc_lo d) (dc_hi d)) l ->
  let d' := expand fuel key ncount d in
  dc_keybits d <= dc_keybits d' <= 63 /\ ncount <= 2 ^ dc_keybits d' /\
  dir_inv (mkDir (dc_keybits d' + 1) (dc_lo d') (dc_hi d')) l.
Proof.
  intros Hn. revert d. induction fuel as [|fuel IH]; intros d Hd Hf Hinv; [lia|]. cbn [expand].
  rewrite key_span_eq by lia. destruct (Z.ltb_spec (2 ^ dc_keybits d) ncount) as [Hlt|]; [|by split_and!; try lia].
  assert (dc_keybits d < 63) as H63.
  { destruct (Z.eq_dec (dc_keybits d) 63) as [E|]; [rewrite E in Hlt; lia|lia]. }
  set (c := collapse key d (dc_keybits d + 1) (dc_keybits d + 1)).
  assert (dc_keybits c = dc_keybits d + 1) as Ec by (unfold c, collapse; by destruct (has _ _)).
  destruct (IH c) as (H1 & H2 & H3); [lia|lia| |].
  - rewrite Ec. assert (X := collapse_inv _ l (dc_keybits d + 1 + 1) (dc_keybits d + 1) Hinv ltac:(cbn; lia)).
    replace (dc_keybits d + 1 + 1 - 1) with (dc_keybits d + 1) in X by lia. exact X.
  - cbv zeta. split_and!; try done; lia.
Qed.
End Dir.

(** The key of the chosen half. *)
Lemma half_bits key kb : is_u64 key -> 0 <= kb < 64 ->
  let hi := key ||| key_span kb in
  let lo := key & u64 (Z.shiftl (u64 (Z.lnot 1)) kb) in
  (is_u64 hi /\ Z.testbit hi kb = true /\ same_above (kb + 1) hi key) /\
  (is_u64 lo /\ Z.testbit lo kb = false /\ same_above (kb + 1) lo key).
Proof.
  intros Hk Hb hi lo. change (u64 (Z.lnot 1)) with (ones_at 1 63) in lo.
  assert (forall n, 0 <= n -> Z.testbit hi n = Z.testbit key n || (kb =? n)) as Hhi.
  { intros n Hn. unfold hi. rewrite key_span_eq by done. by rewrite Z.lor_spec, Z.pow2_bits_eqb by lia. }
  assert (forall n, 0 <= n -> Z.testbit lo n = Z.testbit key n && ((n <? 64) && (kb + 1 <=? n))) as Hlo.
  { intros n Hn. unfold lo. rewrite Z.land_spec, testbit_u64, Z.shiftl_spec by lia. f_equal.
    destruct (Z.ltb_spec n 64); [|done]. cbn [andb].
    destruct (Z.lt_ge_cases n kb); [rewrite Z.testbit_neg_r by lia; zcases; done|].
    rewrite testbit_ones_at by lia. zcases; done. }
  split; split_and!.
  - apply is_u64_lor; [done|]. apply u64_range.
  - rewrite Hhi by lia. by rewrite Z.eqb_refl, orb_true_r.
  - intros n Hn. rewrite Hhi by lia. zcases. apply orb_false_r.
  - apply is_u64_bits.
    + intros n Hn. rewrite Hlo by lia. by rewrite u64_testbit_high.
    + unfold lo. apply Z.land_nonneg. left. apply Hk.
  - rewrite Hlo by lia. by zcases; rewrite ?andb_false_r.
  - intros n Hn. rewrite Hlo by lia. destruct (Z.ltb_spec n 64); [zcases; apply andb_true_r|].
    by rewrite u64_testbit_high.
Qed.

(** The elements of a half are those whose bit is the one of its key. *)
Lemma in_half key key' kb bkey : 0 <= kb < 64 -> same_above (kb + 1) key' key -> same_above (kb + 1) key bkey ->
  in_block key' kb bkey = Bool.eqb (Z.testbit bkey kb) (Z.testbit key' kb).
Proof.
  intros Hb H1 H2. apply Bool.eq_iff_eq_true. rewrite in_block_bits, Bool.eqb_true_iff by done. split.
  - intros H. symmetry. apply H. lia.
  - intros E n Hn. destruct (Z.eq_dec n kb) as [->|]; [done|]. rewrite (H1 n), (H2 n) by lia. done.
Qed.

(** The half with more elements holds at least half of them. *)
Lemma half_count key kb0 d l : is_u64 key -> 0 <= kb0 < 64 -> 0 <= dc_keybits d <= 63 ->
  dir_inv key kb0 (mkDir (dc_keybits d + 1) (dc_lo d) (dc_hi d)) l ->
  let key' := if dc_lo d <? dc_hi d then key ||| key_span (dc_keybits d)
    else key & u64 (Z.shiftl (u64 (Z.lnot 1)) (dc_keybits d)) in
  (is_u64 key' /\ same_above (dc_keybits d + 1) key' key) /\
  Z.of_nat (length l) <= 2 * countb (fun b => in_block key' (dc_keybits d) (br_key b)) l.
Proof.
  intros Hk Hkb0 Hkb Hinv. set (kb := dc_keybits d) in *.
  destruct (half_bits key kb Hk ltac:(lia)) as [(U1 & T1 & S1) (U0 & T0 & S0)].
  destruct Hinv as [_ _ I3 I4 I5]. cbn [dc_keybits dc_lo dc_hi] in *. unfold upper_half in *.
  replace (kb + 1 - 1) with kb in * by lia. assert (Hsum := countb_split (fun b => Z.testbit (br_key b) kb) l).
  cbv beta in Hsum. rewrite <- I4, <- I5 in Hsum.
  assert (forall key' c, same_above (kb + 1) key' key -> Z.testbit key' kb = c ->
    countb (fun b => in_block key' kb (br_key b)) l = countb (fun b => Bool.eqb (Z.testbit (br_key b) kb) c) l) as Hcount.
  { intros key' c HS HT. apply countb_ext, Forall_Forall2_diag, Forall_forall. intros b Hb.
    rewrite <- HT. apply (in_half key); [lia|done|]. by apply I3. }
  destruct (Z.ltb_spec (dc_lo d) (dc_hi d)); (split; [done|]).
  - rewrite (Hcount _ true S1 T1), (countb_ext _ (fun b => Z.testbit (br_key b) kb) l l); [lia|].
    apply Forall_Forall2_diag, Forall_forall. intros b _. cbv beta. by destruct (Z.testbit (br_key b) kb).
  - rewrite (Hcount _ false S0 T0), (countb_ext _ (fun b => negb (Z.testbit (br_key b) kb)) l l); [lia|].
    apply Forall_Forall2_diag, Forall_forall. intros b _. cbv beta. by destruct (Z.testbit (br_key b) kb).
Qed.

Lemma indkey_dir_spec p base key kb0 ncount : view_ok p base -> (length (view p base) < maxloops)%nat ->
  is_u64 key -> 0 <= kb0 < 64 -> key mod 2 ^ kb0 = 0 -> ncount <= 2 ^ 63 ->
  Forall (fits key kb0) (live (view p base)) -> live (view p base) <> [] ->
  exists ci key' kb, hammer2_chain_indkey_dir p base key kb0 ncount = Some (mkIndkey (set_cache_index p ci) key' kb false) /\
    0 <= kb < 64 /\ is_u64 key' /\ ncount <= 2 ^ kb /\
    (forall b, b ∈ live (view p base) -> br_keybits b <= kb) /\
    Z.of_nat (length (live (view p base))) <= 2 * countb (fun b => in_block key' kb (br_key b)) (live (view p base)) /\
    same_above (kb + 1) key' key /\
    (forall m, kb0 <= m <= 64 -> (forall b, b ∈ live (view p base) -> same_above m key (br_key b) /\ br_keybits b <= m) ->
      kb < m \/ (1 <= kb /\ 2 ^ (kb - 1) < ncount)).
Proof.
  intros Hv Hlen Hk Hkb Hal Hn Hf Hne. unfold hammer2_chain_indkey_dir.
  destruct (scan_live_spec (dir_count key) maxloops p base (mkDir kb0 0 0) Hv Hlen) as [ci ->].
  set (l := live (view p base)) in *.
  assert (dir_inv key kb0 (mkDir kb0 0 0) []) as H0.
  { split; cbn; try done; [lia|]. intros b Hb. by apply elem_of_nil in Hb. }
  destruct (dir_fold key kb0 Hk Hkb Hal [] l (mkDir kb0 0 0) H0 Hf) as (d & Ed & Hinv). cbn [app] in Hinv. rewrite Ed.
  assert (Hd1 := di_bits _ _ _ _ Hinv). assert (Hd2 := di_pos _ _ _ _ Hinv Hne).
  destruct (expand_inv key kb0 Hkb l ncount 64 (mkDir (dc_keybits d - 1) (dc_lo d) (dc_hi d))) as (E1 & E2 & E3);
    [done|cbn [dc_keybits]; lia|cbn [dc_keybits]; lia| |].
  { cbn [dc_keybits dc_lo dc_hi]. replace (dc_keybits d - 1 + 1) with (dc_keybits d) by lia. by destruct d. }
  assert (E4 := expand_le key ncount 64 (mkDir (dc_keybits d - 1) (dc_lo d) (dc_hi d)) ltac:(cbn; lia) ltac:(cbn [dc_keybits]; lia) Hn ltac:(cbn; lia)).
  cbv zeta in E4. generalize dependent (expand 64 key ncount (mkDir (dc_keybits d - 1) (dc_lo d) (dc_hi d))). intros d' E1 E2 E3 E4.
  cbn [dc_keybits] in E1, E4. destruct (half_count key kb0 d' l Hk Hkb ltac:(lia) E3) as [[Hu Hs] Hc].
  eexists ci, _, _. split; [done|]. split_and!; [lia|lia|exact Hu|exact E2| |exact Hc|exact Hs|].
  - intros b Hb. destruct (di_same _ _ _ _ E3 b Hb) as [_ Hlt]. cbn in Hlt. lia.
  - intros m Hm Hl. destruct E4 as [E4|E4]; [left|by right]. rewrite Forall_forall in Hf.
    assert (X := dir_fold_le key m l (mkDir kb0 0 0) d ltac:(cbn; lia) ltac:(lia)). cbn [dc_keybits] in X.
    enough (dc_keybits d <= m) by lia. apply X; [|done]. intros b Hb. destruct (Hl b Hb). split; [done|].
    destruct (Hf b Hb) as ((_ & Hb2 & _) & _). lia.
Qed.

(** ** The block around the smallest element *)

(** [b] has the fewest keybits, and the lowest key of those that have as few. *)
Definition least (l : list hammer2_blockref) (b : hammer2_blockref) : Prop :=
  b ∈ l /\ forall c, c ∈ l -> br_keybits b < br_keybits c \/ (br_keybits b = br_keybits c /\ br_key b <= br_key c).

Lemma smallest_fold l1 l2 b : least l1 b -> exists b', least (l1 ++ l2) b' /\
  fold_opt smallest (br_key b, br_keybits b) l2 = Some (br_key b', br_keybits b').
Proof.
  revert l1 b. induction l2 as [|c l2 IH]; intros l1 b [Hin Hb]; [exists b; by rewrite app_nil_r|].
  rewrite (cons_middle c l1 l2), app_assoc. cbn [fold_opt smallest].
  assert (Hcl : c ∈ l1 ++ [c]) by (apply elem_of_app; right; apply elem_of_cons; by left).
  assert (Hel : forall a, a ∈ l1 ++ [c] -> a ∈ l1 \/ a = c).
  { intros a [Ha|Ha]%elem_of_app; [by left|right]. by apply list_elem_of_singleton. }
  assert (Hbl : b ∈ l1 ++ [c]) by (apply elem_of_app; by left).
  destruct (Z.ltb_spec (br_keybits c) (br_keybits b)); [|destruct (Z.eqb_spec (br_keybits b) (br_keybits c)) as [Ek|];
    [destruct (Z.ltb_spec (br_key c) (br_key b))|]]; cbn [andb].
  - apply IH. split; [done|]. intros a [Ha| ->]%Hel; [specialize (Hb a Ha)|]; lia.
  - rewrite Ek. apply IH. split; [done|]. intros a [Ha| ->]%Hel; [specialize (Hb a Ha)|]; lia.
  - apply IH. split; [done|]. intros a [Ha| ->]%Hel; [auto|lia].
  - apply IH. split; [done|]. intros a [Ha| ->]%Hel; [auto|lia].
Qed.

Lemma smallest_spec l key : l <> [] -> Forall bref_ok l ->
  exists b, least l b /\ fold_opt smallest (key, 64) l = Some (br_key b, br_keybits b).
Proof.
  destruct l as [|b l]; [done|]. intros _ [(H1 & H2 & H3) _]%Forall_cons. cbn [fold_opt smallest].
  destruct (Z.ltb_spec (br_keybits b) 64); [|lia]. apply (smallest_fold [b] l b).
  split; [apply elem_of_cons; by left|]. intros c ->%list_elem_of_singleton. lia.
Qed.

Lemma live_ok p base b : view_ok p base -> b ∈ live (view p base) -> bref_ok b.
Proof.
  intros Hv (v & -> & Hb)%list_elem_of_fmap. apply (view_elem_ok p base); [done|].
  apply list_elem_of_In, List.filter_In in Hb as [Hb _]. by apply list_elem_of_In.
Qed.

Lemma smallest_scan p base key : view_ok p base -> (length (view p base) < maxloops)%nat -> live (view p base) <> [] ->
  exists ci b, least (live (view p base)) b /\
    scan_live smallest maxloops p base 0 (key, 64) = ScanDone (set_cache_index p ci) (br_key b, br_keybits b).
Proof.
  intros Hv Hlen Hne. destruct (scan_live_spec smallest maxloops p base (key, 64) Hv Hlen) as [ci E].
  destruct (smallest_spec (live (view p base)) key Hne) as (b & Hb & Ef).
  { apply Forall_forall. intros b. by apply live_ok. }
  rewrite Ef in E. by exists ci, b.
Qed.

(** ** Inside and outside of the block *)

(** An aligned element that is no larger than the block is in it or apart. *)
Lemma block_separates key kb b : is_u64 key -> 0 <= kb < 64 -> bref_ok b -> aligned b -> br_keybits b <= kb ->
  let first := key &~ (key_span kb - 1) in
  if in_block key kb (br_key b) then first <= br_key b /\ range_end b <= first + 2 ^ kb
  else range_end b <= first \/ first + 2 ^ kb <= br_key b.
Proof.
  intros Hk Hkb (B1 & B2 & B3) Hal Hle first. assert (first = key - key mod 2 ^ kb) as Ef.
  { unfold first. rewrite key_span_eq by done. apply ldiff_low. lia. }
  assert (0 < 2 ^ kb) as Hp by (apply Z.pow_pos_nonneg; lia).
  assert (R := mod_room (br_key b) (br_keybits b) kb ltac:(lia) Hal).
  assert (D := Z.div_mod key (2 ^ kb) ltac:(lia)). assert (Db := Z.div_mod (br_key b) (2 ^ kb) ltac:(lia)).
  assert (M := Z.mod_pos_bound key (2 ^ kb) Hp). assert (Mb := Z.mod_pos_bound (br_key b) (2 ^ kb) Hp).
  assert (Hin := in_block_bits key kb (br_key b) Hkb). rewrite same_above_div in Hin by lia. unfold range_end.
  destruct (in_block key kb (br_key b)).
  - destruct Hin as [Hin _]. rewrite <- (Hin eq_refl) in Db. lia.
  - assert (key / 2 ^ kb <> br_key b / 2 ^ kb) as Hne by (intros E; by apply Hin in E).
    set (x := key / 2 ^ kb) in *. set (y := br_key b / 2 ^ kb) in *.
    assert (x + 1 <= y \/ y + 1 <= x) as [H|H] by lia; [right|left]; nia.
Qed.
