(* ===== verification/IndirectMove.v ===== *)
(** hammer2_chain_create_indirect() partitions the elements of its parent: those
    in the key range of the new block move into it, with their entries in the
    block table and their in-memory chains, and the others stay. *)
From S2P Require Import Prelude Disk Subr BlockTable BlockTableProof BlockView Indirect IndirectProof.
From Stdlib Require Import ZArith Lia Bool.
From stdpp Require Import base list sorting.
Import Sizes.
Open Scope Z_scope.

(** ** Flags *)

(** The flags of a child after the code set and cleared some. *)
Ltac flags := cbn [cd_set cd_clear cd_flags]; hasflags.

(** ** Lists of ranges *)

Lemma brefs_key_inj {A} (f : A -> hammer2_blockref) (l : list A) x y : brefs_ok (f <$> l) -> x ∈ l -> y ∈ l ->
  br_key (f x) = br_key (f y) -> x = y.
Proof.
  intros Hok Hx Hy E. assert (H := find_first f (fun a => br_key (f a) =? br_key (f x)) l Hok).
  destruct (List.find _ l) as [z|]; [|specialize (H x Hx); cbv beta in H; by rewrite Z.eqb_refl in H].
  destruct H as (Hz & Ez & H). apply Z.eqb_eq in Ez.
  assert (Hs := span_pos (f z) (brefs_ok_elem _ _ Hok ltac:(by apply list_elem_of_fmap_2))).
  assert (forall a, a ∈ l -> br_key (f a) = br_key (f x) -> a = z) as Hz'.
  { intros a Ha Ea. destruct (H a Ha) as [->|Hb]; [by apply Z.eqb_eq|done|]. unfold before in Hb. lia. }
  rewrite (Hz' x Hx eq_refl). symmetry. apply Hz'; [done|]. by rewrite <- E.
Qed.

Lemma brefs_ok_ext l1 l2 : brefs_ok l1 -> brefs_ok l2 -> (forall b, b ∈ l1 <-> b ∈ l2) -> l1 = l2.
Proof.
  revert l2. induction l1 as [|a l1 IH]; intros l2 H1 H2 E.
  { destruct l2 as [|b l2]; [done|]. exfalso. apply (elem_of_nil b), E, elem_of_cons. by left. }
  destruct l2 as [|b l2]; [exfalso; apply (elem_of_nil a), E, elem_of_cons; by left|].
  apply brefs_ok_cons in H1 as (Ha & H1 & Hal). apply brefs_ok_cons in H2 as (Hb & H2 & Hbl).
  assert (Hsa := span_pos a Ha). assert (Hsb := span_pos b Hb). unfold before in *.
  assert (a = b) as <-.
  { assert (a ∈ b :: l2) as X by (apply E, elem_of_cons; by left). assert (b ∈ a :: l1) as Y by (apply E, elem_of_cons; by left).
    apply elem_of_cons in X as [|X]; [done|]. apply elem_of_cons in Y as [|Y]; [done|].
    specialize (Hbl a X). specialize (Hal b Y). lia. }
  f_equal. apply IH; [done|done|]. intros c. specialize (E c). rewrite !elem_of_cons in E. split; intros Hc.
  - destruct E as [E _]. destruct E as [->|]; [by right| |done]. specialize (Hal a Hc). lia.
  - destruct E as [_ E]. destruct E as [->|]; [by right| |done]. specialize (Hbl a Hc). lia.
Qed.

Lemma brefs_apart l a b : brefs_ok l -> a ∈ l -> b ∈ l -> a = b \/ before a b \/ before b a.
Proof.
  induction l as [|x l IH]; intros Hok Ha Hb; [by apply elem_of_nil in Ha|]. apply brefs_ok_cons in Hok as (_ & Hok & Hx).
  apply elem_of_cons in Ha as [->|Ha]; apply elem_of_cons in Hb as [->|Hb]; [by left| | |auto].
  - right. left. auto.
  - right. right. auto.
Qed.

(** The brefs of the view. *)
Definition bview (p : parent) (base : list hammer2_blockref) : list hammer2_blockref := snd <$> view p base.

Lemma bview_elem p base b : view_ok p base -> b ∈ bview p base <->
  (exists c, c ∈ pa_rbtree p /\ b = cd_bref c) \/
  (b ∈ entries base /\ forall c, c ∈ pa_rbtree p -> br_key (cd_bref c) <> br_key b).
Proof.
  intros Hv. unfold bview. rewrite list_elem_of_fmap. split.
  - intros (v & -> & Hin). assert (H := Hin). apply overlay_elem in H as [(c & Hc & ->)|(e & He & ->)]; [left; by exists c|right].
    split; [done|]. intros c Hc E. assert (of_child c = of_entry e) as X; [|done].
    apply (brefs_key_inj snd (view p base)); [by apply view_sorted|by apply overlay_child|done|done].
  - intros [(c & Hc & ->)|[Hb Hn]]; [exists (of_child c); split; [done|by apply overlay_child]|].
    exists (of_entry b). split; [done|]. destruct (overlay_entry (pa_rbtree p) (entries base) b Hb) as [|(c & Hc & E)]; [done|].
    by destruct (Hn c Hc).
Qed.

Lemma bview_ok p base : view_ok p base -> brefs_ok (bview p base).
Proof. apply view_sorted. Qed.

Lemma overlay_length rb l : (length l <= length (overlay rb l))%nat.
Proof.
  revert l. induction rb as [|c rb IHr]; intros l; [by rewrite overlay_nil_l, length_fmap|].
  induction l as [|e l IHl]; [cbn; lia|]. rewrite overlay_cons. destruct (_ =? _); [|destruct (_ <? _)]; cbn [length].
  - specialize (IHr l). lia.
  - specialize (IHr (e :: l)). cbn [length] in IHr. lia.
  - lia.
Qed.

(** ** A chain with its table and its children *)

Definition mapped (l : list hammer2_blockref) (c : child) : Prop := exists e, e ∈ l /\ br_key e = br_key (cd_bref c).

Record node_ok (n : node) : Prop := {
  no_view : view_ok (nd_parent n) (nd_base n);
  no_stats : stats_ok (pa_bref (nd_parent n)) (entries (nd_base n));
  no_count : pa_live_count (nd_parent n) = zlen (view (nd_parent n) (nd_base n));
  no_flags : forall c, c ∈ pa_rbtree (nd_parent n) ->
    has (cd_flags c) HAMMER2_CHAIN_ONRBTREE = true /\ has (cd_flags c) HAMMER2_CHAIN_DELETED = false /\
    (has (cd_flags c) HAMMER2_CHAIN_BLKMAPPED = true <-> mapped (entries (nd_base n)) c)
}.

Definition nview (n : node) : list hammer2_blockref := bview (nd_parent n) (nd_base n).

(** The same but for the statistics, which a collapse clears in the block that
    goes away. *)
Record node_core (n : node) : Prop := {
  nc_view : view_ok (nd_parent n) (nd_base n);
  nc_leaves : Forall (fun e => 0 <= br_leaf_count e) (entries (nd_base n));
  nc_count : pa_live_count (nd_parent n) = zlen (view (nd_parent n) (nd_base n));
  nc_flags : forall c, c ∈ pa_rbtree (nd_parent n) ->
    has (cd_flags c) HAMMER2_CHAIN_ONRBTREE = true /\ has (cd_flags c) HAMMER2_CHAIN_DELETED = false /\
    (has (cd_flags c) HAMMER2_CHAIN_BLKMAPPED = true <-> mapped (entries (nd_base n)) c)
}.

Lemma node_ok_core n : node_ok n <-> node_core n /\ stats_ok (pa_bref (nd_parent n)) (entries (nd_base n)).
Proof. split; [intros [H1 H2 H3 H4]; split; [split; try done; apply H2|done]|]. intros [[H1 H2 H3 H4] H5]. by split. Qed.

Lemma nview_length n : zlen (view (nd_parent n) (nd_base n)) = zlen (nview n).
Proof. unfold nview, bview. by rewrite length_fmap. Qed.

(** Inserting a child that meets no other. *)
Lemma rb_insert_spec c rb : brefs_ok (cd_bref <$> rb) -> bref_ok (cd_bref c) ->
  (forall a, a ∈ rb -> before (cd_bref c) (cd_bref a) \/ before (cd_bref a) (cd_bref c)) ->
  exists rb', RB_INSERT c rb = Some rb' /\ (forall x, x ∈ rb' <-> x = c \/ x ∈ rb) /\ brefs_ok (cd_bref <$> rb').
Proof.
  intros Hok Hc. assert (Hsc := span_pos _ Hc). induction rb as [|a rb IH]; intros Hap; cbn [RB_INSERT].
  { exists [c]. split_and!; [done|intros x; by rewrite elem_of_cons|]. apply brefs_ok_cons. split_and!; [done|done|].
    intros b Hb. by apply elem_of_nil in Hb. }
  cbn [fmap list_fmap] in Hok. assert (Hok0 := Hok). apply brefs_ok_cons in Hok as (Ha & Hok & Hal). assert (Hsa := span_pos _ Ha).
  assert (Hca := Hap a ltac:(apply elem_of_cons; by left)). unfold hammer2_chain_cmp. rewrite !key_last_eq by done.
  unfold before in Hca. destruct (Z.ltb_spec (br_key (cd_bref c) + 2 ^ br_keybits (cd_bref c) - 1) (br_key (cd_bref a))) as [Hlt|].
  - cbn [Z.ltb Z.compare]. exists (c :: a :: rb). split_and!; [done|intros x; by rewrite elem_of_cons|].
    apply brefs_ok_cons. split_and!; [done|done|]. intros b [->|Hb]%elem_of_cons; unfold before; [lia|].
    specialize (Hal b Hb). unfold before in Hal. lia.
  - destruct (Z.ltb_spec (br_key (cd_bref a) + 2 ^ br_keybits (cd_bref a) - 1) (br_key (cd_bref c))); [|lia].
    cbn [Z.ltb Z.compare]. destruct IH as (rb' & -> & Hin & Hok'); [done|intros x Hx; apply Hap, elem_of_cons; by right|].
    exists (a :: rb'). split_and!; [done|intros x; rewrite !elem_of_cons, Hin; tauto|].
    apply brefs_ok_cons. split_and!; [done|done|]. intros b (x & -> & Hx)%list_elem_of_fmap. unfold before.
    apply Hin in Hx as [->|Hx]; [lia|]. apply Hal. by apply list_elem_of_fmap_2.
Qed.

Lemma rb_remove_elem k rb x : x ∈ RB_REMOVE k rb <-> x ∈ rb /\ br_key (cd_bref x) <> k.
Proof.
  unfold RB_REMOVE, at_child. rewrite !list_elem_of_In, List.filter_In, negb_true_iff, Z.eqb_neq. done.
Qed.

Lemma del_key_elem k l b : b ∈ del_key k l <-> b ∈ l /\ br_key b <> k.
Proof.
  unfold del_key, at_key. rewrite !list_elem_of_In, List.filter_In, negb_true_iff, Z.eqb_neq. done.
Qed.

(** Sublists of ranges are ranges. *)
Lemma brefs_ok_filter {A} (f : A -> hammer2_blockref) (P : A -> bool) l : brefs_ok (f <$> l) -> brefs_ok (f <$> List.filter P l).
Proof.
  induction l as [|a l IH]; intros Hok; [done|]. cbn [fmap list_fmap] in Hok. apply brefs_ok_cons in Hok as (Ha & Hok & Hal).
  cbn [List.filter]. destruct (P a); [|auto]. cbn [fmap list_fmap]. apply brefs_ok_cons. split_and!; [done|auto|].
  intros b (x & -> & Hx)%list_elem_of_fmap. apply Hal, list_elem_of_fmap_2. apply list_elem_of_In, List.filter_In in Hx as [Hx _].
  by apply list_elem_of_In.
Qed.

Lemma brefs_ok_one b : bref_ok b -> brefs_ok [b].
Proof. intros Hb. split; repeat constructor; apply Hb. Qed.

(** A list without the elements of one key is as long, but one. *)
Lemma del_key_length l b : brefs_ok l -> b ∈ l -> zlen (del_key (br_key b) l) = zlen l - 1.
Proof.
  intros Hok Hb. assert (X := sum_of_del (fun _ => 1) b l Hok Hb).
  assert (forall l, sum_of (fun _ => 1) l = zlen l) as T.
  { intros l'. induction l' as [|a l' IH]; [done|]. cbn [sum_of foldr length]. unfold sum_of in IH. rewrite IH. lia. }
  rewrite !T in X. lia.
Qed.

(** ** Loading the child of an entry *)

Lemma chain_get_core n e : node_core n -> of_entry e ∈ view (nd_parent n) (nd_base n) ->
  exists p c, hammer2_chain_get (nd_parent n) e = Some (p, c) /\ cd_bref c = e /\ c ∈ pa_rbtree p /\
    node_core (mkNode p (nd_base n)) /\ nview (mkNode p (nd_base n)) = nview n /\ pa_bref p = pa_bref (nd_parent n) /\
    pa_flags p = pa_flags (nd_parent n) /\ (forall x, x ∈ pa_rbtree p <-> x = c \/ x ∈ pa_rbtree (nd_parent n)).
Proof.
  intros [Hv Hst Hct Hfl] Hin. set (p0 := nd_parent n) in *. set (base := nd_base n) in *.
  assert (e ∈ bview p0 base) as Hb by (apply list_elem_of_fmap; by exists (of_entry e)).
  assert (e ∈ entries base /\ forall a, a ∈ pa_rbtree p0 -> br_key (cd_bref a) <> br_key e) as [He Hne].
  { assert (X := Hin). apply overlay_elem in X as [(c & _ & X)|(b & He & X)]; [done|]. injection X as <-. split; [done|].
    intros a Ha E. assert (of_child a = of_entry e) as X; [|done].
    apply (brefs_key_inj snd (view p0 base)); [by apply view_sorted|by apply overlay_child|done|done]. }
  assert (Heok := entry_ok p0 base Hv e He).
  set (c := mkChild e (HAMMER2_CHAIN_BLKMAPPED ||| HAMMER2_CHAIN_ONRBTREE)).
  assert (forall a e', a ∈ pa_rbtree p0 -> e' ∈ entries base -> br_key (cd_bref a) <> br_key e' ->
    before (cd_bref a) e' \/ before e' (cd_bref a)) as Hapart.
  { intros a e' Ha He' Hk. destruct (vo_coherent _ _ Hv a e' Ha He') as [[? _]|]; [lia|done]. }
  destruct (rb_insert_spec c (pa_rbtree p0) (vo_children _ _ Hv) Heok) as (rb & Erb & Hrb & Hrok).
  { intros a Ha. destruct (Hapart a e Ha He (Hne a Ha)); [by right|by left]. }
  exists (set_children p0 (pa_live_count p0) rb), c. unfold hammer2_chain_get, hammer2_chain_insert.
  change (cd_set (mkChild e HAMMER2_CHAIN_BLKMAPPED) HAMMER2_CHAIN_ONRBTREE) with c. rewrite Erb.
  assert (view_ok (set_children p0 (pa_live_count p0) rb) base) as Hv'.
  { destruct (vo_counted _ _ Hv) as [H1 H2 H3]. split; [by split|done|]. intros a e' Ha He'. cbn in Ha.
    apply Hrb in Ha as [->|Ha]; [|by apply (vo_coherent _ _ Hv)]. cbn [cd_bref c].
    destruct (brefs_apart (entries base) e e' H3 He He') as [<-|]; [by left|by right]. }
  assert (nview (mkNode (set_children p0 (pa_live_count p0) rb) base) = nview n) as Env.
  { apply brefs_ok_ext; [by apply bview_ok|by apply bview_ok|]. intros b. unfold nview. fold p0 base. cbn [nd_parent nd_base].
    rewrite !bview_elem by done. cbn [pa_rbtree set_children]. split.
    - intros [(x & Hx & ->)|[Hbe Hnb]].
      + apply Hrb in Hx as [->|Hx]; [right; done|left; by exists x].
      + right. split; [done|]. intros x Hx. apply Hnb, Hrb. by right.
    - intros [(x & Hx & ->)|[Hbe Hnb]]; [left; exists x; split; [apply Hrb; by right|done]|].
      destruct (Z.eq_dec (br_key b) (br_key e)) as [E|E].
      + left. exists c. split; [apply Hrb; by left|]. cbn. apply (brefs_key_inj (fun b => b) (entries base)); try done.
        rewrite list_fmap_id. apply Hv.
      + right. split; [done|]. intros x Hx. apply Hrb in Hx as [->|Hx]; [cbn; lia|auto]. }
  split_and!; try done; [apply Hrb; by left|]. split; try done.
  - rewrite nview_length, Env. cbn [nd_parent pa_live_count set_children]. rewrite Hct. apply nview_length.
  - cbn [nd_parent nd_base pa_rbtree set_children]. intros x Hx. apply Hrb in Hx as [->|Hx]; [|auto].
    split_and!; [done|done|]. split; [intros _; by exists e|done].
Qed.

Lemma chain_get_ok n e : node_ok n -> of_entry e ∈ view (nd_parent n) (nd_base n) ->
  exists p c, hammer2_chain_get (nd_parent n) e = Some (p, c) /\ cd_bref c = e /\ c ∈ pa_rbtree p /\
    node_ok (mkNode p (nd_base n)) /\ nview (mkNode p (nd_base n)) = nview n /\ pa_bref p = pa_bref (nd_parent n) /\
    pa_flags p = pa_flags (nd_parent n) /\ (forall x, x ∈ pa_rbtree p <-> x = c \/ x ∈ pa_rbtree (nd_parent n)).
Proof.
  intros Hn He. apply node_ok_core in Hn as [Hn Hst]. destruct (chain_get_core n e Hn He) as (p & c & E & E1 & E2 & E3 & E4 & E5 & E6 & E7).
  exists p, c. split_and!; try done. apply node_ok_core. split; [done|]. cbn [nd_parent nd_base]. by rewrite E5.
Qed.

(** ** Taking a child out *)

(** Two states of a chain: the same type and range, and the same flags but for
    the one of the count. *)
Definition same_range (b b' : hammer2_blockref) : Prop := br_key b' = br_key b /\ br_keybits b' = br_keybits b.
Definition same_kind (p p' : parent) : Prop :=
  br_type (pa_bref p') = br_type (pa_bref p) /\ same_range (pa_bref p) (pa_bref p') /\
  forall f, has HAMMER2_CHAIN_COUNTEDBREFS f = false -> has (pa_flags p') f = has (pa_flags p) f.

Lemma same_kind_trans p q r : same_kind p q -> same_kind q r -> same_kind p r.
Proof.
  intros (A1 & (A2 & A3) & A4) (B1 & (B2 & B3) & B4). unfold same_kind, same_range. split_and!; try congruence.
  intros f Hf. by rewrite B4, A4.
Qed.

Lemma same_kind_count p base n : same_kind p (hammer2_chain_countbrefs p base n).
Proof.
  unfold hammer2_chain_countbrefs. destruct (has _ _); [by split_and!|]. destruct (match base with Some _ => _ | None => _ end).
  split_and!; try done. intros f Hf. cbn [pa_flags]. by rewrite has_lor, Hf, orb_false_r.
Qed.

Lemma stats_insert_range b elm : same_range b (stats_insert b elm) /\ br_type (stats_insert b elm) = br_type b.
Proof. unfold stats_insert. by repeat destruct (_ =? _). Qed.

Lemma stats_delete_range b elm : same_range b (stats_delete b elm) /\ br_type (stats_delete b elm) = br_type b.
Proof. unfold stats_delete. by repeat destruct (_ =? _). Qed.

(** A chain without the child and the entry of a key. *)
Lemma node_without n c p' base' : node_core n -> c ∈ pa_rbtree (nd_parent n) ->
  counted p' base' ->
  pa_live_count p' = pa_live_count (nd_parent n) - 1 ->
  pa_rbtree p' = RB_REMOVE (br_key (cd_bref c)) (pa_rbtree (nd_parent n)) ->
  entries base' = del_key (br_key (cd_bref c)) (entries (nd_base n)) ->
  node_core (mkNode p' base') /\ nview (mkNode p' base') = del_key (br_key (cd_bref c)) (nview n).
Proof.
  intros [Hv Hlv Hct Hfl] Hc Hcnt Hlc Hrb He. set (k := br_key (cd_bref c)) in *.
  assert (view_ok p' base') as Hv'.
  { split; [done|rewrite Hrb; apply brefs_ok_filter, Hv|]. rewrite Hrb, He. intros a e Ha Hb.
    apply rb_remove_elem in Ha as [Ha _]. apply del_key_elem in Hb as [Hb _]. by apply (vo_coherent _ _ Hv). }
  assert (nview (mkNode p' base') = del_key k (nview n)) as Env.
  { apply brefs_ok_ext; [by apply bview_ok| |].
    - assert (X := brefs_ok_filter (fun b => b) (fun b => negb (at_key k b)) (nview n)). rewrite !list_fmap_id in X.
      by apply X, bview_ok.
    - intros b. rewrite del_key_elem. unfold nview. cbn [nd_parent nd_base]. rewrite !bview_elem, Hrb, He, del_key_elem by done.
      split.
      + intros [(x & Hx & ->)|[[Hb Hk] Hnb]].
        * apply rb_remove_elem in Hx as [Hx Hk]. split; [left; by exists x|done].
        * split; [|done]. right. split; [done|]. intros x Hx E. apply (Hnb x); [|done]. apply rb_remove_elem. by rewrite E.
      + intros [[(x & Hx & ->)|[Hb Hnb]] Hk].
        * left. exists x. split; [|done]. by apply rb_remove_elem.
        * right. split; [done|]. intros x Hx. apply rb_remove_elem in Hx as [Hx _]. auto. }
  split; [|done]. split; cbn [nd_parent nd_base]; try done.
  - rewrite He. rewrite Forall_forall in Hlv |- *. intros e Hin. apply del_key_elem in Hin as [Hin _]. auto.
  - change (pa_live_count p' = zlen (view (nd_parent (mkNode p' base')) (nd_base (mkNode p' base')))).
    rewrite nview_length, Env, Hlc, Hct, nview_length. symmetry. apply del_key_length; [by apply bview_ok|].
    apply (bview_elem _ _ _ Hv). left. by exists c.
  - rewrite Hrb, He. intros x Hx. apply rb_remove_elem in Hx as [Hx Hk]. destruct (Hfl x Hx) as (F1 & F2 & F3).
    split_and!; [done|done|]. rewrite F3. unfold mapped. split; intros (e & Hin & Ek); exists e.
    + split; [|done]. apply del_key_elem. split; [done|]. by rewrite Ek.
    + apply del_key_elem in Hin as [Hin _]. done.
Qed.

Lemma delete_helper_core n c : node_core n -> c ∈ pa_rbtree (nd_parent n) ->
  exists n' c' o, delete_helper 0 n c = Some (n', c', o, 0, false) /\ node_core n' /\
    (stats_ok (pa_bref (nd_parent n)) (entries (nd_base n)) -> stats_ok (pa_bref (nd_parent n')) (entries (nd_base n'))) /\
    nview n' = del_key (br_key (cd_bref c)) (nview n) /\ length (nd_base n') = length (nd_base n) /\
    cd_bref c' = cd_bref c /\ has (cd_flags c') HAMMER2_CHAIN_BLKMAPPED = false /\
    same_kind (nd_parent n) (nd_parent n') /\
    match o with
    | Some e => e ∈ entries (nd_base n) /\ br_key e = br_key (cd_bref c) /\ br_keybits e = br_keybits (cd_bref c)
    | None => True
    end.
Proof.
  intros Hn Hc. assert (node_core n) as [Hv Hlv Hct Hfl] by done. destruct (Hfl c Hc) as (F1 & F2 & F3).
  set (k := br_key (cd_bref c)) in *. unfold delete_helper. rewrite F2, F1. fold k. cbn [nz negb Z.eqb].
  set (p1 := set_children (nd_parent n) (pa_live_count (nd_parent n) - 1) (RB_REMOVE k (pa_rbtree (nd_parent n)))).
  set (c1 := cd_clear (cd_set c HAMMER2_CHAIN_DELETED) HAMMER2_CHAIN_ONRBTREE).
  assert (counted p1 (nd_base n)) as Hti by (destruct (vo_counted _ _ Hv) as [H1 H2 H3]; by split).
  destruct (has (cd_flags c) HAMMER2_CHAIN_BLKMAPPED) eqn:Em.
  - destruct F3 as [F3 _]. destruct (F3 eq_refl) as (e & He & Ek).
    assert (br_keybits e = br_keybits (cd_bref c)) as Eb.
    { assert (Hs := span_pos _ (child_ok _ _ Hv c Hc)). assert (Hse := span_pos _ (entry_ok _ _ Hv e He)).
      destruct (vo_coherent _ _ Hv c e Hc He) as [[_ E]|[Hb|Hb]]; [done| |]; unfold before in Hb; lia. }
    destruct (base_delete_spec p1 (nd_base n) c1 Hti) as (r & Er & Hsc & Hr). rewrite Er.
    assert (doomed c1 (nd_base n) = Some e) as Ed.
    { unfold doomed. change (br_key (cd_bref c1)) with k. change (br_keybits (cd_bref c1)) with (br_keybits (cd_bref c)).
      rewrite (find_first_eq (fun b => b) (at_key k) (entries (nd_base n)) e); [by rewrite Eb, Z.eqb_refl, orb_true_r| |done| |].
      - rewrite list_fmap_id. apply Hv.
      - by apply Z.eqb_eq.
      - intros y _ Hy. apply Z.eqb_eq in Hy. lia. }
    assert (Hti' := fun Hst => delete_inv p1 (nd_base n) c1 r (Build_table_inv _ _ Hti Hst) Er). rewrite Ed in Hr.
    destruct Hr as ((f & Ech) & Hhp & Hob & Hen & Hle & Hcn & Hbr). destruct Hsc as (Hfg & Hlc & Hrb).
    destruct (node_without n c (dl_parent r) (dl_base r) Hn Hc Hcn Hlc Hrb) as [Hok Hnv].
    { by rewrite Hen, Ek. }
    exists (mkNode (dl_parent r) (dl_base r)), (dl_chain r), (dl_obref r). rewrite Hhp, Hob, Ech.
    split_and!; try done; [intros Hst; apply (ti_stats _ _ (Hti' Hst Hhp))|flags; done|]. destruct (stats_delete_range (pa_bref p1) e) as [X1 X2].
    unfold same_kind. cbn [nd_parent]. rewrite Hbr, Hfg. split_and!; try done.
  - assert (del_key k (entries (nd_base n)) = entries (nd_base n)) as Edel.
    { apply List.forallb_filter_id, List.forallb_forall. intros b Hb. apply list_elem_of_In in Hb. unfold at_key.
      destruct (Z.eqb_spec (br_key b) k) as [E|]; [|done]. assert (false = true) as X; [|done]. apply F3. by exists b. }
    destruct (node_without n c p1 (nd_base n) Hn Hc Hti eq_refl eq_refl (eq_sym Edel)) as [Hok Hnv].
    exists (mkNode p1 (nd_base n)), c1, None. split_and!; try done. unfold c1. flags. rewrite Em. done.
Qed.

Lemma delete_helper_ok n c : node_ok n -> c ∈ pa_rbtree (nd_parent n) ->
  exists n' c' o, delete_helper 0 n c = Some (n', c', o, 0, false) /\ node_ok n' /\
    nview n' = del_key (br_key (cd_bref c)) (nview n) /\ length (nd_base n') = length (nd_base n) /\
    cd_bref c' = cd_bref c /\ has (cd_flags c') HAMMER2_CHAIN_BLKMAPPED = false /\
    same_kind (nd_parent n) (nd_parent n') /\
    match o with
    | Some e => e ∈ entries (nd_base n) /\ br_key e = br_key (cd_bref c) /\ br_keybits e = br_keybits (cd_bref c)
    | None => True
    end.
Proof.
  intros Hn Hc. apply node_ok_core in Hn as [Hn Hst].
  destruct (delete_helper_core n c Hn Hc) as (n' & c' & o & E & Hn' & Hst' & R). exists n', c', o. split; [done|].
  split; [|done]. apply node_ok_core. auto.
Qed.

(** ** Putting a child in *)

(** The blockref that goes into the table with the child. *)
Definition obref_ok (b : hammer2_blockref) (o : option hammer2_blockref) : Prop :=
  match o with
  | Some e => elm_ok e /\ br_key e = br_key b /\ br_keybits e = br_keybits b
  | None => True
  end.

Definition with_obref (o : option hammer2_blockref) (l : list hammer2_blockref) : list hammer2_blockref :=
  match o with Some e => list_ins e l | None => l end.

(** An element that meets none of a list goes into its place. *)
Definition apart (l : list hammer2_blockref) (b : hammer2_blockref) : Prop :=
  forall x, x ∈ l -> before x b \/ before b x.

Lemma list_ins_ok l b : brefs_ok l -> bref_ok b -> apart l b -> brefs_ok (list_ins b l).
Proof.
  intros Hok Hb. assert (Hsb := span_pos b Hb). induction l as [|a l IH]; intros Hap; cbn [list_ins]; [by apply brefs_ok_one|].
  assert (Hok0 := Hok). apply brefs_ok_cons in Hok as (Ha & Hok & Hal). assert (Hsa := span_pos a Ha).
  assert (Hab := Hap a ltac:(apply elem_of_cons; by left)). unfold before in Hab. destruct (Z.ltb_spec (br_key b) (br_key a)).
  - apply brefs_ok_cons. split_and!; [done|done|]. intros c [->|Hc]%elem_of_cons; unfold before; [lia|].
    specialize (Hal c Hc). unfold before in Hal. lia.
  - apply brefs_ok_cons. split_and!; [done|apply IH; [done|]|].
    + intros x Hx. apply Hap, elem_of_cons. by right.
    + intros c [->|Hc]%list_ins_elem; [unfold before; lia|auto].
Qed.

Lemma list_ins_length l b : length (list_ins b l) = S (length l).
Proof. induction l as [|a l IH]; [done|]. cbn [list_ins]. destruct (_ <? _); cbn [length]; lia. Qed.

Lemma list_ins_last l b : bref_ok b -> Forall bref_ok l -> (forall x, x ∈ l -> before x b) -> list_ins b l = l ++ [b].
Proof.
  intros Hb. induction 1 as [|a l Ha _ IH]; intros H; [done|]. cbn [list_ins app].
  assert (X := H a ltac:(apply elem_of_cons; by left)). assert (Hsa := span_pos a Ha). unfold before in X.
  destruct (Z.ltb_spec (br_key b) (br_key a)); [lia|]. f_equal. apply IH. intros x Hx. apply H, elem_of_cons. by right.
Qed.

Section PutIn.
Context (n : node) (b : hammer2_blockref) (o : option hammer2_blockref).
Hypothesis Hn : node_ok n.
Hypothesis Hb : bref_ok b.
Hypothesis Hap : apart (nview n) b.
Hypothesis Ho : obref_ok b o.

Lemma children_apart a : a ∈ pa_rbtree (nd_parent n) -> before (cd_bref a) b \/ before b (cd_bref a).
Proof. intros Ha. apply Hap, (bview_elem _ _ _ (no_view _ Hn)). left. by exists a. Qed.

Lemma entries_apart e : e ∈ entries (nd_base n) -> before e b \/ before b e.
Proof.
  intros He. assert (Hv := no_view _ Hn). assert (Hse := span_pos _ (entry_ok _ _ Hv e He)).
  destruct (overlay_entry (pa_rbtree (nd_parent n)) (entries (nd_base n)) e He) as [Hin|(a & Ha & Ek)].
  - apply Hap, list_elem_of_fmap. by exists (of_entry e).
  - assert (Hab := children_apart a Ha). assert (Hsa := span_pos _ (child_ok _ _ Hv a Ha)). unfold before in *.
    destruct (vo_coherent _ _ Hv a e Ha He) as [[_ Eb]|[X|X]]; [|unfold before in X; lia|unfold before in X; lia].
    by rewrite <- Ek, <- Eb.
Qed.

Lemma node_with c p' base' : cd_bref c = b ->
  has (cd_flags c) HAMMER2_CHAIN_ONRBTREE = true -> has (cd_flags c) HAMMER2_CHAIN_DELETED = false ->
  has (cd_flags c) HAMMER2_CHAIN_BLKMAPPED = (match o with Some _ => true | None => false end) ->
  counted p' base' -> stats_ok (pa_bref p') (entries base') -> pa_live_count p' = pa_live_count (nd_parent n) + 1 ->
  (forall x, x ∈ pa_rbtree p' <-> x = c \/ x ∈ pa_rbtree (nd_parent n)) -> brefs_ok (cd_bref <$> pa_rbtree p') ->
  entries base' = with_obref o (entries (nd_base n)) ->
  node_ok (mkNode p' base') /\ nview (mkNode p' base') = list_ins b (nview n).
Proof.
  intros Ecb F1 F2 F3 Hcnt Hst' Hlc Hrb Hrok He. assert (node_ok n) as [Hv Hst Hct Hfl] by done.
  assert (Hsb := span_pos b Hb).
  assert (Hel : forall e, e ∈ entries base' <-> o = Some e \/ e ∈ entries (nd_base n)).
  { intros e. rewrite He. destruct o as [e0|]; cbn [with_obref]; [rewrite list_ins_elem|].
    - split; intros [H|H]; [left; by subst|by right|injection H as ->; by left|by right].
    - split; [by right|]. by intros [|]. }
  assert (Hob : forall e, o = Some e -> br_key e = br_key b /\ br_keybits e = br_keybits b).
  { intros e ->. by destruct Ho as (_ & ? & ?). }
  assert (view_ok p' base') as Hv'.
  { split; [done|done|]. intros a e [->|Ha]%Hrb [Hoe|Hoe]%Hel.
    - left. rewrite Ecb. destruct (Hob e Hoe) as [-> ->]. done.
    - right. rewrite Ecb. destruct (entries_apart e Hoe); [by right|by left].
    - right. assert (X := children_apart a Ha). unfold before in *. destruct (Hob e Hoe) as [-> ->]. done.
    - by apply (vo_coherent _ _ Hv). }
  assert (nview (mkNode p' base') = list_ins b (nview n)) as Env.
  { apply brefs_ok_ext; [by apply bview_ok| |].
    - apply list_ins_ok; [by apply bview_ok|done|done].
    - intros x. rewrite list_ins_elem. unfold nview. cbn [nd_parent nd_base]. rewrite !bview_elem by done.
      split.
      + intros [(a & [->|Ha]%Hrb & ->)|[[Hx|Hx]%Hel Hnx]]; [by left|right; left; by exists a| |].
        * exfalso. destruct (Hob x Hx) as [Ek _]. apply (Hnx c); [apply Hrb; by left|]. by rewrite Ecb.
        * right. right. split; [done|]. intros a Ha. apply Hnx, Hrb. by right.
      + intros [->|[(a & Ha & ->)|[Hx Hnx]]].
        * left. exists c. split; [apply Hrb; by left|done].
        * left. exists a. split; [apply Hrb; by right|done].
        * right. split; [apply Hel; by right|]. intros a [->|Ha]%Hrb; [|auto]. rewrite Ecb.
          assert (X := entries_apart x Hx). assert (Hsx := span_pos _ (entry_ok _ _ Hv x Hx)). unfold before in X. lia. }
  split; [|done]. split; cbn [nd_parent nd_base]; try done.
  - change (pa_live_count p' = zlen (view (nd_parent (mkNode p' base')) (nd_base (mkNode p' base')))).
    rewrite nview_length, Env, Hlc, Hct, nview_length, list_ins_length. lia.
  - intros a [->|Ha]%Hrb.
    + split_and!; [done|done|]. rewrite F3. unfold mapped. rewrite Ecb. split.
      * destruct o as [e|]; [|done]. intros _. exists e. split; [apply Hel; by left|by apply Hob].
      * intros (e & [He'|He']%Hel & Ek); [by rewrite He'|]. exfalso. assert (X := entries_apart e He').
        assert (Hse := span_pos _ (entry_ok _ _ Hv e He')). unfold before in X. lia.
    + destruct (Hfl a Ha) as (G1 & G2 & G3). split_and!; [done|done|]. rewrite G3. unfold mapped.
      split; intros (e & Hin & Ek); exists e; (split; [|done]).
      * apply Hel. by right.
      * apply Hel in Hin as [Hoe|]; [|done]. exfalso. destruct (Hob e Hoe) as [E _]. assert (X := children_apart a Ha).
        assert (Hsa := span_pos _ (child_ok _ _ Hv a Ha)). unfold before in X. lia.
Qed.
End PutIn.

(** The child in its place after its flags changed. *)
Lemma brefs_ok_range {A} (f g : A -> hammer2_blockref) l : (forall a, a ∈ l -> same_range (f a) (g a)) ->
  brefs_ok (f <$> l) -> brefs_ok (g <$> l).
Proof.
  induction l as [|a l IH]; intros Hr Hok; [done|]. cbn [fmap list_fmap] in *. apply brefs_ok_cons in Hok as (Ha & Hl & Hlt).
  destruct (Hr a ltac:(apply elem_of_cons; by left)) as [E1 E2]. apply brefs_ok_cons. split_and!.
  - unfold bref_ok. by rewrite E1, E2.
  - apply IH; [|done]. intros x Hx. apply Hr, elem_of_cons. by right.
  - intros b Hb. apply list_elem_of_fmap in Hb as (x & -> & Hx). destruct (Hr x ltac:(apply elem_of_cons; by right)) as [F1 F2].
    specialize (Hlt (f x) ltac:(by apply list_elem_of_fmap_2)). unfold before in *. by rewrite E1, E2, F1.
Qed.

(** A child in its place, with other flags or another block. *)
Lemma set_child_spec p c0 c rb : brefs_ok (cd_bref <$> rb) -> same_range (cd_bref c0) (cd_bref c) -> c0 ∈ rb -> pa_rbtree p = rb ->
  (forall x, x ∈ pa_rbtree (set_child p c) <-> x = c \/ (x ∈ rb /\ x <> c0)) /\
  brefs_ok (cd_bref <$> pa_rbtree (set_child p c)).
Proof.
  intros Hok Eb H0 Ep. cbn [set_child set_children pa_rbtree]. rewrite Ep.
  assert (forall a, a ∈ rb -> at_child (br_key (cd_bref c)) a = true <-> a = c0) as Hat.
  { intros a Ha. unfold at_child. rewrite Z.eqb_eq, (proj1 Eb). split; [|by intros ->].
    intros E. by apply (brefs_key_inj cd_bref rb). }
  split.
  - intros x. rewrite list_elem_of_fmap. split.
    + intros (a & -> & Ha). specialize (Hat a Ha). destruct (at_child _ a); [by left|]. right. split; [done|].
      intros E. by apply Hat in E.
    + intros [->|[Hx Hne]]; [exists c0|exists x]; (split; [|done]).
      * by rewrite (proj2 (Hat c0 H0) eq_refl).
      * destruct (at_child _ x) eqn:E; [|done]. by apply (Hat x Hx) in E.
  - rewrite <- list_fmap_compose. apply (brefs_ok_range cd_bref); [|done].
    intros a Ha. cbn. specialize (Hat a Ha). destruct (at_child _ a); [|done]. by rewrite (proj1 Hat eq_refl).
Qed.

Lemma rename_obref_ok n c o : node_ok n -> bref_ok (cd_bref c) -> has (cd_flags c) HAMMER2_CHAIN_BLKMAPPED = false ->
  apart (nview n) (cd_bref c) -> obref_ok (cd_bref c) o -> zlen (nview n) < zlen (nd_base n) ->
  exists n', rename_obref n c o = Some (n', false) /\ node_ok n' /\ nview n' = list_ins (cd_bref c) (nview n) /\
    length (nd_base n') = length (nd_base n) /\ same_kind (nd_parent n) (nd_parent n') /\
    (forall x, x ∈ pa_rbtree (nd_parent n) -> x ∈ pa_rbtree (nd_parent n')) /\
    (exists c', c' ∈ pa_rbtree (nd_parent n') /\ cd_bref c' = cd_bref c).
Proof.
  intros Hn Hb Hm Hlast Ho Hroom. assert (node_ok n) as [Hv Hst Hct Hfl] by done.
  destruct (vo_counted _ _ Hv) as [C1 C2 C3]. rewrite nview_length in Hct.
  set (p := nd_parent n) in *. set (base := nd_base n) in *. set (b := cd_bref c) in *.
  unfold rename_obref, reattach, hammer2_chain_countbrefs. fold p base. rewrite C1, Hct.
  destruct (Z.leb_spec 0 (zlen (nview n))); [|lia]. destruct (Z.leb_spec (zlen (nview n)) (zlen base)); [|lia]. cbn [andb negb].
  destruct (Z.eqb_spec (zlen (nview n)) (zlen base)); [lia|]. unfold hammer2_chain_insert.
  set (c1 := cd_set (cd_clear c HAMMER2_CHAIN_DELETED) HAMMER2_CHAIN_ONRBTREE).
  destruct (rb_insert_spec c1 (pa_rbtree p) (vo_children _ _ Hv) Hb) as (rb & Erb & Hrb & Hrok).
  { intros a Ha. destruct (children_apart n b Hn Hlast a Ha); [by right|by left]. }
  rewrite Erb. cbn [nd_parent nd_base]. set (p1 := set_children p (pa_live_count p + 1) rb).
  assert (Hfresh : c1 ∉ pa_rbtree p).
  { intros Hin. assert (X := children_apart n b Hn Hlast c1 Hin). assert (Hs := span_pos b Hb). unfold before in X. cbn in X. fold b in X. lia. }
  assert (Hput : forall c2 p2, cd_bref c2 = b -> pa_rbtree p2 = rb ->
    (forall x, x ∈ pa_rbtree (set_child p2 c2) <-> x = c2 \/ x ∈ pa_rbtree p) /\ brefs_ok (cd_bref <$> pa_rbtree (set_child p2 c2))).
  { intros c2 p2 E2 Ep2. destruct (set_child_spec p2 c1 c2 rb Hrok ltac:(by rewrite E2)) as [H1 H2]; [apply Hrb; by left|done|].
    split; [|done]. intros x. rewrite H1, Hrb. split; [intros [|[[|] ?]]; [by left|done|by right]|].
    intros [|Hx]; [by left|right]. split; [by right|]. by intros ->. }
  set (c2 := cd_set c1 HAMMER2_CHAIN_UPDATE). destruct o as [e|].
  - destruct Ho as ((He1 & He2 & He3) & Ek & Eb).
    assert (has (cd_flags c2) HAMMER2_CHAIN_BLKMAPPED = false) as -> by (unfold c2, c1; flags; by rewrite Hm).
    destruct (base_insert_spec p1 base (Some c2) e ltac:(by split) He1 He2) as (r & Er & Hich & (S1 & S2 & S3) & Hrb' & Hins).
    assert (existsb (overlaps e) (entries base) || full base = false) as Eno.
    { apply orb_false_iff. split.
      - destruct (existsb _ _) eqn:E; [|done]. apply existsb_exists in E as (x & Hx & E). apply list_elem_of_In in Hx.
        assert (X := entries_apart n b Hn Hlast x Hx). unfold overlaps in E. apply andb_prop in E as [E E'].
        rewrite key_last_eq in E by (by apply (entry_ok p base Hv)). rewrite key_last_eq in E' by done.
        unfold before in X. rewrite Ek, Eb in *. lia.
      - apply Nat.eqb_neq. assert (X := overlay_length (pa_rbtree p) (entries base)). fold (view p base) in X.
        assert (zlen (view p base) = zlen (nview n)) by apply nview_length. lia. }
    rewrite Eno in Hins. destruct Hins as (Hhp & Hen & Hle & Hcn). rewrite Er, Hich. cbn [option_map default from_option id].
    assert (Hti := insert_inv p1 base (Some c2) e r ltac:(split; [by split|done]) ltac:(done) Er Hhp).
    set (c3 := if decide _ then _ else _).
    assert (cd_bref c3 = b /\ has (cd_flags c3) HAMMER2_CHAIN_ONRBTREE = true /\ has (cd_flags c3) HAMMER2_CHAIN_DELETED = false /\
      has (cd_flags c3) HAMMER2_CHAIN_BLKMAPPED = true) as (G0 & G1 & G2 & G3).
    { unfold c3. destruct (decide _); unfold c2, c1; split_and!; try done; flags; by rewrite ?orb_true_r. }
    destruct (Hput c3 (in_parent r) G0 S3) as [P1 P2].
    destruct (node_with n b (Some e) Hn Hb Hlast ltac:(done) c3 (set_child (in_parent r) c3) (in_base r) G0 G1 G2 G3) as [Hok Env]; try done.
    + destruct Hcn as [D1 D2 D3]. by split.
    + apply Hti.
    + exists (mkNode (set_child (in_parent r) c3) (in_base r)). rewrite Hhp. split; [done|]. split; [done|]. split; [done|].
      split; [done|]. destruct (stats_insert_range (pa_bref p1) e) as [X1 X2]. split; [|split].
      * unfold same_kind. cbn [nd_parent set_child set_children pa_bref pa_flags]. rewrite Hrb', S1. split_and!; try done.
      * intros x Hx. apply P1. by right.
      * exists c3. split; [apply P1; by left|done].
  - destruct (Hput c2 p1 eq_refl eq_refl) as [P1 P2].
    destruct (node_with n b None Hn Hb Hlast ltac:(done) c2 (set_child p1 c2) base) as [Hok Env]; try done.
    + unfold c2, c1. flags. by rewrite orb_true_r.
    + unfold c2, c1. flags. done.
    + unfold c2, c1. flags. by rewrite Hm.
    + exists (mkNode (set_child p1 c2) base). split_and!; try done; [intros x Hx; apply P1; by right|].
      exists c2. split; [apply P1; by left|done].
Qed.

(** ** The loop *)

Definition counted_node (n : node) : node :=
  mkNode (hammer2_chain_countbrefs (nd_parent n) (Some (nd_base n)) (zlen (nd_base n))) (nd_base n).

(** Every element is a chain in memory. *)
Definition in_memory (n : node) : Prop :=
  forall b, b ∈ nview (counted_node n) -> exists c, c ∈ pa_rbtree (nd_parent n) /\ cd_bref c = b.

Lemma counted_rbtree n : pa_rbtree (nd_parent (counted_node n)) = pa_rbtree (nd_parent n).
Proof. unfold counted_node, hammer2_chain_countbrefs. cbn [nd_parent]. by destruct (has (pa_flags _) _). Qed.

Lemma counted_id n : node_ok n -> counted_node n = n.
Proof.
  intros Hn. unfold counted_node, hammer2_chain_countbrefs.
  rewrite (ct_flag _ _ (vo_counted _ _ (no_view _ Hn))). by destruct n.
Qed.

Lemma rename_counted n c o : rename_obref n c o = rename_obref (counted_node n) c o.
Proof.
  unfold rename_obref, reattach. cbn [counted_node nd_parent nd_base].
  set (p := hammer2_chain_countbrefs (nd_parent n) (Some (nd_base n)) (zlen (nd_base n))).
  assert (hammer2_chain_countbrefs p (Some (nd_base n)) (zlen (nd_base n)) = p) as ->; [|done].
  assert (has (pa_flags p) HAMMER2_CHAIN_COUNTEDBREFS = true) as E.
  { unfold p, hammer2_chain_countbrefs. destruct (has (pa_flags (nd_parent n)) _) eqn:E; [done|]. cbn [pa_flags].
    rewrite has_lor. by rewrite orb_true_r. }
  unfold hammer2_chain_countbrefs. by rewrite E.
Qed.

Lemma node_ok_cache n ci : node_ok n -> node_ok (mkNode (set_cache_index (nd_parent n) ci) (nd_base n)).
Proof. intros [H1 H2 H3 H4]. split; [by apply view_ok_cache|done|done|done]. Qed.

Lemma del_key_middle l1 b l2 : brefs_ok (l1 ++ b :: l2) -> del_key (br_key b) (l1 ++ b :: l2) = l1 ++ l2.
Proof.
  intros H. apply brefs_ok_app in H as (H1 & H2 & H3). apply brefs_ok_cons in H2 as (Hb & H2 & H4). assert (Hs := span_pos b Hb).
  assert (forall l, (forall x, x ∈ l -> br_key x <> br_key b) -> del_key (br_key b) l = l) as Hid.
  { intros l Hl. apply List.forallb_filter_id, List.forallb_forall. intros x Hx. apply list_elem_of_In in Hx.
    unfold at_key. by destruct (Z.eqb_spec (br_key x) (br_key b)) as [E|]; [destruct (Hl x Hx E)|]. }
  unfold del_key in *. rewrite List.filter_app. cbn [List.filter]. unfold at_key at 2. rewrite Z.eqb_refl. cbn [negb].
  rewrite !Hid; [done| |].
  - intros x Hx. specialize (H4 x Hx). unfold before in H4. lia.
  - intros x Hx. specialize (H3 x b Hx ltac:(apply elem_of_cons; by left)).
    assert (Hsx := span_pos x (brefs_ok_elem _ _ H1 Hx)). unfold before in H3. lia.
Qed.

(** An element is taken out of its chain, with what the table had for it. *)
Lemma take_step n b v : node_core n -> v ∈ view (nd_parent n) (nd_base n) -> v.2 = b ->
  exists p c n' c' o, (match v.1 with Some c => Some (nd_parent n, c) | None => hammer2_chain_get (nd_parent n) b end) = Some (p, c) /\
    has (cd_flags c) HAMMER2_CHAIN_DELETED = false /\
    delete_helper 0 (mkNode p (nd_base n)) c = Some (n', c', o, 0, false) /\ node_core n' /\
    (stats_ok (pa_bref (nd_parent n)) (entries (nd_base n)) -> stats_ok (pa_bref (nd_parent n')) (entries (nd_base n'))) /\
    nview n' = del_key (br_key b) (nview n) /\ length (nd_base n') = length (nd_base n) /\
    cd_bref c' = b /\ has (cd_flags c') HAMMER2_CHAIN_BLKMAPPED = false /\
    same_kind (nd_parent n) (nd_parent n') /\ bref_ok b /\ obref_ok b o.
Proof.
  intros Hn Hv Eb. assert (Hvw := nc_view _ Hn).
  assert (exists p c, (match v.1 with Some c => Some (nd_parent n, c) | None => hammer2_chain_get (nd_parent n) b end) = Some (p, c) /\
    cd_bref c = b /\ c ∈ pa_rbtree p /\ node_core (mkNode p (nd_base n)) /\ nview (mkNode p (nd_base n)) = nview n /\
    pa_bref p = pa_bref (nd_parent n) /\ same_kind (nd_parent n) p) as (p & c & Eget & Ecb & Hc & Hn1 & Env1 & Epb & Hk1).
  { assert (H := Hv). apply overlay_elem in H as [(c & Hc & ->)|(e & He & ->)]; cbn in Eb |- *; subst b.
    - exists (nd_parent n), c. destruct n as [p base]. by split_and!.
    - destruct (chain_get_core n e Hn Hv) as (p & c & E & E1 & E2 & E3 & E4 & E5 & E6 & _).
      exists p, c. split_and!; try done. unfold same_kind. rewrite E5, E6. by split_and!. }
  destruct (delete_helper_core _ c Hn1 Hc) as (n' & c' & o & Ed & Hn' & Hst' & Env' & Hlen & Ecb' & Hm & Hk2 & Ho). rewrite Ecb in *.
  cbn [nd_parent nd_base] in *. assert (Hbok : bref_ok b) by (rewrite <- Eb; by apply (view_elem_ok (nd_parent n) (nd_base n))).
  exists p, c, n', c', o. destruct (nc_flags _ Hn1 c Hc) as (_ & F & _). rewrite Epb in Hst'. split_and!; try done.
  - by rewrite Env', Env1.
  - by apply (same_kind_trans _ p).
  - destruct o as [e|]; [|done]. destruct Ho as (He & Ek & Ekb). split_and!; try done.
    assert (e ∈ entries (nd_base n)) as He' by done. apply entries_elem in He' as [_ Hu]. split_and!; [|done|].
    + by apply (entry_ok (nd_parent n) (nd_base n) Hvw).
    + assert (X := nc_leaves _ Hn). rewrite Forall_forall in X. auto.
Qed.

(** One element that is in the range moves. *)
Lemma move_step P N p b v : node_ok P -> nd_parent P = p -> v ∈ view p (nd_base P) -> v.2 = b ->
  node_ok (counted_node N) -> (forall x, x ∈ nview (counted_node N) -> before x b) ->
  zlen (nview (counted_node N)) < zlen (nd_base N) ->
  exists p' c P' c' o N', (match v.1 with Some c => Some (p, c) | None => hammer2_chain_get p b end) = Some (p', c) /\
    has (cd_flags c) HAMMER2_CHAIN_DELETED = false /\
    delete_helper 0 (mkNode p' (nd_base P)) c = Some (P', c', o, 0, false) /\ rename_obref N c' o = Some (N', false) /\
    node_ok P' /\ nview P' = del_key (br_key b) (nview P) /\ length (nd_base P') = length (nd_base P) /\
    node_ok N' /\ nview N' = nview (counted_node N) ++ [b] /\ length (nd_base N') = length (nd_base N) /\
    same_kind (nd_parent P) (nd_parent P') /\ same_kind (nd_parent N) (nd_parent N') /\
    (in_memory N -> in_memory N').
Proof.
  intros HP <- Hv Eb HN Hlast Hroom. apply node_ok_core in HP as [HP Hst].
  destruct (take_step P b v HP Hv Eb) as (p' & c & P' & c' & o & Eget & F & Ed & HP' & Hst' & Env' & Hlen & Ecb' & Hm & Hk & Hbok & Ho).
  destruct (rename_obref_ok (counted_node N) c' o HN) as (N' & Er & HN' & EN' & HlN & HrN & Hkeep & Hnew); rewrite ?Ecb'; try done.
  { intros x Hx. left. auto. }
  rewrite Ecb', list_ins_last in EN'; [|done|apply (bview_ok _ _ (no_view _ HN))|done]. exists p', c, P', c', o, N'. rewrite rename_counted.
  rewrite Ecb' in Hnew. split_and!; try done.
  - apply node_ok_core. auto.
  - eapply same_kind_trans; [apply same_kind_count|exact HrN].
  - intros Hmem x Hx. rewrite counted_id, EN' in Hx by done. apply elem_of_app in Hx as [Hx|Hx%list_elem_of_singleton].
    + destruct (Hmem x Hx) as (a & Ha & <-). exists a. split; [|done]. apply Hkeep. by rewrite counted_rbtree.
    + by subst x.
Qed.

Lemma fmap_split {A B} (f : A -> B) l k1 k2 : f <$> l = k1 ++ k2 -> exists l1 l2, l = l1 ++ l2 /\ f <$> l1 = k1 /\ f <$> l2 = k2.
Proof. intros H. apply fmap_app_inv in H as (l1 & l2 & -> & -> & ->). by exists l1, l2. Qed.

Section Move.
Context (key keybits : Z).

Definition stays (b : hammer2_blockref) : bool := negb (in_block key keybits (br_key b)).
Definition goes (b : hammer2_blockref) : bool := in_block key keybits (br_key b).

Definition moved (P' N' : node) (P N : node) (l : list hammer2_blockref) : Prop :=
  node_ok P' /\ node_ok (counted_node N') /\ nview P' = List.filter stays l /\
  nview (counted_node N') = List.filter goes l /\
  length (nd_base P') = length (nd_base P) /\ length (nd_base N') = length (nd_base N) /\
  same_kind (nd_parent P) (nd_parent P') /\ same_kind (nd_parent N) (nd_parent N') /\ in_memory N'.

Lemma move_loop_ok rest : forall seen loops maxl P N kb, node_ok P -> node_ok (counted_node N) ->
  brefs_ok (seen ++ rest) -> nview P = List.filter stays seen ++ rest -> nview (counted_node N) = List.filter goes seen ->
  (forall b, b ∈ seen -> range_end b <= kb) -> (forall b, b ∈ rest -> kb <= br_key b) -> 0 <= kb < 2 ^ 64 ->
  zlen (seen ++ rest) <= zlen (nd_base N) -> (length rest < loops)%nat -> (length rest <= maxl)%nat -> in_memory N ->
  exists P' N', move_loop (fun _ => 0) loops maxl P N key keybits kb false = Some (P', N', 0, false) /\
    moved P' N' P N (seen ++ rest).
Proof.
  induction rest as [|b rest IH]; intros seen loops maxl P N kb HP HN Hok EP EN Hs Hr Hkb Hroom Hl Hm Hmem.
  all: destruct loops as [|loops]; [cbn in Hl; lia|]; cbn [move_loop].
  all: destruct (fmap_split snd (view (nd_parent P) (nd_base P)) _ _ EP) as (Vs & Vr & EV & EVs & EVr).
  all: destruct (combined_find_spec (nd_parent P) (nd_base P) kb HAMMER2_KEY_MAX (no_view _ HP)) as [ci ->];
    [unfold HAMMER2_KEY_MAX; lia|done|].
  all: rewrite (nearest_rest _ _ Vs Vr kb (no_view _ HP) EV);
    [|intros v Hv; assert (X : v.2 ∈ List.filter stays seen) by (rewrite <- EVs; by apply list_elem_of_fmap_2);
      apply list_elem_of_In, List.filter_In in X as [X _]; by apply Hs, list_elem_of_In
     |intros v Hv; apply Hr; rewrite <- EVr; by apply list_elem_of_fmap_2].
  all: assert (HPc := node_ok_cache P ci HP).
  - destruct Vr; [|done]. cbn [head fmap option_fmap option_map]. eexists _, _. split; [done|].
    rewrite app_nil_r in *. by split_and!.
  - destruct Vr as [|v Vr]; [done|]. cbn [fmap list_fmap] in EVr. injection EVr as Eb EVr.
    cbn [head fmap option_fmap option_map mbind option_bind]. rewrite Eb.
    assert (Hin : v ∈ view (nd_parent P) (nd_base P)) by (rewrite EV; apply elem_of_app; right; apply elem_of_cons; by left).
    assert (Hok' := Hok). apply brefs_ok_app in Hok' as (_ & Hok' & Hsb). apply brefs_ok_cons in Hok' as (Hbok & Hrok & Hbr).
    destruct (key_stop_ord b Hbok) as [Hsu Hso]. assert (Hsp := span_pos b Hbok).
    (* the rest of the round, for whatever the element did *)
    assert (Hnext : forall P1 N1, node_ok P1 -> node_ok (counted_node N1) ->
      nview P1 = List.filter stays (seen ++ [b]) ++ rest -> nview (counted_node N1) = List.filter goes (seen ++ [b]) ->
      length (nd_base P1) = length (nd_base P) -> length (nd_base N1) = length (nd_base N) ->
      same_kind (nd_parent P) (nd_parent P1) -> same_kind (nd_parent N) (nd_parent N1) -> in_memory N1 ->
      exists P' N', match maxl with
        | O => Some (P1, N1, HAMMER2_ERROR_EIO, true)
        | S maxl => if (key_stop b =? 0) || (HAMMER2_KEY_MAX <? key_stop b) then Some (P1, N1, 0, false)
            else move_loop (fun _ => 0) loops maxl P1 N1 key keybits (key_stop b) false
        end = Some (P', N', 0, false) /\ moved P' N' P N (seen ++ b :: rest)).
    { intros P1 N1 HP1 HN1 EP1 EN1 HlP HlN HkP HkN HmN. destruct maxl as [|maxl]; [cbn in Hm; lia|].
      assert (Eapp : seen ++ b :: rest = (seen ++ [b]) ++ rest) by (by rewrite <- app_assoc). rewrite Eapp in *.
      destruct (Z.ltb_spec HAMMER2_KEY_MAX (key_stop b)); [unfold is_u64, HAMMER2_KEY_MAX in *; lia|]. rewrite orb_false_r.
      destruct (Z.eqb_spec (key_stop b) 0) as [E0|Hne].
      - destruct rest as [|w rest].
        + rewrite app_nil_r in *. exists P1, N1. split; [done|]. by split_and!.
        + exfalso. assert (Hw := Hbr w ltac:(apply elem_of_cons; by left)). rewrite E0 in Hso.
          assert (bref_ok w) as Hwok by (eapply brefs_ok_elem; [exact Hrok|apply elem_of_cons; by left]).
          assert (Hsw := span_pos w Hwok). destruct Hwok as (_ & _ & Hwe). unfold before in Hw. cbn [key_ord Z.eqb] in Hso. lia.
      - assert (key_stop b = range_end b) as Ek.
        { unfold key_ord in Hso. destruct (Z.eqb_spec (key_stop b) 0); [done|]. unfold range_end. lia. }
        rewrite Ek. destruct (IH (seen ++ [b]) loops maxl P1 N1 (range_end b)) as (P' & N' & E & HM); try done.
        + intros x [Hx|Hx]%elem_of_app; [|apply list_elem_of_singleton in Hx as ->; lia].
          specialize (Hs x Hx). specialize (Hr b ltac:(apply elem_of_cons; by left)). unfold range_end in *. lia.
        + rewrite <- Ek. exact Hsu.
        + by rewrite HlN.
        + cbn in Hl. lia.
        + cbn in Hm. lia.
        + exists P', N'. split; [done|]. destruct HM as (M1 & M2 & M3 & M4 & M5 & M6 & M7 & M8 & M9).
          split_and!; try done; try congruence; by eapply same_kind_trans. }
    assert (EN' : zlen (nview (counted_node N)) < zlen (nd_base N)).
    { rewrite EN. assert (X := List.filter_length_le goes seen). rewrite length_app in Hroom. cbn [length] in Hroom. lia. }
    assert (Hlast : forall x, x ∈ nview (counted_node N) -> before x b).
    { intros x Hx. rewrite EN in Hx. apply list_elem_of_In, List.filter_In in Hx as [Hx _]. apply list_elem_of_In in Hx.
      apply Hsb; [done|]. apply elem_of_cons. by left. }
    destruct (in_block key keybits (br_key b)) eqn:Eg; cbn [negb].
    + destruct (move_step (mkNode (set_cache_index (nd_parent P) ci) (nd_base P)) N (set_cache_index (nd_parent P) ci) b v)
        as (p' & c & P' & c' & o & N' & E1 & E2 & E3 & E4 & HP' & EP' & HlP & HN' & EN1 & HlN & HkP & HkN & HmN); try done.
      rewrite E1, E2. cbn [nd_base] in E3. rewrite E3. cbn [nz negb Z.eqb]. rewrite E4. cbn [orb]. apply Hnext; auto.
      * by rewrite counted_id.
      * change (nview (mkNode (set_cache_index (nd_parent P) ci) (nd_base P))) with (nview P) in EP'. rewrite EP', EP.
        rewrite del_key_middle by (rewrite <- EP; apply bview_ok, HP). rewrite List.filter_app. cbn [List.filter].
        assert (stays b = false) as -> by (unfold stays; by rewrite Eg). by rewrite app_nil_r.
      * rewrite counted_id by done. rewrite EN1, EN, List.filter_app. cbn [List.filter].
        by assert (goes b = true) as -> by exact Eg.
    + apply Hnext; try done.
      * change (nview (mkNode (set_cache_index (nd_parent P) ci) (nd_base P))) with (nview P).
        rewrite EP, List.filter_app. cbn [List.filter].
        assert (stays b = true) as -> by (unfold stays; by rewrite Eg). by rewrite <- app_assoc.
      * rewrite EN, List.filter_app. cbn [List.filter].
        assert (goes b = false) as -> by exact Eg. by rewrite app_nil_r.
Qed.
End Move.

(** ** The creation *)

Lemma entries_zero n : entries (replicate n bref_zero) = [].
Proof. apply entries_none. intros b Hb. by apply elem_of_replicate in Hb as [-> _]. Qed.

Lemma count_below_entries base n : (n <= length base)%nat -> count_below base n = zlen (entries (take n base)).
Proof.
  induction n as [|n IH]; intros Hn; [done|]. cbn [count_below]. rewrite IH by lia.
  rewrite (take_S_r base n _ (bref_lookup base n ltac:(lia))), entries_app, length_app, entries_cons.
  change (entries []) with (@nil hammer2_blockref). destruct (bref_empty _); cbn [length]; lia.
Qed.

(** A chain with its table and no children in memory. *)
Lemma table_node b base : table_ok base -> stats_ok b (entries base) ->
  node_ok (counted_node (mkNode (mkParent b 0 0 0 0 []) base)) /\
  nview (counted_node (mkNode (mkParent b 0 0 0 0 []) base)) = entries base.
Proof.
  intros Ht Hst. set (n := mkNode _ _).
  assert (view_ok (nd_parent (counted_node n)) base) as Hv.
  { split; [split; [done| |done]|split; constructor|intros c e Hc; by apply elem_of_nil in Hc].
    change (Z.of_nat (used_below base (Z.to_nat (zlen base))) = live_end base). unfold live_end. by rewrite Nat2Z.id. }
  assert (nview (counted_node n) = entries base) as Env.
  { unfold nview, bview, view. cbn [counted_node n nd_base nd_parent hammer2_chain_countbrefs pa_flags has nz negb pa_rbtree].
    rewrite overlay_nil_l, <- list_fmap_compose. apply list_fmap_id. }
  split; [|done]. split; [done|done| |intros c Hc; by apply elem_of_nil in Hc].
  rewrite nview_length, Env. change (0 + count_below base (used_below base (Z.to_nat (zlen base))) = zlen (entries base)).
  rewrite Nat2Z.id. destruct (used_below_spec base (length base)) as (H1 & H2 & _); [lia|]. rewrite firstn_all in H2.
  rewrite count_below_entries by lia. rewrite (entries_split base (used_below base (length base))), H2, app_nil_r. lia.
Qed.

(** A fresh block is a chain without elements. *)
Lemma fresh_ok b n : br_leaf_count b = 0 -> br_data_count b = 0 -> br_inode_count b = 0 ->
  node_ok (counted_node (fresh_node b n)) /\ nview (counted_node (fresh_node b n)) = [].
Proof.
  intros E1 E2 E3. assert (He : entries (replicate (Z.to_nat n) bref_zero) = []) by apply entries_zero.
  rewrite <- He. apply table_node; unfold table_ok; rewrite He; [split; constructor|].
  split; cbn; try done. by right.
Qed.

Lemma live_nview n : node_ok n -> live (view (nd_parent n) (nd_base n)) = nview n.
Proof.
  intros Hn. unfold live, nview, bview. f_equal. apply List.forallb_filter_id, List.forallb_forall.
  intros v Hv. apply list_elem_of_In, overlay_elem in Hv as [(c & Hc & ->)|(e & _ & ->)]; [|done]. cbn.
  destruct (no_flags _ Hn c Hc) as (_ & -> & _). done.
Qed.

Lemma maxloops_eq : Z.of_nat maxloops = 299999.
Proof. Transparent maxloops. unfold maxloops. by rewrite Z2Nat.id. Qed.
Lemma move_rounds_eq : Z.of_nat move_rounds = 100000.
Proof. Transparent move_rounds. unfold move_rounds. by rewrite Z2Nat.id. Qed.
#[global] Opaque maxloops move_rounds.

(** The first key of the block is in the block. *)
Lemma in_block_first key kb bkey : is_u64 key -> 0 <= kb < 64 ->
  in_block (key &~ (key_span kb - 1)) kb bkey = in_block key kb bkey.
Proof.
  intros Hk Hkb. apply Bool.eq_iff_eq_true. rewrite !in_block_bits, !same_above_div by lia.
  rewrite key_span_eq by done. rewrite ldiff_low by lia. rewrite (Z.div_mod key (2 ^ kb)) at 1 by lia.
  replace (2 ^ kb * (key / 2 ^ kb) + key mod 2 ^ kb - key mod 2 ^ kb) with (key / 2 ^ kb * 2 ^ kb) by lia.
  rewrite Z.div_mul by lia. done.
Qed.
