(* ===== verification/IndirectSplit.v ===== *)
(** What hammer2_chain_create_indirect() does to the elements of a full table:
    it splits them into those of the new block and those that stay. *)
From S2P Require Import Prelude Disk Subr BlockTable BlockTableProof BlockView Indirect IndirectProof IndirectMove.
From Stdlib Require Import ZArith Lia Bool.
From stdpp Require Import base list sorting.
Open Scope Z_scope.

(** The first key of the block. *)
Definition first_key (key kb : Z) : Z := key &~ (key_span kb - 1).

(** The elements of [P] are in the block [N] when their keys are in its range
    and in the parent otherwise, where the block has taken its place. *)
Record split (P : node) (create_key key kb : Z) (r : ind_result) (N : node) : Prop := {
  sp_ichain : ir_ichain r = Some N;
  sp_error : ir_error r = 0 /\ ir_hpanic r = false;
  sp_ret : ir_ret r = if in_block key kb create_key then RetIchain else RetParent;
  sp_key : br_key (pa_bref (nd_parent N)) = first_key key kb;
  sp_bits : br_keybits (pa_bref (nd_parent N)) = kb;
  sp_parent : node_ok (ir_parent r);
  sp_block : node_ok (counted_node N);
  sp_goes : nview (counted_node N) = List.filter (goes key kb) (nview P);
  sp_stays : nview (ir_parent r) = list_ins (pa_bref (nd_parent N)) (List.filter (stays key kb) (nview P));
  sp_within : forall b, b ∈ nview (counted_node N) -> first_key key kb <= br_key b /\ range_end b <= first_key key kb + 2 ^ kb;
  sp_size : length (nd_base (ir_parent r)) = length (nd_base P);
  sp_kind : same_kind (nd_parent P) (nd_parent (ir_parent r));
  sp_memory : in_memory N;
  sp_type : br_type (pa_bref (nd_parent N)) = HAMMER2_BREF_TYPE_INDIRECT \/
    br_type (pa_bref (nd_parent N)) = HAMMER2_BREF_TYPE_FREEMAP_NODE;
  sp_flags : forall f, has HAMMER2_CHAIN_COUNTEDBREFS f = false -> has (pa_flags (nd_parent N)) f = false;
  sp_room : zlen (nd_base P) <= zlen (nd_base N);
  sp_slots : zlen (nd_base N) = zlen (nd_base P) \/ exists k, 5 <= k <= 8 /\ zlen (nd_base N) = 2 ^ k
}.

(** The block would not fit below its parent, and nothing has changed. *)
Record refused (P : node) (key kb : Z) (r : ind_result) : Prop := {
  rf_ichain : ir_ichain r = None /\ ir_ret r = RetNull;
  rf_error : ir_error r = HAMMER2_ERROR_EIO /\ ir_hpanic r = false;
  rf_parent : node_ok (ir_parent r);
  rf_view : nview (ir_parent r) = nview P /\ nd_base (ir_parent r) = nd_base P;
  rf_type : br_type (pa_bref (nd_parent P)) = HAMMER2_BREF_TYPE_INDIRECT \/
    br_type (pa_bref (nd_parent P)) = HAMMER2_BREF_TYPE_FREEMAP_NODE;
  rf_why : br_keybits (pa_bref (nd_parent P)) <= kb \/
    first_key key kb < br_key (pa_bref (nd_parent P)) \/
    key_last (pa_bref (nd_parent P)) < first_key key kb + 2 ^ kb - 1
}.

Lemma first_key_spec key kb : is_u64 key -> 0 <= kb < 64 ->
  0 <= first_key key kb /\ first_key key kb + 2 ^ kb <= 2 ^ 64 /\ first_key key kb mod 2 ^ kb = 0.
Proof.
  intros Hk Hkb. unfold first_key. rewrite key_span_eq, ldiff_low by lia.
  assert (0 < 2 ^ kb) by (apply Z.pow_pos_nonneg; lia). assert (Hd := Z.div_mod key (2 ^ kb) ltac:(lia)).
  assert (Hm := Z.mod_pos_bound key (2 ^ kb) ltac:(lia)).
  replace (key - key mod 2 ^ kb) with (key / 2 ^ kb * 2 ^ kb) by lia. rewrite Z_mod_mult.
  assert (2 ^ 64 = 2 ^ (64 - kb) * 2 ^ kb) as E by (rewrite <- Z.pow_add_r by lia; f_equal; lia).
  unfold is_u64 in Hk. assert (key / 2 ^ kb < 2 ^ (64 - kb)).
  { apply Z.div_lt_upper_bound; lia. }
  assert (0 <= key / 2 ^ kb) by (apply Z.div_pos; lia). split_and!; nia.
Qed.

(** The size of the block holds the table of its parent. *)
Lemma nbytes_spec ptype ft dir count : 0 <= count <= 512 -> (for_freemap ft = true -> count <= 256) ->
  exists nbytes, ind_nbytes ptype ft dir count = Some nbytes /\ 4096 <= nbytes <= 65536 /\
    count <= nbytes / HAMMER2_BLOCKREF_BYTES /\
    (nbytes / HAMMER2_BLOCKREF_BYTES = count \/ exists k, 5 <= k <= 8 /\ nbytes / HAMMER2_BLOCKREF_BYTES = 2 ^ k).
Proof.
  intros Hc Hf. unfold ind_nbytes, HAMMER2_BLOCKREF_BYTES, HAMMER2_IND_BYTES_NOM, HAMMER2_IND_BYTES_MIN.
  change HAMMER2_FREEMAP_LEVELN_PSIZE with 32768. change HAMMER2_LBUFSIZE with 16384.
  destruct (for_freemap ft); [|destruct (_ =? _); [destruct dir|]].
  1: specialize (Hf eq_refl). all: match goal with |- context [?x <? ?y] => destruct (Z.ltb_spec x y) end.
  all: try lia; eexists; (split; [done|]); (split; [lia|]); try (rewrite Z.div_mul by lia); (split; [dlia|]).
  all: first [by left|right; first [by exists 8|by exists 7|by exists 5]].
Qed.

Lemma in_block_sym key kb bkey : in_block key kb bkey = in_block bkey kb key.
Proof. unfold in_block. by rewrite Z.lxor_comm. Qed.

(** The range of [b] does not have the key. *)
Definition off_key (key : Z) (b : hammer2_blockref) : Prop := key < br_key b \/ range_end b <= key.

Lemma multiples_apart m q f w k : 0 < w -> f * w <= k < f * w + w -> k < m * w \/ m * w + q * w <= k ->
  m * w + q * w <= f * w \/ f * w + w <= m * w.
Proof.
  intros Hw Hk [H|H]; [right|left].
  - assert (f < m) by (apply (Z.mul_lt_mono_pos_r w); lia). nia.
  - assert (m + q < f + 1) by (apply (Z.mul_lt_mono_pos_r w); lia). nia.
Qed.

(** Also a block narrower than [b] holds all of [b] or none of it, when it is
    around a key that [b] does not have. *)
Lemma block_apart key kb b : is_u64 key -> 0 <= kb < 64 -> bref_ok b -> aligned b ->
  br_keybits b <= kb \/ off_key key b ->
  if in_block key kb (br_key b) then first_key key kb <= br_key b /\ range_end b <= first_key key kb + 2 ^ kb
  else range_end b <= first_key key kb \/ first_key key kb + 2 ^ kb <= br_key b.
Proof.
  intros Hk Hkb Hb Ha Hw. destruct (Z.le_gt_cases (br_keybits b) kb) as [Hle|Hgt].
  { exact (block_separates key kb b Hk Hkb Hb Ha Hle). }
  destruct Hw as [?|Hoff]; [lia|]. assert (Hs := span_pos b Hb). destruct Hb as (B1 & B2 & B3).
  destruct (first_key_spec key kb Hk Hkb) as (F1 & F2 & F3).
  assert (first_key key kb <= key < first_key key kb + 2 ^ kb) as Hin.
  { unfold first_key. rewrite key_span_eq, ldiff_low by lia.
    assert (X := Z.mod_pos_bound key (2 ^ kb) ltac:(apply Z.pow_pos_nonneg; lia)). lia. }
  assert (exists q, 2 ^ br_keybits b = q * 2 ^ kb /\ 0 < q) as (q & Eq & Hq).
  { exists (2 ^ (br_keybits b - kb)). split; [rewrite <- Z.pow_add_r by lia; f_equal; lia|apply Z.pow_pos_nonneg; lia]. }
  assert (0 < 2 ^ kb) as Hp by (apply Z.pow_pos_nonneg; lia).
  apply Z.mod_divide in F3 as [f Ef]; [|lia]. apply Z.mod_divide in Ha as [d Ed]; [|lia].
  assert (range_end b <= first_key key kb \/ first_key key kb + 2 ^ kb <= br_key b) as Hsep.
  { unfold off_key, range_end in *. rewrite Ef in *. rewrite Ed, Eq in *. rewrite Z.mul_assoc in *.
    by apply (multiples_apart _ _ _ _ key). }
  replace (in_block key kb (br_key b)) with false; [done|]. symmetry. apply Bool.not_true_iff_false. intros E.
  apply in_block_bits, same_above_div in E; try lia. unfold range_end in Hsep.
  assert (key / 2 ^ kb = f) as E1 by (symmetry; apply Z.div_unique with (key - f * 2 ^ kb); lia).
  assert (br_key b / 2 ^ kb = d * q) as E2 by (rewrite Ed, Eq; replace (d * (q * 2 ^ kb)) with (d * q * 2 ^ kb) by lia; apply Z.div_mul; lia).
  rewrite E1, E2 in E. rewrite Ef, Eq, Ed in Hsep. rewrite Eq, E in Hsep. nia.
Qed.

(** The new block takes its place among the elements that stay. *)
Lemma block_attached P b : node_ok P -> bref_ok b -> apart (nview P) b ->
  exists p c, hammer2_chain_insert (nd_parent P) (mkChild b 0) true = Some (p, c) /\
    node_ok (mkNode p (nd_base P)) /\ nview (mkNode p (nd_base P)) = list_ins b (nview P) /\
    same_kind (nd_parent P) p.
Proof.
  intros HP Hb Hap. set (c := cd_set (mkChild b 0) HAMMER2_CHAIN_ONRBTREE).
  destruct (rb_insert_spec c (pa_rbtree (nd_parent P))) as (rb & E & Hrb & Hok); [apply HP|done| |].
  { intros a Ha. apply or_comm. by apply (children_apart P b HP Hap). }
  unfold hammer2_chain_insert. fold c. rewrite E. eexists _, _. split; [done|].
  destruct (no_view _ HP) as [[H1 H2 H3] _ _].
  apply and_assoc. split; [|by split_and!].
  apply (node_with P b None HP Hb Hap I c); try done. apply HP.
Qed.

Section Create.
Context (P : node) (create_key key kb ci : Z).
Hypothesis HP : node_ok P.
Hypothesis Hsize : zlen (nd_base P) <= 512.
Hypothesis Hroom : zlen (nview P) <= zlen (nd_base P).
Hypothesis Hkey : is_u64 key.
Hypothesis Hkb : 0 <= kb < 64.
Hypothesis Hfit : forall b, b ∈ nview P -> aligned b /\ (br_keybits b <= kb \/ off_key key b).

Lemma stays_apart b : b ∈ List.filter (stays (first_key key kb) kb) (nview P) ->
  range_end b <= first_key key kb \/ first_key key kb + 2 ^ kb <= br_key b.
Proof.
  intros Hb. apply list_elem_of_In, List.filter_In in Hb as [Hb Hs]. apply list_elem_of_In in Hb.
  destruct (Hfit b Hb) as [Ha Hk]. assert (bref_ok b) as Hok by (eapply brefs_ok_elem; [apply bview_ok, HP|done]).
  assert (X := block_apart key kb b Hkey Hkb Hok Ha Hk).
  unfold stays, first_key in Hs. rewrite in_block_first in Hs by done.
  destruct (in_block key kb (br_key b)); done.
Qed.

Lemma goes_within b : b ∈ List.filter (goes (first_key key kb) kb) (nview P) ->
  first_key key kb <= br_key b /\ range_end b <= first_key key kb + 2 ^ kb.
Proof.
  intros Hb. apply list_elem_of_In, List.filter_In in Hb as [Hb Hs]. apply list_elem_of_In in Hb.
  destruct (Hfit b Hb) as [Ha Hk]. assert (bref_ok b) as Hok by (eapply brefs_ok_elem; [apply bview_ok, HP|done]).
  assert (X := block_apart key kb b Hkey Hkb Hok Ha Hk).
  unfold goes, first_key in Hs. rewrite in_block_first in Hs by done. by rewrite Hs in X.
Qed.

Lemma filter_first : List.filter (goes (first_key key kb) kb) (nview P) = List.filter (goes key kb) (nview P) /\
  List.filter (stays (first_key key kb) kb) (nview P) = List.filter (stays key kb) (nview P).
Proof.
  unfold goes, stays, first_key. split; apply List.filter_ext; intros b; by rewrite in_block_first.
Qed.

(** The loop on a fresh block of the range, and the insertion of the block. *)
Lemma create_moves ib n : same_range (mkBref 0 0 0 kb 0 0 0 (first_key key kb) 0 0 0 0 0 0 0) ib ->
  br_type ib = HAMMER2_BREF_TYPE_INDIRECT \/ br_type ib = HAMMER2_BREF_TYPE_FREEMAP_NODE ->
  n = zlen (nd_base P) \/ (exists k, 5 <= k <= 8 /\ n = 2 ^ k) ->
  br_leaf_count ib = 0 -> br_data_count ib = 0 -> br_inode_count ib = 0 -> zlen (nd_base P) <= n ->
  exists P' N p c, move_loop (fun _ => 0) move_rounds maxloops (mkNode (set_cache_index (nd_parent P) ci) (nd_base P))
      (fresh_node ib n) (first_key key kb) kb 0 false = Some (P', N, 0, false) /\
    hammer2_chain_insert (nd_parent P') (mkChild (pa_bref (nd_parent N)) 0) true = Some (p, c) /\
    split P create_key key kb (mkInd (mkNode p (nd_base P')) (Some N)
      (if in_block create_key kb (first_key key kb) then RetIchain else RetParent) 0 false) N /\ zlen (nd_base N) = n.
Proof.
  intros [Ek Eb] Ht Hslots H1 H2 H3 Hn. cbn in Ek, Eb.
  destruct (fresh_ok ib n H1 H2 H3) as [HN EN]. assert (M1 := maxloops_eq). assert (M2 := move_rounds_eq).
  destruct (first_key_spec key kb Hkey Hkb) as (K1 & K2 & _).
  assert (Hrange : forall b, b ∈ nview P -> 0 <= br_key b).
  { intros b Hb. by destruct (brefs_ok_elem _ b (bview_ok _ _ (no_view _ HP)) Hb). }
  assert (zlen ([] ++ nview P) <= zlen (nd_base (fresh_node ib n))) as Hl.
  { unfold fresh_node. cbn [nd_base app]. rewrite length_replicate. lia. }
  assert (in_memory (fresh_node ib n)) as Hmem0.
  { intros b Hb. rewrite EN in Hb. destruct (not_elem_of_nil _ Hb). }
  destruct (move_loop_ok (first_key key kb) kb (nview P) [] move_rounds maxloops
    (mkNode (set_cache_index (nd_parent P) ci) (nd_base P)) (fresh_node ib n) 0
    (node_ok_cache P ci HP) HN (bview_ok _ _ (no_view _ HP)) eq_refl EN
    (fun b Hb => match not_elem_of_nil b Hb with end) Hrange ltac:(lia) Hl ltac:(lia) ltac:(lia) Hmem0) as (P' & N & EM & HM).
    destruct HM as (HP' & HN' & EP' & EN' & HlP & HlN & HkP & (Rt & [Rk Rb] & Rf) & Hmem). cbn [app] in EP', EN'.
    change (pa_bref (nd_parent (fresh_node ib n))) with ib in Rk, Rb, Rt.
    destruct (block_attached P' (pa_bref (nd_parent N)) HP') as (p & c & Ei & Hp & Ep & HkI).
    + unfold bref_ok. rewrite Rk, Rb, Ek, Eb. lia.
    + intros x Hx. rewrite EP' in Hx. apply stays_apart in Hx. unfold before. rewrite Rk, Rb, Ek, Eb. exact Hx.
    + exists P', N, p, c. split; [exact EM|]. split; [exact Ei|]. destruct filter_first as [Eg Es].
      assert (Hw := goes_within). rewrite <- EN' in Hw.
      assert (zlen (nd_base N) = n) as En.
      { rewrite HlN. unfold fresh_node. cbn [nd_base]. rewrite length_replicate. lia. }
      clear -HP' HN' EP' EN' HlP Rk Rb Ek Eb Hp Ep Eg Es Hkey Hkb Hw HkP HkI Hmem Rt Rf Ht Hslots Hn En.
      split; [|exact En]. split; try done; cbn [ir_ret ir_parent nd_base nd_parent]; try congruence.
      * rewrite in_block_sym. unfold first_key. by rewrite in_block_first.
      * by apply (same_kind_trans _ (nd_parent P')).
      * by rewrite En.
Qed.

(** The whole function, once its helper has chosen the range. *)
Lemma create_splits dir bits ft nbytes : ind_nbytes (br_type (pa_bref (nd_parent P))) ft dir (zlen (nd_base P)) = Some nbytes ->
  0 <= nbytes <= 65536 -> zlen (nd_base P) <= nbytes / HAMMER2_BLOCKREF_BYTES ->
  nbytes / HAMMER2_BLOCKREF_BYTES = zlen (nd_base P) \/ (exists k, 5 <= k <= 8 /\ nbytes / HAMMER2_BLOCKREF_BYTES = 2 ^ k) ->
  indkey_for (nd_parent P) (nd_base P) ft create_key bits (ind_ncount (br_keybits (pa_bref (nd_parent P))) nbytes) =
    Some (mkIndkey (set_cache_index (nd_parent P) ci) key kb false) ->
  exists r, hammer2_chain_create_indirect 0 0 (fun _ => 0) dir P create_key bits ft = Some r /\
    (refused P key kb r \/ exists N, split P create_key key kb r N /\ zlen (nd_base N) = nbytes / HAMMER2_BLOCKREF_BYTES).
Proof.
  intros En Hnb Hn Hslots Ei. unfold hammer2_chain_create_indirect. cbn [nz negb Z.eqb]. rewrite En, Ei.
  cbn [ik_parent ik_key ik_keybits].
  destruct (Z.ltb_spec kb 0); [lia|]. destruct (Z.leb_spec 64 kb); [lia|].
  rewrite SubrFacts.getradix_log2_up by lia. fold (first_key key kb).
  set (ib := ind_bref _ _ _ _ _). assert (br_keybits ib = kb) as Eb by (apply Z.mod_small; lia).
  destruct (ind_misfit _ ib) eqn:Em.
  - eexists. split; [done|]. left. unfold ind_misfit in Em. rewrite !andb_true_iff, !orb_true_iff, !Z.ltb_lt, Z.leb_le, !Z.eqb_eq in Em.
    destruct Em as [[[Et _] _] Em]. split; try done; [by apply node_ok_cache|].
    destruct (first_key_spec key kb Hkey Hkb) as (F1 & F2 & F3). assert (0 < 2 ^ kb) by (apply Z.pow_pos_nonneg; lia).
    rewrite (key_last_eq ib) in Em by (unfold bref_ok; rewrite Eb; cbn; lia). rewrite Eb in Em.
    change (br_key ib) with (first_key key kb) in Em. lia.
  - destruct (create_moves ib (nbytes / HAMMER2_BLOCKREF_BYTES)) as (P' & N & p & c & E1 & E2 & Hs); try done.
    { unfold ib, ind_bref. cbn [br_type]. destruct (for_freemap ft); [by right|by left]. }
    rewrite E1, E2. eexists. split; [done|]. right. by exists N.
Qed.
End Create.

(** ** The ranges the helpers choose *)

(** What the helper of the type needs of the elements. *)
Definition plannable (P : node) (key bits ft ncount : Z) : Prop :=
  if for_freemap ft then forall b, b ∈ nview P -> freemap_up (br_keybits b) <> None
  else if ft =? HAMMER2_BREF_TYPE_DATA then
    exists nradix b, file_nradix ncount = Some nradix /\ b ∈ nview P /\ br_keybits b + nradix < 64
  else (ft = HAMMER2_BREF_TYPE_DIRENT \/ ft = HAMMER2_BREF_TYPE_INODE) /\
    is_u64 key /\ 0 <= bits < 64 /\ key mod 2 ^ bits = 0 /\ ncount <= 2 ^ 63 /\ Forall (fits key bits) (nview P).

(** A range around a key of the table that no element crosses. *)
Record planned (P : node) (key kb : Z) : Prop := {
  pl_key : is_u64 key;
  pl_bits : 0 <= kb < 64;
  pl_fit : forall b, b ∈ nview P -> aligned b /\ (br_keybits b <= kb \/ off_key key b);
  pl_some : exists b, b ∈ nview P /\ goes key kb b = true
}.

(** The range for a directory: at least half of the elements, a half of a range
    around the key that is to be created, and no wider than it has to be to hold
    them or [ncount] keys. *)
Record dir_planned (P : node) (create_key bits ncount key kb : Z) : Prop := {
  dp_half : zlen (nview P) <= 2 * countb (goes key kb) (nview P);
  dp_near : same_above (kb + 1) key create_key;
  dp_narrow : forall m, bits <= m <= 64 ->
    (forall b, b ∈ nview P -> same_above m create_key (br_key b) /\ br_keybits b <= m) ->
    kb < m \/ (1 <= kb /\ 2 ^ (kb - 1) < ncount)
}.

Lemma in_block_refl key kb : 0 <= kb < 64 -> in_block key kb key = true.
Proof. intros Hkb. by apply in_block_bits. Qed.

Lemma least_planned P b kb : node_ok P -> Forall aligned (nview P) -> least (nview P) b -> br_keybits b <= kb < 64 ->
  planned P (br_key b) kb.
Proof.
  intros HP Ha [Hb Hl] Hkb. assert (Hok := bview_ok _ _ (no_view _ HP)). fold (nview P) in Hok.
  assert (bref_ok b) as (B1 & B2 & B3) by (by eapply brefs_ok_elem).
  assert (0 < 2 ^ br_keybits b) by (apply Z.pow_pos_nonneg; lia). rewrite Forall_forall in Ha. split.
  - unfold is_u64. lia.
  - lia.
  - intros c Hc. split; [by apply Ha|]. destruct (brefs_apart _ c b Hok Hc Hb) as [->|[Hcb|Hbc]].
    + left. lia.
    + right. right. exact Hcb.
    + right. left. unfold before in Hbc. lia.
  - exists b. split; [done|]. apply in_block_refl. lia.
Qed.

Lemma file_nradix_pos n r : file_nradix n = Some r -> 0 <= r < 64.
Proof.
  unfold file_nradix. repeat (destruct (_ =? _)); intros E; try done; injection E as <-; vm_compute; done.
Qed.

Lemma freemap_up_spec k k' : freemap_up k = Some k' -> k < k' < 64.
Proof.
  unfold freemap_up. repeat (match goal with |- context [?x =? ?y] => destruct (Z.eqb_spec x y) as [->|] end);
    intros E; try done; injection E as <-; vm_compute; done.
Qed.

Lemma node_loops P : node_ok P -> zlen (nview P) <= 512 -> (length (view (nd_parent P) (nd_base P)) < maxloops)%nat.
Proof. intros HP Hl. assert (M := maxloops_eq). rewrite <- nview_length in Hl. lia. Qed.

(** The helpers choose such ranges. *)
Lemma indkey_for_ok P key bits ft ncount : node_ok P -> zlen (nview P) <= 512 -> nview P <> [] ->
  Forall aligned (nview P) -> plannable P key bits ft ncount ->
  exists ci key' kb, indkey_for (nd_parent P) (nd_base P) ft key bits ncount =
      Some (mkIndkey (set_cache_index (nd_parent P) ci) key' kb false) /\ planned P key' kb /\
    (ft = HAMMER2_BREF_TYPE_DIRENT \/ ft = HAMMER2_BREF_TYPE_INODE -> dir_planned P key bits ncount key' kb).
Proof.
  intros HP Hl Hne Ha Hp. assert (Hloops := node_loops P HP Hl). assert (Hv := no_view _ HP).
  assert (El := live_nview P HP). unfold indkey_for, plannable in *.
  destruct (for_freemap ft) eqn:Ef; [|destruct (Z.eqb_spec ft HAMMER2_BREF_TYPE_DATA) as [->|Hd]].
  - destruct (smallest_scan (nd_parent P) (nd_base P) key Hv Hloops) as (ci & b & Hb & E); [by rewrite El|].
    rewrite El in Hb. specialize (Hp b (proj1 Hb)). destruct (freemap_up (br_keybits b)) as [kb|] eqn:Eu; [|done].
    exists ci, (br_key b), kb. unfold hammer2_chain_indkey_freemap. rewrite E, Eu. apply freemap_up_spec in Eu.
    split; [done|]. split; [apply least_planned; try done; lia|]. intros [-> | ->]; done.
  - destruct Hp as (nradix & e & Er & He & Hk).
    destruct (smallest_scan (nd_parent P) (nd_base P) key Hv Hloops) as (ci & b & Hb & E); [by rewrite El|].
    rewrite El in Hb. exists ci, (br_key b), (br_keybits b + nradix). unfold hammer2_chain_indkey_file. rewrite E, Er.
    apply file_nradix_pos in Er. destruct (Z.leb_spec 64 nradix); [lia|]. split; [done|].
    split; [|intros [? | ?]; done]. apply least_planned; try done. destruct Hb as [_ Hb]. specialize (Hb e He). lia.
  - destruct Hp as (Ht & Hk & Hbits & Hal & Hnc & Hf). rewrite <- El in Hf.
    destruct (indkey_dir_spec (nd_parent P) (nd_base P) key bits ncount Hv Hloops Hk Hbits Hal Hnc Hf)
      as (ci & key' & kb & E & Hkb & Hk' & _ & Hw & Hh & Hab & Hmin); [by rewrite El|].
    rewrite El in Hw, Hh, Hmin. exists ci, key', kb.
    replace ((ft =? HAMMER2_BREF_TYPE_DIRENT) || (ft =? HAMMER2_BREF_TYPE_INODE)) with true
      by (destruct Ht as [-> | ->]; done).
    split; [done|]. split; [|by split]. rewrite Forall_forall in Ha. split; try done.
    + intros b Hb. split; [by apply Ha|left; by apply Hw].
    + destruct (List.existsb (goes key' kb) (nview P)) eqn:Ex.
      * apply List.existsb_exists in Ex as (b & Hb & Eb). exists b. split; [by apply list_elem_of_In|done].
      * exfalso. assert (countb (goes key' kb) (nview P) = 0) as Z0.
        { apply countb_none. intros b Hb. apply Bool.not_true_iff_false. intros Eb.
          assert (List.existsb (goes key' kb) (nview P) = true); [|congruence]. apply List.existsb_exists.
          exists b. split; [by apply list_elem_of_In|done]. }
        unfold goes in Z0. rewrite Z0 in Hh. destruct (nview P); [done|cbn in Hh; lia].
Qed.

(** ** The split *)

(** A full or filling table of at most 64KB whose elements are aligned. *)
Record splittable (P : node) (dir : bool) (create_key bits ft : Z) : Prop := {
  st_node : node_ok P;
  st_size : zlen (nd_base P) <= 512 /\ (for_freemap ft = true -> zlen (nd_base P) <= 256);
  st_count : pa_live_count (nd_parent P) <= zlen (nd_base P);
  st_some : nview P <> [];
  st_aligned : Forall aligned (nview P);
  st_plan : forall nbytes, ind_nbytes (br_type (pa_bref (nd_parent P))) ft dir (zlen (nd_base P)) = Some nbytes ->
    plannable P create_key bits ft (ind_ncount (br_keybits (pa_bref (nd_parent P))) nbytes)
}.

Lemma create_indirect_ok P dir create_key bits ft : splittable P dir create_key bits ft ->
  exists key kb r nb, hammer2_chain_create_indirect 0 0 (fun _ => 0) dir P create_key bits ft = Some r /\
    ind_nbytes (br_type (pa_bref (nd_parent P))) ft dir (zlen (nd_base P)) = Some nb /\
    planned P key kb /\
    (refused P key kb r \/ exists N, split P create_key key kb r N /\ zlen (nd_base N) = nb / HAMMER2_BLOCKREF_BYTES) /\
    (ft = HAMMER2_BREF_TYPE_DIRENT \/ ft = HAMMER2_BREF_TYPE_INODE ->
     dir_planned P create_key bits (ind_ncount (br_keybits (pa_bref (nd_parent P))) nb) key kb).
Proof.
  intros [HP [Hsz Hfz] Hc Hs Ha Hp]. rewrite (no_count _ HP), nview_length in Hc.
  destruct (nbytes_spec (br_type (pa_bref (nd_parent P))) ft dir (zlen (nd_base P))) as (nb & En & Hnb & Hn & Hslots); [lia|done|].
  destruct (indkey_for_ok P create_key bits ft _ HP ltac:(lia) Hs Ha (Hp nb En)) as (ci & key & kb & Ei & Hpl & Hh).
  destruct (create_splits P create_key key kb ci HP Hsz Hc (pl_key _ _ _ Hpl) (pl_bits _ _ _ Hpl) (pl_fit _ _ _ Hpl)
    dir bits ft nb En ltac:(lia) Hn Hslots Ei) as (r & E & Hr). by exists key, kb, r, nb.
Qed.

Lemma split_sizes P create_key key kb r N : split P create_key key kb r N ->
  zlen (nview (counted_node N)) = countb (goes key kb) (nview P) /\
  zlen (nview (ir_parent r)) = zlen (nview P) - countb (goes key kb) (nview P) + 1.
Proof.
  intros Hs. rewrite (sp_goes _ _ _ _ _ _ Hs), (sp_stays _ _ _ _ _ _ Hs), list_ins_length.
  assert (X := countb_split (goes key kb) (nview P)). unfold countb, stays, goes in *. lia.
Qed.

(** C11: hammer2_chain_create_indirect() partitions a table.  Where the elements
    are aligned and disjoint and the modifications succeed it returns.  Either
    the block it planned would not fit below an indirect parent, and then it
    reports EIO and nothing has changed, or the elements whose keys are in the
    range of the new block are exactly its elements, in order, the others are
    exactly those of the parent together with the block, no range crosses the
    border of the block, both tables hold their invariants with their counts and
    statistics, and the chain returned is the one the new key belongs to. *)
Theorem create_indirect_partition P dir create_key bits ft : splittable P dir create_key bits ft ->
  exists key kb r, hammer2_chain_create_indirect 0 0 (fun _ => 0) dir P create_key bits ft = Some r /\
    planned P key kb /\ (refused P key kb r \/ exists N, split P create_key key kb r N).
Proof.
  intros H. destruct (create_indirect_ok _ _ _ _ _ H) as (key & kb & r & nb & E & _ & Hp & Hr & _). exists key, kb, r.
  split; [done|]. split; [done|]. destruct Hr as [Hr|(N & Hs & _)]; [by left|right]. by exists N.
Qed.

(** A split of a directory makes room.  The new block takes at least half of
    the elements, so that a table of three slots or more that was full has a
    free slot when hammer2_chain_create_indirect() returns a chain. *)
Theorem create_indirect_dir_room P dir create_key bits ft : splittable P dir create_key bits ft ->
  ft = HAMMER2_BREF_TYPE_DIRENT \/ ft = HAMMER2_BREF_TYPE_INODE -> 3 <= zlen (nd_base P) ->
  exists r, hammer2_chain_create_indirect 0 0 (fun _ => 0) dir P create_key bits ft = Some r /\
    (ir_ret r = RetNull \/
     exists N, ir_ichain r = Some N /\ zlen (nview P) <= 2 * pa_live_count (nd_parent (counted_node N)) /\
       pa_live_count (nd_parent (ir_parent r)) < zlen (nd_base (ir_parent r))).
Proof.
  intros H Ht Hc. destruct (create_indirect_ok _ _ _ _ _ H) as (key & kb & r & nb & E & _ & Hp & Hr & Hh). exists r. split; [done|].
  destruct Hr as [Hr|(N & Hs & _)]; [left; apply Hr|right]. exists N. assert (Hd := dp_half _ _ _ _ _ _ (Hh Ht)).
  destruct (split_sizes _ _ _ _ _ _ Hs) as [S1 S2]. assert (X := st_count _ _ _ _ _ H).
  rewrite (no_count _ (st_node _ _ _ _ _ H)), nview_length in X.
  rewrite (no_count _ (sp_parent _ _ _ _ _ _ Hs)), (no_count _ (sp_block _ _ _ _ _ _ Hs)), !nview_length.
  split; [apply Hs|]. rewrite (sp_size _ _ _ _ _ _ Hs). lia.
Qed.

(** The range of a file block: the smallest key among the narrowest elements,
    widened by the radix of the block. *)
Lemma indkey_file_spec P key ncount nradix : node_ok P -> zlen (nview P) <= 512 -> nview P <> [] ->
  file_nradix ncount = Some nradix ->
  exists ci b, least (nview P) b /\ hammer2_chain_indkey_file (nd_parent P) (nd_base P) key ncount =
    Some (mkIndkey (set_cache_index (nd_parent P) ci) (br_key b) (br_keybits b + nradix) false).
Proof.
  intros HP Hl Hne Er. assert (El := live_nview P HP).
  destruct (smallest_scan (nd_parent P) (nd_base P) key (no_view _ HP) (node_loops P HP Hl)) as (ci & b & Hb & E); [by rewrite El|].
  rewrite El in Hb. exists ci, b. split; [done|]. unfold hammer2_chain_indkey_file. rewrite E, Er.
  apply file_nradix_pos in Er. by destruct (Z.leb_spec 64 nradix); [lia|].
Qed.


(** The full table of a directory inode. *)
Definition sample_dirent (key : Z) : hammer2_blockref := mkBref HAMMER2_BREF_TYPE_DIRENT 0 0 0 0 0 0 key 0 0 0 0 0 0 0.
Definition sample_inode (entries : list hammer2_blockref) : node :=
  mkNode (mkParent (mkBref HAMMER2_BREF_TYPE_INODE 0 0 0 0 0 (zlen entries) 77 0 0 0 0 0 0 0)
    HAMMER2_CHAIN_COUNTEDBREFS 0 (zlen entries) (zlen entries) []) entries.
Definition sample_dir : node :=
  sample_inode (sample_dirent <$> [2 ^ 63 + 5; 2 ^ 63 + 2 ^ 40; 2 ^ 63 + 2 ^ 41; 2 ^ 63 + 2 ^ 62]).

Lemma sample_dir_splittable : splittable sample_dir true (2 ^ 63 + 7) 0 HAMMER2_BREF_TYPE_DIRENT.
Proof.
  assert (En : nview sample_dir = nd_base sample_dir) by done.
  assert (Hok : brefs_ok (nd_base sample_dir)).
  { split; [repeat constructor; cbn; lia|].
    repeat (apply StronglySorted_cons; split; [repeat constructor; unfold before; cbn; lia|]). constructor. }
  split; rewrite ?En; try done.
  - split; [split|..].
    + by split.
    + split; constructor.
    + intros c e Hc. by apply elem_of_nil in Hc.
    + split; try done; [by right|repeat constructor; cbn; lia].
    + done.
    + intros c Hc. by apply elem_of_nil in Hc.
  - repeat constructor.
  - intros nbytes E. injection E as <-. split; [by left|]. split_and!; try done.
    rewrite En. repeat constructor; cbn; try lia; unfold range_end; cbn; lia.
Qed.

Lemma create_indirect_partition_witness : exists key kb r,
  hammer2_chain_create_indirect 0 0 (fun _ => 0) true sample_dir (2 ^ 63 + 7) 0 HAMMER2_BREF_TYPE_DIRENT = Some r /\
  planned sample_dir key kb /\ (refused sample_dir key kb r \/ exists N, split sample_dir (2 ^ 63 + 7) key kb r N).
Proof. exact (create_indirect_partition sample_dir true _ 0 _ sample_dir_splittable). Defined.

Lemma create_indirect_dir_room_witness : exists r,
  hammer2_chain_create_indirect 0 0 (fun _ => 0) true sample_dir (2 ^ 63 + 7) 0 HAMMER2_BREF_TYPE_DIRENT = Some r /\
  (ir_ret r = RetNull \/
   exists N, ir_ichain r = Some N /\ zlen (nview sample_dir) <= 2 * pa_live_count (nd_parent (counted_node N)) /\
     pa_live_count (nd_parent (ir_parent r)) < zlen (nd_base (ir_parent r))).
Proof. apply (create_indirect_dir_room sample_dir true _ 0 _ sample_dir_splittable); [by left|cbn; lia]. Defined.

(** A file with four blocks of 2^58 bytes, each below an indirect block. *)
Definition sample_ind (key : Z) : hammer2_blockref := mkBref HAMMER2_BREF_TYPE_INDIRECT 0 0 58 0 0 1 key 0 0 0 0 0 0 0.
Definition sample_sparse : node := sample_inode (sample_ind <$> [0; 2 ^ 60; 2 ^ 61; 2 ^ 62]).

Lemma sample_sparse_ok : node_ok sample_sparse.
Proof.
  assert (Hok : brefs_ok (nd_base sample_sparse)).
  { split; [repeat constructor; cbn; lia|].
    repeat (apply StronglySorted_cons; split; [repeat constructor; unfold before; cbn; lia|]). constructor. }
  split; [split|..].
  - by split.
  - split; constructor.
  - intros c e Hc. by apply elem_of_nil in Hc.
  - split; try done; [by right|repeat constructor; cbn; lia].
  - done.
  - intros c Hc. by apply elem_of_nil in Hc.
Qed.

