(* ===== verification/ChainTree.v ===== *)
(** Lookups in the tree of chains (hammer2_chain.c): hammer2_chain_lookup() and
    hammer2_chain_next(), with the way up of hammer2_chain_repparent().

    A tree is a chain with its table, its error and the indirect blocks below it
    whose data is in memory.  The flags and the blockref of an indirect block
    that its parent works on are those of its [child] in the parent, those of
    its own table are in its [parent] record.  [parentp] is a cursor: the chain
    it points to, and the chains above it, nearest first, each without the one
    below.  The chains are locked, so that no race makes a lookup start over,
    and the contents of the blocks on the media and the error of loading them
    are a parameter. *)
From S2P Require Import Prelude Disk Subr BlockTable Indirect.
From Stdlib Require Import ZArith Lia Bool.
From stdpp Require Import base list.
Open Scope Z_scope.

Definition is_indirect (b : hammer2_blockref) : bool :=
  (br_type b =? HAMMER2_BREF_TYPE_INDIRECT) || (br_type b =? HAMMER2_BREF_TYPE_FREEMAP_NODE).

Unset Elimination Schemes.
Inductive tree := Tree (n : node) (err : Z) (subs : list tree).
Set Elimination Schemes.

Definition t_node (t : tree) : node := let '(Tree n _ _) := t in n.
Definition t_error (t : tree) : Z := let '(Tree _ e _) := t in e.
Definition t_subs (t : tree) : list tree := let '(Tree _ _ s) := t in s.
Definition t_parent (t : tree) : parent := nd_parent (t_node t).
Definition t_bref (t : tree) : hammer2_blockref := pa_bref (t_parent t).
Definition set_parent (t : tree) (p : parent) : tree := Tree (mkNode p (nd_base (t_node t))) (t_error t) (t_subs t).

(** The block below the chain at a key. *)
Definition sub_at (key : Z) (subs : list tree) : option tree :=
  List.find (fun s => br_key (t_bref s) =? key) subs.
Definition sub_del (key : Z) (subs : list tree) : list tree :=
  List.filter (fun s => negb (br_key (t_bref s) =? key)) subs.

(** The chain without that block, and the chain [u] with [t] below it again. *)
Definition without (t : tree) (key : Z) : tree := Tree (t_node t) (t_error t) (sub_del key (t_subs t)).
Definition put (u t : tree) : tree := Tree (t_node u) (t_error u) (t :: t_subs u).

(** ** The way up *)

(** hammer2_chain_repparent(): [None] where the chain has no parent. *)
Definition hammer2_chain_repparent (t : tree) (up : list tree) : option (tree * list tree) :=
  match up with
  | [] => None
  | u :: up => Some (put u t, up)
  end.

(** The loop at the start of a lookup: up until the chain has all of the range
    or is no indirect block. *)
Fixpoint lookup_up (t : tree) (up : list tree) (key_beg key_end : Z) : option (tree * list tree) :=
  let b := t_bref t in
  if negb (is_indirect b) then Some (t, up)
  else if negb (has (pa_flags (t_parent t)) HAMMER2_CHAIN_DELETED) &&
          (br_key b <=? key_beg) && (key_end <=? key_last b) then Some (t, up)
  else
    match up with
    | [] => None
    | u :: up => lookup_up (put u t) up key_beg key_end
    end.

(** ** The lookup *)

Inductive found :=
  | NotFound
  | Found (c : child)
  | FoundParent.              (* the chain of the cursor itself *)

Record lookup_result := mkLookup {
  lk_tree : tree;
  lk_up : list tree;
  lk_key_next : Z;
  lk_found : found;
  lk_error : Z;
  lk_hpanic : bool
}.

(** The flags of a lookup that are not about locks, and whether the inode has
    its data in itself. *)
Record lookup_flags := mkLflags { lf_matchind : bool; lf_nodirect : bool; lf_directdata : bool }.

(** The types of chains that have a table. *)
Definition has_table (b : hammer2_blockref) : bool :=
  (br_type b =? HAMMER2_BREF_TYPE_INODE) || is_indirect b ||
  (br_type b =? HAMMER2_BREF_TYPE_VOLUME) || (br_type b =? HAMMER2_BREF_TYPE_FREEMAP).

(** The table: none for a block in the INITIAL state. *)
Definition t_base (t : tree) : option (list hammer2_blockref) :=
  if is_indirect (t_bref t) && has (pa_flags (t_parent t)) HAMMER2_CHAIN_INITIAL then None
  else Some (nd_base (t_node t)).

Section Lookup.
Context (media : hammer2_blockref -> list hammer2_blockref * Z).

(** The chain of an indirect block whose data was not in memory: nothing below
    it is, and its table is the one on the media. *)
Definition load (b : hammer2_blockref) : tree :=
  Tree (mkNode (mkParent b 0 0 0 0 []) (media b).1) (media b).2 [].

(** The chain of an indirect block, with its data. *)
Definition block_chain (t : tree) (b : hammer2_blockref) : tree := default (load b) (sub_at (br_key b) (t_subs t)).

(** The element found: the chain in memory, or a new one from its blockref. *)
Definition get_chain (t : tree) (chain : option child) (bref : hammer2_blockref) : option (tree * child) :=
  match chain with
  | Some c => Some (t, c)
  | None =>
      match hammer2_chain_get (t_parent t) bref with
      | None => None
      | Some (p, c) =>
          Some (set_parent t p, c)
      end
  end.

(** The loop from [again].  [loops] is [maxloops - 1]. *)
Fixpoint lookup_again (fl : lookup_flags) (loops : nat) (t : tree) (up : list tree) (key_next key_beg key_end : Z)
    : option lookup_result :=
  match loops with
  | O => Some (mkLookup t up key_next NotFound HAMMER2_ERROR_EIO true)
  | S loops =>
      let b := t_bref t in
      if is_indirect b && lf_matchind fl && (key_beg =? br_key b) && (key_end =? key_last b)
      then Some (mkLookup t up (key_stop b) FoundParent 0 false)
      else if nz (t_error t) then Some (mkLookup t up key_next NotFound (t_error t) false)
      else if (br_type b =? HAMMER2_BREF_TYPE_INODE) && lf_directdata fl
      then Some (mkLookup t up (u64 (key_end + 1)) (if lf_nodirect fl then NotFound else FoundParent) 0 false)
      else if negb (has_table b) then Some (mkLookup t up key_next NotFound HAMMER2_ERROR_EIO true)
      else
        let base := t_base t in
        let count := zlen (nd_base (t_node t)) in
        let p := hammer2_chain_countbrefs (t_parent t) base count in
        match hammer2_combined_find p base count key_beg key_end with
        | None => None
        | Some (p, key_next, _, None) =>
            let t := set_parent t p in
            let null := Some (mkLookup t up key_next NotFound 0 false) in
            if key_beg =? key_end then null
            else if negb (is_indirect b) then null
            else
              let key_beg := key_stop b in
              if (key_beg =? 0) || (key_end <? key_beg) then null
              else
                match hammer2_chain_repparent t up with
                | None => None
                | Some (t, up) => lookup_again fl loops t up key_next key_beg key_end
                end
        | Some (p, key_next, chain, Some bref) =>
            match get_chain (set_parent t p) chain bref with
            | None => None
            | Some (t, c) =>
                if has (cd_flags c) HAMMER2_CHAIN_DELETED then
                  let key_beg := key_next in
                  if (key_beg =? 0) || (key_end <? key_beg)
                  then Some (mkLookup t up key_next NotFound 0 false)
                  else lookup_again fl loops t up key_next key_beg key_end
                else if is_indirect (cd_bref c) then
                  lookup_again fl loops (block_chain t (cd_bref c)) (without t (br_key (cd_bref c)) :: up) key_next key_beg key_end
                else Some (mkLookup t up key_next (Found c) 0 false)
            end
        end
  end.

Definition hammer2_chain_lookup (fl : lookup_flags) (t : tree) (up : list tree) (key_next key_beg key_end : Z)
    : option lookup_result :=
  match lookup_up t up key_beg key_end with
  | None => None
  | Some (t, up) => lookup_again fl maxloops t up key_next key_beg key_end
  end.

(** [chain] is what the lookup before returned. *)
Definition hammer2_chain_next (fl : lookup_flags) (t : tree) (up : list tree) (chain : found) (key_next key_end : Z)
    : option lookup_result :=
  let null := Some (mkLookup t up key_next NotFound 0 false) in
  match chain with
  | FoundParent => null
  | Found c =>
      let key_beg := key_stop (cd_bref c) in
      if (key_beg =? 0) || (key_end <? key_beg) then null
      else hammer2_chain_lookup fl t up key_next key_beg key_end
  | NotFound =>
      if negb (is_indirect (t_bref t)) then null
      else
        let key_beg := key_stop (t_bref t) in
        if (key_beg =? 0) || (key_end <? key_beg) then null
        else
          match hammer2_chain_repparent t up with
          | None => None
          | Some (t, up) => hammer2_chain_lookup fl t up key_next key_beg key_end
          end
  end.

(** The loop of a caller: the blockrefs a lookup and the nexts after it give,
    the error it ends with and hpanic(). *)
Fixpoint next_all (fl : lookup_flags) (n : nat) (r : lookup_result) (key_end : Z) : option (list hammer2_blockref * lookup_result) :=
  match lk_found r with
  | Found c =>
      match n with
      | O => None
      | S n =>
          match hammer2_chain_next fl (lk_tree r) (lk_up r) (lk_found r) (lk_key_next r) key_end with
          | None => None
          | Some r =>
              match next_all fl n r key_end with
              | None => None
              | Some (l, r) => Some (cd_bref c :: l, r)
              end
          end
      end
  | _ => Some ([], r)
  end.
End Lookup.
