(* ===== verification/ChainTreeProof.v ===== *)
(** Lookups in the tree of chains: a lookup and the nexts after it enumerate the
    elements of a range in the order of their keys, across the indirect blocks
    and whether or not these are in memory. *)
From S2P Require Import Prelude Disk Subr BlockTable BlockTableProof BlockView Indirect IndirectProof IndirectMove ChainTree.
From Stdlib Require Import ZArith Lia Bool.
From stdpp Require Import base list sorting.
Open Scope Z_scope.

(** ** The elements of a tree *)

Definition same_head (b b' : hammer2_blockref) : Prop :=
  br_key b' = br_key b /\ br_keybits b' = br_keybits b /\ br_type b' = br_type b.

Lemma same_head_ind b b' : same_head b b' -> is_indirect b' = is_indirect b.
Proof. intros (_ & _ & E). unfold is_indirect. by rewrite E. Qed.

Lemma same_head_end b b' : same_head b b' -> range_end b' = range_end b.
Proof. intros (E1 & E2 & _). unfold range_end. by rewrite E1, E2. Qed.

Section Media.
Context (media : hammer2_blockref -> list hammer2_blockref * Z).

Abbreviation sub := (block_chain media).

(** The elements of a chain. *)
Definition vw (t : tree) : list hammer2_blockref := nview (counted_node (t_node t)).

(** What a chain of the tree is on its own. *)
Record tree_top (t : tree) : Prop := {
  tt_node : node_ok (counted_node (t_node t));
  tt_error : t_error t = 0;
  tt_table : has_table (t_bref t) = true;
  tt_initial : has (pa_flags (t_parent t)) HAMMER2_CHAIN_INITIAL = false;
  tt_deleted : has (pa_flags (t_parent t)) HAMMER2_CHAIN_DELETED = false;
  tt_subs : forall s, s ∈ t_subs t -> exists b, b ∈ vw t /\ is_indirect b = true /\ br_key b = br_key (t_bref s);
  tt_aligned : Forall aligned (vw t);
  tt_size : exists k, zlen (nd_base (t_node t)) = 2 ^ k /\ 2 <= k <= 9;
  tt_room : zlen (vw t) <= zlen (nd_base (t_node t))
}.

(** The block of an element has its elements inside of it. *)
Definition inside (b x : hammer2_blockref) : Prop := br_key b <= br_key x /\ range_end x <= range_end b.
Definition below (b : hammer2_blockref) (s : tree) : Prop := same_head b (t_bref s) /\ forall x, x ∈ vw s -> inside b x.

Fixpoint tree_ok (d : nat) (t : tree) : Prop :=
  match d with
  | O => False
  | S d => tree_top t /\ forall b, b ∈ vw t -> is_indirect b = true -> below b (sub t b) /\ tree_ok d (sub t b)
  end.

(** All elements, an indirect block ahead of those below it, and the leaves. *)
Fixpoint elems (d : nat) (t : tree) : list hammer2_blockref :=
  match d with
  | O => []
  | S d => concat ((fun b => b :: if is_indirect b then elems d (sub t b) else []) <$> vw t)
  end.

Definition leaf (b : hammer2_blockref) : bool := negb (is_indirect b).
Definition leaves (d : nat) (t : tree) : list hammer2_blockref := List.filter leaf (elems d t).
Definition blocks (d : nat) (t : tree) : Z := countb is_indirect (elems d t).

Definition leaves_of (d : nat) (t : tree) (b : hammer2_blockref) : list hammer2_blockref :=
  if is_indirect b then leaves d (sub t b) else [b].

Lemma leaves_eq d t : leaves (S d) t = concat (leaves_of d t <$> vw t).
Proof.
  unfold leaves, leaves_of. cbn [elems]. induction (vw t) as [|b l IH]; [done|]. cbn [fmap list_fmap concat].
  rewrite List.filter_app. rewrite IH. f_equal. cbn [List.filter]. unfold leaf at 1. by destruct (is_indirect b).
Qed.

Definition blocks_of (d : nat) (t : tree) (b : hammer2_blockref) : Z :=
  if is_indirect b then 1 + blocks d (sub t b) else 0.

Lemma blocks_nonneg d t : 0 <= blocks d t.
Proof. apply countb_nonneg. Qed.

Lemma blocks_of_nonneg d t b : 0 <= blocks_of d t b.
Proof. unfold blocks_of. destruct (is_indirect b); [|lia]. assert (X := blocks_nonneg d (sub t b)). lia. Qed.

Lemma blocks_eq d t : blocks (S d) t = sum_of (blocks_of d t) (vw t).
Proof.
  unfold blocks, blocks_of. cbn [elems]. induction (vw t) as [|b l IH]; [done|]. cbn [fmap list_fmap concat].
  rewrite countb_app, IH. cbn [sum_of foldr]. rewrite countb_cons. unfold sum_of, blocks. destruct (is_indirect b); [lia|done].
Qed.

(** ** The order of the leaves *)

Lemma elem_concat {A B} (F : A -> list B) l x : x ∈ concat (F <$> l) <-> exists b, b ∈ l /\ x ∈ F b.
Proof.
  rewrite list_elem_of_In, in_concat. split.
  - intros (k & Hk & Hx). apply list_elem_of_In, list_elem_of_fmap in Hk as (b & -> & Hb). exists b. split; [done|]. by apply list_elem_of_In.
  - intros (b & Hb & Hx). exists (F b). split; apply list_elem_of_In; [by apply list_elem_of_fmap_2|done].
Qed.

Lemma vw_ok t : tree_top t -> brefs_ok (vw t).
Proof. intros Ht. apply bview_ok, tt_node, Ht. Qed.

Lemma inside_trans a b c : inside a b -> inside b c -> inside a c.
Proof. unfold inside. lia. Qed.

Lemma leaves_inside d : forall t b, tree_ok d t -> below b t -> forall x, x ∈ leaves d t -> inside b x.
Proof.
  induction d as [|d IH]; intros t b Ht [_ Hb] x Hx; [done|]. rewrite leaves_eq in Hx.
  apply elem_concat in Hx as (y & Hy & Hx).
  unfold leaves_of in Hx. destruct (is_indirect y) eqn:Ey; [|apply list_elem_of_singleton in Hx as ->; auto].
  destruct Ht as [_ Ht]. destruct (Ht y Hy Ey) as [Hyb Hok]. apply (inside_trans _ y); [auto|by apply (IH (sub t y))].
Qed.

Lemma leaves_of_inside d t b x : tree_ok (S d) t -> b ∈ vw t -> x ∈ leaves_of d t b -> inside b x.
Proof.
  intros [_ Ht] Hb Hx. unfold leaves_of in Hx. destruct (is_indirect b) eqn:E.
  - destruct (Ht b Hb E). by apply (leaves_inside d (sub t b)).
  - apply list_elem_of_singleton in Hx as ->. unfold inside. lia.
Qed.

Lemma concat_ok (F : hammer2_blockref -> list hammer2_blockref) l : brefs_ok l ->
  (forall b, b ∈ l -> brefs_ok (F b) /\ forall x, x ∈ F b -> inside b x) -> brefs_ok (concat (F <$> l)).
Proof.
  induction l as [|b l IH]; intros Hl HF; [split; constructor|]. apply brefs_ok_cons in Hl as (_ & Hl & Hbl).
  cbn [fmap list_fmap concat]. apply brefs_ok_app. destruct (HF b ltac:(apply elem_of_cons; by left)) as [F1 F2].
  split_and!; [done|apply IH; [done|intros; apply HF, elem_of_cons; by right]|].
  intros x y Hx Hy. apply elem_concat in Hy as (c & Hc & Hy).
  destruct (HF c ltac:(apply elem_of_cons; by right)) as [_ G2]. specialize (F2 x Hx). specialize (G2 y Hy).
  specialize (Hbl c Hc). unfold inside, before, range_end in *. lia.
Qed.

Lemma leaves_ok d : forall t, tree_ok d t -> brefs_ok (leaves d t).
Proof.
  induction d as [|d IH]; intros t Ht; [done|]. rewrite leaves_eq. assert (Hv := vw_ok t (proj1 Ht)). apply concat_ok; [done|].
  intros b Hb. split; [|intros x Hx; by apply (leaves_of_inside d t)]. unfold leaves_of. destruct (is_indirect b) eqn:E.
  - apply IH. by apply Ht.
  - apply brefs_ok_one. by eapply brefs_ok_elem.
Qed.

(** ** A cursor and its tree *)

(** The whole tree of a cursor. *)
Fixpoint zip (t : tree) (up : list tree) : tree :=
  match up with
  | [] => t
  | u :: up => zip (put u t) up
  end.

(** The chains of a cursor hang below each other, the last below none. *)
Fixpoint path (t : tree) (up : list tree) : Prop :=
  match up with
  | [] => is_indirect (t_bref t) = false
  | u :: up => (exists b, b ∈ vw u /\ is_indirect b = true /\ br_key b = br_key (t_bref t)) /\ path (put u t) up
  end.

Lemma sub_put u t b : sub (put u t) b = if br_key (t_bref t) =? br_key b then t else sub u b.
Proof. unfold block_chain, sub_at, put. cbn [t_subs List.find]. by destruct (_ =? _). Qed.

Lemma vw_key_inj t a b : tree_top t -> a ∈ vw t -> b ∈ vw t -> br_key a = br_key b -> a = b.
Proof.
  intros Ht Ha Hb E. apply (brefs_key_inj (fun x => x) (vw t)); try done. rewrite list_fmap_id. by apply vw_ok.
Qed.

Lemma zip_ok up : forall d t, path t up -> tree_ok (d + length up) (zip t up) -> tree_ok d t.
Proof.
  induction up as [|u up IH]; intros d t Hp Hz; cbn [zip length] in *; [by rewrite Nat.add_0_r in Hz|].
  destruct Hp as [(b & Hb & Eb & Ek) Hp]. rewrite Nat.add_succ_r in Hz. apply (IH (S d)) in Hz as [_ Ht]; [|done].
  destruct (Ht b Hb Eb) as [_ X]. rewrite sub_put, Ek, Z.eqb_refl in X. done.
Qed.

Lemma zip_top up : forall d t, path t up -> tree_ok (d + length up) (zip t up) -> up <> [] -> exists b,
  below b t /\ is_indirect (t_bref t) = true.
Proof.
  destruct up as [|u up]; intros d t Hp Hz Hne; [done|]. cbn [zip length] in *.
  destruct Hp as [(b & Hb & Eb & Ek) Hp]. rewrite Nat.add_succ_r in Hz. apply (zip_ok up (S d)) in Hz as [_ Ht]; [|done].
  destruct (Ht b Hb Eb) as [X _]. rewrite sub_put, Ek, Z.eqb_refl in X. exists b. split; [done|].
  destruct X as [X _]. by rewrite (same_head_ind _ _ X).
Qed.

(** Two trees that differ in what is in memory. *)
Record same_tree (d : nat) (t t' : tree) : Prop := {
  sm_head : same_head (t_bref t) (t_bref t');
  sm_vw : vw t' = vw t;
  sm_ok : tree_ok (S d) t';
  sm_elems : forall b, b ∈ vw t -> is_indirect b = true -> elems d (sub t' b) = elems d (sub t b)
}.

Lemma same_elems d t t' : same_tree d t t' -> elems (S d) t' = elems (S d) t.
Proof.
  intros H. cbn [elems]. rewrite (sm_vw _ _ _ H). f_equal. apply list_fmap_ext. intros i b Hb.
  apply list_elem_of_lookup_2 in Hb. destruct (is_indirect b) eqn:E; [|done]. by rewrite (sm_elems _ _ _ H).
Qed.

Lemma same_refl d t : tree_ok (S d) t -> same_tree d t t.
Proof. intros H. split; try done. Qed.

Lemma same_trans d t1 t2 t3 : same_tree d t1 t2 -> same_tree d t2 t3 -> same_tree d t1 t3.
Proof.
  intros [H1 V1 _ E1] [H2 V2 K2 E2]. split.
  - destruct H1 as (? & ? & ?), H2 as (? & ? & ?). split_and!; congruence.
  - congruence.
  - done.
  - intros b Hb Hi. rewrite E2, E1; try done. by rewrite V1.
Qed.

Lemma same_put d u t t' : tree_ok (S (S d)) (put u t) -> same_tree d t t' -> same_tree (S d) (put u t) (put u t').
Proof.
  intros [Hu Hs] H. destruct (sm_head _ _ _ H) as (Ek & Eb & Et). split; [done|done| |].
  - split.
    + destruct Hu as [U1 U2 U3 U4 U5 U6 U7 U8 U9]. split; try done.
      intros s Hin. apply elem_of_cons in Hin as [->|Hin]; [|apply U6, elem_of_cons; by right].
      rewrite Ek. apply U6, elem_of_cons. by left.
    + intros b Hb Hi. destruct (Hs b Hb Hi) as [Hbel Hok]. rewrite sub_put in Hbel, Hok |- *. rewrite Ek.
      destruct (br_key (t_bref t) =? br_key b); [|done]. split; [|apply H]. destruct Hbel as [Hd Hin]. split.
      * destruct Hd as (? & ? & ?). split_and!; congruence.
      * rewrite (sm_vw _ _ _ H). done.
  - intros b Hb Hi. rewrite !sub_put, Ek. destruct (_ =? _); [by apply same_elems|done].
Qed.

Lemma same_zip up : forall d t t', path t up -> tree_ok (S d + length up) (zip t up) -> same_tree d t t' ->
  same_tree (d + length up) (zip t up) (zip t' up) /\ path t' up.
Proof.
  induction up as [|u up IH]; intros d t t' Hp Hz H; cbn [zip length path] in *.
  { rewrite Nat.add_0_r in *. split; [done|]. by rewrite (same_head_ind _ _ (sm_head _ _ _ H)). }
  destruct Hp as [Hb Hp]. rewrite Nat.add_succ_r in *.
  assert (tree_ok (S (S d)) (put u t)) as Hok by (apply (zip_ok up); [done|exact Hz]).
  destruct (IH (S d) (put u t) (put u t') Hp Hz (same_put d u t t' Hok H)) as [H1 H2]. split; [exact H1|].
  split; [|done]. destruct (sm_head _ _ _ H) as (Ek & _). by rewrite Ek.
Qed.

(** The leaves of the tree are those below the chain of the cursor, ahead of its
    range and after it. *)
Lemma zip_leaves up : forall d t, path t up -> tree_ok (S d + length up) (zip t up) ->
  exists A B, leaves (S d + length up) (zip t up) = A ++ leaves (S d) t ++ B /\
    (up = [] -> A = [] /\ B = []) /\
    (up <> [] -> (forall x, x ∈ A -> range_end x <= br_key (t_bref t)) /\
                 (forall x, x ∈ B -> range_end (t_bref t) <= br_key x)).
Proof.
  induction up as [|u up IH]; intros d t Hp Hz; cbn [zip length path] in *.
  { rewrite Nat.add_0_r. exists [], []. rewrite app_nil_r. done. }
  destruct Hp as [(b & Hb & Eb & Ek) Hp]. rewrite Nat.add_succ_r in *.
  assert (tree_ok (S (S d)) (put u t)) as Hok by (apply (zip_ok up); [done|exact Hz]).
  destruct (IH (S d) (put u t) Hp Hz) as (A & B & E & Hnil & Hcons).
  assert (sub (put u t) b = t) as Es by (by rewrite sub_put, Ek, Z.eqb_refl).
  destruct Hok as [Hu Hs]. destruct (Hs b Hb Eb) as [[Hh _] _]. rewrite Es in Hh.
  apply list_elem_of_split in Hb as Hsplit. destruct Hsplit as (l1 & l2 & El).
  change (vw (put u t)) with (vw u) in *. assert (Hv := vw_ok _ Hu). change (vw (put u t)) with (vw u) in Hv.
  rewrite El in Hv. apply brefs_ok_app in Hv as (_ & Hv & H12). apply brefs_ok_cons in Hv as (_ & _ & H2).
  exists (A ++ concat (leaves_of (S d) (put u t) <$> l1)), (concat (leaves_of (S d) (put u t) <$> l2) ++ B).
  split; [|split; [done|intros _]].
  - cbn [plus] in *. rewrite E, leaves_eq. change (vw (put u t)) with (vw u). rewrite El, fmap_app, concat_app. cbn [fmap list_fmap concat].
    unfold leaves_of at 2. rewrite Eb, Es, !app_assoc. done.
  - assert (Hin : forall y x, y ∈ l1 \/ y ∈ l2 -> x ∈ leaves_of (S d) (put u t) y -> inside y x).
    { intros y x Hy Hx. apply (leaves_of_inside (S d) (put u t)); [done| |done]. change (vw (put u t)) with (vw u).
      rewrite El, elem_of_app, elem_of_cons. tauto. }
    assert (Hout : up <> [] -> (forall x, x ∈ A -> range_end x <= br_key b) /\ (forall x, x ∈ B -> range_end b <= br_key x)).
    { intros Hne. destruct (Hcons Hne) as [HA HB]. destruct (zip_top up (S (S d)) (put u t) Hp Hz Hne) as (c & [Hc1 Hc2] & _).
      specialize (Hc2 b Hb). rewrite (same_head_end _ _ Hc1) in HB. destruct Hc1 as (Ec & _). unfold inside in Hc2.
      split; intros x Hx; [specialize (HA x Hx)|specialize (HB x Hx)]; lia. }
    assert (Hout' : (forall x, x ∈ A -> range_end x <= br_key b) /\ (forall x, x ∈ B -> range_end b <= br_key x)).
    { destruct up; [|by apply Hout]. destruct (Hnil eq_refl) as [-> ->]. by split; intros x Hx; apply elem_of_nil in Hx. }
    destruct Hout' as [HA HB]. rewrite (same_head_end _ _ Hh), <- Ek. split; intros x [Hx|Hx]%elem_of_app; auto.
    + apply elem_concat in Hx as (y & Hy & Hx). specialize (H12 y b Hy ltac:(apply elem_of_cons; by left)).
      specialize (Hin y x (or_introl Hy) Hx). unfold inside, before, range_end in *. lia.
    + apply elem_concat in Hx as (y & Hy & Hx). specialize (H2 y Hy).
      specialize (Hin y x (or_intror Hy) Hx). unfold inside, before, range_end in *. lia.
Qed.

(** The elements below the chain of the cursor are elements of the tree, and so
    is the chain. *)
Lemma elems_zip up : forall d t x, path t up -> x ∈ elems d t -> x ∈ elems (d + length up) (zip t up).
Proof.
  induction up as [|u up IH]; intros d t x Hp Hx; cbn [zip length path] in *; [by rewrite Nat.add_0_r|].
  destruct Hp as [(b & Hb & Eb & Ek) Hp]. rewrite Nat.add_succ_r. apply (IH (S d)); [done|].
  cbn [elems]. apply elem_concat. exists b. split; [done|]. rewrite Eb, sub_put, Ek, Z.eqb_refl. apply elem_of_cons. by right.
Qed.

Lemma zip_elem up d t : path t up -> tree_ok (S d + length up) (zip t up) -> up <> [] ->
  exists b, b ∈ elems (S d + length up) (zip t up) /\ is_indirect b = true /\ range_end b = range_end (t_bref t).
Proof.
  destruct up as [|u up]; intros Hp Hz Hne; cbn [zip length path] in *; [done|].
  destruct Hp as [(b & Hb & Eb & Ek) Hp]. rewrite Nat.add_succ_r in *.
  assert (tree_ok (S (S d)) (put u t)) as Hok by (apply (zip_ok up); [done|exact Hz]).
  destruct Hok as [Hu Hs]. destruct (Hs b Hb Eb) as [[Hh _] _]. rewrite sub_put, Ek, Z.eqb_refl in Hh.
  exists b. split; [|by rewrite (same_head_end _ _ Hh)]. apply (elems_zip up (S (S d))); [done|].
  cbn [elems]. apply elem_concat. exists b. split; [done|]. apply elem_of_cons. by left.
Qed.

(** ** The rounds of a lookup *)

(** What a lookup can still visit: below the chain from a key on, and below the
    chains above from the end of the one below on. *)
Definition ahead (d : nat) (t : tree) (key : Z) : Z :=
  sum_of (fun b => if key <? range_end b then 2 * blocks_of d t b else 0) (vw t).

Fixpoint ahead_up (d : nat) (t : tree) (up : list tree) : Z :=
  match up with
  | [] => 0
  | u :: up => 1 + ahead d (put u t) (range_end (t_bref t)) + ahead_up (S d) (put u t) up
  end.

Lemma sum_of_le f g l : (forall b, b ∈ l -> f b <= g b) -> sum_of f l <= sum_of g l.
Proof.
  induction l as [|b l IH]; intros H; cbn; [lia|]. assert (X := H b ltac:(apply elem_of_cons; by left)).
  assert (Y := IH ltac:(intros; apply H, elem_of_cons; by right)). unfold sum_of in Y. lia.
Qed.

Lemma sum_of_ext f g l : (forall b, b ∈ l -> f b = g b) -> sum_of f l = sum_of g l.
Proof. intros H. apply Z.le_antisymm; apply sum_of_le; intros b Hb; rewrite H; done || lia. Qed.

(** One term can be taken out. *)
Lemma sum_of_one f g l b : b ∈ l -> (forall x, x ∈ l -> 0 <= g x <= f x) -> g b = 0 -> sum_of g l + f b <= sum_of f l.
Proof.
  induction l as [|a l IH]; intros Hb H Hg; [by apply elem_of_nil in Hb|]. cbn.
  assert (Ha := H a ltac:(apply elem_of_cons; by left)).
  assert (Hl : forall x, x ∈ l -> 0 <= g x <= f x) by (intros; apply H, elem_of_cons; by right).
  apply elem_of_cons in Hb as [->|Hb].
  - rewrite Hg. assert (X := sum_of_le g f l ltac:(intros x Hx; apply Hl, Hx)). unfold sum_of in X. lia.
  - specialize (IH Hb Hl Hg). unfold sum_of in IH. lia.
Qed.

Lemma sum_of_scale k f l : sum_of (fun b => k * f b) l = k * sum_of f l.
Proof. induction l as [|b l IH]; cbn; [lia|]. unfold sum_of in IH. lia. Qed.

Lemma ahead_le d t key : ahead d t key <= 2 * blocks (S d) t.
Proof.
  unfold ahead. rewrite blocks_eq, <- sum_of_scale. apply sum_of_le. intros b _. assert (X := blocks_of_nonneg d t b).
  destruct (_ <? _); lia.
Qed.

(** The visit of the block of [b] pays for the way down and back. *)
Lemma ahead_step d t key b : b ∈ vw t -> is_indirect b = true -> key < range_end b ->
  ahead d t (range_end b) + 2 + 2 * blocks d (sub t b) <= ahead d t key.
Proof.
  intros Hb Hi Hk. unfold ahead.
  set (f := fun x => if key <? range_end x then 2 * blocks_of d t x else 0).
  set (g := fun x => if range_end b <? range_end x then 2 * blocks_of d t x else 0).
  assert (f b = 2 + 2 * blocks d (sub t b)) as Ef.
  { unfold f, blocks_of. rewrite Hi. destruct (Z.ltb_spec key (range_end b)); lia. }
  assert (X := sum_of_one f g (vw t) b Hb). rewrite Ef in X. enough (sum_of g (vw t) + (2 + 2 * blocks d (sub t b)) <= sum_of f (vw t)) by lia.
  apply X; unfold g; [|by rewrite Z.ltb_irrefl]. intros x Hx. assert (Y := blocks_of_nonneg d t x). unfold f.
  destruct (Z.ltb_spec (range_end b) (range_end x)), (Z.ltb_spec key (range_end x)); lia.
Qed.

Lemma ahead_nonneg d t key : 0 <= ahead d t key.
Proof.
  unfold ahead. set (f := fun b => _). assert (X := sum_of_le (fun _ => 0) f (vw t)).
  assert (sum_of (fun _ => 0) (vw t) = 0) as E0 by (clear; induction (vw t); [done|cbn; unfold sum_of in *; lia]).
  rewrite E0 in X. apply X. intros b _. unfold f. assert (Y := blocks_of_nonneg d t b). destruct (_ <? _); lia.
Qed.

Lemma ahead_up_nonneg d t up : 0 <= ahead_up d t up.
Proof.
  revert d t. induction up as [|u up IH]; intros d t; cbn [ahead_up]; [lia|].
  specialize (IH (S d) (put u t)). assert (X := ahead_nonneg d (put u t) (range_end (t_bref t))). lia.
Qed.

Lemma ahead_up_le up : forall d t, path t up -> tree_ok (S d + length up) (zip t up) ->
  2 * blocks (S d) t + ahead_up (S d) t up <= 2 * blocks (S d + length up) (zip t up).
Proof.
  induction up as [|u up IH]; intros d t Hp Hz; cbn [zip length path ahead_up] in *; [rewrite Nat.add_0_r; lia|].
  destruct Hp as [(b & Hb & Eb & Ek) Hp]. rewrite Nat.add_succ_r in *. specialize (IH (S d) (put u t) Hp Hz).
  assert (tree_ok (S (S d)) (put u t)) as Hok by (apply (zip_ok up); [done|exact Hz]).
  destruct Hok as [Hu Hs]. destruct (Hs b Hb Eb) as [[Hh _] _]. rewrite sub_put, Ek, Z.eqb_refl in Hh.
  assert (X := ahead_step (S d) (put u t) (range_end b - 1) b Hb Eb ltac:(lia)). rewrite sub_put, Ek, Z.eqb_refl in X.
  assert (Y := ahead_le (S d) (put u t) (range_end b - 1)). rewrite (same_head_end _ _ Hh). cbn [plus] in *. lia.
Qed.

Lemma same_ahead d t t' key : same_tree d t t' -> ahead d t' key = ahead d t key.
Proof.
  intros H. unfold ahead. rewrite (sm_vw _ _ _ H). apply sum_of_ext. intros b Hb. destruct (_ <? _); [|done]. f_equal.
  unfold blocks_of, blocks. destruct (is_indirect b) eqn:E; [|done]. by rewrite (sm_elems _ _ _ H).
Qed.

Lemma same_ahead_up up : forall d t t', path t up -> tree_ok (S d + length up) (zip t up) -> same_tree d t t' ->
  ahead_up (S d) t' up = ahead_up (S d) t up.
Proof.
  induction up as [|u up IH]; intros d t t' Hp Hz H; cbn [zip length path ahead_up] in *; [done|].
  destruct Hp as [_ Hp]. rewrite Nat.add_succ_r in *.
  assert (tree_ok (S (S d)) (put u t)) as Hok by (apply (zip_ok up); [done|exact Hz]).
  assert (Hs := same_put d u t t' Hok H). rewrite (IH (S d) (put u t) (put u t') Hp Hz Hs).
  rewrite (same_ahead _ _ _ _ Hs), (same_head_end _ _ (sm_head _ _ _ H)). done.
Qed.

(** ** What a round does to the chain *)

(** The chain with its table searched, or with a child more. *)
Lemma same_node d t p : tree_ok (S d) t -> node_ok (mkNode p (nd_base (t_node t))) ->
  nview (mkNode p (nd_base (t_node t))) = vw t -> pa_bref p = t_bref t ->
  has (pa_flags p) HAMMER2_CHAIN_INITIAL = false -> has (pa_flags p) HAMMER2_CHAIN_DELETED = false ->
  same_tree d t (set_parent t p).
Proof.
  intros [Ht Hs] Hn Ev Eb Hi Hd. destruct Ht as [T1 T2 T3 T4 T5 T6 T7 T8 T9].
  assert (vw (set_parent t p) = vw t) as Evw by (unfold vw; cbn [t_node set_parent]; rewrite counted_id; done).
  split; [|done| |done].
  - unfold t_bref at 2, t_parent. cbn. rewrite Eb. done.
  - split; [split|]; try done.
    + cbn [t_node set_parent]. by rewrite counted_id.
    + unfold t_bref, t_parent. cbn. by rewrite Eb.
    + rewrite Evw. exact T6.
    + by rewrite Evw.
    + by rewrite Evw.
    + rewrite Evw. exact Hs.
Qed.

Lemma t_base_some t : tree_top t -> t_base t = Some (nd_base (t_node t)).
Proof. intros Ht. unfold t_base. rewrite (tt_initial _ Ht). by rewrite andb_false_r. Qed.

Lemma countbrefs_fields p base count : let p' := hammer2_chain_countbrefs p (Some base) count in
  pa_bref p' = pa_bref p /\ pa_rbtree p' = pa_rbtree p /\
  (pa_flags p' = pa_flags p \/ pa_flags p' = pa_flags p ||| HAMMER2_CHAIN_COUNTEDBREFS).
Proof. unfold hammer2_chain_countbrefs. destruct (has _ _); cbn; tauto. Qed.

(** The search of a chain's elements. *)
Lemma look_ok d t kb ke : tree_ok (S d) t -> 0 <= kb <= ke -> ke < 2 ^ 64 ->
  let p := nd_parent (counted_node (t_node t)) in
  let r := nearest kb ke (view p (nd_base (t_node t))) in
  exists ci kn, hammer2_combined_find
      (hammer2_chain_countbrefs (t_parent t) (t_base t) (zlen (nd_base (t_node t)))) (t_base t) (zlen (nd_base (t_node t))) kb ke =
    Some (set_cache_index p ci, kn, r ≫= fst, snd <$> r) /\
    same_tree d t (set_parent t (set_cache_index p ci)).
Proof.
  intros Hok Hkb Hke. destruct Hok as [Ht Hs]. assert (Hn := tt_node _ Ht). cbv zeta. rewrite (t_base_some t Ht).
  destruct (combined_find_spec _ _ kb ke (no_view _ Hn) Hkb Hke) as [ci E].
  cbn [nd_base counted_node] in E. exists ci. eexists. split; [exact E|].
  destruct (countbrefs_fields (t_parent t) (nd_base (t_node t)) (zlen (nd_base (t_node t)))) as (E1 & E2 & E3).
  assert (Hfl : forall f, has HAMMER2_CHAIN_COUNTEDBREFS f = false -> has (pa_flags (t_parent t)) f = false ->
    has (pa_flags (nd_parent (counted_node (t_node t)))) f = false).
  { intros f H1 H2. unfold counted_node. cbn [nd_parent]. fold (t_parent t).
    destruct E3 as [->| ->]; [done|]. by rewrite has_lor, H2, H1. }
  apply same_node; try done.
  - exact (node_ok_cache (counted_node (t_node t)) ci Hn).
  - apply Hfl; [done|apply Ht].
  - apply Hfl; [done|apply Ht].
Qed.

Lemma sub_at_in key subs s : sub_at key subs = Some s -> s ∈ subs /\ br_key (t_bref s) = key.
Proof. intros E. apply List.find_some in E as [H1 H2]. apply Z.eqb_eq in H2. split; [by apply list_elem_of_In|done]. Qed.

Lemma sub_at_del key key' subs : key <> key' -> sub_at key' (sub_del key subs) = sub_at key' subs.
Proof.
  intros Hne. unfold sub_at, sub_del. induction subs as [|s l IH]; [done|]. cbn [List.filter List.find].
  destruct (Z.eqb_spec (br_key (t_bref s)) key) as [E|E]; cbn [negb List.find].
  - destruct (Z.eqb_spec (br_key (t_bref s)) key'); [lia|done].
  - by rewrite IH.
Qed.

(** The chain has the child in memory. *)
Definition has_child (t : tree) (c : child) : Prop :=
  c ∈ pa_rbtree (t_parent t) /\ counted_node (t_node t) = t_node t.

(** A child more in memory. *)
Lemma same_get d t e : tree_ok (S d) t -> counted_node (t_node t) = t_node t ->
  of_entry e ∈ view (t_parent t) (nd_base (t_node t)) ->
  exists t' c, get_chain t None e = Some (t', c) /\ cd_bref c = e /\ same_tree d t t' /\
    has (cd_flags c) HAMMER2_CHAIN_DELETED = false /\ has_child t' c.
Proof.
  intros Hok Ec He. assert (Ht := proj1 Hok). assert (Hn := tt_node _ Ht). rewrite Ec in Hn.
  assert (e ∈ vw t) as Hev by (unfold vw; rewrite Ec; apply list_elem_of_fmap; by exists (of_entry e)).
  destruct (chain_get_ok (t_node t) e Hn He) as (p & c & E & Eb & Hc & Hp & Ep & Epb & Efl & Hrb).
  destruct (no_flags _ Hp c Hc) as (_ & Hdel & _). unfold get_chain. fold (t_parent t) in E. rewrite E.
  eexists _, c. split; [done|]. split; [done|]. split; [|split; [done|split; [done|by apply counted_id]]].
  apply same_node; try done; [by rewrite Ep; unfold vw; rewrite Ec|rewrite Efl; apply Ht|rewrite Efl; apply Ht].
Qed.

(** The chain of an element, in memory from now on. *)
Lemma chain_ok d t v : tree_ok (S d) t -> counted_node (t_node t) = t_node t -> v ∈ view (t_parent t) (nd_base (t_node t)) ->
  exists t' c, get_chain t v.1 v.2 = Some (t', c) /\ cd_bref c = v.2 /\ same_tree d t t' /\
    has (cd_flags c) HAMMER2_CHAIN_DELETED = false /\ has_child t' c.
Proof.
  intros Hok Ec Hv. assert (Hn := tt_node _ (proj1 Hok)). rewrite Ec in Hn.
  assert (X := Hv). apply overlay_elem in X as [(c & Hc & ->)|(e & He & ->)].
  - exists t, c. destruct (no_flags _ Hn c Hc) as (_ & Hd & _). split_and!; try done.
  - by apply same_get.
Qed.

(** The way down: the block is taken out of its chain. *)
Lemma same_down d t b : tree_ok (S d) t -> is_indirect b = true -> b ∈ vw t ->
  same_tree d t (put (without t (br_key b)) (sub t b)).
Proof.
  intros Hok Hi Hv. assert (Ht := proj1 Hok). destruct (proj2 Hok b Hv Hi) as [[(Ek & _) _] _].
  assert (Hsub : forall x, x ∈ vw t -> sub (put (without t (br_key b)) (sub t b)) x = sub t x).
  { intros x Hx. rewrite sub_put, Ek. destruct (Z.eqb_spec (br_key b) (br_key x)) as [E|Hne].
    - by rewrite (vw_key_inj t b x Ht Hv Hx E).
    - unfold block_chain, without. cbn [t_subs]. by rewrite sub_at_del. }
  split; [done|done| |by intros; rewrite Hsub]. split.
  - destruct Ht as [T1 T2 T3 T4 T5 T6 T7 T8 T9]. split; try done.
    intros x Hx. apply elem_of_cons in Hx as [->|Hx]; [by exists b; rewrite Ek|]. apply T6.
    apply list_elem_of_In, List.filter_In in Hx as [Hx _]. by apply list_elem_of_In.
  - intros x Hx Hxi. rewrite Hsub by done. by apply Hok.
Qed.

(** ** The lookup *)

Lemma hits_inside kb ke b x : bref_ok b -> bref_ok x -> inside b x -> hits kb ke x = true -> hits kb ke b = true.
Proof. intros Hb Hx Hi. rewrite !hits_spec by done. unfold inside, range_end in Hi. lia. Qed.

Lemma nil_or {A} (l : list A) : l = [] \/ l <> [].
Proof. destruct l; [by left|by right]. Qed.

Lemma find_ext {A} (f g : A -> bool) l : (forall x, x ∈ l -> f x = g x) -> List.find f l = List.find g l.
Proof.
  induction l as [|a l IH]; intros H; [done|]. cbn. rewrite (H a) by (apply elem_of_cons; by left).
  rewrite IH; [done|]. intros x Hx. apply H, elem_of_cons. by right.
Qed.

(** A cursor in the middle of a lookup: what is ahead of its chain ends at or
    before the key, and the range asked for is one key inside of the chain or
    does not end with the first key after a block. *)
Record at_cursor (D : nat) (L : list hammer2_blockref) (d : nat) (t : tree) (up : list tree) (kb ke : Z) : Prop := {
  ac_depth : D = (S d + length up)%nat;
  ac_path : path t up;
  ac_ok : tree_ok D (zip t up);
  ac_leaves : leaves D (zip t up) = L;
  ac_before : up <> [] -> forall x, x ∈ L -> br_key x < br_key (t_bref t) -> range_end x <= kb;
  ac_end : up <> [] -> kb <= range_end (t_bref t);
  ac_range : 0 <= kb <= ke /\ ke < 2 ^ 64;
  ac_mode : (kb < ke /\ forall b, b ∈ elems D (zip t up) -> is_indirect b = true -> range_end b <> ke) \/
    (kb = ke /\ (up <> [] -> br_key (t_bref t) <= kb < range_end (t_bref t)))
}.

Definition cost (d : nat) (t : tree) (up : list tree) (kb : Z) : Z := 1 + ahead d t kb + ahead_up (S d) t up.

(** The first leaf of the range, or none. *)
Definition answers (L : list hammer2_blockref) (kb ke : Z) (f : found) : Prop :=
  match f with
  | Found c => List.find (hits kb ke) L = Some (cd_bref c)
  | NotFound => List.find (hits kb ke) L = None
  | FoundParent => False
  end.

(** The chain that would have the key does not. *)
Definition stops (t : tree) (up : list tree) (key : Z) : Prop :=
  (forall y, y ∈ vw t -> hits key key y = false) /\
  (up <> [] -> br_key (t_bref t) <= key < range_end (t_bref t)).

(** How a lookup ends: the cursor is on the tree it was on, which has at most
    more of its chains in memory. *)
Record lookup_done (D : nat) (L : list hammer2_blockref) (t : tree) (up : list tree) (kb ke : Z) (r : lookup_result) : Prop := {
  ld_error : lk_error r = 0 /\ lk_hpanic r = false;
  ld_path : path (lk_tree r) (lk_up r);
  ld_depth : (length (lk_up r) < D)%nat;
  ld_same : same_tree (pred D) (zip t up) (zip (lk_tree r) (lk_up r));
  ld_found : answers L kb ke (lk_found r);
  ld_stop : kb = ke -> lk_found r = NotFound -> stops (lk_tree r) (lk_up r) kb;
  ld_child : forall c, lk_found r = Found c -> has_child (lk_tree r) c
}.

Section Cursor.
Context (D : nat) (L : list hammer2_blockref) (d : nat) (t : tree) (up : list tree) (kb ke : Z).
Hypothesis H : at_cursor D L d t up kb ke.

Lemma ac_zip : tree_ok (S d + length up) (zip t up).
Proof. rewrite <- (ac_depth _ _ _ _ _ _ _ H). apply H. Qed.

Lemma ac_tree : tree_ok (S d) t.
Proof. apply (zip_ok up); [apply H|apply ac_zip]. Qed.

Lemma ac_L_ok : brefs_ok L.
Proof. rewrite <- (ac_leaves _ _ _ _ _ _ _ H). apply leaves_ok, H. Qed.

(** The chain is an indirect block with its elements inside, or the top. *)
Lemma ac_chain : up <> [] -> is_indirect (t_bref t) = true /\ bref_ok (t_bref t) /\ forall x, x ∈ vw t -> inside (t_bref t) x.
Proof.
  intros Hne. assert (Hp := ac_path _ _ _ _ _ _ _ H). assert (Hz := ac_zip). destruct up as [|u up']; [done|].
  cbn [path zip length] in *. destruct Hp as [(b & Hb & Eb & Ek) Hp]. rewrite Nat.add_succ_r in Hz.
  apply (zip_ok up' (S (S d))) in Hz; [|done]. destruct Hz as [Hu Hs]. destruct (Hs b Hb Eb) as [[Hh Hin] _].
  rewrite sub_put, Ek, Z.eqb_refl in Hh, Hin. assert (bref_ok b) as Hbok by (eapply brefs_ok_elem; [apply (vw_ok _ Hu)|done]).
  split; [by rewrite (same_head_ind _ _ Hh)|]. destruct Hh as (E1 & E2 & E3). split.
  - unfold bref_ok. rewrite E1, E2. exact Hbok.
  - intros x Hx. specialize (Hin x Hx). unfold inside, range_end in *. rewrite E1, E2. exact Hin.
Qed.

Lemma ac_top : is_indirect (t_bref t) = false <-> up = [].
Proof.
  split; intros E.
  - destruct (nil_or up) as [|Hne]; [done|]. destruct (ac_chain Hne) as [X _]. congruence.
  - assert (Hp := ac_path _ _ _ _ _ _ _ H). rewrite E in Hp. exact Hp.
Qed.

(** A leaf of the range is below an element of the range, or after the chain. *)
Lemma leaf_cases x : x ∈ L -> hits kb ke x = true ->
  (exists b, b ∈ vw t /\ hits kb ke b = true /\ inside b x) \/ (up <> [] /\ range_end (t_bref t) <= br_key x).
Proof.
  intros Hx Hh. assert (Hok := brefs_ok_elem _ _ ac_L_ok Hx). assert (Hs := span_pos x Hok).
  destruct (zip_leaves up d t (ac_path _ _ _ _ _ _ _ H) ac_zip) as (A & B & E & Hnil & Hcons).
  rewrite <- (ac_depth _ _ _ _ _ _ _ H), (ac_leaves _ _ _ _ _ _ _ H) in E. assert (Hx' := Hx). rewrite E in Hx'.
  apply elem_of_app in Hx' as [Ha|[Hl|Hb]%elem_of_app].
  - exfalso. destruct (nil_or up) as [Eu|Hne]; [destruct (Hnil Eu) as [-> _]; by apply elem_of_nil in Ha|].
    destruct (Hcons Hne) as [HA _]. specialize (HA x Ha). assert (X := ac_before _ _ _ _ _ _ _ H Hne x Hx). apply hits_spec in Hh; [|done]. unfold range_end in *. lia.
  - left. rewrite leaves_eq in Hl. apply elem_concat in Hl as (b & Hb & Hl).
    assert (inside b x) as Hin by (by apply (leaves_of_inside d t); [apply ac_tree| |]). exists b. split; [done|]. split; [|done].
    apply (hits_inside kb ke b x); try done. eapply brefs_ok_elem; [apply (vw_ok t), ac_tree|done].
  - destruct (nil_or up) as [Eu|Hne]; [destruct (Hnil Eu) as [_ ->]; by apply elem_of_nil in Hb|].
    right. split; [done|]. destruct (Hcons Hne) as [_ HB]. by apply HB.
Qed.

(** Every leaf below an element is a leaf of the tree. *)
Lemma leaf_in b : b ∈ vw t -> is_indirect b = false -> b ∈ L.
Proof.
  intros Hb Hi. destruct (zip_leaves up d t (ac_path _ _ _ _ _ _ _ H) ac_zip) as (A & B & E & _).
  rewrite <- (ac_depth _ _ _ _ _ _ _ H), (ac_leaves _ _ _ _ _ _ _ H) in E. rewrite E.
  apply elem_of_app. right. apply elem_of_app. left. rewrite leaves_eq. apply elem_concat. exists b. split; [done|].
  unfold leaves_of. rewrite Hi. apply list_elem_of_singleton. done.
Qed.

(** The first element of the range is a leaf: it is the first leaf. *)
Lemma found_leaf b : b ∈ vw t -> is_indirect b = false -> hits kb ke b = true ->
  (forall y, y ∈ vw t -> hits kb ke y = true -> br_key b <= br_key y) -> List.find (hits kb ke) L = Some b.
Proof.
  intros Hb Hi Hh Hmin. apply (find_first_eq (fun x => x) (hits kb ke) L b); [rewrite list_fmap_id; apply ac_L_ok|by apply leaf_in|done|].
  intros y Hy Hhy. destruct (leaf_cases y Hy Hhy) as [(c & Hc & Hhc & Hin)|[Hne Ha]].
  - specialize (Hmin c Hc Hhc). unfold inside in Hin. lia.
  - destruct (ac_chain Hne) as (_ & _ & Hin). specialize (Hin b Hb).
    assert (bref_ok b) as Hbok by (eapply brefs_ok_elem; [apply (vw_ok t), ac_tree|done]). assert (Hs := span_pos b Hbok).
    unfold inside, range_end in *. lia.
Qed.

(** Nothing in the range, and nothing after the chain either. *)
Lemma found_none : (forall y, y ∈ vw t -> hits kb ke y = false) -> (up <> [] -> ke < range_end (t_bref t)) ->
  List.find (hits kb ke) L = None.
Proof.
  intros Hno Hend. apply find_none_eq. intros y Hy. apply Bool.not_true_iff_false. intros Hh.
  destruct (leaf_cases y Hy Hh) as [(c & Hc & Hhc & _)|[Hne Ha]]; [by rewrite Hno in Hhc|].
  specialize (Hend Hne). apply hits_spec in Hh; [lia|]. by apply (brefs_ok_elem _ _ ac_L_ok).
Qed.

(** The steps of a lookup keep the cursor where it says. *)
Lemma ac_same t' : same_tree d t t' ->
  at_cursor D L d t' up kb ke /\ same_tree (pred D) (zip t up) (zip t' up) /\ cost d t' up kb = cost d t up kb.
Proof.
  intros Hs. destruct (same_zip up d t t' (ac_path _ _ _ _ _ _ _ H) ac_zip Hs) as [Hz Hp].
  assert (ED := ac_depth _ _ _ _ _ _ _ H). assert (pred D = d + length up)%nat as EP by (rewrite ED; done).
  assert (EE := same_elems _ _ _ Hz). destruct (sm_head _ _ _ Hs) as (E1 & E2 & E3).
  assert (EN := same_head_end _ _ (sm_head _ _ _ Hs)). rewrite EP. split; [|split; [done|]].
  - destruct H as [H1 H2 H3 H4 H5 H6 H7 H8]. change (S (d + length up)) with (S d + length up)%nat in EE. rewrite <- H1 in EE.
    split; try done.
    + rewrite H1. apply Hz.
    + unfold leaves. rewrite EE. exact H4.
    + rewrite E1. exact H5.
    + rewrite EN. exact H6.
    + rewrite EE, EN, E1. exact H8.
  - unfold cost. rewrite (same_ahead _ _ _ _ Hs), (same_ahead_up up d t t' (ac_path _ _ _ _ _ _ _ H) ac_zip Hs). done.
Qed.

End Cursor.


Lemma ac_down D L d t up kb ke b s t' : at_cursor D L d t up kb ke -> b ∈ vw t -> is_indirect b = true -> hits kb ke b = true ->
  (forall y, y ∈ vw t -> hits kb ke y = true -> br_key b <= br_key y) -> s = sub t b -> same_tree d t (put t' s) ->
  vw t' = vw t -> exists d', at_cursor D L d' s (t' :: up) kb ke /\ same_tree (pred D) (zip t up) (zip s (t' :: up)) /\
    cost d' s (t' :: up) kb < cost d t up kb.
Proof.
  intros H Hb Hi Hh Hmin Es Hsame Ev. destruct (ac_same _ _ _ _ _ _ _ H _ Hsame) as (HA & Hz & Hc). clear Hc.
  assert (Htree := ac_tree _ _ _ _ _ _ _ H). destruct Htree as [Htop Hsub]. destruct (Hsub b Hb Hi) as [[Hhead Hins] Hok]. rewrite <- Es in *.
  destruct d as [|d']; [done|]. exists d'.
  assert (Hbok : forall y, y ∈ vw t -> bref_ok y) by (intros y Hy; eapply brefs_ok_elem; [by apply vw_ok|done]).
  assert (HLok := ac_L_ok _ _ _ _ _ _ _ H). assert (EN := same_head_end _ _ Hhead). destruct Hhead as (Ek & Ekb & Et).
  destruct (proj1 (hits_spec kb ke b (Hbok b Hb)) Hh) as [Hlt Hle].
  split; [|split; [exact Hz|]].
  - destruct HA as [A1 A2 A3 A4 A5 A6 A7 A8]. split; try done.
    + rewrite A1. cbn [length]. lia.
    + cbn [path]. split; [|done]. exists b. rewrite Ev. done.
    + intros _ x Hx Hkx. rewrite Ek in Hkx. destruct (Z.le_gt_cases (range_end x) kb) as [|Hgt]; [done|exfalso].
      assert (bref_ok x) as Hxok by (by apply (brefs_ok_elem L)).
      assert (hits kb ke x = true) as Hhx by (apply hits_spec; [done|]; unfold range_end in Hgt; lia).
      destruct (leaf_cases _ _ _ _ _ _ _ H x Hx Hhx) as [(c & Hcv & Hhc & Hin)|[Hne Ha]].
      * specialize (Hmin c Hcv Hhc). unfold inside in Hin. lia.
      * destruct (ac_chain _ _ _ _ _ _ _ H Hne) as (_ & _ & Hin). specialize (Hin b Hb). unfold inside, range_end in *.
        assert (X := span_pos b (Hbok b Hb)). lia.
    + intros _. rewrite EN. unfold range_end. lia.
    + destruct A8 as [A8|[A8 _]]; [by left|right]. split; [done|]. intros _. rewrite EN, Ek. unfold range_end. lia.
  - unfold cost. cbn [ahead_up]. rewrite EN.
    rewrite (same_ahead_up up (S d') t _ (ac_path _ _ _ _ _ _ _ H) (ac_zip _ _ _ _ _ _ _ H) Hsame).
    rewrite (same_ahead (S d') t _ _ Hsame).
    assert (X := ahead_step (S d') t kb b Hb Hi ltac:(unfold range_end; lia)). rewrite <- Es in X.
    assert (Y := ahead_le d' s kb). lia.
Qed.
Lemma ac_up D L d t u up kb ke : at_cursor D L d t (u :: up) kb ke ->
  (forall y, y ∈ vw t -> hits kb ke y = false) -> kb <> ke -> range_end (t_bref t) <= ke ->
  at_cursor D L (S d) (put u t) up (range_end (t_bref t)) ke /\ cost (S d) (put u t) up (range_end (t_bref t)) < cost d t (u :: up) kb /\
  List.find (hits (range_end (t_bref t)) ke) L = List.find (hits kb ke) L.
Proof.
  intros H Hno Hne Hle. assert (Hz := ac_zip _ _ _ _ _ _ _ H). assert (Hend := ac_end _ _ _ _ _ _ _ H ltac:(done)).
  destruct (ac_chain _ _ _ _ _ _ _ H) as (Hti & Htok & Htin); [done|]. assert (Hspan := span_pos _ Htok).
  destruct (ac_mode _ _ _ _ _ _ _ H) as [[Hlt Hends]|[? _]]; [|done].
  assert (range_end (t_bref t) <> ke) as Hke.
  { destruct (zip_elem (u :: up) d t (ac_path _ _ _ _ _ _ _ H) Hz) as (b & Hb & Hbi & <-); [done|].
    rewrite <- (ac_depth _ _ _ _ _ _ _ H) in Hb. by apply Hends. }
  assert (Hp := ac_path _ _ _ _ _ _ _ H). cbn [path] in Hp. destruct Hp as [(b & Hb & Hbi & Ek) Hp].
  assert (Hup : up <> [] -> inside (t_bref u) (t_bref t)).
  { intros Hne'. cbn [zip length] in Hz. rewrite Nat.add_succ_r in Hz.
    destruct (zip_top up (S (S d)) (put u t) Hp Hz Hne') as (c & [Hc1 Hc2] & _). specialize (Hc2 b Hb).
    apply (zip_ok up (S (S d))) in Hz; [|done]. destruct Hz as [_ Hs]. destruct (Hs b Hb Hbi) as [[Hh _] _].
    rewrite sub_put, Ek, Z.eqb_refl in Hh. assert (E1 := same_head_end _ _ Hc1). assert (E2 := same_head_end _ _ Hh).
    change (t_bref (put u t)) with (t_bref u) in *. destruct Hc1 as (F1 & _). unfold inside in *. lia. }
  assert (H' := H). destruct H' as [H1 H2 H3 H4 H5 H6 H7 H8]. split; [|split].
  - split; try done; [rewrite H1; cbn [length]; lia| | | |left; split; [lia|done]].
    + intros Hne' x Hx Hkx. change (t_bref (put u t)) with (t_bref u) in Hkx. specialize (Hup Hne').
      specialize (H5 ltac:(done) x Hx). unfold inside in Hup. lia.
    + intros Hne'. specialize (Hup Hne'). change (t_bref (put u t)) with (t_bref u). unfold inside in Hup. lia.
    + unfold range_end in *. unfold bref_ok in Htok. lia.
  - unfold cost. cbn [ahead_up]. assert (X := ahead_nonneg d t kb). lia.
  - apply find_ext. intros x Hx. assert (Hxok := brefs_ok_elem _ _ (ac_L_ok _ _ _ _ _ _ _ H) Hx). apply Bool.eq_iff_eq_true.
    split; intros Hh.
    + apply hits_spec in Hh; [|done]. apply hits_spec; [done|]. lia.
    + destruct (leaf_cases _ _ _ _ _ _ _ H x Hx Hh) as [(c & Hc & Hhc & _)|[_ Ha]]; [by rewrite Hno in Hhc|].
      apply hits_spec in Hh; [|done]. apply hits_spec; [done|]. assert (Y := span_pos x Hxok). lia.
Qed.

Lemma done_step D L t up t' up' kb kb' ke r : kb' = kb \/ kb <> ke -> same_tree (pred D) (zip t up) (zip t' up') ->
  List.find (hits kb' ke) L = List.find (hits kb ke) L ->
  lookup_done D L t' up' kb' ke r -> lookup_done D L t up kb ke r.
Proof.
  intros Hk Hs Hf [H1 H2 H3 H4 H5 H6 H7]. split; try done; [by apply (same_trans _ _ (zip t' up'))| |].
  - unfold answers in *. destruct (lk_found r); rewrite <- ?Hf; done.
  - destruct Hk as [->|]; done.
Qed.

Lemma cursor_done D L d t up kb ke kn f : at_cursor D L d t up kb ke -> answers L kb ke f ->
  (kb = ke -> f = NotFound -> stops t up kb) -> (forall c, f = Found c -> has_child t c) -> lookup_done D L t up kb ke (mkLookup t up kn f 0 false).
Proof.
  intros H Hf Hst Hch. assert (E := ac_depth _ _ _ _ _ _ _ H). split; try done; [apply H|cbn; lia|]. cbn [lk_tree lk_up].
  apply same_refl. replace (S (pred D)) with D by lia. apply H.
Qed.

(** The elements of a chain that the search looks at. *)
Lemma nearest_vw d t kb ke : tree_ok (S d) t ->
  match nearest kb ke (view (nd_parent (counted_node (t_node t))) (nd_base (t_node t))) with
  | Some v => v ∈ view (nd_parent (counted_node (t_node t))) (nd_base (t_node t)) /\ v.2 ∈ vw t /\ hits kb ke v.2 = true /\
      forall y, y ∈ vw t -> hits kb ke y = true -> br_key v.2 <= br_key y
  | None => forall y, y ∈ vw t -> hits kb ke y = false
  end.
Proof.
  intros [Ht _]. assert (Hn := tt_node _ Ht). assert (Hok := vw_ok t Ht). unfold vw, nview, bview in Hok |- *.
  change (nd_base (counted_node (t_node t))) with (nd_base (t_node t)) in *.
  assert (X := find_first snd (fun v : elem => hits kb ke v.2) _ Hok). unfold nearest. destruct (List.find _ _) as [v|].
  - destruct X as (X1 & X2 & X3). split; [done|]. split; [by apply list_elem_of_fmap_2|]. split; [done|].
    intros y Hy Hh. apply list_elem_of_fmap in Hy as (w & -> & Hw). destruct (X3 w Hw Hh) as [->|Hb]; [lia|].
    assert (Y := span_pos _ (brefs_ok_elem _ v.2 Hok ltac:(by apply list_elem_of_fmap_2))). unfold before in Hb. lia.
  - intros y Hy. apply list_elem_of_fmap in Hy as (w & -> & Hw). by apply X.
Qed.

Lemma lookup_again_ok D L fl ke loops : lf_matchind fl = false -> lf_directdata fl = false ->
  forall d t up kn kb, at_cursor D L d t up kb ke -> cost d t up kb <= Z.of_nat loops ->
  exists r, lookup_again media fl loops t up kn kb ke = Some r /\ lookup_done D L t up kb ke r.
Proof.
  intros Hm Hdd. induction loops as [|loops IH]; intros d t up kn kb H Hc.
  { exfalso. assert (X := ahead_up_nonneg (S d) t up). assert (Y := ahead_nonneg d t kb). unfold cost in Hc. lia. }
  assert (Hok := ac_tree _ _ _ _ _ _ _ H). assert (Ht := proj1 Hok). destruct (ac_range _ _ _ _ _ _ _ H) as [Hkb Hke].
  cbn [lookup_again]. rewrite Hm, Hdd, !andb_false_r, (tt_error _ Ht), (tt_table _ Ht). cbn [andb nz negb Z.eqb].
  destruct (look_ok d t kb ke Hok Hkb Hke) as (ci & kn' & E & Hs). rewrite E.
  assert (Hnear := nearest_vw d t kb ke Hok). set (p := nd_parent (counted_node (t_node t))) in *.
  set (t1 := set_parent t (set_cache_index p ci)) in *. destruct (ac_same _ _ _ _ _ _ _ H _ Hs) as (H1 & Hz1 & Hc1).
  destruct (nearest kb ke (view p (nd_base (t_node t)))) as [v|] eqn:Er;
    cbn [mbind option_bind fmap option_fmap option_map].
  - destruct Hnear as (Hv & Hvv & Hhit & Hmin).
    assert (counted_node (t_node t1) = t_node t1) as Ec.
    { apply counted_id. exact (node_ok_cache (counted_node (t_node t)) ci (tt_node _ Ht)). }
    destruct (chain_ok d t1 v (sm_ok _ _ _ Hs) Ec Hv) as (t2 & c & -> & Eb & Hs2 & -> & Hcin).
    destruct (ac_same _ _ _ _ _ _ _ H1 _ Hs2) as (H2 & Hz2 & Hc2). rewrite <- Eb in Hvv, Hhit, Hmin.
    assert (vw t2 = vw t) as Ev by (rewrite (sm_vw _ _ _ Hs2); apply Hs). rewrite <- Ev in Hvv, Hmin.
    destruct (is_indirect (cd_bref c)) eqn:Ei.
    + assert (Hs3 := same_down d t2 (cd_bref c) (sm_ok _ _ _ Hs2) Ei Hvv). set (s := sub t2 (cd_bref c)) in *.
      destruct (ac_down _ _ _ _ _ _ _ (cd_bref c) s (without t2 (br_key (cd_bref c))) H2 Hvv Ei Hhit Hmin eq_refl Hs3) as (d' & H3 & Hz3 & Hc3); [done|].
      destruct (IH d' s (without t2 (br_key (cd_bref c)) :: up) kn' kb H3 ltac:(lia)) as (r & Er' & Hd).
      exists r. split; [exact Er'|]. apply (done_step D L t up t1 up kb kb); [by left|done|done|].
      apply (done_step D L t1 up t2 up kb kb); [by left|done|done|].
      apply (done_step D L t2 up s (without t2 (br_key (cd_bref c)) :: up) kb kb); [by left|done|done|done].
    + eexists. split; [done|]. apply (done_step D L t up t1 up kb kb); [by left|done|done|].
      apply (done_step D L t1 up t2 up kb kb); [by left|done|done|]. apply (cursor_done D L d); [done| |done|].
      * by apply (found_leaf _ _ _ _ _ _ _ H2).
      * intros x Hx. by injection Hx as <-.
  - assert (Hno : forall y, y ∈ vw t1 -> hits kb ke y = false) by (rewrite (sm_vw _ _ _ Hs); exact Hnear).
    assert (Hnull : (up <> [] -> ke < range_end (t_bref t1)) ->
      lookup_done D L t up kb ke (mkLookup t1 up kn' NotFound 0 false)).
    { intros Hend. apply (done_step D L t up t1 up kb kb); [by left|done|done|]. apply (cursor_done D L d); [done|by apply (found_none _ _ _ _ _ _ _ H1)| |done].
      intros -> _. split; [done|]. intros Hu. destruct (ac_mode _ _ _ _ _ _ _ H1) as [[? _]|[_ X]]; [lia|]. by apply X. }
    change (t_bref t) with (t_bref t) in *. assert (t_bref t1 = t_bref t) as Eb1.
    { unfold t_bref, t1, t_parent. cbn. unfold p. destruct (countbrefs_fields (t_parent t) (nd_base (t_node t)) (zlen (nd_base (t_node t)))) as (X & _). exact X. }
    destruct (Z.eqb_spec kb ke) as [Ekk|Hne].
    { eexists. split; [done|]. apply Hnull. destruct (ac_mode _ _ _ _ _ _ _ H1) as [[? _]|[_ X]]; [lia|]. intros Hu. specialize (X Hu). lia. }
    destruct (is_indirect (t_bref t)) eqn:Ei; cbn [negb].
    2:{ eexists. split; [done|]. apply Hnull. intros Hu. apply (ac_top _ _ _ _ _ _ _ H) in Ei. done. }
    destruct up as [|u up]; [exfalso; assert (X := ac_path _ _ _ _ _ _ _ H); cbn in X; congruence|].
    destruct (ac_chain _ _ _ _ _ _ _ H) as (_ & Htok & _); [done|].
    destruct (key_stop_ord (t_bref t) Htok) as [Hu64 Hord]. fold (range_end (t_bref t)) in Hord. unfold key_ord in Hord.
    destruct (Z.eqb_spec (key_stop (t_bref t)) 0) as [E0|Hn0]; cbn [orb].
    { eexists. split; [done|]. apply Hnull. rewrite Eb1. lia. }
    destruct (Z.ltb_spec ke (key_stop (t_bref t))) as [Hlt|Hge].
    { eexists. split; [done|]. apply Hnull. rewrite Eb1. lia. }
    cbn [hammer2_chain_repparent]. rewrite Hord.
    destruct (ac_up _ _ _ _ _ _ _ _ H1 Hno Hne ltac:(rewrite Eb1; lia)) as (H2 & Hc2 & Hf). rewrite Eb1 in *.
    destruct (IH (S d) (put u t1) up kn' (range_end (t_bref t)) H2 ltac:(lia)) as (r & Er' & Hd). exists r. split; [done|].
    apply (done_step D L t (u :: up) t1 (u :: up) kb kb); [by left|done|done|].
    apply (done_step D L t1 (u :: up) (put u t1) up kb (range_end (t_bref t))); [by right| |done|done].
    apply same_refl. assert (X := ac_ok _ _ _ _ _ _ _ H1). replace (S (pred D)) with D; [exact X|].
    rewrite (ac_depth _ _ _ _ _ _ _ H1). lia.
Qed.

(** ** From the start *)

(** The way up at the start of a lookup. *)
Lemma lookup_up_ok kb ke up : forall d t, path t up -> tree_ok (S d + length up) (zip t up) ->
  exists d' t' up', lookup_up t up kb ke = Some (t', up') /\ zip t' up' = zip t up /\ path t' up' /\
    (S d' + length up' = S d + length up)%nat /\
    (up' = [] \/ (br_key (t_bref t') <= kb /\ ke <= key_last (t_bref t'))).
Proof.
  induction up as [|u up IH]; intros d t Hp Hz; cbn [lookup_up].
  { cbn in Hp. rewrite Hp. cbn. exists d, t, []. split_and!; try done. by left. }
  destruct (zip_top (u :: up) (S d) t Hp Hz) as (b & _ & Hi); [done|]. rewrite Hi. cbn [negb].
  assert (Hok := zip_ok (u :: up) (S d) t Hp Hz). destruct Hok as [Ht _]. rewrite (tt_deleted _ Ht). cbn [negb andb].
  destruct (Z.leb_spec (br_key (t_bref t)) kb), (Z.leb_spec ke (key_last (t_bref t))); cbn [andb].
  1: exists d, t, (u :: up); split_and!; try done; right; done.
  all: cbn [path zip length] in *; destruct Hp as [_ Hp]; rewrite Nat.add_succ_r in Hz;
    destruct (IH (S d) (put u t) Hp Hz) as (d' & t' & up' & E1 & E2 & E3 & E4 & E5);
    exists d', t', up'; split_and!; try done; lia.
Qed.

(** A cursor on a tree of bounded size. *)
Record cursor_ok (D : nat) (t : tree) (up : list tree) : Prop := {
  co_path : path t up;
  co_depth : (length up < D)%nat;
  co_ok : tree_ok D (zip t up);
  co_blocks : 2 * blocks D (zip t up) < 299999
}.

(** A range of one key, or one that does not end with the first key after an
    indirect block. *)
Definition range_ok (D : nat) (t : tree) (kb ke : Z) : Prop :=
  (0 <= kb <= ke /\ ke < 2 ^ 64) /\
  (kb = ke \/ forall b, b ∈ elems D t -> is_indirect b = true -> range_end b <> ke).

Lemma done_cursor D L t up kb ke r : cursor_ok D t up -> lookup_done D L t up kb ke r ->
  cursor_ok D (lk_tree r) (lk_up r) /\ elems D (zip (lk_tree r) (lk_up r)) = elems D (zip t up).
Proof.
  intros [C1 C2 C3 C4] [H1 H2 H3 H4 H5 H6 H7]. assert (E := same_elems _ _ _ H4). assert (K := sm_ok _ _ _ H4).
  replace (S (pred D)) with D in * by lia. split; [|done]. split; try done. unfold blocks. by rewrite E.
Qed.

Lemma lookup_ok D fl t up kn kb ke : lf_matchind fl = false -> lf_directdata fl = false -> cursor_ok D t up ->
  range_ok D (zip t up) kb ke ->
  exists r, hammer2_chain_lookup media fl t up kn kb ke = Some r /\ lookup_done D (leaves D (zip t up)) t up kb ke r.
Proof.
  intros Hm Hdd [C1 C2 C3 C4] [Hr Hmode]. unfold hammer2_chain_lookup.
  destruct D as [|D']; [lia|]. set (d := (D' - length up)%nat). assert (S D' = S d + length up)%nat as ED by (unfold d; lia).
  assert (Hz := C3). rewrite ED in Hz. destruct (lookup_up_ok kb ke up d t C1 Hz) as (d' & t' & up' & -> & Ez & Hp & Ed & Hin).
  set (L := leaves (S D') (zip t up)). assert (HLok : brefs_ok L) by (by apply leaves_ok).
  assert (Hz' : tree_ok (S d' + length up') (zip t' up')) by (rewrite Ez, Ed; exact Hz).
  assert (Hchain : up' <> [] -> bref_ok (t_bref t')).
  { intros Hne. destruct (zip_top up' (S d') t' Hp Hz' Hne) as (b & [Hh _] & _). destruct up' as [|u up']; [done|].
    cbn [path zip length] in *. destruct Hp as [(c & Hc & Ec & Ek) Hp]. rewrite Nat.add_succ_r in Hz'.
    apply (zip_ok up' (S (S d'))) in Hz'; [|done]. destruct Hz' as [Hu Hs]. destruct (Hs c Hc Ec) as [[Hhc _] _].
    rewrite sub_put, Ek, Z.eqb_refl in Hhc. destruct Hhc as (E1 & E2 & _). unfold bref_ok. rewrite E1, E2.
    eapply brefs_ok_elem; [apply (vw_ok _ Hu)|done]. }
  assert (at_cursor (S D') L d' t' up' kb ke) as HA.
  { split; try done; try lia.
    - by rewrite Ez.
    - by rewrite Ez.
    - intros Hne x Hx Hk. destruct Hin as [|[Hin _]]; [done|].
      destruct (zip_leaves up' d' t' Hp Hz') as (A & B & E & _ & Hc). destruct (Hc Hne) as [HAb HBb].
      destruct (zip_top up' (S d') t' Hp Hz' Hne) as (b & Hbel & _).
      assert (L = A ++ leaves (S d') t' ++ B) as EL by (rewrite <- E, Ez, Ed, <- ED; done). rewrite EL in Hx.
      assert (Hs := span_pos _ (Hchain Hne)).
      apply elem_of_app in Hx as [Hx|[Hx|Hx]%elem_of_app].
      + specialize (HAb x Hx). lia.
      + assert (Hi := leaves_inside (S d') t' b (zip_ok up' (S d') t' Hp Hz') Hbel x Hx).
        destruct Hbel as [(Ek & _) _]. unfold inside in Hi. lia.
      + specialize (HBb x Hx). unfold range_end in HBb. lia.
    - intros Hne. destruct Hin as [|[_ Hin]]; [done|]. rewrite key_last_eq in Hin by auto. unfold range_end. lia.
    - rewrite Ez. destruct Hmode as [->|Hnb]; [right|].
      + split; [done|]. intros Hne. destruct Hin as [|[Hlo Hin]]; [done|]. rewrite key_last_eq in Hin by auto. unfold range_end. lia.
      + destruct (Z.eq_dec kb ke) as [->|]; [right|left; split; [lia|done]].
        split; [done|]. intros Hne. destruct Hin as [|[Hlo Hin]]; [done|]. rewrite key_last_eq in Hin by auto. unfold range_end. lia. }
  destruct (lookup_again_ok (S D') L fl ke maxloops Hm Hdd d' t' up' kn kb HA) as (r & Er & Hd).
  - assert (M := maxloops_eq). assert (X := ahead_up_le up' d' t' Hp Hz'). assert (Y := ahead_le d' t' kb).
    rewrite Ez, Ed, <- ED in X. unfold cost. lia.
  - exists r. split; [done|]. apply (done_step (S D') L t up t' up' kb kb); [by left| |done|done]. rewrite Ez. by apply same_refl.
Qed.

(** The leaves of a range after its first one. *)
Lemma filter_next L kb ke b : brefs_ok L -> List.find (hits kb ke) L = Some b ->
  List.filter (hits kb ke) L = b :: List.filter (hits (range_end b) ke) L.
Proof.
  induction L as [|a L IH]; intros Hok Hf; [done|]. apply brefs_ok_cons in Hok as (Ha & HL & Hlt). cbn in Hf |- *.
  destruct (hits kb ke a) eqn:Eh.
  - injection Hf as <-. assert (hits (range_end a) ke a = false) as ->.
    { apply Bool.not_true_iff_false. intros X. apply hits_spec in X; [|done]. unfold range_end in X. lia. }
    f_equal. apply List.filter_ext_in. intros x Hx. apply list_elem_of_In in Hx. specialize (Hlt x Hx).
    assert (Hxok := brefs_ok_elem _ _ HL Hx). assert (Sx := span_pos x Hxok). assert (Sa := span_pos a Ha).
    apply Bool.eq_iff_eq_true. rewrite !hits_spec by done. apply hits_spec in Eh; [|done]. unfold before, range_end in *. lia.
  - rewrite (IH HL Hf). assert (Hb := Hf). apply List.find_some in Hb as [Hb _]. apply list_elem_of_In in Hb. specialize (Hlt b Hb).
    assert (Sb := span_pos b (brefs_ok_elem _ _ HL Hb)).
    assert (hits (range_end b) ke a = false) as ->; [|done]. apply Bool.not_true_iff_false. intros X.
    apply hits_spec in X; [|done]. unfold before, range_end in *. lia.
Qed.

Lemma filter_none L kb ke : List.find (hits kb ke) L = None -> List.filter (hits kb ke) L = [].
Proof.
  intros Hf. destruct (List.filter (hits kb ke) L) as [|x l] eqn:E; [done|].
  assert (In x (List.filter (hits kb ke) L)) as X by (rewrite E; by left). apply List.filter_In in X as [X1 X2].
  by rewrite (List.find_none _ _ Hf x X1) in X2.
Qed.

(** From a result on, the nexts give the rest of the range. *)
Lemma next_all_ok D fl ke n : lf_matchind fl = false -> lf_directdata fl = false -> forall t up kb r,
  cursor_ok D t up -> range_ok D (zip t up) kb ke -> lookup_done D (leaves D (zip t up)) t up kb ke r ->
  (length (List.filter (hits kb ke) (leaves D (zip t up))) <= n)%nat ->
  exists r', next_all media fl n r ke = Some (List.filter (hits kb ke) (leaves D (zip t up)), r') /\
    lk_found r' = NotFound /\ lk_error r' = 0 /\ lk_hpanic r' = false /\ cursor_ok D (lk_tree r') (lk_up r') /\
    elems D (zip (lk_tree r') (lk_up r')) = elems D (zip t up).
Proof.
  intros Hm Hdd. induction n as [|n IH]; intros t up kb r Hc Hr Hd Hn; set (L := leaves D (zip t up)) in *.
  all: assert (HLok : brefs_ok L) by (apply leaves_ok, Hc); destruct (done_cursor _ _ _ _ _ _ _ Hc Hd) as [Hc' He].
  all: assert (Hf := ld_found _ _ _ _ _ _ _ Hd); destruct (ld_error _ _ _ _ _ _ _ Hd) as [He1 He2];
    unfold answers in Hf; destruct (lk_found r) as [|c|] eqn:Ef; [|cbn [next_all]|done].
  1,3: exists r; rewrite (filter_none L kb ke Hf); cbn [next_all]; rewrite Ef; done.
  - exfalso. rewrite (filter_next L kb ke _ HLok Hf) in Hn. cbn in Hn. lia.
  - rewrite Ef. rewrite (filter_next L kb ke _ HLok Hf) in Hn |- *. cbn [length] in Hn.
    assert (Hin := Hf). apply List.find_some in Hin as [Hin Hh]. apply list_elem_of_In in Hin.
    assert (Hcok := brefs_ok_elem _ _ HLok Hin). apply hits_spec in Hh; [|done].
    destruct (key_stop_ord (cd_bref c) Hcok) as [Hu Ho]. fold (range_end (cd_bref c)) in Ho. unfold key_ord in Ho. unfold is_u64 in Hu.
    destruct Hr as [[Hk Hke] Hmode]. assert (Sc := span_pos _ Hcok). cbn [hammer2_chain_next].
    assert (Hnull : ke < range_end (cd_bref c) -> exists r', next_all media fl n
        (mkLookup (lk_tree r) (lk_up r) (lk_key_next r) NotFound 0 false) ke = Some ([], r') /\
        List.filter (hits (range_end (cd_bref c)) ke) L = [] /\ lk_found r' = NotFound /\ lk_error r' = 0 /\ lk_hpanic r' = false /\
        cursor_ok D (lk_tree r') (lk_up r') /\ elems D (zip (lk_tree r') (lk_up r')) = elems D (zip t up)).
    { intros Hlt. eexists. split; [destruct n; done|]. split; [|done]. apply filter_none, find_none_eq. intros y Hy.
      apply Bool.not_true_iff_false. intros X. assert (Hyok := brefs_ok_elem _ _ HLok Hy). apply hits_spec in X; [|done].
      assert (hits kb ke y = true) as Hhy by (apply hits_spec; [done|]; unfold range_end in *; lia).
      destruct (brefs_apart L y (cd_bref c) HLok Hy Hin) as [->|[Hb|Hb]]; unfold before, range_end in *; lia. }
    destruct (Z.eqb_spec (key_stop (cd_bref c)) 0) as [E0|Hn0]; [|destruct (Z.ltb_spec ke (key_stop (cd_bref c)))]; cbn [orb].
    1,2: destruct Hnull as (r' & -> & -> & X); [lia|]; by exists r'.
    assert (EL : leaves D (zip (lk_tree r) (lk_up r)) = L) by (unfold leaves; by rewrite He).
    assert (range_ok D (zip (lk_tree r) (lk_up r)) (key_stop (cd_bref c)) ke) as Hr'.
    { split; [lia|]. rewrite He. destruct Hmode as [->|Hnb]; [|by right]. exfalso. unfold range_end in *. lia. }
    destruct (lookup_ok D fl (lk_tree r) (lk_up r) (lk_key_next r) (key_stop (cd_bref c)) ke Hm Hdd Hc' Hr') as (r2 & -> & Hd2).
    rewrite Ho in *. destruct (IH (lk_tree r) (lk_up r) (range_end (cd_bref c)) r2 Hc' Hr' Hd2) as (r' & E' & X1 & X2 & X3 & X4 & X5).
    { rewrite EL. lia. }
    rewrite EL in E'. rewrite E'. exists r'. split_and!; try done. congruence.
Qed.
End Media.


(** A directory with an entry in an indirect block two levels down and one in
    the inode, none of it in memory. *)
Definition tree_dirent (key : Z) : hammer2_blockref := mkBref HAMMER2_BREF_TYPE_DIRENT 0 0 0 0 0 0 key 0 0 0 0 0 0 0.
Definition tree_block (key keybits : Z) : hammer2_blockref :=
  mkBref HAMMER2_BREF_TYPE_INDIRECT 0 0 keybits 0 0 1 key 0 0 0 0 0 0 0.
Definition sample_media (b : hammer2_blockref) : list hammer2_blockref * Z :=
  if br_keybits b =? 16 then ([bref_zero; tree_block 32768 15; bref_zero; bref_zero], 0)
  else ([tree_dirent 32773; bref_zero; bref_zero; bref_zero], 0).
Definition sample_root : tree :=
  Tree (mkNode (mkParent (mkBref HAMMER2_BREF_TYPE_INODE 0 0 0 0 0 2 77 0 0 0 0 0 0 0) 0 0 0 0 [])
    [tree_block 0 16; bref_zero; tree_dirent 65536; bref_zero]) 0 [].

(** A chain of four slots that has its table and nothing in memory. *)
Lemma plain_top b base : brefs_ok (entries base) -> stats_ok b (entries base) -> has_table b = true ->
  Forall aligned (entries base) -> length base = 4%nat ->
  let t := Tree (mkNode (mkParent b 0 0 0 0 []) base) 0 [] in tree_top t /\ vw t = entries base.
Proof.
  intros Ht Hst Hb Ha Hl t. destruct (table_node b base Ht Hst) as [Hn Ev]. change (vw t = entries base) in Ev. split; [|done].
  split; try done; rewrite ?Ev; try done.
  - intros s Hs. by apply elem_of_nil in Hs.
  - exists 2. cbn. rewrite Hl. lia.
  - apply Nat2Z.inj_le. apply List.filter_length_le.
Qed.

Lemma sample_tree_ok : tree_ok sample_media 3 sample_root.
Proof.
  assert (Hone : forall b, bref_ok b -> brefs_ok [b]) by apply brefs_ok_one.
  assert (T2 : tree_ok sample_media 1 (load sample_media (tree_block 32768 15))).
  { destruct (plain_top (tree_block 32768 15) [tree_dirent 32773; bref_zero; bref_zero; bref_zero])
      as [H1 H2]; [|split|done|repeat constructor|done|].
    - apply Hone. unfold bref_ok. cbn. lia.
    - done.
    - done.
    - by right.
    - repeat constructor; cbn; lia.
    - split; [exact H1|]. intros b Hb Hi. change (b ∈ [tree_dirent 32773]) in Hb. apply list_elem_of_singleton in Hb as ->. done. }
  assert (T1 : tree_ok sample_media 2 (load sample_media (tree_block 0 16))).
  { destruct (plain_top (tree_block 0 16) [bref_zero; tree_block 32768 15; bref_zero; bref_zero])
      as [H1 H2]; [|split|done|repeat constructor|done|].
    - apply Hone. unfold bref_ok. cbn. lia.
    - done.
    - done.
    - by right.
    - repeat constructor; cbn; lia.
    - split; [exact H1|]. intros b Hb Hi. change (b ∈ [tree_block 32768 15]) in Hb. apply list_elem_of_singleton in Hb as ->.
      split; [|exact T2]. split; [done|]. intros x Hx. change (x ∈ [tree_dirent 32773]) in Hx.
      apply list_elem_of_singleton in Hx as ->. unfold inside, range_end. cbn. lia. }
  destruct (plain_top (mkBref HAMMER2_BREF_TYPE_INODE 0 0 0 0 0 2 77 0 0 0 0 0 0 0)
    [tree_block 0 16; bref_zero; tree_dirent 65536; bref_zero]) as [H1 H2]; [|split|done|repeat constructor|done|].
  - split; [repeat constructor; cbn; lia|]. apply StronglySorted_cons. split; [|repeat constructor].
    constructor; [|constructor]. unfold before. cbn. lia.
  - done.
  - done.
  - by right.
  - repeat constructor; cbn; lia.
  - split; [exact H1|]. intros b Hb Hi. change (b ∈ [tree_block 0 16; tree_dirent 65536]) in Hb.
    apply elem_of_cons in Hb as [->|Hb]; [|apply list_elem_of_singleton in Hb as ->; done].
    split; [|exact T1]. split; [done|]. intros x Hx. change (x ∈ [tree_block 32768 15]) in Hx.
    apply list_elem_of_singleton in Hx as ->. unfold inside, range_end. cbn. lia.
Qed.


