(* ===== verification/ChainCreate.v ===== *)
(** Creation and deletion of chains (hammer2_chain.c): hammer2_chain_create() on a
    cursor into a tree of chains, and hammer2_chain_delete().

    A full table is split by hammer2_chain_create_indirect(), and the indirect
    blocks below the elements that move go with them.  The errors of
    hammer2_chain_modify() and what it does to the new chain are parameters. *)
From S2P Require Import Prelude Disk Subr BlockTable Indirect ChainTree.
From Stdlib Require Import ZArith Lia Bool.
From stdpp Require Import base list.
Import Sizes.
Open Scope Z_scope.

Definition HAMMER2_METH_DEFAULT : Z := -1.
Definition HAMMER2_CHECK_NONE : Z := 0.
Definition HAMMER2_CHECK_DEFAULT : Z := 3.
Definition HAMMER2_INSERT_PFSROOT : Z := 0x0004.
Definition HAMMER2_INSERT_SAMEPARENT : Z := 0x0008.
Definition HAMMER2_CHAIN_DESTROY : Z := 0x00000004.
Definition HAMMER2_DELETE_PERMANENT : Z := 0x0001.

(** ** The new chain *)

(** [dummy.methods]: inherited from the parent by default, and never without a
    check code unless the chain is file data. *)
Definition new_methods (parent_methods methods type : Z) : Z :=
  let m := if methods =? HAMMER2_METH_DEFAULT then parent_methods else u8 methods in
  if negb (type =? HAMMER2_BREF_TYPE_DATA) && (HAMMER2_DEC_CHECK m =? HAMMER2_CHECK_NONE)
  then m ||| HAMMER2_ENC_CHECK HAMMER2_CHECK_DEFAULT else m.

Definition dummy_bref (type methods key keybits radix : Z) : hammer2_blockref :=
  mkBref type methods 0 (u8 keybits) 0 0 0 key 0 0 radix 0 0 0 0.

(** The types hammer2_chain_alloc() has a chain for. *)
Definition alloc_type (type : Z) : bool :=
  (type =? HAMMER2_BREF_TYPE_INODE) || (type =? HAMMER2_BREF_TYPE_INDIRECT) || (type =? HAMMER2_BREF_TYPE_DATA) ||
  (type =? HAMMER2_BREF_TYPE_DIRENT) || (type =? HAMMER2_BREF_TYPE_FREEMAP_NODE) ||
  (type =? HAMMER2_BREF_TYPE_FREEMAP_LEAF) || (type =? HAMMER2_BREF_TYPE_FREEMAP) || (type =? HAMMER2_BREF_TYPE_VOLUME).

(** The types the function does not create. *)
Definition no_create (type : Z) : bool :=
  (type =? HAMMER2_BREF_TYPE_VOLUME) || (type =? HAMMER2_BREF_TYPE_FREEMAP) ||
  (type =? HAMMER2_BREF_TYPE_INDIRECT) || (type =? HAMMER2_BREF_TYPE_FREEMAP_NODE).

(** HAMMER2_INSERT_PFSROOT. *)
Definition as_pfsroot (c : child) : child :=
  let b := cd_bref c in
  mkChild (mkBref (br_type b) (br_methods b) (br_copyid b) (br_keybits b) (br_vradix b)
      (br_flags b ||| HAMMER2_BREF_FLAG_PFSROOT) (br_leaf_count b) (br_key b) (br_mirror_tid b) (br_modify_tid b)
      (br_data_off b) (br_update_tid b) (br_data_count b) (br_inode_count b) (br_check b))
    (cd_flags c ||| HAMMER2_CHAIN_PFSBOUNDARY).

(** A chain that is attached again, with the key it gets. *)
Definition rekey (c : child) (key keybits : Z) : child :=
  let b := cd_bref c in
  mkChild (mkBref (br_type b) (br_methods b) (br_copyid b) (u8 keybits) (br_vradix b)
      (br_flags b) (br_leaf_count b) key (br_mirror_tid b) (br_modify_tid b)
      (br_data_off b) (br_update_tid b) (br_data_count b) (br_inode_count b) (br_check b))
    (cd_flags c &~ HAMMER2_CHAIN_DELETED).

(** ** The split *)

(** The block [s] below the chain is below a chain that moved to [N]. *)
Definition moved_to (N : node) (s : tree) : bool := List.existsb (at_child (br_key (t_bref s))) (pa_rbtree (nd_parent N)).

(** hammer2_chain_modify() of the chain ahead of the split, where it succeeds,
    takes it out of the INITIAL state. *)
Definition modified_top (modify_p : Z) (n : node) : node :=
  if nz modify_p then n
  else
    let p := nd_parent n in
    mkNode (mkParent (pa_bref p) (pa_flags p &~ HAMMER2_CHAIN_INITIAL) (pa_cache_index p) (pa_live_zero p)
      (pa_live_count p) (pa_rbtree p)) (nd_base n).

(** The chain after the split, and the new block once it is in place. *)
Definition split_tree (t : tree) (r : ind_result) : tree * option tree :=
  match ir_ichain r with
  | None => (Tree (ir_parent r) (t_error t) (t_subs t), None)
  | Some N =>
      (Tree (ir_parent r) (t_error t) (List.filter (fun s => negb (moved_to N s)) (t_subs t)),
       Some (Tree N 0 (List.filter (moved_to N) (t_subs t))))
  end.

(** ** The creation *)

Record create_result := mkCreate {
  cr_cursor : option (tree * list tree);
  cr_chain : option child;
  cr_error : Z;
  cr_hpanic : bool
}.

Section Create.
Context (modify_p modify_i : Z) (modify : nat -> Z) (modify_c : child -> child * Z) (dir directdata : bool).

(** From [skip]: the chain goes into the parent, where there is one. *)
Definition create_link (allocated : bool) (cursor : option (tree * list tree)) (count : Z) (c : child) (hp : bool)
    : option create_result :=
  let finish cur c :=
    if allocated then
      let t := br_type (cd_bref c) in
      if (t =? HAMMER2_BREF_TYPE_DATA) || (t =? HAMMER2_BREF_TYPE_FREEMAP_LEAF) ||
         (t =? HAMMER2_BREF_TYPE_DIRENT) || (t =? HAMMER2_BREF_TYPE_INODE)
      then let '(c, error) := modify_c c in Some (mkCreate (cur c) (Some c) error hp)
      else Some (mkCreate (cur c) (Some c) HAMMER2_ERROR_EIO true)
    else
      let c := cd_set c HAMMER2_CHAIN_UPDATE in Some (mkCreate (cur c) (Some c) 0 hp) in
  match cursor with
  | None => finish (fun _ => None) c
  | Some (t, up) =>
      if negb (pa_live_count (t_parent t) <? count) then None
      else
        match hammer2_chain_insert (t_parent t) c true with
        | None => None
        | Some (p, c) => finish (fun c => Some (set_parent t (set_child p c), up)) c
        end
  end.

(** The loop from [again].  [loops] is [maxloops - 1]. *)
Fixpoint create_again (allocated sameparent : bool) (loops : nat) (t : tree) (up : list tree) (c : child)
    (key keybits type : Z) (hp : bool) : option create_result :=
  let failed t up error hp := Some (mkCreate (Some (t, up)) (if allocated then None else Some c) error hp) in
  match loops with
  | O => failed t up HAMMER2_ERROR_EIO true
  | S loops =>
      let b := t_bref t in
      if (br_type b =? HAMMER2_BREF_TYPE_INODE) && directdata then None
      else if negb (has_table b) then failed t up HAMMER2_ERROR_EIO true
      else
        let count := zlen (nd_base (t_node t)) in
        let p := hammer2_chain_countbrefs (t_parent t) (t_base t) count in
        let t := set_parent t p in
        if negb ((0 <=? pa_live_count p) && (pa_live_count p <=? count)) then None
        else if pa_live_count p =? count then
          if sameparent then None
          else
            match hammer2_chain_create_indirect modify_p modify_i modify dir (modified_top modify_p (t_node t))
                key keybits type with
            | None => None
            | Some r =>
                let hp := hp || ir_hpanic r in
                match split_tree t r with
                | (t, None) => failed t up (ir_error r) hp
                | (t, Some s) =>
                    if nz (ir_error r) then failed (put t s) up (ir_error r) hp
                    else
                      match ir_ret r with
                      | RetNull => failed (put t s) up (ir_error r) hp
                      | RetParent => create_again allocated sameparent loops (put t s) up c key keybits type hp
                      | RetIchain => create_again allocated sameparent loops s (t :: up) c key keybits type hp
                      end
                end
            end
        else create_link allocated (Some (t, up)) count c hp
  end.

(** [cursor] is [*parentp], [chain] is [*chainp]. *)
Definition hammer2_chain_create (cursor : option (tree * list tree)) (chain : option child)
    (methods key keybits type bytes flags : Z) : option create_result :=
  if match cursor with Some (t, _) => nz (t_error t) | None => false end then None
  else
    let enter allocated c :=
      let c := if nz (flags & HAMMER2_INSERT_PFSROOT) then as_pfsroot c else c in
      match cursor with
      | None => create_link allocated None 0 c false
      | Some (t, up) =>
          create_again allocated (nz (flags & HAMMER2_INSERT_SAMEPARENT)) maxloops t up c key keybits type false
      end in
    match chain with
    | Some c => enter false (rekey c key keybits)
    | None =>
        match hammer2_getradix bytes with
        | None => None
        | Some radix =>
            let pm := match cursor with Some (t, _) => Some (br_methods (t_bref t)) | None => None end in
            match (if methods =? HAMMER2_METH_DEFAULT then pm else Some 0) with
            | None => None
            | Some pm =>
                if negb (alloc_type type) then Some (mkCreate cursor None HAMMER2_ERROR_EIO true)
                else if no_create type then Some (mkCreate cursor None HAMMER2_ERROR_EINVAL true)
                else if (type =? HAMMER2_BREF_TYPE_FREEMAP_LEAF) && negb (bytes =? HAMMER2_FREEMAP_LEVELN_PSIZE) then None
                else enter true (mkChild (dummy_bref type (new_methods pm methods type) key keybits radix) HAMMER2_CHAIN_INITIAL)
            end
        end
    end.
End Create.

(** ** The deletion *)

(** The chain [n], the child, the error and hpanic(); [modify] is the error of
    the modification of [n]. *)
Definition hammer2_chain_delete (modify : Z) (n : node) (c : child) (flags : Z) : option (node * child * Z * bool) :=
  let r := if has (cd_flags c) HAMMER2_CHAIN_DELETED then Some (n, c, None, 0, false) else delete_helper modify n c in
  match r with
  | None => None
  | Some (n, c, _, error, hp) =>
      let c := if (error =? 0) && nz (flags & HAMMER2_DELETE_PERMANENT) then cd_set c HAMMER2_CHAIN_DESTROY else c in
      Some (n, c, error, hp)
  end.

(** In the tree: what was below the child goes with it. *)
Definition delete_at (modify : Z) (t : tree) (c : child) (flags : Z) : option (tree * child * Z * bool) :=
  match hammer2_chain_delete modify (t_node t) c flags with
  | None => None
  | Some (n, c', error, hp) =>
      let subs := if nz error then t_subs t else sub_del (br_key (cd_bref c)) (t_subs t) in
      Some (Tree n (t_error t) subs, c', error, hp)
  end.
