(* ===== verification/ChainCreateProof.v ===== *)
(** Creations and deletions in the tree of chains: a new element of a directory
    goes to the place where a lookup finds it, through the split of a full table,
    and a deletion takes one element out. *)
From Stdlib Require Import ZArith Lia Bool.
From stdpp Require Import base list sorting.
From S2P Require Import Prelude Disk Subr BlockTable BlockTableProof BlockView Indirect IndirectProof IndirectMove IndirectSplit ChainTree ChainTreeProof ChainCreate.
Open Scope Z_scope.

(** ** The range of a directory's block *)

(** Disjoint ranges fill what they are in. *)
Lemma brefs_room l : forall lo hi, brefs_ok l -> lo <= hi ->
  (forall b, b ∈ l -> lo <= br_key b /\ range_end b <= hi) -> zlen l <= hi - lo.
Proof.
  induction l as [|a l IH]; intros lo hi Hok Hle Hin; [cbn; lia|]. apply brefs_ok_cons in Hok as (Ha & Hl & Hlt).
  assert (X := span_pos a Ha). destruct (Hin a ltac:(apply elem_of_cons; by left)) as [A1 A2].
  specialize (IH (range_end a) hi Hl A2). cbn [length]. enough (zlen l <= hi - range_end a) by (unfold range_end in *; lia).
  apply IH. intros b Hb. specialize (Hlt b Hb). destruct (Hin b ltac:(apply elem_of_cons; by right)).
  unfold before, range_end in *. lia.
Qed.

Lemma ncount_spec pk nb j : nb / HAMMER2_BLOCKREF_BYTES = 2 ^ j -> 0 <= j ->
  let n := ind_ncount pk nb in
  n <= 2 ^ j /\ (0 < pk <= 64 -> n <= 2 ^ (pk - 1)) /\ (n = 0 \/ exists i, 0 <= i /\ n = 2 ^ i).
Proof.
  intros En Hj. unfold ind_ncount. rewrite En. cbv zeta. assert (0 < 2 ^ j) by (apply Z.pow_pos_nonneg; lia).
  assert (key_span (pk - 1) = 0 \/ (0 < pk -> key_span (pk - 1) = 2 ^ (pk - 1))) as Hs.
  { destruct (Z.lt_ge_cases (pk - 1) 64); [right; intros; apply key_span_eq; lia|left]. unfold key_span, u64.
    rewrite Z.shiftl_1_l. replace (pk - 1) with (pk - 1 - 64 + 64) by lia. rewrite Z.pow_add_r by lia. apply Z_mod_mult. }
  assert (0 < pk -> pk <= 64 -> key_span (pk - 1) = 2 ^ (pk - 1)) as Hs' by (intros; apply key_span_eq; lia).
  destruct (Z.ltb_spec 0 pk) as [Hp|Hp].
  2:{ split_and!; [lia|lia|]. right. by exists j. }
  assert (0 < 2 ^ (pk - 1)) by (apply Z.pow_pos_nonneg; lia).
  destruct (Z.ltb_spec 128 (key_span (pk - 1))) as [H1|H1]; match goal with |- context [?x <? ?y] => destruct (Z.ltb_spec x y) end.
  all: split_and!; try (intros; specialize (Hs' ltac:(lia) ltac:(lia)); lia); try lia.
  - right. by exists 7.
  - right. by exists j.
  - destruct Hs as [Hs|Hs]; [by left|right]. exists (pk - 1). split; [lia|auto].
  - right. by exists j.
Qed.

(** A power of two above half of another is at least that one. *)
Lemma pow_half kb n : 1 <= kb -> n = 0 \/ (exists i, 0 <= i /\ n = 2 ^ i) -> 2 ^ (kb - 1) < n -> 2 ^ kb <= n.
Proof.
  intros Hk [->|(i & Hi & ->)] H; [assert (0 < 2 ^ (kb - 1)) by (apply Z.pow_pos_nonneg; lia); lia|].
  apply Z.pow_lt_mono_r_iff in H; [|lia|lia]. apply Z.pow_le_mono_r; lia.
Qed.

(** A smaller aligned block around a key of an aligned range is inside of it. *)
Lemma block_inside lo hb key kb : lo mod 2 ^ hb = 0 -> 0 <= kb <= hb -> is_u64 key -> kb < 64 ->
  lo <= key < lo + 2 ^ hb -> lo <= first_key key kb /\ first_key key kb + 2 ^ kb <= lo + 2 ^ hb.
Proof.
  intros Ha Hkb Hk Hk64 Hin. unfold first_key. rewrite key_span_eq, ldiff_low by lia.
  assert (0 < 2 ^ kb) by (apply Z.pow_pos_nonneg; lia). assert (0 < 2 ^ (hb - kb)) by (apply Z.pow_pos_nonneg; lia).
  assert (2 ^ hb = 2 ^ (hb - kb) * 2 ^ kb) as E by (rewrite <- Z.pow_add_r by lia; f_equal; lia).
  apply Z.mod_divide in Ha as [q Eq]; [|assert (0 < 2 ^ hb) by (apply Z.pow_pos_nonneg; lia); lia].
  assert (Hd := Z.div_mod key (2 ^ kb) ltac:(lia)). assert (Hm := Z.mod_pos_bound key (2 ^ kb) ltac:(lia)).
  set (w := 2 ^ kb) in *. set (v := 2 ^ (hb - kb)) in *. rewrite E in *. subst lo.
  assert (q * v <= key / w) by (apply Z.div_le_lower_bound; nia). assert (key / w < q * v + v) by (apply Z.div_lt_upper_bound; nia). nia.
Qed.

(** Two keys of an aligned range are the same above its bits. *)
Lemma range_same lo hb x y : lo mod 2 ^ hb = 0 -> 0 <= hb -> lo <= x < lo + 2 ^ hb -> lo <= y < lo + 2 ^ hb -> same_above hb x y.
Proof.
  intros Ha Hb Hx Hy. assert (0 < 2 ^ hb) by (apply Z.pow_pos_nonneg; lia). apply same_above_div; [done|].
  apply Z.mod_divide in Ha as [q ->]; [|lia].
  assert (forall z, q * 2 ^ hb <= z < q * 2 ^ hb + 2 ^ hb -> z / 2 ^ hb = q) as Hq.
  { intros z Hz. symmetry. apply Z.div_unique with (z - q * 2 ^ hb); lia. }
  by rewrite !Hq.
Qed.

Lemma bits_le_inside B b : bref_ok B -> bref_ok b -> inside B b -> br_keybits b <= br_keybits B.
Proof.
  intros HB Hb [H1 H2]. unfold range_end in *. destruct HB as (B1 & B2 & B3), Hb as (b1 & b2 & b3).
  apply (Z.pow_le_mono_r_iff 2); lia.
Qed.

(** ** The insertion *)

(** What hammer2_chain_modify() leaves of a chain that is in its parent and not
    in the block table. *)
Definition keeps_place (c c' : child) : Prop :=
  same_head (cd_bref c) (cd_bref c') /\
  forall f, f = HAMMER2_CHAIN_ONRBTREE \/ f = HAMMER2_CHAIN_DELETED \/ f = HAMMER2_CHAIN_BLKMAPPED ->
    has (cd_flags c') f = has (cd_flags c) f.

Lemma insert_ok n c c' : node_ok n -> bref_ok (cd_bref c) -> apart (nview n) (cd_bref c) ->
  has (cd_flags c) HAMMER2_CHAIN_DELETED = false -> has (cd_flags c) HAMMER2_CHAIN_BLKMAPPED = false ->
  keeps_place (cd_set c HAMMER2_CHAIN_ONRBTREE) c' ->
  exists p, hammer2_chain_insert (nd_parent n) c true = Some (p, cd_set c HAMMER2_CHAIN_ONRBTREE) /\
    node_ok (mkNode (set_child p c') (nd_base n)) /\
    nview (mkNode (set_child p c') (nd_base n)) = list_ins (cd_bref c') (nview n) /\
    same_kind (nd_parent n) (set_child p c').
Proof.
  intros Hn Hb Hap Hd Hm [(E1 & E2 & E3) Hf]. set (c1 := cd_set c HAMMER2_CHAIN_ONRBTREE) in *.
  assert (bref_ok (cd_bref c')) as Hb' by (unfold bref_ok; rewrite E1, E2; exact Hb).
  assert (apart (nview n) (cd_bref c')) as Hap' by (intros x Hx; unfold before; rewrite E1, E2; by apply Hap).
  destruct (rb_insert_spec c1 (pa_rbtree (nd_parent n))) as (rb & E & Hrb & Hrok); [apply Hn|done| |].
  { intros a Ha. apply or_comm. by apply (children_apart n (cd_bref c) Hn Hap). }
  unfold hammer2_chain_insert. fold c1. rewrite E. eexists. split; [done|].
  set (p := set_children (nd_parent n) (pa_live_count (nd_parent n) + 1) rb).
  assert (c1 ∉ pa_rbtree (nd_parent n)) as Hfresh.
  { intros Hin. assert (X := children_apart n (cd_bref c) Hn Hap c1 Hin). assert (Hs := span_pos _ Hb). unfold before in X. cbn in X. lia. }
  destruct (set_child_spec p c1 c' rb Hrok) as [S1 S2]; [by split|apply Hrb; by left|done|].
  apply and_assoc. split; [|by split_and!]. destruct (no_view _ Hn) as [[H1 H2 H3] _ _].
  apply (node_with n (cd_bref c') None Hn Hb' Hap' I c'); try done.
  - rewrite Hf by auto. unfold c1. cbn [cd_set cd_flags]. by rewrite has_lor, orb_true_r.
  - rewrite Hf by auto. unfold c1. cbn [cd_set cd_flags]. by rewrite has_lor, Hd.
  - rewrite Hf by auto. unfold c1. cbn [cd_set cd_flags]. by rewrite has_lor, Hm.
  - apply Hn.
  - intros x. rewrite S1, Hrb. split; [intros [|[[|] ?]]; [by left|done|by right]|].
    intros [|Hx]; [by left|right]. split; [by right|]. by intros ->.
Qed.

Section Media.
Context (media : hammer2_blockref -> list hammer2_blockref * Z).

Abbreviation sub := (block_chain media).
Abbreviation tree_ok := (tree_ok media).
Abbreviation elems := (elems media).
Abbreviation leaves := (leaves media).
Abbreviation blocks := (blocks media).

(** ** Another chain at the cursor *)

(** A tree is also one of a greater depth. *)
Lemma deeper d : forall t, tree_ok d t -> tree_ok (S d) t /\ elems (S d) t = elems d t.
Proof.
  induction d as [|d IH]; intros t Ht; [done|]. destruct Ht as [Ht Hs]. split.
  - split; [done|]. intros b Hb Hi. destruct (Hs b Hb Hi) as [Hbel Hok]. split; [done|]. by apply IH.
  - cbn [ChainTreeProof.elems]. f_equal. apply list_fmap_ext. intros i b Hb. apply list_elem_of_lookup_2 in Hb.
    destruct (is_indirect b) eqn:E; [|done]. f_equal. by apply IH, Hs.
Qed.

Lemma deeper_by n : forall d t, tree_ok d t -> tree_ok (n + d) t /\ elems (n + d) t = elems d t.
Proof.
  induction n as [|n IH]; intros d t Ht; [done|]. destruct (IH d t Ht) as [H1 H2]. destruct (deeper _ t H1) as [H3 H4].
  split; [exact H3|]. cbn [plus]. congruence.
Qed.

(** Below the chains above, the chain can be replaced by one of the same range. *)
Lemma put_replace d u t t' : tree_ok (S (S d)) (put u t) -> tree_ok (S d) t' -> same_head (t_bref t) (t_bref t') ->
  (exists b, b ∈ vw u /\ is_indirect b = true /\ br_key b = br_key (t_bref t)) ->
  (forall x, x ∈ vw t' -> inside (t_bref t) x) ->
  tree_ok (S (S d)) (put u t') /\
  exists A B, elems (S (S d)) (put u t) = A ++ elems (S d) t ++ B /\ elems (S (S d)) (put u t') = A ++ elems (S d) t' ++ B.
Proof.
  intros [Hu Hs] Ht' (Ek & Ekb & Et) (b & Hb & Hi & Ebk) Hin.
  assert (Hsame : forall x, br_key x <> br_key (t_bref t) -> sub (put u t') x = sub (put u t) x).
  { intros x Hx. rewrite !sub_put, Ek. by destruct (Z.eqb_spec (br_key (t_bref t)) (br_key x)); [lia|]. }
  assert (Hself : sub (put u t) b = t /\ sub (put u t') b = t').
  { rewrite !sub_put, Ek, Ebk, Z.eqb_refl. done. }
  destruct Hself as [S1 S2]. destruct (Hs b Hb Hi) as [[(F1 & F2 & F3) _] _]. rewrite S1 in F1, F2, F3. split; [split|].
  - destruct Hu as [U1 U2 U3 U4 U5 U6 U7 U8 U9]. split; try done.
    intros s Hsin. apply elem_of_cons in Hsin as [->|Hsin]; [|apply U6, elem_of_cons; by right].
    rewrite Ek. apply U6, elem_of_cons. by left.
  - intros x Hx Hxi. change (vw (put u t')) with (vw (put u t)) in Hx.
    destruct (Z.eq_dec (br_key x) (br_key (t_bref t))) as [E|Hne]; [|rewrite (Hsame x Hne); by apply Hs].
    rewrite (vw_key_inj (put u t) x b Hu Hx Hb) by congruence. rewrite S2. split; [|done].
    split; [split_and!; congruence|]. intros y Hy. specialize (Hin y Hy). unfold inside, range_end in *. rewrite <- F1, <- F2. exact Hin.
  - apply list_elem_of_split in Hb as Hsplit. destruct Hsplit as (l1 & l2 & El).
    assert (Hv := vw_ok _ Hu). change (vw (put u t)) with (vw u) in Hv. rewrite El in Hv.
    apply brefs_ok_app in Hv as (Hv1 & Hv & H12). apply brefs_ok_cons in Hv as (_ & Hv2 & H2).
    set (F := fun t (x : hammer2_blockref) => x :: if is_indirect x then elems (S d) (sub (put u t) x) else []).
    assert (forall l : list hammer2_blockref, (forall x, x ∈ l -> br_key x <> br_key (t_bref t)) -> F t' <$> l = F t <$> l) as HF.
    { intros l Hl. apply list_fmap_ext. intros i x Hx. apply list_elem_of_lookup_2 in Hx. unfold F. by rewrite (Hsame x (Hl x Hx)). }
    assert (F t b = b :: elems (S d) t) as Fb by (unfold F; by rewrite Hi, S1).
    assert (F t' b = b :: elems (S d) t') as Fb' by (unfold F; by rewrite Hi, S2).
    exists (concat (F t <$> l1) ++ [b]), (concat (F t <$> l2)).
    assert (forall t0, elems (S (S d)) (put u t0) = concat (F t0 <$> vw u)) as He by done. rewrite !He, El, !fmap_app, !concat_app.
    cbn [fmap list_fmap concat]. rewrite !HF.
    + rewrite Fb, Fb', <- !app_assoc. done.
    + intros x Hx E. specialize (H2 x Hx). assert (Y := span_pos b (brefs_ok_elem _ b (vw_ok _ Hu) Hb)). unfold before in H2. lia.
    + intros x Hx E. specialize (H12 x b Hx ltac:(apply elem_of_cons; by left)).
      assert (Y := span_pos x (brefs_ok_elem _ _ Hv1 Hx)). unfold before in H12. lia.
Qed.

Lemma zip_replace up : forall d t t', path t up -> tree_ok (S d + length up) (zip t up) -> tree_ok (S d) t' ->
  same_head (t_bref t) (t_bref t') -> (up <> [] -> forall x, x ∈ vw t' -> inside (t_bref t) x) ->
  tree_ok (S d + length up) (zip t' up) /\ path t' up /\
  exists A B, elems (S d + length up) (zip t up) = A ++ elems (S d) t ++ B /\
    elems (S d + length up) (zip t' up) = A ++ elems (S d) t' ++ B.
Proof.
  induction up as [|u up IH]; intros d t t' Hp Hz Ht' Hh Hin; cbn [zip length path] in *.
  { rewrite Nat.add_0_r in *. rewrite (same_head_ind _ _ Hh). split_and!; try done. exists [], []. by rewrite !app_nil_r. }
  destruct Hp as [Hb Hp]. rewrite Nat.add_succ_r in *.
  assert (tree_ok (S (S d)) (put u t)) as Hok by (apply (zip_ok media up); [done|exact Hz]).
  destruct (put_replace d u t t' Hok Ht' Hh Hb (Hin ltac:(done))) as (Hok' & A & B & E1 & E2).
  destruct (IH (S d) (put u t) (put u t') Hp Hz Hok') as (I1 & I2 & A' & B' & I3 & I4); [by split_and!| |].
  { intros Hne x Hx. destruct (zip_top media up (S (S d)) (put u t) Hp Hz Hne) as (c & [(C1 & C2 & _) Hc] & _).
    specialize (Hc x Hx). unfold inside, range_end in *. by rewrite C1, C2. }
  split; [exact I1|]. split; [split; [|done]; destruct Hh as (Ek & _); by rewrite Ek|].
  exists (A' ++ A), (B ++ B'). cbn [plus] in *. rewrite I3, I4, E1, E2, <- !app_assoc. done.
Qed.

(** ** A split *)

Lemma sub_at_filter f k subs : (forall s, s ∈ subs -> br_key (t_bref s) = k -> f s = true) ->
  sub_at k (List.filter f subs) = sub_at k subs.
Proof.
  intros H. induction subs as [|s l IH]; [done|]. cbn [List.filter].
  assert (Hl : sub_at k (List.filter f l) = sub_at k l) by (apply IH; intros; apply H; [apply elem_of_cons; by right|done]).
  unfold sub_at in *. cbn [List.find]. destruct (Z.eqb_spec (br_key (t_bref s)) k) as [E|E].
  - rewrite (H s ltac:(apply elem_of_cons; by left) E). cbn [List.find]. by rewrite E, Z.eqb_refl.
  - destruct (f s); [|done]. cbn [List.find]. by destruct (Z.eqb_spec (br_key (t_bref s)) k).
Qed.

Lemma sum_of_split f p l : sum_of f l = sum_of f (List.filter p l) + sum_of f (List.filter (fun b => negb (p b)) l).
Proof. induction l as [|b l IH]; [done|]. cbn [List.filter]. unfold sum_of in *. destruct (p b); cbn; lia. Qed.

Section Split.
Context (d : nat) (t : tree) (ck key kb : Z) (r : ind_result) (N : node).
Hypothesis Ht : tree_ok (S d) t.
Hypothesis Hc : counted_node (t_node t) = t_node t.
Hypothesis Hpl : planned (t_node t) key kb.
Hypothesis Hs : split (t_node t) ck key kb r N.

Abbreviation bN := (pa_bref (nd_parent N)).
Abbreviation t' := (Tree (ir_parent r) (t_error t) (List.filter (fun s => negb (moved_to N s)) (t_subs t))).
Abbreviation s := (Tree N 0 (List.filter (moved_to N) (t_subs t))).

Lemma split_view : vw t = nview (t_node t).
Proof. unfold vw. by rewrite Hc. Qed.

Lemma split_goes : vw s = List.filter (goes key kb) (vw t).
Proof. rewrite split_view. apply Hs. Qed.

Lemma split_stays : vw t' = list_ins bN (List.filter (stays key kb) (vw t)).
Proof. rewrite split_view. unfold vw. cbn [t_node]. rewrite counted_id by apply Hs. apply Hs. Qed.

Lemma split_elem b : b ∈ vw t <-> b ∈ List.filter (goes key kb) (vw t) \/ b ∈ List.filter (stays key kb) (vw t).
Proof.
  rewrite !list_elem_of_In, !List.filter_In. unfold stays, goes. destruct (in_block key kb (br_key b)); cbn [negb]; intuition done.
Qed.

Lemma split_apart b : b ∈ List.filter (stays key kb) (vw t) -> br_key b <> br_key bN.
Proof.
  intros Hb. assert (HP := tt_node _ (proj1 Ht)). rewrite Hc in HP. destruct Hpl as [P1 P2 P3 _].
  assert (Hb' := Hb). rewrite split_view in Hb. destruct (filter_first (t_node t) key kb P1 P2) as [_ E]. rewrite <- E in Hb.
  apply (stays_apart (t_node t) key kb HP P1 P2 P3) in Hb. rewrite (sp_key _ _ _ _ _ _ Hs).
  assert (b ∈ vw t) as Hv by (apply split_elem; by right).
  assert (X := span_pos b (brefs_ok_elem _ _ (vw_ok t (proj1 Ht)) Hv)). unfold range_end in Hb.
  assert (0 < 2 ^ kb) by (apply Z.pow_pos_nonneg; lia). lia.
Qed.

(** The block below an element moves with it. *)
Lemma moved_goes s0 b : b ∈ vw t -> br_key (t_bref s0) = br_key b -> moved_to N s0 = goes key kb b.
Proof.
  intros Hb Ek. unfold moved_to. rewrite Ek. apply Bool.eq_iff_eq_true. rewrite List.existsb_exists. split.
  - intros (c & Hcin & Ec). apply list_elem_of_In in Hcin. apply Z.eqb_eq in Ec.
    assert (cd_bref c ∈ vw s) as Hv.
    { unfold vw, nview. cbn [t_node]. apply (bview_elem _ _ _ (no_view _ (sp_block _ _ _ _ _ _ Hs))). left. exists c.
      split; [by rewrite counted_rbtree|done]. }
    rewrite split_goes in Hv. apply list_elem_of_In, List.filter_In in Hv as [Hv Hg]. apply list_elem_of_In in Hv.
    by rewrite (vw_key_inj t b (cd_bref c) (proj1 Ht) Hb Hv).
  - intros Hg. assert (b ∈ vw s) as Hv by (rewrite split_goes; by apply list_elem_of_In, List.filter_In; split; [apply list_elem_of_In|]).
    destruct (sp_memory _ _ _ _ _ _ Hs b Hv) as (c & Hcin & <-). exists c. split; [by apply list_elem_of_In|]. apply Z.eqb_refl.
Qed.

Lemma sub_goes b : b ∈ List.filter (goes key kb) (vw t) -> sub s b = sub t b.
Proof.
  intros Hb. apply list_elem_of_In, List.filter_In in Hb as [Hb Hg]. apply list_elem_of_In in Hb.
  unfold block_chain. cbn [t_subs]. rewrite sub_at_filter; [done|]. intros s0 _ E. by rewrite (moved_goes s0 b).
Qed.

Lemma sub_stays b : b ∈ List.filter (stays key kb) (vw t) -> sub (put t' s) b = sub t b.
Proof.
  intros Hb. assert (Hne := split_apart b Hb). rewrite sub_put. change (t_bref s) with bN.
  destruct (Z.eqb_spec (br_key bN) (br_key b)); [lia|].
  apply list_elem_of_In, List.filter_In in Hb as [Hb Hg]. apply list_elem_of_In in Hb.
  unfold block_chain. cbn [t_subs]. rewrite sub_at_filter; [done|]. intros s0 _ E. rewrite (moved_goes s0 b) by done. exact Hg.
Qed.

Lemma is_indirect_new : is_indirect bN = true.
Proof. unfold is_indirect. by destruct (sp_type _ _ _ _ _ _ Hs) as [-> | ->]. Qed.

Lemma split_sub_elem s0 : s0 ∈ t_subs t -> exists b, (b ∈ vw t /\ is_indirect b = true /\ br_key b = br_key (t_bref s0)) /\
  moved_to N s0 = goes key kb b.
Proof. intros H. destruct (tt_subs _ (proj1 Ht) s0 H) as (b & H1 & H2 & H3). exists b. split; [done|]. by apply moved_goes. Qed.

Lemma split_block_top : tree_top s.
Proof.
  assert (Hv := split_goes). destruct (proj1 Ht) as [T1 T2 T3 T4 T5 T6 T7 T8 T9]. split.
  - apply Hs.
  - done.
  - unfold has_table. change (t_bref s) with bN. by rewrite is_indirect_new, orb_true_r.
  - by apply (sp_flags _ _ _ _ _ _ Hs).
  - by apply (sp_flags _ _ _ _ _ _ Hs).
  - intros s0 H0. cbn [t_subs] in H0. apply list_elem_of_In, List.filter_In in H0 as [H0 Hm]. apply list_elem_of_In in H0.
    destruct (split_sub_elem s0 H0) as (b & (B1 & B2 & B3) & E). exists b. split; [|done]. rewrite Hv.
    apply list_elem_of_In, List.filter_In. split; [by apply list_elem_of_In|congruence].
  - rewrite Hv. rewrite Forall_forall in T7 |- *. intros b Hb. apply T7, split_elem. by left.
  - destruct (sp_slots _ _ _ _ _ _ Hs) as [E|(k & Hk & E)]; cbn [t_node]; rewrite E; [done|]. exists k. split; [done|lia].
  - rewrite Hv. cbn [t_node]. assert (X := List.filter_length_le (goes key kb) (vw t)). assert (Y := sp_room _ _ _ _ _ _ Hs). lia.
Qed.

Lemma split_block_ok : tree_ok (S d) s.
Proof.
  split; [apply split_block_top|]. intros b Hb Hi. rewrite split_goes in Hb. rewrite (sub_goes b Hb). apply Ht; [|done].
  apply split_elem. by left.
Qed.

Lemma split_head : same_head (t_bref t) (t_bref t').
Proof. destruct (sp_kind _ _ _ _ _ _ Hs) as (E1 & (E2 & E3) & _). by split_and!. Qed.

Lemma split_count : zlen (vw t') = zlen (vw t) - countb (goes key kb) (vw t) + 1 /\ 1 <= countb (goes key kb) (vw t).
Proof.
  rewrite split_stays, list_ins_length. assert (X := countb_split (goes key kb) (vw t)). split.
  - unfold countb, stays, goes in *. lia.
  - destruct (pl_some _ _ _ Hpl) as (b & Hb & Hg). rewrite <- split_view in Hb. unfold countb.
    assert (In b (List.filter (goes key kb) (vw t))) as Hin by (apply List.filter_In; split; [by apply list_elem_of_In|done]).
    destruct (List.filter (goes key kb) (vw t)); [done|]. cbn [length]. lia.
Qed.

Lemma split_top : tree_top (put t' s).
Proof.
  assert (Hv := split_stays). destruct (proj1 Ht) as [T1 T2 T3 T4 T5 T6 T7 T8 T9].
  destruct (sp_kind _ _ _ _ _ _ Hs) as (K1 & (K2 & K3) & K4). destruct split_count as [C1 C2]. split.
  - cbn [t_node put]. rewrite counted_id; apply Hs.
  - done.
  - unfold has_table, is_indirect in *. change (t_bref (put t' s)) with (t_bref t'). destruct split_head as (_ & _ & ->). exact T3.
  - cbn. rewrite K4 by done. exact T4.
  - cbn. rewrite K4 by done. exact T5.
  - intros s0 H0. change (vw (put t' s)) with (vw t'). rewrite Hv. cbn [put t_subs] in H0. apply elem_of_cons in H0 as [->|H0].
    { exists bN. split; [apply list_ins_elem; by left|]. split; [apply is_indirect_new|done]. }
    apply list_elem_of_In, List.filter_In in H0 as [H0 Hm]. apply list_elem_of_In in H0.
    destruct (split_sub_elem s0 H0) as (b & (B1 & B2 & B3) & E). exists b. split; [|done]. apply list_ins_elem. right.
    apply list_elem_of_In, List.filter_In. split; [by apply list_elem_of_In|]. unfold stays. rewrite E in Hm. exact Hm.
  - change (vw (put t' s)) with (vw t'). rewrite Hv. rewrite Forall_forall in T7 |- *. intros b Hb.
    apply list_ins_elem in Hb as [->|Hb]; [|apply T7, split_elem; by right].
    unfold aligned. rewrite (sp_key _ _ _ _ _ _ Hs), (sp_bits _ _ _ _ _ _ Hs).
    by apply (first_key_spec key kb (pl_key _ _ _ Hpl) (pl_bits _ _ _ Hpl)).
  - cbn [t_node put]. rewrite (sp_size _ _ _ _ _ _ Hs). exact T8.
  - change (vw (put t' s)) with (vw t'). cbn [t_node put]. rewrite (sp_size _ _ _ _ _ _ Hs). lia.
Qed.

Lemma sub_new : sub (put t' s) bN = s.
Proof. rewrite sub_put. change (t_bref s) with bN. by rewrite Z.eqb_refl. Qed.

Lemma split_tree_ok : tree_ok (S (S d)) (put t' s).
Proof.
  split; [apply split_top|]. intros b Hb Hi. change (vw (put t' s)) with (vw t') in Hb. rewrite split_stays in Hb.
  apply list_ins_elem in Hb as [->|Hb].
  - rewrite sub_new. split; [|apply split_block_ok]. split; [done|]. intros x Hx.
    apply (sp_within _ _ _ _ _ _ Hs) in Hx. unfold inside, range_end in *.
    rewrite (sp_key _ _ _ _ _ _ Hs), (sp_bits _ _ _ _ _ _ Hs). exact Hx.
  - rewrite (sub_stays b Hb). destruct (proj2 Ht b) as [H1 H2]; [apply split_elem; by right|done|]. split; [done|].
    by apply (deeper d).
Qed.

(** What is below an element is the same before and after. *)
Lemma below_goes b : b ∈ List.filter (goes key kb) (vw t) ->
  leaves_of media d s b = leaves_of media d t b /\ blocks_of media d s b = blocks_of media d t b.
Proof. intros Hb. unfold leaves_of, blocks_of. by rewrite (sub_goes b Hb). Qed.

Lemma below_stays b : b ∈ List.filter (stays key kb) (vw t) ->
  leaves_of media (S d) (put t' s) b = leaves_of media d t b /\ blocks_of media (S d) (put t' s) b = blocks_of media d t b.
Proof.
  intros Hb. unfold leaves_of, blocks_of. rewrite (sub_stays b Hb). destruct (is_indirect b) eqn:E; [|done].
  assert (b ∈ vw t) as Hv by (apply split_elem; by right). destruct (proj2 Ht b Hv E) as [_ Hok].
  unfold ChainTreeProof.leaves, ChainTreeProof.blocks. by rewrite (proj2 (deeper d _ Hok)).
Qed.

Lemma split_leaves : leaves (S (S d)) (put t' s) = leaves (S d) t.
Proof.
  apply brefs_ok_ext; [apply leaves_ok, split_tree_ok|by apply leaves_ok|]. intros x.
  rewrite !leaves_eq, !elem_concat. change (vw (put t' s)) with (vw t'). rewrite split_stays. split.
  - intros (b & Hb & Hx). apply list_ins_elem in Hb as [->|Hb].
    + unfold leaves_of in Hx. rewrite is_indirect_new, sub_new, leaves_eq, elem_concat, split_goes in Hx.
      destruct Hx as (b & Hb & Hx). rewrite (proj1 (below_goes b Hb)) in Hx. exists b. split; [apply split_elem; by left|done].
    + rewrite (proj1 (below_stays b Hb)) in Hx. exists b. split; [apply split_elem; by right|done].
  - intros (b & Hb & Hx). apply split_elem in Hb as [Hb|Hb].
    + exists bN. split; [apply list_ins_elem; by left|]. unfold leaves_of. rewrite is_indirect_new, sub_new, leaves_eq, elem_concat, split_goes.
      exists b. split; [done|]. by rewrite (proj1 (below_goes b Hb)).
    + exists b. split; [apply list_ins_elem; by right|]. by rewrite (proj1 (below_stays b Hb)).
Qed.

Lemma split_blocks : blocks (S (S d)) (put t' s) = blocks (S d) t + 1.
Proof.
  rewrite (blocks_eq media (S d)). change (vw (put t' s)) with (vw t'). rewrite split_stays, sum_of_ins.
  unfold blocks_of at 1. rewrite is_indirect_new, sub_new, !blocks_eq, split_goes, (sum_of_split _ (goes key kb) (vw t)).
  rewrite (sum_of_ext _ _ _ (fun b Hb => proj2 (below_goes b Hb))).
  change (List.filter (fun b => negb (goes key kb b)) (vw t)) with (List.filter (stays key kb) (vw t)).
  rewrite (sum_of_ext _ _ _ (fun b Hb => proj2 (below_stays b Hb))). lia.
Qed.
End Split.

(** ** The split of a directory *)

Lemma hits_off key b : bref_ok b -> hits key key b = false -> key < br_key b \/ range_end b <= key.
Proof.
  intros Hb Hh. destruct (Z.lt_ge_cases key (br_key b)) as [|H1]; [by left|]. destruct (Z.le_gt_cases (range_end b) key) as [|H2]; [by right|].
  exfalso. assert (hits key key b = true); [|congruence]. apply hits_spec; [done|]. unfold range_end in H2. lia.
Qed.

(** The chain of a cursor that is not at the top. *)
Lemma cursor_range up d t : path t up -> tree_ok (S d + length up) (zip t up) -> up <> [] ->
  bref_ok (t_bref t) /\ aligned (t_bref t) /\ forall x, x ∈ vw t -> inside (t_bref t) x.
Proof.
  destruct up as [|u up]; intros Hp Hz Hne; [done|]. cbn [zip length path] in *. destruct Hp as [(b & Hb & Eb & Ek) Hp].
  rewrite Nat.add_succ_r in Hz. apply (zip_ok media up (S (S d))) in Hz as [Hu Hs]; [|done].
  destruct (Hs b Hb Eb) as [[(E1 & E2 & _) Hin] _]. rewrite sub_put, Ek, Z.eqb_refl in E1, E2, Hin.
  assert (bref_ok b) as Hbok by (eapply brefs_ok_elem; [apply (vw_ok _ Hu)|done]).
  assert (Ha := tt_aligned _ Hu). rewrite Forall_forall in Ha. specialize (Ha b Hb).
  unfold bref_ok, aligned, inside, range_end in *. rewrite <- Ek, E2. done.
Qed.

Section Dir.
Context (up : list tree) (d : nat) (t : tree) (ck ft : Z) (dir : bool).
Hypothesis Hp : path t up.
Hypothesis Hz : tree_ok (S d + length up) (zip t up).
Hypothesis Hc : counted_node (t_node t) = t_node t.
Hypothesis Hk : is_u64 ck.
Hypothesis Hstop : stops t up ck.
Hypothesis Hft : ft = HAMMER2_BREF_TYPE_DIRENT \/ ft = HAMMER2_BREF_TYPE_INODE.
Hypothesis Hfull : zlen (vw t) = zlen (nd_base (t_node t)).

Lemma dir_top : tree_top t.
Proof. apply (zip_ok media up (S d)) in Hz; [|done]. apply Hz. Qed.

Lemma dir_off b : b ∈ vw t -> bref_ok b /\ (ck < br_key b \/ range_end b <= ck).
Proof.
  intros Hb. assert (bref_ok b) as Hbok by (eapply brefs_ok_elem; [apply vw_ok, dir_top|done]). split; [done|].
  apply hits_off; [done|]. by apply Hstop.
Qed.

(** The size of the block is a power of two. *)
Lemma dir_slots nb : ind_nbytes (br_type (t_bref t)) ft dir (zlen (nd_base (t_node t))) = Some nb ->
  exists j, nb / HAMMER2_BLOCKREF_BYTES = 2 ^ j /\ 0 <= j <= 9.
Proof.
  intros En. destruct (tt_size _ dir_top) as (k & E8 & Hk8).
  assert (2 ^ 2 <= 2 ^ k <= 2 ^ 9) as Hsz by (split; apply Z.pow_le_mono_r; lia).
  destruct (nbytes_spec (br_type (t_bref t)) ft dir (zlen (nd_base (t_node t)))) as (nb' & En' & _ & _ & Hs); [lia|by destruct Hft as [-> | ->]|].
  rewrite En in En'. injection En' as <-. destruct Hs as [->|(j & Hj & ->)]; [exists k|exists j]; split; lia || done.
Qed.

Lemma dir_splittable : splittable (t_node t) dir ck 0 ft.
Proof.
  assert (Ev : nview (t_node t) = vw t) by (unfold vw; by rewrite Hc). assert (for_freemap ft = false) as Ef by (by destruct Hft as [-> | ->]).
  assert (Hsl := dir_slots). destruct dir_top as [T1 T2 T3 T4 T5 T6 T7 T8 T9]. rewrite Hc in T1. destruct T8 as (k & E8 & Hk8).
  assert (2 ^ 2 <= 2 ^ k <= 2 ^ 9) as Hsz by (split; apply Z.pow_le_mono_r; lia). split; rewrite ?Ev; try done.
  - rewrite E8, Ef. split; [lia|done].
  - rewrite (no_count _ T1), nview_length, Ev. exact T9.
  - intros E. rewrite E in Hfull. cbn in Hfull. lia.
  - intros nb En. unfold plannable. rewrite Ef, Ev. destruct (Z.eqb_spec ft HAMMER2_BREF_TYPE_DATA); [by destruct Hft; subst|].
    destruct (Hsl nb En) as (j & Ej & Hj). split_and!; try done; [exact (Z.mod_1_r ck)| |].
    + destruct (ncount_spec (br_keybits (t_bref t)) nb j Ej ltac:(lia)) as [X _]. unfold t_bref, t_parent in X.
      assert (2 ^ j <= 2 ^ 63) by (apply Z.pow_le_mono_r; lia). lia.
    + rewrite Forall_forall in T7 |- *. intros b Hb. destruct (dir_off b Hb) as [B1 B2]. split; [done|]. split; [by apply T7|]. lia.
Qed.

(** The block that is planned is inside of an indirect parent and narrower. *)
Lemma dir_inside key kb nb : planned (t_node t) key kb ->
  ind_nbytes (br_type (t_bref t)) ft dir (zlen (nd_base (t_node t))) = Some nb ->
  dir_planned (t_node t) ck 0 (ind_ncount (br_keybits (t_bref t)) nb) key kb -> up <> [] ->
  kb < br_keybits (t_bref t) /\ br_key (t_bref t) <= first_key key kb /\ first_key key kb + 2 ^ kb <= range_end (t_bref t).
Proof.
  intros [P1 P2 P3 P4] En [D1 D2 D3] Hne. assert (Ev : nview (t_node t) = vw t) by (unfold vw; by rewrite Hc). rewrite Ev in *.
  destruct (cursor_range up d t Hp Hz Hne) as (Bok & Ba & Bin). destruct (proj2 Hstop Hne) as [K1 K2]. unfold range_end in K2.
  assert (Hbok := Bok). destruct Hbok as (B1 & B2 & B3). set (B := t_bref t) in *.
  destruct (dir_slots nb En) as (j & Ej & Hj). destruct (ncount_spec (br_keybits B) nb j Ej ltac:(lia)) as (N1 & N2 & N3).
  destruct (tt_size _ dir_top) as (k & E8 & Hk8). assert (2 ^ 2 <= 2 ^ k) by (apply Z.pow_le_mono_r; lia).
  assert (Hroom := brefs_room (vw t) (br_key B) (range_end B) (vw_ok t dir_top)). unfold range_end in Hroom.
  assert (0 < 2 ^ br_keybits B) by (apply Z.pow_pos_nonneg; lia). specialize (Hroom ltac:(lia) Bin).
  assert (0 < br_keybits B) as Hpos.
  { destruct (Z.eq_dec (br_keybits B) 0) as [E0|]; [|lia]. rewrite E0 in Hroom. lia. }
  assert (Hin : forall b, b ∈ vw t -> br_key B <= br_key b < br_key B + 2 ^ br_keybits B).
  { intros b Hb. destruct (dir_off b Hb) as [Hbok _]. assert (X := span_pos b Hbok). destruct (Bin b Hb) as [I1 I2]. unfold range_end in *. lia. }
  assert (kb < br_keybits B) as Hlt.
  { destruct (D3 (br_keybits B)) as [|[L1 L2]]; [lia| |done|].
    - intros b Hb. split; [|apply bits_le_inside; [done|by apply dir_off|auto]].
      apply (range_same (br_key B)); try done; [lia|auto].
    - specialize (N2 ltac:(lia)). apply Z.nle_gt. intros Hge. assert (2 ^ (br_keybits B - 1) <= 2 ^ (kb - 1)) by (apply Z.pow_le_mono_r; lia). lia. }
  split; [done|]. apply block_inside; try done; try lia. apply (same_above_mono _ (br_keybits B)) in D2; [|lia].
  apply same_above_div in D2; [|lia]. apply Z.mod_divide in Ba as [q Eq]; [|lia].
  assert (ck / 2 ^ br_keybits B = q) as E2 by (symmetry; apply Z.div_unique with (ck - q * 2 ^ br_keybits B); lia).
  rewrite E2 in D2. assert (X := Z.div_mod key (2 ^ br_keybits B) ltac:(lia)). assert (Y := Z.mod_pos_bound key (2 ^ br_keybits B) ltac:(lia)). nia.
Qed.

(** The block has room for an element of its range that it does not have: it is
    as large as the table of its parent, and were all elements to go into it, it
    would be as large as its range. *)
Lemma dir_block_room key kb nb r N : planned (t_node t) key kb -> split (t_node t) ck key kb r N ->
  zlen (nd_base N) = nb / HAMMER2_BLOCKREF_BYTES ->
  ind_nbytes (br_type (t_bref t)) ft dir (zlen (nd_base (t_node t))) = Some nb ->
  dir_planned (t_node t) ck 0 (ind_ncount (br_keybits (t_bref t)) nb) key kb -> in_block key kb ck = true ->
  zlen (nview (counted_node N)) < zlen (nd_base N).
Proof.
  intros Hpl Hs EN En [D1 D2 D3] Hin. assert (Ev : nview (t_node t) = vw t) by (unfold vw; by rewrite Hc). rewrite Ev in *.
  destruct Hpl as [P1 P2 P3 P4]. rewrite Ev in *. assert (Hv := vw_ok t dir_top).
  assert (Eg := sp_goes _ _ _ _ _ _ Hs). assert (Hw := sp_within _ _ _ _ _ _ Hs). rewrite Ev in Eg.
  assert (Hlen := List.filter_length_le (goes key kb) (vw t)). assert (Hr := sp_room _ _ _ _ _ _ Hs).
  destruct (Z.lt_ge_cases (zlen (nview (counted_node N))) (zlen (vw t))) as [|Hge]; [lia|].
  rewrite Eg in Hge. assert (Hall := List.filter_length_forallb (goes key kb) (vw t) ltac:(lia)).
  rewrite (List.forallb_filter_id _ _ Hall) in Eg. rewrite Eg in *. rewrite List.forallb_forall in Hall.
  apply in_block_bits in Hin as Hsame; [|done].
  destruct (dir_slots nb En) as (j & Ej & Hj). destruct (ncount_spec (br_keybits (t_bref t)) nb j Ej ltac:(lia)) as (N1 & _ & N3).
  destruct (D3 kb) as [|[L1 L2]]; [lia| |lia|].
  { intros b Hb. assert (Hg := Hall b ltac:(by apply list_elem_of_In)). apply in_block_bits in Hg; [|done]. split.
    - intros n Hn. rewrite <- (Hsame n Hn), (Hg n Hn). done.
    - destruct (Hw b Hb) as [W1 W2]. destruct (dir_off b Hb) as [(b1 & b2 & b3) _]. unfold range_end in W2.
      apply (Z.pow_le_mono_r_iff 2); lia. }
  apply (pow_half kb _ L1 N3) in L2. set (e := mkBref 0 0 0 0 0 0 0 ck 0 0 0 0 0 0 0).
  assert (bref_ok e) as He by (unfold bref_ok, is_u64 in *; cbn; lia).
  assert (X := block_apart key kb e P1 P2 He (Z.mod_1_r ck) ltac:(left; cbn; lia)). change (br_key e) with ck in X. rewrite Hin in X.
  assert (Hap : apart (vw t) e).
  { intros b Hb. destruct (dir_off b Hb) as [Hbok Hoff]. unfold before, range_end in *. cbn. lia. }
  assert (Y := brefs_room (list_ins e (vw t)) (first_key key kb) (first_key key kb + 2 ^ kb) (list_ins_ok _ _ Hv He Hap)).
  rewrite list_ins_length in Y. enough (Z.of_nat (S (length (vw t))) <= 2 ^ kb) by lia.
  assert (0 < 2 ^ kb) by (apply Z.pow_pos_nonneg; lia). etransitivity; [apply Y; [lia|]|lia].
  intros b Hb. apply list_ins_elem in Hb as [->|Hb]; [exact X|by apply Hw].
Qed.

Lemma dir_split : exists key kb r N,
  hammer2_chain_create_indirect 0 0 (fun _ => 0) dir (t_node t) ck 0 ft = Some r /\ planned (t_node t) key kb /\
  split (t_node t) ck key kb r N /\ (up <> [] -> inside (t_bref t) (pa_bref (nd_parent N))) /\
  (if in_block key kb ck then zlen (nview (counted_node N)) < zlen (nd_base N)
   else zlen (nview (ir_parent r)) < zlen (nd_base (ir_parent r))).
Proof.
  destruct (create_indirect_ok (t_node t) dir ck 0 ft dir_splittable) as (key & kb & r & nb & E & En & Hpl & Hr & Hd).
  specialize (Hd Hft). assert (Ev : nview (t_node t) = vw t) by (unfold vw; by rewrite Hc).
  assert (Hin := dir_inside key kb nb Hpl En Hd).
  destruct Hr as [Hr|(N & Hs & EN)].
  - exfalso. assert (up <> []) as Hne.
    { intros E0. rewrite E0 in Hp. cbn in Hp. unfold is_indirect in Hp. unfold t_bref, t_parent in Hp.
      by destruct (rf_type _ _ _ _ Hr) as [X|X]; rewrite X in Hp. }
    destruct (Hin Hne) as (I1 & I2 & I3). destruct (cursor_range up d t Hp Hz Hne) as (Bok & _).
    assert (X := rf_why _ _ _ _ Hr). change (pa_bref (nd_parent (t_node t))) with (t_bref t) in X.
    rewrite key_last_eq in X by done. unfold range_end in I3. lia.
  - exists key, kb, r, N. split; [done|]. split; [done|]. split; [done|]. split.
    + intros Hne. destruct (Hin Hne) as (I1 & I2 & I3). unfold inside, range_end in *.
      by rewrite (sp_key _ _ _ _ _ _ Hs), (sp_bits _ _ _ _ _ _ Hs).
    + destruct (in_block key kb ck) eqn:Eb; [by apply (dir_block_room key kb nb r N)|].
      destruct (split_sizes _ _ _ _ _ _ Hs) as [_ ->]. rewrite (sp_size _ _ _ _ _ _ Hs), Ev.
      assert (H2 := dp_half _ _ _ _ _ _ Hd). rewrite Ev in H2.
      destruct (tt_size _ dir_top) as (k & E8 & Hk8). assert (2 ^ 2 <= 2 ^ k) by (apply Z.pow_le_mono_r; lia). lia.
Qed.
End Dir.

(** ** The loop *)

(** The chain with its blockrefs counted. *)
Definition counted_top (t : tree) : tree := set_parent t (nd_parent (counted_node (t_node t))).

Lemma counted_top_node t : tree_top t -> t_node (counted_top t) = counted_node (t_node t) /\
  counted_node (t_node (counted_top t)) = t_node (counted_top t).
Proof. intros Ht. split; [done|]. apply (counted_id (counted_node (t_node t))), Ht. Qed.

Lemma counted_top_same d t : tree_ok (S d) t -> same_tree media d t (counted_top t).
Proof.
  intros Hok. assert (Ht := proj1 Hok). assert (Hn := tt_node _ Ht).
  destruct (same_kind_count (t_parent t) (Some (nd_base (t_node t))) (zlen (nd_base (t_node t)))) as (_ & _ & Hf).
  destruct (countbrefs_fields (t_parent t) (nd_base (t_node t)) (zlen (nd_base (t_node t)))) as (E1 & _ & _).
  apply same_node; try done.
  - unfold counted_node. cbn [nd_parent]. fold (t_parent t). rewrite Hf by done. apply Ht.
  - unfold counted_node. cbn [nd_parent]. fold (t_parent t). rewrite Hf by done. apply Ht.
Qed.

Lemma ldiff_none x m : has x m = false -> x &~ m = x.
Proof.
  unfold has, nz. intros H. apply negb_false_iff, Z.eqb_eq in H. apply Z.bits_inj'. intros i Hi. rewrite Z.ldiff_spec.
  assert (X := f_equal (fun z => Z.testbit z i) H). cbv beta in X. rewrite Z.land_spec, Z.bits_0 in X.
  destruct (Z.testbit x i), (Z.testbit m i); done.
Qed.

Lemma modified_id n : has (pa_flags (nd_parent n)) HAMMER2_CHAIN_INITIAL = false -> modified_top 0 n = n.
Proof. intros H. unfold modified_top. cbn [nz negb Z.eqb]. rewrite ldiff_none by done. by destruct n as [[] ?]. Qed.

Section Loop.
Context (modify_c : child -> child * Z) (dir : bool) (ck ft : Z) (c c' : child).
Hypothesis Hk : is_u64 ck.
Hypothesis Hft : ft = HAMMER2_BREF_TYPE_DIRENT \/ ft = HAMMER2_BREF_TYPE_INODE.
Hypothesis Hc : br_key (cd_bref c) = ck /\ br_keybits (cd_bref c) = 0 /\ br_type (cd_bref c) = ft.
Hypothesis Hflags : has (cd_flags c) HAMMER2_CHAIN_DELETED = false /\ has (cd_flags c) HAMMER2_CHAIN_BLKMAPPED = false.
Hypothesis Hmod : modify_c (cd_set c HAMMER2_CHAIN_ONRBTREE) = (c', 0).
Hypothesis Hkeep : keeps_place (cd_set c HAMMER2_CHAIN_ONRBTREE) c'.

Abbreviation again := (create_again 0 0 (fun _ => 0) modify_c dir false true false).

Lemma new_bref : bref_ok (cd_bref c) /\ range_end (cd_bref c) = ck + 1 /\ leaf (cd_bref c') = true.
Proof.
  destruct Hc as (E1 & E2 & E3). unfold bref_ok, range_end. rewrite E1, E2. unfold is_u64 in Hk. split; [lia|]. split; [done|].
  unfold leaf, is_indirect. destruct Hkeep as [(_ & _ & E) _]. rewrite E. cbn [cd_set cd_bref]. rewrite E3. by destruct Hft as [-> | ->].
Qed.

Lemma free_apart l : brefs_ok l -> (forall x, x ∈ l -> hits ck ck x = false) -> apart l (cd_bref c) /\ apart l (cd_bref c').
Proof.
  intros Hl Hno. assert (apart l (cd_bref c)) as Ha.
  { destruct new_bref as (_ & E & _). intros x Hx. assert (Hxok := brefs_ok_elem _ _ Hl Hx). destruct (hits_off ck x Hxok (Hno x Hx)) as [X|X].
    - right. unfold before. unfold range_end in E. lia.
    - left. unfold before. destruct Hc as [-> _]. exact X. }
  split; [done|]. destruct Hkeep as [(E1 & E2 & _) _]. intros x Hx. unfold before. rewrite E1, E2. by apply Ha.
Qed.

(** The round that finds the table full splits it, the other one inserts. *)
Lemma again_eq loops t up : tree_top t ->
  again (S loops) t up c ck 0 ft false =
  if zlen (vw t) =? zlen (nd_base (t_node t)) then
    match hammer2_chain_create_indirect 0 0 (fun _ => 0) dir (t_node (counted_top t)) ck 0 ft with
    | None => None
    | Some r =>
        match split_tree (counted_top t) r with
        | (t, None) => Some (mkCreate (Some (t, up)) None (ir_error r) (ir_hpanic r))
        | (t, Some s) =>
            if nz (ir_error r) then Some (mkCreate (Some (put t s, up)) None (ir_error r) (ir_hpanic r))
            else
              match ir_ret r with
              | RetNull => Some (mkCreate (Some (put t s, up)) None (ir_error r) (ir_hpanic r))
              | RetParent => again loops (put t s) up c ck 0 ft (ir_hpanic r)
              | RetIchain => again loops s (t :: up) c ck 0 ft (ir_hpanic r)
              end
        end
    end
  else create_link modify_c true (Some (counted_top t, up)) (zlen (nd_base (t_node t))) c false.
Proof.
  intros Ht. cbn [create_again]. rewrite andb_false_r, (tt_table _ Ht). cbn [negb orb].
  rewrite (t_base_some t Ht). change (hammer2_chain_countbrefs (t_parent t) (Some (nd_base (t_node t))) (zlen (nd_base (t_node t))))
    with (nd_parent (counted_node (t_node t))). fold (counted_top t).
  assert (pa_live_count (nd_parent (counted_node (t_node t))) = zlen (vw t)) as ->.
  { rewrite (no_count _ (tt_node _ Ht)). apply nview_length. }
  assert (X := tt_room _ Ht). destruct (Z.leb_spec 0 (zlen (vw t))); [|lia].
  destruct (Z.leb_spec (zlen (vw t)) (zlen (nd_base (t_node t)))); [|lia]. cbn [andb negb].
  rewrite modified_id; [done|]. destruct (counted_top_node t Ht) as [E _]. rewrite E.
  destruct (same_kind_count (t_parent t) (Some (nd_base (t_node t))) (zlen (nd_base (t_node t)))) as (_ & _ & Hf).
  unfold counted_node. cbn [nd_parent]. fold (t_parent t). rewrite Hf by done. apply Ht.
Qed.

(** The new chain is a leaf of the tree, which is in order. *)
Record created (D : nat) (L : list hammer2_blockref) (n : Z) (r : create_result) (t : tree) (up : list tree) : Prop := {
  cd_cursor : cr_cursor r = Some (t, up);
  cd_chain : cr_chain r = Some c' /\ cr_error r = 0 /\ cr_hpanic r = false;
  cd_path : path t up;
  cd_depth : (length up < D)%nat;
  cd_tree : tree_ok D (zip t up);
  cd_leaves : leaves D (zip t up) = list_ins (cd_bref c') L;
  cd_blocks : blocks D (zip t up) = n
}.

(** The chain with the element. *)
Lemma insert_tree d t p : tree_ok (S d) t -> node_ok (mkNode p (nd_base (t_node t))) ->
  nview (mkNode p (nd_base (t_node t))) = list_ins (cd_bref c') (vw t) -> same_kind (t_parent t) p ->
  zlen (vw t) < zlen (nd_base (t_node t)) ->
  let t2 := set_parent t p in
  tree_ok (S d) t2 /\ same_head (t_bref t) (t_bref t2) /\ vw t2 = list_ins (cd_bref c') (vw t) /\
  (forall x, x ∈ leaves (S d) t2 <-> x = cd_bref c' \/ x ∈ leaves (S d) t) /\ blocks (S d) t2 = blocks (S d) t.
Proof.
  intros [Ht Hs] Hn Ev (K1 & [K2 K3] & K4) Hroom t2. destruct new_bref as (_ & _ & Hleaf). apply negb_true_iff in Hleaf.
  assert (vw t2 = list_ins (cd_bref c') (vw t)) as Evw by (unfold vw; cbn [t_node t2 set_parent]; rewrite counted_id; done).
  assert (Hsub : forall b, sub t2 b = sub t b) by done.
  split; [split|split; [by split_and!|split; [done|split]]].
  - destruct Ht as [T1 T2 T3 T4 T5 T6 T7 T8 T9]. split; try done.
    + cbn [t_node t2 set_parent]. by rewrite counted_id.
    + unfold has_table, is_indirect in *. unfold t_bref, t_parent. cbn. rewrite K1. exact T3.
    + cbn. rewrite K4 by done. exact T4.
    + cbn. rewrite K4 by done. exact T5.
    + intros x Hx. destruct (T6 x Hx) as (b & Hb & Hi). exists b. rewrite Evw. split; [apply list_ins_elem; by right|done].
    + rewrite Evw. rewrite Forall_forall in T7 |- *. intros b Hb. apply list_ins_elem in Hb as [->|Hb]; [|auto].
      unfold aligned. destruct Hkeep as [(_ & -> & _) _]. cbn [cd_set cd_bref]. destruct Hc as (_ & -> & _). apply Z.mod_1_r.
    + rewrite Evw, list_ins_length. cbn [t_node t2 set_parent nd_base]. lia.
  - intros b Hb Hi. rewrite Evw in Hb. apply list_ins_elem in Hb as [->|Hb]; [congruence|]. by apply Hs.
  - intros x. rewrite !leaves_eq, !elem_concat, Evw. split.
    + intros (b & Hb & Hx). apply list_ins_elem in Hb as [->|Hb]; [|right; by exists b].
      unfold leaves_of in Hx. rewrite Hleaf in Hx. apply list_elem_of_singleton in Hx. by left.
    + intros [->|(b & Hb & Hx)]; [exists (cd_bref c')|exists b]; (split; [apply list_ins_elem; tauto|]); [|done].
      unfold leaves_of. rewrite Hleaf. by apply list_elem_of_singleton.
  - rewrite !blocks_eq, Evw, sum_of_ins. unfold blocks_of at 1. rewrite Hleaf. done.
Qed.

(** Two trees that differ at the cursor. *)
Lemma zip_insert up d t t2 : path t up -> tree_ok (S d + length up) (zip t up) -> tree_ok (S d) t2 ->
  same_head (t_bref t) (t_bref t2) -> (up <> [] -> forall x, x ∈ vw t2 -> inside (t_bref t) x) ->
  (forall x, x ∈ leaves (S d) t2 <-> x = cd_bref c' \/ x ∈ leaves (S d) t) -> blocks (S d) t2 = blocks (S d) t ->
  (forall x, x ∈ leaves (S d + length up) (zip t up) -> hits ck ck x = false) ->
  path t2 up /\ tree_ok (S d + length up) (zip t2 up) /\
  leaves (S d + length up) (zip t2 up) = list_ins (cd_bref c') (leaves (S d + length up) (zip t up)) /\
  blocks (S d + length up) (zip t2 up) = blocks (S d + length up) (zip t up).
Proof.
  intros Hp Hz H2 Hh Hin Hl Hb Hfree. destruct (zip_replace up d t t2 Hp Hz H2 Hh Hin) as (Z1 & Z2 & A & B & E1 & E2).
  split; [done|]. split; [done|]. assert (HL := leaves_ok media _ _ Hz). destruct (free_apart _ HL Hfree) as [_ Ha].
  destruct new_bref as (Hbok & _ & _). destruct Hkeep as [(F1 & F2 & _) _]. split.
  - apply brefs_ok_ext; [by apply leaves_ok|apply list_ins_ok; [done| |done]|].
    + unfold bref_ok. rewrite F1, F2. exact Hbok.
    + intros x. rewrite list_ins_elem. unfold ChainTreeProof.leaves. rewrite E1, E2, !List.filter_app, !elem_of_app. specialize (Hl x).
      unfold ChainTreeProof.leaves in Hl. rewrite Hl. tauto.
  - unfold ChainTreeProof.blocks in *. rewrite E1, E2, !countb_app. lia.
Qed.

Lemma link_ok loops d t up : path t up -> tree_ok (S d + length up) (zip t up) -> stops t up ck ->
  (forall x, x ∈ leaves (S d + length up) (zip t up) -> hits ck ck x = false) -> zlen (vw t) < zlen (nd_base (t_node t)) ->
  exists r t', again (S loops) t up c ck 0 ft false = Some r /\
    created (S d + length up) (leaves (S d + length up) (zip t up)) (blocks (S d + length up) (zip t up)) r t' up.
Proof.
  intros Hp Hz [Hno Hrange] Hfree Hroom. assert (Hok := zip_ok media up (S d) t Hp Hz). assert (Ht := proj1 Hok).
  assert (Hs := counted_top_same d t Hok). assert (Hok1 := sm_ok _ _ _ _ Hs). assert (Ev := sm_vw _ _ _ _ Hs).
  assert (Hn := tt_node _ (proj1 Hok1)). destruct (counted_top_node t Ht) as [En Ec]. rewrite Ec in Hn.
  set (t1 := counted_top t) in *. assert (nview (t_node t1) = vw t) as Env by (rewrite <- Ev; unfold vw; by rewrite Ec).
  destruct new_bref as (Hbok & _ & Hleaf). destruct (free_apart (vw t) (vw_ok t Ht) Hno) as [Ha Ha'].
  rewrite <- Env in Ha. destruct (insert_ok (t_node t1) c c' Hn Hbok Ha (proj1 Hflags) (proj2 Hflags) Hkeep) as (p & Ei & Hn2 & Ev2 & Hk2).
  rewrite again_eq by done. destruct (Z.eqb_spec (zlen (vw t)) (zlen (nd_base (t_node t)))); [lia|].
  unfold create_link. fold t1. change (nd_parent (t_node t1)) with (t_parent t1) in Ei. rewrite Ei.
  assert (pa_live_count (t_parent t1) = zlen (vw t)) as -> by (unfold t_parent; rewrite (no_count _ Hn), nview_length, Env; done).
  destruct (Z.ltb_spec (zlen (vw t)) (zlen (nd_base (t_node t)))); [|lia]. cbn [negb].
  destruct Hc as (_ & _ & Ety). cbn [cd_set cd_bref]. rewrite Ety.
  replace (_ || _ || _ || _) with true by (by destruct Hft as [-> | ->]). rewrite Hmod.
  set (t2 := set_parent t1 (set_child p c')). eexists _, t2. split; [done|].
  destruct (insert_tree d t1 (set_child p c') Hok1) as (T1 & T2 & T3 & T4 & T5); [done|by rewrite Ev2, Env, Ev|done|by rewrite Ev|].
  fold t2 in T1, T2, T3, T4, T5. destruct (same_zip media up d t t1 Hp Hz Hs) as [Sz Hp1]. assert (Ee := same_elems _ _ _ _ Sz).
  change (S (d + length up)) with (S d + length up)%nat in Ee. assert (Hz1 := sm_ok _ _ _ _ Sz). change (S (d + length up)) with (S d + length up)%nat in Hz1.
  assert (Eh := sm_head _ _ _ _ Hs).
  destruct (zip_insert up d t1 t2 Hp1 Hz1 T1 T2) as (R1 & R2 & R3 & R4); try done.
  { intros Hne x Hx. destruct (cursor_range up d t Hp Hz Hne) as (Bok & _ & Bin). specialize (Hrange Hne).
    destruct Eh as (G1 & G2 & _). unfold inside, range_end. rewrite G1, G2. rewrite T3, Ev in Hx.
    apply list_ins_elem in Hx as [->|Hx]; [|by apply Bin]. destruct Hkeep as [(F1 & F2 & _) _]. rewrite F1, F2. cbn [cd_set cd_bref].
    destruct Hc as (-> & -> & _). unfold range_end in Hrange. lia. }
  { unfold ChainTreeProof.leaves. rewrite Ee. exact Hfree. }
  unfold ChainTreeProof.leaves in R3 |- *. unfold ChainTreeProof.blocks in R4 |- *. rewrite Ee in R3, R4.
  split; try done; [cbn; lia].
Qed.

(** The key is in the range of a block or its chain does not have it. *)
Lemma block_key key kb : is_u64 key -> 0 <= kb < 64 ->
  if in_block key kb ck then first_key key kb <= ck < first_key key kb + 2 ^ kb
  else ck < first_key key kb \/ first_key key kb + 2 ^ kb <= ck.
Proof.
  intros H1 H2. set (e := mkBref 0 0 0 0 0 0 0 ck 0 0 0 0 0 0 0).
  assert (bref_ok e) as He by (unfold bref_ok, is_u64 in *; cbn; lia).
  assert (X := block_apart key kb e H1 H2 He (Z.mod_1_r ck) ltac:(left; cbn; lia)). unfold range_end in X. cbn in X.
  destruct (in_block key kb ck); lia.
Qed.

Lemma split_stops t up key kb r N : tree_top t -> counted_node (t_node t) = t_node t -> planned (t_node t) key kb ->
  split (t_node t) ck key kb r N -> stops t up ck ->
  let t' := Tree (ir_parent r) (t_error t) (List.filter (fun s => negb (moved_to N s)) (t_subs t)) in
  let s := Tree N 0 (List.filter (moved_to N) (t_subs t)) in
  if in_block key kb ck then stops s (t' :: up) ck else stops (put t' s) up ck.
Proof.
  intros Ht Ec Hpl Hs [Hno Hrange] t' s. destruct Hpl as [P1 P2 _ _]. assert (X := block_key key kb P1 P2).
  assert (Ek := sp_key _ _ _ _ _ _ Hs). assert (Eb := sp_bits _ _ _ _ _ _ Hs).
  assert (forall f x, x ∈ List.filter f (vw t) -> hits ck ck x = false) as Hsub.
  { intros f x Hx. apply list_elem_of_In, List.filter_In in Hx as [Hx _]. by apply Hno, list_elem_of_In. }
  destruct (in_block key kb ck); split.
  - intros y Hy. unfold s in Hy. rewrite (split_goes t ck key kb r N Ec Hs) in Hy. by apply Hsub in Hy.
  - intros _. change (t_bref s) with (pa_bref (nd_parent N)). unfold range_end. by rewrite Ek, Eb.
  - intros y Hy. change (vw (put t' s)) with (vw t') in Hy. unfold t' in Hy. rewrite (split_stays t ck key kb r N Ec Hs) in Hy.
    apply list_ins_elem in Hy as [->|Hy]; [|by apply Hsub in Hy]. apply Bool.not_true_iff_false. intros Hh.
    destruct (first_key_spec key kb P1 P2) as (F1 & F2 & _).
    apply hits_spec in Hh; [|unfold bref_ok; rewrite Ek, Eb; lia]. rewrite Ek, Eb in Hh. lia.
  - intros Hne. specialize (Hrange Hne). change (t_bref (put t' s)) with (t_bref t'). destruct (split_head t ck key kb r N Hs) as (E1 & E2 & _).
    fold t' in E1, E2. unfold range_end in *. by rewrite E1, E2.
Qed.

(** The split leaves the tree as it was, but for the block. *)
Lemma zip_split up d t key kb r N : path t up -> tree_ok (S d + length up) (zip t up) -> counted_node (t_node t) = t_node t ->
  planned (t_node t) key kb -> split (t_node t) ck key kb r N -> (up <> [] -> inside (t_bref t) (pa_bref (nd_parent N))) ->
  let t' := Tree (ir_parent r) (t_error t) (List.filter (fun s => negb (moved_to N s)) (t_subs t)) in
  let s := Tree N 0 (List.filter (moved_to N) (t_subs t)) in
  path (put t' s) up /\ tree_ok (S (S d) + length up) (zip (put t' s) up) /\
  leaves (S (S d) + length up) (zip (put t' s) up) = leaves (S d + length up) (zip t up) /\
  blocks (S (S d) + length up) (zip (put t' s) up) = blocks (S d + length up) (zip t up) + 1.
Proof.
  intros Hp Hz Ec Hpl Hs Hin t' s. assert (Hok := zip_ok media up (S d) t Hp Hz).
  destruct (deeper _ _ Hz) as [Hz' Ez]. change (S (S d + length up)) with (S (S d) + length up)%nat in Hz', Ez.
  assert (Hok' := split_tree_ok d t ck key kb r N Hok Ec Hpl Hs).
  destruct (zip_replace up (S d) t (put t' s) Hp Hz' Hok' (split_head t ck key kb r N Hs)) as (Z1 & Z2 & A & B & E1 & E2).
  { intros Hne x Hx. change (vw (put t' s)) with (vw t') in Hx. unfold t' in Hx. rewrite (split_stays t ck key kb r N Ec Hs) in Hx.
    apply list_ins_elem in Hx as [->|Hx]; [by apply Hin|]. apply list_elem_of_In, List.filter_In in Hx as [Hx _].
    apply list_elem_of_In in Hx. by apply (cursor_range up d t Hp Hz Hne). }
  split; [done|]. split; [done|]. rewrite Ez in E1. assert (HL := split_leaves d t ck key kb r N Hok Ec Hpl Hs).
  assert (HB := split_blocks d t ck key kb r N Hok Ec Hpl Hs). destruct (deeper _ _ Hok) as [_ Ed].
  unfold ChainTreeProof.leaves, ChainTreeProof.blocks in *. rewrite E1, E2, !List.filter_app, !countb_app, Ed. fold t' s in HL, HB. rewrite HL. split; [done|lia].
Qed.

Lemma full_ok loops d t up : path t up -> tree_ok (S d + length up) (zip t up) -> stops t up ck ->
  (forall x, x ∈ leaves (S d + length up) (zip t up) -> hits ck ck x = false) -> zlen (vw t) = zlen (nd_base (t_node t)) ->
  exists r t' up', again (S (S loops)) t up c ck 0 ft false = Some r /\
    created (S (S d) + length up) (leaves (S d + length up) (zip t up)) (blocks (S d + length up) (zip t up) + 1) r t' up'.
Proof.
  intros Hp Hz Hstop Hfree Hfull. assert (Hok := zip_ok media up (S d) t Hp Hz). assert (Ht := proj1 Hok).
  assert (Hs1 := counted_top_same d t Hok). destruct (counted_top_node t Ht) as [_ Ec].
  destruct (same_zip media up d t _ Hp Hz Hs1) as [Sz Hp1]. assert (Ee := same_elems _ _ _ _ Sz). assert (Hz1 := sm_ok _ _ _ _ Sz).
  change (S (d + length up)) with (S d + length up)%nat in Ee, Hz1. rewrite again_eq by done. rewrite Hfull, Z.eqb_refl.
  assert (stops (counted_top t) up ck) as Hstop1.
  { destruct Hstop as [Q1 Q2]. destruct (sm_head _ _ _ _ Hs1) as (E1 & E2 & _). split; [by rewrite (sm_vw _ _ _ _ Hs1)|].
    unfold range_end in *. by rewrite E1, E2. }
  assert (zlen (vw (counted_top t)) = zlen (nd_base (t_node (counted_top t)))) as Hfull1 by (rewrite (sm_vw _ _ _ _ Hs1); exact Hfull).
  unfold ChainTreeProof.leaves, ChainTreeProof.blocks in *. rewrite <- Ee in *. clear Ee. set (t1 := counted_top t) in *.
  destruct (dir_split up d t1 ck ft dir Hp1 Hz1 Ec Hk Hstop1 Hft Hfull1) as (key & kb & r0 & N & E0 & Hpl & Hs & Hin & Hroom). rewrite E0.
  destruct (zip_split up d t1 key kb r0 N Hp1 Hz1 Ec Hpl Hs Hin) as (W1 & W2 & W3 & W4).
  assert (Hst := split_stops t1 up key kb r0 N (proj1 (sm_ok _ _ _ _ Hs1)) Ec Hpl Hs Hstop1). cbv zeta in *.
  unfold split_tree. rewrite (sp_ichain _ _ _ _ _ _ Hs), (sp_ret _ _ _ _ _ _ Hs). destruct (sp_error _ _ _ _ _ _ Hs) as [-> ->]. cbn [nz negb Z.eqb].
  set (t' := Tree (ir_parent r0) _ _) in *. set (s := Tree N 0 _) in *.
  assert (exists b, b ∈ vw t' /\ is_indirect b = true /\ br_key b = br_key (t_bref s)) as Hb.
  { exists (pa_bref (nd_parent N)). unfold t' at 1. rewrite (split_stays t1 ck key kb r0 N Ec Hs). split; [apply list_ins_elem; by left|].
    split; [by apply (is_indirect_new t1 ck key kb r0 N)|done]. }
  assert (vw t' = nview (ir_parent r0)) as Ev' by (unfold vw, t'; cbn [t_node]; by rewrite counted_id by apply Hs).
  unfold ChainTreeProof.leaves, ChainTreeProof.blocks in W3, W4. rewrite <- W3 in Hfree |- *. rewrite <- W4. destruct (in_block key kb ck).
  - destruct (link_ok loops d s (t' :: up)) as (r & t2 & E & Hcr); try done; try (cbn [length]; rewrite Nat.add_succ_r; done).
    exists r, t2, (t' :: up). split; [done|]. cbn [length] in Hcr. rewrite Nat.add_succ_r in Hcr. exact Hcr.
  - destruct (link_ok loops (S d) (put t' s) up) as (r & t2 & E & Hcr); try done; [by change (vw (put t' s)) with (vw t'); rewrite Ev'|].
    by exists r, t2, up.
Qed.
End Loop.

Lemma created_deeper c' D L n r t up : created c' D L n r t up -> created c' (S D) L n r t up.
Proof.
  intros [H1 H2 H3 H4 H5 H6 H7]. destruct (deeper D _ H5) as [K1 K2]. split; try done; [lia| |].
  - unfold ChainTreeProof.leaves in *. by rewrite K2.
  - unfold ChainTreeProof.blocks in *. by rewrite K2.
Qed.

(** What hammer2_chain_modify() does where it succeeds. *)
Definition modifies (modify_c : child -> child * Z) : Prop :=
  forall c, exists c', modify_c c = (c', 0) /\ keeps_place c c'.

Lemma create_ok modify_c dir D t up methods key type bytes flags radix : modifies modify_c -> is_u64 key ->
  type = HAMMER2_BREF_TYPE_DIRENT \/ type = HAMMER2_BREF_TYPE_INODE ->
  Sizes.hammer2_getradix bytes = Some radix -> flags & HAMMER2_INSERT_SAMEPARENT = 0 ->
  path t up -> (length up < D)%nat -> tree_ok D (zip t up) -> stops t up key ->
  (forall x, x ∈ leaves D (zip t up) -> hits key key x = false) ->
  exists r t' up' c' n, hammer2_chain_create 0 0 (fun _ => 0) modify_c dir false (Some (t, up)) None methods key 0 type bytes flags = Some r /\
    created c' (S D) (leaves D (zip t up)) n r t' up' /\ blocks D (zip t up) <= n <= blocks D (zip t up) + 1 /\
    br_key (cd_bref c') = key /\ br_keybits (cd_bref c') = 0 /\ br_type (cd_bref c') = type.
Proof.
  intros Hmod Hk Hty Erad Hflags Hp Hd Hz Hstop Hfree.
  assert (exists d, D = S d + length up)%nat as [d ->] by (exists (D - S (length up))%nat; lia).
  assert (exists l, maxloops = S (S l)) as [l El] by (exists (pred (pred maxloops)); assert (M := maxloops_eq); lia).
  assert (Ht := proj1 (zip_ok media up (S d) t Hp Hz)).
  unfold hammer2_chain_create. rewrite (tt_error _ Ht). cbn [nz negb Z.eqb]. rewrite Erad, Hflags. cbn [nz negb Z.eqb].
  assert (no_create type = false /\ alloc_type type = true /\ type <> HAMMER2_BREF_TYPE_FREEMAP_LEAF) as (N1 & N2 & N3)
    by (by destruct Hty as [-> | ->]).
  set (pm := if methods =? HAMMER2_METH_DEFAULT then br_methods (t_bref t) else 0).
  replace (if methods =? HAMMER2_METH_DEFAULT then Some (br_methods (t_bref t)) else Some 0) with (Some pm)
    by (unfold pm; by destruct (_ =? _)).
  rewrite N1, N2. destruct (Z.eqb_spec type HAMMER2_BREF_TYPE_FREEMAP_LEAF); [done|]. cbn [negb andb]. rewrite El.
  set (c0 := mkChild (dummy_bref type (new_methods pm methods type) key 0 radix) HAMMER2_CHAIN_INITIAL).
  set (c := if nz (flags & HAMMER2_INSERT_PFSROOT) then as_pfsroot c0 else c0).
  assert (br_key (cd_bref c) = key /\ br_keybits (cd_bref c) = 0 /\ br_type (cd_bref c) = type) as Hc
    by (unfold c; by destruct (nz _)).
  assert (has (cd_flags c) HAMMER2_CHAIN_DELETED = false /\ has (cd_flags c) HAMMER2_CHAIN_BLKMAPPED = false) as Hcf
    by (unfold c; by destruct (nz _)).
  destruct (Hmod (cd_set c HAMMER2_CHAIN_ONRBTREE)) as (c' & Em & Hkeep).
  assert (br_key (cd_bref c') = key /\ br_keybits (cd_bref c') = 0 /\ br_type (cd_bref c') = type) as Hc'.
  { destruct Hkeep as [(-> & -> & ->) _]. exact Hc. }
  assert (X := tt_room _ Ht). destruct (Z.eq_dec (zlen (vw t)) (zlen (nd_base (t_node t)))) as [Hfull|Hnot].
  - destruct (full_ok modify_c dir key type c c' Hk Hty Hc Hcf Em Hkeep l d t up Hp Hz Hstop Hfree Hfull) as (r & t' & up' & E & Hcr).
    eexists r, t', up', c', _. split; [exact E|]. split; [exact Hcr|]. split; [lia|exact Hc'].
  - destruct (link_ok modify_c dir key type c c' Hk Hty Hc Hcf Em Hkeep (S l) d t up Hp Hz Hstop Hfree ltac:(lia)) as (r & t' & E & Hcr).
    eexists r, t', up, c', _. split; [exact E|]. split; [apply created_deeper, Hcr|]. split; [lia|exact Hc'].
Qed.

(** The leaf of a key that the others do not have. *)
Lemma find_new L b key : brefs_ok (list_ins b L) -> br_key b = key -> br_keybits b = 0 ->
  (forall x, x ∈ L -> hits key key x = false) -> List.find (hits key key) (list_ins b L) = Some b.
Proof.
  intros Hok Ek Eb Hno. assert (b ∈ list_ins b L) as Hin by (apply list_ins_elem; by left).
  apply (find_first_eq (fun x => x)); [by rewrite list_fmap_id|done| |].
  - apply hits_spec; [by eapply brefs_ok_elem|]. rewrite Ek, Eb. lia.
  - intros y Hy Hh. apply list_ins_elem in Hy as [->|Hy]; [lia|]. by rewrite (Hno y Hy) in Hh.
Qed.

(** ** The deletion *)

Lemma delete_tree d t c : tree_ok (S d) t -> has_child t c -> is_indirect (cd_bref c) = false ->
  exists t' c', (forall flags, delete_at 0 t c flags = Some (t', if nz (flags & HAMMER2_DELETE_PERMANENT) then cd_set c' HAMMER2_CHAIN_DESTROY else c', 0, false)) /\
    tree_ok (S d) t' /\ same_head (t_bref t) (t_bref t') /\ vw t' = del_key (br_key (cd_bref c)) (vw t) /\
    (forall x, x ∈ leaves (S d) t' <-> x ∈ leaves (S d) t /\ br_key x <> br_key (cd_bref c)) /\ blocks (S d) t' = blocks (S d) t.
Proof.
  intros [Ht Hs] [Hc Ec] Hleaf. assert (Hn := tt_node _ Ht). rewrite Ec in Hn.
  assert (Ev : nview (t_node t) = vw t) by (unfold vw; by rewrite Ec). destruct (no_flags _ Hn c Hc) as (_ & Hd & _).
  destruct (delete_helper_ok (t_node t) c Hn Hc) as (n' & c' & o & E & Hn' & Ev' & Hlen & _ & _ & (K1 & [K2 K3] & K4) & _).
  set (k := br_key (cd_bref c)) in *. set (t' := Tree n' (t_error t) (sub_del k (t_subs t))). exists t', c'.
  assert (cd_bref c ∈ vw t) as Hcv.
  { rewrite <- Ev. apply (bview_elem _ _ _ (no_view _ Hn)). left. by exists c. }
  assert (Evw : vw t' = del_key k (vw t)) by (unfold vw at 1; cbn [t_node t']; by rewrite counted_id, Ev', Ev).
  assert (Hsub : forall b, b ∈ vw t' -> sub t' b = sub t b).
  { intros b Hb. rewrite Evw in Hb. apply del_key_elem in Hb as [_ Hne]. unfold block_chain. cbn [t_subs t']. by rewrite sub_at_del. }
  assert (Hk : forall b, b ∈ vw t -> is_indirect b = true -> br_key b <> k).
  { intros b Hb Hi Ek. assert (b = cd_bref c) as -> by (by apply (vw_key_inj t)). congruence. }
  split; [|split; [split|split; [by split_and!|split; [done|split]]]].
  - intros flags. unfold delete_at, hammer2_chain_delete. rewrite Hd, E. cbn [Z.eqb andb nz negb]. done.
  - destruct Ht as [T1 T2 T3 T4 T5 T6 T7 T8 T9]. split; try done.
    + cbn [t_node t']. by rewrite counted_id.
    + unfold has_table, is_indirect, t_bref, t_parent in *. cbn [t_node t']. rewrite K1. exact T3.
    + unfold t_parent in *. cbn [t_node t']. rewrite K4 by done. exact T4.
    + unfold t_parent in *. cbn [t_node t']. rewrite K4 by done. exact T5.
    + intros s Hin. cbn [t_subs t'] in Hin. apply list_elem_of_In, List.filter_In in Hin as [Hin _]. apply list_elem_of_In in Hin.
      destruct (T6 s Hin) as (b & Hb & Hi & Eb). exists b. split; [|done]. rewrite Evw. apply del_key_elem. split; [done|by apply Hk].
    + rewrite Evw. rewrite Forall_forall in T7 |- *. intros b Hb. apply del_key_elem in Hb as [Hb _]. auto.
    + cbn [t_node t']. by rewrite Hlen.
    + rewrite Evw. cbn [t_node t']. rewrite Hlen. assert (X := List.filter_length_le (fun b => negb (at_key k b)) (vw t)). unfold del_key. lia.
  - intros b Hb Hi. rewrite (Hsub b Hb). rewrite Evw in Hb. apply del_key_elem in Hb as [Hb _]. by apply Hs.
  - intros x. rewrite !leaves_eq, !elem_concat. split.
    + intros (b & Hb & Hx). assert (Hb' := Hb). rewrite Evw in Hb'. apply del_key_elem in Hb' as [Hb' Hne].
      assert (Hx' : x ∈ leaves_of media d t b) by (unfold leaves_of in *; rewrite (Hsub b Hb) in Hx; exact Hx).
      split; [by exists b|]. intros Ex.
      assert (Hin := leaves_of_inside media d t b x (conj Ht Hs) Hb' Hx').
      destruct (brefs_apart _ b (cd_bref c) (vw_ok t Ht) Hb' Hcv) as [->|[Hlt|Hlt]]; [done| |];
        assert (Y := span_pos b (brefs_ok_elem _ _ (vw_ok t Ht) Hb')); assert (Z := span_pos _ (brefs_ok_elem _ _ (vw_ok t Ht) Hcv));
        assert (W := span_pos x (brefs_ok_elem _ _ (leaves_ok media (S d) t (conj Ht Hs)) ltac:(rewrite leaves_eq, elem_concat; by exists b)));
        unfold before, inside, range_end in *; fold k in Hlt; lia.
    + intros [(b & Hb & Hx) Hne]. exists b. assert (b ∈ vw t') as Hb'.
      { rewrite Evw. apply del_key_elem. split; [done|]. intros Eb. assert (b = cd_bref c) as -> by (by apply (vw_key_inj t)).
        unfold leaves_of in Hx. rewrite Hleaf in Hx. by apply list_elem_of_singleton in Hx as ->. }
      split; [done|]. unfold leaves_of in *. by rewrite (Hsub b Hb').
  - rewrite !blocks_eq, Evw. assert (X := sum_of_del (blocks_of media d t) (cd_bref c) (vw t) (vw_ok t Ht) Hcv). fold k in X.
    unfold blocks_of at 3 in X. rewrite Hleaf in X.
    rewrite (sum_of_ext (blocks_of media d t') (blocks_of media d t)); [lia|]. intros b Hb. rewrite <- Evw in Hb. unfold blocks_of. by rewrite (Hsub b Hb).
Qed.

Lemma del_key_ok k l : brefs_ok l -> brefs_ok (del_key k l).
Proof.
  intros Hl. assert (X := brefs_ok_filter (fun b => b) (fun b => negb (at_key k b)) l). rewrite !list_fmap_id in X. by apply X.
Qed.

Lemma zip_delete up d t t' c : path t up -> tree_ok (S d + length up) (zip t up) -> tree_ok (S d) t' ->
  same_head (t_bref t) (t_bref t') -> (forall x, x ∈ vw t' -> x ∈ vw t) -> c ∈ leaves (S d) t ->
  (forall x, x ∈ leaves (S d) t' <-> x ∈ leaves (S d) t /\ br_key x <> br_key c) -> blocks (S d) t' = blocks (S d) t ->
  path t' up /\ tree_ok (S d + length up) (zip t' up) /\
  leaves (S d + length up) (zip t' up) = del_key (br_key c) (leaves (S d + length up) (zip t up)) /\
  blocks (S d + length up) (zip t' up) = blocks (S d + length up) (zip t up).
Proof.
  intros Hp Hz H2 Hh Hin Hc Hl Hb. destruct (zip_replace up d t t' Hp Hz H2 Hh) as (Z1 & Z2 & A & B & E1 & E2).
  { intros Hne x Hx. by apply (cursor_range up d t Hp Hz Hne), Hin. }
  split; [done|]. split; [done|]. assert (HL := leaves_ok media _ _ Hz). split.
  - apply brefs_ok_ext; [by apply leaves_ok|by apply del_key_ok|]. intros x. rewrite del_key_elem. unfold ChainTreeProof.leaves in *.
    rewrite E1 in HL. rewrite !List.filter_app in HL. rewrite E1, E2, !List.filter_app, !elem_of_app, (Hl x).
    apply brefs_ok_app in HL as (HA & HM & HAM). apply brefs_ok_app in HM as (HM & HB & HMB).
    assert (forall y, y ∈ List.filter leaf A -> br_key y <> br_key c) as KA.
    { intros y Hy E. specialize (HAM y c Hy ltac:(apply elem_of_app; by left)).
      assert (X := span_pos y (brefs_ok_elem _ _ HA Hy)). unfold before in HAM. lia. }
    assert (forall y, y ∈ List.filter leaf B -> br_key y <> br_key c) as KB.
    { intros y Hy E. specialize (HMB c y Hc Hy). assert (X := span_pos c (brefs_ok_elem _ _ HM Hc)). unfold before in HMB. lia. }
    specialize (KA x). specialize (KB x). tauto.
  - unfold ChainTreeProof.blocks in *. rewrite E1, E2, !countb_app. lia.
Qed.

Lemma child_elem t c : tree_top t -> has_child t c -> cd_bref c ∈ vw t.
Proof.
  intros Ht [Hc Ec]. assert (Hn := tt_node _ Ht). unfold vw. rewrite Ec in Hn |- *.
  apply (bview_elem _ _ _ (no_view _ Hn)). left. by exists c.
Qed.

(** The leaf that a lookup has found is one of its chain. *)
Lemma child_leaf d t c : tree_ok (S d) t -> has_child t c -> is_indirect (cd_bref c) = false -> cd_bref c ∈ leaves (S d) t.
Proof.
  intros [Ht _] Hc Hleaf. rewrite leaves_eq, elem_concat. exists (cd_bref c). split.
  - by apply child_elem.
  - unfold leaves_of. rewrite Hleaf. by apply list_elem_of_singleton.
Qed.
End Media.

Lemma answers_found L kb ke f b : List.find (hits kb ke) L = Some b -> answers L kb ke f <-> exists c, f = Found c /\ cd_bref c = b.
Proof.
  intros E. unfold answers. destruct f as [|c|]; rewrite ?E; split; try done; try by intros (? & ? & _).
  - intros X. injection X as ->. by exists c.
  - intros (c0 & X & <-). by injection X as ->.
Qed.

(** C10: A chain that hammer2_chain_create() makes for a directory entry or an inode
    is where a lookup finds it.  When a lookup of the key has found nothing, the
    creation at the chain the lookup stopped at succeeds, also when the table of
    that chain is full and has to be split, however deep below the inode it is;
    the leaves of the tree are those from before with the new one in the order
    of the keys, no leaf is lost or moved, and a lookup of the key from the
    chain the creation returned gives the new element. *)
Theorem chain_create_found media modify_c dir D fl t up kn r methods key type bytes flags radix :
  lf_matchind fl = false -> lf_directdata fl = false -> modifies modify_c -> is_u64 key ->
  type = HAMMER2_BREF_TYPE_DIRENT \/ type = HAMMER2_BREF_TYPE_INODE ->
  Sizes.hammer2_getradix bytes = Some radix -> flags & HAMMER2_INSERT_SAMEPARENT = 0 ->
  cursor_ok media D t up -> 2 * blocks media D (zip t up) + 2 < 299999 ->
  hammer2_chain_lookup media fl t up kn key key = Some r -> lk_found r = NotFound ->
  exists cr t' up' c' r' c'',
    hammer2_chain_create 0 0 (fun _ => 0) modify_c dir false (Some (lk_tree r, lk_up r)) None methods key 0 type bytes flags = Some cr /\
    cr_cursor cr = Some (t', up') /\ cr_chain cr = Some c' /\ cr_error cr = 0 /\ cr_hpanic cr = false /\
    br_key (cd_bref c') = key /\ br_type (cd_bref c') = type /\
    cursor_ok media (S D) t' up' /\ leaves media (S D) (zip t' up') = list_ins (cd_bref c') (leaves media D (zip t up)) /\
    hammer2_chain_lookup media fl t' up' kn key key = Some r' /\ lk_found r' = Found c'' /\ cd_bref c'' = cd_bref c'.
Proof.
  intros Hm Hdd Hmod Hk Hty Erad Hflags Hc Hb El Ef.
  assert (range_ok media D (zip t up) key key) as Hr by (split; [unfold is_u64 in Hk; lia|by left]).
  destruct (lookup_ok media D fl t up kn key key Hm Hdd Hc Hr) as (r0 & E0 & Hd). rewrite El in E0. injection E0 as <-.
  destruct (done_cursor _ _ _ _ _ _ _ _ Hc Hd) as [Hc1 He]. assert (Hans := ld_found _ _ _ _ _ _ _ _ Hd). rewrite Ef in Hans.
  assert (Hno : forall x, x ∈ leaves media D (zip t up) -> hits key key x = false).
  { intros x Hx. apply (List.find_none _ _ Hans). by apply list_elem_of_In. }
  assert (EL : leaves media D (zip (lk_tree r) (lk_up r)) = leaves media D (zip t up)) by (unfold leaves; by rewrite He).
  assert (EB : blocks media D (zip (lk_tree r) (lk_up r)) = blocks media D (zip t up)) by (unfold blocks; by rewrite He).
  destruct (create_ok media modify_c dir D (lk_tree r) (lk_up r) methods key type bytes flags radix Hmod Hk Hty Erad Hflags
    (co_path _ _ _ _ Hc1) (co_depth _ _ _ _ Hc1) (co_ok _ _ _ _ Hc1) (ld_stop _ _ _ _ _ _ _ _ Hd eq_refl Ef))
    as (cr & t' & up' & c' & n & Ec & Hcr & Hn & K1 & K2 & K3); [by rewrite EL|]. rewrite EL, EB in *.
  destruct Hcr as [R1 (R2 & R3 & R4) R5 R6 R7 R8 R9].
  assert (cursor_ok media (S D) t' up') as Hc' by (split; try done; lia).
  assert (range_ok media (S D) (zip t' up') key key) as Hr' by (split; [unfold is_u64 in Hk; lia|by left]).
  destruct (lookup_ok media (S D) fl t' up' kn key key Hm Hdd Hc' Hr') as (r' & E' & Hd').
  assert (Ha' := ld_found _ _ _ _ _ _ _ _ Hd'). assert (HL' := leaves_ok media _ _ R7). rewrite R8 in Ha', HL'.
  rewrite answers_found in Ha' by (by apply find_new). destruct Ha' as (c'' & F1 & F2).
  exists cr, t', up', c', r', c''. split_and!; done.
Qed.

(** C13: hammer2_chain_delete() of the chain that a lookup has found takes exactly
    that element out of the tree: it succeeds, the leaves are those from before
    without the one of that key, the tables keep their invariants, and a lookup
    of the key finds nothing any more. *)
Theorem chain_delete_gone media D fl t up kn kb ke r c flags : lf_matchind fl = false -> lf_directdata fl = false ->
  cursor_ok media D t up -> range_ok media D (zip t up) kb ke ->
  hammer2_chain_lookup media fl t up kn kb ke = Some r -> lk_found r = Found c ->
  exists t' c' r', delete_at 0 (lk_tree r) c flags = Some (t', c', 0, false) /\
    cursor_ok media D t' (lk_up r) /\
    leaves media D (zip t' (lk_up r)) = del_key (br_key (cd_bref c)) (leaves media D (zip t up)) /\
    hammer2_chain_lookup media fl t' (lk_up r) kn (br_key (cd_bref c)) (br_key (cd_bref c)) = Some r' /\ lk_found r' = NotFound.
Proof.
  intros Hm Hdd Hc Hr El Ef. destruct (lookup_ok media D fl t up kn kb ke Hm Hdd Hc Hr) as (r0 & E0 & Hd).
  rewrite El in E0. injection E0 as <-. destruct (done_cursor _ _ _ _ _ _ _ _ Hc Hd) as [[C1 C2 C3 C4] He].
  assert (EL : leaves media D (zip (lk_tree r) (lk_up r)) = leaves media D (zip t up)) by (unfold leaves; by rewrite He).
  assert (Hans := ld_found _ _ _ _ _ _ _ _ Hd). rewrite Ef in Hans. cbn [answers] in Hans.
  apply List.find_some in Hans as [Hin _]. assert (Hleaf := Hin). apply List.filter_In in Hleaf as [_ Hleaf]. apply negb_true_iff in Hleaf.
  apply list_elem_of_In in Hin. assert (Hcok := brefs_ok_elem _ _ (leaves_ok media D _ (co_ok _ _ _ _ Hc)) Hin).
  assert (Hch := ld_child _ _ _ _ _ _ _ _ Hd c Ef). set (k := br_key (cd_bref c)).
  assert (exists d, D = S d + length (lk_up r))%nat as [d ED] by (exists (D - S (length (lk_up r)))%nat; lia).
  assert (Hz := C3). rewrite ED in Hz. assert (Hok := zip_ok media (lk_up r) (S d) (lk_tree r) C1 Hz).
  destruct (delete_tree media d (lk_tree r) c Hok Hch Hleaf) as (t' & c' & Ed & T1 & T2 & T3 & T4 & T5).
  destruct (zip_delete media (lk_up r) d (lk_tree r) t' (cd_bref c) C1 Hz T1 T2) as (Z1 & Z2 & Z3 & Z4); try done.
  { intros x Hx. rewrite T3 in Hx. by apply del_key_elem in Hx as [Hx _]. }
  { by apply child_leaf. }
  rewrite <- ED in Z2, Z3, Z4. rewrite EL in Z3.
  assert (cursor_ok media D t' (lk_up r)) as Hc' by (split; [done|done|done|by rewrite Z4]).
  assert (range_ok media D (zip t' (lk_up r)) k k) as Hr' by (split; [unfold bref_ok in Hcok; unfold k; lia|by left]).
  destruct (lookup_ok media D fl t' (lk_up r) kn k k Hm Hdd Hc' Hr') as (r' & E' & Hd').
  eexists t', _, r'. split; [apply Ed|]. split; [done|]. split; [done|]. split; [done|].
  assert (Ha' := ld_found _ _ _ _ _ _ _ _ Hd'). rewrite Z3 in Ha'. destruct (lk_found r') as [|x|]; [done| |done]. exfalso.
  apply List.find_some in Ha' as [Hx Hh]. apply list_elem_of_In, del_key_elem in Hx as [Hx Hne].
  assert (HL := leaves_ok media D _ (co_ok _ _ _ _ Hc)). apply hits_spec in Hh; [|by apply (brefs_ok_elem _ _ HL)].
  destruct (brefs_apart _ _ _ HL Hx Hin) as [E|[Hb|Hb]]; [by rewrite E in Hne| |]; assert (Y := span_pos _ Hcok); unfold before in Hb; fold k in Hb; lia.
Qed.

(** A directory whose inode has four entries and no room for a fifth. *)
Definition full_dir : tree := Tree sample_dir 0 [].
Definition sample_modify (c : child) : child * Z := (cd_set c HAMMER2_CHAIN_UPDATE, 0).

Lemma full_dir_ok : cursor_ok sample_media 1 full_dir [].
Proof.
  assert (Hn := st_node _ _ _ _ _ sample_dir_splittable). assert (Ha := st_aligned _ _ _ _ _ sample_dir_splittable).
  assert (Ev : vw full_dir = nview sample_dir) by (unfold vw; cbn [t_node full_dir]; by rewrite counted_id).
  assert (Hleaf : forall b, b ∈ vw full_dir -> is_indirect b = false).
  { intros b Hb. rewrite Ev in Hb. change (b ∈ nd_base sample_dir) in Hb. apply list_elem_of_fmap in Hb as (k & -> & _). done. }
  split; [done|cbn; lia| |].
  - cbn [zip]. split; [|intros b Hb Hi; by rewrite (Hleaf b Hb) in Hi]. split; try done.
    + intros s Hs. by apply elem_of_nil in Hs.
    + exists 2. split; [done|lia].
  - rewrite blocks_eq. vm_compute. done.
Qed.

Lemma sample_modifies : modifies sample_modify.
Proof.
  intros c. eexists. split; [done|]. split; [by split_and!|]. intros f Hf. cbn [cd_set cd_flags]. rewrite has_lor.
  replace (has HAMMER2_CHAIN_UPDATE f) with false by (by destruct Hf as [-> |[-> | ->]]). apply orb_false_r.
Qed.

Lemma chain_create_found_witness :
  let fl := mkLflags false false false in
  let key := 2 ^ 63 + 7 in
  exists r cr t' up' c' r' c'',
    hammer2_chain_lookup sample_media fl full_dir [] 0 key key = Some r /\ lk_found r = NotFound /\
    hammer2_chain_create 0 0 (fun _ => 0) sample_modify true false (Some (lk_tree r, lk_up r)) None HAMMER2_METH_DEFAULT
      key 0 HAMMER2_BREF_TYPE_DIRENT 0 0 = Some cr /\
    cr_cursor cr = Some (t', up') /\ cr_chain cr = Some c' /\ cr_error cr = 0 /\
    leaves sample_media 2 (zip t' up') = list_ins (cd_bref c') (nd_base sample_dir) /\
    hammer2_chain_lookup sample_media fl t' up' 0 key key = Some r' /\ lk_found r' = Found c'' /\ cd_bref c'' = cd_bref c'.
Proof.
  intros fl key. destruct (hammer2_chain_lookup sample_media fl full_dir [] 0 key key) as [r|] eqn:E; [|vm_compute in E; discriminate].
  assert (lk_found r = NotFound) as Ef by (vm_compute in E; injection E as <-; reflexivity).
  destruct (chain_create_found sample_media sample_modify true 1 fl full_dir [] 0 r HAMMER2_METH_DEFAULT key HAMMER2_BREF_TYPE_DIRENT 0 0 0
    eq_refl eq_refl sample_modifies) as (cr & t' & up' & c' & r' & c'' & H1 & H2 & H3 & H4 & H5 & H6 & H7 & H8 & H9 & H10 & H11 & H12).
  - unfold is_u64, key. lia.
  - by left.
  - reflexivity.
  - reflexivity.
  - exact full_dir_ok.
  - vm_compute. reflexivity.
  - exact E.
  - exact Ef.
  - exists r, cr, t', up', c', r', c''. split_and!; try assumption. reflexivity.
Defined.

Lemma chain_delete_gone_witness :
  let fl := mkLflags false false false in
  exists r c t' c' r', hammer2_chain_lookup sample_media fl sample_root [] 0 6 40000 = Some r /\ lk_found r = Found c /\
    delete_at 0 (lk_tree r) c HAMMER2_DELETE_PERMANENT = Some (t', c', 0, false) /\
    leaves sample_media 3 (zip t' (lk_up r)) = [tree_dirent 65536] /\
    hammer2_chain_lookup sample_media fl t' (lk_up r) 0 32773 32773 = Some r' /\ lk_found r' = NotFound.
Proof.
  intros fl. destruct (hammer2_chain_lookup sample_media fl sample_root [] 0 6 40000) as [r|] eqn:E; [|vm_compute in E; discriminate].
  assert (exists c, lk_found r = Found c /\ br_key (cd_bref c) = 32773) as (c & Ef & Ek).
  { vm_compute in E. injection E as <-. eexists. split; reflexivity. }
  destruct (chain_delete_gone sample_media 3 fl sample_root [] 0 6 40000 r c HAMMER2_DELETE_PERMANENT eq_refl eq_refl)
    as (t' & c' & r' & H1 & H2 & H3 & H4 & H5).
  - split; [reflexivity|cbn; lia|exact sample_tree_ok|vm_compute; reflexivity].
  - split; [lia|]. right. intros b Hb Hi.
    change (b ∈ [tree_block 0 16; tree_block 32768 15; tree_dirent 32773; tree_dirent 65536]) in Hb.
    repeat (apply elem_of_cons in Hb as [->|Hb]; [by vm_compute|]). by apply elem_of_nil in Hb.
  - exact E.
  - exact Ef.
  - rewrite Ek in H3, H4. exists r, c, t', c', r'. split; [reflexivity|]. split; [exact Ef|]. split; [exact H1|].
    split; [rewrite H3; reflexivity|]. split; [exact H4|exact H5].
Defined.
