(* ===== verification/Collapse.v ===== *)
(** The collapse of an indirect block into its parent (hammer2_chain.c):
    hammer2_chain_indirect_maintenance(), which the flush calls on its way up.

    [P] is the parent, [c] its child, the chain of the block as the parent has
    it, and [N] the block with its table.  [modify_p], [modify_c] and [modify]
    are the errors of the modifications. *)
From S2P Require Import Prelude Disk Subr BlockTable Indirect ChainTree ChainCreate.
From Stdlib Require Import ZArith Lia Bool.
From stdpp Require Import base list.
Open Scope Z_scope.

Record maint_result := mkMaint {
  mt_parent : node;
  mt_block : node;
  mt_chain : child;
  mt_ret : bool;                (* the block is deleted *)
  mt_hpanic : bool
}.

(** [if ((flags & (INITIAL | COUNTEDBREFS)) == 0)] the blockrefs are counted. *)
Definition count_block (n : node) : node :=
  if nz (pa_flags (nd_parent n) & (HAMMER2_CHAIN_INITIAL ||| HAMMER2_CHAIN_COUNTEDBREFS)) then n
  else mkNode (hammer2_chain_countbrefs (nd_parent n) (Some (nd_base n)) (zlen (nd_base n))) (nd_base n).

(** The range of the block is not inside of that of the parent. *)
Definition not_contained (pb cb : hammer2_blockref) : bool :=
  (0 <? br_keybits cb) && (0 <? br_keybits pb) && ((br_key cb <? br_key pb) || (key_last pb <? key_last cb)).

(** [chain->bref.embed.stats] is cleared. *)
Definition clear_stats (b : hammer2_blockref) : hammer2_blockref := bref_set_stats b (br_leaf_count b) 0 0.

(** The loop over the elements of the block, which move to the parent.  A child
    that is deleted would be tried again. *)
Fixpoint collapse_loop (modify : nat -> Z) (fuel : nat) (P N : node) (key_beg : Z) (hp : bool) : option (node * node * bool) :=
  match fuel with
  | O => None
  | S fuel =>
      let base := nd_base N in
      match hammer2_combined_find (nd_parent N) (Some base) (zlen base) key_beg HAMMER2_KEY_MAX with
      | None => None
      | Some (p, _, _, None) => Some (P, mkNode p base, hp)
      | Some (p, _, sub, Some bref) =>
          let key_next := key_stop bref in
          match (match sub with Some c => Some (p, c) | None => hammer2_chain_get p bref end) with
          | None => None
          | Some (p, c) =>
              if has (cd_flags c) HAMMER2_CHAIN_DELETED
              then collapse_loop modify fuel P (mkNode p base) key_beg hp
              else
                match delete_helper (modify fuel) (mkNode p base) c with
                | None => None
                | Some (N, c, obref, error, hp1) =>
                    if nz error then None else
                    match rename_obref P c obref with
                    | None => None
                    | Some (P, hp2) =>
                        let hp := hp || hp1 || hp2 in
                        if key_next =? 0 then Some (P, N, hp) else collapse_loop modify fuel P N key_next hp
                    end
                end
          end
      end
  end.

(** The elements of the block and one round more. *)
Definition collapse_fuel (N : node) : nat := S (length (nd_base N) + length (pa_rbtree (nd_parent N))).

Definition hammer2_chain_indirect_maintenance (modify_p modify_c : Z) (modify : nat -> Z) (P : node) (c : child) (N : node)
    : option maint_result :=
  let N := count_block N in
  let live := pa_live_count (nd_parent N) in
  if (live =? 0) && (match pa_rbtree (nd_parent N) with [] => true | _ => false end) then
    match hammer2_chain_delete modify_p P c HAMMER2_DELETE_PERMANENT with
    | None => None
    | Some (P, c, _, hp) => Some (mkMaint P N c true hp)
    end
  else
    let P := count_block P in
    let kept := Some (mkMaint P N c false false) in
    if not_contained (pa_bref (nd_parent P)) (cd_bref c) then kept
    else if zlen (nd_base P) <? u32 (pa_live_count (nd_parent P) + live - 1) then kept
    else if zlen (nd_base N) * 3 / 4 <? u32 live then kept
    else if nz modify_p || nz modify_c then kept
    else
      let c := mkChild (clear_stats (cd_bref c)) (cd_flags c) in
      let P := mkNode (set_child (nd_parent P) c) (nd_base P) in
      let N := mkNode (set_bref (nd_parent N) (clear_stats (pa_bref (nd_parent N)))) (nd_base N) in
      match hammer2_chain_delete 0 P c HAMMER2_DELETE_PERMANENT with
      | None => None
      | Some (P, c, error, hp) =>
          if nz error then None else
          match collapse_loop modify (collapse_fuel N) P N 0 hp with
          | None => None
          | Some (P, N, hp) => Some (mkMaint P N c true hp)
          end
      end.

(** In the tree: the blocks below the elements that move go with them. *)
Section Tree.
Context (media : hammer2_blockref -> list hammer2_blockref * Z) (modify_p modify_c : Z) (modify : nat -> Z).

Definition maintain (t : tree) (c : child) : option (tree * bool * bool) :=
  let key := br_key (cd_bref c) in
  let s := block_chain media t (cd_bref c) in
  match hammer2_chain_indirect_maintenance modify_p modify_c modify (t_node t) c (t_node s) with
  | None => None
  | Some r =>
      let below := if mt_ret r then t_subs s else [Tree (mt_block r) (t_error s) (t_subs s)] in
      Some (Tree (mt_parent r) (t_error t) (below ++ sub_del key (t_subs t)), mt_ret r, mt_hpanic r)
  end.
End Tree.
