(* ===== verification/CollapseProof.v ===== *)
(** A collapse of an indirect block into its parent moves every element and
    loses none: the leaves of the tree stay what they were. *)
From Stdlib Require Import ZArith Lia Bool.
From stdpp Require Import base list sorting.
From S2P Require Import Prelude Disk Subr BlockTable BlockTableProof BlockView Indirect IndirectProof IndirectMove IndirectSplit ChainTree ChainTreeProof ChainCreate ChainCreateProof Collapse.
Open Scope Z_scope.

(** ** The loop *)

(** One element goes from the block to the parent. *)
Lemma collapse_step P N b v : node_ok P -> node_core N -> v ∈ view (nd_parent N) (nd_base N) -> v.2 = b ->
  apart (nview P) b -> zlen (nview P) < zlen (nd_base P) ->
  exists p c N' c' o P', (match v.1 with Some c => Some (nd_parent N, c) | None => hammer2_chain_get (nd_parent N) b end) = Some (p, c) /\
    has (cd_flags c) HAMMER2_CHAIN_DELETED = false /\
    delete_helper 0 (mkNode p (nd_base N)) c = Some (N', c', o, 0, false) /\ rename_obref P c' o = Some (P', false) /\
    node_core N' /\ nview N' = del_key (br_key b) (nview N) /\
    node_ok P' /\ nview P' = list_ins b (nview P) /\ length (nd_base P') = length (nd_base P) /\
    same_kind (nd_parent P) (nd_parent P').
Proof.
  intros HP HN Hv Eb Hap Hroom.
  destruct (take_step N b v HN Hv Eb) as (p & c & N' & c' & o & E1 & E2 & E3 & HN' & _ & EN' & _ & Eb' & Hm & _ & Hbok & Ho).
  destruct (rename_obref_ok P c' o HP) as (P' & E4 & HP' & EP' & HlP & HkP & _); rewrite ?Eb'; try done.
  rewrite Eb' in EP'. by exists p, c, N', c', o, P'.
Qed.

Lemma node_core_cache n ci : node_core n -> node_core (mkNode (set_cache_index (nd_parent n) ci) (nd_base n)).
Proof. intros [H1 H2 H3 H4]. split; [by apply view_ok_cache|done|done|done]. Qed.

(** The elements of both. *)
Definition merged (P' P : node) (l : list hammer2_blockref) : Prop :=
  node_ok P' /\ length (nd_base P') = length (nd_base P) /\ same_kind (nd_parent P) (nd_parent P') /\
  (forall x, x ∈ nview P' <-> x ∈ nview P \/ x ∈ l).

Lemma collapse_loop_ok l : forall fuel P N kb, node_ok P -> node_core N -> nview N = l ->
  (forall b, b ∈ l -> apart (nview P) b) -> (forall b, b ∈ l -> kb <= br_key b) -> 0 <= kb < 2 ^ 64 ->
  zlen (nview P) + zlen l <= zlen (nd_base P) -> (length l < fuel)%nat ->
  exists P' N', collapse_loop (fun _ => 0) fuel P N kb false = Some (P', N', false) /\ merged P' P l /\ nview N' = [].
Proof.
  induction l as [|b l IH]; intros fuel P N kb HP HN EN Hap Hkey Hkb Hroom Hf.
  all: destruct fuel as [|fuel]; [cbn in Hf; lia|]; cbn [collapse_loop].
  all: destruct (combined_find_spec (nd_parent N) (nd_base N) kb HAMMER2_KEY_MAX (nc_view _ HN)) as [ci ->];
    [unfold HAMMER2_KEY_MAX; lia|done|].
  all: rewrite (nearest_rest _ _ [] (view (nd_parent N) (nd_base N)) kb (nc_view _ HN) eq_refl);
    [|intros v Hv; by apply elem_of_nil in Hv
     |intros v Hv; apply Hkey; rewrite <- EN; by apply list_elem_of_fmap_2].
  all: assert (HNc := node_core_cache N ci HN).
  - assert (view (nd_parent N) (nd_base N) = []) as Ev by (by apply (fmap_nil_inv snd)). rewrite Ev. cbn [head fmap option_fmap option_map].
    eexists P, _. split; [done|]. split; [|exact EN]. split_and!; try done. intros x. split; [by left|]. intros [|Hx]; [done|].
    by apply elem_of_nil in Hx.
  - destruct (view (nd_parent N) (nd_base N)) as [|v V] eqn:EV; [unfold nview, bview in EN; by rewrite EV in EN|].
    assert (v.2 = b) as Eb by (unfold nview, bview in EN; rewrite EV in EN; by injection EN).
    cbn [head fmap option_fmap option_map mbind option_bind]. rewrite Eb.
    set (N1 := mkNode (set_cache_index (nd_parent N) ci) (nd_base N)) in *.
    assert (v ∈ view (nd_parent N1) (nd_base N1)) as Hv.
    { change (v ∈ view (nd_parent N) (nd_base N)). rewrite EV. apply elem_of_cons. by left. }
    assert (Hok := bview_ok _ _ (nc_view _ HN)). fold (nview N) in Hok. rewrite EN in Hok.
    apply brefs_ok_cons in Hok as (Hbok & Hlok & Hbl). cbn [length] in Hroom, Hf.
    destruct (collapse_step P N1 b v HP HNc Hv Eb) as (p & c & N' & c' & o & P1 & E1 & E2 & E3 & E4 & HN' & EN' & HP1 & EP1 & HlP & HkP);
      [apply Hap, elem_of_cons; by left|lia|].
    change (nd_parent N1) with (set_cache_index (nd_parent N) ci) in E1. change (nd_base N1) with (nd_base N) in E3.
    rewrite E1, E2, E3. cbn [nz negb Z.eqb]. rewrite E4. cbn [orb].
    assert (nview N' = l) as EN1.
    { rewrite EN'. change (nview N1) with (nview N). rewrite EN. apply (del_key_middle [] b l). apply brefs_ok_cons. by split_and!. }
    assert (Hmem : forall P' x, (x ∈ nview P' <-> x ∈ nview P1 \/ x ∈ l) -> (x ∈ nview P' <-> x ∈ nview P \/ x ∈ b :: l)).
    { intros P' x ->. rewrite EP1, list_ins_elem, elem_of_cons. tauto. }
    destruct (key_stop_ord b Hbok) as [Hsu Hso]. assert (Hsp := span_pos b Hbok). unfold key_ord, is_u64 in *.
    destruct (Z.eqb_spec (key_stop b) 0) as [E0|Hne].
    + assert (l = []) as ->.
      { destruct l as [|w l]; [done|exfalso]. assert (Hw := Hbl w ltac:(apply elem_of_cons; by left)).
        assert (bref_ok w) as (W1 & W2 & W3) by (eapply brefs_ok_elem; [exact Hlok|apply elem_of_cons; by left]).
        assert (0 < 2 ^ br_keybits w) by (apply Z.pow_pos_nonneg; lia). unfold before in Hw. lia. }
      exists P1, N'. split; [done|]. split; [|done]. split_and!; try done. intros x. apply Hmem. split; [by left|].
      intros [|Hx]; [done|]. by apply elem_of_nil in Hx.
    + destruct (IH fuel P1 N' (key_stop b) HP1 HN' EN1) as (P' & N2 & E5 & (M1 & M2 & M3 & M4) & EN2); try lia.
      * intros x Hx y Hy. rewrite EP1 in Hy. apply list_ins_elem in Hy as [->|Hy]; [left; by apply Hbl|].
        apply Hap; [apply elem_of_cons; by right|done].
      * intros x Hx. specialize (Hbl x Hx). unfold before in Hbl. lia.
      * rewrite EP1, list_ins_length, HlP. lia.
      * exists P', N2. split; [done|]. split; [|done]. split_and!; try done; [congruence|by apply (same_kind_trans _ (nd_parent P1))|].
        intros x. by apply Hmem.
Qed.

(** ** The block in its parent *)

(** A child with other statistics. *)
Lemma set_child_ok P c c1 : node_ok P -> c ∈ pa_rbtree (nd_parent P) -> same_range (cd_bref c) (cd_bref c1) -> cd_flags c1 = cd_flags c ->
  let P1 := mkNode (set_child (nd_parent P) c1) (nd_base P) in
  node_ok P1 /\ c1 ∈ pa_rbtree (nd_parent P1) /\ del_key (br_key (cd_bref c)) (nview P1) = del_key (br_key (cd_bref c)) (nview P).
Proof.
  intros [Hv Hst Hct Hfl] Hc Hr Hf P1. set (k := br_key (cd_bref c)).
  destruct (set_child_spec (nd_parent P) c c1 _ (vo_children _ _ Hv) Hr Hc eq_refl) as [Hin Hok].
  assert (view_ok (nd_parent P1) (nd_base P1)) as Hv1.
  { split; [|done|].
    - destruct (vo_counted _ _ Hv) as [H1 H2 H3]. by split.
    - intros a e Ha He. apply Hin in Ha as [->|[Ha _]]; [|by apply (vo_coherent _ _ Hv)].
      assert (X := vo_coherent _ _ Hv c e Hc He). destruct Hr as [E1 E2]. unfold before in *. rewrite E1, E2. exact X. }
  assert (cd_bref c ∈ nview P) as Hcv by (apply (bview_elem _ _ _ Hv); left; by exists c).
  assert (cd_bref c1 ∈ nview P1) as Hcv1 by (apply (bview_elem _ _ _ Hv1); left; exists c1; split; [apply Hin; by left|done]).
  assert (del_key k (nview P1) = del_key k (nview P)) as Ed.
  { apply brefs_ok_ext; [apply del_key_ok; by apply bview_ok|apply del_key_ok; by apply bview_ok|]. intros x. rewrite !del_key_elem.
    assert (br_key x <> k -> x ∈ nview P1 <-> x ∈ nview P); [|tauto]. intros Hk. unfold nview. rewrite !bview_elem by done. split.
    - intros [(a & Ha & ->)|[He Hne]].
      + apply Hin in Ha as [->|[Ha _]]; [by destruct Hr|]. left. by exists a.
      + right. split; [done|]. intros a Ha E. apply (Hne a); [|done]. apply Hin. right. split; [done|]. intros ->. by apply Hk.
    - intros [(a & Ha & ->)|[He Hne]].
      + left. exists a. split; [|done]. apply Hin. right. split; [done|]. intros ->. by apply Hk.
      + right. split; [done|]. intros a Ha. apply Hin in Ha as [->|[Ha _]]; [|by apply Hne]. destruct Hr as [E1 _]. rewrite E1. by apply Hne. }
  split; [|split; [apply Hin; by left|done]]. split; try done.
  - assert (X := del_key_length (nview P1) (cd_bref c1) (bview_ok _ _ Hv1) Hcv1). assert (Y := del_key_length (nview P) (cd_bref c) (bview_ok _ _ Hv) Hcv).
    destruct Hr as [E1 _]. rewrite E1 in X. fold k in X, Y. rewrite Ed in X. rewrite nview_length. cbn [nd_parent P1 set_child set_children pa_live_count].
    rewrite Hct, nview_length. lia.
  - intros a Ha. apply Hin in Ha as [->|[Ha _]]; [|by apply Hfl]. destruct (Hfl c Hc) as (F1 & F2 & F3). rewrite Hf. split_and!; try done.
    rewrite F3. unfold mapped. destruct Hr as [E1 _]. by rewrite E1.
Qed.

Lemma count_block_eq n : has (pa_flags (nd_parent n)) HAMMER2_CHAIN_INITIAL = false -> count_block n = counted_node n.
Proof.
  intros Hi. unfold count_block, counted_node, hammer2_chain_countbrefs. unfold has, nz in *. rewrite Z.land_lor_distr_r.
  apply negb_false_iff, Z.eqb_eq in Hi. rewrite Hi, Z.lor_0_l. destruct (_ =? 0); [done|]. by destruct n.
Qed.

(** When the block goes: it is empty, or what it has fits into the slot it leaves
    and the free ones of the parent and fills at most three quarters of it. *)
Definition collapses (P : node) (c : child) (N : node) : bool :=
  (zlen (nview N) =? 0) ||
  (negb (not_contained (pa_bref (nd_parent P)) (cd_bref c)) &&
   (zlen (nview P) + zlen (nview N) - 1 <=? zlen (nd_base P)) && (zlen (nview N) <=? zlen (nd_base N) * 3 / 4)).

Section Maintenance.
Context (P : node) (c : child) (N : node).
Hypothesis HP : node_ok P.
Hypothesis HN : node_ok (counted_node N).
Hypothesis Hc : c ∈ pa_rbtree (nd_parent P).
Hypothesis HiP : has (pa_flags (nd_parent P)) HAMMER2_CHAIN_INITIAL = false.
Hypothesis HiN : has (pa_flags (nd_parent N)) HAMMER2_CHAIN_INITIAL = false.
Hypothesis Hin : forall x, x ∈ nview (counted_node N) -> inside (cd_bref c) x.
Hypothesis HsP : zlen (nview P) <= zlen (nd_base P) < 2 ^ 30.
Hypothesis HsN : zlen (nview (counted_node N)) <= zlen (nd_base N) < 2 ^ 30.

Abbreviation k := (br_key (cd_bref c)).

(** The elements of the block are apart from the others of the parent. *)
Lemma block_elems_apart P' b : nview P' = del_key k (nview P) -> b ∈ nview (counted_node N) -> apart (nview P') b.
Proof.
  intros E Hb x Hx. rewrite E in Hx. apply del_key_elem in Hx as [Hx Hne]. specialize (Hin b Hb).
  assert (Hok := bview_ok _ _ (no_view _ HP)). fold (nview P) in Hok.
  assert (cd_bref c ∈ nview P) as Hcv by (apply (bview_elem _ _ _ (no_view _ HP)); left; by exists c).
  assert (bref_ok b) as Hb' by (eapply brefs_ok_elem; [apply (bview_ok _ _ (no_view _ HN))|done]).
  assert (S1 := span_pos _ Hb'). assert (S2 := span_pos _ (brefs_ok_elem _ _ Hok Hx)). assert (S3 := span_pos _ (brefs_ok_elem _ _ Hok Hcv)).
  destruct (brefs_apart _ x (cd_bref c) Hok Hx Hcv) as [->|[Hlt|Hlt]]; [done| |]; unfold before, inside, range_end in *; lia.
Qed.

Lemma cleared_core : node_core (mkNode (set_bref (nd_parent (counted_node N)) (clear_stats (pa_bref (nd_parent (counted_node N))))) (nd_base N)).
Proof. apply node_ok_core in HN as [[[[] ? ?] ? ? ?] _]. split; [split; [by split|done|done]|done|done|done]. Qed.

Definition collapsed (P' : node) : Prop :=
  node_ok P' /\ length (nd_base P') = length (nd_base P) /\ same_kind (nd_parent P) (nd_parent P') /\
  forall x, x ∈ nview P' <-> (x ∈ nview P /\ br_key x <> k) \/ x ∈ nview (counted_node N).

Lemma delete_block P1 c1 flags : node_ok P1 -> c1 ∈ pa_rbtree (nd_parent P1) -> exists P' c', 
  hammer2_chain_delete 0 P1 c1 flags = Some (P', c', 0, false) /\ node_ok P' /\
  nview P' = del_key (br_key (cd_bref c1)) (nview P1) /\ length (nd_base P') = length (nd_base P1) /\ same_kind (nd_parent P1) (nd_parent P').
Proof.
  intros H1 H2. destruct (no_flags _ H1 c1 H2) as (_ & Hd & _).
  destruct (delete_helper_ok P1 c1 H1 H2) as (P' & c' & o & E & HP' & EP' & Hlen & _ & _ & Hk & _).
  unfold hammer2_chain_delete. rewrite Hd, E. eexists P', _. split; [done|]. done.
Qed.

Lemma empty_block : zlen (nview (counted_node N)) = 0 -> nview (counted_node N) = [] /\ pa_rbtree (nd_parent (counted_node N)) = [].
Proof.
  intros E. destruct (nview (counted_node N)) as [|x l] eqn:Ev; [|cbn in E; lia]. split; [done|].
  destruct (pa_rbtree (nd_parent (counted_node N))) as [|a rb] eqn:Er; [done|exfalso].
  assert (cd_bref a ∈ nview (counted_node N)) as X.
  { apply (bview_elem _ _ _ (no_view _ HN)). left. exists a. rewrite Er. split; [apply elem_of_cons; by left|done]. }
  rewrite Ev in X. by apply elem_of_nil in X.
Qed.

(** The collapse proper. *)
Lemma collapse_ok : zlen (nview P) + zlen (nview (counted_node N)) - 1 <= zlen (nd_base P) ->
  let c1 := mkChild (clear_stats (cd_bref c)) (cd_flags c) in
  let N1 := mkNode (set_bref (nd_parent (counted_node N)) (clear_stats (pa_bref (nd_parent (counted_node N))))) (nd_base N) in
  exists P' P2 c' N2, hammer2_chain_delete 0 (mkNode (set_child (nd_parent P) c1) (nd_base P)) c1 HAMMER2_DELETE_PERMANENT = Some (P2, c', 0, false) /\
    collapse_loop (fun _ => 0) (collapse_fuel N1) P2 N1 0 false = Some (P', N2, false) /\ collapsed P'.
Proof.
  intros Hroom c1 N1. destruct (set_child_ok P c c1 HP Hc ltac:(by split) eq_refl) as (HP1 & Hc1 & Ed).
  destruct (delete_block _ c1 HAMMER2_DELETE_PERMANENT HP1 Hc1) as (P2 & c' & E1 & HP2 & EP2 & Hl2 & Hk2).
  change (br_key (cd_bref c1)) with k in EP2. rewrite Ed in EP2. cbn [nd_parent nd_base] in Hl2, Hk2.
  assert (cd_bref c ∈ nview P) as Hcv by (apply (bview_elem _ _ _ (no_view _ HP)); left; by exists c).
  assert (X := del_key_length (nview P) (cd_bref c) (bview_ok _ _ (no_view _ HP)) Hcv).
  assert (HN1 := cleared_core). fold N1 in HN1.
  destruct (collapse_loop_ok (nview (counted_node N)) (collapse_fuel N1) P2 N1 0 HP2 HN1 eq_refl) as (P' & N2 & E2 & (M1 & M2 & M3 & M4) & _).
  - intros b Hb. by apply block_elems_apart.
  - intros b Hb. by destruct (brefs_ok_elem _ _ (bview_ok _ _ (no_view _ HN)) Hb).
  - lia.
  - rewrite EP2, Hl2. lia.
  - unfold collapse_fuel. cbn [nd_base N1]. lia.
  - exists P', P2, c', N2. split; [exact E1|]. split; [exact E2|]. split; [done|]. split; [congruence|]. split.
    + apply (same_kind_trans _ (nd_parent P2)); [|done]. exact Hk2.
    + intros x. rewrite M4, EP2, del_key_elem. done.
Qed.

Lemma maintenance_ok : exists r, hammer2_chain_indirect_maintenance 0 0 (fun _ => 0) P c N = Some r /\ mt_hpanic r = false /\
  mt_ret r = collapses P c (counted_node N) /\
  if mt_ret r then collapsed (mt_parent r) else mt_parent r = P /\ mt_block r = counted_node N.
Proof.
  unfold hammer2_chain_indirect_maintenance. rewrite !count_block_eq, (counted_id P) by done.
  rewrite (no_count _ HN), (no_count _ HP), !nview_length. unfold collapses.
  destruct (Z.eqb_spec (zlen (nview (counted_node N))) 0) as [E0|Hne]; cbn [andb orb].
  { destruct (empty_block E0) as [Ev ->]. destruct (delete_block P c HAMMER2_DELETE_PERMANENT HP Hc) as (P' & c' & E & HP' & EP' & Hl & Hk).
    rewrite E. eexists. split; [done|]. split; [done|]. split; [done|]. cbn [mt_ret mt_parent]. split_and!; try done.
    intros x. rewrite EP', Ev, del_key_elem. split; [by left|]. intros [|Hx]; [done|]. by apply elem_of_nil in Hx. }
  change (nd_base (counted_node N)) with (nd_base N).
  rewrite !u32_small by (unfold is_u32; lia).
  destruct (not_contained _ _); cbn [negb andb]; [by eexists|].
  destruct (Z.ltb_spec (zlen (nd_base P)) (zlen (nview P) + zlen (nview (counted_node N)) - 1)) as [H1|H1].
  { destruct (Z.leb_spec (zlen (nview P) + zlen (nview (counted_node N)) - 1) (zlen (nd_base P))); [lia|]. by eexists. }
  destruct (Z.leb_spec (zlen (nview P) + zlen (nview (counted_node N)) - 1) (zlen (nd_base P))); [|lia]. cbn [andb].
  destruct (Z.ltb_spec (zlen (nd_base N) * 3 / 4) (zlen (nview (counted_node N)))) as [H2|H2].
  { destruct (Z.leb_spec (zlen (nview (counted_node N))) (zlen (nd_base N) * 3 / 4)); [lia|]. by eexists. }
  destruct (Z.leb_spec (zlen (nview (counted_node N))) (zlen (nd_base N) * 3 / 4)); [|lia]. cbn [nz negb orb Z.eqb].
  destruct (collapse_ok H1) as (P' & P2 & c' & N2 & E1 & E2 & Hcol). rewrite E1. cbn [nz negb Z.eqb]. rewrite E2. by eexists.
Qed.
End Maintenance.

(** ** The tree *)

Lemma brefs_nodup l : brefs_ok l -> NoDup l.
Proof.
  induction l as [|a l IH]; intros Hok; [constructor|]. apply brefs_ok_cons in Hok as (Ha & Hl & Hlt). constructor; [|auto].
  intros Hin. specialize (Hlt a Hin). assert (X := span_pos a Ha). unfold before in Hlt. lia.
Qed.

Lemma sum_of_merge f l l1 l2 : brefs_ok l -> brefs_ok l1 -> brefs_ok l2 -> (forall x, x ∈ l <-> x ∈ l1 \/ x ∈ l2) ->
  (forall x, x ∈ l1 -> x ∉ l2) -> sum_of f l = sum_of f l1 + sum_of f l2.
Proof.
  intros H H1 H2 Hin Hd. assert (l ≡ₚ l1 ++ l2) as Hp.
  { apply NoDup_Permutation; [by apply brefs_nodup| |intros x; rewrite elem_of_app; apply Hin].
    apply NoDup_app. split_and!; [by apply brefs_nodup|done|by apply brefs_nodup]. }
  assert (forall a b : list hammer2_blockref, a ≡ₚ b -> sum_of f a = sum_of f b) as Hperm.
  { induction 1; unfold sum_of in *; cbn; lia. }
  rewrite (Hperm _ _ Hp). clear. unfold sum_of. induction l1 as [|a l1 IH]; cbn; [lia|]. rewrite IH. lia.
Qed.

Lemma sum_of_length l : sum_of (fun _ => 1) l = zlen l.
Proof. induction l as [|a l IH]; [done|]. cbn [length]. unfold sum_of in *. cbn. lia. Qed.

Lemma sub_at_app k l1 l2 : sub_at k (l1 ++ l2) = match sub_at k l1 with Some s => Some s | None => sub_at k l2 end.
Proof. unfold sub_at. induction l1 as [|s l1 IH]; [done|]. cbn. by destruct (_ =? _). Qed.

Lemma sub_at_none k l : (forall s, s ∈ l -> br_key (t_bref s) <> k) -> sub_at k l = None.
Proof.
  intros H. unfold sub_at. apply find_none_eq. intros s Hs. by destruct (Z.eqb_spec (br_key (t_bref s)) k) as [E|]; [destruct (H s Hs E)|].
Qed.

Section Tree.
Context (media : hammer2_blockref -> list hammer2_blockref * Z).
Context (d : nat) (t : tree) (c : child).
Hypothesis Ht : tree_ok media (S (S d)) t.
Hypothesis Hc : has_child t c.
Hypothesis Hi : is_indirect (cd_bref c) = true.

Abbreviation sub := (block_chain media).
Abbreviation k := (br_key (cd_bref c)).
Abbreviation s := (sub t (cd_bref c)).

Lemma block_elem : cd_bref c ∈ vw t.
Proof. by apply child_elem; [apply Ht|]. Qed.

Lemma block_below : below (cd_bref c) s /\ tree_ok media (S d) s.
Proof. apply Ht; [apply block_elem|done]. Qed.

(** An element of the parent and one of the block have different keys. *)
Lemma block_key_apart b x : b ∈ vw t -> br_key b <> k -> x ∈ vw s -> br_key x <> br_key b.
Proof.
  intros Hb Hne Hx E. destruct block_below as [[_ Hin] [Hs _]]. specialize (Hin x Hx).
  assert (Hok := vw_ok t (proj1 Ht)). assert (S1 := span_pos _ (brefs_ok_elem _ _ Hok Hb)).
  assert (S2 := span_pos _ (brefs_ok_elem _ _ (vw_ok _ Hs) Hx)).
  destruct (brefs_apart _ b (cd_bref c) Hok Hb block_elem) as [->|[Hlt|Hlt]]; [done| |]; unfold before, inside, range_end in *; lia.
Qed.

Lemma sub_block P' x : x ∈ vw s -> sub (Tree P' (t_error t) (t_subs s ++ sub_del k (t_subs t))) x = sub s x.
Proof.
  intros Hx. unfold block_chain at 1. cbn [t_subs]. rewrite sub_at_app.
  change (sub s x) with (default (load media x) (sub_at (br_key x) (t_subs s))). destruct (sub_at (br_key x) (t_subs s)); [done|].
  rewrite sub_at_none; [done|]. intros s0 H0 E. apply list_elem_of_In, List.filter_In in H0 as [H0 Hne]. apply list_elem_of_In in H0.
  apply negb_true_iff, Z.eqb_neq in Hne. destruct (tt_subs _ (proj1 Ht) s0 H0) as (b & Hb & _ & Eb).
  apply (block_key_apart b x); [done|congruence|done|congruence].
Qed.

Lemma sub_rest P' x : x ∈ vw t -> br_key x <> k -> sub (Tree P' (t_error t) (t_subs s ++ sub_del k (t_subs t))) x = sub t x.
Proof.
  intros Hx Hne. unfold block_chain at 1. cbn [t_subs]. rewrite sub_at_app, (sub_at_none _ (t_subs s)).
  - rewrite sub_at_del by done. done.
  - intros s0 H0 E. destruct block_below as [_ [Hs _]]. destruct (tt_subs _ Hs s0 H0) as (b & Hb & _ & Eb).
    apply (block_key_apart x b Hx Hne Hb). congruence.
Qed.

(** The parent with the elements of the block. *)
Lemma collapsed_tree P' : collapsed (t_node t) c (t_node s) P' -> zlen (nview (t_node t)) + zlen (vw s) - 1 <= zlen (nd_base (t_node t)) ->
  let t' := Tree P' (t_error t) (t_subs s ++ sub_del k (t_subs t)) in
  tree_ok media (S (S d)) t' /\ same_head (t_bref t) (t_bref t') /\
  (forall x, x ∈ vw t' -> (x ∈ vw t /\ br_key x <> k) \/ x ∈ vw s) /\
  (forall x, x ∈ leaves media (S (S d)) t' <-> x ∈ leaves media (S (S d)) t) /\
  blocks media (S (S d)) t' = blocks media (S (S d)) t - 1.
Proof.
  intros (HP' & Hlen & (K1 & [K2 K3] & K4) & Hmem) Hroom t'. destruct Hc as [Hcr Ec].
  assert (Ev : nview (t_node t) = vw t) by (unfold vw; by rewrite Ec). rewrite Ev in Hmem, Hroom.
  assert (Evt : vw t' = nview P') by (unfold vw; cbn [t_node t']; by rewrite counted_id). rewrite <- Evt in Hmem.
  change (nview (counted_node (t_node s))) with (vw s) in Hmem. destruct block_below as [[Hh Hin] Hsok]. destruct (proj1 Hsok) as [_ _ _ _ _ Hs6 Hs7 _ _].
  assert (Hvt := vw_ok t (proj1 Ht)). assert (Hvs := vw_ok s (proj1 Hsok)).
  assert (Hvt' : brefs_ok (vw t')) by (rewrite Evt; apply (bview_ok _ _ (no_view _ HP'))).
  assert (Hsum : forall f, sum_of f (vw t') = sum_of f (del_key k (vw t)) + sum_of f (vw s)).
  { intros f. apply sum_of_merge; [done|by apply del_key_ok|done| |].
    - intros x. rewrite del_key_elem. apply Hmem.
    - intros x Hx Hx'. apply del_key_elem in Hx as [Hx Hne]. by apply (block_key_apart x x Hx Hne Hx'). }
  assert (Hdel : forall f, sum_of f (del_key k (vw t)) = sum_of f (vw t) - f (cd_bref c)).
  { intros f. by apply sum_of_del; [|apply block_elem]. }
  assert (Hof : forall x, x ∈ vw t' -> (x ∈ vw t /\ br_key x <> k) \/ x ∈ vw s) by (intros x; apply Hmem).
  assert (Hrest : forall x, x ∈ vw t -> br_key x <> k ->
    leaves_of media (S d) t' x = leaves_of media (S d) t x /\ blocks_of media (S d) t' x = blocks_of media (S d) t x).
  { intros x H1 H2. unfold leaves_of, blocks_of, t'. by rewrite sub_rest. }
  assert (Hblock : forall x, x ∈ vw s -> leaves_of media (S d) t' x = leaves_of media d s x /\ blocks_of media (S d) t' x = blocks_of media d s x).
  { intros x H1. unfold leaves_of, blocks_of, t', leaves, blocks. rewrite sub_block by done. destruct (is_indirect x) eqn:E; [|done].
    by rewrite (proj2 (deeper media d _ (proj2 (proj2 Hsok x H1 E)))). }
  split; [split|split; [by split_and!|split; [done|split]]].
  - assert (Ht0 := proj1 Ht). destruct Ht0 as [T1 T2 T3 T4 T5 T6 T7 T8 T9]. split; try done.
    + cbn [t_node t']. by rewrite counted_id.
    + unfold has_table, is_indirect, t_bref, t_parent in *. cbn [t_node t']. rewrite K1. exact T3.
    + unfold t_parent in *. cbn [t_node t']. rewrite K4 by done. exact T4.
    + unfold t_parent in *. cbn [t_node t']. rewrite K4 by done. exact T5.
    + intros s0 H0. cbn [t_subs t'] in H0. apply elem_of_app in H0 as [H0|H0].
      * destruct (Hs6 s0 H0) as (b & Hb & Hbi & Eb). exists b. split; [apply Hmem; by right|done].
      * apply list_elem_of_In, List.filter_In in H0 as [H0 Hne]. apply list_elem_of_In in H0. apply negb_true_iff, Z.eqb_neq in Hne.
        destruct (T6 s0 H0) as (b & Hb & Hbi & Eb). exists b. split; [|done]. apply Hmem. left. split; [done|]. by rewrite Eb.
    + rewrite Forall_forall in T7, Hs7 |- *. intros x Hx. destruct (Hof x Hx) as [[H1 _]|H1]; auto.
    + cbn [t_node t']. by rewrite Hlen.
    + cbn [t_node t']. rewrite Hlen, <- sum_of_length, Hsum, Hdel, !sum_of_length. lia.
  - intros x Hx Hxi. destruct (Hof x Hx) as [[H1 H2]|H1].
    + unfold t'. rewrite sub_rest by done. by apply Ht.
    + unfold t'. rewrite sub_block by done. destruct (proj2 Hsok x H1 Hxi) as [B1 B2]. split; [done|]. by apply (deeper media d).
  - intros x. rewrite !leaves_eq, !elem_concat. split.
    + intros (b & Hb & Hx). destruct (Hof b Hb) as [[H1 H2]|H1].
      * rewrite (proj1 (Hrest b H1 H2)) in Hx. by exists b.
      * rewrite (proj1 (Hblock b H1)) in Hx. exists (cd_bref c). split; [apply block_elem|]. unfold leaves_of. rewrite Hi.
        rewrite leaves_eq, elem_concat. by exists b.
    + intros (b & Hb & Hx). destruct (Z.eq_dec (br_key b) k) as [E|Hne].
      * rewrite (vw_key_inj t b (cd_bref c) (proj1 Ht) Hb block_elem E) in Hx. unfold leaves_of in Hx. rewrite Hi, leaves_eq, elem_concat in Hx.
        destruct Hx as (y & Hy & Hx). exists y. split; [apply Hmem; by right|]. by rewrite (proj1 (Hblock y Hy)).
      * exists b. split; [apply Hmem; by left|]. by rewrite (proj1 (Hrest b Hb Hne)).
  - rewrite !(blocks_eq media (S d)), Hsum. rewrite (sum_of_ext (blocks_of media (S d) t') (blocks_of media (S d) t) (del_key k (vw t))).
    + rewrite Hdel, (sum_of_ext (blocks_of media (S d) t') (blocks_of media d s) (vw s)); [|intros x Hx; by apply Hblock].
      unfold blocks_of at 2. rewrite Hi, blocks_eq. lia.
    + intros x Hx. apply del_key_elem in Hx as [H1 H2]. by apply Hrest.
Qed.

Lemma maintain_ok : let b := collapses (t_node t) c (counted_node (t_node s)) in
  exists t', maintain media 0 0 (fun _ => 0) t c = Some (t', b, false) /\ tree_ok media (S (S d)) t' /\ same_head (t_bref t) (t_bref t') /\
    (forall x, x ∈ vw t' -> x ∈ vw t \/ inside (cd_bref c) x) /\
    (forall x, x ∈ leaves media (S (S d)) t' <-> x ∈ leaves media (S (S d)) t) /\
    blocks media (S (S d)) t' = blocks media (S (S d)) t - (if b then 1 else 0).
Proof.
  destruct Hc as [Hcr Ec]. destruct block_below as [[Hh Hin] Hsok]. assert (Htop := proj1 Ht). assert (Hst := proj1 Hsok).
  assert (Hn := tt_node _ Htop). rewrite Ec in Hn. assert (Ev : nview (t_node t) = vw t) by (unfold vw; by rewrite Ec).
  destruct (tt_size _ Htop) as (k1 & E1 & H1). destruct (tt_size _ Hst) as (k2 & E2 & H2).
  assert (2 ^ k1 <= 2 ^ 9 /\ 2 ^ k2 <= 2 ^ 9) as [? ?] by (split; apply Z.pow_le_mono_r; lia).
  assert (R1 := tt_room _ Htop). assert (R2 := tt_room _ Hst).
  destruct (maintenance_ok (t_node t) c (t_node s) Hn (tt_node _ Hst) Hcr (tt_initial _ Htop) (tt_initial _ Hst) Hin)
    as (r & Er & Ehp & Eret & Hr); [rewrite Ev; lia|unfold vw in R2; lia|].
  cbv zeta. unfold maintain. rewrite Er, Ehp. rewrite <- Eret in *. destruct (mt_ret r) eqn:Ed.
  - destruct (collapsed_tree (mt_parent r) Hr) as (T1 & T2 & T3 & T4 & T5).
    { symmetry in Eret. unfold collapses in Eret. apply orb_true_iff in Eret as [Eret|Eret].
      - apply Z.eqb_eq in Eret. unfold vw in *. rewrite Ev in *. unfold vw in *. lia.
      - rewrite !andb_true_iff, !Z.leb_le in Eret. exact (proj2 (proj1 Eret)). }
    eexists. split; [done|]. split; [exact T1|]. split; [exact T2|]. split; [|split; [exact T4|exact T5]].
    intros x Hx. destruct (T3 x Hx) as [[X _]|X]; [by left|right; by apply Hin].
  - destruct Hr as [-> ->].
    assert (Hs1 := same_down media (S d) t (cd_bref c) Ht Hi block_elem).
    assert (Hs2 := same_put media d (without t k) s _ (sm_ok _ _ _ _ Hs1) (counted_top_same media d s Hsok)).
    assert (Hs := same_trans media _ _ _ _ Hs1 Hs2). eexists. split; [done|].
    change (Tree (t_node t) (t_error t) ([Tree (counted_node (t_node s)) (t_error s) (t_subs s)] ++ sub_del k (t_subs t)))
      with (put (without t k) (counted_top s)).
    split; [apply Hs|]. split; [apply Hs|]. split; [intros x Hx; left; by rewrite (sm_vw _ _ _ _ Hs) in Hx|].
    unfold leaves, blocks. rewrite (same_elems _ _ _ _ Hs). split; [done|lia].
Qed.
End Tree.

(** C14: hammer2_chain_indirect_maintenance() loses nothing.  It takes the block away
    exactly when the block is empty, or its elements fit into the slot it leaves
    and the free ones of the parent and fill at most three quarters of it; then
    the elements are in the parent, with the blocks below them.  In both cases
    the leaves of the tree are the same in the same order, the tables keep their
    invariants and statistics, and no panic is reached. *)
Theorem collapse_keeps_leaves media D t up c : cursor_ok media D t up -> has_child t c -> is_indirect (cd_bref c) = true ->
  let s := block_chain media t (cd_bref c) in
  let gone := collapses (t_node t) c (counted_node (t_node s)) in
  exists t', maintain media 0 0 (fun _ => 0) t c = Some (t', gone, false) /\ cursor_ok media D t' up /\
    leaves media D (zip t' up) = leaves media D (zip t up) /\
    blocks media D (zip t' up) = blocks media D (zip t up) - (if gone then 1 else 0).
Proof.
  intros [C1 C2 C3 C4] Hc Hi s gone.
  assert (exists d, D = S d + length up)%nat as [d ED] by (exists (D - S (length up))%nat; lia).
  assert (Hz := C3). rewrite ED in Hz. assert (Hok := zip_ok media up (S d) t C1 Hz).
  assert (Hcv := child_elem t c (proj1 Hok) Hc). destruct d as [|d]; [by destruct (proj2 Hok (cd_bref c) Hcv Hi) as [_ []]|].
  destruct (maintain_ok media d t c Hok Hc Hi) as (t' & Em & T1 & T2 & T3 & T4 & T5). fold s gone in Em, T5.
  destruct (zip_replace media up (S d) t t' C1 Hz T1 T2) as (Z1 & Z2 & A & B & E1 & E2).
  { intros Hne x Hx. destruct (cursor_range media up (S d) t C1 Hz Hne) as (_ & _ & Bin). destruct (T3 x Hx) as [H1|H1]; [by apply Bin|].
    apply (inside_trans _ (cd_bref c)); [|done]. by apply Bin. }
  assert (blocks media D (zip t' up) = blocks media D (zip t up) - (if gone then 1 else 0)) as EB.
  { rewrite ED. unfold blocks in *. rewrite E1, E2, !countb_app. lia. }
  exists t'. split; [done|]. split; [|split; [|done]].
  - split; [done|done|by rewrite ED|]. rewrite EB. assert (X := blocks_nonneg media D (zip t up)). destruct gone; lia.
  - rewrite ED. apply brefs_ok_ext; [by apply leaves_ok|by apply leaves_ok|]. intros x. specialize (T4 x). unfold leaves in *.
    rewrite E1, E2, !List.filter_app, !elem_of_app, T4. done.
Qed.

Lemma collapse_keeps_leaves_witness : exists t c t',
  get_chain (counted_top sample_root) None (tree_block 0 16) = Some (t, c) /\
  maintain sample_media 0 0 (fun _ => 0) t c = Some (t', true, false) /\
  leaves sample_media 3 t' = [tree_dirent 32773; tree_dirent 65536] /\ blocks sample_media 3 t' = 1.
Proof.
  assert (Hs := counted_top_same sample_media 2 sample_root sample_tree_ok).
  destruct (same_get sample_media 2 (counted_top sample_root) (tree_block 0 16)) as (t & c & E & Ec & Hs2 & _ & Hc).
  - apply Hs.
  - reflexivity.
  - apply elem_of_cons. left. reflexivity.
  - assert (He := same_elems _ _ _ _ (same_trans _ _ _ _ _ Hs Hs2)).
    destruct (collapse_keeps_leaves sample_media 3 t [] c) as (t' & Em & _ & El & Eb).
    + split; [|cbn; lia|apply Hs2|cbn [zip]; unfold blocks; rewrite He; vm_compute; reflexivity].
      vm_compute in E. injection E as <- _. reflexivity.
    + exact Hc.
    + rewrite Ec. reflexivity.
    + cbn [zip] in El, Eb. unfold leaves, blocks in *. rewrite He in El, Eb. exists t, c, t'. split; [exact E|].
      vm_compute in E. injection E as <- <-. split; [exact Em|]. split; [exact El|exact Eb].
Defined.
