(* ===== verification/ChainData.v ===== *)
(** The data of a chain (hammer2_chain.c): the check codes, the load of the data
    of a block, its release, and the modification of a chain, with the copy on
    write, the overwrite in place, the deduplication and the error paths of
    hammer2_chain_modify(); and the count of dirty chains of a PFS
    (hammer2_vfsops.c).

    A pointer into a device buffer is the offset of its byte on the device, and
    the bytes that the buffers hold are a function of that offset; whether a buffer
    is dirty is theirs.  [None] is a failed assertion or a null dereference.  The chain is locked exclusively, as
    the code asserts, so a function is one step. *)
From S2P Require Import Prelude Disk Subr BlockTable Freemap Indirect ChainCreate.
From Stdlib Require Import ZArith Lia Bool.
From stdpp Require Import base list gmap.
Import Sizes.
Open Scope Z_scope.

Definition HAMMER2_CHAIN_MODIFIED : Z := 0x00000001.
Definition HAMMER2_CHAIN_DEDUPABLE : Z := 0x00000008.
Definition HAMMER2_CHAIN_NOTTESTED : Z := 0x00000080.
Definition HAMMER2_CHAIN_TESTEDGOOD : Z := 0x00000100.
Definition HAMMER2_CHAIN_ONFLUSH : Z := 0x00000200.
Definition HAMMER2_CHAIN_IOINPROG : Z := 0x00100000.
Definition HAMMER2_CHAIN_IOSIGNAL : Z := 0x00200000.
Definition HAMMER2_MODIFY_OPTDATA : Z := 0x00000002.
Definition HMNT2_EMERG : Z := 0x00000004.
Definition HAMMER2_BREF_FLAG_EMERG_MIP : Z := 0x04.
Definition HAMMER2_RESOLVE_NEVER : Z := 1.
Definition HAMMER2_RESOLVE_MAYBE : Z := 2.
Definition HAMMER2_RESOLVE_MASK : Z := 0x0F.
Definition HAMMER2_DIRTYCHAIN_WAITING : Z := 0x80000000.
Definition HAMMER2_DIRTYCHAIN_MASK : Z := 0x7FFFFFFF.
Definition HAMMER2_CHECK_DISABLED : Z := 1.
Definition HAMMER2_CHECK_ISCSI32 : Z := 2.
Definition HAMMER2_CHECK_XXHASH64 : Z := 3.
Definition HAMMER2_CHECK_SHA192 : Z := 4.
Definition HAMMER2_CHECK_FREEMAP : Z := 5.

(** ** The chain *)

(** [chain->data]: embedded in the chain's device structure, or in a buffer. *)
Inductive dptr := Embedded | At (off : Z).

#[export] Instance dptr_eq_dec : EqDecision dptr.
Proof. solve_decision. Defined.

(** The fields of [struct hammer2_chain] that the functions here use.
    [ch_root]: the chain is the vchain or the fchain of the device. *)
Record hammer2_chain := mkChain {
  ch_bref : hammer2_blockref;
  ch_flags : Z;
  ch_bytes : Z;
  ch_error : Z;
  ch_data : option dptr;
  ch_dio : bool;             (* chain->dio is not NULL *)
  ch_root : bool
}.

Definition ch_with_bref (c : hammer2_chain) (b : hammer2_blockref) : hammer2_chain :=
  mkChain b (ch_flags c) (ch_bytes c) (ch_error c) (ch_data c) (ch_dio c) (ch_root c).
Definition ch_with_flags (c : hammer2_chain) (f : Z) : hammer2_chain :=
  mkChain (ch_bref c) f (ch_bytes c) (ch_error c) (ch_data c) (ch_dio c) (ch_root c).
Definition ch_set (c : hammer2_chain) (f : Z) : hammer2_chain := ch_with_flags c (ch_flags c ||| f).
Definition ch_clear (c : hammer2_chain) (f : Z) : hammer2_chain := ch_with_flags c (ch_flags c &~ f).
Definition ch_with_bytes (c : hammer2_chain) (n : Z) : hammer2_chain :=
  mkChain (ch_bref c) (ch_flags c) n (ch_error c) (ch_data c) (ch_dio c) (ch_root c).
Definition ch_with_error (c : hammer2_chain) (e : Z) : hammer2_chain :=
  mkChain (ch_bref c) (ch_flags c) (ch_bytes c) e (ch_data c) (ch_dio c) (ch_root c).
Definition ch_with_data (c : hammer2_chain) (p : option dptr) (dio : bool) : hammer2_chain :=
  mkChain (ch_bref c) (ch_flags c) (ch_bytes c) (ch_error c) p dio (ch_root c).

Definition ch_type (c : hammer2_chain) : Z := br_type (ch_bref c).
(** [chain->bref.data_off & ~HAMMER2_OFF_MASK_RADIX]. *)
Definition ch_off (c : hammer2_chain) : Z := br_data_off (ch_bref c) &~ HAMMER2_OFF_MASK_RADIX.

Definition bref_with_flags (b : hammer2_blockref) (f : Z) : hammer2_blockref :=
  mkBref (br_type b) (br_methods b) (br_copyid b) (br_keybits b) (br_vradix b) f (br_leaf_count b) (br_key b)
    (br_mirror_tid b) (br_modify_tid b) (br_data_off b) (br_update_tid b) (br_data_count b) (br_inode_count b)
    (br_check b).
Definition bref_with_tids (b : hammer2_blockref) (mirror modify : Z) : hammer2_blockref :=
  mkBref (br_type b) (br_methods b) (br_copyid b) (br_keybits b) (br_vradix b) (br_flags b) (br_leaf_count b)
    (br_key b) mirror modify (br_data_off b) (br_update_tid b) (br_data_count b) (br_inode_count b) (br_check b).
Definition bref_with_check (b : hammer2_blockref) (check : Z) : hammer2_blockref :=
  mkBref (br_type b) (br_methods b) (br_copyid b) (br_keybits b) (br_vradix b) (br_flags b) (br_leaf_count b)
    (br_key b) (br_mirror_tid b) (br_modify_tid b) (br_data_off b) (br_update_tid b) (br_data_count b)
    (br_inode_count b) check.

(** ** Device memory *)

Definition bzero (m : Z -> Z) (off n : Z) : Z -> Z := fun x => if (off <=? x) && (x <? off + n) then 0 else m x.
Definition bcopy (m : Z -> Z) (src dst n : Z) : Z -> Z :=
  fun x => if (dst <=? x) && (x <? dst + n) then m (src + (x - dst)) else m x.
Definition read_bytes (m : Z -> Z) (off n : Z) : list Z := map (fun i => m (off + i)) (seqZ 0 n).

(** ** The dirty chains of a PFS *)

(** The fields of [hammer2_pfs_t] in use; [pf_wakeups] counts the wakeups of
    [memory_cv]. *)
Record pfs := mkPfs {
  pf_inmem_dirty_chains : Z;        (* uint32_t *)
  pf_sideq_count : Z;
  pf_lsnap_tid : Z;                 (* iroot->meta.pfs_lsnap_tid *)
  pf_wakeups : Z
}.

Definition hammer2_pfs_memory_inc (p : option pfs) : option pfs :=
  match p with
  | None => None
  | Some p => Some (mkPfs (u32 (pf_inmem_dirty_chains p + 1)) (pf_sideq_count p) (pf_lsnap_tid p) (pf_wakeups p))
  end.

(** The two limits hammer2_limit_dirty_chains and hammer2_limit_dirty_inodes. *)
Definition hammer2_pfs_memory_wakeup (limit_chains limit_inodes : Z) (p : option pfs) (count : Z) : option pfs :=
  match p with
  | None => None
  | Some p =>
      let waiting := pf_inmem_dirty_chains p in
      let now := u32 (waiting + count) in
      if has waiting HAMMER2_DIRTYCHAIN_WAITING &&
         ((now & HAMMER2_DIRTYCHAIN_MASK) <=? Z.quot (limit_chains * 2) 3) &&
         (pf_sideq_count p <=? Z.quot (limit_inodes * 2) 3)
      then Some (mkPfs (now &~ HAMMER2_DIRTYCHAIN_WAITING) (pf_sideq_count p) (pf_lsnap_tid p) (pf_wakeups p + 1))
      else Some (mkPfs now (pf_sideq_count p) (pf_lsnap_tid p) (pf_wakeups p))
  end.

(** ** Check codes *)

(** [check.iscsi32.value] and [check.freemap.icrc32] are the first 4 bytes of
    the union, [check.xxhash64.value] its first 8, [check.sha192.data] its first
    24; [w] bits in all. *)
Definition check_get (w check : Z) : Z := check mod 2 ^ w.
Definition check_put (w check v : Z) : Z := (check - check mod 2 ^ w) + v mod 2 ^ w.

(** [u.digest64[2] ^= u.digest64[3]], then the first 24 bytes. *)
Definition sha192_fold (digest : Z) : Z :=
  digest mod 2 ^ 128 + 2 ^ 128 * Z.lxor (Z.shiftr digest 128 mod 2 ^ 64) (Z.shiftr digest 192 mod 2 ^ 64).

(** The hash functions the kernel provides, on the bytes of a block. *)
Record hashes := mkHashes {
  hammer2_icrc32 : list Z -> Z;
  XXH64 : list Z -> Z;
  SHA256 : list Z -> Z              (* the 32 bytes as a number *)
}.

Section Check.
Context (h : hashes).

(** The bytes of the check union a method uses, in bits, and what they have to
    be for the data. *)
Definition check_code (method : Z) (data : list Z) : option (Z * Z) :=
  if (method =? HAMMER2_CHECK_ISCSI32) || (method =? HAMMER2_CHECK_FREEMAP) then Some (32, hammer2_icrc32 h data)
  else if method =? HAMMER2_CHECK_XXHASH64 then Some (64, XXH64 h data)
  else if method =? HAMMER2_CHECK_SHA192 then Some (192, sha192_fold (SHA256 h data))
  else None.

Definition no_code (method : Z) : bool := (method =? HAMMER2_CHECK_NONE) || (method =? HAMMER2_CHECK_DISABLED).

(** The chain, and whether hpanic() was called. *)
Definition hammer2_chain_setcheck (c : hammer2_chain) (data : list Z) : hammer2_chain * bool :=
  let c := ch_clear c HAMMER2_CHAIN_NOTTESTED in
  let method := HAMMER2_DEC_CHECK (br_methods (ch_bref c)) in
  if no_code method then (c, false)
  else
    match check_code method data with
    | Some (w, v) => (ch_with_bref c (bref_with_check (ch_bref c) (check_put w (br_check (ch_bref c)) v)), false)
    | None => (c, true)
    end.

Definition hammer2_chain_testcheck (c : hammer2_chain) (data : list Z) : bool :=
  if has (ch_flags c) HAMMER2_CHAIN_NOTTESTED then true
  else
    let method := HAMMER2_DEC_CHECK (br_methods (ch_bref c)) in
    if no_code method then true
    else
      match check_code method data with
      | Some (w, v) => check_get w (br_check (ch_bref c)) =? v
      | None => false
      end.
End Check.

(** ** The device *)

(** What the modification of chains uses of [hammer2_dev_t], with the PFS of the
    chain; [w_tick] counts the buffers asked for. *)
Record world := mkWorld {
  w_fm : Alloc.fm_dev;
  w_mem : Z -> Z;
  w_hflags : Z;
  w_mirror_tid : Z;                 (* voldata.mirror_tid *)
  w_chain_modified : Z;             (* hammer2_count_chain_modified, int *)
  w_pmp : option pfs;
  w_hpanic : bool;                  (* hpanic() was called *)
  w_tick : nat
}.

Definition w_with_fm (w : world) (d : Alloc.fm_dev) : world :=
  mkWorld d (w_mem w) (w_hflags w) (w_mirror_tid w) (w_chain_modified w) (w_pmp w) (w_hpanic w) (w_tick w).
Definition w_with_mem (w : world) (m : Z -> Z) : world :=
  mkWorld (w_fm w) m (w_hflags w) (w_mirror_tid w) (w_chain_modified w) (w_pmp w) (w_hpanic w) (w_tick w).
Definition w_with_counts (w : world) (n : Z) (p : option pfs) : world :=
  mkWorld (w_fm w) (w_mem w) (w_hflags w) (w_mirror_tid w) n p (w_hpanic w) (w_tick w).
Definition w_with_hpanic (w : world) : world :=
  mkWorld (w_fm w) (w_mem w) (w_hflags w) (w_mirror_tid w) (w_chain_modified w) (w_pmp w) true (w_tick w).
Definition w_next (w : world) : world :=
  mkWorld (w_fm w) (w_mem w) (w_hflags w) (w_mirror_tid w) (w_chain_modified w) (w_pmp w) (w_hpanic w)
    (S (w_tick w)).

(** A chain above: the type and the flags of it. *)
Record ancestor := mkAncestor { an_type : Z; an_flags : Z }.

(** hammer2_chain_setflush() on a chain with the chains above it. *)
Fixpoint hammer2_chain_setflush (up : list ancestor) : list ancestor :=
  match up with
  | [] => []
  | a :: up =>
      if has (an_flags a) HAMMER2_CHAIN_ONFLUSH then a :: up
      else
        mkAncestor (an_type a) (an_flags a ||| HAMMER2_CHAIN_ONFLUSH) ::
        (if an_type a =? HAMMER2_BREF_TYPE_INODE then up else hammer2_chain_setflush up)
  end.

Section Data.
(** The errors of the chain layer in the freemap, the hash functions, the
    volumes of the device, the errors of its buffers, and the two limits. *)
Context (io : Alloc.chain_io) (h : hashes) (volume : Z -> bool) (buf_error : nat -> Z -> Z)
  (limit_chains limit_inodes : Z).

(** ** Buffers *)

Inductive dop := DOP_READ | DOP_NEW.

(** What hammer2_io_alloc() refuses, with hpanic(). *)
Definition io_legal (data_off : Z) : bool :=
  let radix := data_off & HAMMER2_OFF_MASK_RADIX in
  let lsize := if nz radix then Z.shiftl 1 radix else 0 in
  let lbase := data_off &~ HAMMER2_OFF_MASK_RADIX in
  let pbase := lbase &~ HAMMER2_PBUFMASK in
  nz pbase && ((lbase + lsize - 1) &~ HAMMER2_PBUFMASK =? pbase) && volume pbase.

(** hammer2_io_new() and hammer2_io_bread() on a device with media: the world,
    whether there is a dio, and the error. *)
Definition io_getblk (w : world) (op : dop) (data_off lsize : Z) : option (world * bool * Z) :=
  if negb (Z.shiftl 1 (data_off & HAMMER2_OFF_MASK_RADIX) =? lsize) then None
  else if negb (io_legal data_off) then Some (w_with_hpanic w, false, HAMMER2_ERROR_EIO)
  else
    let lbase := data_off &~ HAMMER2_OFF_MASK_RADIX in
    let error := buf_error (w_tick w) lbase in
    let w := w_next w in
    if nz error then Some (w, true, error)
    else Some (match op with DOP_READ => w | DOP_NEW => w_with_mem w (bzero (w_mem w) lbase lsize) end, true, 0).

(** hammer2_io_brelse() and hammer2_io_bqrelse(), which do not test for NULL. *)
Definition brelse {A : Type} (dio : bool) (k : A) : option A := if dio then Some k else None.

(** ** Loading *)

(** A new block is not tested, nor is one that was modified since. *)
Definition load_test (w : world) (c : hammer2_chain) : hammer2_chain :=
  if has (ch_flags c) HAMMER2_CHAIN_INITIAL then ch_set (ch_clear c HAMMER2_CHAIN_INITIAL) HAMMER2_CHAIN_NOTTESTED
  else if has (ch_flags c) HAMMER2_CHAIN_MODIFIED then c
  else if has (ch_flags c) HAMMER2_CHAIN_TESTEDGOOD then c
  else if hammer2_chain_testcheck h c (read_bytes (w_mem w) (ch_off c) (ch_bytes c))
  then ch_set c HAMMER2_CHAIN_TESTEDGOOD
  else ch_with_error c HAMMER2_ERROR_CHECK.

(** The chain owns HAMMER2_CHAIN_IOINPROG in between. *)
Definition hammer2_chain_load_data (w : world) (c : hammer2_chain) : option (world * hammer2_chain) :=
  match ch_data c with
  | Some _ => Some (w, c)
  | None =>
      if ch_off c =? 0 then Some (w, c)
      else
        let initial := has (ch_flags c) HAMMER2_CHAIN_INITIAL in
        let done c := ch_clear c (HAMMER2_CHAIN_IOINPROG ||| HAMMER2_CHAIN_IOSIGNAL) in
        '(w, dio, error) ← io_getblk w (if initial then DOP_NEW else DOP_READ) (br_data_off (ch_bref c)) (ch_bytes c);
        if nz error then
          brelse dio (w, done (ch_with_data (ch_with_error c HAMMER2_ERROR_EIO) None false))
        else
          let c := ch_with_data (ch_with_error c 0) None true in
          let bdata := ch_off c in
          let c := load_test w c in
          if (ch_type c =? HAMMER2_BREF_TYPE_VOLUME) || (ch_type c =? HAMMER2_BREF_TYPE_FREEMAP)
          then Some (w_with_hpanic w, done (ch_with_data (ch_with_error c HAMMER2_ERROR_EIO) None false))
          else if (ch_type c =? HAMMER2_BREF_TYPE_DIRENT) && (ch_bytes c =? 0) then None
          else Some (w, done (ch_with_data c (Some (At bdata)) true))
  end.

(** The end of hammer2_chain_lock(), once the lock is held. *)
Definition lock_resolve (w : world) (c : hammer2_chain) (how : Z) : option (world * hammer2_chain) :=
  match ch_data c with
  | Some _ => Some (w, c)
  | None =>
      let r := how & HAMMER2_RESOLVE_MASK in
      if r =? HAMMER2_RESOLVE_NEVER then Some (w, c)
      else if (r =? HAMMER2_RESOLVE_MAYBE) &&
              (has (ch_flags c) HAMMER2_CHAIN_INITIAL || (ch_type c =? HAMMER2_BREF_TYPE_DATA))
      then Some (w, c)
      else hammer2_chain_load_data w c
  end.

(** On last lock release, with the release of the dio in hammer2_chain_unlock(). *)
Definition hammer2_chain_drop_data (w : world) (c : hammer2_chain) : world * hammer2_chain :=
  if ch_dio c then (w, ch_with_data c None false)
  else if (ch_type c =? HAMMER2_BREF_TYPE_VOLUME) || (ch_type c =? HAMMER2_BREF_TYPE_FREEMAP) then (w, c)
  else match ch_data c with Some _ => (w_with_hpanic w, c) | None => (w, c) end.

(** ** Modification *)

(** Whether a chain that was not modified may be overwritten in place. *)
Definition overwrite (w : world) (c : hammer2_chain) : bool :=
  match w_pmp w with
  | None => false
  | Some p =>
      (pf_lsnap_tid p <? br_modify_tid (ch_bref c)) &&
      ((((ch_type c =? HAMMER2_BREF_TYPE_DATA) || (ch_type c =? HAMMER2_BREF_TYPE_DIRENT)) &&
        negb (has (ch_flags c) HAMMER2_CHAIN_INITIAL) && negb (has (ch_flags c) HAMMER2_CHAIN_DEDUPABLE) &&
        (HAMMER2_DEC_CHECK (br_methods (ch_bref c)) =? HAMMER2_CHECK_NONE)) ||
       has (w_hflags w) HMNT2_EMERG)
  end.

(** MODIFIED and UPDATE; [newmod], [setmodified] and [setupdate] of the source. *)
Definition modify_flags (w : world) (c : hammer2_chain) : world * hammer2_chain * (bool * bool * bool) :=
  let '(w, c, newmod, setmodified) :=
    if negb (has (ch_flags c) HAMMER2_CHAIN_MODIFIED) then
      (w_with_counts w (i32 (w_chain_modified w + 1)) (hammer2_pfs_memory_inc (w_pmp w)),
       ch_set c HAMMER2_CHAIN_MODIFIED, negb (overwrite w c), true)
    else (w, c, has (ch_flags c) HAMMER2_CHAIN_DEDUPABLE, false) in
  let setupdate := negb (has (ch_flags c) HAMMER2_CHAIN_UPDATE) in
  (w, if setupdate then ch_set c HAMMER2_CHAIN_UPDATE else c, (newmod, setmodified, setupdate)).

(** The storage the caller asked for with [dedup_off]. *)
Definition modify_dedup (w : world) (c : hammer2_chain) (dedup_off : Z) : world * hammer2_chain :=
  let radix := dedup_off & HAMMER2_OFF_MASK_RADIX in
  let c := ch_with_bref c (bref_set_data_off (ch_bref c) dedup_off) in
  let c := ch_with_error (ch_with_bytes c (if nz radix then Z.shiftl 1 radix else 0)) 0 in
  let c := ch_clear c HAMMER2_CHAIN_MODIFIED in
  let w := w_with_counts w (i32 (w_chain_modified w - 1))
             (hammer2_pfs_memory_wakeup limit_chains limit_inodes (w_pmp w) (-1)) in
  (w_with_fm w (Alloc.hammer2_freemap_adjust io (w_fm w) (ch_bref c)), ch_set c HAMMER2_CHAIN_DEDUPABLE).

(** New storage, or in emergency mode the old storage again; the error. *)
Definition modify_alloc (w : world) (c : hammer2_chain) : option (world * hammer2_chain * Z) :=
  '(d, bref, error) ← Alloc.hammer2_freemap_alloc io (w_fm w) (ch_bref c) (ch_bytes c);
  let w := w_with_fm w d in
  let c := ch_clear (ch_with_bref c bref) HAMMER2_CHAIN_DEDUPABLE in
  if nz error && has (w_hflags w) HMNT2_EMERG then
    Some (w, ch_with_bref c (bref_with_flags bref (br_flags bref ||| HAMMER2_BREF_FLAG_EMERG_MIP)), 0)
  else if error =? 0 then
    Some (w, ch_with_bref c (bref_with_flags bref (br_flags bref &~ HAMMER2_BREF_FLAG_EMERG_MIP)), 0)
  else Some (w, c, error).

Definition modify_storage (w : world) (c : hammer2_chain) (dedup_off : Z) (newmod : bool)
    : option (world * hammer2_chain * Z) :=
  if negb (ch_root c) && nz (ch_bytes c) && ((ch_off c =? 0) || newmod) then
    if nz dedup_off then let '(w, c) := modify_dedup w c dedup_off in Some (w, c, 0)
    else modify_alloc w c
  else Some (w, c, 0).

(** The flags are taken back where the storage could not be had. *)
Definition modify_undo (w : world) (c : hammer2_chain) (setmodified setupdate : bool) : world * hammer2_chain :=
  let '(w, c) :=
    if setmodified then (w_with_counts w (i32 (w_chain_modified w - 1)) (w_pmp w), ch_clear c HAMMER2_CHAIN_MODIFIED)
    else (w, c) in
  (w, if setupdate then ch_clear c HAMMER2_CHAIN_UPDATE else c).

(** The types whose data is in a buffer. *)
Definition buffered (type : Z) : bool :=
  (type =? HAMMER2_BREF_TYPE_DIRENT) || (type =? HAMMER2_BREF_TYPE_INODE) || (type =? HAMMER2_BREF_TYPE_FREEMAP_LEAF) ||
  (type =? HAMMER2_BREF_TYPE_DATA) || (type =? HAMMER2_BREF_TYPE_INDIRECT) || (type =? HAMMER2_BREF_TYPE_FREEMAP_NODE).

(** The chain without a buffer, after an error: both dios are released. *)
Definition modify_fault (w : world) (c : hammer2_chain) (dio : bool) : option (world * hammer2_chain) :=
  brelse (dio && ch_dio c) (w, ch_with_data (ch_with_error c HAMMER2_ERROR_EIO) None false).

(** The new buffer, filled by hammer2_io_new() or with a copy of the old one.
    Data that is not in a buffer has no dio. *)
Definition modify_copy (w : world) (c : hammer2_chain) (dedup_off : Z) (wasinitial : bool)
    : option (world * hammer2_chain) :=
  if ch_root c then None
  else
    '(w, dio, error) ←
      io_getblk w (if wasinitial && (dedup_off =? 0) then DOP_NEW else DOP_READ) (br_data_off (ch_bref c)) (ch_bytes c);
    if nz error then modify_fault w c dio
    else
      let c := ch_with_error c 0 in
      let bdata := ch_off c in
      match ch_data c with
      | Some (At off) =>
          if negb (ch_dio c) then None
          else
            let w := if negb (off =? bdata) && (dedup_off =? 0)
                     then w_with_mem w (bcopy (w_mem w) off bdata (ch_bytes c)) else w in
            Some (w, ch_with_data c (Some (At bdata)) true)
      | Some Embedded => None
      | None =>
          if negb wasinitial && (dedup_off =? 0) then modify_fault (w_with_hpanic w) c dio
          else Some (w, ch_with_data c (Some (At bdata)) true)
      end.

(** The data buffer, by type. *)
Definition modify_buffer (w : world) (c : hammer2_chain) (dedup_off : Z) : option (world * hammer2_chain) :=
  let wasinitial := has (ch_flags c) HAMMER2_CHAIN_INITIAL in
  let c := if wasinitial then ch_clear c HAMMER2_CHAIN_INITIAL else c in
  let type := ch_type c in
  if (type =? HAMMER2_BREF_TYPE_VOLUME) || (type =? HAMMER2_BREF_TYPE_FREEMAP) ||
     ((type =? HAMMER2_BREF_TYPE_DIRENT) && (ch_bytes c =? 0))
  then if ch_dio c then None else Some (w, c)
  else if buffered type then modify_copy w c dedup_off wasinitial
  else Some (w_with_hpanic w, ch_with_error c HAMMER2_ERROR_EIO).

(** The transaction ids, and the note for the table of the parent. *)
Definition modify_stamp (w : world) (c : hammer2_chain) (mtid : Z) : hammer2_chain :=
  let b := ch_bref c in
  let c := ch_with_bref c
    (bref_with_tids b (u64 (w_mirror_tid w + 1)) (if nz mtid then mtid else br_modify_tid b)) in
  if has (ch_flags c) HAMMER2_CHAIN_BLKMAPPED then ch_set c HAMMER2_CHAIN_BLKMAPUPD else c.

(** File data whose caller does not need a buffer. *)
Definition modify_skip (c : hammer2_chain) (dedup_off flags : Z) : bool :=
  (ch_type c =? HAMMER2_BREF_TYPE_DATA) && has flags HAMMER2_MODIFY_OPTDATA && bool_decide (ch_data c = None) &&
  (dedup_off =? 0).

(** Once the storage is there. *)
Definition modify_finish (w : world) (up : list ancestor) (c : hammer2_chain) (mtid dedup_off flags : Z)
    : option (world * list ancestor * hammer2_chain * Z) :=
  let c := modify_stamp w c mtid in
  '(w, c) ← (if modify_skip c dedup_off flags then if ch_dio c then None else Some (w, c)
             else modify_buffer w c dedup_off);
  Some (w, hammer2_chain_setflush up, c, ch_error c).

Definition hammer2_chain_modify (w : world) (up : list ancestor) (c : hammer2_chain) (mtid dedup_off flags : Z)
    : option (world * list ancestor * hammer2_chain * Z) :=
  if ((ch_type c =? HAMMER2_BREF_TYPE_FREEMAP_NODE) || (ch_type c =? HAMMER2_BREF_TYPE_FREEMAP_LEAF)) &&
     negb (has (ch_flags c) HAMMER2_CHAIN_INITIAL) && has flags HAMMER2_MODIFY_OPTDATA
  then None
  else
    let load := match ch_data c with
                | None => nz (ch_bytes c) && negb (has flags HAMMER2_MODIFY_OPTDATA) && nz (ch_off c)
                | Some _ => false
                end in
    '(w, c) ← (if load then hammer2_chain_load_data w c else Some (w, c));
    if load && nz (ch_error c) then Some (w, up, c, ch_error c)
    else
      let '(w, c, (newmod, setmodified, setupdate)) := modify_flags w c in
      '(w, c, error) ← modify_storage w c dedup_off newmod;
      if nz error then let '(w, c) := modify_undo w c setmodified setupdate in Some (w, up, c, error)
      else modify_finish w up c mtid dedup_off flags.

(** Only data, indirect blocks and directory entries have a size to change. *)
Definition hammer2_chain_resize (w : world) (up : list ancestor) (c : hammer2_chain) (mtid dedup_off nradix : Z)
    : option (world * list ancestor * hammer2_chain * Z) :=
  if ch_root c || negb ((ch_type c =? HAMMER2_BREF_TYPE_DATA) || (ch_type c =? HAMMER2_BREF_TYPE_INDIRECT) ||
                        (ch_type c =? HAMMER2_BREF_TYPE_DIRENT))
  then None
  else
    let nbytes := if nz nradix then Z.shiftl 1 nradix else 0 in
    if ch_bytes c =? nbytes then Some (w, up, c, ch_error c)
    else
      '(w, up, c, error) ← hammer2_chain_modify w up c mtid dedup_off 0;
      if nz error then Some (w, up, c, error)
      else
        '(d, bref, error) ← Alloc.hammer2_freemap_alloc io (w_fm w) (ch_bref c) nbytes;
        let w := w_with_fm w d in
        let c := ch_with_bref c bref in
        if nz error then Some (w, up, c, error)
        else
          let c := ch_with_bytes c nbytes in
          if ch_dio c then
            if (ch_type c =? HAMMER2_BREF_TYPE_DATA) || (ch_type c =? HAMMER2_BREF_TYPE_DIRENT)
            then let c := ch_with_data c None false in Some (w, up, c, ch_error c)
            else None
          else Some (w, up, c, ch_error c).

End Data.
