(* ===== verification/ChainDataProof.v ===== *)
(** Theorems on the data of chains: the check codes are set and tested alike; the
    copy on write of hammer2_chain_modify() keeps the data of the chain and never
    writes to a block that is committed or registered for deduplication; and what
    its error paths leave behind. *)
From S2P Require Import Prelude Disk Subr Bmap Freemap FreemapProof BlockTable Indirect ChainCreate ChainData.
From Stdlib Require Import ZArith Lia Bool.
From stdpp Require Import base list gmap.
Import Sizes Alloc.
Open Scope Z_scope.

(** The fields of a chain, a block reference and a world after updates. *)
Ltac chsimpl := cbn [ch_set ch_clear ch_with_bref ch_with_flags ch_with_bytes ch_with_error ch_with_data ch_bref
  ch_flags ch_bytes ch_error ch_data ch_dio ch_root bref_with_flags bref_with_tids bref_with_check bref_set_data_off
  br_type br_methods br_key br_flags br_data_off br_modify_tid br_mirror_tid br_check w_with_fm w_with_mem w_with_counts
  w_with_hpanic w_next w_fm w_mem w_hflags w_mirror_tid w_chain_modified w_pmp w_hpanic w_tick] in *.

(** Flags after updates, with the tests of constants computed. *)
Ltac flagb := hasflags; repeat match goal with
  | |- context [has ?a ?b] =>
      let v := eval vm_compute in (has a b) in
      match v with true => change (has a b) with true | false => change (has a b) with false end
  end; rewrite ?orb_true_r, ?orb_false_r.

(** ** Check codes *)

Definition hashes_ok (h : hashes) : Prop :=
  forall data, is_u32 (hammer2_icrc32 h data) /\ is_u64 (XXH64 h data).

Lemma check_get_put w check v : 0 <= w -> check_get w (check_put w check v) = v mod 2 ^ w.
Proof.
  intros Hw. unfold check_get, check_put. assert (0 < 2 ^ w) by (apply Z.pow_pos_nonneg; lia).
  replace (check - check mod 2 ^ w) with (check / 2 ^ w * 2 ^ w)
    by (pose proof (Z.div_mod check (2 ^ w)); lia).
  by rewrite Z.add_comm, Z.mod_add, Z.mod_mod by lia.
Qed.

(** The bytes past the check code, with the hints of a freemap block, stay. *)
Lemma check_put_rest w check v : 0 <= w -> check_put w check v / 2 ^ w = check / 2 ^ w.
Proof.
  intros Hw. unfold check_put. assert (0 < 2 ^ w) by (apply Z.pow_pos_nonneg; lia).
  replace (check - check mod 2 ^ w) with (check / 2 ^ w * 2 ^ w)
    by (pose proof (Z.div_mod check (2 ^ w)); lia).
  rewrite Z.add_comm, Z.div_add, Z.div_small by (lia || by apply Z.mod_pos_bound). done.
Qed.

Lemma sha192_fold_range d : 0 <= sha192_fold d < 2 ^ 192.
Proof.
  unfold sha192_fold.
  assert (H0 : 0 <= d mod 2 ^ 128 < 2 ^ 128) by (apply Z.mod_pos_bound; lia).
  set (a := Z.shiftr d 128 mod 2 ^ 64). set (b := Z.shiftr d 192 mod 2 ^ 64).
  assert (Ha : is_u64 a) by (apply Z.mod_pos_bound; lia). assert (Hb : is_u64 b) by (apply Z.mod_pos_bound; lia).
  assert (Hx : is_u64 (Z.lxor a b)).
  { apply is_u64_bits; [|apply Z.lxor_nonneg; unfold is_u64 in *; lia].
    intros n Hn. rewrite Z.lxor_spec, !u64_testbit_high by done. done. }
  unfold is_u64 in Hx. replace (2 ^ 192) with (2 ^ 128 * 2 ^ 64) by done. nia.
Qed.

Lemma check_code_range h method data w v : hashes_ok h -> check_code h method data = Some (w, v) ->
  0 <= w /\ 0 <= v < 2 ^ w.
Proof.
  intros Hh. unfold check_code. destruct (Hh data) as [H1 H2].
  destruct (_ || _); [intros [= <- <-]; split; [done|exact H1]|].
  destruct (_ =? _); [intros [= <- <-]; split; [done|exact H2]|].
  destruct (_ =? _); [|done]. intros [= <- <-]. split; [done|apply sha192_fold_range].
Qed.

Lemma check_code_width h method data data' w v : check_code h method data = Some (w, v) ->
  exists v', check_code h method data' = Some (w, v').
Proof.
  unfold check_code. destruct (_ || _); [intros [= <- <-]; eauto|].
  destruct (_ =? _); [intros [= <- <-]; eauto|]. destruct (_ =? _); [|done]. intros [= <- <-]. eauto.
Qed.

Lemma check_code_some h method data : 0 <= method <= HAMMER2_CHECK_FREEMAP -> no_code method = false ->
  is_Some (check_code h method data).
Proof.
  unfold HAMMER2_CHECK_FREEMAP. intros Hm. assert (method = 0 \/ method = 1 \/ method = 2 \/ method = 3 \/ method = 4 \/
    method = 5) as [->|[->|[->|[->|[->| ->]]]]] by lia; cbn; eauto; done.
Qed.

(** the check code that hammer2_chain_setcheck() stores passes
    hammer2_chain_testcheck() on the same data, and on other data exactly where
    the method has no code or the hash is the same; the bytes of the check
    union past the code, with the hints of a freemap block, and everything else
    in the block reference stay. *)
Theorem setcheck_testcheck h c data : hashes_ok h ->
  HAMMER2_DEC_CHECK (br_methods (ch_bref c)) <= HAMMER2_CHECK_FREEMAP ->
  let method := HAMMER2_DEC_CHECK (br_methods (ch_bref c)) in
  exists c', hammer2_chain_setcheck h c data = (c', false) /\
    hammer2_chain_testcheck h c' data = true /\
    (forall data', hammer2_chain_testcheck h c' data' = true <->
       no_code method = true \/ check_code h method data' = check_code h method data) /\
    (forall w v, check_code h method data = Some (w, v) -> no_code method = false ->
       br_check (ch_bref c') / 2 ^ w = br_check (ch_bref c) / 2 ^ w) /\
    bref_with_check (ch_bref c') 0 = bref_with_check (ch_bref c) 0.
Proof.
  intros Hh Hm method.
  assert (Hm' : 0 <= method <= HAMMER2_CHECK_FREEMAP)
    by (split; [|exact Hm]; apply Z.land_nonneg; by right).
  enough (Hx : exists c', hammer2_chain_setcheck h c data = (c', false) /\
    (forall data', hammer2_chain_testcheck h c' data' = true <->
       no_code method = true \/ check_code h method data' = check_code h method data) /\
    (forall w v, check_code h method data = Some (w, v) -> no_code method = false ->
       br_check (ch_bref c') / 2 ^ w = br_check (ch_bref c) / 2 ^ w) /\
    bref_with_check (ch_bref c') 0 = bref_with_check (ch_bref c) 0).
  { destruct Hx as (c' & E & H1 & H2 & H3). exists c'. split_and!; try done. apply H1. by right. }
  unfold hammer2_chain_setcheck, hammer2_chain_testcheck. chsimpl. fold method.
  destruct (no_code method) eqn:En.
  { eexists. split; [done|]. split_and!; [|done..]. intros data'. chsimpl. fold method.
    rewrite has_clear, En by done. split; [by left|done]. }
  destruct (check_code_some h method data Hm' En) as [[w v] Ec]. rewrite Ec.
  destruct (check_code_range h method data w v Hh Ec) as [Hw Hv].
  eexists. split; [done|]. chsimpl.
  fold method. split_and!; [|intros w' v' [= <- <-] _; by apply check_put_rest|done].
  intros data'. rewrite has_clear, En by done.
  destruct (check_code_width h method data data' w v Ec) as [v' Ec']. rewrite Ec', check_get_put, Z.mod_small by done.
  rewrite Z.eqb_eq. split; [intros ->; by right|]. intros [|[= ->]]; done.
Qed.

Lemma setcheck_testcheck_witness :
  let h := mkHashes (fun l => u32 (hd 0 l)) (fun l => u64 (hd 0 l)) (hd 0) in
  let c := mkChain (mkBref HAMMER2_BREF_TYPE_INODE 48 0 0 0 0 0 0 0 0 0 0 0 0 0) 0 1024 0 None false false in
  exists c', hammer2_chain_setcheck h c [1; 2; 3] = (c', false) /\ hammer2_chain_testcheck h c' [1; 2; 3] = true /\
    hammer2_chain_testcheck h c' [4; 2; 3] = false.
Proof.
  intros h c. destruct (setcheck_testcheck h c [1; 2; 3]) as (c' & E1 & E2 & E3 & _).
  - intros data. split; [apply u32_range|apply u64_range].
  - vm_compute. congruence.
  - exists c'. split; [exact E1|]. split; [exact E2|].
    destruct (hammer2_chain_testcheck h c' [4; 2; 3]) eqn:E; [|reflexivity].
    apply E3 in E as [E|E]; vm_compute in E; discriminate.
Defined.

(** ** Storage *)

Definition inside (e : Z * Z) (x : Z) : Prop := e.1 <= x < e.1 + e.2.

#[export] Instance inside_dec e x : Decision (inside e x).
Proof. unfold inside. apply _. Defined.

Lemma sep_sym e1 e2 : sep e1 e2 -> sep e2 e1.
Proof. unfold sep. lia. Qed.

Lemma sep_inside e1 e2 x : sep e1 e2 -> inside e1 x -> inside e2 x -> False.
Proof. unfold sep, inside. lia. Qed.

(** The freemap with the extents handed out. *)
Record space (d : fm_dev) (total : Z) (G : list (Z * Z)) : Prop := {
  sp_total : hd_total_size d = total;
  sp_geometry : geometry d;
  sp_heur : heur_ok d;
  sp_inv : fm_inv (hd_allocator_beg d) total True (hd_leaves d) G
}.

Lemma data_off_parts off r : off mod 1024 = 0 -> 0 <= r < 64 ->
  Z.land (Z.lor off r) HAMMER2_OFF_MASK_RADIX = r /\ Z.ldiff (Z.lor off r) HAMMER2_OFF_MASK_RADIX = off.
Proof.
  intros Ho Hr. pose proof (bref_extent_lor bref_zero off r Ho Hr) as E.
  change HAMMER2_OFF_MASK_RADIX with (2 ^ 6 - 1). rewrite (lor_low off r 6), ldiff_low, land_low by (change (2 ^ 6) with 64; dlia).
  change (2 ^ 6) with 64. replace ((off + r) mod 64) with r by dlia. lia.
Qed.

Section Storage.
Context (io : chain_io) (volume : Z -> bool) (total : Z).
(** The freemap is readable, and its chains do not ask for a retry. *)
Context (Hnode : forall t k, io_node_error io t k = 0).
Context (Hcreate : forall t k, io_create_error io t k <> HAMMER2_ERROR_EAGAIN).
Context (Hmodify : forall t k, io_modify_error io t k <> HAMMER2_ERROR_EAGAIN).
(** The volumes cover the device. *)
Context (Hvolume : forall p, 0 < p < total -> volume p = true).

Lemma io_legal_extent off r : 10 <= r <= 16 -> in_buffer (off, 2 ^ r) -> 65536 <= off -> off + 2 ^ r <= total ->
  io_legal volume (Z.lor off r) = true.
Proof.
  intros Hr [Ha Hb] Ho Ht. cbn [fst snd] in *. unfold io_legal. destruct (data_off_parts off r Ha) as [-> ->]; [lia|].
  destruct (nz_spec r); [|lia]. rewrite Z.shiftl_1_l. change HAMMER2_PBUFMASK with (2 ^ 16 - 1).
  rewrite !ldiff_low by lia. change (2 ^ 16) with 65536.
  assert (Hp : 1024 <= 2 ^ r) by (change 1024 with (2 ^ 10); apply Z.pow_le_mono_r; lia).
  assert (E : (off + 2 ^ r - 1) mod 65536 = off mod 65536 + 2 ^ r - 1).
  { generalize dependent (2 ^ r). intros s. intros. clear -Hp Hb Ho. dlia. }
  rewrite E, Hvolume.
  - destruct (nz_spec (off - off mod 65536)); [|clear -Ho n0; dlia]. by rewrite (proj2 (Z.eqb_eq _ _)) by lia.
  - generalize dependent (2 ^ r). intros s. intros. clear -Hp Ho Ht. dlia.
Qed.

(** An allocation for a block of 2^r bytes: fresh space in one buffer, or the
    block reference as it was. *)
Lemma alloc_space d G b r : space d total G -> 10 <= r <= 16 -> alloc_req_ok (b, 2 ^ r) ->
  exists d' b' e, hammer2_freemap_alloc io d b (2 ^ r) = Some (d', b', e) /\
    if e =? 0 then
      exists off, b' = bref_set_data_off b (Z.lor off r) /\ off mod 1024 = 0 /\ 0 < off /\
        io_legal volume (Z.lor off r) = true /\ Forall (sep (off, 2 ^ r)) G /\ space d' total ((off, 2 ^ r) :: G)
    else b' = b /\ space d' total G.
Proof.
  intros [Ht Hg Hh Hi] Hr Hq.
  destruct (freemap_alloc_total io d (b, 2 ^ r) Hcreate Hmodify (proj2 Hg) Hh Hq) as [[[d' b'] e] E].
  exists d', b', e. split; [exact E|]. rewrite <- Ht in Hi.
  apply (freemap_alloc_inv io True Hnode (fun _ _ _ => I) d G) in E; try done.
  destruct E as (Hg' & Hh' & Hp & Eb & Et). cbn [fst snd] in Hp. rewrite Z.log2_up_pow2 in Hp by lia.
  unfold alloc_post in Hp. destruct (e =? 0).
  - destruct Hp as (off & -> & Hal & Hd). exists off. pose proof (fi_sep _ _ _ _ _ Hd) as Hs.
    assert (Hf : Forall (sep (off, 2 ^ r)) G) by (by inversion Hs).
    destruct (extent_ok_safe _ _ _ off (2 ^ r) (fi_ext _ _ _ _ _ Hd _ ltac:(left))) as (H1 & H2 & H3 & H4).
    assert (65536 <= off).
    { unfold HAMMER2_ZONE_SEG in H4. destruct (Z.lt_ge_cases off 0) as [Hn|Hp]; [destruct Hg; lia|].
      pose proof (Z.mod_le off (2 ^ 30) Hp). lia. }
    split; [done|]. split; [apply Hal|]. split; [lia|]. split; [apply io_legal_extent; try done; lia|].
    split; [done|]. split; try done; [congruence|by rewrite <- Ht, <- Et].
  - destruct Hp as [-> Hd]. split; [done|]. split; try done; [congruence|by rewrite <- Ht, <- Et].
Qed.
End Storage.

(** ** Copy on write *)

Section Cow.
Context (io : chain_io) (h : hashes) (volume : Z -> bool) (buf_error : nat -> Z -> Z) (limit_chains limit_inodes total : Z).
Context (Hnode : forall t k, io_node_error io t k = 0).
Context (Hcreate : forall t k, io_create_error io t k <> HAMMER2_ERROR_EAGAIN).
Context (Hmodify : forall t k, io_modify_error io t k <> HAMMER2_ERROR_EAGAIN).
Context (Hvolume : forall p, 0 < p < total -> volume p = true).

Abbreviation modify := (hammer2_chain_modify io h volume buf_error limit_chains limit_inodes).
Abbreviation getblk := (io_getblk volume buf_error).

Definition ch_extent (c : hammer2_chain) : Z * Z := (ch_off c, ch_bytes c).

(** The chain may write to its block: it is modified, and the block is not
    registered for deduplication. *)
Definition owned (c : hammer2_chain) : bool :=
  has (ch_flags c) HAMMER2_CHAIN_MODIFIED && negb (has (ch_flags c) HAMMER2_CHAIN_DEDUPABLE).

(** An inode, an indirect block, or data or a directory entry with a check code,
    of 1KB to 64KB, and its block where it has one. *)
Record block_ok (c : hammer2_chain) : Prop := {
  bk_root : ch_root c = false;
  bk_type : ch_type c = HAMMER2_BREF_TYPE_INODE \/ ch_type c = HAMMER2_BREF_TYPE_INDIRECT \/
            ch_type c = HAMMER2_BREF_TYPE_DATA \/ ch_type c = HAMMER2_BREF_TYPE_DIRENT;
  bk_key : ch_type c = HAMMER2_BREF_TYPE_DATA -> br_key (ch_bref c) mod 65536 = 0;
  bk_check : HAMMER2_DEC_CHECK (br_methods (ch_bref c)) <> HAMMER2_CHECK_NONE;
  bk_block : exists r, 10 <= r <= 16 /\ ch_bytes c = 2 ^ r /\
    (ch_off c <> 0 -> Z.land (br_data_off (ch_bref c)) HAMMER2_OFF_MASK_RADIX = r /\
       io_legal volume (br_data_off (ch_bref c)) = true)
}.

Record chain_ok (c : hammer2_chain) : Prop := {
  co_block : block_ok c;
  co_data : ch_data c = None /\ ch_dio c = false \/
            ch_data c = Some (At (ch_off c)) /\ ch_dio c = true /\ ch_off c <> 0;
  co_initial : has (ch_flags c) HAMMER2_CHAIN_INITIAL = true ->
    ch_data c = None /\ (ch_off c <> 0 -> owned c = true);
  co_blank : ch_off c = 0 -> has (ch_flags c) HAMMER2_CHAIN_INITIAL = true
}.

(** The fields of a block reference that name a block and its use. *)
Definition same_block (b b' : hammer2_blockref) : Prop :=
  br_type b' = br_type b /\ br_key b' = br_key b /\ br_methods b' = br_methods b /\ br_data_off b' = br_data_off b.

Lemma block_ok_ext c c' : block_ok c -> same_block (ch_bref c) (ch_bref c') -> ch_bytes c' = ch_bytes c ->
  ch_root c' = ch_root c -> block_ok c'.
Proof.
  intros [H1 H2 H3 H4 H5] (E1 & E2 & E3 & E4) En Er. unfold ch_type, ch_off in *.
  split; unfold ch_type, ch_off; by rewrite ?E1, ?E2, ?E3, ?E4, ?En, ?Er.
Qed.

Lemma getblk_ok w op c : block_ok c -> ch_off c <> 0 ->
  getblk w op (br_data_off (ch_bref c)) (ch_bytes c) =
  Some (if nz (buf_error (w_tick w) (ch_off c)) then (w_next w, true, buf_error (w_tick w) (ch_off c))
        else (match op with
              | DOP_READ => w_next w
              | DOP_NEW => w_with_mem (w_next w) (bzero (w_mem w) (ch_off c) (ch_bytes c))
              end, true, 0)).
Proof.
  intros [_ _ _ _ (r & Hr & Eb & Hl)] Ho. destruct (Hl Ho) as [Er El]. unfold io_getblk.
  rewrite Er, Z.shiftl_1_l, Eb, Z.eqb_refl, El. cbn [negb]. change (Z.ldiff (br_data_off (ch_bref c)) _) with (ch_off c).
  by destruct (nz (buf_error (w_tick w) (ch_off c))).
Qed.

Lemma block_types c : block_ok c ->
  (ch_type c =? HAMMER2_BREF_TYPE_VOLUME) = false /\ (ch_type c =? HAMMER2_BREF_TYPE_FREEMAP) = false /\
  (ch_type c =? HAMMER2_BREF_TYPE_FREEMAP_NODE) = false /\ (ch_type c =? HAMMER2_BREF_TYPE_FREEMAP_LEAF) = false /\
  buffered (ch_type c) = true /\ (ch_bytes c =? 0) = false.
Proof.
  intros [_ Ht _ _ (r & Hr & -> & _)]. assert (0 < 2 ^ r) by (apply Z.pow_pos_nonneg; lia).
  unfold buffered. by destruct Ht as [->|[->|[->| ->]]]; split_and!; try done; zcases.
Qed.

(** The flags a load does not touch. *)
Definition same_flags (c c' : hammer2_chain) : Prop :=
  has (ch_flags c') HAMMER2_CHAIN_MODIFIED = has (ch_flags c) HAMMER2_CHAIN_MODIFIED /\
  has (ch_flags c') HAMMER2_CHAIN_DEDUPABLE = has (ch_flags c) HAMMER2_CHAIN_DEDUPABLE /\
  has (ch_flags c') HAMMER2_CHAIN_UPDATE = has (ch_flags c) HAMMER2_CHAIN_UPDATE.

Ltac same_flags := unfold same_flags; chsimpl; hasflags; cbn; rewrite ?orb_false_r; split_and!; reflexivity.

#[local] Instance same_flags_preorder : PreOrder same_flags.
Proof.
  split; [by intros c|]. intros c1 c2 c3 (E1 & E2 & E3) (F1 & F2 & F3).
  unfold same_flags. by rewrite F1, F2, F3.
Qed.

Lemma owned_same c c' : same_flags c c' -> owned c' = owned c.
Proof. intros (E1 & E2 & _). unfold owned. by rewrite E1, E2. Qed.

(** Everything but the memory and the buffers asked for. *)
Definition same_world (w w' : world) : Prop :=
  w_fm w' = w_fm w /\ w_hflags w' = w_hflags w /\ w_pmp w' = w_pmp w /\ w_chain_modified w' = w_chain_modified w /\
  w_mirror_tid w' = w_mirror_tid w.

Lemma load_test_ok w c :
  let c1 := load_test h w c in
  ch_bref c1 = ch_bref c /\ ch_bytes c1 = ch_bytes c /\ ch_root c1 = ch_root c /\ same_flags c c1 /\
  has (ch_flags c1) HAMMER2_CHAIN_INITIAL = false /\
  (has (ch_flags c) HAMMER2_CHAIN_MODIFIED = true -> ch_error c1 = ch_error c).
Proof.
  unfold load_test. destruct (has (ch_flags c) HAMMER2_CHAIN_INITIAL) eqn:Ei.
  - split_and!; try done; [same_flags|]. chsimpl. by hasflags.
  - repeat case_match; split_and!; first [done|same_flags|chsimpl; hasflags; by rewrite Ei].
Qed.

(** What the load of the data changes. *)
Lemma load_ok w c : chain_ok c -> ch_data c = None -> ch_off c <> 0 ->
  let fails := nz (buf_error (w_tick w) (ch_off c)) in
  exists w1 c1, hammer2_chain_load_data h volume buf_error w c = Some (w1, c1) /\ same_world w w1 /\
    w_tick w1 = S (w_tick w) /\
    w_mem w1 = (if has (ch_flags c) HAMMER2_CHAIN_INITIAL && negb fails
                then bzero (w_mem w) (ch_off c) (ch_bytes c) else w_mem w) /\
    ch_bref c1 = ch_bref c /\ ch_bytes c1 = ch_bytes c /\ chain_ok c1 /\ same_flags c c1 /\
    (if fails then ch_error c1 <> 0
     else ch_data c1 = Some (At (ch_off c)) /\ (has (ch_flags c) HAMMER2_CHAIN_MODIFIED = true -> ch_error c1 = 0)).
Proof.
  intros Hok Hd Ho fails. pose proof (co_block _ Hok) as Hb.
  destruct (block_types c Hb) as (T1 & T2 & _ & _ & _ & T3).
  unfold hammer2_chain_load_data. rewrite Hd, (proj2 (Z.eqb_neq _ _) Ho), getblk_ok by done. fold fails.
  cbn [mbind option_bind]. destruct fails eqn:Ef; cbn [nz].
  - fold fails. rewrite Ef. cbn [brelse]. eexists _, _. split; [done|]. chsimpl. rewrite andb_false_r.
    split; [by split_and!|]. split; [done|]. split_and!; try done; [|same_flags].
    split; [by apply (block_ok_ext c)|by left| |]; unfold owned; chsimpl; hasflags; intros H.
    + split; [done|]. intros _. by apply (co_initial _ Hok).
    + by apply (co_blank _ Hok).
  - change (nz 0) with false. rewrite andb_true_r. cbv iota.
    set (w1 := match _ with DOP_READ => _ | DOP_NEW => _ end). set (c0 := ch_with_data _ None true).
    destruct (load_test_ok w1 c0) as (L1 & L2 & L3 & L4 & L5 & L6). set (c1 := load_test h w1 c0) in *.
    assert (Et : ch_type c1 = ch_type c) by (unfold ch_type; by rewrite L1).
    rewrite Et, T1, T2, L2. change (ch_bytes c0) with (ch_bytes c). rewrite T3, andb_false_r. cbn [orb].
    eexists _, _. split; [done|]. change (ch_off c0) with (ch_off c). chsimpl.
    split; [unfold w1; by destruct (has (ch_flags c) HAMMER2_CHAIN_INITIAL)|].
    split; [unfold w1; by destruct (has (ch_flags c) HAMMER2_CHAIN_INITIAL)|].
    split; [unfold w1; by destruct (has (ch_flags c) HAMMER2_CHAIN_INITIAL)|]. split; [done|]. split; [done|].
    split; [|split; [|done]].
    + split; [apply (block_ok_ext c); try done; chsimpl; by rewrite L1| | |]; chsimpl.
      * right. unfold ch_off in *. chsimpl. by rewrite L1.
      * hasflags. by rewrite L5.
      * unfold ch_off in *. chsimpl. by rewrite L1.
    + destruct L4 as (F1 & F2 & F3). unfold same_flags. chsimpl. hasflags. by rewrite F1, F2, F3.
Qed.

(** The data of the chain is in a buffer, or there is none. *)
Definition data_ok (c : hammer2_chain) : Prop :=
  ch_data c = None /\ ch_dio c = false \/ exists o, ch_data c = Some (At o) /\ ch_dio c = true.

(** The memory once the buffer of a chain is new, by the data it had. *)
Definition filled (m : Z -> Z) (c : hammer2_chain) : Z -> Z :=
  match ch_data c with
  | Some (At o) => if o =? ch_off c then m else bcopy m o (ch_off c) (ch_bytes c)
  | _ => bzero m (ch_off c) (ch_bytes c)
  end.

Lemma filled_outside m c x : ~ inside (ch_extent c) x -> filled m c x = m x.
Proof.
  unfold filled, inside, ch_extent, bcopy, bzero. cbn [fst snd]. intros H.
  destruct (ch_data c) as [[|o]|]; [| |]; try destruct (o =? ch_off c); zcases; done.
Qed.

Lemma copy_ok w c : block_ok c -> ch_off c <> 0 -> data_ok c ->
  let fails := nz (buf_error (w_tick w) (ch_off c)) in
  let initial := bool_decide (ch_data c = None) in
  modify_copy volume buf_error w c 0 initial =
  if fails then
    (if ch_dio c then Some (w_next w, ch_with_data (ch_with_error c HAMMER2_ERROR_EIO) None false) else None)
  else Some (w_with_mem (w_next w) (filled (w_mem w) c), ch_with_data (ch_with_error c 0) (Some (At (ch_off c))) true).
Proof.
  intros Hb Ho Hd fails initial. unfold modify_copy. rewrite (bk_root _ Hb), getblk_ok by done. fold fails.
  cbn [mbind option_bind]. destruct fails eqn:Ef.
  { unfold fails in Ef. by rewrite Ef. }
  change (nz 0) with false. cbv iota. unfold filled. chsimpl. change (ch_off (ch_with_error c 0)) with (ch_off c).
  unfold initial. destruct Hd as [[Ed Eo]|(o & Ed & Eo)]; rewrite Ed, ?Eo; [done|].
  cbn [negb]. by destruct (o =? ch_off c).
Qed.

Definition stamped (w : world) (c : hammer2_chain) (mtid : Z) : hammer2_blockref :=
  bref_with_tids (ch_bref c) (u64 (w_mirror_tid w + 1)) (if nz mtid then mtid else br_modify_tid (ch_bref c)).

Lemma stamp_ok w c mtid : let c1 := modify_stamp w c mtid in
  same_block (ch_bref c) (ch_bref c1) /\ ch_bytes c1 = ch_bytes c /\ ch_root c1 = ch_root c /\ ch_data c1 = ch_data c /\
  ch_dio c1 = ch_dio c /\ ch_error c1 = ch_error c /\ same_flags c c1 /\
  has (ch_flags c1) HAMMER2_CHAIN_INITIAL = has (ch_flags c) HAMMER2_CHAIN_INITIAL /\ ch_bref c1 = stamped w c mtid.
Proof.
  unfold modify_stamp, same_block. case_match; split_and!; first [done|same_flags|chsimpl; hasflags; apply orb_false_r].
Qed.

Lemma buffer_ok w c : block_ok c -> ch_off c <> 0 -> data_ok c ->
  has (ch_flags c) HAMMER2_CHAIN_INITIAL = bool_decide (ch_data c = None) ->
  exists c1, same_flags c c1 /\ has (ch_flags c1) HAMMER2_CHAIN_INITIAL = false /\ ch_bref c1 = ch_bref c /\
    ch_bytes c1 = ch_bytes c /\ ch_root c1 = ch_root c /\
    modify_buffer volume buf_error w c 0 =
      if nz (buf_error (w_tick w) (ch_off c)) then
        (if ch_dio c then Some (w_next w, ch_with_data (ch_with_error c1 HAMMER2_ERROR_EIO) None false) else None)
      else Some (w_with_mem (w_next w) (filled (w_mem w) c), ch_with_data (ch_with_error c1 0) (Some (At (ch_off c))) true).
Proof.
  intros Hb Ho Hd Hi. unfold modify_buffer. rewrite Hi.
  set (c1 := if bool_decide (ch_data c = None) then _ else c). exists c1.
  assert (Hc : same_flags c c1 /\ has (ch_flags c1) HAMMER2_CHAIN_INITIAL = false /\ ch_bref c1 = ch_bref c /\
    ch_bytes c1 = ch_bytes c /\ ch_root c1 = ch_root c /\ ch_data c1 = ch_data c /\ ch_dio c1 = ch_dio c).
  { unfold c1. destruct (bool_decide _); (split; [same_flags|]); split; try done. chsimpl. by hasflags. }
  clearbody c1. destruct Hc as (H1 & H2 & H3 & H4 & H5 & H6 & H7). split_and!; try done.
  assert (Hb1 : block_ok c1) by (apply (block_ok_ext c); try done; by rewrite H3).
  assert (Eo : ch_off c1 = ch_off c) by (unfold ch_off; by rewrite H3).
  destruct (block_types c1 Hb1) as (-> & -> & _ & _ & -> & ->). rewrite andb_false_r. cbn [orb].
  rewrite <- H6, copy_ok, Eo, H7; [|done|by rewrite Eo|unfold data_ok; by rewrite H6, H7].
  unfold filled. by rewrite H6, H4, Eo.
Qed.

Lemma finish_ok w up c mtid flags : block_ok c -> ch_off c <> 0 -> owned c = true -> data_ok c ->
  (has (ch_flags c) HAMMER2_CHAIN_INITIAL = true -> ch_data c = None) ->
  (modify_skip c 0 flags = false -> ch_data c = None -> has (ch_flags c) HAMMER2_CHAIN_INITIAL = true) ->
  let skip := modify_skip c 0 flags in
  let fails := negb skip && nz (buf_error (w_tick w) (ch_off c)) in
  match modify_finish volume buf_error w up c mtid 0 flags with
  | None => fails = true
  | Some (w', _, c', e) =>
      same_world w w' /\ ch_extent c' = ch_extent c /\ same_flags c c' /\ chain_ok c' /\ ch_bref c' = stamped w c mtid /\
      w_tick w' = (if skip then w_tick w else S (w_tick w)) /\ w_mem w' = (if skip || fails then w_mem w else filled (w_mem w) c) /\
      (if skip then e = ch_error c
       else if fails then e = HAMMER2_ERROR_EIO /\ ch_data c' = None /\ has (ch_flags c') HAMMER2_CHAIN_INITIAL = false
       else e = 0 /\ ch_data c' = Some (At (ch_off c)))
  end.
Proof.
  intros Hb Ho Hown Hd Hini Hnone skip fails. unfold modify_finish.
  destruct (stamp_ok w c mtid) as (S1 & S2 & S3 & S4 & S5 & S6 & S7 & S8 & S9). set (c1 := modify_stamp w c mtid) in *.
  clearbody c1. assert (Hb1 : block_ok c1) by (by apply (block_ok_ext c)).
  assert (Eo : ch_off c1 = ch_off c) by (unfold ch_off; by rewrite (proj2 (proj2 (proj2 S1)))).
  assert (Ek : modify_skip c1 0 flags = skip) by (unfold modify_skip, ch_type; by rewrite (proj1 S1), S4).
  rewrite Ek. destruct skip eqn:Esk.
  - unfold skip, modify_skip in Esk. rewrite !andb_true_iff, bool_decide_eq_true in Esk. destruct Esk as ((_ & Ed) & _).
    assert (Edio : ch_dio c1 = false) by (destruct Hd as [[_ E]|(o & E & _)]; congruence).
    rewrite Edio. cbn [mbind option_bind orb negb andb]. split; [done|]. unfold ch_extent. rewrite Eo, S2.
    split_and!; try done. split; [done|left; by rewrite S4| |by rewrite Eo].
    intros _. rewrite S4, (owned_same c c1) by done. done.
  - assert (Ei : has (ch_flags c1) HAMMER2_CHAIN_INITIAL = bool_decide (ch_data c1 = None)).
    { rewrite S8, S4. destruct (bool_decide_reflect (ch_data c = None)) as [E|E]; [by apply Hnone|].
      destruct (has (ch_flags c) HAMMER2_CHAIN_INITIAL); [|done]. by destruct E; apply Hini. }
    destruct (buffer_ok w c1 Hb1) as (c2 & B1 & B2 & B3 & B4 & B5 & ->); [by rewrite Eo| |done|].
    { unfold data_ok. by rewrite S4, S5. }
    assert (Ef : filled (w_mem w) c1 = filled (w_mem w) c) by (unfold filled; by rewrite S4, Eo, S2).
    assert (Hb2 : forall c3, ch_bref c3 = ch_bref c2 -> ch_bytes c3 = ch_bytes c2 -> ch_root c3 = ch_root c2 -> block_ok c3).
    { intros c3 E1 E2 E3. apply (block_ok_ext c1); [done|by rewrite E1, B3|congruence..]. }
    assert (Hfl : same_flags c c2) by (by transitivity c1).
    assert (Ho3 : forall c3, ch_bref c3 = ch_bref c2 -> ch_off c3 = ch_off c) by (intros c3 E; unfold ch_off; rewrite E, B3; exact Eo).
    cbn [orb negb andb]. rewrite Eo, S5. fold fails. destruct fails eqn:Efl; cbn [negb andb] in fails.
    + unfold fails in Efl. rewrite Efl. destruct (ch_dio c); [|done]. cbn [mbind option_bind].
      unfold ch_extent. rewrite (Ho3 (ch_with_data _ _ _)) by done. chsimpl. rewrite B4, S2.
      split_and!; try done; [|by rewrite B3]. split; [by apply Hb2|by left| |]; rewrite (Ho3 (ch_with_data _ _ _)) by done; chsimpl; [|done].
      by rewrite B2.
    + unfold fails in Efl. rewrite Efl, Ef. cbn [mbind option_bind].
      unfold ch_extent. rewrite (Ho3 (ch_with_data _ _ _)) by done. chsimpl. rewrite B4, S2.
      split_and!; try done; [|by rewrite B3]. split; [by apply Hb2| | |]; rewrite (Ho3 (ch_with_data _ _ _)) by done; chsimpl; [by right| |done].
      by rewrite B2.
Qed.

(** A buffer error, by whether the chain had a buffer before. *)
Lemma finish_fault w up c mtid flags : block_ok c -> ch_off c <> 0 -> data_ok c ->
  has (ch_flags c) HAMMER2_CHAIN_INITIAL = bool_decide (ch_data c = None) -> modify_skip c 0 flags = false ->
  nz (buf_error (w_tick w) (ch_off c)) = true ->
  if ch_dio c then is_Some (modify_finish volume buf_error w up c mtid 0 flags)
  else modify_finish volume buf_error w up c mtid 0 flags = None.
Proof.
  intros Hb Ho Hd Hi Hs Hf. unfold modify_finish.
  destruct (stamp_ok w c mtid) as (S1 & S2 & S3 & S4 & S5 & S6 & S7 & S8 & _). set (c1 := modify_stamp w c mtid) in *.
  clearbody c1. assert (Hb1 : block_ok c1) by (by apply (block_ok_ext c)).
  assert (Eo : ch_off c1 = ch_off c) by (unfold ch_off; by rewrite (proj2 (proj2 (proj2 S1)))).
  assert (Ek : modify_skip c1 0 flags = false) by (rewrite <- Hs; unfold modify_skip, ch_type; by rewrite (proj1 S1), S4).
  destruct (buffer_ok w c1 Hb1) as (c2 & _ & _ & _ & _ & _ & E);
    [by rewrite Eo|unfold data_ok; by rewrite S4, S5|by rewrite S8, S4|].
  rewrite Ek, E, Eo, Hf, S5. by destruct (ch_dio c); cbn.
Qed.

Lemma req_ok c r : block_ok c -> 10 <= r <= 16 -> ch_bytes c = 2 ^ r -> alloc_req_ok (ch_bref c, 2 ^ r).
Proof.
  intros [_ Ht Hk _ _] Hr Eb. unfold alloc_req_ok, bref_ok, ch_type in *. cbn [fst snd].
  assert (2 ^ 10 <= 2 ^ r <= 2 ^ 16) by (split; apply Z.pow_le_mono_r; lia).
  change (2 ^ 10) with HAMMER2_ALLOC_MIN in *. change (2 ^ 16) with HAMMER2_PBUFSIZE in *.
  split_and!; try done; try lia; destruct Ht as [->|[->|[->| ->]]]; done || by vm_compute.
Qed.

(** New storage: a fresh extent, or an error and the old one. *)
Lemma storage_alloc w c newmod G : block_ok c -> space (w_fm w) total G -> has (w_hflags w) HMNT2_EMERG = false ->
  (ch_off c =? 0) || newmod = true ->
  exists d c1 e, modify_storage io limit_chains limit_inodes w c 0 newmod = Some (w_with_fm w d, c1, e) /\
    ch_data c1 = ch_data c /\ ch_dio c1 = ch_dio c /\ ch_bytes c1 = ch_bytes c /\ ch_type c1 = ch_type c /\
    ch_flags c1 = ch_flags c &~ HAMMER2_CHAIN_DEDUPABLE /\ br_modify_tid (ch_bref c1) = br_modify_tid (ch_bref c) /\
    if e =? 0 then block_ok c1 /\ ch_off c1 <> 0 /\ Forall (sep (ch_extent c1)) G /\ space d total (ch_extent c1 :: G)
    else c1 = ch_clear c HAMMER2_CHAIN_DEDUPABLE /\ space d total G.
Proof.
  intros Hb Hs He Hn. pose proof Hb as [Hroot _ _ _ (r & Hr & Eb & _)].
  destruct (block_types c Hb) as (_ & _ & _ & _ & _ & E0).
  unfold modify_storage, modify_alloc. rewrite Hroot, Hn, Eb. unfold nz at 1. rewrite <- Eb, E0, Eb. cbn [negb andb].
  destruct (alloc_space io volume total Hnode Hcreate Hmodify Hvolume (w_fm w) G (ch_bref c) r Hs Hr (req_ok c r Hb Hr Eb))
    as (d & b & e & -> & Hp). cbn [mbind option_bind]. change (nz 0) with false. cbv iota. chsimpl.
  rewrite He, andb_false_r. destruct (e =? 0) eqn:Ee.
  - destruct Hp as (off & -> & Ha & Hpos & Hl & Hf & Hsp). eexists d, _, 0. split; [done|]. cbn [Z.eqb].
    destruct (data_off_parts off r Ha) as [Er Eo]; [lia|].
    assert (Ex : forall c1, br_data_off (ch_bref c1) = Z.lor off r -> ch_bytes c1 = 2 ^ r -> ch_extent c1 = (off, 2 ^ r)).
    { intros c1 E1 E2. unfold ch_extent, ch_off. by rewrite E1, E2, Eo. }
    rewrite Ex by (chsimpl; done || by rewrite Eb). split_and!; try done.
    + destruct Hb as [H1 H2 H3 H4 _]. split; try done. exists r. split; [done|]. split; [done|]. intros _. chsimpl. done.
    + unfold ch_off. chsimpl. rewrite Eo. lia.
  - destruct Hp as [-> Hsp]. exists d, (ch_clear c HAMMER2_CHAIN_DEDUPABLE), e. rewrite Ee. by destruct c.
Qed.

Lemma no_overwrite w c : block_ok c -> has (w_hflags w) HMNT2_EMERG = false -> overwrite w c = false.
Proof.
  intros Hb He. unfold overwrite. destruct (w_pmp w); [|done]. rewrite He, orb_false_r.
  rewrite (proj2 (Z.eqb_neq _ _) (bk_check _ Hb)). by rewrite !andb_false_r.
Qed.

(** The world with other counts. *)
Definition counted (w w' : world) : Prop :=
  w_fm w' = w_fm w /\ w_mem w' = w_mem w /\ w_hflags w' = w_hflags w /\ w_mirror_tid w' = w_mirror_tid w /\
  w_tick w' = w_tick w.

(** Storage is needed for a chain that does not own its block. *)
Lemma flags_ok w c : block_ok c -> has (w_hflags w) HMNT2_EMERG = false ->
  exists w1 f, modify_flags w c = (w1, ch_with_flags c f,
      (negb (owned c), negb (has (ch_flags c) HAMMER2_CHAIN_MODIFIED), negb (has (ch_flags c) HAMMER2_CHAIN_UPDATE))) /\
    counted w w1 /\ has f HAMMER2_CHAIN_MODIFIED = true /\ has f HAMMER2_CHAIN_UPDATE = true /\
    has f HAMMER2_CHAIN_DEDUPABLE = has (ch_flags c) HAMMER2_CHAIN_DEDUPABLE /\
    has f HAMMER2_CHAIN_INITIAL = has (ch_flags c) HAMMER2_CHAIN_INITIAL.
Proof.
  intros Hb He. unfold modify_flags, owned. destruct (has (ch_flags c) HAMMER2_CHAIN_MODIFIED) eqn:Em; cbn [negb andb].
  - rewrite negb_involutive. destruct (has (ch_flags c) HAMMER2_CHAIN_UPDATE) eqn:Eu; cbn [negb].
    + exists w, (ch_flags c). by destruct c.
    + eexists w, _. split; [done|]. split; [done|]. flagb. by rewrite Em.
  - rewrite (no_overwrite w c Hb He). chsimpl. flagb. destruct (has (ch_flags c) HAMMER2_CHAIN_UPDATE) eqn:Eu; cbn [negb];
      (eexists _, _; split; [done|]; split; [done|]; chsimpl; by flagb).
Qed.

(** The chain lost the note that its block is registered for deduplication. *)
Definition lost (c c' : hammer2_chain) : bool :=
  has (ch_flags c) HAMMER2_CHAIN_MODIFIED && has (ch_flags c) HAMMER2_CHAIN_DEDUPABLE &&
  negb (has (ch_flags c') HAMMER2_CHAIN_DEDUPABLE) && (ch_off c' =? ch_off c).

(** The callers that pass HAMMER2_MODIFY_OPTDATA have file data or a new chain. *)
Definition flags_fit (c : hammer2_chain) (flags : Z) : Prop :=
  has flags HAMMER2_MODIFY_OPTDATA = true ->
  ch_type c = HAMMER2_BREF_TYPE_DATA \/ has (ch_flags c) HAMMER2_CHAIN_INITIAL = true.

(** The chain keeps its block. *)
Definition kept (c c' : hammer2_chain) : Prop :=
  ch_extent c' = ch_extent c /\ (owned c' = true -> owned c = true \/ lost c c' = true) /\
  (owned c = true -> owned c' = true) /\
  (has (ch_flags c') HAMMER2_CHAIN_MODIFIED = true -> has (ch_flags c') HAMMER2_CHAIN_DEDUPABLE = true ->
   has (ch_flags c) HAMMER2_CHAIN_MODIFIED = true /\ has (ch_flags c) HAMMER2_CHAIN_DEDUPABLE = true).

Record modified (w : world) (c : hammer2_chain) (w' : world) (c' : hammer2_chain) (G G' : list (Z * Z)) : Prop := {
  md_hflags : w_hflags w' = w_hflags w;
  md_chain : chain_ok c';
  md_space : space (w_fm w') total G';
  md_mem : forall x, w_mem w' x = w_mem w x \/ inside (ch_extent c') x /\ owned c' = true /\ ch_off c' <> 0;
  md_block : kept c c' /\ G' = G \/
    owned c' = true /\ (ch_off c <> 0 -> owned c = false) /\ Forall (sep (ch_extent c')) G /\ G' = ch_extent c' :: G
}.

(** The flags are as before, but for DEDUPABLE. *)
Lemma undo_ok w c f : has f HAMMER2_CHAIN_MODIFIED = true ->
  exists w2 f2, modify_undo w (ch_clear (ch_with_flags c f) HAMMER2_CHAIN_DEDUPABLE)
      (negb (has (ch_flags c) HAMMER2_CHAIN_MODIFIED)) (negb (has (ch_flags c) HAMMER2_CHAIN_UPDATE)) =
    (w2, ch_with_flags c f2) /\ counted w w2 /\
    has f2 HAMMER2_CHAIN_MODIFIED = has (ch_flags c) HAMMER2_CHAIN_MODIFIED /\
    has f2 HAMMER2_CHAIN_DEDUPABLE = false /\ has f2 HAMMER2_CHAIN_INITIAL = has f HAMMER2_CHAIN_INITIAL.
Proof.
  intros Hf. unfold modify_undo. destruct (has (ch_flags c) HAMMER2_CHAIN_MODIFIED), (has (ch_flags c) HAMMER2_CHAIN_UPDATE);
    cbn [negb]; eexists _, _; (split; [done|]); (split; [done|]); chsimpl; flagb; by rewrite ?Hf.
Qed.

(** The end of a modification of a chain that owns its block. *)
Lemma modify_end w0 c0 w up c mtid flags G0 G : block_ok c -> ch_off c <> 0 -> owned c = true -> data_ok c ->
  (has (ch_flags c) HAMMER2_CHAIN_INITIAL = true -> ch_data c = None) ->
  (ch_data c = None -> modify_skip c 0 flags = true \/ has (ch_flags c) HAMMER2_CHAIN_INITIAL = true) ->
  w_hflags w = w_hflags w0 -> w_mem w = w_mem w0 -> space (w_fm w) total G ->
  kept c0 c /\ owned c0 = true /\ G = G0 \/
  (ch_off c0 <> 0 -> owned c0 = false) /\ Forall (sep (ch_extent c)) G0 /\ G = ch_extent c :: G0 ->
  match modify_finish volume buf_error w up c mtid 0 flags with
  | None => exists t off, buf_error t off <> 0
  | Some (w', _, c', e) => exists G', modified w0 c0 w' c' G0 G'
  end.
Proof.
  intros Hb Ho Hown Hd Hini Hnone Eh Em Hs Hk.
  assert (Hn : modify_skip c 0 flags = false -> ch_data c = None -> has (ch_flags c) HAMMER2_CHAIN_INITIAL = true)
    by (intros E E'; destruct (Hnone E'); [congruence|done]).
  pose proof (finish_ok w up c mtid flags Hb Ho Hown Hd Hini Hn) as H. cbv zeta in H.
  destruct (modify_finish volume buf_error w up c mtid 0 flags) as [[[[w' up'] c'] e]|].
  - destruct H as ((W1 & W2 & _) & Ex & Hf & Hok & _ & _ & Hm & _).
    exists G. rewrite <- (owned_same c c' Hf) in Hown. split; [by rewrite W2|done|by rewrite W1| |].
    + injection Ex as Eo En. unfold ch_extent at 1. rewrite Eo, En. fold (ch_extent c).
      intros x. rewrite Hm, Em. destruct (decide (inside (ch_extent c) x)); [by right|left].
      case_match; [done|]. by apply filled_outside.
    + rewrite Ex. destruct Hk as [((E1 & E2 & E3 & E4) & Ho0 & EG)|(Hn0 & Hf0 & EG)]; [left|right; by split_and!].
      split; [|done]. split; [by rewrite Ex|]. split; [by left|]. split; [done|]. destruct Hf as (F1 & F2 & _). by rewrite F1, F2.
  - destruct (nz_spec (buf_error (w_tick w) (ch_off c))); [eauto|]. by rewrite andb_false_r in H.
Qed.

(** From the flags on. *)
Lemma modify_tail w up c mtid flags G : chain_ok c -> space (w_fm w) total G -> has (w_hflags w) HMNT2_EMERG = false ->
  (ch_data c = None -> modify_skip c 0 flags = true \/ has (ch_flags c) HAMMER2_CHAIN_INITIAL = true) ->
  match
    (let '(w, c, (newmod, setmodified, setupdate)) := modify_flags w c in
     '(w, c, error) ← modify_storage io limit_chains limit_inodes w c 0 newmod;
     if nz error then let '(w, c) := modify_undo w c setmodified setupdate in Some (w, up, c, error)
     else modify_finish volume buf_error w up c mtid 0 flags) with
  | None => exists t off, buf_error t off <> 0
  | Some (w', _, c', e) => exists G', modified w c w' c' G G'
  end.
Proof.
  intros Hok Hs He Hd. pose proof (co_block _ Hok) as Hb.
  destruct (flags_ok w c Hb He) as (w1 & f & -> & (W1 & W2 & W3 & W4 & W5) & F1 & _ & F2 & F3).
  set (c1 := ch_with_flags c f). assert (Hb1 : block_ok c1) by (by apply (block_ok_ext c)).
  rewrite <- W1 in Hs. rewrite <- W3 in He.
  assert (Hdat : data_ok c) by (destruct (co_data _ Hok) as [?|(? & ? & ?)]; [by left|right; eauto]).
  destruct ((ch_off c =? 0) || negb (owned c)) eqn:En.
  - destruct (storage_alloc w1 c1 (negb (owned c)) G Hb1 Hs He En) as (d & c2 & e & -> & D1 & D2 & D3 & D4 & D5 & _ & Hp).
    cbn [mbind option_bind]. unfold nz. destruct (e =? 0) eqn:Ee; cbn [negb].
    + destruct Hp as (Hb2 & Ho2 & Hf & Hsp). apply (modify_end w c _ up c2 mtid flags G (ch_extent c2 :: G)); try done.
      * unfold owned. rewrite D5. unfold c1. chsimpl. flagb. by rewrite F1.
      * unfold data_ok. by rewrite D1, D2.
      * rewrite D5, D1. unfold c1. chsimpl. flagb. rewrite F3. by apply (co_initial _ Hok).
      * unfold modify_skip. rewrite D4, D5, D1. unfold c1. chsimpl. flagb. by rewrite F3.
      * right. split; [|done]. intros Ho. rewrite (proj2 (Z.eqb_neq _ _) Ho) in En. by apply negb_true_iff in En.
    + destruct Hp as [-> Hsp].
      destruct (undo_ok (w_with_fm w1 d) c f F1) as (w2 & f2 & Eu & (V1 & V2 & V3 & V4 & V5) & U1 & U2 & U3).
      fold c1 in Eu. rewrite Eu. rewrite F3 in U3. exists G.
      split; [by rewrite V3| |by rewrite V1| |].
      * split; [by apply (block_ok_ext c)|by apply (co_data _ Hok)| |].
        -- chsimpl. rewrite U3. intros Ei. destruct (co_initial _ Hok Ei) as [E1 E2]. split; [done|]. intros Ho.
           change (ch_off (ch_with_flags c f2)) with (ch_off c) in Ho. specialize (E2 Ho).
           rewrite E2, orb_false_r in En. by apply Z.eqb_eq in En.
        -- chsimpl. rewrite U3. apply (co_blank _ Hok).
      * intros x. left. rewrite V2. chsimpl. by rewrite W2.
      * left. split; [|done]. split; [done|]. unfold owned, lost. chsimpl. rewrite U1, U2.
        change (ch_off (ch_with_flags c f2)) with (ch_off c). rewrite Z.eqb_refl, andb_true_r.
        split; [|split; [|done]]; intros Em; [rewrite Em; by destruct (has (ch_flags c) HAMMER2_CHAIN_DEDUPABLE); [right|left]|].
        by apply andb_true_iff in Em as [-> _].
  - apply orb_false_iff in En as [En1 En2]. apply Z.eqb_neq in En1. apply negb_false_iff in En2.
    unfold modify_storage. change (ch_off c1) with (ch_off c). rewrite (proj2 (Z.eqb_neq _ _) En1), En2.
    cbn [negb orb]. rewrite andb_false_r. cbn [mbind option_bind]. change (nz 0) with false. cbv iota.
    apply (modify_end w c _ up c1 mtid flags G G); try done.
    + unfold owned in *. unfold c1. chsimpl. rewrite F1, F2. by apply andb_true_iff in En2 as [_ ->].
    + unfold c1. chsimpl. rewrite F3. apply (co_initial _ Hok).
    + unfold c1. chsimpl. by rewrite F3.
    + left. split; [|done]. split; [done|]. split; [by left|]. unfold owned in *. unfold c1. chsimpl. rewrite F1, F2.
      split; [by intros [_ ->]%andb_true_iff|].
      intros _ E. rewrite E, andb_false_r in En2. done.
Qed.

(** One modification, from any state of the chain. *)
Lemma modify_ok w up c mtid flags G : chain_ok c -> space (w_fm w) total G -> has (w_hflags w) HMNT2_EMERG = false ->
  flags_fit c flags ->
  match modify w up c mtid 0 flags with
  | None => exists t off, buf_error t off <> 0
  | Some (w', _, c', e) => exists G', modified w c w' c' G G'
  end.
Proof.
  intros Hok Hs He Hfit. destruct (block_types c (co_block _ Hok)) as (_ & _ & T1 & T2 & _ & T3).
  unfold hammer2_chain_modify. rewrite T1, T2. cbn [orb andb].
  set (load := match ch_data c with None => _ | Some _ => false end). destruct load eqn:El.
  - unfold load in El. clear load. destruct (ch_data c) eqn:Ed; [done|]. rewrite !andb_true_iff in El.
    destruct El as [[_ Eopt] Eoff]. apply negb_true_iff in Eopt. destruct (nz_spec (ch_off c)) as [Ho|]; [|done].
    destruct (load_ok w c Hok Ed Ho) as (w1 & c1 & -> & (W1 & W2 & _) & _ & Hm & Eb & En & Hok1 & Hf & Hend).
    cbn [mbind option_bind andb].
    assert (Ex : ch_extent c1 = ch_extent c) by (unfold ch_extent, ch_off; by rewrite Eb, En).
    assert (Eo : ch_off c1 = ch_off c) by (unfold ch_off; by rewrite Eb).
    assert (Hmem : forall x, w_mem w1 x = w_mem w x \/ inside (ch_extent c) x /\ owned c = true).
    { intros x. rewrite Hm. destruct (has (ch_flags c) HAMMER2_CHAIN_INITIAL) eqn:Ei; [|by left]. cbn [andb].
      destruct (negb _); [|by left]. destruct (decide (inside (ch_extent c) x)) as [|Hx].
      - right. split; [done|]. by apply (proj2 (co_initial _ Hok Ei)).
      - left. unfold bzero, inside, ch_extent in *. cbn [fst snd] in Hx. zcases; done. }
    assert (Hk : kept c c1).
    { split; [done|]. rewrite (owned_same c c1 Hf). split; [by left|]. split; [done|]. by destruct Hf as (-> & -> & _). }
    destruct (nz_spec (ch_error c1)) as [|Hz].
    + exists G. split; [done|done|by rewrite W1| |by left]. intros x. rewrite Ex, (owned_same c c1 Hf), Eo.
      destruct (Hmem x) as [|[]]; auto.
    + pose proof (modify_tail w1 up c1 mtid flags G Hok1) as Ht. rewrite W1, W2 in Ht. specialize (Ht Hs He).
      assert (Hd : ch_data c1 = Some (At (ch_off c))) by (destruct (nz (buf_error (w_tick w) (ch_off c))); [done|apply Hend]).
      rewrite Hd in Ht. specialize (Ht ltac:(done)). revert Ht.
      destruct (let '(w, c, _) := modify_flags w1 c1 in _) as [[[[w' up'] c'] e]|]; [|done]. intros (G' & M).
      exists G'. destruct M as [M1 M2 M3 M4 M5]. split; try done; [by rewrite M1| |].
      * intros x. destruct (M4 x) as [->|]; [|by right]. destruct (Hmem x) as [|[Hx Hown]]; [by left|right].
        rewrite <- (owned_same c c1 Hf) in Hown. destruct M5 as [[(E1 & _ & E3 & _) _]|(_ & E & _)].
        -- rewrite E1, Ex. injection E1 as -> _. rewrite Eo. auto.
        -- by rewrite E in Hown by (by rewrite Eo).
      * destruct M5 as [[(E1 & E2 & E3 & E4) EG]|(E1 & E2 & E3 & EG)]; [left; split; [|done]|right].
        -- rewrite (owned_same c c1 Hf) in E2, E3. unfold lost in *. destruct Hf as (F1 & F2 & _).
           rewrite F1, F2, Eo in *. split; [by rewrite E1|done].
        -- rewrite (owned_same c c1 Hf), Eo in E2. done.
  - cbn [mbind option_bind andb]. apply (modify_tail w up c mtid flags G Hok Hs He). intros Ed. unfold load in El.
    rewrite Ed in El. unfold nz at 1 in El. rewrite T3 in El. cbn [negb andb] in El.
    destruct (nz_spec (ch_off c)) as [Ho|Ho]; [|right; apply (co_blank _ Hok); lia].
    rewrite andb_true_r in El. apply negb_false_iff in El. destruct (Hfit El) as [Et|]; [left|by right].
    unfold modify_skip. by rewrite Et, El, Ed.
Qed.

(** *** Single modifications *)

(** Flags set and cleared again, with another cleared in between. *)
Lemma flags_undone f g d : has f g = false -> (f ||| g) &~ d &~ g = f &~ d.
Proof.
  intros H%SubrFacts.has_zero_iff. apply Z.bits_inj'. intros n Hn. rewrite !Z.ldiff_spec, Z.lor_spec.
  assert (T : Z.testbit (Z.land f g) n = false) by (by rewrite H, Z.bits_0). rewrite Z.land_spec in T.
  by destruct (Z.testbit f n), (Z.testbit g n), (Z.testbit d n).
Qed.

Lemma ldiff_comm x f g : x &~ f &~ g = x &~ g &~ f.
Proof. apply Z.bits_inj'. intros n Hn. rewrite !Z.ldiff_spec. by destruct (Z.testbit x n), (Z.testbit f n), (Z.testbit g n). Qed.

(** The flags and the undoing of them around a failed allocation. *)
Lemma failed_ok w c d : - 2 ^ 31 <= w_chain_modified w < 2 ^ 31 - 1 ->
  let '(w1, c1, (newmod, setmodified, setupdate)) := modify_flags w c in
  modify_undo (w_with_fm w1 d) (ch_clear c1 HAMMER2_CHAIN_DEDUPABLE) setmodified setupdate =
  (w_with_counts (w_with_fm w d) (w_chain_modified w)
     (if has (ch_flags c) HAMMER2_CHAIN_MODIFIED then w_pmp w else hammer2_pfs_memory_inc (w_pmp w)),
   ch_clear c HAMMER2_CHAIN_DEDUPABLE).
Proof.
  intros Hn. unfold modify_flags. destruct (has (ch_flags c) HAMMER2_CHAIN_MODIFIED) eqn:Em; cbn [negb].
  - destruct (has (ch_flags c) HAMMER2_CHAIN_UPDATE) eqn:Eu; cbn [negb]; unfold modify_undo; [by destruct w|].
    f_equal. unfold ch_clear, ch_set. chsimpl. by rewrite flags_undone.
  - chsimpl. flagb.
    assert (Ew : i32 (i32 (w_chain_modified w + 1) - 1) = w_chain_modified w) by (rewrite (i32_small (_ + 1)), i32_small; lia).
    destruct (has (ch_flags c) HAMMER2_CHAIN_UPDATE) eqn:Eu; cbn [negb]; unfold modify_undo, ch_clear, ch_set; chsimpl;
      rewrite Ew; f_equal; f_equal; [by rewrite flags_undone|].
    rewrite (ldiff_comm _ HAMMER2_CHAIN_MODIFIED), flags_undone by (by flagb). by rewrite flags_undone.
Qed.

(** A modification that succeeded: the chain has its data in a block it owns. *)
Record copied (w : world) (up : list ancestor) (c : hammer2_chain) (mtid : Z) (G : list (Z * Z)) (w' : world)
    (up' : list ancestor) (c' : hammer2_chain) : Prop := {
  cp_data : ch_data c' = Some (At (ch_off c'));
  cp_bytes : ch_bytes c' = ch_bytes c;
  cp_mem : forall k, 0 <= k < ch_bytes c -> w_mem w' (ch_off c' + k) = w_mem w (ch_off c + k);
  cp_rest : forall x, ~ inside (ch_extent c') x -> w_mem w' x = w_mem w x;
  cp_block : if owned c then ch_off c' = ch_off c else Forall (sep (ch_extent c')) G;
  cp_flags : owned c' = true /\ has (ch_flags c') HAMMER2_CHAIN_UPDATE = true;
  cp_tids : br_mirror_tid (ch_bref c') = u64 (w_mirror_tid w + 1) /\
    br_modify_tid (ch_bref c') = (if nz mtid then mtid else br_modify_tid (ch_bref c));
  cp_up : up' = hammer2_chain_setflush up
}.

(** A modification that failed: the chain keeps its data. *)
Definition refused (w : world) (up : list ancestor) (c : hammer2_chain) (w' : world) (up' : list ancestor)
    (c' : hammer2_chain) : Prop :=
  ch_extent c' = ch_extent c /\ (forall x, w_mem w' x = w_mem w x) /\ up' = up /\
  has (ch_flags c') HAMMER2_CHAIN_MODIFIED = has (ch_flags c) HAMMER2_CHAIN_MODIFIED.

Lemma filled_copy m c o k : ch_data c = Some (At o) -> 0 <= k < ch_bytes c -> filled m c (ch_off c + k) = m (o + k).
Proof.
  intros Ed Hk. unfold filled. rewrite Ed. destruct (Z.eqb_spec o (ch_off c)) as [->|]; [done|].
  unfold bcopy. zcases. cbn. f_equal. lia.
Qed.

Lemma finish_copy w0 up c0 w c mtid flags G : block_ok c -> ch_off c <> 0 -> owned c = true ->
  ch_data c = Some (At (ch_off c0)) -> ch_dio c = true -> has (ch_flags c) HAMMER2_CHAIN_INITIAL = false ->
  has (ch_flags c) HAMMER2_CHAIN_UPDATE = true -> ch_bytes c = ch_bytes c0 -> w_mem w = w_mem w0 ->
  w_mirror_tid w = w_mirror_tid w0 -> br_modify_tid (ch_bref c) = br_modify_tid (ch_bref c0) ->
  (if owned c0 then ch_off c = ch_off c0 else Forall (sep (ch_extent c)) G) -> (forall t off, buf_error t off = 0) ->
  exists w' up' c', modify_finish volume buf_error w up c mtid 0 flags = Some (w', up', c', 0) /\
    copied w0 up c0 mtid G w' up' c'.
Proof.
  intros Hb Ho Hown Ed Edio Ei Eu En Em Et Etid Hblk Hbuf.
  assert (Hskip : modify_skip c 0 flags = false) by (unfold modify_skip; by rewrite Ed, andb_false_r).
  pose proof (finish_ok w up c mtid flags Hb Ho Hown) as H. rewrite Hskip, Hbuf, Ed, Ei in H. change (nz 0) with false in H.
  specialize (H ltac:(right; eauto) ltac:(done) ltac:(done)). cbn [negb andb orb] in H. unfold modify_finish in *.
  destruct (if modify_skip _ 0 flags then _ else _) as [[w' c']|]; cbn [mbind option_bind] in *; [|done].
  destruct H as (_ & Ex & Hf & Hok & Eb & _ & Hm & He & Hd). rewrite He. eexists _, _, c'. split; [done|].
  pose proof Ex as Ex'. injection Ex' as Eo En'. split; rewrite ?Hm, ?Eo, ?En', ?Eb; try done.
  - intros k Hk. rewrite (filled_copy (w_mem w) c (ch_off c0)) by (done || lia). by rewrite Em.
  - intros x Hx. rewrite filled_outside by (by rewrite <- Ex). by rewrite Em.
  - by rewrite Ex.
  - rewrite (owned_same c c' Hf). destruct Hf as (_ & _ & ->). done.
  - unfold stamped. chsimpl. by rewrite Et, Etid.
Qed.

Lemma tail_copy w up c mtid flags G : chain_ok c -> ch_data c = Some (At (ch_off c)) -> space (w_fm w) total G ->
  has (w_hflags w) HMNT2_EMERG = false -> (forall t off, buf_error t off = 0) ->
  exists w' up' c' e,
    (let '(w, c, (newmod, setmodified, setupdate)) := modify_flags w c in
     '(w, c, error) ← modify_storage io limit_chains limit_inodes w c 0 newmod;
     if nz error then let '(w, c) := modify_undo w c setmodified setupdate in Some (w, up, c, error)
     else modify_finish volume buf_error w up c mtid 0 flags) = Some (w', up', c', e) /\
    if e =? 0 then copied w up c mtid G w' up' c' else refused w up c w' up' c'.
Proof.
  intros Hok Ed Hs He Hbuf. pose proof (co_block _ Hok) as Hb.
  destruct (flags_ok w c Hb He) as (w1 & f & -> & (W1 & W2 & W3 & W4 & W5) & F1 & Fu & F2 & F3).
  set (c1 := ch_with_flags c f). assert (Hb1 : block_ok c1) by (by apply (block_ok_ext c)).
  rewrite <- W1 in Hs. rewrite <- W3 in He.
  assert (Hdat : ch_dio c = true /\ ch_off c <> 0) by (destruct (co_data _ Hok) as [[? ?]|(? & ? & ?)]; [congruence|done]).
  destruct Hdat as [Edio Ho].
  assert (Ei : has (ch_flags c) HAMMER2_CHAIN_INITIAL = false).
  { destruct (has (ch_flags c) HAMMER2_CHAIN_INITIAL) eqn:E; [|done]. destruct (co_initial _ Hok E). congruence. }
  destruct (owned c) eqn:Eown; cbn [negb].
  - unfold modify_storage. change (ch_off c1) with (ch_off c). rewrite (proj2 (Z.eqb_neq _ _) Ho).
    cbn [orb]. rewrite andb_false_r. cbn [mbind option_bind]. change (nz 0) with false. cbv iota.
    destruct (finish_copy w up c w1 c1 mtid flags G) as (w' & up' & c' & E & Hc); try done; unfold c1; chsimpl; try congruence.
    + unfold owned in *. chsimpl. rewrite F1, F2. by apply andb_true_iff in Eown as [_ ->].
    + by rewrite Eown.
    + exists w', up', c', 0. done.
  - destruct (storage_alloc w1 c1 true G Hb1 Hs He) as (d & c2 & e & -> & D1 & D2 & D3 & D4 & D5 & D6 & Hp);
      [apply orb_true_r|].
    cbn [mbind option_bind]. unfold nz. destruct (e =? 0) eqn:Ee; cbn [negb].
    + destruct Hp as (Hb2 & Ho2 & Hf & _).
      destruct (finish_copy w up c (w_with_fm w1 d) c2 mtid flags G) as (w' & up' & c' & E & Hc); try done;
        rewrite ?D1, ?D2, ?D5, ?D6; unfold c1; chsimpl; try congruence; try (by flagb; congruence).
      * unfold owned. rewrite D5. unfold c1. chsimpl. flagb. by rewrite F1.
      * by rewrite Eown.
      * exists w', up', c', 0. done.
    + destruct Hp as [-> _].
      destruct (undo_ok (w_with_fm w1 d) c f F1) as (w2 & f2 & Eu & (V1 & V2 & V3 & V4 & V5) & U1 & U2 & U3).
      fold c1 in Eu. rewrite Eu. eexists _, _, _, e. split; [done|]. rewrite Ee.
      split; [done|]. split; [|done]. intros x. rewrite V2. chsimpl. by rewrite W2.
Qed.

(** *** Sequences of modifications *)

(** The chains of a device, the extents that may not be written to (committed,
    or registered for deduplication), and whether a chain lost a registration. *)
Record system := mkSys {
  sy_world : world;
  sy_chains : list hammer2_chain;
  sy_protected : list (Z * Z);
  sy_lost : bool
}.

(** hammer2_chain_modify(); a write of its caller to the block of the chain; the
    registration of the block by hammer2_dedup_record(); the commit of the chain
    by a flush; the last unlock. *)
Inductive cow_op :=
  | OpModify (i : nat) (mtid : Z) (opt : bool)
  | OpWrite (i : nat) (f : Z -> Z)
  | OpDedup (i : nat)
  | OpCommit (i : nat)
  | OpUnlock (i : nat).

Definition op_flags (c : hammer2_chain) (opt : bool) : Z :=
  if opt && ((ch_type c =? HAMMER2_BREF_TYPE_DATA) || has (ch_flags c) HAMMER2_CHAIN_INITIAL)
  then HAMMER2_MODIFY_OPTDATA else 0.

(** A modified chain with a block that has been written. *)
Definition written (c : hammer2_chain) : bool :=
  has (ch_flags c) HAMMER2_CHAIN_MODIFIED && negb (has (ch_flags c) HAMMER2_CHAIN_INITIAL) && nz (ch_off c).

Definition mem_write (m : Z -> Z) (e : Z * Z) (f : Z -> Z) : Z -> Z := fun x => if decide (inside e x) then f x else m x.

Definition cow_at (s : system) (i : nat) (op : cow_op) (c : hammer2_chain) : option system :=
  let 'mkSys w cs P l := s in
  match op with
  | OpModify _ mtid opt =>
      '(w', _, c', e) ← modify w [] c mtid 0 (op_flags c opt);
      Some (mkSys w' (<[i := c']> cs) P (l || lost c c'))
  | OpWrite _ f =>
      if owned c && nz (ch_off c)
      then Some (mkSys (w_with_mem w (mem_write (w_mem w) (ch_extent c) f))
             (<[i := ch_clear c HAMMER2_CHAIN_INITIAL]> cs) P l)
      else Some s
  | OpDedup _ =>
      if written c then Some (mkSys w (<[i := ch_set c HAMMER2_CHAIN_DEDUPABLE]> cs) (ch_extent c :: P) l) else Some s
  | OpCommit _ =>
      if written c
      then Some (mkSys w (<[i := ch_clear (ch_clear c HAMMER2_CHAIN_MODIFIED) HAMMER2_CHAIN_UPDATE]> cs)
                   (ch_extent c :: P) l)
      else Some s
  | OpUnlock _ => let '(w', c') := hammer2_chain_drop_data w c in Some (mkSys w' (<[i := c']> cs) P l)
  end.

Definition op_index (op : cow_op) : nat :=
  match op with OpModify i _ _ | OpWrite i _ | OpDedup i | OpCommit i | OpUnlock i => i end.

Definition cow_step (s : system) (op : cow_op) : option system :=
  match sy_chains s !! op_index op with Some c => cow_at s (op_index op) op c | None => Some s end.

Fixpoint cow_run (s : system) (ops : list cow_op) : option system :=
  match ops with [] => Some s | op :: ops => s ← cow_step s op; cow_run s ops end.

Record sys_inv (s : system) (G : list (Z * Z)) : Prop := {
  si_space : space (w_fm (sy_world s)) total G;
  si_emerg : has (w_hflags (sy_world s)) HMNT2_EMERG = false;
  si_chain : forall i c, sy_chains s !! i = Some c -> chain_ok c /\ (ch_off c <> 0 -> ch_extent c ∈ G);
  si_protected : forall e, e ∈ sy_protected s -> e ∈ G;
  si_owned : forall i c e, sy_chains s !! i = Some c -> owned c = true -> ch_off c <> 0 -> e ∈ sy_protected s ->
    sep (ch_extent c) e;
  si_pair : forall i j c d, i <> j -> sy_chains s !! i = Some c -> sy_chains s !! j = Some d ->
    owned c = true -> owned d = true -> ch_off c <> 0 -> ch_off d <> 0 -> sep (ch_extent c) (ch_extent d);
  si_dedup : forall i c, sy_chains s !! i = Some c -> ch_off c <> 0 -> has (ch_flags c) HAMMER2_CHAIN_MODIFIED = true ->
    has (ch_flags c) HAMMER2_CHAIN_DEDUPABLE = true -> ch_extent c ∈ sy_protected s
}.

(** One chain of the system changes. *)
Lemma inv_replace s G i c w' c' G' P' l : sys_inv s G -> sy_chains s !! i = Some c ->
  space (w_fm w') total G' -> has (w_hflags w') HMNT2_EMERG = false -> chain_ok c' ->
  (ch_off c' <> 0 -> ch_extent c' ∈ G') -> (forall e, e ∈ G -> e ∈ G') -> (forall e, e ∈ sy_protected s -> e ∈ P') ->
  (forall e, e ∈ P' -> e ∈ G' /\ forall j d, j <> i -> sy_chains s !! j = Some d -> owned d = true -> ch_off d <> 0 ->
     sep (ch_extent d) e) ->
  (owned c' = true -> ch_off c' <> 0 -> (forall e, e ∈ P' -> sep (ch_extent c') e) /\
     forall j d, j <> i -> sy_chains s !! j = Some d -> owned d = true -> ch_off d <> 0 -> sep (ch_extent c') (ch_extent d)) ->
  (ch_off c' <> 0 -> has (ch_flags c') HAMMER2_CHAIN_MODIFIED = true ->
     has (ch_flags c') HAMMER2_CHAIN_DEDUPABLE = true -> ch_extent c' ∈ P') ->
  sys_inv (mkSys w' (<[i := c']> (sy_chains s)) P' l) G'.
Proof.
  intros Hi Hc Hs He Hok Hx HG HP HP' Hown Hded.
  assert (Hl : forall j d, <[i := c']> (sy_chains s) !! j = Some d -> j = i /\ d = c' \/ j <> i /\ sy_chains s !! j = Some d).
  { intros j d. destruct (decide (j = i)) as [->|Hj]; [rewrite list_lookup_insert_eq by by eapply lookup_lt_Some|].
    - intros [= <-]. by left.
    - rewrite list_lookup_insert_ne by done. by right. }
  split; cbn [sy_world sy_chains sy_protected]; try done.
  - intros j d Hd. destruct (Hl j d Hd) as [[-> ->]|[Hj Hd']]; [done|].
    destruct (si_chain _ _ Hi j d Hd') as [H1 H2]. split; [done|]. intros Ho. by apply HG, H2.
  - intros e He'. by apply HP'.
  - intros j d e Hd Ho Hoff He'. destruct (Hl j d Hd) as [[-> ->]|[Hj Hd']]; [by apply Hown|]. by eapply HP'.
  - intros j k d1 d2 Hjk H1 H2 Ho1 Ho2 Hf1 Hf2.
    destruct (Hl j d1 H1) as [[-> ->]|[Hj H1']], (Hl k d2 H2) as [[-> ->]|[Hk H2']].
    + done.
    + by eapply (proj2 (Hown Ho1 Hf1)).
    + apply sep_sym. by eapply (proj2 (Hown Ho2 Hf2)).
    + by eapply (si_pair _ _ Hi j k).
  - intros j d Hd. destruct (Hl j d Hd) as [[-> ->]|[Hj Hd']]; [done|]. intros. by eapply HP, (si_dedup _ _ Hi).
Qed.

Lemma sys_inv_modify s G i c w' c' G' : sys_inv s G -> sy_chains s !! i = Some c ->
  modified (sy_world s) c w' c' G G' -> lost c c' = false ->
  sys_inv (mkSys w' (<[i := c']> (sy_chains s)) (sy_protected s) (sy_lost s || lost c c')) G'.
Proof.
  intros Hi Hc [M1 M2 M3 M4 M5] Hl.
  assert (HG : forall e, e ∈ G -> e ∈ G') by (intros e; destruct M5 as [[_ ->]|(_ & _ & _ & ->)]; [done|by right]).
  apply (inv_replace s G i c); try done.
  - by rewrite M1, (si_emerg _ _ Hi).
  - intros Ho. destruct M5 as [[(Ex & _) ->]|(_ & _ & _ & ->)]; [|by left]. rewrite Ex. apply (si_chain _ _ Hi i c Hc).
    injection Ex as <- _. done.
  - intros e He. split; [by apply HG, (si_protected _ _ Hi)|]. intros. by eapply (si_owned _ _ Hi).
  - intros Ho Hoff. destruct M5 as [[(Ex & K1 & _) ->]|(_ & _ & Hf & ->)].
    + destruct (K1 Ho) as [Hoc|]; [|congruence]. assert (Hoffc : ch_off c <> 0) by (injection Ex as <- _; done).
      rewrite Ex. split; intros; [by eapply (si_owned _ _ Hi)|]. by eapply (si_pair _ _ Hi i).
    + rewrite Forall_forall in Hf. split; [intros e He; by apply Hf, (si_protected _ _ Hi)|].
      intros j d Hj Hd Hod Hofd. apply Hf. by apply (si_chain _ _ Hi j d Hd).
  - intros Hoff Hm Hd. destruct M5 as [[(Ex & _ & _ & K) ->]|(Ho & _)].
    + destruct (K Hm Hd). rewrite Ex. eapply (si_dedup _ _ Hi); try done. injection Ex as <- _. done.
    + unfold owned in Ho. by rewrite Hd, andb_false_r in Ho.
Qed.

(** A change of flags that keeps the block and its data. *)
Lemma chain_ok_flags c f : chain_ok c -> (has f HAMMER2_CHAIN_INITIAL = true -> has (ch_flags c) HAMMER2_CHAIN_INITIAL = true) ->
  (has f HAMMER2_CHAIN_INITIAL = true -> ch_off c <> 0 -> owned (ch_with_flags c f) = true) ->
  (ch_off c = 0 -> has f HAMMER2_CHAIN_INITIAL = true) -> chain_ok (ch_with_flags c f).
Proof.
  intros Hok Hi Ho Hb. split; [by apply (block_ok_ext c _ (co_block _ Hok))|apply (co_data _ Hok)| |exact Hb].
  intros E. split; [apply (co_initial _ Hok), Hi, E|by apply Ho].
Qed.

(** The protected extents after a step, and their bytes. *)
Definition protects (s s' : system) : Prop :=
  (forall e, e ∈ sy_protected s -> e ∈ sy_protected s') /\
  forall e x, e ∈ sy_protected s -> inside e x -> w_mem (sy_world s') x = w_mem (sy_world s) x.

Lemma written_spec c : written c = true -> has (ch_flags c) HAMMER2_CHAIN_MODIFIED = true /\
  has (ch_flags c) HAMMER2_CHAIN_INITIAL = false /\ ch_off c <> 0.
Proof.
  unfold written. rewrite !andb_true_iff. intros [[H1 H2] H3]. apply negb_true_iff in H2. by destruct (nz_spec (ch_off c)).
Qed.

(** The block of a written chain becomes protected, and the chain may no longer
    write to it. *)
Lemma sys_inv_protect s G i c f : sys_inv s G -> sy_chains s !! i = Some c -> written c = true ->
  has f HAMMER2_CHAIN_INITIAL = has (ch_flags c) HAMMER2_CHAIN_INITIAL -> owned (ch_with_flags c f) = false ->
  sys_inv (mkSys (sy_world s) (<[i := ch_with_flags c f]> (sy_chains s)) (ch_extent c :: sy_protected s) (sy_lost s)) G.
Proof.
  intros Hi Hc (Hm & Hini & Hoff)%written_spec Ef Hown. destruct (si_chain _ _ Hi i c Hc) as [Hok Hx].
  apply (inv_replace s G i c); try done; try apply Hi.
  - apply chain_ok_flags; try done; by rewrite Ef, ?Hini.
  - intros e He. by right.
  - intros e [->|He]%elem_of_cons.
    + split; [by apply Hx|]. intros j d Hj Hd Ho Hod. destruct (owned c) eqn:Eo; [by eapply (si_pair _ _ Hi j i)|].
      eapply (si_owned _ _ Hi); try done. eapply (si_dedup _ _ Hi); try done. unfold owned in Eo. rewrite Hm in Eo.
      by apply negb_false_iff.
    + split; [by apply (si_protected _ _ Hi)|]. intros. by eapply (si_owned _ _ Hi).
  - by rewrite Hown.
  - intros _ _ _. by left.
Qed.

Lemma sys_inv_write s G i c f : sys_inv s G -> sy_chains s !! i = Some c -> owned c = true -> ch_off c <> 0 ->
  let s' := mkSys (w_with_mem (sy_world s) (mem_write (w_mem (sy_world s)) (ch_extent c) f))
              (<[i := ch_clear c HAMMER2_CHAIN_INITIAL]> (sy_chains s)) (sy_protected s) (sy_lost s) in
  sys_inv s' G /\ protects s s'.
Proof.
  intros Hi Hc Ho Hoff s'. destruct (si_chain _ _ Hi i c Hc) as [Hok Hx]. split.
  - assert (Eo : owned (ch_clear c HAMMER2_CHAIN_INITIAL) = true) by (unfold owned in *; chsimpl; by flagb).
    apply (inv_replace s G i c); try done; try apply Hi.
    + apply chain_ok_flags; try done. by rewrite has_clear.
    + intros e He. split; [by apply (si_protected _ _ Hi)|]. intros. by eapply (si_owned _ _ Hi).
    + intros _ _. split; [intros; by eapply (si_owned _ _ Hi i c)|]. intros j d Hj. intros. by apply (si_pair _ _ Hi i j c d).
    + intros _ Hm Hd. unfold owned in Eo. by rewrite Hm, Hd in Eo.
  - split; [done|]. intros e x He Hin. cbn. unfold mem_write. case_decide as Hw; [|done].
    destruct (sep_inside (ch_extent c) e x); try done. by eapply (si_owned _ _ Hi).
Qed.

Lemma sys_inv_unlock s G i c : sys_inv s G -> sy_chains s !! i = Some c ->
  let r := hammer2_chain_drop_data (sy_world s) c in
  let s' := mkSys r.1 (<[i := r.2]> (sy_chains s)) (sy_protected s) (sy_lost s) in
  sys_inv s' G /\ protects s s'.
Proof.
  intros Hi Hc r s'. destruct (si_chain _ _ Hi i c Hc) as [Hok Hx].
  assert (Hr : r = (sy_world s, ch_with_data c None false) \/ r = (sy_world s, c)).
  { unfold r, hammer2_chain_drop_data. destruct (co_data _ Hok) as [[Ed Eo]|(Ed & Eo & _)]; rewrite Ed, Eo; [|by left].
    case_match; by right. }
  assert (Hok' : chain_ok r.2 /\ r.1 = sy_world s /\ ch_flags r.2 = ch_flags c /\ ch_extent r.2 = ch_extent c).
  { destruct Hr as [-> | ->]; [|done]. cbn [fst snd]. split_and!; try done.
    split; [by apply (block_ok_ext c _ (co_block _ Hok))|by left| |apply (co_blank _ Hok)].
    intros E. split; [done|]. apply (co_initial _ Hok E). }
  destruct Hok' as (K1 & K2 & K3 & K4). injection K4 as K4 K5.
  assert (Eo : owned r.2 = owned c) by (unfold owned; by rewrite K3). split.
  - unfold s'. rewrite K2. apply (inv_replace s G i c); try done; try apply Hi; unfold ch_extent; rewrite ?Eo, ?K3, ?K4, ?K5.
    + done.
    + intros e He. split; [by apply (si_protected _ _ Hi)|]. intros. by eapply (si_owned _ _ Hi).
    + intros Ho Hoff. split; [intros; by eapply (si_owned _ _ Hi i c)|]. intros j d Hj. intros. by apply (si_pair _ _ Hi i j c d).
    + intros. by eapply (si_dedup _ _ Hi).
  - split; [done|]. intros. unfold s'. cbn. by rewrite K2.
Qed.

Lemma op_flags_fit c opt : flags_fit c (op_flags c opt).
Proof.
  unfold flags_fit, op_flags. destruct (_ && _) eqn:E; [|done]. intros _. apply andb_true_iff in E as [_ E].
  apply orb_true_iff in E as [E|E]; [left; by apply Z.eqb_eq|by right].
Qed.

Lemma cow_step_ok s G op : sys_inv s G ->
  match cow_step s op with
  | None => exists t off, buf_error t off <> 0
  | Some s' => (sy_lost s' = false -> sy_lost s = false /\ protects s s' /\ exists G', sys_inv s' G')
  end.
Proof.
  intros Hi. assert (Hsame : sy_lost s = false -> sy_lost s = false /\ protects s s /\ exists G', sys_inv s G')
    by (intros E; split_and!; [done|by split|eauto]).
  unfold cow_step. destruct (sy_chains s !! op_index op) as [c|] eqn:Hc; [|done].
  destruct (si_chain _ _ Hi _ c Hc) as [Hok Hx]. unfold cow_at. destruct s as [w cs P l] eqn:Es. rewrite <- Es in *.
  assert (Ew : w = sy_world s /\ cs = sy_chains s /\ P = sy_protected s /\ l = sy_lost s) by (by rewrite Es).
  clear Es. destruct Ew as (-> & -> & -> & ->). destruct op as [i mtid opt|i f|i|i|i]; cbn [op_index] in *.
  - pose proof (modify_ok (sy_world s) [] c mtid (op_flags c opt) G Hok (si_space _ _ Hi) (si_emerg _ _ Hi)
      (op_flags_fit c opt)) as M.
    destruct (modify (sy_world s) [] c mtid 0 (op_flags c opt)) as [[[[w' up'] c'] e]|]; cbn [mbind option_bind]; [|done].
    cbn [sy_lost]. intros [E1 E2]%orb_false_iff. split; [done|]. destruct M as (G' & M).
    pose proof (sys_inv_modify s G i c w' c' G' Hi Hc M E2) as Hi'. split; [|eauto]. split; [done|].
    intros x b He Hin. cbn. destruct (md_mem _ _ _ _ _ _ M b) as [|(Hb & Ho & Hoff)]; [done|].
    destruct (sep_inside (ch_extent c') x b); try done. eapply (si_owned _ _ Hi' i); try done. cbn.
    by rewrite list_lookup_insert_eq by by eapply lookup_lt_Some.
  - destruct (owned c && nz (ch_off c)) eqn:E; [|done]. apply andb_true_iff in E as [Ho Hn].
    destruct (nz_spec (ch_off c)); [|done]. cbn [sy_lost]. intros El. split; [done|].
    destruct (sys_inv_write s G i c f Hi Hc Ho) as [? ?]; [done|]. eauto.
  - destruct (written c) eqn:Ew; [|done]. cbn [sy_lost]. intros El. split; [done|]. split; [split; [intros; by right|done]|].
    exists G. apply sys_inv_protect; try done; [chsimpl; by flagb|]. unfold owned. chsimpl. flagb. apply andb_false_r.
  - destruct (written c) eqn:Ew; [|done]. cbn [sy_lost]. intros El. split; [done|]. split; [split; [intros; by right|done]|].
    exists G. change (ch_clear (ch_clear c _) _) with (ch_with_flags c (ch_flags c &~ HAMMER2_CHAIN_MODIFIED &~ HAMMER2_CHAIN_UPDATE)).
    apply sys_inv_protect; try done; [chsimpl; by flagb|]. unfold owned. chsimpl. by flagb.
  - destruct (sys_inv_unlock s G i c Hi Hc) as [H1 H2]. destruct (hammer2_chain_drop_data (sy_world s) c) as [w' c'].
    cbn [sy_lost fst snd] in *. intros El. eauto.
Qed.

(** What keeps the modifications from failing an assertion. *)
Definition sys_wf (s : system) : Prop :=
  has (w_hflags (sy_world s)) HMNT2_EMERG = false /\ Forall chain_ok (sy_chains s) /\
  exists G, space (w_fm (sy_world s)) total G.

Lemma drop_data_ok w c : chain_ok c -> exists c', hammer2_chain_drop_data w c = (w, c') /\ chain_ok c'.
Proof.
  intros Hok. unfold hammer2_chain_drop_data. destruct (co_data _ Hok) as [[Ed Eo]|(Ed & Eo & _)]; rewrite Ed, Eo.
  - exists c. by case_match.
  - eexists. split; [done|]. split; [by apply (block_ok_ext c _ (co_block _ Hok))|by left| |apply (co_blank _ Hok)].
    intros E. split; [done|]. apply (co_initial _ Hok E).
Qed.

Lemma written_chain_ok c f : chain_ok c -> written c = true ->
  has f HAMMER2_CHAIN_INITIAL = has (ch_flags c) HAMMER2_CHAIN_INITIAL -> chain_ok (ch_with_flags c f).
Proof. intros Hok (_ & Hi & Ho)%written_spec E. apply chain_ok_flags; rewrite ?E, ?Hi; done. Qed.

Lemma cow_step_wf s op : sys_wf s ->
  match cow_step s op with None => exists t off, buf_error t off <> 0 | Some s' => sys_wf s' end.
Proof.
  intros (He & Hcs & G & Hs). unfold cow_step. destruct (sy_chains s !! op_index op) as [c|] eqn:Hc; [|by split_and!; eauto].
  pose proof (Forall_lookup_1 _ _ _ _ Hcs Hc) as Hok.
  assert (Hset : forall w' c', w_hflags w' = w_hflags (sy_world s) -> w_fm w' = w_fm (sy_world s) -> chain_ok c' ->
    forall P l, sys_wf (mkSys w' (<[op_index op := c']> (sy_chains s)) P l)).
  { intros w' c' E1 E2 Hc' P l. split; [by cbn; rewrite E1|]. split; [by apply Forall_insert|]. exists G. cbn. by rewrite E2. }
  unfold cow_at. destruct s as [w cs P l]. cbn [sy_world sy_chains sy_protected sy_lost] in *.
  destruct op as [i mtid opt|i f|i|i|i]; cbn [op_index] in *.
  - pose proof (modify_ok w [] c mtid (op_flags c opt) G Hok Hs He (op_flags_fit c opt)) as M.
    destruct (modify w [] c mtid 0 (op_flags c opt)) as [[[[w' up'] c'] e]|]; cbn [mbind option_bind]; [|done].
    destruct M as (G' & [M1 M2 M3 _ _]). split; [by cbn; rewrite M1|]. split; [by apply Forall_insert|]. by exists G'.
  - destruct (owned c && nz (ch_off c)) eqn:E; [|by split_and!; eauto]. apply andb_true_iff in E as [_ Hn].
    destruct (nz_spec (ch_off c)); [|done]. apply Hset; try done. apply chain_ok_flags; try done; by rewrite has_clear.
  - destruct (written c) eqn:Ew; [|by split_and!; eauto]. apply Hset; try done. apply written_chain_ok; try done. by flagb.
  - destruct (written c) eqn:Ew; [|by split_and!; eauto]. apply Hset; try done.
    change (ch_clear (ch_clear c _) _) with (ch_with_flags c (ch_flags c &~ HAMMER2_CHAIN_MODIFIED &~ HAMMER2_CHAIN_UPDATE)).
    apply written_chain_ok; try done. by flagb.
  - destruct (drop_data_ok w c Hok) as (c' & -> & Hc'). by apply Hset.
Qed.

Lemma cow_run_wf ops : forall s, sys_wf s ->
  match cow_run s ops with None => exists t off, buf_error t off <> 0 | Some s' => sys_wf s' end.
Proof.
  induction ops as [|op ops IH]; intros s Hs; cbn [cow_run]; [done|]. pose proof (cow_step_wf s op Hs) as H.
  destruct (cow_step s op) as [s'|]; cbn [mbind option_bind]; [|done]. by apply IH.
Qed.

(** A loss is not forgotten. *)
Lemma cow_run_lost ops : forall s s', cow_run s ops = Some s' -> sy_lost s' = false -> sy_lost s = false.
Proof.
  induction ops as [|op ops IH]; intros s s'; cbn [cow_run]; [by intros [= <-]|].
  destruct (cow_step s op) as [s1|] eqn:Es; cbn [mbind option_bind]; [|done]. intros E El. specialize (IH s1 s' E El).
  revert IH. clear -Es. unfold cow_step, cow_at in Es. destruct s as [w cs P l]. cbn [sy_chains] in Es.
  destruct (cs !! op_index op) as [c|]; [|by injection Es as <-]. destruct op; try (by case_match; injection Es as <-).
  destruct (modify _ _ _ _ _ _) as [[[[w' up'] c'] e]|]; [|done]. injection Es as <-. cbn. by intros [-> _]%orb_false_iff.
Qed.

Lemma cow_run_ok ops : forall s s' G, sys_inv s G -> cow_run s ops = Some s' -> sy_lost s' = false ->
  sy_lost s = false /\ protects s s' /\ exists G', sys_inv s' G'.
Proof.
  induction ops as [|op ops IH]; intros s s' G Hi; cbn [cow_run].
  { intros [= <-] El. split_and!; [done|by split|eauto]. }
  pose proof (cow_step_ok s G op Hi) as H. destruct (cow_step s op) as [s1|]; cbn [mbind option_bind]; [|done].
  intros E El. destruct (H (cow_run_lost ops s1 s' E El)) as (Hl & [P1 P2] & G1 & Hi1).
  destruct (IH s1 s' G1 Hi1 E El) as (_ & [Q1 Q2] & HG'). split; [done|]. split; [|done]. split; [auto|].
  intros e x He Hx. rewrite (Q2 e x) by auto. by eapply P2.
Qed.

(** Where the data is there, or not needed, nothing is loaded. *)
Lemma modify_noload w up c mtid flags : block_ok c ->
  ch_data c <> None \/ has flags HAMMER2_MODIFY_OPTDATA = true \/ ch_off c = 0 ->
  modify w up c mtid 0 flags =
  (let '(w, c, (newmod, setmodified, setupdate)) := modify_flags w c in
   '(w, c, error) ← modify_storage io limit_chains limit_inodes w c 0 newmod;
   if nz error then let '(w, c) := modify_undo w c setmodified setupdate in Some (w, up, c, error)
   else modify_finish volume buf_error w up c mtid 0 flags).
Proof.
  intros Hb Hd. destruct (block_types c Hb) as (_ & _ & T1 & T2 & _ & T3). unfold hammer2_chain_modify.
  rewrite T1, T2. cbn [orb andb].
  assert (E : match ch_data c with
     | Some _ => false
     | None => nz (ch_bytes c) && negb (has flags HAMMER2_MODIFY_OPTDATA) && nz (ch_off c) end = false).
  { destruct (ch_data c); [done|]. destruct Hd as [|[E|E]]; [done|by rewrite E, andb_false_r|by rewrite E, andb_false_r]. }
  by rewrite E.
Qed.

(** Otherwise the modification goes on with what was loaded. *)
Lemma modify_load w up c mtid w1 c1 : chain_ok c -> ch_data c = None -> ch_off c <> 0 ->
  hammer2_chain_load_data h volume buf_error w c = Some (w1, c1) -> ch_error c1 = 0 -> chain_ok c1 -> ch_data c1 <> None ->
  modify w up c mtid 0 0 = modify w1 up c1 mtid 0 0.
Proof.
  intros Hok Ed Ho El Ee Hok1 Hd1. rewrite (modify_noload w1) by (apply Hok1 || by left).
  destruct (block_types c (co_block _ Hok)) as (_ & _ & T1 & T2 & _ & T3).
  assert (En0 : nz (ch_bytes c) = true) by (unfold nz; by rewrite T3).
  unfold hammer2_chain_modify. rewrite T1, T2, Ed, En0. destruct (nz_spec (ch_off c)); [|done].
  change (has 0 HAMMER2_MODIFY_OPTDATA) with false. cbn [negb orb andb]. rewrite El. cbn [mbind option_bind andb].
  rewrite Ee. done.
Qed.

(** A chain that owns its block keeps it. *)
Lemma inplace_ok w up c mtid flags : chain_ok c -> owned c = true -> ch_off c <> 0 -> has (w_hflags w) HMNT2_EMERG = false ->
  ch_data c <> None \/ modify_skip c 0 flags = true ->
  nz (buf_error (w_tick w) (ch_off c)) = false \/ modify_skip c 0 flags = true ->
  exists w' up' c' e, modify w up c mtid 0 flags = Some (w', up', c', e) /\ w_mem w' = w_mem w /\ w_fm w' = w_fm w /\
    ch_extent c' = ch_extent c /\ owned c' = true /\ e = (if modify_skip c 0 flags then ch_error c else 0).
Proof.
  intros Hok Hown Ho He Hd Hbuf. pose proof (co_block _ Hok) as Hb.
  rewrite modify_noload; [|done|].
  2:{ destruct Hd as [|E]; [by left|right; left]. unfold modify_skip in E. rewrite !andb_true_iff in E. apply E. }
  destruct (flags_ok w c Hb He) as (w1 & f & -> & (W1 & W2 & W3 & W4 & W5) & F1 & Fu & F2 & F3).
  set (c1 := ch_with_flags c f). assert (Hb1 : block_ok c1) by (by apply (block_ok_ext c)).
  rewrite Hown. unfold modify_storage. change (ch_off c1) with (ch_off c). rewrite (proj2 (Z.eqb_neq _ _) Ho).
  cbn [orb negb]. rewrite andb_false_r. cbn [mbind option_bind]. change (nz 0) with false. cbv iota.
  assert (Ho1 : owned c1 = true).
  { unfold owned in *. unfold c1. chsimpl. rewrite F1, F2. by apply andb_true_iff in Hown as [_ ->]. }
  assert (Ei : ch_data c <> None -> has (ch_flags c) HAMMER2_CHAIN_INITIAL = false).
  { intros Hn. destruct (has (ch_flags c) HAMMER2_CHAIN_INITIAL) eqn:E; [|done]. by destruct (co_initial _ Hok E). }
  assert (Hd1 : data_ok c1) by (destruct (co_data _ Hok) as [?|(? & ? & ?)]; [by left|right; eauto]).
  assert (Hi1 : has (ch_flags c1) HAMMER2_CHAIN_INITIAL = true -> ch_data c1 = None)
    by (unfold c1; chsimpl; rewrite F3; apply (co_initial _ Hok)).
  assert (Hn1 : modify_skip c1 0 flags = false -> ch_data c1 = None -> has (ch_flags c1) HAMMER2_CHAIN_INITIAL = true)
    by (change (modify_skip c1 0 flags) with (modify_skip c 0 flags); intros Es En; destruct Hd; [done|congruence]).
  pose proof (finish_ok w1 up c1 mtid flags Hb1 Ho Ho1 Hd1 Hi1 Hn1) as H. cbv zeta in H.
  change (modify_skip c1 0 flags) with (modify_skip c 0 flags) in H. change (ch_off c1) with (ch_off c) in H. rewrite W5 in H.
  assert (Hf : negb (modify_skip c 0 flags) && nz (buf_error (w_tick w) (ch_off c)) = false)
    by (destruct Hbuf as [-> | ->]; [apply andb_false_r|done]).
  rewrite Hf in H. unfold modify_finish in *.
  destruct (if modify_skip _ 0 flags then _ else _) as [[w' c']|]; cbn [mbind option_bind] in *; [|done].
  destruct H as ((V1 & _) & Ex & Hfl & _ & _ & _ & Hm & Hend).
  eexists _, _, c', _. split; [done|]. rewrite Hm, V1, W1, W2, Ex, (owned_same c1 c' Hfl). split_and!; try done.
  - rewrite orb_false_r. destruct (modify_skip c 0 flags); [done|]. unfold filled. change (ch_data c1) with (ch_data c).
    destruct (co_data _ Hok) as [[? _]|(-> & _)]; [by destruct Hd|]. by rewrite Z.eqb_refl.
  - destruct (modify_skip c 0 flags); [done|]. apply Hend.
Qed.

(** A chain that owns its block, without data, loads what the block holds. *)
Lemma reload_ok w up c mtid : chain_ok c -> owned c = true -> ch_off c <> 0 -> ch_data c = None ->
  has (ch_flags c) HAMMER2_CHAIN_INITIAL = false -> has (w_hflags w) HMNT2_EMERG = false ->
  (forall t x, (w_tick w <= t)%nat -> nz (buf_error t x) = false) ->
  exists w' up' c', modify w up c mtid 0 0 = Some (w', up', c', 0) /\ ch_extent c' = ch_extent c /\ w_mem w' = w_mem w.
Proof.
  intros Hok Hown Ho Ed Hi He Hg. pose proof Hown as Hown'. unfold owned in Hown'. apply andb_true_iff in Hown' as [Hm _].
  destruct (load_ok w c Hok Ed Ho) as (w3 & c3 & El & (U1 & U2 & _) & Et3 & Hm3 & Eb3 & En3 & Hok3 & Hf3 & Hend).
  rewrite Hg in Hend, Hm3 by lia. destruct Hend as [Ed3 Ee3]. specialize (Ee3 Hm). rewrite Hi in Hm3.
  assert (Ex3 : ch_extent c3 = ch_extent c) by (unfold ch_extent, ch_off; by rewrite Eb3, En3).
  destruct (inplace_ok w3 up c3 mtid 0) as (w2 & up2 & c4 & e & Em & Hmem & _ & Ex2 & _ & Ee); try done.
  - by rewrite (owned_same c c3).
  - injection Ex3 as -> _. done.
  - by rewrite U2.
  - left. by rewrite Ed3.
  - left. apply Hg. lia.
  - exists w2, up2, c4. rewrite (modify_load w up c mtid w3 c3), Em, Ee by (done || by rewrite Ed3).
    rewrite Ee3, Hmem, Hm3. split_and!; [by case_match|congruence|done].
Qed.

(** The first half of a modification whose new block has no buffer. *)
Lemma fault_ok w up c mtid G d b : space (w_fm w) total G -> has (w_hflags w) HMNT2_EMERG = false ->
  chain_ok c -> (ch_off c <> 0 -> owned c = false /\ ch_data c <> None) ->
  hammer2_freemap_alloc io (w_fm w) (ch_bref c) (ch_bytes c) = Some (d, b, 0) ->
  (forall off, nz (buf_error (w_tick w) off) = true) ->
  if ch_dio c then
    exists w1 up1 c1, modify w up c mtid 0 0 = Some (w1, up1, c1, HAMMER2_ERROR_EIO) /\ Forall (sep (ch_extent c1)) G /\
      chain_ok c1 /\ owned c1 = true /\ ch_off c1 <> 0 /\ ch_data c1 = None /\
      has (ch_flags c1) HAMMER2_CHAIN_INITIAL = false /\ w_hflags w1 = w_hflags w /\ w_tick w1 = S (w_tick w) /\
      w_mem w1 = w_mem w
  else modify w up c mtid 0 0 = None.
Proof.
  intros Hs He Hok Hdata Ea Hbad. pose proof (co_block _ Hok) as Hb.
  assert (Hcase : (ch_off c =? 0) || negb (owned c) = true /\
    (ch_data c <> None \/ has 0 HAMMER2_MODIFY_OPTDATA = true \/ ch_off c = 0)).
  { destruct (Z.eqb_spec (ch_off c) 0) as [E|E]; [by auto|]. destruct (Hdata E) as (-> & ?). auto. }
  destruct Hcase as [Hneed Hnl]. rewrite modify_noload by done.
  destruct (flags_ok w c Hb He) as (w0 & f & -> & (W1 & W2 & W3 & W4 & W5) & F1 & _ & F2 & F3).
  set (c0 := ch_with_flags c f). assert (Hb0 : block_ok c0) by (by apply (block_ok_ext c)).
  rewrite <- W1 in Hs. rewrite <- W3 in He.
  destruct (storage_alloc w0 c0 (negb (owned c)) G Hb0 Hs He Hneed) as (d' & c2 & e & Est & E1 & E2 & E3 & E4 & E5 & E6 & Hp).
  assert (Ee : e = 0).
  { destruct (block_types c Hb) as (_ & _ & _ & _ & _ & T3).
    assert (En0 : nz (ch_bytes c) = true) by (unfold nz; by rewrite T3). revert Est.
    unfold modify_storage, modify_alloc, c0. chsimpl. change (ch_off (ch_with_flags c f)) with (ch_off c).
    rewrite (bk_root _ Hb), En0, Hneed, W1, Ea. cbn [mbind option_bind negb andb]. intros [= _ _ <-]. done. }
  subst e. rewrite Est. cbn [mbind option_bind]. change (nz 0) with false. cbv iota. destruct Hp as (Hb2 & Ho2 & Hf2 & Hsp).
  assert (Hown : owned c2 = true) by (unfold owned; rewrite E5; unfold c0; chsimpl; flagb; by rewrite F1).
  assert (Hd2 : data_ok c2).
  { unfold data_ok. rewrite E1, E2. destruct (co_data _ Hok) as [?|(? & ? & ?)]; [by left|right; eauto]. }
  assert (Hi2 : has (ch_flags c2) HAMMER2_CHAIN_INITIAL = bool_decide (ch_data c2 = None)).
  { rewrite E5, E1. unfold c0. chsimpl. flagb. rewrite F3. case_bool_decide as En.
    - apply (co_blank _ Hok). destruct (Z.eq_dec (ch_off c) 0); [done|]. by destruct (Hdata n) as (_ & ?).
    - destruct (has (ch_flags c) HAMMER2_CHAIN_INITIAL) eqn:Ei; [|done]. by destruct (co_initial _ Hok Ei). }
  assert (Hsk : modify_skip c2 0 0 = false) by (unfold modify_skip; by rewrite andb_false_r).
  assert (Hbad2 : nz (buf_error (w_tick (w_with_fm w0 d')) (ch_off c2)) = true)
    by (chsimpl; rewrite W5; apply Hbad).
  pose proof (finish_fault (w_with_fm w0 d') up c2 mtid 0 Hb2 Ho2 Hd2 Hi2 Hsk Hbad2) as Hff.
  rewrite E2 in Hff. change (ch_dio c0) with (ch_dio c) in Hff. destruct (ch_dio c) eqn:Edio; [|done].
  destruct Hff as [[[[w1 up1] c1] e1] Ef]. exists w1, up1, c1.
  pose proof (finish_ok (w_with_fm w0 d') up c2 mtid 0 Hb2 Ho2 Hown Hd2) as Hfin. cbv zeta in Hfin.
  rewrite Ef, Hsk, Hbad2 in Hfin. cbn [negb andb orb] in Hfin.
  destruct Hfin as ((V1 & V2 & _) & Ex & Hfl & Hok1 & _ & Et & Hm & -> & Ed1 & Hi1).
  { rewrite Hi2. by case_bool_decide. }
  { intros _ En. by rewrite Hi2, En. }
  chsimpl. rewrite Ex, (owned_same c2 c1 Hfl), V2, Et, Hm. injection Ex as -> _. by rewrite W5, W2.
Qed.
End Cow.

(** ** The theorems *)

(** The device around the chains: a freemap that can be read, and volumes that
    cover the space it hands out. *)
Record device_ok (io : chain_io) (volume : Z -> bool) (total : Z) : Prop := {
  dv_node : forall t k, io_node_error io t k = 0;
  dv_create : forall t k, io_create_error io t k <> HAMMER2_ERROR_EAGAIN;
  dv_modify : forall t k, io_modify_error io t k <> HAMMER2_ERROR_EAGAIN;
  dv_volume : forall p, 0 < p < total -> volume p = true
}.

(** A device of 1GB, a new chain, and an inode in the first block of it. *)
Definition volume_1g (p : Z) : bool := (0 <? p) && (p <? 1073741824).
Definition hashes_zero : hashes := mkHashes (fun _ => 0) (fun _ => 0) (fun _ => 0).
Definition no_error (t : nat) (off : Z) : Z := 0.
Definition world_of (d : fm_dev) : world := mkWorld d (fun x => x mod 256) 0 0 0 (Some (mkPfs 0 0 0 0)) false 0.
Definition new_chain : hammer2_chain :=
  mkChain (mkBref HAMMER2_BREF_TYPE_INODE 48 0 0 0 0 0 0 0 0 0 0 0 0 0) HAMMER2_CHAIN_INITIAL 1024 0 None false false.
Definition inode_chain : hammer2_chain :=
  mkChain (bref_set_data_off (ch_bref new_chain) 8388618) 0 1024 0 (Some (At 8388608)) true false.
Definition dev_used : fm_dev :=
  match hammer2_freemap_alloc io_quiet dev_1g (ch_bref new_chain) 1024 with Some (d, _, _) => d | None => dev_1g end.

Lemma device_1g : device_ok io_quiet volume_1g 1073741824.
Proof.
  split; try done. intros p Hp. unfold volume_1g. by zcases.
Qed.

Lemma space_empty : space dev_1g 1073741824 [].
Proof.
  split; [done|vm_compute; split; split; congruence|by apply Forall_replicate|apply fm_inv_empty].
Qed.

Lemma new_chain_ok : chain_ok volume_1g new_chain.
Proof.
  split; [|by left|done|done]. split; try done; [by left|]. exists 10. split; [lia|]. split; [done|]. intros H. by destruct H.
Qed.

Lemma inode_chain_ok : chain_ok volume_1g inode_chain.
Proof.
  split; [|by right|done|done]. split; try done; [by left|]. exists 10. split; [lia|]. by split.
Qed.

Lemma space_used : space dev_used 1073741824 [(8388608, 1024)].
Proof.
  destruct device_1g as [D1 D2 D3 D4].
  destruct (alloc_space io_quiet volume_1g 1073741824 D1 D2 D3 D4 dev_1g [] (ch_bref new_chain) 10 space_empty)
    as (d & b & e & E & Hp); [lia|repeat split; vm_compute; congruence|].
  change (2 ^ 10) with 1024 in *. unfold dev_used. rewrite E.
  assert (Ev : br_data_off b = 8388618 /\ e = 0).
  { assert (E' : option_map (fun r => (br_data_off r.1.2, r.2)) (hammer2_freemap_alloc io_quiet dev_1g (ch_bref new_chain) 1024)
      = Some (8388618, 0)) by (by vm_compute). rewrite E in E'. injection E' as E1 E2. split; assumption. }
  destruct Ev as [Eb ->]. destruct Hp as (off & -> & Ha & _ & _ & _ & Hs).
  destruct (data_off_parts off 10 Ha) as [_ Eo]; [lia|]. change (Z.lor off 10 = 8388618) in Eb. rewrite Eb in Eo.
  vm_compute in Eo. by subst off.
Qed.



(** C15: what one hammer2_chain_modify() does to a chain with data where the
    buffers have no errors.  It returns.  When it succeeds the chain has a buffer
    with the same data, in its own block where it was modified already and its
    block not registered for deduplication, and otherwise in a block that overlaps
    none that was allocated before; no other byte changes; the chain is modified
    and to be updated in its parent, its transaction ids are the new ones, and the
    chains above are marked for the flush.  When it fails (no space, or data that
    does not match its check code) the chain keeps its block, no byte changes, and
    the chain is modified exactly when it was before. *)
Theorem chain_modify_copies io h volume buf_error lc li total w up c mtid G :
  device_ok io volume total -> space (w_fm w) total G -> has (w_hflags w) HMNT2_EMERG = false ->
  chain_ok volume c -> has (ch_flags c) HAMMER2_CHAIN_INITIAL = false -> (forall t off, buf_error t off = 0) ->
  exists w' up' c' e, hammer2_chain_modify io h volume buf_error lc li w up c mtid 0 0 = Some (w', up', c', e) /\
    if e =? 0 then copied w up c mtid G w' up' c' else refused w up c w' up' c'.
Proof.
  intros [D1 D2 D3 D4] Hs He Hok Hini Hbuf. pose proof (co_block _ _ Hok) as Hb.
  assert (Ho : ch_off c <> 0) by (intros E; apply (co_blank _ _ Hok) in E; congruence).
  destruct (ch_data c) as [p|] eqn:Ed.
  { rewrite (modify_noload io h volume buf_error lc li) by (done || left; congruence).
    apply (tail_copy io volume buf_error lc li total); try done. destruct (co_data _ _ Hok) as [[? _]|(? & _)]; congruence. }
  destruct (block_types _ c Hb) as (_ & _ & T1 & T2 & _ & T3). unfold hammer2_chain_modify.
  assert (En0 : nz (ch_bytes c) = true) by (unfold nz; by rewrite T3).
  rewrite T1, T2, Ed, En0. destruct (nz_spec (ch_off c)); [|done].
  change (has 0 HAMMER2_MODIFY_OPTDATA) with false. cbn [negb orb andb].
  destruct (load_ok h volume buf_error w c Hok Ed Ho) as (w1 & c1 & -> & (W1 & W2 & W3 & W4 & W5) & _ & Hm & Eb & En & Hok1 & Hf & Hend).
  rewrite Hini in Hm. rewrite Hbuf in Hend. cbn [mbind option_bind andb] in *. destruct Hend as [Ed1 _].
  assert (Eo : ch_off c1 = ch_off c) by (unfold ch_off; by rewrite Eb).
  assert (Ex : ch_extent c1 = ch_extent c) by (unfold ch_extent; by rewrite Eo, En).
  destruct (nz_spec (ch_error c1)) as [Hne|].
  - eexists _, _, _, _. split; [done|]. rewrite (proj2 (Z.eqb_neq _ _) Hne). split; [done|]. rewrite Hm.
    by destruct Hf as (-> & _).
  - rewrite <- W1 in Hs. rewrite <- W2 in He. rewrite <- Eo in Ed1.
    destruct (tail_copy io volume buf_error lc li total D1 D2 D3 D4 w1 up c1 mtid 0 G Hok1 Ed1 Hs He Hbuf)
      as (w' & up' & c' & e & -> & Hp). exists w', up', c', e. split; [done|]. destruct (e =? 0).
    + destruct Hp as [P1 P2 P3 P4 P5 P6 P7 P8]. rewrite En, Eo, Eb, W5, Hm, (owned_same c c1 Hf) in *. done.
    + destruct Hp as (P1 & P2 & P3 & P4). rewrite Ex, Hm in *. destruct Hf as (F1 & _). rewrite F1 in P4. done.
Qed.

Lemma chain_modify_copies_witness :
  exists w' up' c' e,
    hammer2_chain_modify io_quiet hashes_zero volume_1g no_error 100 100 (world_of dev_used)
      [mkAncestor HAMMER2_BREF_TYPE_INDIRECT 0] inode_chain 5 0 0 = Some (w', up', c', e) /\ e = 0 /\
    copied (world_of dev_used) [mkAncestor HAMMER2_BREF_TYPE_INDIRECT 0] inode_chain 5 [(8388608, 1024)] w' up' c'.
Proof.
  destruct (chain_modify_copies io_quiet hashes_zero volume_1g no_error 100 100 1073741824 (world_of dev_used)
    [mkAncestor HAMMER2_BREF_TYPE_INDIRECT 0] inode_chain 5 [(8388608, 1024)] device_1g space_used eq_refl inode_chain_ok eq_refl
    (fun _ _ => eq_refl)) as (w' & up' & c' & e & E & Hp).
  assert (Ee : option_map snd (hammer2_chain_modify io_quiet hashes_zero volume_1g no_error 100 100 (world_of dev_used)
      [mkAncestor HAMMER2_BREF_TYPE_INDIRECT 0] inode_chain 5 0 0) = Some 0) by (by vm_compute).
  rewrite E in Ee. injection Ee as ->. exists w', up', c', 0. split_and!; done.
Defined.

(** C31: a modification that gets no space.  It returns the error of the
    allocation with the data, the flags and the block of the chain as they were,
    but for DEDUPABLE, which is cleared though no new storage has been assigned.
    The count of dirty chains of the PFS stays one too high for a chain that was
    not modified.  A chain that was modified, with a block registered for
    deduplication, has forgotten the registration: the next modification of it
    keeps the block and returns success, for the caller to write to it. *)
Theorem chain_modify_failed io h volume buf_error lc li w up c mtid flags d e :
  chain_ok volume c -> has (w_hflags w) HMNT2_EMERG = false -> ch_error c = 0 ->
  - 2 ^ 31 <= w_chain_modified w < 2 ^ 31 - 1 ->
  ch_data c <> None \/ has flags HAMMER2_MODIFY_OPTDATA = true -> ch_off c = 0 \/ owned c = false ->
  hammer2_freemap_alloc io (w_fm w) (ch_bref c) (ch_bytes c) = Some (d, ch_bref c, e) -> e <> 0 ->
  let modify := hammer2_chain_modify io h volume buf_error lc li in
  let modified := has (ch_flags c) HAMMER2_CHAIN_MODIFIED in
  let c1 := ch_clear c HAMMER2_CHAIN_DEDUPABLE in
  let w1 := w_with_counts (w_with_fm w d) (w_chain_modified w)
              (if modified then w_pmp w else hammer2_pfs_memory_inc (w_pmp w)) in
  modify w up c mtid 0 flags = Some (w1, up, c1, e) /\
  (modified = true -> modify_skip c 0 flags = true -> ch_off c <> 0 ->
   exists w2 up2 c2, modify w1 up c1 mtid 0 flags = Some (w2, up2, c2, 0) /\ w_fm w2 = d /\
     ch_extent c2 = ch_extent c /\ owned c2 = true).
Proof.
  intros Hok He Herr Hn Hd Hneed Ea Hne modify modified c1 w1. pose proof (co_block _ _ Hok) as Hb.
  split.
  - unfold modify. rewrite (modify_noload io h volume buf_error lc li) by (done || by destruct Hd; auto).
    pose proof (failed_ok w c d Hn) as Hu.
    destruct (flags_ok volume w c Hb He) as (w0 & f & Ef & (W1 & W2 & W3 & W4 & W5) & _). rewrite Ef in *.
    destruct (block_types _ c Hb) as (_ & _ & _ & _ & _ & T3).
    unfold modify_storage, modify_alloc. chsimpl. change (ch_off (ch_with_flags c f)) with (ch_off c).
    assert (En0 : nz (ch_bytes c) = true) by (unfold nz; by rewrite T3).
    rewrite (bk_root _ _ Hb), En0. cbn [negb andb].
    assert (En : (ch_off c =? 0) || negb (owned c) = true)
      by (destruct Hneed as [-> | ->]; [done|apply orb_true_r]).
    rewrite En, W1, Ea, W3, He. change (nz 0) with false. cbn [mbind option_bind].
    rewrite andb_false_r, (proj2 (Z.eqb_neq _ _) Hne). destruct (nz_spec e); [|done].
    replace (ch_with_bref (ch_with_flags c f) (ch_bref c)) with (ch_with_flags c f) by (by destruct c).
    cbn [mbind option_bind]. destruct (nz_spec e); [|done]. by rewrite Hu.
  - intros Hm Hskip Ho.
    assert (Hok1 : chain_ok volume c1).
    { apply chain_ok_flags; [done| | |]; chsimpl; flagb; [done| |apply (co_blank _ _ Hok)].
      intros Ei _. unfold owned. chsimpl. flagb. change (modified && true = true). by rewrite Hm. }
    assert (Ho1 : owned c1 = true) by (unfold owned, c1; chsimpl; flagb; change (modified && true = true); by rewrite Hm).
    destruct (inplace_ok io h volume buf_error lc li w1 up c1 mtid flags Hok1 Ho1 Ho He (or_intror Hskip) (or_intror Hskip))
      as (w2 & up2 & c2 & e2 & E & _ & Hfm & Ex & Hown & Ee).
    exists w2, up2, c2. change (modify_skip c1 0 flags) with (modify_skip c 0 flags) in Ee. rewrite Hskip in Ee.
    unfold modify. rewrite E, Ee. unfold c1. chsimpl. rewrite Herr, Hfm. done.
Qed.

(** A device with no space, and a block of file data that is modified and
    registered. *)
Definition io_full : chain_io :=
  mkIo (fun _ _ => 0) (fun _ _ => 0) (fun _ _ => HAMMER2_ERROR_ENOSPC) (fun _ _ => 0).
Definition data_chain : hammer2_chain :=
  mkChain (mkBref HAMMER2_BREF_TYPE_DATA 48 0 16 0 0 0 0 0 0 8388624 0 0 0 0)
    (HAMMER2_CHAIN_MODIFIED ||| HAMMER2_CHAIN_DEDUPABLE) 65536 0 None false false.

Lemma data_chain_ok : chain_ok volume_1g data_chain.
Proof.
  split; [|by left|done|done]. split; try done; [by right; right; left|]. exists 16. split; [lia|]. by split.
Qed.

Lemma chain_modify_failed_witness :
  exists d w2 up2 c2,
    let modify := hammer2_chain_modify io_full hashes_zero volume_1g no_error 100 100 in
    let c1 := ch_clear data_chain HAMMER2_CHAIN_DEDUPABLE in
    let w1 := w_with_counts (w_with_fm (world_of dev_1g) d) 0 (Some (mkPfs 0 0 0 0)) in
    modify (world_of dev_1g) [] data_chain 5 0 HAMMER2_MODIFY_OPTDATA = Some (w1, [], c1, HAMMER2_ERROR_ENOSPC) /\
    modify w1 [] c1 5 0 HAMMER2_MODIFY_OPTDATA = Some (w2, up2, c2, 0) /\ ch_extent c2 = ch_extent data_chain /\
    owned c2 = true.
Proof.
  destruct (hammer2_freemap_alloc io_full dev_1g (ch_bref data_chain) 65536) as [[[d b] e]|] eqn:Ea; [|by vm_compute in Ea].
  assert (Eb : b = ch_bref data_chain /\ e = HAMMER2_ERROR_ENOSPC).
  { assert (E : option_map (fun r => (r.1.2, r.2)) (hammer2_freemap_alloc io_full dev_1g (ch_bref data_chain) 65536) =
      Some (ch_bref data_chain, HAMMER2_ERROR_ENOSPC)) by (by vm_compute). rewrite Ea in E. injection E as E1 E2. split; assumption. }
  destruct Eb as [-> ->].
  destruct (chain_modify_failed io_full hashes_zero volume_1g no_error 100 100 (world_of dev_1g) [] data_chain 5
    HAMMER2_MODIFY_OPTDATA d HAMMER2_ERROR_ENOSPC data_chain_ok eq_refl eq_refl) as [E1 E2].
  - split; [discriminate|reflexivity].
  - right. reflexivity.
  - right. reflexivity.
  - exact Ea.
  - discriminate.
  - destruct E2 as (w2 & up2 & c2 & E2 & _ & E3 & E4); [reflexivity|reflexivity|discriminate|].
    exists d, w2, up2, c2. split; [exact E1|]. split; [exact E2|]. split; [exact E3|exact E4].
Defined.

(** C32: a modification whose new block has no buffer.  A chain with a buffer gets
    the error, but its block reference is the new one already, and nothing was
    copied: the next modification finds the buffer of the new block, which is not
    tested as the chain is modified, and returns success with what the new block
    happens to hold in place of the data of the chain.  For a chain without a
    buffer, a new one, the error path releases a buffer that is not there. *)
Theorem chain_modify_fault io h volume buf_error lc li total w up c mtid G d b :
  device_ok io volume total -> space (w_fm w) total G -> has (w_hflags w) HMNT2_EMERG = false ->
  chain_ok volume c -> (ch_off c <> 0 -> ch_extent c ∈ G /\ owned c = false /\ ch_data c <> None) ->
  hammer2_freemap_alloc io (w_fm w) (ch_bref c) (ch_bytes c) = Some (d, b, 0) ->
  (forall off, buf_error (w_tick w) off <> 0) -> (forall t off, t <> w_tick w -> buf_error t off = 0) ->
  let modify := hammer2_chain_modify io h volume buf_error lc li in
  if ch_dio c then
    exists w1 up1 c1 w2 up2 c2,
      modify w up c mtid 0 0 = Some (w1, up1, c1, HAMMER2_ERROR_EIO) /\ sep (ch_extent c1) (ch_extent c) /\
      modify w1 up1 c1 mtid 0 0 = Some (w2, up2, c2, 0) /\ ch_extent c2 = ch_extent c1 /\
      (forall x, w_mem w2 x = w_mem w x)
  else modify w up c mtid 0 0 = None.
Proof.
  intros [D1 D2 D3 D4] Hs He Hok Hdata Ea Hbad Hgood modify.
  pose proof (fault_ok io h volume buf_error lc li total D1 D2 D3 D4 w up c mtid G d b Hs He Hok) as Hf.
  assert (Hb : forall off, nz (buf_error (w_tick w) off) = true)
    by (intros off; destruct (nz_spec (buf_error (w_tick w) off)) as [|Hz]; [done|by destruct (Hz (Hbad off))]).
  specialize (Hf ltac:(intros E; by destruct (Hdata E)) Ea Hb). fold modify in Hf. destruct (ch_dio c) eqn:Ed; [|done].
  destruct Hf as (w1 & up1 & c1 & E1 & Hsep & Hok1 & Hown & Ho & Ed1 & Hi & Eh & Et & Hm).
  destruct (reload_ok io h volume buf_error lc li w1 up1 c1 mtid Hok1 Hown Ho Ed1 Hi) as (w2 & up2 & c2 & E2 & Ex & Hm2).
  - by rewrite Eh.
  - intros t x Ht. rewrite Hgood; [done|lia].
  - exists w1, up1, c1, w2, up2, c2. rewrite Hm2, Hm. split_and!; try done. rewrite Forall_forall in Hsep. apply Hsep, Hdata.
    intros E0. destruct (co_data _ _ Hok) as [[_ ?]|(_ & _ & ?)]; congruence.
Qed.

Lemma chain_modify_fault_witness :
  let modify := hammer2_chain_modify io_quiet hashes_zero volume_1g (fun t _ => if Nat.eqb t 0 then 5 else 0) 100 100 in
  exists w1 up1 c1 w2 up2 c2,
    modify (world_of dev_used) [] inode_chain 5 0 0 = Some (w1, up1, c1, HAMMER2_ERROR_EIO) /\
    sep (ch_extent c1) (ch_extent inode_chain) /\ modify w1 up1 c1 5 0 0 = Some (w2, up2, c2, 0) /\
    ch_extent c2 = ch_extent c1 /\ (forall x, w_mem w2 x = x mod 256).
Proof.
  intros modify.
  destruct (hammer2_freemap_alloc io_quiet dev_used (ch_bref inode_chain) 1024) as [[[d b] e]|] eqn:Ea; [|by vm_compute in Ea].
  assert (Ee : e = 0).
  { assert (E : option_map snd (hammer2_freemap_alloc io_quiet dev_used (ch_bref inode_chain) 1024) = Some 0) by (by vm_compute).
    rewrite Ea in E. injection E as E1. exact E1. }
  subst e. refine (chain_modify_fault io_quiet hashes_zero volume_1g (fun t _ => if Nat.eqb t 0 then 5 else 0) 100 100 1073741824
    (world_of dev_used) [] inode_chain 5 [(8388608, 1024)] d b device_1g space_used eq_refl inode_chain_ok _ Ea _ _).
  - intros _. split; [left|]. split; [reflexivity|discriminate].
  - discriminate.
  - intros [|t] off Ht; [destruct (Ht eq_refl)|reflexivity].
Defined.
