(* ===== verification/Dio.v ===== *)
(** Device buffers (hammer2_io.c): one [hammer2_io] for each 64KB block in use,
    found by a hash of its offset, with a count of references and the flags
    GOOD, DIRTY and FLUSH in one word, over the page cache of the device or a
    buffer of its own.

    The page cache of the kernel is a parameter, the class [PageCache] with the
    calls that the file makes.  A dio in use stays in the hash, so its offset
    stands for the pointer to it; [None] is a failed assertion, a null
    dereference, or the use of a dio that is not there.  A function that holds the
    lock of the dio from its lookup to its end is one step; hammer2_io_putblk()
    drops the lock of the dio before it takes the lock of the hash, and is two. *)
From S2P Require Import Prelude Disk.
From Stdlib Require Import ZArith Lia Bool.
From stdpp Require Import base list gmap.
Open Scope Z_scope.

Definition HAMMER2_DIO_GOOD : Z := 0x4000000000000000.
Definition HAMMER2_DIO_DIRTY : Z := 0x1000000000000000.
Definition HAMMER2_DIO_FLUSH : Z := 0x0800000000000000.
Definition HAMMER2_DIO_MASK : Z := 0x00FFFFFFFFFFFFFF.
Definition HAMMER2_IOHASH_SIZE : Z := 32768.
Definition HAMMER2_IOHASH_MASK : Z := Eval cbv in HAMMER2_IOHASH_SIZE - 1.
Definition HAMMER2_DEDUP_FRAG : Z := Eval cbv in HAMMER2_PBUFSIZE / 64.
Definition HAMMER2_DEDUP_FRAGRADIX : Z := Eval cbv in HAMMER2_PBUFRADIX - 6.

(** The errnos in use, positive as in the core. *)
Definition EIO : Z := 5.
Definition ENOMEM : Z := 12.

(** ** The page cache *)

(** A folio of the mapping of a device, and a block of the device with the folio
    that covers it.  Bytes are by their offset in the block; [bk_refs] counts the
    references of this file on the folio. *)
Record folio := mkFolio {
  fo_mem : Z -> Z;
  fo_uptodate : bool;
  fo_dirty : bool
}.

Record blk := mkBlk {
  bk_media : Z -> Z;
  bk_folio : option folio;
  bk_refs : Z
}.

(** A device file and an offset in it. *)
Definition addr : Type := Z * Z.

(** The calls of the kernel, on the block at an address: [inl] is an error, and
    what a folio that is returned has is its size and whether it is uptodate.
    [filemap_get_folio] is the one that creates a folio, and returns it locked;
    [folio_write] is a store through the address of a folio. *)
Class PageCache (S : Type) := {
  pc_blk : S -> addr -> blk;
  mapping_read_folio_gfp : S -> addr -> S * (Z + Z);
  filemap_get_folio : S -> addr -> S * (Z + Z * bool);
  folio_cached : S -> addr -> bool;
  page_cache_sync_ra : S -> addr -> S;
  folio_write : S -> addr -> (Z -> Z) -> S;
  folio_mark_uptodate : S -> addr -> S;
  folio_mark_dirty_lock : S -> addr -> S;
  folio_cancel_dirty : S -> addr -> S;
  folio_put : S -> addr -> S;
  filemap_fdatawrite_range : S -> addr -> S;
  invalidate_inode_pages2_range : S -> addr -> S;
  truncate_inode_pages : S -> Z -> S;
  vmalloc : S -> S * option (Z -> Z);
  bio_read : S -> addr -> S * (Z + (Z -> Z));
  bio_write : S -> addr -> (Z -> Z) -> S * Z
}.

(** ** Buffers and devices *)

(** [dio->psize] is HAMMER2_PBUFSIZE in every dio.  [dio_buf] is the memory of
    the dio's own; that of its folio is in the page cache. *)
Record hammer2_io := mkDio {
  dio_pbase : Z;
  dio_dbase : Z;
  dio_file : Z;
  dio_btype : Z;
  dio_refs : Z;                     (* uint64_t *)
  dio_act : Z;
  dio_ticks : Z;
  dio_error : Z;
  dio_folio : bool;
  dio_buf : option (Z -> Z);
  dio_dedup_valid : Z;
  dio_dedup_alloc : Z
}.

Definition dio_with_refs (d : hammer2_io) (r : Z) : hammer2_io :=
  mkDio (dio_pbase d) (dio_dbase d) (dio_file d) (dio_btype d) r (dio_act d) (dio_ticks d) (dio_error d) (dio_folio d)
    (dio_buf d) (dio_dedup_valid d) (dio_dedup_alloc d).
Definition dio_with_act (d : hammer2_io) (act ticks : Z) : hammer2_io :=
  mkDio (dio_pbase d) (dio_dbase d) (dio_file d) (dio_btype d) (dio_refs d) act ticks (dio_error d) (dio_folio d)
    (dio_buf d) (dio_dedup_valid d) (dio_dedup_alloc d).
Definition dio_with_error (d : hammer2_io) (e : Z) : hammer2_io :=
  mkDio (dio_pbase d) (dio_dbase d) (dio_file d) (dio_btype d) (dio_refs d) (dio_act d) (dio_ticks d) e (dio_folio d)
    (dio_buf d) (dio_dedup_valid d) (dio_dedup_alloc d).
Definition dio_with_data (d : hammer2_io) (fo : bool) (buf : option (Z -> Z)) : hammer2_io :=
  mkDio (dio_pbase d) (dio_dbase d) (dio_file d) (dio_btype d) (dio_refs d) (dio_act d) (dio_ticks d) (dio_error d) fo
    buf (dio_dedup_valid d) (dio_dedup_alloc d).
Definition dio_with_dedup (d : hammer2_io) (valid alloc : Z) : hammer2_io :=
  mkDio (dio_pbase d) (dio_dbase d) (dio_file d) (dio_btype d) (dio_refs d) (dio_act d) (dio_ticks d) (dio_error d)
    (dio_folio d) (dio_buf d) valid alloc.

(** The references of a dio. *)
Definition dio_count (d : hammer2_io) : Z := dio_refs d & HAMMER2_DIO_MASK.

Record hammer2_volume := mkVolume { vol_file : Z; vol_offset : Z; vol_size : Z }.

(** What this file uses of [hammer2_dev_t], with the count of all dios, the mark
    of hpanic(), the clock and the page cache.  A bucket of the hash that has
    never been used is absent. *)
Record hammer2_dev (S : Type) := mkDev {
  dv_iohash : gmap Z (list hammer2_io);
  dv_iofree_count : Z;
  dv_io_iterator : Z;
  dv_dio_allocated : Z;             (* hammer2_count_dio_allocated *)
  dv_device_error : bool;           (* hammer2_device_error *)
  dv_now : Z;                       (* getticks() *)
  dv_pc : S
}.
Arguments mkDev {_} _ _ _ _ _ _ _.
Arguments dv_iohash {_} _.
Arguments dv_iofree_count {_} _.
Arguments dv_io_iterator {_} _.
Arguments dv_dio_allocated {_} _.
Arguments dv_device_error {_} _.
Arguments dv_now {_} _.
Arguments dv_pc {_} _.

Section Dev.
Context {S : Type}.
Implicit Types h : hammer2_dev S.

Definition dv_with_hash h (t : gmap Z (list hammer2_io)) : hammer2_dev S :=
  mkDev t (dv_iofree_count h) (dv_io_iterator h) (dv_dio_allocated h) (dv_device_error h) (dv_now h) (dv_pc h).
Definition dv_add_free h (n : Z) : hammer2_dev S :=
  mkDev (dv_iohash h) (i32 (dv_iofree_count h + n)) (dv_io_iterator h) (dv_dio_allocated h) (dv_device_error h) (dv_now h)
    (dv_pc h).
Definition dv_add_allocated h (n : Z) : hammer2_dev S :=
  mkDev (dv_iohash h) (dv_iofree_count h) (dv_io_iterator h) (i32 (dv_dio_allocated h + n)) (dv_device_error h) (dv_now h)
    (dv_pc h).
Definition dv_with_iterator h (i : Z) : hammer2_dev S :=
  mkDev (dv_iohash h) (dv_iofree_count h) i (dv_dio_allocated h) (dv_device_error h) (dv_now h) (dv_pc h).
Definition dv_hpanic h : hammer2_dev S :=
  mkDev (dv_iohash h) (dv_iofree_count h) (dv_io_iterator h) (dv_dio_allocated h) true (dv_now h) (dv_pc h).
Definition dv_with_pc h (s : S) : hammer2_dev S :=
  mkDev (dv_iohash h) (dv_iofree_count h) (dv_io_iterator h) (dv_dio_allocated h) (dv_device_error h) (dv_now h) s.

(** ** The hash *)

Definition hammer2_io_hashv (pbase : Z) : Z := i32 (i32 pbase + i32 (Z.shiftr pbase 16)) & HAMMER2_IOHASH_MASK.

Definition bucket_at h (i : Z) : list hammer2_io := default [] (dv_iohash h !! i).

Fixpoint list_find_dio (l : list hammer2_io) (pbase : Z) : option hammer2_io :=
  match l with
  | [] => None
  | d :: l => if dio_pbase d =? pbase then Some d else list_find_dio l pbase
  end.

Fixpoint list_upd_dio (l : list hammer2_io) (pbase : Z) (f : hammer2_io -> hammer2_io) : list hammer2_io :=
  match l with
  | [] => []
  | d :: l => if dio_pbase d =? pbase then f d :: l else d :: list_upd_dio l pbase f
  end.

(** The dio of an offset, and a store to it. *)
Definition dio_at h (pbase : Z) : option hammer2_io := list_find_dio (bucket_at h (hammer2_io_hashv pbase)) pbase.
Definition dio_upd h (pbase : Z) (f : hammer2_io -> hammer2_io) : hammer2_dev S :=
  let i := hammer2_io_hashv pbase in
  dv_with_hash h (<[i := list_upd_dio (bucket_at h i) pbase f]> (dv_iohash h)).

(** The reference on a dio that was found. *)
Definition ref_found h (d : hammer2_io) : hammer2_dev S :=
  let h := if dio_count d =? 0 then dv_add_free h (-1) else h in
  dio_upd h (dio_pbase d) (fun d => dio_with_refs d (u64 (dio_refs d + 1))).

(** Whether there is one. *)
Definition hammer2_io_hash_lookup h (pbase : Z) : hammer2_dev S * bool :=
  match dio_at h pbase with
  | Some d => (ref_found h d, true)
  | None => (h, false)
  end.

(** Whether the hash had one already. *)
Definition hammer2_io_hash_enter h (d : hammer2_io) : hammer2_dev S * bool :=
  match dio_at h (dio_pbase d) with
  | Some x => (ref_found h x, true)
  | None =>
      let i := hammer2_io_hashv (dio_pbase d) in
      (dv_with_hash h (<[i := bucket_at h i ++ [d]]> (dv_iohash h)), false)
  end.

(** ** Deduplication masks *)

(** The fragments of 1KB of the buffer at [pbase] that a range covers. *)
Definition hammer2_dedup_mask (pbase data_off bytes : Z) : Z :=
  let bbeg := Z.shiftr (i32 (u64 ((data_off &~ HAMMER2_OFF_MASK_RADIX) - pbase))) HAMMER2_DEDUP_FRAGRADIX in
  let bits := i32 (Z.shiftr (u32 (bytes + (HAMMER2_DEDUP_FRAG - 1))) HAMMER2_DEDUP_FRAGRADIX) in
  let mask := if bbeg + bits =? 64 then 2 ^ 64 - 1 else u64 (u64 (Z.shiftl 1 (bbeg + bits)) - 1) in
  mask &~ u64 (u64 (Z.shiftl 1 bbeg) - 1).
End Dev.

(** The operations of hammer2_io_getblk(). *)
Inductive io_op := HAMMER2_DOP_READ | HAMMER2_DOP_NEW | HAMMER2_DOP_NEWNZ | HAMMER2_DOP_READQ.

(** [n] bytes of a block from [off] on. *)
Definition put_range (m : Z -> Z) (off n : Z) (f : Z -> Z) : Z -> Z :=
  fun x => if (off <=? x) && (x <? off + n) then f (x - off) else m x.

(** Where a dio is on its device. *)
Definition dio_addr (d : hammer2_io) : addr := (dio_file d, dio_pbase d - dio_dbase d).

(** A dio has a block, in a folio or in a buffer of its own. *)
Definition dio_block (d : hammer2_io) : bool := dio_folio d || bool_decide (is_Some (dio_buf d)).

Definition hammer2_io_folio_check (size : Z) : Z := if HAMMER2_PBUFSIZE <=? size then 0 else EIO.

(** The volumes of the device and whether it is a connection, and the parameters
    of the module. *)
Record io_config := mkConfig {
  cf_volumes : list hammer2_volume;
  cf_rconn : bool;                  (* hmp->rconn is not NULL *)
  cf_io_buf_only : bool;
  cf_dio_limit : Z;
  cf_hz : Z;
  cf_cluster_data_read : Z;
  cf_cluster_meta_read : Z;
  cf_ra_pages : Z
}.

Section Io.
Context {S : Type} `{PageCache S}.
Context (C : io_config) (remote_fetch : S -> Z -> Z -> S * (Z + (Z -> Z))).
Implicit Types h : hammer2_dev S.

(** ** Allocation *)

Definition hammer2_get_volume h (offset : Z) : hammer2_dev S * option hammer2_volume :=
  let offset := offset &~ HAMMER2_OFF_MASK_RADIX in
  match find (fun v => (vol_offset v <=? offset) && (offset <? vol_offset v + vol_size v)) (cf_volumes C) with
  | Some v => (h, Some v)
  | None => (dv_hpanic h, None)
  end.

(** The dio that hammer2_io_alloc() makes, and its entry. *)
Definition new_dio (pbase dbase file btype : Z) : hammer2_io := mkDio pbase dbase file btype 1 5 0 0 false None 0 0.
Definition enter_new h (d : hammer2_io) : hammer2_dev S :=
  let '(h, dup) := hammer2_io_hash_enter h d in if dup then h else dv_add_allocated h 1.

Definition touch h (pbase : Z) : hammer2_dev S :=
  dio_upd h pbase (fun d => dio_with_act d (if dio_act d <? 10 then dio_act d + 1 else dio_act d) (dv_now h)).

Definition hammer2_io_alloc h (data_off btype : Z) (createit : bool) : option (hammer2_dev S * option Z) :=
  let radix := data_off & HAMMER2_OFF_MASK_RADIX in
  let lsize := if nz radix then Z.shiftl 1 radix else 0 in
  let lbase := data_off &~ HAMMER2_OFF_MASK_RADIX in
  let pbase := lbase &~ HAMMER2_PBUFMASK in
  if (pbase =? 0) || negb ((lbase + lsize - 1) &~ HAMMER2_PBUFMASK =? pbase) then Some (dv_hpanic h, None)
  else
    let '(h, found) := hammer2_io_hash_lookup h pbase in
    if found then Some (touch h pbase, Some pbase)
    else if negb createit then Some (h, None)
    else if cf_rconn C then Some (touch (enter_new h (new_dio pbase 0 0 btype)) pbase, Some pbase)
    else
      match hammer2_get_volume h pbase with
      | (h, None) => Some (h, None)
      | (h, Some v) =>
          if nz (vol_offset v & HAMMER2_FREEMAP_LEVEL1_MASK) then None
          else Some (touch (enter_new h (new_dio pbase (vol_offset v) (vol_file v) btype)) pbase, Some pbase)
      end.

(** ** Blocks *)

Definition hammer2_io_buf_get h (pbase : Z) (read zero : bool) : option (hammer2_dev S * Z) :=
  d ← dio_at h pbase;
  let '(s, m) := vmalloc (dv_pc h) in
  match m with
  | None => Some (dv_with_pc h s, ENOMEM)
  | Some m =>
      if read then
        match bio_read s (dio_addr d) with
        | (s, inl error) => Some (dv_with_pc h s, error)
        | (s, inr b) => Some (dio_upd (dv_with_pc h s) pbase (fun d => dio_with_data d (dio_folio d) (Some b)), 0)
        end
      else
        Some (dio_upd (dv_with_pc h s) pbase
                (fun d => dio_with_data d (dio_folio d) (Some (if zero then fun _ => 0 else m))), 0)
  end.

(** The block written by a bio, and what the page cache has of it dropped. *)
Definition buf_write (s : S) (a : addr) (buf : Z -> Z) : S :=
  let '(s, _) := bio_write s a buf in invalidate_inode_pages2_range s a.

Definition hammer2_io_buf_put (s : S) (d : hammer2_io) (buf : Z -> Z) : S :=
  let a := dio_addr d in
  let '(s, r) := if cf_io_buf_only C then (s, inl ENOMEM) else filemap_get_folio s a in
  match r with
  | inl _ => buf_write s a buf
  | inr (size, uptodate) =>
      if (hammer2_io_folio_check size =? 0) && ((size =? HAMMER2_PBUFSIZE) || uptodate) then
        let s := folio_mark_dirty_lock (folio_mark_uptodate (folio_write s a buf) a) a in
        let s := if has (dio_refs d) HAMMER2_DIO_FLUSH then filemap_fdatawrite_range s a else s in
        folio_put s a
      else buf_write (folio_put s a) a buf
  end.

Definition hammer2_io_readahead (s : S) (d : hammer2_io) : S :=
  let hint := if dio_btype d =? HAMMER2_BREF_TYPE_DATA then (cf_cluster_data_read C) else (cf_cluster_meta_read C) in
  if (hint <? 1) || (cf_ra_pages C =? 0) then s
  else if folio_cached s (dio_addr d) then s
  else page_cache_sync_ra s (dio_addr d).

Definition hammer2_bread h (pbase : Z) : option (hammer2_dev S * Z) :=
  d ← dio_at h pbase;
  if cf_io_buf_only C then hammer2_io_buf_get h pbase true false
  else
    let s := hammer2_io_readahead (dv_pc h) d in
    let '(s, r) := mapping_read_folio_gfp s (dio_addr d) in
    let h := dv_with_pc h s in
    match r with
    | inl error => if error =? ENOMEM then hammer2_io_buf_get h pbase true false else Some (h, error)
    | inr size =>
        let error := hammer2_io_folio_check size in
        if nz error then Some (dv_with_pc h (folio_put s (dio_addr d)), error)
        else Some (dio_upd h pbase (fun d => dio_with_data d true (dio_buf d)), 0)
    end.

Definition hammer2_getblk_new h (pbase : Z) (zero : bool) : option (hammer2_dev S * Z) :=
  d ← dio_at h pbase;
  if cf_io_buf_only C then hammer2_io_buf_get h pbase false zero
  else
    let a := dio_addr d in
    let '(s, r) := filemap_get_folio (dv_pc h) a in
    let h := dv_with_pc h s in
    match r with
    | inl error => if error =? ENOMEM then hammer2_io_buf_get h pbase false zero else Some (h, error)
    | inr (size, uptodate) =>
        let error := hammer2_io_folio_check size in
        let error := if (error =? 0) && (HAMMER2_PBUFSIZE <? size) && negb uptodate then EIO else error in
        if nz error then Some (dv_with_pc h (folio_put s a), error)
        else
          let s := if zero then folio_write s a (fun _ => 0) else s in
          Some (dio_upd (dv_with_pc h (folio_mark_uptodate s a)) pbase (fun d => dio_with_data d true (dio_buf d)), 0)
    end.

(** The memory of the block of a dio. *)
Definition folio_mem (s : S) (a : addr) : Z -> Z :=
  match bk_folio (pc_blk s a) with Some f => fo_mem f | None => fun _ => 0 end.
Definition io_mem h (d : hammer2_io) : Z -> Z :=
  match dio_buf d with Some b => b | None => folio_mem (dv_pc h) (dio_addr d) end.

(** [n] bytes stored through the pointer of hammer2_io_data(), whose assertions
    are those here. *)
Definition io_store h (pbase lbase n : Z) (f : Z -> Z) : option (hammer2_dev S) :=
  d ← dio_at h pbase;
  let off := (lbase &~ HAMMER2_OFF_MASK_RADIX) - pbase in
  if negb (dio_block d) || (off <? 0) || (HAMMER2_PBUFSIZE <=? off) then None
  else
    let m := put_range (io_mem h d) off n f in
    match dio_buf d with
    | Some _ => Some (dio_upd h pbase (fun d => dio_with_data d (dio_folio d) (Some m)))
    | None => Some (dv_with_pc h (folio_write (dv_pc h) (dio_addr d) m))
    end.

Definition set_refs h (pbase flags : Z) : hammer2_dev S :=
  dio_upd h pbase (fun d => dio_with_refs d (dio_refs d ||| flags)).

(** ** hammer2_io_getblk() *)

(** The operation on a buffer that is there. *)
Definition getblk_op h (pbase lbase lsize : Z) (op : io_op) : option (hammer2_dev S) :=
  match op with
  | HAMMER2_DOP_NEW =>
      h ← io_store h pbase lbase lsize (fun _ => 0);
      Some (set_refs h pbase HAMMER2_DIO_DIRTY)
  | HAMMER2_DOP_NEWNZ => Some (set_refs h pbase HAMMER2_DIO_DIRTY)
  | _ => Some h
  end.

Definition getblk_whole h (pbase : Z) (op : io_op) : option (hammer2_dev S * Z) :=
  match op with
  | HAMMER2_DOP_NEW | HAMMER2_DOP_NEWNZ =>
      '(h, error) ← hammer2_getblk_new h pbase (match op with HAMMER2_DOP_NEW => true | _ => false end);
      Some (if error =? 0 then set_refs h pbase HAMMER2_DIO_DIRTY else h, error)
  | _ => hammer2_bread h pbase
  end.

Definition getblk_part h (pbase lbase lsize : Z) (op : io_op) : option (hammer2_dev S * Z) :=
  '(h, error) ← hammer2_bread h pbase;
  d ← dio_at h pbase;
  if dio_block d then
    if nz error then None
    else h ← getblk_op h pbase lbase lsize op; Some (h, 0)
  else Some (h, error).

(** The locked dio that hammer2_io_alloc() returned. *)
Definition getblk_fill h (pbase lbase lsize : Z) (op : io_op) : option (hammer2_dev S) :=
  d ← dio_at h pbase;
  if has (dio_refs d) HAMMER2_DIO_GOOD then getblk_op h pbase lbase lsize op
  else if dio_block d then None
  else
    '(h, error) ←
      if (pbase =? lbase &~ HAMMER2_OFF_MASK_RADIX) && (HAMMER2_PBUFSIZE =? lsize) then getblk_whole h pbase op
      else getblk_part h pbase lbase lsize op;
    d ← dio_at h pbase;
    if nz error && dio_block d then None
    else
      let h := dio_upd h pbase (fun d => dio_with_error d error) in
      Some (if error =? 0 then set_refs h pbase HAMMER2_DIO_GOOD else h).

(** A connection device: before and after the block is fetched.  The reference of
    a dio that was found holds it in between. *)
Definition conn_find h (btype lbase : Z) (op : io_op) : option (hammer2_dev S * (option Z + option Z)) :=
  match op with
  | HAMMER2_DOP_NEW | HAMMER2_DOP_NEWNZ => Some (h, inl None)
  | _ =>
      '(h, r) ← hammer2_io_alloc h lbase btype false;
      match r with
      | Some pbase =>
          d ← dio_at h pbase;
          if has (dio_refs d) HAMMER2_DIO_GOOD then Some (h, inl (Some pbase)) else Some (h, inr (Some pbase))
      | None => Some (h, match op with HAMMER2_DOP_READQ => inl None | _ => inr None end)
      end
  end.

Definition conn_fill h (btype lbase : Z) (found : option Z) (fetched : Z + (Z -> Z))
    : option (hammer2_dev S * option Z) :=
  '(h, r) ← match found with Some pbase => Some (h, Some pbase) | None => hammer2_io_alloc h lbase btype true end;
  match r with
  | None => Some (h, None)
  | Some pbase =>
      d ← dio_at h pbase;
      if has (dio_refs d) HAMMER2_DIO_GOOD then Some (h, Some pbase)
      else
        match fetched with
        | inr b =>
            if dio_block d then Some (dio_upd h pbase (fun d => dio_with_error d EIO), Some pbase)
            else
              Some (set_refs (dio_upd h pbase
                      (fun d => dio_with_error (dio_with_data d (dio_folio d) (Some b)) 0)) pbase HAMMER2_DIO_GOOD,
                    Some pbase)
        | inl error => Some (dio_upd h pbase (fun d => dio_with_error d error), Some pbase)
        end
  end.

Definition hammer2_io_getblk_conn h (btype lbase lsize : Z) (op : io_op) : option (hammer2_dev S * option Z) :=
  '(h, r) ← conn_find h btype lbase op;
  match r with
  | inl r => Some (h, r)
  | inr found =>
      let '(s, fetched) := remote_fetch (dv_pc h) lbase lsize in
      conn_fill (dv_with_pc h s) btype lbase found fetched
  end.

Definition hammer2_io_getblk h (btype lbase lsize : Z) (op : io_op) : option (hammer2_dev S * option Z) :=
  if negb (Z.shiftl 1 (lbase & HAMMER2_OFF_MASK_RADIX) =? lsize) then None
  else if cf_rconn C then hammer2_io_getblk_conn h btype lbase lsize op
  else
    let quick := match op with HAMMER2_DOP_READQ => true | _ => false end in
    '(h, r) ← hammer2_io_alloc h lbase btype (negb quick);
    match r with
    | None => Some (h, None)
    | Some pbase =>
        h ← getblk_fill h pbase lbase lsize (if quick then HAMMER2_DOP_READ else op);
        Some (h, Some pbase)
    end.

(** hammer2_io_new(), hammer2_io_newnz() and hammer2_io_bread(): the dio and the
    error. *)
Definition io_error h (r : option Z) : option (option Z * Z) :=
  match r with
  | None => Some (None, HAMMER2_ERROR_EIO)
  | Some pbase => d ← dio_at h pbase; Some (Some pbase, dio_error d)
  end.

(** ** hammer2_io_putblk() *)

(** What the last drop does with the folio and with the buffer of a dio, whose
    count and flags were [orefs]. *)
Definition put_folio h (d : hammer2_io) (orefs : Z) : S :=
  let s := dv_pc h in
  let a := dio_addr d in
  if negb (dio_folio d) then s
  else
    let s := if dv_device_error h then folio_cancel_dirty s a else s in
    if has orefs HAMMER2_DIO_GOOD && has orefs HAMMER2_DIO_DIRTY then
      let s := folio_mark_dirty_lock s a in
      let s := if has (dio_refs d) HAMMER2_DIO_FLUSH then filemap_fdatawrite_range s a else s in
      folio_put s a
    else folio_put s a.

Definition put_buf (s : S) (d : hammer2_io) (orefs : Z) : S :=
  match dio_buf d with
  | None => s
  | Some buf =>
      if has orefs HAMMER2_DIO_GOOD && has orefs HAMMER2_DIO_DIRTY && negb (cf_rconn C) then hammer2_io_buf_put s d buf else s
  end.

(** The part under the lock of the dio, and whether this was the last drop. *)
Definition putblk_drop h (pbase : Z) : option (hammer2_dev S * bool) :=
  d ← dio_at h pbase;
  if dio_count d =? 0 then Some (h, false)
  else if negb (dio_count d =? 1) then
    Some (dio_upd h pbase (fun d => dio_with_refs d (dio_refs d - 1)), false)
  else
    let orefs := dio_refs d in
    let d := dio_with_refs d ((orefs - 1) &~ (HAMMER2_DIO_GOOD ||| HAMMER2_DIO_DIRTY)) in
    let orefs := if dv_device_error h then orefs &~ HAMMER2_DIO_DIRTY else orefs in
    let s := put_buf (put_folio h d orefs) d orefs in
    let h := dio_upd (dv_with_pc h s) pbase (fun _ => dio_with_data d false None) in
    Some (dv_add_free h 1, true).

(** A free dio loses its activity by the second; the others stay.  The dios of a
    bucket that are left and how many are freed. *)
Definition age h (d : hammer2_io) : hammer2_io :=
  if 0 <? dio_act d then
    let act := dio_act d - Z.quot (i32 (dv_now h - dio_ticks d)) (cf_hz C) - 1 in
    dio_with_act d (if act <? 0 then 0 else act) (dio_ticks d)
  else d.

Fixpoint clean_bucket h (l : list hammer2_io) : option (list hammer2_io * Z) :=
  match l with
  | [] => Some ([], 0)
  | d :: l =>
      '(l', n) ← clean_bucket h l;
      if negb (dio_count d =? 0) then Some (d :: l', n)
      else
        let d := age h d in
        if nz (dio_act d) then Some (d :: l', n)
        else if dio_folio d then None
        else Some (l', n + 1)
  end.

(** [while (count > 0 && maxscan--)], with [maxscan] the first argument. *)
Fixpoint clean_loop (maxscan : nat) h (count i : Z) : option (hammer2_dev S) :=
  if count <=? 0 then Some h
  else
    match maxscan with
    | O => Some h
    | Datatypes.S maxscan =>
        let b := i & HAMMER2_IOHASH_MASK in
        '(l, n) ← clean_bucket h (bucket_at h b);
        let h := dv_add_free (dv_add_allocated (dv_with_hash h (<[b := l]> (dv_iohash h))) (- n)) (- n) in
        clean_loop maxscan (dv_with_iterator h (i32 (dv_io_iterator h + 1))) (count - n) (dv_io_iterator h)
    end.

Definition hammer2_io_hash_cleanup h (dio_limit : Z) : option (hammer2_dev S) :=
  let count := dv_iofree_count h - dio_limit + 32 in
  if count <=? 0 then Some h
  else
    clean_loop (Z.to_nat HAMMER2_IOHASH_SIZE) (dv_with_iterator h (i32 (dv_io_iterator h + 1))) count
      (dv_io_iterator h).

(** The part under the lock of the hash. *)
Definition putblk_clean h : option (hammer2_dev S) :=
  let limit := if cf_dio_limit C <? 256 then 256 else cf_dio_limit C in
  let limit := if 1024 * 1024 <? limit then 1024 * 1024 else limit in
  if limit <? dv_iofree_count h then hammer2_io_hash_cleanup h limit else Some h.

Definition hammer2_io_putblk h (pbase : Z) : option (hammer2_dev S) :=
  '(h, lastdrop) ← putblk_drop h pbase;
  if (lastdrop : bool) then putblk_clean h else Some h.

(** ** The other entries *)

Definition hammer2_io_ref h (pbase : Z) : option (hammer2_dev S) :=
  d ← dio_at h pbase;
  Some (dio_upd h pbase (fun d => dio_with_refs d (u64 (dio_refs d + 1)))).

Definition hammer2_io_setflags h (pbase flags : Z) : option (hammer2_dev S) :=
  d ← dio_at h pbase; Some (set_refs h pbase flags).

Definition hammer2_io_bawrite h (pbase : Z) : option (hammer2_dev S) :=
  h ← hammer2_io_setflags h pbase (HAMMER2_DIO_DIRTY ||| HAMMER2_DIO_FLUSH);
  hammer2_io_putblk h pbase.

Definition hammer2_io_bdwrite h (pbase : Z) : option (hammer2_dev S) :=
  h ← hammer2_io_setflags h pbase HAMMER2_DIO_DIRTY;
  hammer2_io_putblk h pbase.

Definition hammer2_io_setdirty h (pbase : Z) : option (hammer2_dev S) := hammer2_io_setflags h pbase HAMMER2_DIO_DIRTY.

(** The cleanup of all dios, when the device is closed. *)
Definition hammer2_io_hash_cleanup_all h : option (hammer2_dev S) :=
  let l := map_fold (fun _ l r => l ++ r) [] (dv_iohash h) in
  if forallb (fun d => negb (dio_folio d) && (dio_count d =? 0)) l then
    Some (dv_add_free (dv_add_allocated (dv_with_hash h ∅) (- Z.of_nat (length l))) (- Z.of_nat (length l)))
  else None.

Definition hammer2_io_discard h : hammer2_dev S :=
  if dv_device_error h then dv_with_pc h (fold_left (fun s v => truncate_inode_pages s (vol_file v)) (cf_volumes C) (dv_pc h)) else h.

(** ** Deduplication *)

Definition hammer2_io_dedup_set h (type data_off : Z) : option (hammer2_dev S) :=
  '(h, r) ← hammer2_io_alloc h data_off type true;
  match r with
  | None => Some h
  | Some pbase =>
      let radix := data_off & HAMMER2_OFF_MASK_RADIX in
      let lsize := if nz radix then Z.shiftl 1 radix else 0 in
      let mask := hammer2_dedup_mask pbase data_off lsize in
      hammer2_io_putblk
        (dio_upd h pbase (fun d => dio_with_dedup d (dio_dedup_valid d &~ mask) (dio_dedup_alloc d ||| mask))) pbase
  end.

Definition hammer2_io_dedup_delete h (btype data_off bytes : Z) : option (hammer2_dev S) :=
  if data_off &~ HAMMER2_OFF_MASK_RADIX =? 0 then Some h
  else if negb (btype =? HAMMER2_BREF_TYPE_DATA) then Some h
  else
    '(h, r) ← hammer2_io_alloc h data_off btype false;
    match r with
    | None => Some h
    | Some pbase =>
        if (data_off <? pbase) || (pbase + HAMMER2_PBUFSIZE <? (data_off &~ HAMMER2_OFF_MASK_RADIX) + bytes)
        then hammer2_io_putblk (dv_hpanic h) pbase
        else
          let mask := hammer2_dedup_mask pbase data_off bytes in
          hammer2_io_putblk
            (dio_upd h pbase (fun d => dio_with_dedup d (dio_dedup_valid d &~ mask) (dio_dedup_alloc d &~ mask))) pbase
    end.

Definition hammer2_io_dedup_assert h (data_off bytes : Z) : option (hammer2_dev S) :=
  '(h, r) ← hammer2_io_alloc h data_off HAMMER2_BREF_TYPE_DATA false;
  match r with
  | None => Some h
  | Some pbase =>
      d ← dio_at h pbase;
      if nz (dio_dedup_alloc d & hammer2_dedup_mask pbase data_off bytes) then None
      else hammer2_io_putblk h pbase
  end.
End Io.
