(* ===== verification/DioProof.v ===== *)
(** Theorems on device buffers: the laws of the page cache ([PageCacheLaws]), by
    what the kernel may do to a block at any time ([blk_env]); the invariant of the
    buffers and of each block, kept by every operation; the threads and the kernel
    as a transition system ([io_step]) with its refinement to a plain memory; and a
    page cache that satisfies the laws ([sim]). *)
From S2P Require Import Prelude Disk Dio.
From Stdlib Require Import ZArith Lia Bool.
From stdpp Require Import base list gmap.
Open Scope Z_scope.

(** ** The word of references and flags *)

Lemma dio_count_mod d : dio_count d = dio_refs d mod 2 ^ 56.
Proof. unfold dio_count. change HAMMER2_DIO_MASK with (2 ^ 56 - 1). by rewrite land_low. Qed.

(** A word whose upper byte is that of another has its flags. *)
Lemma has_high r r' k : 56 <= k -> r / 2 ^ 56 = r' / 2 ^ 56 -> has r (2 ^ k) = has r' (2 ^ k).
Proof.
  intros Hk E. rewrite !has_bit by lia. replace k with (k - 56 + 56) by lia.
  rewrite <- !Z.div_pow2_bits by lia. by rewrite E.
Qed.

Lemma step_high r c : c = 1 /\ r mod 2 ^ 56 < 2 ^ 56 - 1 \/ c = -1 /\ 0 < r mod 2 ^ 56 ->
  (r + c) / 2 ^ 56 = r / 2 ^ 56 /\ (r + c) mod 2 ^ 56 = r mod 2 ^ 56 + c.
Proof.
  intros Hc. pose proof (Z.div_mod r (2 ^ 56)) as E. pose proof (Z.mod_pos_bound r (2 ^ 56)) as Hb.
  assert (Hr : r + c = 2 ^ 56 * (r / 2 ^ 56) + (r mod 2 ^ 56 + c)) by lia.
  split; [symmetry; eapply Z.div_unique_pos|symmetry; eapply Z.mod_unique_pos]; try exact Hr; lia.
Qed.

Definition flag (f : Z) : Prop := f = HAMMER2_DIO_GOOD \/ f = HAMMER2_DIO_DIRTY \/ f = HAMMER2_DIO_FLUSH.

Lemma has_step r c f : flag f -> c = 1 /\ r mod 2 ^ 56 < 2 ^ 56 - 1 \/ c = -1 /\ 0 < r mod 2 ^ 56 -> has (r + c) f = has r f.
Proof.
  intros Hf Hc. destruct (step_high r c Hc) as [E _].
  destruct Hf as [->|[->| ->]];
    [change HAMMER2_DIO_GOOD with (2 ^ 62)|change HAMMER2_DIO_DIRTY with (2 ^ 60)|change HAMMER2_DIO_FLUSH with (2 ^ 59)];
    apply has_high; lia || done.
Qed.

Lemma u64_step r c : is_u64 r -> c = 1 /\ r mod 2 ^ 56 < 2 ^ 56 - 1 \/ c = -1 /\ 0 < r mod 2 ^ 56 -> is_u64 (r + c).
Proof.
  intros Hr Hc. unfold is_u64 in *. destruct Hc as [[-> Hc]|[-> Hc]].
  - destruct (Z.eq_dec r (2 ^ 64 - 1)) as [->|]; [|lia]. by vm_compute in Hc.
  - destruct (Z.eq_dec r 0) as [->|]; [|lia]. by vm_compute in Hc.
Qed.

(** Flags do not change the count. *)
Lemma count_lor r f : f mod 2 ^ 56 = 0 -> (r ||| f) mod 2 ^ 56 = r mod 2 ^ 56.
Proof. intros Hf. rewrite <- !Z.land_ones, Z.land_lor_distr_l, (Z.land_ones f), Hf, Z.lor_0_r by lia. done. Qed.

Lemma count_clear r f : f mod 2 ^ 56 = 0 -> (r &~ f) mod 2 ^ 56 = r mod 2 ^ 56.
Proof.
  intros Hf. rewrite <- !Z.land_ones by lia. apply Z.bits_inj'. intros n Hn.
  assert (T : Z.testbit (Z.land f (Z.ones 56)) n = false) by (by rewrite Z.land_ones, Hf, Z.bits_0 by lia).
  rewrite Z.land_spec in T. rewrite !Z.land_spec, Z.ldiff_spec.
  destruct (Z.testbit f n), (Z.testbit (Z.ones 56) n), (Z.testbit r n); done.
Qed.

(** ** The hash *)

Section Hash.
Context {S : Type}.
Implicit Types h : hammer2_dev S.

(** A store that leaves the offset of the dio. *)
Definition keeps (f : hammer2_io -> hammer2_io) : Prop := forall d, dio_pbase (f d) = dio_pbase d.

Lemma find_pbase l p d : list_find_dio l p = Some d -> dio_pbase d = p.
Proof. induction l as [|x l IH]; cbn; [done|]. destruct (Z.eqb_spec (dio_pbase x) p); [by intros [= <-]|done]. Qed.

Lemma dio_at_pbase h p d : dio_at h p = Some d -> dio_pbase d = p.
Proof. apply find_pbase. Qed.

Lemma find_upd l p q f : keeps f ->
  list_find_dio (list_upd_dio l p f) q = if p =? q then f <$> list_find_dio l p else list_find_dio l q.
Proof.
  intros Hf. induction l as [|x l IH]; cbn; [by destruct (p =? q)|].
  destruct (Z.eqb_spec (dio_pbase x) p) as [E|E]; cbn.
  - rewrite Hf, E. destruct (Z.eqb_spec p q); [by subst|done].
  - rewrite IH. destruct (Z.eqb_spec p q) as [->|]; [|by destruct (dio_pbase x =? q)].
    by destruct (Z.eqb_spec (dio_pbase x) q).
Qed.

Lemma bucket_insert h t i j : bucket_at (dv_with_hash h (<[i := t]> (dv_iohash h))) j = if i =? j then t else bucket_at h j.
Proof.
  unfold bucket_at. cbn. destruct (Z.eqb_spec i j) as [->|]; [by rewrite lookup_insert_eq|by rewrite lookup_insert_ne].
Qed.

Lemma dio_at_upd h p q f : keeps f ->
  dio_at (dio_upd h p f) q = if p =? q then f <$> dio_at h p else dio_at h q.
Proof.
  intros Hf. unfold dio_at, dio_upd. rewrite bucket_insert.
  destruct (Z.eqb_spec (hammer2_io_hashv p) (hammer2_io_hashv q)) as [E|E].
  - rewrite <- E, find_upd by done. by destruct (Z.eqb_spec p q).
  - by destruct (Z.eqb_spec p q) as [->|].
Qed.

(** The sum over the dios of the hash. *)
Definition lsum (g : hammer2_io -> Z) (l : list hammer2_io) : Z := foldr (fun d n => g d + n) 0 l.
Definition msum (g : hammer2_io -> Z) (m : gmap Z (list hammer2_io)) : Z := map_fold (fun _ l n => lsum g l + n) 0 m.

Lemma msum_insert g m i l : msum g (<[i := l]> m) = msum g m - lsum g (default [] (m !! i)) + lsum g l.
Proof.
  assert (Hn : forall m, m !! i = None -> msum g (<[i := l]> m) = lsum g l + msum g m).
  { intros m' Hm. unfold msum. rewrite map_fold_insert_L; [done| |done]. intros. lia. }
  destruct (m !! i) as [x|] eqn:E; cbn.
  - rewrite <- (insert_delete_id m i x E) at 2. rewrite <- insert_delete_eq.
    rewrite Hn by apply lookup_delete_eq. unfold msum at 2. rewrite map_fold_insert_L; [|intros; lia|apply lookup_delete_eq].
    unfold msum. fold (lsum g x). lia.
  - rewrite Hn by done. lia.
Qed.

Lemma lsum_upd g l p f d : list_find_dio l p = Some d ->
  lsum g (list_upd_dio l p f) = lsum g l - g d + g (f d).
Proof.
  induction l as [|x l IH]; cbn [list_find_dio list_upd_dio]; [done|].
  destruct (dio_pbase x =? p); [intros [= <-]; cbn; lia|].
  intros Hd. change (g x + lsum g (list_upd_dio l p f) = g x + lsum g l - g d + g (f d)). rewrite IH by done. lia.
Qed.

Lemma msum_upd g h p f d : dio_at h p = Some d -> msum g (dv_iohash (dio_upd h p f)) = msum g (dv_iohash h) - g d + g (f d).
Proof. intros Hd. unfold dio_upd. cbn. rewrite msum_insert. fold (bucket_at h (hammer2_io_hashv p)). rewrite (lsum_upd g _ p f d Hd). lia. Qed.

(** ** One dio at a time *)

(** The device with another dio at [p] and another page cache. *)
Definition setd h (p : Z) (d : hammer2_io) (s : S) : hammer2_dev S := dv_with_pc (dio_upd h p (fun _ => d)) s.

Lemma upd_const l p f d : list_find_dio l p = Some d -> list_upd_dio l p f = list_upd_dio l p (fun _ => f d).
Proof. induction l as [|x l IH]; cbn; [done|]. destruct (dio_pbase x =? p); [by intros [= <-]|]. intros Hd. by rewrite IH. Qed.

Lemma upd_id l p d : list_find_dio l p = Some d -> list_upd_dio l p (fun _ => d) = l.
Proof. induction l as [|x l IH]; cbn; [done|]. destruct (dio_pbase x =? p); [by intros [= <-]|]. intros Hd. by rewrite IH. Qed.

Lemma upd_upd l p d d' : dio_pbase d = p ->
  list_upd_dio (list_upd_dio l p (fun _ => d)) p (fun _ => d') = list_upd_dio l p (fun _ => d').
Proof.
  intros Hd. induction l as [|x l IH]; cbn; [done|]. destruct (dio_pbase x =? p) eqn:E; cbn; [by rewrite Hd, Z.eqb_refl|].
  by rewrite E, IH.
Qed.

Lemma dio_at_setd h p d s q : is_Some (dio_at h p) -> dio_pbase d = p ->
  dio_at (setd h p d s) q = if p =? q then Some d else dio_at h q.
Proof.
  intros [x Hx] Hd. change (dio_at (setd h p d s) q) with (dio_at (dio_upd h p (fun _ => d)) q).
  assert (E : dio_upd h p (fun _ => d) = dio_upd h p (fun x => if dio_pbase x =? p then d else x)).
  { unfold dio_upd. f_equal. f_equal. symmetry. erewrite (upd_const _ p _ x Hx). by rewrite (find_pbase _ _ _ Hx), Z.eqb_refl. }
  rewrite E, dio_at_upd; [|by intros y; destruct (Z.eqb_spec (dio_pbase y) p); congruence].
  destruct (p =? q); [|done]. rewrite Hx. cbn. by rewrite (find_pbase _ _ _ Hx), Z.eqb_refl.
Qed.

Lemma dio_at_setd_eq h p d s : is_Some (dio_at h p) -> dio_pbase d = p -> dio_at (setd h p d s) p = Some d.
Proof. intros. by rewrite dio_at_setd, Z.eqb_refl. Qed.

Lemma setd_id h p d : dio_at h p = Some d -> setd h p d (dv_pc h) = h.
Proof.
  intros Hd. unfold setd, dio_upd, dv_with_hash, dv_with_pc. cbn. rewrite (upd_id _ _ _ Hd).
  assert (Hn : is_Some (dv_iohash h !! hammer2_io_hashv p)).
  { revert Hd. unfold dio_at, bucket_at. destruct (dv_iohash h !! _); [by eexists|done]. }
  destruct Hn as [l Hl]. unfold bucket_at. rewrite Hl, insert_id by done. by destruct h.
Qed.

Lemma upd_setd h p d s f : is_Some (dio_at h p) -> dio_pbase d = p -> dio_upd (setd h p d s) p f = setd h p (f d) s.
Proof.
  intros Hx Hd. pose proof (dio_at_setd_eq h p d s Hx Hd) as Hp. unfold dio_upd at 1.
  rewrite (upd_const _ p f d Hp). unfold setd, dio_upd, dv_with_hash, dv_with_pc, bucket_at. cbn.
  rewrite lookup_insert_eq, insert_insert_eq. cbn. rewrite (upd_upd _ p d (f d) Hd). done.
Qed.

Lemma pc_setd h p d s s' : dv_with_pc (setd h p d s) s' = setd h p d s'.
Proof. done. Qed.

Lemma with_pc_setd h p d s : dio_at h p = Some d -> dv_with_pc h s = setd h p d s.
Proof. intros Hd. rewrite <- (setd_id h p d Hd) at 1. apply pc_setd. Qed.

Lemma upd_eq_setd h p d f : dio_at h p = Some d -> dio_upd h p f = setd h p (f d) (dv_pc h).
Proof. intros Hd. rewrite <- (setd_id h p d Hd) at 1. apply upd_setd; [by rewrite Hd|by apply dio_at_pbase in Hd]. Qed.

Lemma dv_pc_setd h p d s : dv_pc (setd h p d s) = s.
Proof. done. Qed.
End Hash.

Global Opaque setd.

(** ** The page cache *)

(** Two contents of a block. *)
Definition same (m m' : Z -> Z) : Prop := forall i, 0 <= i < HAMMER2_PBUFSIZE -> m i = m' i.

#[export] Instance same_equiv : Equivalence same.
Proof.
  split; [by intros m i| |]; [intros m m' E i Hi; by rewrite E|intros m m' m'' E E' i Hi; by rewrite E, E'].
Qed.

Definition uptodate (o : option folio) : bool := match o with Some f => fo_uptodate f | None => false end.

(** What the kernel does to a block at any time: write back a dirty folio, drop a
    clean one without references, read the block ahead. *)
Inductive blk_env : blk -> blk -> Prop :=
  | env_writeback media m r :
      blk_env (mkBlk media (Some (mkFolio m true true)) r) (mkBlk m (Some (mkFolio m true false)) r)
  | env_reclaim media m u : blk_env (mkBlk media (Some (mkFolio m u false)) 0) (mkBlk media None 0)
  | env_read media o : uptodate o = false ->
      blk_env (mkBlk media o 0) (mkBlk media (Some (mkFolio media true false)) 0).

Section Laws.
Context {S : Type} `{PageCache S}.
Implicit Types s : S.

Definition frame s (a : addr) s' : Prop := forall b, b <> a -> rtc blk_env (pc_blk s b) (pc_blk s' b).
Definition pc_env s s' : Prop := forall b, rtc blk_env (pc_blk s b) (pc_blk s' b).

(** A call on the block at [a] that does [P] to it, with the kernel at work before
    and after, and on the other blocks. *)
Definition pc_does s (a : addr) (P : blk -> blk -> Prop) s' : Prop :=
  frame s a s' /\ exists x y, rtc blk_env (pc_blk s a) x /\ P x y /\ rtc blk_env y (pc_blk s' a).
End Laws.

(** A reference taken or dropped. *)
Definition blk_ref (n : Z) (x : blk) : blk := mkBlk (bk_media x) (bk_folio x) (bk_refs x + n).

(** What the file relies on.  A read of a block returns its folio with the bytes
    that the media has or that were stored in it; it fails with ENOMEM when there
    is no such folio and none can be had.  A folio that is created is not
    uptodate.  A folio with a reference stays, and keeps what is stored in it.
    A folio here covers one block. *)
Class PageCacheLaws (S : Type) `{PageCache S} := {
  read_ok s a s' n : mapping_read_folio_gfp s a = (s', inr n) ->
    pc_does s a (fun x y => uptodate (bk_folio x) = true /\ y = blk_ref 1 x) s';
  read_err s a s' e : mapping_read_folio_gfp s a = (s', inl e) ->
    e <> 0 /\ pc_does s a (fun x y => y = x /\ (e = ENOMEM -> uptodate (bk_folio x) = false)) s';
  get_ok s a s' n u : filemap_get_folio s a = (s', inr (n, u)) ->
    pc_does s a (fun x y => exists f,
      (bk_folio x = Some f \/ bk_folio x = None /\ fo_uptodate f = false /\ fo_dirty f = false) /\
      u = fo_uptodate f /\ y = mkBlk (bk_media x) (Some f) (bk_refs x + 1)) s';
  get_err s a s' e : filemap_get_folio s a = (s', inl e) ->
    e <> 0 /\ pc_does s a (fun x y => y = x /\ bk_folio x = None) s';
  ra_ok s a : pc_env s (page_cache_sync_ra s a);
  write_ok s a m : 0 < bk_refs (pc_blk s a) ->
    pc_does s a (fun x y => forall f, bk_folio x = Some f ->
      y = mkBlk (bk_media x) (Some (mkFolio m (fo_uptodate f) (fo_dirty f))) (bk_refs x)) (folio_write s a m);
  uptodate_ok s a : 0 < bk_refs (pc_blk s a) ->
    pc_does s a (fun x y => forall f, bk_folio x = Some f ->
      y = mkBlk (bk_media x) (Some (mkFolio (fo_mem f) true (fo_dirty f))) (bk_refs x)) (folio_mark_uptodate s a);
  dirty_ok s a : 0 < bk_refs (pc_blk s a) ->
    pc_does s a (fun x y => forall f, bk_folio x = Some f ->
      y = mkBlk (bk_media x) (Some (mkFolio (fo_mem f) (fo_uptodate f) true)) (bk_refs x)) (folio_mark_dirty_lock s a);
  put_ok s a : 0 < bk_refs (pc_blk s a) -> pc_does s a (fun x y => y = blk_ref (-1) x) (folio_put s a);
  fdatawrite_ok s a : pc_env s (filemap_fdatawrite_range s a);
  invalidate_ok s a :
    pc_does s a (fun x y => bk_refs x = 0 -> (forall f, bk_folio x = Some f -> fo_dirty f = false) ->
      y = mkBlk (bk_media x) None 0) (invalidate_inode_pages2_range s a);
  vmalloc_ok s s' m : vmalloc s = (s', m) -> pc_env s s';
  bio_read_ok s a s' b : bio_read s a = (s', inr b) -> pc_does s a (fun x y => y = x /\ same b (bk_media x)) s';
  bio_read_err s a s' e : bio_read s a = (s', inl e) -> e <> 0 /\ pc_env s s';
  bio_write_ok s a b s' : bio_write s a b = (s', 0) ->
    pc_does s a (fun x y => y = mkBlk b (bk_folio x) (bk_refs x)) s'
}.

(** ** What a block holds *)

(** What a folio has that the media has not is not lost. *)
Definition saved (b : blk) : Prop := forall f, bk_folio b = Some f ->
  if fo_uptodate f then fo_dirty f = true \/ same (fo_mem f) (bk_media b) else fo_dirty f = false.
Definition clean (b : blk) : Prop := forall f, bk_folio b = Some f ->
  fo_dirty f = false /\ (fo_uptodate f = true -> same (fo_mem f) (bk_media b)).
(** What a read of the block returns. *)
Definition view (b : blk) : Z -> Z :=
  match bk_folio b with Some f => if fo_uptodate f then fo_mem f else bk_media b | None => bk_media b end.

Lemma clean_saved b : clean b -> saved b.
Proof. intros Hc f Hf. destruct (Hc f Hf) as [Hd Hs]. destruct (fo_uptodate f); auto. Qed.

Lemma clean_view b : clean b -> same (view b) (bk_media b).
Proof. unfold clean, view. intros Hc. destruct (bk_folio b) as [f|]; [|done]. destruct (Hc f eq_refl) as [_ Hs]. destruct (fo_uptodate f); [by apply Hs|done]. Qed.

(** A block without a dio that is in use has the content [m]. *)
Definition idle (only : bool) (b : blk) (m : Z -> Z) : Prop :=
  bk_refs b = 0 /\ saved b /\ (only = true -> clean b) /\ same (view b) m.

(** A block in the folio or in the buffer of a dio has it; [dirty] says that it
    may not be that of the media. *)
Definition in_folio (dirty : bool) (b : blk) (m : Z -> Z) : Prop :=
  exists f, bk_folio b = Some f /\ fo_uptodate f = true /\ bk_refs b = 1 /\ same (fo_mem f) m /\
    (dirty = false -> fo_dirty f = true \/ same (fo_mem f) (bk_media b)).
Definition in_buf (dirty : bool) (x : Z -> Z) (b : blk) (m : Z -> Z) : Prop :=
  bk_refs b = 0 /\ clean b /\ same x m /\ (dirty = false -> same x (bk_media b)).

(** The kernel leaves it all as it is. *)
Lemma clean_env b b' : blk_env b b' -> clean b -> clean b' /\ bk_media b' = bk_media b.
Proof.
  intros He Hc. destruct He as [media m r|media m u|media o Ho]; cbn.
  - destruct (Hc _ eq_refl) as [Hd _]. done.
  - by split.
  - split; [|done]. intros f [= <-]. by split.
Qed.

Lemma saved_env b b' : blk_env b b' -> saved b -> saved b' /\ same (view b') (view b).
Proof.
  intros He Hs. destruct He as [media m r|media m u|media o Ho]; cbn.
  - split; [|done]. intros f [= <-]. cbn. by right.
  - split; [done|]. unfold view. cbn. specialize (Hs _ eq_refl). cbn in Hs. destruct u; [|done].
    destruct Hs as [|Hs]; [done|]. by symmetry.
  - split; [intros f [= <-]; cbn; by right|]. unfold view. cbn. destruct o as [f|]; [|done]. cbn in Ho. by rewrite Ho.
Qed.

Lemma refs_env b b' : blk_env b b' -> bk_refs b' = bk_refs b.
Proof. by intros []. Qed.

Lemma idle_env only b b' m : rtc blk_env b b' -> idle only b m -> idle only b' m.
Proof.
  induction 1 as [|b x b' He _ IH]; [done|]. intros (Hr & Hs & Hc & Hv). apply IH.
  destruct (saved_env _ _ He Hs) as [Hs' Hv']. split; [by rewrite (refs_env _ _ He)|]. split; [done|].
  split; [intros Ho; by apply (clean_env _ _ He), Hc|]. by transitivity (view b).
Qed.

Lemma in_folio_env dirty b b' m : rtc blk_env b b' -> in_folio dirty b m -> in_folio dirty b' m.
Proof.
  induction 1 as [|b x b' He _ IH]; [done|]. intros (f & Hf & Hu & Hr & Hm & Hd). apply IH.
  destruct He as [media m0 r|media m0 u|media o Ho]; cbn in *; simplify_eq; cbn in *.
  eexists; cbn; repeat split; try done. by right.
Qed.

Lemma in_buf_env dirty x b b' m : rtc blk_env b b' -> in_buf dirty x b m -> in_buf dirty x b' m.
Proof.
  induction 1 as [|b y b' He _ IH]; [done|]. intros (Hr & Hc & Hm & Hd). apply IH.
  destruct (clean_env _ _ He Hc) as [Hc' Em]. split; [by rewrite (refs_env _ _ He)|]. by rewrite Em.
Qed.

(** ** A dio by itself *)

Definition good (d : hammer2_io) : bool := has (dio_refs d) HAMMER2_DIO_GOOD.
Definition dirty (d : hammer2_io) : bool := has (dio_refs d) HAMMER2_DIO_DIRTY.

(** GOOD is exactly that the dio has a block, in a folio or in a buffer and not in
    both; without references it has none. *)
Record dio_ok (d : hammer2_io) : Prop := {
  ok_u64 : is_u64 (dio_refs d);
  ok_good : good d = true ->
    dio_error d = 0 /\ (dio_folio d = true /\ dio_buf d = None \/ dio_folio d = false /\ is_Some (dio_buf d));
  ok_bad : good d = false -> dio_folio d = false /\ dio_buf d = None;
  ok_free : dio_count d = 0 -> good d = false /\ dirty d = false
}.

(** The same buffer with the same references. *)
Definition kin (d d' : hammer2_io) : Prop :=
  dio_pbase d' = dio_pbase d /\ dio_addr d' = dio_addr d /\ dio_count d' = dio_count d.

Lemma kin_refl d : kin d d.
Proof. done. Qed.

Lemma kin_trans d d' d'' : kin d d' -> kin d' d'' -> kin d d''.
Proof. unfold kin. intros (-> & -> & ->). done. Qed.

Lemma kin_flags d f : f mod 2 ^ 56 = 0 -> kin d (dio_with_refs d (dio_refs d ||| f)).
Proof. intros Hf. split_and!; [done|done|]. rewrite !dio_count_mod. by apply count_lor. Qed.

Lemma ok_block d : dio_ok d -> dio_block d = good d.
Proof.
  intros Hok. unfold dio_block. destruct (good d) eqn:E.
  - destruct (ok_good d Hok E) as [_ [[-> _]|[-> Hb]]]; [done|]. by rewrite bool_decide_true.
  - destruct (ok_bad d Hok E) as [-> ->]. by rewrite bool_decide_false by (by intros [? ?]).
Qed.

Lemma ok_dirty d f : dio_ok d -> 0 < dio_count d -> f = HAMMER2_DIO_DIRTY \/ f = HAMMER2_DIO_DIRTY ||| HAMMER2_DIO_FLUSH ->
  dio_ok (dio_with_refs d (dio_refs d ||| f)) /\ good (dio_with_refs d (dio_refs d ||| f)) = good d /\
  dirty (dio_with_refs d (dio_refs d ||| f)) = true.
Proof.
  intros [H1 H2 H3 H4] Hc Hf.
  assert (Eg : good (dio_with_refs d (dio_refs d ||| f)) = good d).
  { unfold good. cbn [dio_with_refs dio_refs]. rewrite has_lor. destruct Hf as [->| ->]; apply orb_false_r. }
  split; [|split; [done|unfold dirty; cbn [dio_with_refs dio_refs]; rewrite has_lor; destruct Hf as [->| ->]; apply orb_true_r]].
  split; rewrite ?Eg; try done.
  - apply is_u64_lor; [done|]. by destruct Hf as [->| ->].
  - assert (Ec : dio_count (dio_with_refs d (dio_refs d ||| f)) = dio_count d) by (apply kin_flags; by destruct Hf as [->| ->]). lia.
Qed.

(** ** Getting a block *)

Section Ops.
Context {S : Type} `{PageCacheLaws S} (C : io_config).
Implicit Types (h : hammer2_dev S) (s : S).

Lemma frame_trans s a s' s'' : frame s a s' -> frame s' a s'' -> frame s a s''.
Proof. intros H1 H2 b Hb. etrans; [by apply H1|by apply H2]. Qed.

Lemma env_frame s a s' : pc_env s s' -> frame s a s'.
Proof. intros He b _. apply He. Qed.

(** A clean block, which only the media has. *)
Definition only_media (b : blk) (m : Z -> Z) : Prop := bk_refs b = 0 /\ clean b /\ same (bk_media b) m.

Lemma only_media_env b b' m : rtc blk_env b b' -> only_media b m -> only_media b' m.
Proof.
  induction 1 as [|b y b' He _ IH]; [done|]. intros (Hr & Hc & Hm). apply IH.
  destruct (clean_env _ _ He Hc) as [Hc' Em]. split; [by rewrite (refs_env _ _ He)|]. by rewrite Em.
Qed.

Lemma env_only_media s s' a m : pc_env s s' -> only_media (pc_blk s a) m -> only_media (pc_blk s' a) m.
Proof. intros He. apply only_media_env, He. Qed.

Lemma only_media_idle only b m : only_media b m -> idle only b m.
Proof. intros (Hr & Hc & Hm). split_and!; try done; [by apply clean_saved|]. etrans; [by apply clean_view|done]. Qed.

Lemma idle_only_media b m : idle true b m -> only_media b m.
Proof. intros (Hr & _ & Hc & Hm). split_and!; try done; [by apply Hc|]. etrans; [symmetry; by apply clean_view, Hc|done]. Qed.

(** The dio after a block was asked for: the same with an error, or with a folio
    or a buffer. *)
Definition filled (d d' : hammer2_io) (e : Z) : Prop :=
  e <> 0 /\ d' = d \/
  e = 0 /\ (d' = dio_with_data d true (dio_buf d) \/ exists b, d' = dio_with_data d (dio_folio d) (Some b)).

Lemma buf_get_spec h p d s read zero : is_Some (dio_at h p) -> dio_pbase d = p -> dio_buf d = None ->
  exists d' s' e, hammer2_io_buf_get (setd h p d s) p read zero = Some (setd h p d' s', e) /\
    (e <> 0 /\ d' = d \/ e = 0 /\ exists b, d' = dio_with_data d (dio_folio d) (Some b)) /\
    forall m, only_media (pc_blk s (dio_addr d)) m ->
      frame s (dio_addr d) s' /\ only_media (pc_blk s' (dio_addr d)) m /\
      forall b, dio_buf d' = Some b -> if read then same b m else zero = true -> same b (fun _ => 0).
Proof.
  intros Hx Hp Hn. unfold hammer2_io_buf_get. rewrite dio_at_setd_eq by done. cbn [mbind option_bind].
  rewrite dv_pc_setd. destruct (vmalloc s) as [s1 [m0|]] eqn:Ev; pose proof (vmalloc_ok _ _ _ Ev) as H1.
  2:{ exists d, s1, ENOMEM. split; [reflexivity|]. split; [by left|]. intros m Hm. split; [by apply env_frame|].
      split; [by eapply env_only_media|]. intros b Hb. congruence. }
  destruct read.
  2:{ rewrite pc_setd, upd_setd by done. eexists _, s1, 0. split; [reflexivity|]. split; [right; eauto|].
      intros m Hm. split; [by apply env_frame|]. split; [by eapply env_only_media|]. intros b [= <-] ->. done. }
  destruct (bio_read s1 (dio_addr d)) as [s2 [e|b]] eqn:Eb.
  - destruct (bio_read_err _ _ _ _ Eb) as [He H2]. exists d, s2, e. split; [reflexivity|]. split; [by left|].
    intros m Hm. split; [eapply frame_trans; by apply env_frame|].
    split; [do 2 (eapply env_only_media; [done|]); done|]. intros b Hb. congruence.
  - rewrite pc_setd, upd_setd by done. eexists _, s2, 0. split; [reflexivity|]. split; [right; eauto|].
    destruct (bio_read_ok _ _ _ _ Eb) as (Hf & x & y & E1 & [-> Hb] & E2).
    intros m Hm. assert (Hxm : only_media x m) by (eapply only_media_env; [exact E1|]; by eapply env_only_media).
    split; [eapply frame_trans; [by apply env_frame|done]|]. split; [by eapply only_media_env|].
    intros b' [= <-]. etrans; [exact Hb|]. apply Hxm.
Qed.

(** The block of a dio has the content [m]. *)
Definition loaded (dirty : bool) (d : hammer2_io) (b : blk) (m : Z -> Z) : Prop :=
  dio_folio d = true /\ dio_buf d = None /\ cf_io_buf_only C = false /\ in_folio dirty b m \/
  dio_folio d = false /\ exists x, dio_buf d = Some x /\ in_buf dirty x b m.

Lemma loaded_env dirty d b b' m : rtc blk_env b b' -> loaded dirty d b m -> loaded dirty d b' m.
Proof.
  intros He [(? & ? & ? & Hf)|(? & x & ? & Hb)]; [left|right]; split_and!; eauto using in_folio_env, in_buf_env.
Qed.

(** A folio that the file has a reference on. *)
Definition grabbed (b : blk) (m : Z -> Z) : Prop :=
  bk_refs b = 1 /\ saved b /\ same (view b) m /\ is_Some (bk_folio b).
Definition has_mem (b : blk) (m : Z -> Z) : Prop :=
  bk_refs b = 1 /\ exists f, bk_folio b = Some f /\ same (fo_mem f) m.

Lemma grabbed_env b b' m : rtc blk_env b b' -> grabbed b m -> grabbed b' m.
Proof.
  induction 1 as [|b x b' He _ IH]; [done|]. intros (Hr & Hs & Hv & Hf). apply IH.
  destruct (saved_env _ _ He Hs) as [Hs' Hv']. split_and!; [by rewrite (refs_env _ _ He)|done|by etrans|].
  by destruct He.
Qed.

Lemma has_mem_env b b' m : rtc blk_env b b' -> has_mem b m -> has_mem b' m.
Proof.
  induction 1 as [|b x b' He _ IH]; [done|]. intros (Hr & f & Hf & Hm). apply IH.
  destruct He; cbn in *; simplify_eq. split; [done|]. by eexists.
Qed.

Lemma put_grabbed b m : grabbed b m -> idle false (blk_ref (-1) b) m.
Proof. intros (Hr & Hs & Hv & _). split_and!; try done. cbn. lia. Qed.

Lemma in_folio_grabbed b m : in_folio false b m -> grabbed b m.
Proof.
  intros (f & Hf & Hu & Hr & Hm & Hd). split_and!; [done| |unfold view; by rewrite Hf, Hu|by rewrite Hf].
  intros g. rewrite Hf. intros [= <-]. rewrite Hu. by apply Hd.
Qed.

Lemma ref_uptodate b m : idle false b m -> uptodate (bk_folio b) = true -> in_folio false (blk_ref 1 b) m.
Proof.
  intros (Hr & Hs & _ & Hv) Hu. destruct (bk_folio b) as [f|] eqn:Ef; [|done]. cbn in Hu. exists f.
  unfold view in Hv. rewrite Ef, Hu in Hv. specialize (Hs f Ef). rewrite Hu in Hs.
  split_and!; [by cbn; rewrite Ef|done|cbn; lia|done|done].
Qed.

(** Without a folio that is uptodate only the media has the block. *)
Lemma idle_not_uptodate only b m : idle only b m -> uptodate (bk_folio b) = false -> only_media b m.
Proof.
  intros (Hr & Hs & _ & Hv) Hu. split; [done|]. unfold view in Hv. destruct (bk_folio b) as [f|] eqn:Ef; cbn in Hu.
  - rewrite Hu in Hv. split; [|done]. intros g Hg. rewrite Ef in Hg. injection Hg as <-. specialize (Hs f Ef).
    rewrite Hu in *. done.
  - split; [|done]. intros g Hg. congruence.
Qed.

Lemma env_idle only s s' a m : pc_env s s' -> idle only (pc_blk s a) m -> idle only (pc_blk s' a) m.
Proof. intros He. apply idle_env, He. Qed.

Lemma put_idle s a m : grabbed (pc_blk s a) m -> frame s a (folio_put s a) /\ idle false (pc_blk (folio_put s a) a) m.
Proof.
  intros Hg. destruct (put_ok s a) as (Hf & x & y & E1 & -> & E2); [by rewrite (proj1 Hg)|]. split; [done|].
  eapply idle_env; [exact E2|]. by eapply put_grabbed, grabbed_env.
Qed.

Lemma readahead_env s d : pc_env s (hammer2_io_readahead C s d).
Proof.
  unfold hammer2_io_readahead. destruct (_ || _); [by intros b|]. destruct (folio_cached _ _); [by intros b|]. apply ra_ok.
Qed.

(** hammer2_bread() on a dio without a block. *)
Lemma bread_spec h p d s : is_Some (dio_at h p) -> dio_pbase d = p -> dio_folio d = false -> dio_buf d = None ->
  exists d' s' e, hammer2_bread C (setd h p d s) p = Some (setd h p d' s', e) /\ filled d d' e /\
    forall m, idle (cf_io_buf_only C) (pc_blk s (dio_addr d)) m ->
      frame s (dio_addr d) s' /\ (e <> 0 -> idle (cf_io_buf_only C) (pc_blk s' (dio_addr d)) m) /\
      (e = 0 -> loaded false d' (pc_blk s' (dio_addr d)) m).
Proof.
  intros Hx Hp Hnf Hnb. unfold hammer2_bread. rewrite dio_at_setd_eq by done. cbn [mbind option_bind].
  rewrite dv_pc_setd.
  assert (Hbuf : forall s1, exists d' s' e, hammer2_io_buf_get (setd h p d s1) p true false = Some (setd h p d' s', e) /\
    filled d d' e /\ forall m, only_media (pc_blk s1 (dio_addr d)) m -> frame s1 (dio_addr d) s' /\
      (e <> 0 -> idle (cf_io_buf_only C) (pc_blk s' (dio_addr d)) m) /\
      (e = 0 -> loaded false d' (pc_blk s' (dio_addr d)) m)).
  { intros s1. destruct (buf_get_spec h p d s1 true false Hx Hp Hnb) as (d' & s' & e & E & Hd & Hm).
    exists d', s', e. split; [done|]. split; [destruct Hd as [?|[? ?]]; [by left|right; auto]|].
    intros m Ho. destruct (Hm m Ho) as (Hf & Ho' & Hb). split; [done|]. split; [intros _; by apply only_media_idle|].
    intros ->. destruct Hd as [[? _]|(_ & b & ->)]; [done|]. right. split; [done|]. exists b. split; [done|].
    destruct Ho' as (Hr & Hc & Hs). specialize (Hb b eq_refl). split_and!; try done. intros _. by etrans. }
  destruct (cf_io_buf_only C) eqn:Eo.
  { destruct (Hbuf s) as (d' & s' & e & E & Hd & Hm). exists d', s', e. split; [done|]. split; [done|].
    intros m Hi. apply Hm. by apply idle_only_media. }
  set (s0 := hammer2_io_readahead C s d). pose proof (readahead_env s d) as H0'. fold s0 in H0'.
  destruct (mapping_read_folio_gfp s0 (dio_addr d)) as [s1 [e|n]] eqn:Er.
  - destruct (read_err _ _ _ _ Er) as (He & Hf & x & y & E1 & [-> Hu] & E2). rewrite pc_setd. destruct (Z.eqb_spec e ENOMEM) as [->|Hne].
    + destruct (Hbuf s1) as (d' & s' & e & E & Hd & Hm). exists d', s', e. split; [done|]. split; [done|].
      intros m Hi. destruct (Hm m) as (Hf' & ? & ?).
      { eapply only_media_env; [exact E2|]. eapply idle_not_uptodate; [|by apply Hu]. eapply idle_env; [exact E1|].
        by eapply env_idle. }
      split; [|done]. eapply frame_trans; [by eapply env_frame|]. by eapply frame_trans.
    + exists d, s1, e. split; [done|]. split; [by left|]. intros m Hi. split; [|split; [|done]].
      * eapply frame_trans; [by eapply env_frame|done].
      * intros _. eapply idle_env; [exact E2|]. eapply idle_env; [exact E1|]. by eapply env_idle.
  - destruct (read_ok _ _ _ _ Er) as (Hf & x & y & E1 & [Hu ->] & E2). rewrite !pc_setd.
    assert (Hl : forall m, idle false (pc_blk s (dio_addr d)) m -> in_folio false (pc_blk s1 (dio_addr d)) m).
    { intros m Hi. eapply in_folio_env; [exact E2|]. apply ref_uptodate; [|done]. eapply idle_env; [exact E1|]. by eapply env_idle. }
    destruct (nz_spec (hammer2_io_folio_check n)) as [Hn|Hn].
    + exists d, (folio_put s1 (dio_addr d)), (hammer2_io_folio_check n). split; [done|]. split; [by left|]. intros m Hi.
      destruct (put_idle s1 (dio_addr d) m) as [Hf' Hi']; [by apply in_folio_grabbed, Hl|].
      split; [|split; [done|done]]. eapply frame_trans; [by eapply env_frame|]. by eapply frame_trans.
    + rewrite upd_setd by done. eexists _, s1, 0. split; [done|]. split; [right; auto|]. intros m Hi.
      split; [eapply frame_trans; [by eapply env_frame|done]|]. split; [done|]. intros _. left. split_and!; try done. by apply Hl.
Qed.

(** A store to the memory of a folio, and the mark of it. *)
Lemma write_has_mem s a m m' : has_mem (pc_blk s a) m ->
  frame s a (folio_write s a m') /\ has_mem (pc_blk (folio_write s a m') a) m'.
Proof.
  intros Hm. destruct (write_ok s a m') as (Hf & x & y & E1 & Hy & E2); [by rewrite (proj1 Hm)|]. split; [done|].
  eapply has_mem_env; [exact E2|]. destruct (has_mem_env _ _ _ E1 Hm) as (Hr & f & Ef & _).
  rewrite (Hy f Ef). split; [done|]. by eexists.
Qed.

Lemma mark_in_folio s a m : has_mem (pc_blk s a) m ->
  frame s a (folio_mark_uptodate s a) /\ in_folio true (pc_blk (folio_mark_uptodate s a) a) m.
Proof.
  intros Hm. destruct (uptodate_ok s a) as (Hf & x & y & E1 & Hy & E2); [by rewrite (proj1 Hm)|]. split; [done|].
  eapply in_folio_env; [exact E2|]. destruct (has_mem_env _ _ _ E1 Hm) as (Hr & f & Ef & Hs).
  rewrite (Hy f Ef). by eexists.
Qed.

(** hammer2_getblk_new() on a dio without a block. *)
Lemma getblk_new_spec h p d s zero : is_Some (dio_at h p) -> dio_pbase d = p -> dio_folio d = false -> dio_buf d = None ->
  exists d' s' e, hammer2_getblk_new C (setd h p d s) p zero = Some (setd h p d' s', e) /\ filled d d' e /\
    forall m, idle (cf_io_buf_only C) (pc_blk s (dio_addr d)) m ->
      frame s (dio_addr d) s' /\ (e <> 0 -> idle (cf_io_buf_only C) (pc_blk s' (dio_addr d)) m) /\
      (e = 0 -> exists m', (zero = true -> same m' (fun _ => 0)) /\ loaded true d' (pc_blk s' (dio_addr d)) m').
Proof.
  intros Hx Hp Hnf Hnb. unfold hammer2_getblk_new. rewrite dio_at_setd_eq by done. cbn [mbind option_bind].
  rewrite dv_pc_setd.
  assert (Hbuf : forall s1, exists d' s' e, hammer2_io_buf_get (setd h p d s1) p false zero = Some (setd h p d' s', e) /\
    filled d d' e /\ forall m, only_media (pc_blk s1 (dio_addr d)) m -> frame s1 (dio_addr d) s' /\
      (e <> 0 -> idle (cf_io_buf_only C) (pc_blk s' (dio_addr d)) m) /\
      (e = 0 -> exists m', (zero = true -> same m' (fun _ => 0)) /\ loaded true d' (pc_blk s' (dio_addr d)) m')).
  { intros s1. destruct (buf_get_spec h p d s1 false zero Hx Hp Hnb) as (d' & s' & e & E & Hd & Hm).
    exists d', s', e. split; [done|]. split; [destruct Hd as [?|[? ?]]; [by left|right; auto]|].
    intros m Ho. destruct (Hm m Ho) as (Hf & Ho' & Hb). split; [done|]. split; [intros _; by apply only_media_idle|].
    intros ->. destruct Hd as [[? _]|(_ & b & ->)]; [done|]. exists b. split; [by apply (Hb b)|]. right. split; [done|].
    exists b. split; [done|]. destruct Ho' as (Hr & Hc & Hs). by split_and!. }
  destruct (cf_io_buf_only C) eqn:Eo.
  { destruct (Hbuf s) as (d' & s' & e & E & Hd & Hm). exists d', s', e. split; [done|]. split; [done|].
    intros m Hi. apply Hm. by apply idle_only_media. }
  destruct (filemap_get_folio s (dio_addr d)) as [s1 [e|[n u]]] eqn:Er.
  - destruct (get_err _ _ _ _ Er) as (He & Hf & x & y & E1 & [-> Hu] & E2). rewrite pc_setd. destruct (Z.eqb_spec e ENOMEM) as [->|Hne].
    + destruct (Hbuf s1) as (d' & s' & e & E & Hd & Hm). exists d', s', e. split; [done|]. split; [done|].
      intros m Hi. destruct (Hm m) as (Hf' & ? & ?).
      { eapply only_media_env; [exact E2|]. eapply idle_not_uptodate; [|by rewrite Hu]. by eapply idle_env. }
      split; [|done]. by eapply frame_trans.
    + exists d, s1, e. split; [done|]. split; [by left|]. intros m Hi. split; [done|]. split; [|done]. intros _.
      eapply idle_env; [exact E2|]. by eapply idle_env.
  - destruct (get_ok _ _ _ _ _ Er) as (Hf & x & y & E1 & (f & Hfo & Hu & ->) & E2). rewrite !pc_setd.
    assert (Hg : forall m, idle false (pc_blk s (dio_addr d)) m -> grabbed (pc_blk s1 (dio_addr d)) m).
    { intros m Hi. eapply grabbed_env; [exact E2|]. destruct (idle_env _ _ _ _ E1 Hi) as (Hr & Hs & _ & Hv).
      unfold grabbed, view in *. cbn. destruct Hfo as [Hfo|(Hfo & Hu0 & Hd0)]; rewrite Hfo in *.
      - split_and!; [lia|by intros g [= <-]; apply Hs|done|done].
      - rewrite Hu0. split_and!; [lia|intros g [= <-]; by rewrite Hu0|done|done]. }
    set (e1 := if (_ =? 0) && _ && _ then EIO else _). destruct (nz_spec e1) as [Hn|Hn].
    + exists d, (folio_put s1 (dio_addr d)), e1. split; [done|]. split; [by left|]. intros m Hi.
      destruct (put_idle s1 (dio_addr d) m (Hg m Hi)) as [Hf' Hi']. split; [by eapply frame_trans|]. by split.
    + rewrite upd_setd by done. eexists _, _, 0. split; [done|]. split; [right; auto|]. intros m Hi.
      specialize (Hg m Hi). destruct Hg as (Hr & _ & _ & g & Eg).
      assert (Hm : has_mem (pc_blk s1 (dio_addr d)) (fo_mem g)) by (split; [done|]; by eexists).
      set (s2 := if zero then _ else _).
      assert (H2 : frame s1 (dio_addr d) s2 /\ exists m', (zero = true -> same m' (fun _ => 0)) /\ has_mem (pc_blk s2 (dio_addr d)) m').
      { subst s2. destruct zero; [|split; [by intros b|]; by exists (fo_mem g)].
        destruct (write_has_mem s1 (dio_addr d) _ (fun _ => 0) Hm) as [Hf2 Hm2]. split; [done|]. by exists (fun _ => 0). }
      destruct H2 as (Hf2 & m' & Hz & Hm'). destruct (mark_in_folio s2 (dio_addr d) m' Hm') as [Hf3 Hi3].
      split; [eapply frame_trans; [done|]; by eapply frame_trans|]. split; [done|]. intros _. exists m'. split; [done|].
      left. by split_and!.
Qed.

(** ** Stores and flags *)

Lemma put_range_same m m' off n f : same m m' -> same (put_range m off n f) (put_range m' off n f).
Proof. intros E i Hi. unfold put_range. destruct (_ && _); [done|]. by apply E. Qed.

Lemma loaded_block dirty d b m : loaded dirty d b m -> dio_block d = true.
Proof. unfold dio_block. intros [(-> & _)|(_ & x & -> & _)]; [done|]. rewrite bool_decide_true by done. apply orb_true_r. Qed.

Lemma loaded_dirty d b m dirty : loaded dirty d b m -> loaded true d b m.
Proof.
  intros [(? & ? & ? & f & ? & ? & ? & ? & ?)|(? & x & ? & ? & ? & ? & ?)]; [left|right]; split_and!; try done;
    eexists; split_and!; done.
Qed.

Lemma loaded_same dirty d b m m' : same m m' -> loaded dirty d b m -> loaded dirty d b m'.
Proof.
  intros E [(? & ? & ? & f & ? & ? & ? & Hm & ?)|(? & x & ? & ? & ? & Hm & ?)]; [left|right]; split_and!; try done;
    eexists; unfold in_buf; split_and!; try done; by etrans.
Qed.

(** The dio after a store through its pointer. *)
Definition stored (d d' : hammer2_io) : Prop :=
  d' = d \/ exists b, is_Some (dio_buf d) /\ d' = dio_with_data d (dio_folio d) (Some b).

Lemma io_store_spec h p d s lbase n f : is_Some (dio_at h p) -> dio_pbase d = p -> dio_block d = true ->
  let off := (lbase &~ HAMMER2_OFF_MASK_RADIX) - p in
  0 <= off < HAMMER2_PBUFSIZE ->
  exists d' s', io_store (setd h p d s) p lbase n f = Some (setd h p d' s') /\ stored d d' /\
    forall dirty m, loaded dirty d (pc_blk s (dio_addr d)) m ->
      frame s (dio_addr d) s' /\ loaded true d' (pc_blk s' (dio_addr d)) (put_range m off n f).
Proof.
  intros Hx Hp Hb off Ho. unfold io_store. rewrite dio_at_setd_eq by done. cbn [mbind option_bind]. fold off.
  rewrite Hb. destruct (Z.ltb_spec off 0); [lia|]. destruct (Z.leb_spec HAMMER2_PBUFSIZE off); [lia|]. cbn [negb orb].
  unfold io_mem. rewrite dv_pc_setd. destruct (dio_buf d) as [x|] eqn:Eb.
  - rewrite upd_setd by done. eexists _, s. split; [done|]. split; [right; rewrite Eb; eauto|]. intros dirty m [(_ & E & _)|Hl]; [congruence|].
    destruct Hl as (Hf & x' & E & Hr & Hc & Hm & _). rewrite Eb in E. injection E as <-. split; [by intros b|]. right. split; [done|].
    eexists. split; [done|]. split_and!; try done. by apply put_range_same.
  - rewrite pc_setd. eexists d, _. split; [done|]. split; [by left|]. intros dirty m [Hl|(_ & x & E & _)]; [|congruence].
    destruct Hl as (Hf & _ & Eo & g & Eg & Hu & Hr & Hm & Hd).
    destruct (write_ok s (dio_addr d) (put_range (folio_mem s (dio_addr d)) off n f)) as (Hfr & y & z & E1 & Hy & E2);
      [by rewrite Hr|].
    split; [done|]. left. split_and!; try done. eapply in_folio_env; [exact E2|].
    assert (Hi : in_folio true (pc_blk s (dio_addr d)) m) by (exists g; split_and!; done).
    destruct (in_folio_env _ _ _ _ E1 Hi) as (g' & Eg' & Hu' & Hr' & _ & _). rewrite (Hy g' Eg').
    eexists. split; [done|]. split; [done|]. split; [done|]. split; [|done]. cbn. apply put_range_same. unfold folio_mem. by rewrite Eg.
Qed.

Lemma stored_ok d d' : stored d d' -> dio_ok d -> dio_ok d' /\ kin d d' /\ dio_refs d' = dio_refs d.
Proof.
  intros [->|(b & Hb & ->)] Hok; [done|]. split; [|done]. destruct Hok as [H1 H2 H3 H4]. split; try done; cbn.
  - intros Hg. destruct (H2 Hg) as [He [[_ E]|[Hf _]]]; [rewrite E in Hb; by destruct Hb|]. split; [done|]. right. by split.
  - intros Hg. destruct (H3 Hg) as [_ E]. rewrite E in Hb. by destruct Hb.
Qed.

(** What an operation does to the bytes of the block. *)
Definition op_effect (off lsize : Z) (op : io_op) (m m' : Z -> Z) : Prop :=
  match op with HAMMER2_DOP_NEW => same m' (put_range m off lsize (fun _ => 0)) | _ => same m' m end.
Definition op_dirties (op : io_op) : bool :=
  match op with HAMMER2_DOP_NEW | HAMMER2_DOP_NEWNZ => true | _ => false end.

Lemma getblk_op_spec h p d s lbase lsize op : is_Some (dio_at h p) -> dio_pbase d = p -> dio_block d = true ->
  let off := (lbase &~ HAMMER2_OFF_MASK_RADIX) - p in
  0 <= off < HAMMER2_PBUFSIZE ->
  exists d0 d' s', getblk_op (setd h p d s) p lbase lsize op = Some (setd h p d' s') /\ stored d d0 /\
    d' = (if op_dirties op then dio_with_refs d0 (dio_refs d0 ||| HAMMER2_DIO_DIRTY) else d0) /\
    forall dty m, loaded dty d (pc_blk s (dio_addr d)) m ->
      frame s (dio_addr d) s' /\ exists m', op_effect off lsize op m m' /\
        loaded (dty || op_dirties op) d' (pc_blk s' (dio_addr d)) m'.
Proof.
  intros Hx Hp Hb off Ho. unfold getblk_op, set_refs.
  destruct op; cbn [op_dirties op_effect]; rewrite ?upd_setd by done; cbn [mbind option_bind].
  - exists d, d, s. split; [done|]. split; [by left|]. split; [done|]. intros dty m Hm. split; [by intros b|]. exists m.
    by rewrite orb_false_r.
  - destruct (io_store_spec h p d s lbase lsize (fun _ => 0) Hx Hp Hb Ho) as (d0 & s' & E & Hs & Hm). rewrite E.
    cbn [mbind option_bind]. rewrite upd_setd; [|done|by destruct Hs as [->|(? & ? & ->)]].
    eexists d0, _, s'. split; [done|]. split; [done|]. split; [done|]. intros dty m Hl. destruct (Hm dty m Hl) as [Hf Hl'].
    split; [done|]. eexists. split; [done|]. by rewrite orb_true_r.
  - eexists d, _, s. split; [done|]. split; [by left|]. split; [done|]. intros dty m Hm. split; [by intros b|]. exists m.
    split; [done|]. rewrite orb_true_r. eapply loaded_dirty, Hm.
  - exists d, d, s. split; [done|]. split; [by left|]. split; [done|]. intros dty m Hm. split; [by intros b|]. exists m.
    by rewrite orb_false_r.
Qed.

(** hammer2_io_getblk() may also leave what a new block happens to have. *)
Definition get_effect (off lsize : Z) (op : io_op) (m m' : Z -> Z) : Prop :=
  match op with
  | HAMMER2_DOP_NEWNZ => off = 0 /\ lsize = HAMMER2_PBUFSIZE \/ same m' m
  | _ => op_effect off lsize op m m'
  end.

Lemma op_get_effect off lsize op m m' : op_effect off lsize op m m' -> get_effect off lsize op m m'.
Proof. destruct op; cbn; auto. Qed.

(** The dio before GOOD and the error are stored. *)
Definition fresh (op : io_op) (d d' : hammer2_io) (e : Z) : Prop :=
  e <> 0 /\ d' = d \/
  e = 0 /\ kin d d' /\ dio_refs d' = (if op_dirties op then dio_refs d ||| HAMMER2_DIO_DIRTY else dio_refs d) /\
  (dio_folio d' = true /\ dio_buf d' = None \/ dio_folio d' = false /\ is_Some (dio_buf d')).

Lemma filled_block d d' e : filled d d' e -> dio_folio d = false -> dio_buf d = None ->
  e <> 0 /\ d' = d \/
  e = 0 /\ kin d d' /\ dio_refs d' = dio_refs d /\ dio_block d' = true /\
  (dio_folio d' = true /\ dio_buf d' = None \/ dio_folio d' = false /\ is_Some (dio_buf d')).
Proof.
  intros [?|[-> [->|[b ->]]]] Hf Hb; [by left|right|right]; split_and!; try done; cbn; rewrite ?Hb, ?Hf; auto.
Qed.

(** What a step on the dio [d] without a block leads to. *)
Definition fresh_post h p d s off lsize op (r : option (hammer2_dev S * Z)) : Prop :=
  exists d' s' e, r = Some (setd h p d' s', e) /\ fresh op d d' e /\
    forall m, idle (cf_io_buf_only C) (pc_blk s (dio_addr d)) m ->
      frame s (dio_addr d) s' /\ (e <> 0 -> idle (cf_io_buf_only C) (pc_blk s' (dio_addr d)) m) /\
      (e = 0 -> exists m', get_effect off lsize op m m' /\ loaded (op_dirties op) d' (pc_blk s' (dio_addr d)) m').

Lemma getblk_read_spec h p d s off lsize op : is_Some (dio_at h p) -> dio_pbase d = p ->
  dio_folio d = false -> dio_buf d = None -> op_dirties op = false ->
  fresh_post h p d s off lsize op (hammer2_bread C (setd h p d s) p).
Proof.
  intros Hx Hp Hf Hb Hop. destruct (bread_spec h p d s Hx Hp Hf Hb) as (d1 & s1 & e & E & Hd & Hm).
  exists d1, s1, e. split; [done|]. split.
  - destruct (filled_block _ _ _ Hd Hf Hb) as [?|(? & ? & ? & _ & ?)]; [by left|right]. rewrite Hop. done.
  - intros m Hi. destruct (Hm m Hi) as (? & ? & Hl). split; [done|]. split; [done|]. intros ->. exists m. rewrite Hop.
    split; [by destruct op|]. by apply Hl.
Qed.

Lemma getblk_whole_spec h p d s op : is_Some (dio_at h p) -> dio_pbase d = p ->
  dio_folio d = false -> dio_buf d = None -> fresh_post h p d s 0 HAMMER2_PBUFSIZE op (getblk_whole C (setd h p d s) p op).
Proof.
  intros Hx Hp Hf Hb.
  assert (Hnew : forall zero, op_dirties op = true -> (op = HAMMER2_DOP_NEW -> zero = true) ->
    fresh_post h p d s 0 HAMMER2_PBUFSIZE op ('(h, error) ← hammer2_getblk_new C (setd h p d s) p zero;
       Some (if error =? 0 then set_refs h p HAMMER2_DIO_DIRTY else h, error))).
  { intros zero Hop Hz. destruct (getblk_new_spec h p d s zero Hx Hp Hf Hb) as (d2 & s2 & e2 & E2 & Hd2 & Hm2).
    rewrite E2. cbn [mbind option_bind].
    destruct (filled_block _ _ _ Hd2 Hf Hb) as [[He ->]|(-> & Hk & Hr & _ & Hbl)].
    - destruct (Z.eqb_spec e2 0) as [|_]; [done|]. exists d, s2, e2. split; [done|]. split; [by left|].
      intros m Hi. destruct (Hm2 m Hi) as (? & ? & _). done.
    - cbn [Z.eqb]. unfold set_refs. rewrite upd_setd; [|done|by rewrite (proj1 Hk)]. eexists _, s2, 0. split; [done|]. split.
      + right. split; [done|]. split; [eapply kin_trans; [done|by apply kin_flags]|]. cbn. rewrite Hop, Hr. by split.
      + intros m Hi. destruct (Hm2 m Hi) as (Hfr & _ & Hl). split; [done|]. split; [done|]. intros _.
        destruct (Hl eq_refl) as (m' & Hz' & Hl'). exists m'. rewrite Hop. split; [|done].
        unfold get_effect, op_effect. destruct op; try done; [|by left]. etrans; [by apply Hz', Hz|].
        intros i Hi'. unfold put_range. by destruct (Z.leb_spec 0 i), (Z.ltb_spec i (0 + HAMMER2_PBUFSIZE)); try lia. }
  unfold getblk_whole. destruct op; [apply getblk_read_spec|apply Hnew|apply Hnew|apply getblk_read_spec]; done.
Qed.

Lemma getblk_part_spec h p d s lbase lsize op : is_Some (dio_at h p) -> dio_pbase d = p ->
  dio_folio d = false -> dio_buf d = None ->
  let off := (lbase &~ HAMMER2_OFF_MASK_RADIX) - p in
  0 <= off < HAMMER2_PBUFSIZE -> fresh_post h p d s off lsize op (getblk_part C (setd h p d s) p lbase lsize op).
Proof.
  intros Hx Hp Hf Hb off Ho. unfold getblk_part.
  destruct (bread_spec h p d s Hx Hp Hf Hb) as (d1 & s1 & e & E & Hd & Hm). rewrite E. cbn [mbind option_bind].
  destruct (filled_block _ _ _ Hd Hf Hb) as [[He ->]|(-> & Hk & Hr & Hbl & Hbl')].
  - rewrite dio_at_setd_eq by done. cbn [mbind option_bind]. unfold dio_block. rewrite Hf, Hb, bool_decide_false by (by intros [? ?]).
    exists d, s1, e. split; [done|]. split; [by left|]. intros m Hi. destruct (Hm m Hi) as (? & ? & _). done.
  - assert (Hp1 : dio_pbase d1 = p) by (by rewrite (proj1 Hk)). rewrite dio_at_setd_eq by done. cbn [mbind option_bind].
    rewrite Hbl. cbn [nz Z.eqb negb].
    destruct (getblk_op_spec h p d1 s1 lbase lsize op Hx Hp1 Hbl Ho) as (d0 & d2 & s2 & E2 & Hs & -> & Hm2).
    rewrite E2. cbn [mbind option_bind]. eexists _, s2, 0. split; [done|].
    assert (Hd0 : kin d1 d0 /\ dio_refs d0 = dio_refs d1 /\
      (dio_folio d0 = true /\ dio_buf d0 = None \/ dio_folio d0 = false /\ is_Some (dio_buf d0))).
    { destruct Hs as [->|(b & Hb1 & ->)]; [done|]. split_and!; try done. cbn. right. destruct Hbl' as [[_ Eb]|[-> _]]; [|done].
      rewrite Eb in Hb1. by destruct Hb1. }
    destruct Hd0 as (Hk0 & Hr0 & Hb0). split.
    + right. split; [done|]. split; [|destruct (op_dirties op); cbn; rewrite Hr0, Hr; by split].
      eapply kin_trans; [done|]. eapply kin_trans; [done|]. destruct (op_dirties op); [by apply kin_flags|done].
    + intros m Hi. destruct (Hm m Hi) as (Hf1 & _ & Hl). rewrite (proj1 (proj2 Hk)) in Hm2.
      destruct (Hm2 false m (Hl eq_refl)) as (Hf2 & m' & He & Hl'). split; [by eapply frame_trans|]. split; [done|]. intros _.
      exists m'. split; [by apply op_get_effect|done].
Qed.

(** ** The locked dio of a call *)

(** What a dio and its block hold: [owed] when bytes were stored that are not
    marked dirty yet. *)
Definition blk_inv (d : hammer2_io) (owed : bool) (b : blk) (m : Z -> Z) : Prop :=
  if good d then loaded (dirty d || owed) d b m else idle (cf_io_buf_only C) b m.

Lemma blk_inv_env d owed b b' m : rtc blk_env b b' -> blk_inv d owed b m -> blk_inv d owed b' m.
Proof. unfold blk_inv. intros He. destruct (good d); [by apply loaded_env|by apply idle_env]. Qed.

Lemma loaded_mono (x y : bool) d b m : (x = true -> y = true) -> loaded x d b m -> loaded y d b m.
Proof. intros Hxy. destruct y; [apply loaded_dirty|]. destruct x; [by specialize (Hxy eq_refl)|done]. Qed.

(** The stores at the end of hammer2_io_getblk(). *)
Lemma fresh_finish d d' e op : dio_ok d -> 0 < dio_count d -> good d = false -> fresh op d d' e ->
  let d1 := dio_with_error d' e in
  let d2 := if e =? 0 then dio_with_refs d1 (dio_refs d1 ||| HAMMER2_DIO_GOOD) else d1 in
  dio_ok d2 /\ kin d d2 /\ good d2 = (e =? 0) /\ (e = 0 -> op_dirties op = true -> dirty d2 = true).
Proof.
  intros Hok Hc Hg Hd d1 d2. destruct (ok_bad d Hok Hg) as [Hf Hb].
  destruct Hd as [[He ->]|(-> & Hk & Hr & Hbl)].
  - subst d2. destruct (Z.eqb_spec e 0) as [|_]; [done|]. split_and!; try done.
    destruct Hok as [H1 H2 H3 H4]. split; try done. change (good d = true -> e = 0 /\ (dio_folio d = true /\ dio_buf d = None \/
      dio_folio d = false /\ is_Some (dio_buf d))). by rewrite Hg.
  - subst d2 d1. cbn [Z.eqb].
    assert (Ek : kin d (dio_with_refs (dio_with_error d' 0) (dio_refs (dio_with_error d' 0) ||| HAMMER2_DIO_GOOD))).
    { eapply kin_trans; [exact Hk|]. by apply (kin_flags (dio_with_error d' 0)). }
    assert (Eg : good (dio_with_refs (dio_with_error d' 0) (dio_refs (dio_with_error d' 0) ||| HAMMER2_DIO_GOOD)) = true).
    { unfold good. cbn [dio_with_refs dio_refs]. rewrite has_lor. apply orb_true_r. }
    split; [|split; [done|]]; [|split; [done|]].
    + split; [|by rewrite Eg|by rewrite Eg|by rewrite (proj2 (proj2 Ek)); lia]. cbn. apply is_u64_lor; [|done]. rewrite Hr.
      pose proof (ok_u64 d Hok). destruct (op_dirties op); [by apply is_u64_lor|done].
    + intros _ Hop. unfold dirty. cbn [dio_with_refs dio_refs dio_with_error]. rewrite Hr, Hop, !has_lor.
      change (has HAMMER2_DIO_DIRTY HAMMER2_DIO_DIRTY) with true. by rewrite orb_true_r.
Qed.

Lemma getblk_fill_spec h p d s lbase lsize op : is_Some (dio_at h p) -> dio_pbase d = p -> dio_ok d -> 0 < dio_count d ->
  let off := (lbase &~ HAMMER2_OFF_MASK_RADIX) - p in
  0 <= off < HAMMER2_PBUFSIZE ->
  exists d' s', getblk_fill C (setd h p d s) p lbase lsize op = Some (setd h p d' s') /\ dio_ok d' /\ kin d d' /\
    forall owed m, blk_inv d owed (pc_blk s (dio_addr d)) m ->
      frame s (dio_addr d) s' /\ exists m', (if good d' then get_effect off lsize op m m' else same m' m) /\
        blk_inv d' owed (pc_blk s' (dio_addr d)) m'.
Proof.
  intros Hx Hp Hok Hc off Ho. unfold getblk_fill. rewrite dio_at_setd_eq by done. cbn [mbind option_bind].
  change (has (dio_refs d) HAMMER2_DIO_GOOD) with (good d). rewrite (ok_block d Hok). unfold blk_inv. destruct (good d) eqn:Eg.
  - destruct (getblk_op_spec h p d s lbase lsize op Hx Hp) as (d0 & d' & s' & E & Hs & Ed & Hm); [by rewrite ok_block|done|].
    destruct (stored_ok _ _ Hs Hok) as (Hok0 & Hk0 & Hr0).
    assert (Hd' : dio_ok d' /\ kin d d' /\ good d' = true /\ (dirty d || op_dirties op = true -> dirty d' = true)).
    { rewrite Ed. destruct (op_dirties op).
      - destruct (ok_dirty d0 HAMMER2_DIO_DIRTY Hok0) as (H1 & H2 & H3); [by rewrite (proj2 (proj2 Hk0))|by left|].
        split_and!; [done|eapply kin_trans; [done|by apply kin_flags]|by rewrite H2; unfold good; rewrite Hr0|done].
      - rewrite orb_false_r. unfold good, dirty. rewrite Hr0. by split_and!. }
    destruct Hd' as (Hok' & Hk' & Hg' & Hdt). exists d', s'. split_and!; [done|done|done|]. rewrite Hg'.
    intros owed m Hl. destruct (Hm _ m Hl) as (Hf & m' & He & Hl'). split; [done|]. exists m'. split; [by apply op_get_effect|].
    eapply loaded_mono; [|exact Hl']. rewrite <- orb_assoc, (orb_comm owed), orb_assoc. destruct owed; rewrite ?orb_true_r, ?orb_false_r; auto.
  - destruct (ok_bad d Hok Eg) as [Hf Hb].
    assert (Hp' : fresh_post h p d s off lsize op
      (if (p =? lbase &~ HAMMER2_OFF_MASK_RADIX) && (HAMMER2_PBUFSIZE =? lsize) then getblk_whole C (setd h p d s) p op
       else getblk_part C (setd h p d s) p lbase lsize op)).
    { destruct (Z.eqb_spec p (lbase &~ HAMMER2_OFF_MASK_RADIX)) as [Ep|], (Z.eqb_spec HAMMER2_PBUFSIZE lsize) as [<-|]; cbn [andb];
        try by apply getblk_part_spec. replace off with 0 by (unfold off; lia). by apply getblk_whole_spec. }
    destruct Hp' as (d1 & s1 & e & E & Hd & Hm). rewrite E. cbn [mbind option_bind].
    destruct (fresh_finish d d1 e op Hok Hc Eg Hd) as (Hok2 & Hk2 & Hg2 & Hdt2).
    assert (Hp1 : dio_pbase d1 = p) by (by destruct Hd as [[_ ->]|(_ & Hk & _)]; [|rewrite (proj1 Hk)]).
    rewrite dio_at_setd_eq by done. cbn [mbind option_bind].
    assert (En : nz e && dio_block d1 = false).
    { destruct Hd as [[_ ->]|[-> _]]; [|done]. unfold dio_block. rewrite Hf, Hb, bool_decide_false by (by intros [? ?]). apply andb_false_r. }
    rewrite En, upd_setd by done. unfold set_refs. rewrite upd_setd by done. set (d2 := if e =? 0 then _ else _) in *.
    exists d2, s1. split; [by subst d2; destruct (e =? 0)|]. split; [done|]. split; [done|]. rewrite Hg2. intros owed m Hi.
    destruct (Hm m Hi) as (Hfr & Hi' & Hl). split; [done|]. destruct (Z.eqb_spec e 0) as [->|He].
    + destruct (Hl eq_refl) as (m' & Hge & Hl'). exists m'. split; [done|]. eapply loaded_mono; [|by apply Hl'].
      intros Hop. by rewrite Hdt2.
    + exists m. split; [done|]. by apply Hi'.
Qed.

(** ** Putting a block back *)

(** The writes of blocks that the page cache cannot hold succeed. *)
Definition writes_ok : Prop := forall s a b, (bio_write s a b).2 = 0.

Definition clean_refs (r : Z) (b : blk) : Prop := bk_refs b = r /\ clean b.

Lemma clean_refs_env r b b' : rtc blk_env b b' -> clean_refs r b -> clean_refs r b'.
Proof.
  induction 1 as [|b x b' He _ IH]; [done|]. intros [Hr Hc]. apply IH.
  split; [by rewrite (refs_env _ _ He)|]. by apply (clean_env _ _ He).
Qed.

(** The block has been written, and a folio may have what was there before. *)
Definition stale (b : blk) (m : Z -> Z) : Prop :=
  bk_refs b = 0 /\ (forall f, bk_folio b = Some f -> fo_dirty f = false) /\ same (bk_media b) m.

Lemma stale_env b b' m : rtc blk_env b b' -> stale b m -> stale b' m.
Proof.
  induction 1 as [|b x b' He _ IH]; [done|]. intros (Hr & Hd & Hm). apply IH.
  destruct He as [media m0 r|media m0 u|media o Ho]; cbn in *; [by specialize (Hd _ eq_refl)|done|].
  split_and!; try done. by intros f [= <-].
Qed.

Lemma buf_write_spec s a x m : writes_ok -> clean_refs 0 (pc_blk s a) -> same x m ->
  frame s a (buf_write s a x) /\ only_media (pc_blk (buf_write s a x) a) m.
Proof.
  intros Hw Hc Hx. unfold buf_write. pose proof (Hw s a x) as He. destruct (bio_write s a x) as [s1 e] eqn:E. cbn in He. subst e.
  destruct (bio_write_ok _ _ _ _ E) as (Hf & b & b' & E1 & -> & E2).
  destruct (clean_refs_env _ _ _ E1 Hc) as [Hr Hcl].
  assert (Hs : stale (pc_blk s1 a) m).
  { eapply stale_env; [exact E2|]. split_and!; [done| |done]. intros f Hf'. by apply (Hcl f). }
  destruct (invalidate_ok s1 a) as (Hf2 & c & c' & E3 & Hc' & E4). split; [by eapply frame_trans|].
  destruct (stale_env _ _ _ E3 Hs) as (Hr3 & Hd3 & Hm3). eapply only_media_env; [exact E4|]. rewrite Hc' by done.
  split_and!; [done|by intros f|done].
Qed.

(** A folio marked dirty and put back. *)
Lemma dirty_put_spec s a (flush : bool) m : in_folio true (pc_blk s a) m ->
  let s1 := folio_mark_dirty_lock s a in
  let s2 := if flush then filemap_fdatawrite_range s1 a else s1 in
  frame s a (folio_put s2 a) /\ idle false (pc_blk (folio_put s2 a) a) m.
Proof.
  intros Hi s1 s2. pose proof Hi as (f & _ & _ & Hr & _).
  destruct (dirty_ok s a) as (Hf & x & y & E1 & Hy & E2); [by rewrite Hr|].
  assert (H1 : in_folio false (pc_blk s1 a) m).
  { eapply in_folio_env; [exact E2|]. destruct (in_folio_env _ _ _ _ E1 Hi) as (g & Eg & Hu & Hr' & Hm & _). rewrite (Hy g Eg).
    exists (mkFolio (fo_mem g) (fo_uptodate g) true). split_and!; try done. by left. }
  assert (H2 : frame s1 a s2 /\ in_folio false (pc_blk s2 a) m).
  { subst s2. destruct flush; [|by split; [intros b|]]. pose proof (fdatawrite_ok s1 a) as He.
    split; [by apply env_frame|]. eapply in_folio_env; [apply He|done]. }
  destruct H2 as [Hf2 H2]. destruct (put_idle s2 a m (in_folio_grabbed _ _ H2)) as [Hf3 H3]. split; [|done].
  eapply frame_trans; [exact Hf|]. by eapply frame_trans.
Qed.

Lemma buf_put_spec s d x m : writes_ok -> in_buf true x (pc_blk s (dio_addr d)) m ->
  frame s (dio_addr d) (hammer2_io_buf_put C s d x) /\
  idle (cf_io_buf_only C) (pc_blk (hammer2_io_buf_put C s d x) (dio_addr d)) m.
Proof.
  intros Hw (Hr & Hc & Hx & _). unfold hammer2_io_buf_put. set (a := dio_addr d) in *.
  destruct (cf_io_buf_only C) eqn:Eo.
  { destruct (buf_write_spec s a x m Hw) as [Hf Ho]; [done|done|]. split; [done|]. by apply only_media_idle. }
  destruct (filemap_get_folio s a) as [s1 [e|[n u]]] eqn:Er.
  - destruct (get_err _ _ _ _ Er) as (_ & Hf & b & b' & E1 & [-> _] & E2).
    destruct (buf_write_spec s1 a x m Hw) as [Hf' Ho]; [|done|split; [by eapply frame_trans|by apply only_media_idle]].
    eapply clean_refs_env; [exact E2|]. by eapply clean_refs_env.
  - destruct (get_ok _ _ _ _ _ Er) as (Hf & b & b' & E1 & (f & Hfo & Hu & ->) & E2).
    assert (H1 : clean_refs 1 (pc_blk s1 a) /\ is_Some (bk_folio (pc_blk s1 a))).
    { destruct (clean_refs_env 0 _ _ E1) as [Hr1 Hc1]; [done|].
      assert (Hc2 : clean_refs 1 (mkBlk (bk_media b) (Some f) (bk_refs b + 1))).
      { split; [cbn; lia|]. intros g [= <-]. destruct Hfo as [Hfo|(_ & -> & ->)]; [by apply Hc1|done]. }
      split; [by eapply clean_refs_env|]. assert (Hg : grabbed (mkBlk (bk_media b) (Some f) (bk_refs b + 1)) (view (mkBlk (bk_media b) (Some f) (bk_refs b + 1)))).
      { split_and!; [apply Hc2|apply clean_saved, Hc2|done|done]. }
      by destruct (grabbed_env _ _ _ E2 Hg) as (_ & _ & _ & ?). }
    destruct H1 as [[Hr1 Hc1] [g Eg]]. destruct (_ && _).
    + assert (Hm : has_mem (pc_blk s1 a) (fo_mem g)) by (split; [done|]; by eexists).
      destruct (write_has_mem s1 a _ x Hm) as [Hf2 Hm2]. destruct (mark_in_folio _ a x Hm2) as [Hf3 Hm3].
      assert (Hi : in_folio true (pc_blk (folio_mark_uptodate (folio_write s1 a x) a) a) m).
      { destruct Hm3 as (g' & ? & ? & ? & ? & _). exists g'. split_and!; try done. by etrans. }
      destruct (dirty_put_spec _ a (has (dio_refs d) HAMMER2_DIO_FLUSH) m Hi) as [Hf4 Hi4]. split; [|done].
      eapply frame_trans; [exact Hf|]. eapply frame_trans; [exact Hf2|]. by eapply frame_trans.
    + destruct (put_ok s1 a) as (Hf2 & y & z & E3 & -> & E4); [by rewrite Hr1|].
      destruct (buf_write_spec (folio_put s1 a) a x m Hw) as [Hf3 Ho]; [|done|].
      { eapply clean_refs_env; [exact E4|]. destruct (clean_refs_env 1 _ _ E3) as [Hr3 Hc3]; [done|]. split; [cbn; lia|exact Hc3]. }
      split; [|by apply only_media_idle]. eapply frame_trans; [exact Hf|]. by eapply frame_trans.
Qed.

(** The last drop, with the block as it was. *)
Lemma put_last_spec h d d0 : writes_ok -> cf_rconn C = false -> dv_device_error h = false -> dio_ok d ->
  dio_addr d0 = dio_addr d -> dio_folio d0 = dio_folio d -> dio_buf d0 = dio_buf d ->
  forall m, blk_inv d false (pc_blk (dv_pc h) (dio_addr d)) m ->
  let s := put_buf C (put_folio h d0 (dio_refs d)) d0 (dio_refs d) in
  frame (dv_pc h) (dio_addr d) s /\ idle (cf_io_buf_only C) (pc_blk s (dio_addr d)) m.
Proof.
  intros Hw Hrc He Hok Ea Ef Eb m. unfold blk_inv, put_folio, put_buf. rewrite Ea, Ef, Eb, He, Hrc.
  change (has (dio_refs d) HAMMER2_DIO_GOOD) with (good d). change (has (dio_refs d) HAMMER2_DIO_DIRTY) with (dirty d).
  destruct (good d) eqn:Eg.
  - rewrite orb_false_r. cbn [negb andb]. intros [(-> & -> & Eo & Hi)|(-> & x & -> & Hi)]; cbn [negb].
    + rewrite Eo. destruct (dirty d) eqn:Ed.
      * by apply dirty_put_spec.
      * by apply put_idle, in_folio_grabbed.
    + rewrite andb_true_r. destruct (dirty d) eqn:Ed.
      * rewrite <- Ea in *. apply buf_put_spec; [done|]. destruct Hi as (? & ? & ? & _). by split_and!.
      * split; [by intros b|]. apply only_media_idle. destruct Hi as (? & ? & Hm & Hs). split_and!; try done.
        etrans; [symmetry; by apply Hs|done].
  - intros Hi. destruct (ok_bad d Hok Eg) as [-> ->]. split; [by intros b|done].
Qed.

Lemma putblk_drop_spec h p d : dio_at h p = Some d -> dio_ok d -> 0 < dio_count d ->
  exists d' s',
    putblk_drop C h p = Some (if dio_count d =? 1 then dv_add_free (setd h p d' s') 1 else setd h p d' s', dio_count d =? 1) /\
    dio_ok d' /\ dio_pbase d' = p /\ dio_addr d' = dio_addr d /\ dio_count d' = dio_count d - 1 /\
    (writes_ok -> cf_rconn C = false -> dv_device_error h = false ->
     forall owed m, (dio_count d = 1 -> owed = false) -> blk_inv d owed (pc_blk (dv_pc h) (dio_addr d)) m ->
       frame (dv_pc h) (dio_addr d) s' /\ blk_inv d' owed (pc_blk s' (dio_addr d)) m).
Proof.
  intros Hd Hok Hc. pose proof (dio_at_pbase h p d Hd) as Hp. assert (Hx : is_Some (dio_at h p)) by (by rewrite Hd).
  unfold putblk_drop. rewrite Hd. cbn [mbind option_bind]. destruct (Z.eqb_spec (dio_count d) 0) as [|_]; [lia|].
  pose proof (dio_count_mod d) as Ec. pose proof (ok_u64 d Hok) as Hu.
  assert (Hst : (-1) = 1 /\ dio_refs d mod 2 ^ 56 < 2 ^ 56 - 1 \/ -1 = -1 /\ 0 < dio_refs d mod 2 ^ 56) by (right; lia).
  pose proof (has_step (dio_refs d) (-1) HAMMER2_DIO_GOOD (or_introl eq_refl) Hst) as Eg.
  pose proof (has_step (dio_refs d) (-1) HAMMER2_DIO_DIRTY (or_intror (or_introl eq_refl)) Hst) as Ed.
  destruct (step_high _ _ Hst) as [_ Em]. pose proof (u64_step _ _ Hu Hst) as Hu'.
  replace (dio_refs d - 1) with (dio_refs d + -1) by lia.
  destruct (Z.eqb_spec (dio_count d) 1) as [E1|E1]; cbn [negb].
  - set (r := (dio_refs d + -1) &~ (HAMMER2_DIO_GOOD ||| HAMMER2_DIO_DIRTY)).
    set (d0 := dio_with_refs d r). set (orefs := if dv_device_error h then _ else _).
    rewrite (with_pc_setd h p d _ Hd), upd_setd by done.
    eexists (dio_with_data d0 false None), _. split; [done|].
    assert (Hg0 : good (dio_with_data d0 false None) = false) by (by apply has_clear).
    assert (Hc0 : dio_count (dio_with_data d0 false None) = 0).
    { rewrite dio_count_mod. change (r mod 2 ^ 56 = 0). unfold r. rewrite count_clear by done. lia. }
    split; [split; rewrite ?Hg0; try done|].
    + apply is_u64_ldiff, Hu'.
    + intros _. split; [done|]. by apply has_clear.
    + split; [done|]. split; [done|]. split; [rewrite Hc0; lia|]. intros Hw Hrc He owed m Ho Hb. subst orefs. rewrite He.
      rewrite (Ho E1) in Hb. destruct (put_last_spec h d d0 Hw Hrc He Hok eq_refl eq_refl eq_refl m Hb) as [Hf Hi].
      split; [done|]. unfold blk_inv. by rewrite Hg0.
  - rewrite (upd_eq_setd h p d _ Hd). replace (dio_refs d - 1) with (dio_refs d + -1) by lia. eexists _, (dv_pc h). split; [done|].
    assert (Hg1 : good (dio_with_refs d (dio_refs d + -1)) = good d) by exact Eg.
    assert (Hc1 : dio_count (dio_with_refs d (dio_refs d + -1)) = dio_count d - 1) by (rewrite !dio_count_mod; cbn [dio_with_refs dio_refs]; lia).
    destruct Hok as [H1 H2 H3 H4]. split; [split; rewrite ?Hg1; [exact Hu'|exact H2|exact H3|rewrite Hc1; lia]|].
    split_and!; try done. intros _ _ _ owed m _ Hb. split; [by intros b|]. unfold blk_inv in *. rewrite Hg1.
    unfold dirty at 1. cbn [dio_with_refs dio_refs]. by rewrite Ed.
Qed.
End Ops.

(** ** The device *)

Definition occ (p : Z) (held : list Z) : Z := Z.of_nat (count_occ Z.eq_dec held p).

Lemma occ_cons p q held : occ p (q :: held) = occ p held + if q =? p then 1 else 0.
Proof. unfold occ. cbn. destruct (Z.eq_dec q p), (Z.eqb_spec q p); lia. Qed.

Lemma occ_pos p held : 0 < occ p held <-> p ∈ held.
Proof. unfold occ. rewrite list_elem_of_In, (count_occ_In Z.eq_dec). lia. Qed.

Lemma occ_perm p l l' : l ≡ₚ l' -> occ p l = occ p l'.
Proof. intros Hl. unfold occ. by rewrite (Permutation_count_occ Z.eq_dec) in Hl; rewrite Hl. Qed.

Lemma occ_le p held : occ p held <= Z.of_nat (length held).
Proof. unfold occ. pose proof (count_occ_bound Z.eq_dec p held). lia. Qed.

Lemma i32_add x y : i32 (i32 x + y) = i32 (x + y).
Proof.
  unfold i32. replace ((x + 2 ^ 31) mod 2 ^ 32 - 2 ^ 31 + y + 2 ^ 31) with ((x + 2 ^ 31) mod 2 ^ 32 + y) by lia.
  rewrite Zplus_mod_idemp_l. f_equal. f_equal. lia.
Qed.

Definition free (d : hammer2_io) : Z := if dio_count d =? 0 then 1 else 0.

(** Where the block at [p] is. *)
Definition addr_of (C : io_config) (p : Z) : option addr :=
  if cf_rconn C then Some (0, p)
  else
    (fun v => (vol_file v, p - vol_offset v)) <$>
    find (fun v => (vol_offset v <=? p) && (p <? vol_offset v + vol_size v)) (cf_volumes C).

Definition aligned (p : Z) : Prop := p <> 0 /\ p mod HAMMER2_PBUFSIZE = 0.

Section Device.
Context {S : Type} (C : io_config).
Implicit Types h : hammer2_dev S.

(** The buckets: a dio is in the one of its offset, and once. *)
Record hash_ok h : Prop := {
  ho_place : forall i d, d ∈ bucket_at h i -> hammer2_io_hashv (dio_pbase d) = i;
  ho_nodup : forall i, NoDup (dio_pbase <$> bucket_at h i)
}.

(** The hash with the references [held]: the dios are well formed and have the
    references that are held and no more, a dio that is held is there, and the
    two counters count. *)
Record io_wf h (held : list Z) : Prop := {
  wf_hash : hash_ok h;
  wf_dio : forall p d, dio_at h p = Some d ->
    dio_ok d /\ dio_count d = occ p held /\ aligned p /\ addr_of C p = Some (dio_addr d);
  wf_held : forall p, p ∈ held -> is_Some (dio_at h p);
  wf_free : dv_iofree_count h = i32 (msum free (dv_iohash h));
  wf_alloc : dv_dio_allocated h = i32 (msum (fun _ => 1) (dv_iohash h))
}.

Lemma io_wf_ext h h' held : dv_iohash h' = dv_iohash h -> dv_iofree_count h' = dv_iofree_count h ->
  dv_dio_allocated h' = dv_dio_allocated h -> io_wf h held -> io_wf h' held.
Proof.
  intros E1 E2 E3 [[H1 H1'] H2 H3 H4 H5]. split; rewrite ?E1, ?E2, ?E3; try done.
  - split; unfold bucket_at; by rewrite E1.
  - unfold dio_at, bucket_at. by rewrite E1.
  - unfold dio_at, bucket_at. by rewrite E1.
Qed.

Lemma list_upd_pbase l p d : dio_pbase d = p -> dio_pbase <$> list_upd_dio l p (fun _ => d) = dio_pbase <$> l.
Proof.
  intros Hd. induction l as [|x l IH]; [done|]. cbn [list_upd_dio]. destruct (Z.eqb_spec (dio_pbase x) p) as [E|E].
  - by rewrite !fmap_cons, E, Hd.
  - by rewrite !fmap_cons, IH.
Qed.

Lemma elem_pbase (l l' : list hammer2_io) d : dio_pbase <$> l = dio_pbase <$> l' -> d ∈ l -> exists d', d' ∈ l' /\ dio_pbase d' = dio_pbase d.
Proof.
  intros E Hd. assert (Hp : dio_pbase d ∈ dio_pbase <$> l') by (rewrite <- E; by apply list_elem_of_fmap_2).
  apply list_elem_of_fmap in Hp as (d' & -> & Hd'). by exists d'.
Qed.

(** The hash of a device with another dio at [p]. *)
Lemma hash_ok_upd h h' p d : hash_ok h -> dio_pbase d = p -> dv_iohash h' = dv_iohash (dio_upd h p (fun _ => d)) -> hash_ok h'.
Proof.
  intros [H1 H2] Hd E.
  assert (Eb : forall i, dio_pbase <$> bucket_at h' i = dio_pbase <$> bucket_at h i).
  { intros i. unfold bucket_at at 1. rewrite E. fold (bucket_at (dio_upd h p (fun _ => d)) i). unfold dio_upd. rewrite bucket_insert.
    destruct (Z.eqb_spec (hammer2_io_hashv p) i) as [<-|]; [by apply list_upd_pbase|done]. }
  split; intros i; [|by rewrite Eb]. intros x Hx. destruct (elem_pbase _ _ x (Eb i) Hx) as (y & Hy & <-). by apply H1.
Qed.

Lemma dio_at_hash h h' p : dv_iohash h' = dv_iohash h -> dio_at h' p = dio_at h p.
Proof. intros E. unfold dio_at, bucket_at. by rewrite E. Qed.

(** A step on one dio. *)
Lemma wf_step h h' held held' p d d' s : io_wf h held -> dio_at h p = Some d ->
  dv_iohash h' = dv_iohash (setd h p d' s) -> dv_dio_allocated h' = dv_dio_allocated h ->
  dv_iofree_count h' = i32 (dv_iofree_count h + (free d' - free d)) ->
  dio_ok d' -> dio_pbase d' = p -> dio_addr d' = dio_addr d -> dio_count d' = occ p held' ->
  (forall q, q <> p -> occ q held' = occ q held) -> io_wf h' held'.
Proof.
  intros [H1 H2 H3 H4 H5] Hd Eh Ea Ef Hok Hp Had Hc Ho.
  assert (Ha : forall q, dio_at h' q = if p =? q then Some d' else dio_at h q).
  { intros q. rewrite (dio_at_hash (setd h p d' s) h' q Eh). by rewrite dio_at_setd. }
  assert (Es : dv_iohash h' = dv_iohash (dio_upd h p (fun _ => d'))) by exact Eh.
  split.
  - by eapply hash_ok_upd.
  - intros q x. rewrite Ha. destruct (Z.eqb_spec p q) as [<-|Hq].
    + intros [= <-]. rewrite Had. by destruct (H2 p d Hd) as (_ & _ & ? & ?).
    + rewrite Ho by done. apply H2.
  - intros q Hq. rewrite Ha. destruct (Z.eqb_spec p q) as [|Hne]; [done|]. apply H3, occ_pos. rewrite <- Ho by done. by apply occ_pos.
  - rewrite Ef, H4, i32_add, Es, (msum_upd free h p _ d Hd). f_equal. lia.
  - rewrite Ea, H5, Es, (msum_upd (fun _ => 1) h p _ d Hd). f_equal. lia.
Qed.

(** A step that leaves the references. *)
Lemma wf_setd h held p d d' s : io_wf h held -> dio_at h p = Some d -> dio_ok d' -> kin d d' -> io_wf (setd h p d' s) held.
Proof.
  intros Hw Hd Hok (Hp & Ha & Hc). destruct (wf_dio _ _ Hw p d Hd) as (_ & Ho & _).
  eapply (wf_step h _ held held p d d' s); try done; [|by rewrite Hp; apply dio_at_pbase in Hd|by rewrite Hc].
  change (dv_iofree_count (setd h p d' s)) with (dv_iofree_count h). unfold free. rewrite Hc, Z.sub_diag, (wf_free _ _ Hw), i32_add.
  f_equal. lia.
Qed.

(** The same flags and the same block. *)
Definition like (d d' : hammer2_io) : Prop :=
  good d' = good d /\ dirty d' = dirty d /\ dio_folio d' = dio_folio d /\ dio_buf d' = dio_buf d /\
  dio_error d' = dio_error d /\ dio_addr d' = dio_addr d /\ dio_pbase d' = dio_pbase d.

Lemma ok_like d d' : like d d' -> dio_ok d -> is_u64 (dio_refs d') -> (dio_count d' = 0 -> dio_count d = 0) -> dio_ok d'.
Proof.
  intros (Eg & Ed & Ef & Eb & Ee & _) [H1 H2 H3 H4] Hu Hc. split; rewrite ?Eg, ?Ed, ?Ef, ?Eb, ?Ee; auto.
Qed.

(** A dio with one more reference, and its activity. *)
Lemma ref_like d act ticks : dio_ok d -> dio_count d < HAMMER2_DIO_MASK ->
  let d' := dio_with_act (dio_with_refs d (u64 (dio_refs d + 1))) act ticks in
  dio_ok d' /\ like d d' /\ dio_count d' = dio_count d + 1.
Proof.
  intros Hok Hc d'. rewrite dio_count_mod in Hc. change HAMMER2_DIO_MASK with (2 ^ 56 - 1) in Hc.
  assert (Hst : 1 = 1 /\ dio_refs d mod 2 ^ 56 < 2 ^ 56 - 1 \/ 1 = -1 /\ 0 < dio_refs d mod 2 ^ 56) by (by left).
  pose proof (u64_step _ _ (ok_u64 d Hok) Hst) as Hu. destruct (step_high _ _ Hst) as [_ Em].
  assert (Er : dio_refs d' = dio_refs d + 1) by (cbn; by apply u64_small).
  assert (Hl : like d d').
  { unfold like, good, dirty. rewrite !Er, !has_step by (done || unfold flag; auto). done. }
  assert (Ec : dio_count d' = dio_count d + 1) by (rewrite !dio_count_mod, Er, Em; done).
  split; [|done]. eapply ok_like; [done|done|by rewrite Er|]. rewrite Ec, dio_count_mod.
  pose proof (Z.mod_pos_bound (dio_refs d) (2 ^ 56)). lia.
Qed.

Lemma find_app l d q : list_find_dio (l ++ [d]) q =
  match list_find_dio l q with Some x => Some x | None => if dio_pbase d =? q then Some d else None end.
Proof. induction l as [|x l IH]; cbn; [done|]. by destruct (dio_pbase x =? q). Qed.

Lemma find_none l q : list_find_dio l q = None <-> q ∉ dio_pbase <$> l.
Proof.
  induction l as [|x l IH]; [split; [intros _ Hq; by apply not_elem_of_nil in Hq|done]|].
  rewrite fmap_cons, not_elem_of_cons, <- IH. cbn.
  destruct (Z.eqb_spec (dio_pbase x) q) as [->|Hn]; [split; [done|by intros [? _]]|]. split; [by split|by intros [_ ?]].
Qed.

Lemma lsum_app g l d : lsum g (l ++ [d]) = lsum g l + g d.
Proof. induction l as [|x l IH]; cbn; [lia|]. fold (lsum g (l ++ [d])). fold (lsum g l). lia. Qed.

(** A dio that is entered. *)
Lemma enter_spec h held d : io_wf h held -> dio_at h (dio_pbase d) = None -> dio_ok d -> dio_count d = 1 ->
  aligned (dio_pbase d) -> addr_of C (dio_pbase d) = Some (dio_addr d) ->
  io_wf (enter_new h d) (dio_pbase d :: held) /\ dio_at (enter_new h d) (dio_pbase d) = Some d /\
  (forall q, q <> dio_pbase d -> dio_at (enter_new h d) q = dio_at h q).
Proof.
  intros [[H1 H1'] H2 H3 H4 H5] Hn Hok Hc Hal Had. unfold enter_new, hammer2_io_hash_enter. rewrite Hn.
  set (i := hammer2_io_hashv (dio_pbase d)). set (h' := dv_with_hash h _).
  assert (Hb : forall j, bucket_at h' j = if i =? j then bucket_at h i ++ [d] else bucket_at h j) by (intros j; apply bucket_insert).
  assert (Ha : forall q, dio_at h' q = if dio_pbase d =? q then Some d else dio_at h q).
  { intros q. unfold dio_at. rewrite Hb. fold (dio_at h q).
    destruct (Z.eqb_spec i (hammer2_io_hashv q)) as [E|E].
    - rewrite E, find_app. fold (dio_at h q). destruct (Z.eqb_spec (dio_pbase d) q) as [<-|]; [by rewrite Hn|by destruct (dio_at h q)].
    - destruct (Z.eqb_spec (dio_pbase d) q) as [<-|]; [done|done]. }
  assert (Ho : occ (dio_pbase d) held = 0).
  { destruct (Z.eq_dec (occ (dio_pbase d) held) 0) as [|Hne]; [done|]. destruct (H3 (dio_pbase d)) as [x Hx]; [|congruence].
    apply occ_pos. unfold occ in *. lia. }
  change (dio_at (dv_add_allocated h' 1)) with (dio_at h').
  split; [|split; [by rewrite Ha, Z.eqb_refl|intros q Hq; rewrite Ha; by destruct (Z.eqb_spec (dio_pbase d) q)]].
  split.
  - split; intros j; change (bucket_at (dv_add_allocated h' 1) j) with (bucket_at h' j); rewrite Hb; destruct (Z.eqb_spec i j) as [<-|]; auto.
    + intros x [Hx| ->%list_elem_of_singleton]%elem_of_app; [by apply H1|done].
    + rewrite fmap_app. apply NoDup_app. split; [done|]. split; [|by apply NoDup_singleton].
      intros q Hq ->%list_elem_of_singleton. by apply find_none in Hn.
  - intros q x. change (dio_at (dv_add_allocated h' 1) q) with (dio_at h' q). rewrite Ha, occ_cons.
    destruct (Z.eqb_spec (dio_pbase d) q) as [<-|]; [intros [= <-]; rewrite Ho; by split_and!|]. rewrite Z.add_0_r. apply H2.
  - intros q [->|Hq]%elem_of_cons; change (dio_at (dv_add_allocated h' 1)) with (dio_at h'); rewrite Ha; [by rewrite Z.eqb_refl|].
    destruct (dio_pbase d =? q); [done|by apply H3].
  - cbn. rewrite msum_insert, lsum_app. fold (bucket_at h i). rewrite H4. f_equal. unfold free at 5. rewrite Hc. cbn. lia.
  - cbn. rewrite msum_insert, lsum_app. fold (bucket_at h i). rewrite H5, i32_add. f_equal. lia.
Qed.

(** The offsets of volumes are multiples of 1GB. *)
Definition volumes_ok : Prop := Forall (fun v => vol_offset v & HAMMER2_FREEMAP_LEVEL1_MASK = 0) (cf_volumes C).

Definition pbase_of (data_off : Z) : Z := (data_off &~ HAMMER2_OFF_MASK_RADIX) &~ HAMMER2_PBUFMASK.

Lemma pbase_mod data_off : pbase_of data_off mod HAMMER2_PBUFSIZE = 0.
Proof. apply (rounddown2_mod (data_off &~ HAMMER2_OFF_MASK_RADIX) 16). lia. Qed.

Lemma pbase_off data_off : 0 <= (data_off &~ HAMMER2_OFF_MASK_RADIX) - pbase_of data_off < HAMMER2_PBUFSIZE.
Proof.
  pose proof (rounddown2_bounds (data_off &~ HAMMER2_OFF_MASK_RADIX) 16) as Hb. unfold pbase_of.
  change (rounddown2 (data_off &~ HAMMER2_OFF_MASK_RADIX) (2 ^ 16)) with ((data_off &~ HAMMER2_OFF_MASK_RADIX) &~ HAMMER2_PBUFMASK) in Hb.
  change HAMMER2_PBUFSIZE with (2 ^ 16). lia.
Qed.

Lemma pbase_radix p : p mod HAMMER2_PBUFSIZE = 0 -> p &~ HAMMER2_OFF_MASK_RADIX = p.
Proof.
  intros Hp. change HAMMER2_OFF_MASK_RADIX with (2 ^ 6 - 1). rewrite ldiff_low by lia.
  change HAMMER2_PBUFSIZE with (2 ^ 6 * 1024) in Hp. rewrite Z.rem_mul_r in Hp by lia.
  pose proof (Z.mod_pos_bound p (2 ^ 6)). pose proof (Z.mod_pos_bound (p / 2 ^ 6) 1024). nia.
Qed.

(** The dio that hammer2_io_alloc() returns, beside that of before. *)
Definition alloc_post h h' (held : list Z) (p : Z) : Prop :=
  io_wf h' (p :: held) /\ dv_pc h' = dv_pc h /\ dv_device_error h' = dv_device_error h /\
  (forall q, q <> p -> dio_at h' q = dio_at h q) /\
  exists d', dio_at h' p = Some d' /\ match dio_at h p with Some d => like d d' | None => good d' = false end.

Lemma touch_spec h held p d : io_wf h held -> dio_at h p = Some d ->
  exists act ticks, touch h p = setd h p (dio_with_act d act ticks) (dv_pc h) /\
    io_wf (touch h p) held /\ like d (dio_with_act d act ticks).
Proof.
  intros Hw Hd. unfold touch. rewrite (upd_eq_setd h p d _ Hd). eexists _, _. split; [done|]. split; [|done].
  destruct (wf_dio _ _ Hw p d Hd) as (Hok & _). apply (wf_setd h held p d); try done. apply (ok_like d); [done|done|apply (ok_u64 d Hok)|done].
Qed.

Lemma alloc_found h held p d : io_wf h held -> Z.of_nat (length held) < HAMMER2_DIO_MASK -> dio_at h p = Some d ->
  alloc_post h (touch (ref_found h d) p) held p.
Proof.
  intros Hw Hl Hd. pose proof (dio_at_pbase h p d Hd) as Hp. destruct (wf_dio _ _ Hw p d Hd) as (Hok & Hc & _).
  set (h1 := if dio_count d =? 0 then dv_add_free h (-1) else h).
  assert (Hd1 : dio_at h1 p = Some d) by (unfold h1; by destruct (dio_count d =? 0)).
  assert (E1 : ref_found h d = setd h1 p (dio_with_refs d (u64 (dio_refs d + 1))) (dv_pc h)).
  { unfold ref_found. fold h1. rewrite Hp, (upd_eq_setd h1 p d _ Hd1). unfold h1. by destruct (dio_count d =? 0). }
  destruct (ref_like d (dio_act d) (dio_ticks d) Hok) as (Hok' & Hlk & Hc'); [pose proof (occ_le p held); lia|].
  replace (dio_with_act (dio_with_refs d (u64 (dio_refs d + 1))) (dio_act d) (dio_ticks d)) with
    (dio_with_refs d (u64 (dio_refs d + 1))) in * by done. set (d1 := dio_with_refs d (u64 (dio_refs d + 1))) in *.
  assert (Hw1 : io_wf (ref_found h d) (p :: held)).
  { eapply (wf_step h _ held (p :: held) p d d1 (dv_pc h)); try done; rewrite ?E1.
    - unfold h1. by destruct (dio_count d =? 0).
    - change (dv_dio_allocated h1 = dv_dio_allocated h). unfold h1. by destruct (dio_count d =? 0).
    - change (dv_iofree_count h1 = i32 (dv_iofree_count h + (free d1 - free d))).
      assert (free d1 = 0) as -> by (unfold free; rewrite Hc'; destruct (Z.eqb_spec (dio_count d + 1) 0); [|done]; unfold occ in *; lia).
      unfold h1, free. destruct (dio_count d =? 0); cbn; [f_equal; lia|].
      rewrite (wf_free _ _ Hw), i32_add. f_equal. lia.
    - rewrite Hc', Hc, occ_cons, Z.eqb_refl. done.
    - intros q Hq. rewrite occ_cons. destruct (Z.eqb_spec p q); [congruence|lia]. }
  assert (Ha : dio_at (ref_found h d) p = Some d1) by (rewrite E1; apply dio_at_setd_eq; by rewrite ?Hd1).
  destruct (touch_spec _ _ p d1 Hw1 Ha) as (act & ticks & Et & Hw2 & Hl2).
  split; [done|]. rewrite Et, E1. unfold h1 at 1 2. split; [by destruct (dio_count d =? 0)|]. split; [by destruct (dio_count d =? 0)|].
  assert (Hs1 : is_Some (dio_at (setd h1 p d1 (dv_pc h)) p)) by (rewrite dio_at_setd_eq; by rewrite ?Hd1).
  split.
  - intros q Hq. rewrite dio_at_setd by done. destruct (Z.eqb_spec p q); [done|]. rewrite dio_at_setd by (by rewrite ?Hd1).
    destruct (Z.eqb_spec p q); [done|]. unfold h1. by destruct (dio_count d =? 0).
  - eexists. split; [by apply dio_at_setd_eq|]. rewrite Hd. by destruct Hlk as (? & ? & ? & ? & ? & ? & ?).
Qed.

Lemma alloc_new h held p dbase file btype : io_wf h held -> dio_at h p = None -> aligned p -> addr_of C p = Some (file, p - dbase) ->
  alloc_post h (touch (enter_new h (new_dio p dbase file btype)) p) held p.
Proof.
  intros Hw Hn Hal Ha. set (d := new_dio p dbase file btype).
  assert (Hok : dio_ok d) by (by split).
  destruct (enter_spec h held d Hw Hn Hok eq_refl Hal Ha) as (Hw1 & Hd1 & Hq). change (dio_pbase d) with p in *.
  destruct (touch_spec _ _ p d Hw1 Hd1) as (act & ticks & Et & Hw2 & Hl2).
  assert (Es : dv_pc (enter_new h d) = dv_pc h /\ dv_device_error (enter_new h d) = dv_device_error h).
  { unfold enter_new, hammer2_io_hash_enter. change (dio_pbase d) with p. by rewrite Hn. }
  split; [done|]. rewrite Et. split; [apply Es|]. split; [apply Es|]. split.
  - intros q Hne. rewrite dio_at_setd by (done || by rewrite Hd1). destruct (Z.eqb_spec p q); [done|]. by apply Hq.
  - eexists. split; [apply dio_at_setd_eq; by rewrite ?Hd1|]. by rewrite Hn.
Qed.

Lemma alloc_spec h held data_off btype create : io_wf h held -> volumes_ok -> Z.of_nat (length held) < HAMMER2_DIO_MASK ->
  exists h' r, hammer2_io_alloc C h data_off btype create = Some (h', r) /\
    match r with
    | None => h' = h \/ h' = dv_hpanic h
    | Some p => p = pbase_of data_off /\ alloc_post h h' held p
    end.
Proof.
  intros Hw Hv Hl. unfold hammer2_io_alloc. fold (pbase_of data_off). set (p := pbase_of data_off).
  destruct (Z.eqb_spec p 0) as [|Hp]; [eexists _, None; eauto|]. destruct (negb _); [eexists _, None; eauto|]. cbn [orb].
  assert (Hal : aligned p) by (split; [done|]; apply pbase_mod).
  unfold hammer2_io_hash_lookup. destruct (dio_at h p) as [d|] eqn:Hd.
  - eexists _, (Some p). split; [done|]. split; [done|]. by apply alloc_found.
  - destruct create; [|eexists _, None; eauto]. cbn [negb]. destruct (cf_rconn C) eqn:Erc.
    + eexists _, (Some p). split; [done|]. split; [done|]. apply alloc_new; try done. unfold addr_of. rewrite Erc. do 2 f_equal. lia.
    + unfold hammer2_get_volume. rewrite pbase_radix by apply Hal. destruct (find _ _) as [v|] eqn:Ev; [|eexists _, None; eauto].
      assert (Hv' : v ∈ cf_volumes C) by (apply list_elem_of_In; by apply find_some in Ev as [? _]).
      pose proof (proj1 (Forall_forall _ _) Hv v Hv') as Hz. cbn in Hz. rewrite Hz. cbn [nz Z.eqb negb].
      eexists _, (Some p). split; [done|]. split; [done|]. apply alloc_new; try done. unfold addr_of. by rewrite Erc, Ev.
Qed.

(** ** Cleaning the hash *)

(** A dio may have aged. *)
Definition aged (d d' : hammer2_io) : Prop := exists act, d' = dio_with_act d act (dio_ticks d).

Lemma aged_refl d : aged d d.
Proof. exists (dio_act d). by destruct d. Qed.

Lemma aged_trans d d' d'' : aged d d' -> aged d' d'' -> aged d d''.
Proof. intros [a ->] [b ->]. by exists b. Qed.

Lemma age_aged h d : aged d (age C h d).
Proof. unfold age. destruct (0 <? dio_act d); [by eexists|apply aged_refl]. Qed.

(** What is left of the dio of an offset: it is there, or it had no references. *)
Definition survives (x y : option hammer2_io) : Prop :=
  match y with
  | Some d' => exists d, x = Some d /\ aged d d'
  | None => forall d, x = Some d -> dio_count d = 0
  end.

Lemma survives_refl x : survives x x.
Proof. destruct x as [d|]; [|done]. exists d. split; [done|apply aged_refl]. Qed.

Lemma survives_trans x y z : survives x y -> survives y z -> survives x z.
Proof.
  unfold survives. destruct z as [d''|].
  - intros Hxy (d' & -> & Ha'). destruct Hxy as (d & -> & Ha). exists d. split; [done|]. by eapply aged_trans.
  - intros Hxy Hyz d ->. destruct y as [d'|]; [|by apply Hxy]. destruct Hxy as (x & [= ->] & act & ->).
    by specialize (Hyz _ eq_refl).
Qed.

Lemma clean_bucket_spec h l : (forall d, d ∈ l -> dio_ok d) ->
  exists l' n, clean_bucket C h l = Some (l', n) /\ lsum (fun _ => 1) l' = lsum (fun _ => 1) l - n /\
    lsum free l' = lsum free l - n /\ (dio_pbase <$> l') `sublist_of` (dio_pbase <$> l) /\
    (NoDup (dio_pbase <$> l) -> forall p, survives (list_find_dio l p) (list_find_dio l' p)).
Proof.
  induction l as [|d l IH]; intros Hok.
  { exists [], 0. by split_and!. }
  destruct IH as (l' & n & E & H1 & H2 & H3 & H4); [intros x Hx; apply Hok; by constructor|].
  assert (Hkeep : forall d', aged d d' -> lsum (fun _ => 1) (d' :: l') = lsum (fun _ => 1) (d :: l) - n /\
    lsum free (d' :: l') = lsum free (d :: l) - n /\ (dio_pbase <$> d' :: l') `sublist_of` (dio_pbase <$> d :: l) /\
    (NoDup (dio_pbase <$> d :: l) -> forall p, survives (list_find_dio (d :: l) p) (list_find_dio (d' :: l') p))).
  { intros d' [act ->]. change (1 + lsum (fun _ => 1) l' = 1 + lsum (fun _ => 1) l - n /\ free d + lsum free l' = free d + lsum free l - n /\
      (dio_pbase d :: (dio_pbase <$> l')) `sublist_of` (dio_pbase d :: (dio_pbase <$> l)) /\
      (NoDup (dio_pbase d :: (dio_pbase <$> l)) -> forall p, survives (if dio_pbase d =? p then Some d else list_find_dio l p)
         (if dio_pbase d =? p then Some (dio_with_act d act (dio_ticks d)) else list_find_dio l' p))).
    split_and!; [lia|lia|by constructor|]. intros [_ Hnd]%NoDup_cons p. destruct (dio_pbase d =? p); [|by apply H4].
    exists d. split; [done|]. by exists act. }
  cbn [clean_bucket]. rewrite E. cbn [mbind option_bind]. destruct (Z.eqb_spec (dio_count d) 0) as [Ec|Ec]; cbn [negb].
  2:{ exists (d :: l'), n. split; [done|]. apply Hkeep, aged_refl. }
  pose proof (age_aged h d) as Ha. destruct (nz_spec (dio_act (age C h d))).
  { exists (age C h d :: l'), n. split; [done|]. by apply Hkeep. }
  destruct Ha as [act Ea]. rewrite Ea. change (dio_folio (dio_with_act d act (dio_ticks d))) with (dio_folio d).
  assert (Hd : dio_ok d) by (apply Hok; constructor). destruct (ok_bad d Hd) as [-> _]; [by apply (ok_free d Hd)|].
  exists l', (n + 1). change (lsum (fun _ => 1) (d :: l)) with (1 + lsum (fun _ => 1) l).
  change (lsum free (d :: l)) with (free d + lsum free l).
  assert (free d = 1) as -> by (unfold free; by rewrite Ec).
  split; [done|]. split; [lia|]. split; [lia|]. split; [rewrite fmap_cons; by constructor|].
  rewrite fmap_cons. intros [Hni Hnd]%NoDup_cons p. cbn [list_find_dio]. destruct (Z.eqb_spec (dio_pbase d) p) as [<-|]; [|by apply H4].
  destruct (list_find_dio l' (dio_pbase d)) as [x|] eqn:Ex; [|by intros y [= <-]]. exfalso. apply Hni.
  eapply sublist_subseteq in H3. apply H3. destruct (decide (dio_pbase d ∈ dio_pbase <$> l')) as [|Hn]; [done|].
  apply find_none in Hn. congruence.
Qed.

Lemma find_elem l p d : list_find_dio l p = Some d -> d ∈ l.
Proof. induction l as [|x l IH]; cbn; [done|]. destruct (_ =? _); [intros [= <-]; constructor|intros Hf; constructor; by apply IH]. Qed.

Lemma elem_find (l : list hammer2_io) d : NoDup (dio_pbase <$> l) -> d ∈ l -> list_find_dio l (dio_pbase d) = Some d.
Proof.
  induction l as [|x l IH]; [by intros _ ?%not_elem_of_nil|]. rewrite fmap_cons. intros [Hni Hnd]%NoDup_cons [->|Hd]%elem_of_cons; cbn.
  - by rewrite Z.eqb_refl.
  - destruct (Z.eqb_spec (dio_pbase x) (dio_pbase d)) as [E|]; [|by apply IH]. destruct Hni. rewrite E. by apply list_elem_of_fmap_2.
Qed.

(** One bucket of the hash replaced. *)
Lemma wf_bucket h h' held i l n : io_wf h held -> dv_iohash h' = <[i := l]> (dv_iohash h) ->
  dv_iofree_count h' = i32 (dv_iofree_count h - n) -> dv_dio_allocated h' = i32 (dv_dio_allocated h - n) ->
  lsum (fun _ => 1) l = lsum (fun _ => 1) (bucket_at h i) - n -> lsum free l = lsum free (bucket_at h i) - n ->
  (dio_pbase <$> l) `sublist_of` (dio_pbase <$> bucket_at h i) ->
  (forall p, survives (list_find_dio (bucket_at h i) p) (list_find_dio l p)) ->
  io_wf h' held /\ forall p, survives (dio_at h p) (dio_at h' p).
Proof.
  intros [[H1 H1'] H2 H3 H4 H5] Eh Ef Ea Hl1 Hl2 Hsub Hsv.
  assert (Hb : forall j, bucket_at h' j = if i =? j then l else bucket_at h j).
  { intros j. unfold bucket_at. rewrite Eh. destruct (Z.eqb_spec i j) as [->|]; [by rewrite lookup_insert_eq|by rewrite lookup_insert_ne]. }
  assert (Hs : forall p, survives (dio_at h p) (dio_at h' p)).
  { intros p. unfold dio_at. rewrite Hb. destruct (Z.eqb_spec i (hammer2_io_hashv p)) as [<-|]; [apply Hsv|apply survives_refl]. }
  split; [|done]. split.
  - split; intros j; rewrite Hb; destruct (Z.eqb_spec i j) as [<-|]; auto.
    + intros d Hd. assert (Hp : dio_pbase d ∈ dio_pbase <$> bucket_at h i).
      { eapply sublist_subseteq in Hsub. apply Hsub. by apply list_elem_of_fmap_2. }
      apply list_elem_of_fmap in Hp as (d' & -> & Hd'). by apply H1.
    + eapply sublist_NoDup; [apply H1'|exact Hsub].
  - intros p d' Hd'. specialize (Hs p). rewrite Hd' in Hs. destruct Hs as (d & Hd & act & ->).
    destruct (H2 p d Hd) as (Hok & Hc & Hal & Had). split_and!; try done.
    apply (ok_like d); [done|done|apply (ok_u64 d Hok)|done].
  - intros p Hp. destruct (H3 p Hp) as [d Hd]. specialize (Hs p). destruct (dio_at h' p) as [d'|]; [done|].
    specialize (Hs d Hd). destruct (H2 p d Hd) as (_ & Hc & _). apply occ_pos in Hp. lia.
  - rewrite Ef, H4, Eh, msum_insert. fold (bucket_at h i). rewrite Hl2. unfold Z.sub at 1. rewrite i32_add. f_equal. lia.
  - rewrite Ea, H5, Eh, msum_insert. fold (bucket_at h i). rewrite Hl1. unfold Z.sub at 1. rewrite i32_add. f_equal. lia.
Qed.

Lemma clean_loop_spec n : forall h held count i, io_wf h held ->
  exists h', clean_loop C n h count i = Some h' /\ io_wf h' held /\ dv_pc h' = dv_pc h /\
    dv_device_error h' = dv_device_error h /\ forall p, survives (dio_at h p) (dio_at h' p).
Proof.
  induction n as [|n IH]; intros h held count i Hw; cbn [clean_loop]; destruct (count <=? 0);
    try (exists h; split_and!; try done; intros p; apply survives_refl).
  set (b := i & HAMMER2_IOHASH_MASK).
  destruct (clean_bucket_spec h (bucket_at h b)) as (l & k & E & H1 & H2 & H3 & H4).
  { intros d Hd. destruct (wf_hash _ _ Hw) as [Hpl Hnd]. apply (wf_dio _ _ Hw (dio_pbase d)). unfold dio_at.
    rewrite (Hpl b d Hd). by apply elem_find. }
  rewrite E. cbn [mbind option_bind]. set (h1 := dv_add_free _ _).
  destruct (wf_bucket h h1 held b l k Hw eq_refl) as [Hw1 Hs1]; try done.
  { apply H4, (wf_hash _ _ Hw). }
  destruct (IH (dv_with_iterator h1 (i32 (dv_io_iterator h1 + 1))) held (count - k) (dv_io_iterator h1)) as (h' & E' & Hw' & Hp' & He' & Hs').
  { by eapply io_wf_ext, Hw1. }
  exists h'. split_and!; try done. intros p. eapply survives_trans; [apply Hs1|apply Hs'].
Qed.

Lemma putblk_clean_spec h held : io_wf h held ->
  exists h', putblk_clean C h = Some h' /\ io_wf h' held /\ dv_pc h' = dv_pc h /\
    dv_device_error h' = dv_device_error h /\ forall p, survives (dio_at h p) (dio_at h' p).
Proof.
  intros Hw. unfold putblk_clean, hammer2_io_hash_cleanup.
  destruct (_ <? dv_iofree_count h); [|exists h; split_and!; try done; intros p; apply survives_refl].
  destruct (_ <=? 0); [exists h; split_and!; try done; intros p; apply survives_refl|].
  destruct (clean_loop_spec (Z.to_nat HAMMER2_IOHASH_SIZE) (dv_with_iterator h (i32 (dv_io_iterator h + 1))) held
    (dv_iofree_count h - (let limit := if cf_dio_limit C <? 256 then 256 else cf_dio_limit C in if 1024 * 1024 <? limit then 1024 * 1024 else limit) + 32)
    (dv_io_iterator h)) as (h' & E & Hw' & Hr); [by eapply io_wf_ext, Hw|]. exists h'. by split.
Qed.
End Device.

(** ** The buffers in use *)

(** The device with the references that are held, and the buffers that bytes were
    stored to without a mark; a holder marks the buffer before it lets go. *)
Record io_sys (S : Type) := mkIoSys {
  is_dev : hammer2_dev S;
  is_held : list Z;
  is_owed : gset Z
}.
Arguments mkIoSys {_} _ _ _.
Arguments is_dev {_} _.
Arguments is_held {_} _.
Arguments is_owed {_} _.

(** What a step does to the bytes that the buffers stand for. *)
Inductive io_label :=
  | LGet (op : io_op) (lbase lsize : Z) (p : Z) (ok : bool)
  | LStore (lbase n : Z) (f : Z -> Z) (p : Z)
  | LQuiet.

Lemma owed_add (X : gset Z) p q : q <> p -> q ∈ X ∪ {[ p ]} <-> q ∈ X.
Proof. intros Hq. rewrite elem_of_union, elem_of_singleton. tauto. Qed.
Lemma owed_sub (X : gset Z) p q : q <> p -> q ∈ X ∖ {[ p ]} <-> q ∈ X.
Proof. intros Hq. rewrite elem_of_difference, elem_of_singleton. tauto. Qed.

Section System.
Context {S : Type} `{PageCacheLaws S} (C : io_config).
Implicit Types (h : hammer2_dev S) (s : S).

(** Fewer references than the word counts. *)
Definition few (held : list Z) : Prop := Z.of_nat (length held) < HAMMER2_DIO_MASK.

(** The threads of the file system and the kernel, in any order.  A thread gets a
    buffer, takes another reference on one it holds, stores to it, marks it, or
    drops it; the cleanup that follows a last drop, a lookup for the
    deduplication and the two halves of a fetch are steps of their own. *)
Inductive io_step : io_sys S -> io_label -> io_sys S -> Prop :=
  | st_get h h' held owed btype lbase lsize op p ok :
      cf_rconn C = false -> few held -> Z.shiftl 1 (lbase & HAMMER2_OFF_MASK_RADIX) = lsize ->
      hammer2_io_getblk C (fun s _ _ => (s, inl EIO)) h btype lbase lsize op = Some (h', Some p) ->
      good <$> dio_at h' p = Some ok ->
      io_step (mkIoSys h held owed) (LGet op lbase lsize p ok) (mkIoSys h' (p :: held) owed)
  | st_get_none h h' held owed btype lbase lsize op :
      cf_rconn C = false -> few held -> Z.shiftl 1 (lbase & HAMMER2_OFF_MASK_RADIX) = lsize ->
      hammer2_io_getblk C (fun s _ _ => (s, inl EIO)) h btype lbase lsize op = Some (h', None) ->
      io_step (mkIoSys h held owed) LQuiet (mkIoSys h' held owed)
  | st_find h h' held owed btype lbase op r :
      cf_rconn C = true -> few held -> conn_find C h btype lbase op = Some (h', r) ->
      io_step (mkIoSys h held owed) LQuiet
        (mkIoSys h' (match r with inl (Some p) | inr (Some p) => p :: held | _ => held end) owed)
  | st_fill h h' held owed btype lbase found fetched r :
      cf_rconn C = true -> few held -> (forall p, found = Some p -> p ∈ held) -> fetched <> inl 0 ->
      conn_fill C h btype lbase found fetched = Some (h', r) ->
      io_step (mkIoSys h held owed) LQuiet
        (mkIoSys h' (match found, r with None, Some p => p :: held | _, _ => held end) owed)
  | st_alloc h h' held owed data_off btype create p valid alloc :
      few held -> hammer2_io_alloc C h data_off btype create = Some (h', Some p) ->
      io_step (mkIoSys h held owed) LQuiet
        (mkIoSys (dio_upd h' p (fun d => dio_with_dedup d (valid (dio_dedup_valid d)) (alloc (dio_dedup_alloc d)))) (p :: held) owed)
  | st_ref h h' held owed p :
      few held -> p ∈ held -> hammer2_io_ref h p = Some h' ->
      io_step (mkIoSys h held owed) LQuiet (mkIoSys h' (p :: held) owed)
  | st_flags h h' held owed p f :
      p ∈ held -> f = HAMMER2_DIO_DIRTY \/ f = HAMMER2_DIO_DIRTY ||| HAMMER2_DIO_FLUSH ->
      hammer2_io_setflags h p f = Some h' ->
      io_step (mkIoSys h held owed) LQuiet (mkIoSys h' held (owed ∖ {[ p ]}))
  | st_store h h' held owed p d lbase n f :
      p ∈ held -> dio_at h p = Some d -> good d = true ->
      0 <= (lbase &~ HAMMER2_OFF_MASK_RADIX) - p < HAMMER2_PBUFSIZE -> io_store h p lbase n f = Some h' ->
      io_step (mkIoSys h held owed) (LStore lbase n f p) (mkIoSys h' held (owed ∪ {[ p ]}))
  | st_put h h' held held' owed p lastdrop :
      held ≡ₚ p :: held' -> (p ∈ owed -> p ∈ held') -> putblk_drop C h p = Some (h', lastdrop) ->
      io_step (mkIoSys h held owed) LQuiet (mkIoSys h' held' owed)
  | st_clean h h' held owed :
      putblk_clean C h = Some h' -> io_step (mkIoSys h held owed) LQuiet (mkIoSys h' held owed)
  | st_kernel h held owed s now :
      pc_env (dv_pc h) s ->
      io_step (mkIoSys h held owed) LQuiet
        (mkIoSys (mkDev (dv_iohash h) (dv_iofree_count h) (dv_io_iterator h) (dv_dio_allocated h) (dv_device_error h) now s)
           held owed).

(** *** Memory *)

(** The bytes of the blocks, by the offset of the block. *)
Definition memory : Type := Z -> Z -> Z.

Inductive flat_step : io_label -> memory -> memory -> Prop :=
  | flat_get op lbase lsize p (ok : bool) (m m' : memory) :
      (if ok then get_effect ((lbase &~ HAMMER2_OFF_MASK_RADIX) - p) lsize op (m p) (m' p) else same (m' p) (m p)) ->
      (forall q, q <> p -> m' q = m q) -> flat_step (LGet op lbase lsize p ok) m m'
  | flat_store lbase n f p (m m' : memory) :
      m' p = put_range (m p) ((lbase &~ HAMMER2_OFF_MASK_RADIX) - p) n f ->
      (forall q, q <> p -> m' q = m q) -> flat_step (LStore lbase n f p) m m'
  | flat_quiet m : flat_step LQuiet m m.

Definition oblk_inv (o : option hammer2_io) (owed : bool) (b : blk) (m : Z -> Z) : Prop :=
  match o with Some d => blk_inv C d owed b m | None => idle (cf_io_buf_only C) b m end.

(** The blocks of the device have the bytes of the memory. *)
Definition mem_inv (x : io_sys S) (m : memory) : Prop := forall p a, aligned p -> addr_of C p = Some a ->
  oblk_inv (dio_at (is_dev x) p) (bool_decide (p ∈ is_owed x)) (pc_blk (dv_pc (is_dev x)) a) (m p).

Definition files_ok : Prop := NoDup (vol_file <$> cf_volumes C).

Lemma addr_inj p q a : files_ok -> addr_of C p = Some a -> addr_of C q = Some a -> p = q.
Proof.
  intros Hf. unfold addr_of. destruct (cf_rconn C); [intros [= <-] [= ->]; done|].
  destruct (find _ (cf_volumes C)) as [v|] eqn:Ev; [|done]. destruct (find (fun v => (_ <=? q) && _) (cf_volumes C)) as [v'|] eqn:Ev'; [|done].
  cbn. intros [= <-] [= Efi Eo]. apply find_some in Ev as [Hv _]. apply find_some in Ev' as [Hv' _].
  apply list_elem_of_In, list_elem_of_lookup in Hv as [i Hi]. apply list_elem_of_In, list_elem_of_lookup in Hv' as [j Hj].
  assert (i = j) as ->.
  { eapply NoDup_lookup; [exact Hf| |]; rewrite list_lookup_fmap; [by rewrite Hi|by rewrite Hj; cbn; rewrite Efi]. }
  rewrite Hi in Hj. injection Hj as ->. lia.
Qed.

Lemma oblk_inv_env o owed b b' m : rtc blk_env b b' -> oblk_inv o owed b m -> oblk_inv o owed b' m.
Proof. destruct o; [apply blk_inv_env|apply idle_env]. Qed.

Lemma same_oblk o owed b m m' : same m m' -> oblk_inv o owed b m -> oblk_inv o owed b m'.
Proof.
  assert (Hi : same m m' -> idle (cf_io_buf_only C) b m -> idle (cf_io_buf_only C) b m').
  { intros E (? & ? & ? & ?). split_and!; try done. by etrans. }
  intros E. destruct o as [d|]; [|by apply Hi]. unfold oblk_inv, blk_inv. destruct (good d); [by apply loaded_same|by apply Hi].
Qed.

Lemma like_blk_inv d d' owed b m : like d d' -> blk_inv C d owed b m -> blk_inv C d' owed b m.
Proof. intros (Eg & Ed & Ef & Eb & _). unfold blk_inv, loaded. by rewrite Eg, Ed, Ef, Eb. Qed.

(** A step on the block at [p]. *)
Lemma mem_step h h' held held' owed owed' p a m mp : files_ok -> mem_inv (mkIoSys h held owed) m ->
  aligned p -> addr_of C p = Some a -> (forall q, q <> p -> dio_at h' q = dio_at h q) ->
  (forall q, q <> p -> q ∈ owed' <-> q ∈ owed) -> frame (dv_pc h) a (dv_pc h') ->
  oblk_inv (dio_at h' p) (bool_decide (p ∈ owed')) (pc_blk (dv_pc h') a) mp ->
  mem_inv (mkIoSys h' held' owed') (fun q => if q =? p then mp else m q).
Proof.
  intros Hf Hm Hal Ha Hq Ho Hfr Hp q b Hqal Hb. cbn. destruct (Z.eqb_spec q p) as [->|Hne].
  - rewrite Ha in Hb. by injection Hb as <-.
  - rewrite (Hq q Hne), (bool_decide_ext (q ∈ owed') (q ∈ owed) (Ho q Hne)).
    eapply oblk_inv_env; [apply Hfr|by apply Hm]. intros ->. by destruct (Hne (addr_inj _ _ _ Hf Hb Ha)).
Qed.

(** A step that changes no bytes. *)
Lemma mem_quiet h h' held held' owed owed' m : mem_inv (mkIoSys h held owed) m -> pc_env (dv_pc h) (dv_pc h') ->
  (forall q b mq, oblk_inv (dio_at h q) (bool_decide (q ∈ owed)) b mq -> oblk_inv (dio_at h' q) (bool_decide (q ∈ owed')) b mq) ->
  mem_inv (mkIoSys h' held' owed') m.
Proof. intros Hm He Hd p a Hal Ha. cbn. apply Hd. eapply oblk_inv_env; [apply He|by apply Hm]. Qed.

(** *** The operations *)

Lemma get_spec fetch h held btype lbase lsize op : cf_rconn C = false -> io_wf C h held -> volumes_ok C -> few held ->
  Z.shiftl 1 (lbase & HAMMER2_OFF_MASK_RADIX) = lsize ->
  exists h' r, hammer2_io_getblk C fetch h btype lbase lsize op = Some (h', r) /\
    match r with
    | None => h' = h \/ h' = dv_hpanic h
    | Some p =>
        io_wf C h' (p :: held) /\ dv_device_error h' = dv_device_error h /\ (forall q, q <> p -> dio_at h' q = dio_at h q) /\
        exists d' a, dio_at h' p = Some d' /\ aligned p /\ addr_of C p = Some a /\
          forall owed m, oblk_inv (dio_at h p) owed (pc_blk (dv_pc h) a) m ->
            frame (dv_pc h) a (dv_pc h') /\
            exists m', (if good d' then get_effect ((lbase &~ HAMMER2_OFF_MASK_RADIX) - p) lsize op m m' else same m' m) /\
              blk_inv C d' owed (pc_blk (dv_pc h') a) m'
    end.
Proof.
  intros Hrc Hw Hv Hl Hs. unfold hammer2_io_getblk. rewrite Hs, Z.eqb_refl, Hrc. cbn [negb].
  set (quick := match op with HAMMER2_DOP_READQ => true | _ => false end).
  destruct (alloc_spec C h held lbase btype (negb quick) Hw Hv Hl) as (h1 & r & E & Hr). rewrite E. cbn [mbind option_bind].
  destruct r as [p|]; [|exists h1, None; by split]. destruct Hr as (-> & Hw1 & Hp1 & He1 & Hq1 & d1 & Hd1 & Hold).
  set (p := pbase_of lbase) in *. destruct (wf_dio _ _ _ Hw1 p d1 Hd1) as (Hok & Hc & Hal & Ha).
  assert (Hpos : 0 < dio_count d1) by (rewrite Hc; apply occ_pos; constructor).
  destruct (getblk_fill_spec C h1 p d1 (dv_pc h1) lbase lsize (if quick then HAMMER2_DOP_READ else op)) as (d' & s' & Ef & Hok' & Hk & Hm);
    [by rewrite Hd1|by apply dio_at_pbase in Hd1|done|done|apply pbase_off|].
  rewrite (setd_id h1 p d1 Hd1) in Ef. rewrite Ef. cbn [mbind option_bind].
  exists (setd h1 p d' s'), (Some p). split; [done|]. split; [by eapply wf_setd|]. split; [done|].
  assert (Hpb : dio_pbase d' = p) by (rewrite (proj1 Hk); by apply dio_at_pbase in Hd1). split.
  { intros q Hne. rewrite dio_at_setd by (done || by rewrite Hd1). destruct (Z.eqb_spec p q); [done|by apply Hq1]. }
  exists d', (dio_addr d1). split; [apply dio_at_setd_eq; by rewrite ?Hd1|]. split; [done|]. split; [done|].
  rewrite dv_pc_setd, <- Hp1. intros owed m Hb. destruct (Hm owed m) as (Hfr & m' & He & Hb').
  { destruct (dio_at h p) as [d|]; [by eapply like_blk_inv|]. unfold blk_inv. by rewrite Hold. }
  split; [done|]. exists m'. split; [|done]. destruct (good d'); [|done]. unfold quick in He. by destruct op.
Qed.

(** A reference that is held is on a dio. *)
Lemma held_dio h held p : io_wf C h held -> p ∈ held -> exists d a, dio_at h p = Some d /\ dio_ok d /\ 0 < dio_count d /\
  dio_pbase d = p /\ dio_count d = occ p held /\ aligned p /\ addr_of C p = Some a /\ a = dio_addr d.
Proof.
  intros Hw Hp. destruct (wf_held _ _ _ Hw p Hp) as [d Hd]. destruct (wf_dio _ _ _ Hw p d Hd) as (Hok & Hc & Hal & Ha).
  exists d, (dio_addr d). split_and!; try done; [rewrite Hc; by apply occ_pos|by apply dio_at_pbase in Hd].
Qed.

Lemma setd_other h p d s q : is_Some (dio_at h p) -> dio_pbase d = p -> q <> p -> dio_at (setd h p d s) q = dio_at h q.
Proof. intros Hx Hp Hq. rewrite dio_at_setd by done. by destruct (Z.eqb_spec p q). Qed.

(** A step is good when the state stays well formed and, without an error of the
    device, its bytes are those of the flat memory. *)
Definition step_good (x : io_sys S) (l : io_label) (y : io_sys S) : Prop :=
  io_wf C (is_dev y) (is_held y) /\
  (dv_device_error (is_dev y) = false -> dv_device_error (is_dev x) = false /\
   (cf_rconn C = false -> files_ok -> writes_ok (S := S) -> forall m, mem_inv x m -> exists m', flat_step l m m' /\ mem_inv y m')).

(** A step on the dio [d] at [p] that leaves the references. *)
Lemma quiet_setd h held owed owed' p d d' s : io_wf C h held -> dio_at h p = Some d -> dio_ok d' -> kin d d' ->
  (forall q, q <> p -> q ∈ owed' <-> q ∈ owed) ->
  (forall m, blk_inv C d (bool_decide (p ∈ owed)) (pc_blk (dv_pc h) (dio_addr d)) m ->
    frame (dv_pc h) (dio_addr d) s /\ blk_inv C d' (bool_decide (p ∈ owed')) (pc_blk s (dio_addr d)) m) ->
  step_good (mkIoSys h held owed) LQuiet (mkIoSys (setd h p d' s) held owed').
Proof.
  intros Hw Hd Hok Hk Ho Hb. split; [by eapply wf_setd|]. intros He. split; [done|]. intros Hrc Hf Hwr m Hm. exists m.
  split; [constructor|]. destruct (wf_dio _ _ _ Hw p d Hd) as (_ & _ & Hal & Ha).
  assert (Hpb : dio_pbase d' = p) by (rewrite (proj1 Hk); by apply dio_at_pbase in Hd).
  specialize (Hm p _ Hal Ha) as Hp. cbn in Hp. rewrite Hd in Hp. destruct (Hb _ Hp) as [Hfr Hb'].
  assert (Hx : is_Some (dio_at h p)) by (by rewrite Hd).
  intros q b Hqal Hqa. cbn. rewrite dv_pc_setd, dio_at_setd by done. destruct (Z.eqb_spec p q) as [<-|Hne].
  - rewrite Ha in Hqa. by injection Hqa as <-.
  - rewrite (bool_decide_ext (q ∈ owed') (q ∈ owed)) by (by apply Ho).
    eapply oblk_inv_env; [apply Hfr|by apply (Hm q b)]. intros ->. by destruct (Hne (addr_inj _ _ _ Hf Ha Hqa)).
Qed.

Lemma step_get h h' held owed btype lbase lsize op p ok : cf_rconn C = false -> io_wf C h held -> volumes_ok C -> few held ->
  Z.shiftl 1 (lbase & HAMMER2_OFF_MASK_RADIX) = lsize ->
  hammer2_io_getblk C (fun s _ _ => (s, inl EIO)) h btype lbase lsize op = Some (h', Some p) ->
  good <$> dio_at h' p = Some ok ->
  step_good (mkIoSys h held owed) (LGet op lbase lsize p ok) (mkIoSys h' (p :: held) owed).
Proof.
  intros Hrc Hw Hv Hl Hs E Hg.
  destruct (get_spec (fun s _ _ => (s, inl EIO)) h held btype lbase lsize op Hrc Hw Hv Hl Hs) as (h1 & r & E1 & Hr).
  rewrite E in E1. injection E1 as <- <-. destruct Hr as (Hw' & He' & Hq & d' & a & Hd' & Hal & Ha & Hb).
  rewrite Hd' in Hg. injection Hg as <-. split; [done|]. cbn. intros He. split; [congruence|]. intros _ Hf _ m Hm.
  destruct (Hb _ _ (Hm p a Hal Ha)) as (Hfr & m' & Heff & Hb'). exists (fun q => if q =? p then m' else m q). split.
  - constructor; [by rewrite Z.eqb_refl|]. intros q Hne. by destruct (Z.eqb_spec q p).
  - eapply mem_step; try done. by rewrite Hd'.
Qed.

Lemma step_store h h' held owed p d lbase n f : io_wf C h held -> p ∈ held -> dio_at h p = Some d -> good d = true ->
  0 <= (lbase &~ HAMMER2_OFF_MASK_RADIX) - p < HAMMER2_PBUFSIZE -> io_store h p lbase n f = Some h' ->
  step_good (mkIoSys h held owed) (LStore lbase n f p) (mkIoSys h' held (owed ∪ {[ p ]})).
Proof.
  intros Hw Hp Hd Hg Ho E. destruct (held_dio h held p Hw Hp) as (d0 & a & Hd0 & Hok & Hc & Hpb & _ & Hal & Ha & ->).
  rewrite Hd in Hd0. injection Hd0 as <-. assert (Hx : is_Some (dio_at h p)) by (by rewrite Hd).
  destruct (io_store_spec C h p d (dv_pc h) lbase n f Hx Hpb) as (d' & s' & E' & Hst & Hb); [by rewrite ok_block|done|].
  rewrite (setd_id h p d Hd), E in E'. injection E' as ->. destruct (stored_ok d d' Hst Hok) as (Hok' & Hk & Hr).
  split; [by eapply wf_setd|]. intros He. split; [done|]. intros _ Hf _ m Hm. specialize (Hm p _ Hal Ha) as Hmp. cbn in Hmp.
  rewrite Hd in Hmp. unfold oblk_inv, blk_inv in Hmp. rewrite Hg in Hmp. destruct (Hb _ _ Hmp) as [Hfr Hl].
  exists (fun q => if q =? p then put_range (m p) ((lbase &~ HAMMER2_OFF_MASK_RADIX) - p) n f else m q). split.
  - constructor; [by rewrite Z.eqb_refl|]. intros q Hne. by destruct (Z.eqb_spec q p).
  - eapply mem_step; try done; [intros q Hne; apply setd_other; try done; by rewrite (proj1 Hk)|apply owed_add|].
    rewrite dio_at_setd_eq by (done || by rewrite (proj1 Hk)). rewrite bool_decide_true by (apply elem_of_union; right; by apply elem_of_singleton).
    unfold oblk_inv, blk_inv. unfold good. rewrite Hr. fold (good d). by rewrite Hg, orb_true_r.
Qed.

Lemma step_flags h h' held owed p f : io_wf C h held -> p ∈ held ->
  f = HAMMER2_DIO_DIRTY \/ f = HAMMER2_DIO_DIRTY ||| HAMMER2_DIO_FLUSH -> hammer2_io_setflags h p f = Some h' ->
  step_good (mkIoSys h held owed) LQuiet (mkIoSys h' held (owed ∖ {[ p ]})).
Proof.
  intros Hw Hp Hf E. destruct (held_dio h held p Hw Hp) as (d & a & Hd & Hok & Hc & Hpb & _).
  unfold hammer2_io_setflags, set_refs in E. rewrite Hd in E. cbn [mbind option_bind] in E.
  rewrite (upd_eq_setd h p d _ Hd) in E. injection E as <-. destruct (ok_dirty d f Hok Hc Hf) as (Hok' & Hg' & Hd').
  eapply quiet_setd; try done; [apply kin_flags; by destruct Hf as [->| ->]|apply owed_sub|]. intros m Hb. split; [by intros b|].
  unfold blk_inv in *. rewrite Hg', Hd'. destruct (good d); [|done]. eapply loaded_dirty, Hb.
Qed.

Lemma step_ref h h' held owed p : io_wf C h held -> few held -> p ∈ held -> hammer2_io_ref h p = Some h' ->
  step_good (mkIoSys h held owed) LQuiet (mkIoSys h' (p :: held) owed).
Proof.
  intros Hw Hl Hp E. destruct (held_dio h held p Hw Hp) as (d & a & Hd & Hok & Hc & Hpb & Ho & _).
  unfold hammer2_io_ref in E. rewrite Hd in E. cbn [mbind option_bind] in E.
  rewrite (upd_eq_setd h p d _ Hd) in E. injection E as <-.
  destruct (ref_like d (dio_act d) (dio_ticks d) Hok) as (Hok' & Hlk & Hc'); [pose proof (occ_le p held); unfold few in *; lia|].
  replace (dio_with_act (dio_with_refs d (u64 (dio_refs d + 1))) (dio_act d) (dio_ticks d)) with
    (dio_with_refs d (u64 (dio_refs d + 1))) in * by done. set (d1 := dio_with_refs d (u64 (dio_refs d + 1))) in *. split.
  - eapply (wf_step C h _ held (p :: held) p d d1 (dv_pc h)); try done.
    + change (dv_iofree_count h = i32 (dv_iofree_count h + (free d1 - free d))). unfold free. rewrite Hc'.
      destruct (Z.eqb_spec (dio_count d + 1) 0), (Z.eqb_spec (dio_count d) 0); try lia. rewrite (wf_free _ _ _ Hw), i32_add. f_equal. lia.
    + rewrite Hc', Ho, occ_cons, Z.eqb_refl. done.
    + intros q Hq. rewrite occ_cons. destruct (Z.eqb_spec p q); [congruence|lia].
  - intros He. split; [done|]. intros _ _ _ m Hm. exists m. split; [constructor|].
    eapply mem_quiet; [exact Hm|by intros b|]. intros q b mq. rewrite dio_at_setd by (done || by rewrite Hd).
    destruct (Z.eqb_spec p q) as [<-|]; [|done]. rewrite Hd. by apply like_blk_inv.
Qed.

(** A dio that is found or made. *)
Lemma alloc_good h h' held owed p : io_wf C h held -> alloc_post C h h' held p ->
  step_good (mkIoSys h held owed) LQuiet (mkIoSys h' (p :: held) owed).
Proof.
  intros Hw (Hw' & Ep & Ee & Hq & d' & Hd' & Hold). split; [done|]. cbn. intros He. split; [congruence|].
  intros _ _ _ m Hm. exists m. split; [constructor|]. eapply mem_quiet; [exact Hm|by intros b; rewrite Ep|].
  intros q b mq. destruct (Z.eq_dec q p) as [->|Hne]; [|by rewrite Hq]. rewrite Hd'. destruct (dio_at h p) as [d|].
  - by apply like_blk_inv.
  - unfold oblk_inv, blk_inv. by rewrite Hold.
Qed.

Lemma good_trans x y z : step_good x LQuiet y -> step_good y LQuiet z -> step_good x LQuiet z.
Proof.
  intros [_ H1] [Hw H2]. split; [done|]. intros He. destruct (H2 He) as [He' H2']. destruct (H1 He') as [He'' H1']. split; [done|].
  intros Hrc Hf Hwr m Hm. destruct (H1' Hrc Hf Hwr m Hm) as (m1 & F1 & Hm1). destruct (H2' Hrc Hf Hwr m1 Hm1) as (m2 & F2 & Hm2).
  exists m2. inversion F1. inversion F2. subst. split; [constructor|done].
Qed.

Lemma hpanic_good h h' held owed : io_wf C h held -> h' = h \/ h' = dv_hpanic h ->
  step_good (mkIoSys h held owed) LQuiet (mkIoSys h' held owed).
Proof.
  intros Hw [->| ->]; (split; [by eapply io_wf_ext, Hw|]); cbn; [|done]. intros He. split; [done|]. intros _ _ _ m Hm. exists m.
  by split; [constructor|].
Qed.

Lemma step_alloc h h' held owed data_off btype create p valid alloc : io_wf C h held -> volumes_ok C -> few held ->
  hammer2_io_alloc C h data_off btype create = Some (h', Some p) ->
  step_good (mkIoSys h held owed) LQuiet
    (mkIoSys (dio_upd h' p (fun d => dio_with_dedup d (valid (dio_dedup_valid d)) (alloc (dio_dedup_alloc d)))) (p :: held) owed).
Proof.
  intros Hw Hv Hl E. destruct (alloc_spec C h held data_off btype create Hw Hv Hl) as (h1 & r & E1 & Hr).
  rewrite E in E1. injection E1 as <- <-. destruct Hr as [_ Hr]. pose proof Hr as (Hw' & _ & _ & _ & d & Hd & _).
  eapply good_trans; [by eapply alloc_good|]. rewrite (upd_eq_setd h' p d _ Hd).
  destruct (wf_dio _ _ _ Hw' p d Hd) as (Hok & _). eapply quiet_setd; try done.
  - by destruct Hok.
  - intros m Hb. split; [by intros b|done].
Qed.

Lemma step_find h h' held owed btype lbase op r : cf_rconn C = true -> io_wf C h held -> volumes_ok C -> few held ->
  conn_find C h btype lbase op = Some (h', r) ->
  step_good (mkIoSys h held owed) LQuiet
    (mkIoSys h' (match r with inl (Some p) | inr (Some p) => p :: held | _ => held end) owed).
Proof.
  intros Hrc Hw Hv Hl. unfold conn_find.
  destruct (alloc_spec C h held lbase btype false Hw Hv Hl) as (h1 & r1 & E1 & Hr). rewrite E1. cbn [mbind option_bind].
  assert (Hsame : step_good (mkIoSys h held owed) LQuiet (mkIoSys h held owed)) by (apply hpanic_good; auto).
  destruct r1 as [p|].
  - destruct Hr as [_ Hr]. pose proof Hr as (Hw' & _ & _ & _ & d & Hd & _). rewrite Hd. cbn [mbind option_bind].
    destruct op, (has (dio_refs d) HAMMER2_DIO_GOOD); intros [= <- <-]; try done; by eapply alloc_good.
  - destruct op; intros [= <- <-]; try done; by apply hpanic_good.
Qed.

Lemma step_fill h h' held owed btype lbase found fetched r : cf_rconn C = true -> io_wf C h held -> volumes_ok C -> few held ->
  (forall p, found = Some p -> p ∈ held) -> fetched <> inl 0 -> conn_fill C h btype lbase found fetched = Some (h', r) ->
  step_good (mkIoSys h held owed) LQuiet
    (mkIoSys h' (match found, r with None, Some p => p :: held | _, _ => held end) owed).
Proof.
  intros Hrc Hw Hv Hl Hfd Hfe. unfold conn_fill.
  assert (Hfill : forall h1 held1 p h2 r2, io_wf C h1 held1 -> p ∈ held1 ->
    (d ← dio_at h1 p; if has (dio_refs d) HAMMER2_DIO_GOOD then Some (h1, Some p) else
       match fetched with
       | inr b => if dio_block d then Some (dio_upd h1 p (fun d => dio_with_error d EIO), Some p) else
           Some (set_refs (dio_upd h1 p (fun d => dio_with_error (dio_with_data d (dio_folio d) (Some b)) 0)) p HAMMER2_DIO_GOOD, Some p)
       | inl error => Some (dio_upd h1 p (fun d => dio_with_error d error), Some p)
       end) = Some (h2, r2) -> step_good (mkIoSys h1 held1 owed) LQuiet (mkIoSys h2 held1 owed) /\ r2 = Some p).
  { intros h1 held1 p h2 r2 Hw1 Hp. destruct (held_dio h1 held1 p Hw1 Hp) as (d & a & Hd & Hok & Hc & Hpb & _).
    rewrite Hd. cbn [mbind option_bind]. change (has (dio_refs d) HAMMER2_DIO_GOOD) with (good d). rewrite (ok_block d Hok).
    destruct (good d) eqn:Eg; [intros [= <- <-]; split; [apply hpanic_good; auto|done]|].
    destruct (ok_bad d Hok Eg) as [Hf Hb].
    assert (Hst : forall e d', fresh HAMMER2_DOP_READ d d' e ->
      step_good (mkIoSys h1 held1 owed) LQuiet (mkIoSys (setd h1 p (if e =? 0 then dio_with_refs (dio_with_error d' e) (dio_refs (dio_with_error d' e)
        ||| HAMMER2_DIO_GOOD) else dio_with_error d' e) (dv_pc h1)) held1 owed)).
    { intros e d' Hfr. destruct (fresh_finish d d' e _ Hok Hc Eg Hfr) as (Hok' & Hk & _). split; [by eapply wf_setd|].
      intros He. split; [done|]. congruence. }
    destruct fetched as [e|b].
    - rewrite (upd_eq_setd h1 p d _ Hd). intros [= <- <-]. split; [|done]. specialize (Hst e d).
      destruct (Z.eqb_spec e 0) as [->|He]; [done|]. apply Hst. by left.
    - unfold set_refs. rewrite (upd_eq_setd h1 p d _ Hd), upd_setd by (done || by rewrite Hd). intros [= <- <-]. split; [|done].
      apply (Hst 0 (dio_with_data d (dio_folio d) (Some b))). right. rewrite Hf. split_and!; try done. right. by split. }
  destruct found as [p|]; cbn [mbind option_bind].
  - intros E. by apply (Hfill h held p h' r Hw (Hfd p eq_refl)).
  - destruct (alloc_spec C h held lbase btype true Hw Hv Hl) as (h1 & r1 & E1 & Hr). rewrite E1. cbn [mbind option_bind].
    destruct r1 as [p|]; [|intros [= <- <-]; by apply hpanic_good]. destruct Hr as [_ Hr]. intros E.
    destruct (Hfill h1 (p :: held) p h' r) as [Hs ->]; [apply Hr|by constructor|done|]. by eapply good_trans; [eapply alloc_good|].
Qed.

Lemma step_put h h' held held' owed p lastdrop : io_wf C h held -> held ≡ₚ p :: held' -> (p ∈ owed -> p ∈ held') ->
  putblk_drop C h p = Some (h', lastdrop) -> step_good (mkIoSys h held owed) LQuiet (mkIoSys h' held' owed).
Proof.
  intros Hw Hpm Hpo E. assert (Hp : p ∈ held) by (rewrite Hpm; by constructor).
  destruct (held_dio h held p Hw Hp) as (d & a & Hd & Hok & Hc & Hpb & Ho & Hal & Ha & ->).
  destruct (putblk_drop_spec C h p d Hd Hok Hc) as (d' & s' & E' & Hok' & Hpb' & Ha' & Hc' & Hb). rewrite E in E'. injection E' as -> ->.
  assert (Hocc : forall q, occ q held = occ q held' + if p =? q then 1 else 0).
  { intros q. rewrite (occ_perm q _ _ Hpm). apply occ_cons. }
  assert (Hx : is_Some (dio_at h p)) by (by rewrite Hd).
  assert (Eh : forall b : bool, dv_iohash (if b then dv_add_free (setd h p d' s') 1 else setd h p d' s') = dv_iohash (setd h p d' s'))
    by (by intros []).
  assert (Epc : forall b : bool, dv_pc (if b then dv_add_free (setd h p d' s') 1 else setd h p d' s') = s') by (by intros []).
  split; cbn [is_dev is_held].
  - eapply (wf_step C h _ held held' p d d' s'); try done; [by destruct (dio_count d =? 1)| | |].
    + unfold free. rewrite Hc'. destruct (Z.eqb_spec (dio_count d) 1) as [E1|E1].
      * rewrite E1. cbn. done.
      * destruct (Z.eqb_spec (dio_count d - 1) 0), (Z.eqb_spec (dio_count d) 0); try lia.
        change (dv_iofree_count h = i32 (dv_iofree_count h + (0 - 0))). rewrite (wf_free _ _ _ Hw), i32_add. f_equal. lia.
    + rewrite Hc', Ho, Hocc, Z.eqb_refl. lia.
    + intros q Hq. rewrite (Hocc q). destruct (Z.eqb_spec p q); [congruence|lia].
  - intros He. assert (He' : dv_device_error h = false) by (by destruct (dio_count d =? 1)). split; [done|].
    intros Hrc Hf Hwr m Hm. exists m. split; [constructor|]. specialize (Hm p _ Hal Ha) as Hmp. cbn in Hmp. rewrite Hd in Hmp.
    assert (Hno : dio_count d = 1 -> bool_decide (p ∈ owed) = false).
    { intros E1. apply bool_decide_eq_false. intros Hin. pose proof (proj2 (occ_pos p held') (Hpo Hin)) as Hpos.
      specialize (Hocc p). rewrite Z.eqb_refl in Hocc. lia. }
    destruct (Hb Hwr Hrc He' _ _ Hno Hmp) as [Hfr Hb'].
    intros q b Hqal Hqa. cbn. rewrite (dio_at_hash _ _ q (Eh _)), Epc, dio_at_setd by done. destruct (Z.eqb_spec p q) as [<-|Hne].
    + rewrite Ha in Hqa. by injection Hqa as <-.
    + eapply oblk_inv_env; [apply Hfr|by apply (Hm q b)]. intros ->. by destruct (Hne (addr_inj _ _ _ Hf Ha Hqa)).
Qed.

Lemma step_clean h h' held owed : io_wf C h held -> putblk_clean C h = Some h' ->
  step_good (mkIoSys h held owed) LQuiet (mkIoSys h' held owed).
Proof.
  intros Hw E. destruct (putblk_clean_spec C h held Hw) as (h1 & E1 & Hw1 & Ep & Ee & Hs). rewrite E in E1. injection E1 as <-.
  split; [done|]. cbn. intros He. split; [congruence|]. intros _ _ _ m Hm. exists m. split; [constructor|].
  eapply mem_quiet; [exact Hm|by intros b; rewrite Ep|]. intros q b mq. specialize (Hs q).
  destruct (dio_at h' q) as [d'|].
  - destruct Hs as (d & -> & act & ->). by apply like_blk_inv.
  - destruct (dio_at h q) as [d|] eqn:Hd; [|done]. destruct (wf_dio _ _ _ Hw q d Hd) as (Hok & _).
    destruct (ok_free d Hok (Hs d eq_refl)) as [Hg _]. unfold oblk_inv, blk_inv. by rewrite Hg.
Qed.

Lemma step_kernel h held owed s now : io_wf C h held -> pc_env (dv_pc h) s ->
  step_good (mkIoSys h held owed) LQuiet
    (mkIoSys (mkDev (dv_iohash h) (dv_iofree_count h) (dv_io_iterator h) (dv_dio_allocated h) (dv_device_error h) now s) held owed).
Proof.
  intros Hw He. split; [by eapply io_wf_ext, Hw|]. cbn. intros Hd. split; [done|]. intros _ _ _ m Hm. exists m.
  split; [constructor|]. by eapply mem_quiet.
Qed.

Lemma step_ok x l y : io_wf C (is_dev x) (is_held x) -> volumes_ok C -> io_step x l y -> step_good x l y.
Proof.
  intros Hw Hv Hst. destruct Hst; cbn in Hw.
  - by eapply step_get.
  - destruct (get_spec (fun s _ _ => (s, inl EIO)) h held btype lbase lsize op) as (h1 & r & E & Hr); try done.
    rewrite H4 in E. injection E as <- <-. by apply hpanic_good.
  - by eapply step_find.
  - by eapply step_fill.
  - by eapply step_alloc.
  - by eapply step_ref.
  - by eapply step_flags.
  - by eapply step_store.
  - by eapply step_put.
  - by eapply step_clean.
  - by eapply step_kernel.
Qed.

(** *** Runs *)

Inductive io_run : io_sys S -> list io_label -> io_sys S -> Prop :=
  | run_nil x : io_run x [] x
  | run_cons x l y ls z : io_step x l y -> io_run y ls z -> io_run x (l :: ls) z.

Inductive flat_run : list io_label -> memory -> memory -> Prop :=
  | flat_nil m : flat_run [] m m
  | flat_cons l m m' ls m'' : flat_step l m m' -> flat_run ls m' m'' -> flat_run (l :: ls) m m''.

Lemma run_ok x ls y : volumes_ok C -> io_run x ls y -> io_wf C (is_dev x) (is_held x) ->
  io_wf C (is_dev y) (is_held y) /\
  (dv_device_error (is_dev y) = false -> dv_device_error (is_dev x) = false /\
   (cf_rconn C = false -> files_ok -> writes_ok (S := S) -> forall m, mem_inv x m -> exists m', flat_run ls m m' /\ mem_inv y m')).
Proof.
  intros Hv. induction 1 as [x|x l y ls z Hst _ IH]; intros Hw.
  - split; [done|]. intros He. split; [done|]. intros _ _ _ m Hm. exists m. by split; [constructor|].
  - destruct (step_ok x l y Hw Hv Hst) as [Hw1 H1]. destruct (IH Hw1) as [Hw2 H2]. split; [done|]. intros He.
    destruct (H2 He) as [He1 H2']. destruct (H1 He1) as [He0 H1']. split; [done|]. intros Hrc Hf Hwr m Hm.
    destruct (H1' Hrc Hf Hwr m Hm) as (m1 & F1 & Hm1). destruct (H2' Hrc Hf Hwr m1 Hm1) as (m2 & F2 & Hm2).
    exists m2. split; [by econstructor|done].
Qed.

(** A device that has just been opened. *)
Definition io_init h : Prop := dv_iohash h = ∅ /\ dv_iofree_count h = 0 /\ dv_dio_allocated h = 0.

Lemma init_wf h : io_init h -> io_wf C h [].
Proof.
  intros (E & Ef & Ea). assert (Hd : forall p, dio_at h p = None) by (intros p; unfold dio_at, bucket_at; by rewrite E).
  assert (Hb : forall i, bucket_at h i = []) by (intros i; unfold bucket_at; by rewrite E).
  split; [split; intros i; rewrite Hb; [by intros d ?%not_elem_of_nil|constructor]| | | |].
  - intros p d. by rewrite Hd.
  - by intros p ?%not_elem_of_nil.
  - by rewrite E.
  - by rewrite E.
Qed.

(** *** No assertion fails *)

Lemma fill_some h held btype lbase found fd s : io_wf C h held -> volumes_ok C -> few held ->
  (forall p, found = Some p -> is_Some (dio_at h p)) -> is_Some (conn_fill C (dv_with_pc h s) btype lbase found fd).
Proof.
  intros Hw Hv Hl Hp. unfold conn_fill.
  assert (Hr : exists h1 r, match found with Some p => Some (dv_with_pc h s, Some p) | None => hammer2_io_alloc C (dv_with_pc h s) lbase btype true end =
    Some (h1, r) /\ forall p, r = Some p -> is_Some (dio_at h1 p)).
  { destruct found as [p|].
    - eexists _, _. split; [done|]. intros q [= <-]. by apply Hp.
    - destruct (alloc_spec C (dv_with_pc h s) held lbase btype true) as (h1 & r & E & Hr); [by eapply io_wf_ext, Hw|done|done|].
      exists h1, r. split; [done|]. intros p ->. destruct Hr as (_ & _ & _ & _ & _ & d & Hd & _). by rewrite Hd. }
  destruct Hr as (h1 & [p|] & -> & Hd); cbn [mbind option_bind]; [|done]. destruct (Hd p eq_refl) as [d Ed]. rewrite Ed. cbn [mbind option_bind].
  destruct (has (dio_refs d) HAMMER2_DIO_GOOD); [done|]. destruct fd; [done|]. by destruct (dio_block d).
Qed.

Lemma find_spec h held btype lbase op : io_wf C h held -> volumes_ok C -> few held ->
  exists h' r, conn_find C h btype lbase op = Some (h', r) /\
    match r with
    | inl _ => True
    | inr (Some p) => is_Some (dio_at h' p)
    | inr None => io_wf C h' held
    end.
Proof.
  intros Hw Hv Hl. unfold conn_find. destruct (alloc_spec C h held lbase btype false Hw Hv Hl) as (h1 & r & E & Hr). rewrite E.
  cbn [mbind option_bind]. destruct r as [p|].
  - destruct Hr as (_ & Hw1 & _ & _ & _ & d & Hd & _). rewrite Hd. cbn [mbind option_bind].
    destruct op, (has (dio_refs d) HAMMER2_DIO_GOOD); eexists _, _; (split; [reflexivity|]); try done; by exists d.
  - assert (Hw1 : io_wf C h1 held) by (destruct Hr as [->| ->]; [done|by eapply io_wf_ext, Hw]).
    destruct op; eexists _, _; (split; [reflexivity|]); done.
Qed.

Lemma conn_some fetch h held btype lbase lsize op : io_wf C h held -> volumes_ok C -> few held ->
  is_Some (hammer2_io_getblk_conn C fetch h btype lbase lsize op).
Proof.
  intros Hw Hv Hl. unfold hammer2_io_getblk_conn. destruct (find_spec h held btype lbase op Hw Hv Hl) as (h1 & r & E & Hr). rewrite E.
  cbn [mbind option_bind]. destruct r as [r|[p|]]; [done| |].
  - destruct Hr as [d Hd]. destruct (fetch _ _ _) as [s fd]. unfold conn_fill. cbn [mbind option_bind].
    change (dio_at (dv_with_pc h1 s) p) with (dio_at h1 p). rewrite Hd. cbn [mbind option_bind].
    destruct (has (dio_refs d) HAMMER2_DIO_GOOD); [done|]. destruct fd; [done|]. by destruct (dio_block d).
  - destruct (fetch _ _ _) as [s fd]. by apply (fill_some h1 held).
Qed.

Lemma getblk_some fetch h held btype lbase lsize op : io_wf C h held -> volumes_ok C -> few held ->
  Z.shiftl 1 (lbase & HAMMER2_OFF_MASK_RADIX) = lsize -> is_Some (hammer2_io_getblk C fetch h btype lbase lsize op).
Proof.
  intros Hw Hv Hl Hs. destruct (cf_rconn C) eqn:Erc.
  - unfold hammer2_io_getblk. rewrite Hs, Z.eqb_refl, Erc. cbn [negb]. by eapply conn_some.
  - destruct (get_spec fetch h held btype lbase lsize op Erc Hw Hv Hl Hs) as (h' & r & E & _). by rewrite E.
Qed.

Lemma putblk_some h held p : io_wf C h held -> p ∈ held -> is_Some (hammer2_io_putblk C h p).
Proof.
  intros Hw Hp. destruct (held_dio h held p Hw Hp) as (d & a & Hd & Hok & Hc & _).
  destruct (putblk_drop_spec C h p d Hd Hok Hc) as (d' & s' & E & _). unfold hammer2_io_putblk. rewrite E. cbn [mbind option_bind].
  destruct (dio_count d =? 1) eqn:E1; [|done].
  apply elem_of_Permutation in Hp as [held' Hpm].
  destruct (step_put h (dv_add_free (setd h p d' s') 1) held held' ∅ p true Hw Hpm) as [Hw' _]; [set_solver|exact E|].
  destruct (putblk_clean_spec C _ _ Hw') as (h2 & E2 & _). cbn in E2. by rewrite E2.
Qed.
End System.

(** ** A page cache *)

(** A page cache for the samples: the blocks by their address, with room for new
    folios or without. *)
Record sim := mkSim { sim_blk : addr -> blk; sim_full : bool }.

Definition sim_upd (s : sim) (a : addr) (b : blk) : sim := mkSim (fun x => if decide (x = a) then b else sim_blk s x) (sim_full s).
Definition sim_folio (s : sim) (a : addr) (g : folio -> folio) : sim :=
  let b := sim_blk s a in sim_upd s a (mkBlk (bk_media b) (g <$> bk_folio b) (bk_refs b)).

#[export] Instance sim_page_cache : PageCache sim := {|
  pc_blk := sim_blk;
  mapping_read_folio_gfp s a :=
    let b := sim_blk s a in
    if uptodate (bk_folio b) then (sim_upd s a (blk_ref 1 b), inr HAMMER2_PBUFSIZE)
    else if sim_full s || bool_decide (bk_refs b ≠ 0) then (s, inl ENOMEM)
    else (sim_upd s a (mkBlk (bk_media b) (Some (mkFolio (bk_media b) true false)) (bk_refs b + 1)), inr HAMMER2_PBUFSIZE);
  filemap_get_folio s a :=
    let b := sim_blk s a in
    match bk_folio b with
    | Some f => (sim_upd s a (blk_ref 1 b), inr (HAMMER2_PBUFSIZE, fo_uptodate f))
    | None => if sim_full s then (s, inl ENOMEM)
              else (sim_upd s a (mkBlk (bk_media b) (Some (mkFolio (fun _ => 0xa5) false false)) (bk_refs b + 1)),
                    inr (HAMMER2_PBUFSIZE, false))
    end;
  folio_cached s a := bool_decide (is_Some (bk_folio (sim_blk s a)));
  page_cache_sync_ra s a := s;
  folio_write s a m := sim_folio s a (fun f => mkFolio m (fo_uptodate f) (fo_dirty f));
  folio_mark_uptodate s a := sim_folio s a (fun f => mkFolio (fo_mem f) true (fo_dirty f));
  folio_mark_dirty_lock s a := sim_folio s a (fun f => mkFolio (fo_mem f) (fo_uptodate f) true);
  folio_cancel_dirty s a := sim_folio s a (fun f => mkFolio (fo_mem f) (fo_uptodate f) false);
  folio_put s a := sim_upd s a (blk_ref (-1) (sim_blk s a));
  filemap_fdatawrite_range s a := s;
  invalidate_inode_pages2_range s a :=
    let b := sim_blk s a in
    match bk_folio b with
    | Some f => if fo_dirty f || bool_decide (bk_refs b ≠ 0) then s else sim_upd s a (mkBlk (bk_media b) None (bk_refs b))
    | None => s
    end;
  truncate_inode_pages s f := s;
  vmalloc s := (s, Some (fun _ => 0x5a));
  bio_read s a := (s, inr (bk_media (sim_blk s a)));
  bio_write s a m := let b := sim_blk s a in (sim_upd s a (mkBlk m (bk_folio b) (bk_refs b)), 0)
|}.

Lemma sim_does s a b (P : blk -> blk -> Prop) : P (sim_blk s a) b -> pc_does s a P (sim_upd s a b).
Proof.
  intros HP. split.
  - intros c Hc. cbn. rewrite decide_False by done. apply rtc_refl.
  - exists (sim_blk s a), b. split; [apply rtc_refl|]. split; [done|]. cbn. rewrite decide_True by done. apply rtc_refl.
Qed.

Lemma sim_stays s a (P : blk -> blk -> Prop) : P (sim_blk s a) (sim_blk s a) -> pc_does s a P s.
Proof. intros HP. split; [by intros c _|]. by exists (sim_blk s a), (sim_blk s a). Qed.

#[export] Instance sim_laws : PageCacheLaws sim.
Proof.
  split; cbn.
  - intros s a s' n. destruct (uptodate (bk_folio (sim_blk s a))) eqn:Eu.
    + intros [= <- _]. by apply sim_does.
    + destruct (sim_full s); [done|]. case_bool_decide as Er; [done|]. cbn. intros [= <- _].
      assert (bk_refs (sim_blk s a) = 0) as E0 by (destruct (Z.eq_dec (bk_refs (sim_blk s a)) 0); [done|by destruct Er]).
      split; [intros c Hc; cbn; rewrite decide_False by done; apply rtc_refl|].
      exists (mkBlk (bk_media (sim_blk s a)) (Some (mkFolio (bk_media (sim_blk s a)) true false)) 0). eexists. split.
      * apply rtc_once. cbn. destruct (sim_blk s a) as [md fo r]. cbn in *. subst r. by constructor.
      * split; [done|]. cbn. rewrite decide_True by done. rewrite E0. apply rtc_refl.
  - intros s a s' e. destruct (uptodate (bk_folio (sim_blk s a))) eqn:Eu; [done|]. destruct (_ || _); [|done]. intros [= <- <-].
    split; [done|]. by apply sim_stays.
  - intros s a s' n u. destruct (bk_folio (sim_blk s a)) as [f|] eqn:Ef.
    + intros [= <- _ <-]. apply sim_does. exists f. split; [by left|]. split; [done|]. unfold blk_ref. by rewrite Ef.
    + destruct (sim_full s); [done|]. intros [= <- _ <-]. apply sim_does. exists (mkFolio (fun _ => 0xa5) false false).
      split; [by right|]. by split.
  - intros s a s' e. destruct (bk_folio (sim_blk s a)) as [f|] eqn:Ef; [done|]. destruct (sim_full s); [|done]. intros [= <- <-].
    split; [done|]. by apply sim_stays.
  - by intros s a c.
  - intros s a m Hr. apply sim_does. intros f ->. done.
  - intros s a Hr. apply sim_does. intros f ->. done.
  - intros s a Hr. apply sim_does. intros f ->. done.
  - intros s a Hr. by apply sim_does.
  - by intros s a c.
  - intros s a. destruct (bk_folio (sim_blk s a)) as [f|] eqn:Ef.
    + destruct (fo_dirty f) eqn:Ed; cbn; [apply sim_stays; intros _ Hd; specialize (Hd f Ef); congruence|].
      case_bool_decide as Er; [apply sim_stays; done|]. apply sim_does. by intros ->.
    + apply sim_stays. intros E0 _. destruct (sim_blk s a). cbn in *. by subst.
  - intros s s' m [= <- _] c. apply rtc_refl.
  - intros s a s' b [= <- <-]. by apply sim_stays.
  - intros s a s' e [=].
  - intros s a b s' [= <-]. by apply sim_does.
Qed.

(** A volume of 4GB on one device. *)
Definition config_4g : io_config := mkConfig [mkVolume 1 0 4294967296] false false 256 100 4 4 1024.
Definition sim_new (full : bool) : sim := mkSim (fun _ => mkBlk (fun _ => 0) None 0) full.
Definition dev_new (full : bool) : hammer2_dev sim := mkDev ∅ 0 0 0 false 0 (sim_new full).

(** *** Sample runs *)

(** Some of the steps as commands, and the states and labels they lead to. *)
Inductive io_cmd :=
  | CGet (op : io_op) (btype lbase : Z)
  | CStore (p lbase n : Z) (f : Z -> Z)
  | CDirty (p : Z)
  | CPut (p : Z)
  | CClean.

Section Exec.
Context {S : Type} `{PageCacheLaws S} (C : io_config).

Definition exec1 (x : io_sys S) (c : io_cmd) : option (io_label * io_sys S) :=
  let '(mkIoSys h held owed) := x in
  match c with
  | CGet op btype lbase =>
      let lsize := Z.shiftl 1 (lbase & HAMMER2_OFF_MASK_RADIX) in
      guard (cf_rconn C = false);; guard (few held);;
      '(h', r) ← hammer2_io_getblk C (fun s _ _ => (s, inl EIO)) h btype lbase lsize op;
      match r with
      | Some p => ok ← good <$> dio_at h' p; Some (LGet op lbase lsize p ok, mkIoSys h' (p :: held) owed)
      | None => Some (LQuiet, mkIoSys h' held owed)
      end
  | CStore p lbase n f =>
      guard (p ∈ held);;
      d ← dio_at h p; guard (good d = true);;
      guard (0 <= (lbase &~ HAMMER2_OFF_MASK_RADIX) - p < HAMMER2_PBUFSIZE);;
      h' ← io_store h p lbase n f; Some (LStore lbase n f p, mkIoSys h' held (owed ∪ {[ p ]}))
  | CDirty p =>
      guard (p ∈ held);;
      h' ← hammer2_io_setflags h p HAMMER2_DIO_DIRTY; Some (LQuiet, mkIoSys h' held (owed ∖ {[ p ]}))
  | CPut p =>
      match held with
      | q :: held' =>
          guard (q = p);; guard (p ∉ owed);;
          '(h', _) ← putblk_drop C h p; Some (LQuiet, mkIoSys h' held' owed)
      | [] => None
      end
  | CClean => h' ← putblk_clean C h; Some (LQuiet, mkIoSys h' held owed)
  end.

Fixpoint exec (x : io_sys S) (cs : list io_cmd) : option (list io_label * io_sys S) :=
  match cs with
  | [] => Some ([], x)
  | c :: cs => '(l, y) ← exec1 x c; '(ls, z) ← exec y cs; Some (l :: ls, z)
  end.

Lemma exec1_step x c l y : exec1 x c = Some (l, y) -> io_step C x l y.
Proof.
  destruct x as [h held owed]. destruct c as [op btype lbase|p lbase n f|p|p|]; cbn [exec1]; intros E.
  - simplify_option_eq. destruct (hammer2_io_getblk _ _ _ _ _ _ _) as [[h' [p|]]|] eqn:Eg; cbn in E; [| |done].
    + destruct (dio_at h' p) as [d|] eqn:Ed; simplify_option_eq. eapply st_get; try done. by rewrite Ed.
    + simplify_option_eq. by eapply st_get_none.
  - simplify_option_eq. by eapply st_store.
  - simplify_option_eq. eapply st_flags; [done|by left|done].
  - destruct held as [|q held']; [done|]. simplify_option_eq. destruct (putblk_drop C h p) as [[h' b]|] eqn:Ep; simplify_option_eq. by eapply st_put.
  - simplify_option_eq. by eapply st_clean.
Qed.

Lemma exec_run x cs ls y : exec x cs = Some (ls, y) -> io_run C x ls y.
Proof.
  revert x ls. induction cs as [|c cs IH]; cbn; intros x ls E; [simplify_eq; constructor|].
  destruct (exec1 x c) as [[l z]|] eqn:E1; [|done]. cbn in E. destruct (exec z cs) as [[ls' z']|] eqn:E2; [|done]. cbn in E.
  injection E as <- <-. econstructor; [by eapply exec1_step|by apply IH].
Qed.
End Exec.

(** A new block is written, put back, and read again. *)
Definition sample_cmds : list io_cmd :=
  [CGet HAMMER2_DOP_NEW 3 65552; CStore 65536 65536 4 (fun _ => 7); CDirty 65536; CPut 65536; CClean;
   CGet HAMMER2_DOP_READ 3 65552].

Lemma sample_run full : exists ls x, exec config_4g (mkIoSys (dev_new full) [] ∅) sample_cmds = Some (ls, x) /\
  dv_device_error (is_dev x) = false /\ is_held x = [65536] /\
  option_map (fun d => (good d, io_mem (is_dev x) d 3)) (dio_at (is_dev x) 65536) = Some (true, 7).
Proof.
  assert (E : option_map (fun r => (dv_device_error (is_dev r.2), is_held r.2,
      option_map (fun d => (good d, io_mem (is_dev r.2) d 3)) (dio_at (is_dev r.2) 65536)))
    (exec config_4g (mkIoSys (dev_new full) [] ∅) sample_cmds) = Some (false, [65536], Some (true, 7))) by (destruct full; by vm_compute).
  destruct (exec _ _ _) as [[ls x]|]; [|discriminate E]. injection E as E1 E2 E3. exists ls, x.
  split; [reflexivity|]. split; [exact E1|]. split; [exact E2|exact E3].
Qed.

(** ** The theorems *)

(** C16: device buffers are well formed in every state that the threads reach, with
    the page cache in any condition and with a connection as with a disk.  A dio is
    in the bucket of its offset and once; its count is the references that are held
    on it; it has GOOD exactly when it has a block, in a folio or in a buffer of its
    own; without references it is neither GOOD nor DIRTY; iofree_count and
    hammer2_count_dio_allocated are the dios without references and all.  So no
    assertion fails: every call for a buffer returns, and every buffer that is held
    can be marked, referenced again and put back. *)
Theorem dio_well_formed (S : Type) `{PageCacheLaws S} (C : io_config) (h0 : hammer2_dev S) ls x :
  io_init h0 -> volumes_ok C -> io_run C (mkIoSys h0 [] ∅) ls x ->
  io_wf C (is_dev x) (is_held x) /\
  (forall fetch btype lbase lsize op, few (is_held x) -> Z.shiftl 1 (lbase & HAMMER2_OFF_MASK_RADIX) = lsize ->
    is_Some (hammer2_io_getblk C fetch (is_dev x) btype lbase lsize op)) /\
  (forall p f, p ∈ is_held x -> is_Some (hammer2_io_putblk C (is_dev x) p) /\ is_Some (hammer2_io_ref (is_dev x) p) /\
    is_Some (hammer2_io_setflags (is_dev x) p f)).
Proof.
  intros Hi Hv Hr. destruct (run_ok C _ ls x Hv Hr (init_wf C h0 Hi)) as [Hw _]. split; [done|]. split.
  - intros fetch btype lbase lsize op Hl Hs. by eapply getblk_some.
  - intros p f Hp. split; [by eapply putblk_some|]. destruct (held_dio C _ _ p Hw Hp) as (d & a & Hd & _).
    unfold hammer2_io_ref, hammer2_io_setflags. by rewrite Hd.
Qed.

Lemma dio_well_formed_witness : exists ls x, io_run config_4g (mkIoSys (dev_new true) [] ∅) ls x /\ is_held x = [65536] /\
  io_wf config_4g (is_dev x) [65536] /\ is_Some (hammer2_io_putblk config_4g (is_dev x) 65536).
Proof.
  destruct (sample_run true) as (ls & x & E & _ & Hh & _). apply exec_run in E.
  assert (Hv : volumes_ok config_4g) by (constructor; [reflexivity|constructor]).
  destruct (dio_well_formed sim config_4g (dev_new true) ls x (conj eq_refl (conj eq_refl eq_refl)) Hv E) as (Hw & _ & Hp).
  exists ls, x. split; [exact E|]. split; [exact Hh|]. rewrite Hh in *. split; [exact Hw|].
  destruct (Hp 65536 0) as [H1 _]; [constructor|exact H1].
Defined.



Lemma stores_differ v ls vs : map (fun l => match l with LStore _ _ f _ => f 0 | _ => 0 end) ls = vs -> v ∉ vs ->
  Forall (fun l => match l with LStore _ _ f _ => f 0 <> v | _ => True end) ls.
Proof.
  intros <- Hv. apply Forall_forall. intros [| |] Hl; try done. intros E. apply Hv, list_elem_of_fmap. eexists. split; [|exact Hl]. done.
Qed.


(** ** Deduplication masks *)

(** hammer2_dedup_mask() has the bits of the fragments of 1KB that the range
    covers, and no others, up to the end of the buffer. *)
Theorem dedup_mask_exact pbase data_off bytes off n : data_off &~ HAMMER2_OFF_MASK_RADIX = pbase + off -> 0 <= off ->
  off mod HAMMER2_DEDUP_FRAG = 0 -> 0 <= bytes -> off + bytes <= HAMMER2_PBUFSIZE -> 0 <= n ->
  Z.testbit (hammer2_dedup_mask pbase data_off bytes) n = true <->
  exists i, off <= i < off + bytes /\ i / HAMMER2_DEDUP_FRAG = n.
Proof.
  intros E Ho Hf Hb Hs Hn. unfold hammer2_dedup_mask. rewrite E. replace (pbase + off - pbase) with off by lia.
  change HAMMER2_DEDUP_FRAG with 1024 in *. change HAMMER2_PBUFSIZE with 65536 in *. change HAMMER2_DEDUP_FRAGRADIX with 10.
  rewrite (u64_small off) by (unfold is_u64; lia). rewrite (i32_small off) by lia. rewrite (u32_small (bytes + _)) by (unfold is_u32; lia).
  rewrite !Z.shiftr_div_pow2 by lia. change (2 ^ 10) with 1024. change (1024 - 1) with 1023.
  set (b := off / 1024). set (k := (bytes + 1023) / 1024).
  assert (Hb' : 0 <= b /\ off = 1024 * b) by (pose proof (Z.div_mod off 1024); unfold b; split; [apply Z.div_pos|]; lia).
  assert (Hk : 0 <= k /\ bytes <= 1024 * k < bytes + 1024) by (unfold k; dlia).
  assert (Hbk : b + k <= 64) by lia. rewrite (i32_small k) by lia.
  assert (Em : forall j, 0 <= j < 64 -> u64 (u64 (Z.shiftl 1 j) - 1) = Z.ones j).
  { intros j Hj. rewrite Z.shiftl_1_l. assert (2 ^ j <= 2 ^ 63) by (apply Z.pow_le_mono_r; lia). pose proof (Z.pow_pos_nonneg 2 j).
    rewrite (u64_small (2 ^ j)), u64_small by (unfold is_u64; lia). by rewrite Z.ones_equiv, Z.sub_1_r. }
  assert (Et : (if b + k =? 64 then 2 ^ 64 - 1 else u64 (u64 (Z.shiftl 1 (b + k)) - 1)) = Z.ones (b + k)).
  { destruct (Z.eqb_spec (b + k) 64) as [->|]; [done|]. apply Em. lia. }
  rewrite Et. assert (Hmask : Z.testbit (Z.ldiff (Z.ones (b + k)) (u64 (u64 (Z.shiftl 1 b) - 1))) n = (b <=? n) && (n <? b + k)).
  { destruct (Z.eq_dec b 64) as [->|]; [assert (k = 0) as -> by lia; change (u64 (u64 (Z.shiftl 1 64) - 1)) with (Z.ones 64);
      rewrite Z.ldiff_spec, !Z.testbit_ones_nonneg by lia; by zcases|].
    rewrite Em by lia. rewrite Z.ldiff_spec, !Z.testbit_ones_nonneg by lia. by zcases. }
  rewrite Hmask, andb_true_iff, Z.leb_le, Z.ltb_lt. split.
  - intros [H1 H2]. exists (1024 * n). split; [lia|]. rewrite Z.mul_comm. by apply Z.div_mul.
  - intros (i & Hi & <-). split; dlia.
Qed.

Lemma dedup_mask_exact_witness : Z.testbit (hammer2_dedup_mask 65536 (65536 + 16384 + 14) 16384) 31 = true.
Proof. apply (dedup_mask_exact 65536 (65536 + 16384 + 14) 16384 16384 31); try done. exists 32767. by split. Defined.
