(* ===== verification/Trans.v ===== *)
(** Transactions (hammer2_flush.c): hammer2_trans_init(), hammer2_trans_done() and
    the flags of a PFS that they keep, for any number of threads.

    [pmp->trans.flags] has the count of the open transactions in its lower 24
    bits.  Every function that tests the flags holds [trans_lock] but while it
    sleeps, so a round of its loop is one step; hammer2_trans_setflags() does not,
    and the compare and exchange of the others makes it come before or after.
    hammer2_lkc_wakeup() wakes all that sleep; a signal may end a sleep as well. *)
From S2P Require Import Prelude Disk.
From Stdlib Require Import ZArith Lia Bool.
From stdpp Require Import base list.
Open Scope Z_scope.

Module Trans.

Definition HAMMER2_TRANS_ISFLUSH : Z := 0x80000000.
Definition HAMMER2_TRANS_BUFCACHE : Z := 0x40000000.
Definition HAMMER2_TRANS_SIDEQ : Z := 0x20000000.
Definition HAMMER2_TRANS_WAITING : Z := 0x08000000.
Definition HAMMER2_TRANS_RESCAN : Z := 0x04000000.
Definition HAMMER2_TRANS_MASK : Z := 0x00FFFFFF.

(** ** The operations on the flags *)

(** A round of the loop: the flags, and whether the thread goes to sleep. *)
Definition hammer2_trans_init (oflags flags : Z) : Z * bool :=
  if has flags HAMMER2_TRANS_ISFLUSH then
    if has oflags HAMMER2_TRANS_ISFLUSH then (oflags ||| HAMMER2_TRANS_WAITING, true)
    else (u32 ((oflags ||| flags) + 1), false)
  else if has flags HAMMER2_TRANS_BUFCACHE then (u32 ((oflags ||| flags) + 1), false)
  else (u32 ((oflags ||| flags) + 1), false).

Definition hammer2_trans_setflags (oflags flags : Z) : Z := oflags ||| flags.

(** The flags, and whether the sleepers are woken. *)
Definition hammer2_trans_clearflags (oflags flags : Z) : Z * bool :=
  let nflags := oflags &~ flags in
  (nflags, has (Z.lxor oflags nflags) HAMMER2_TRANS_WAITING).

(** [None]: the assertion that a transaction is open. *)
Definition hammer2_trans_done (oflags flags : Z) : option (Z * bool) :=
  if negb (has oflags HAMMER2_TRANS_MASK) then None
  else
    let nflags := (oflags - 1) &~ flags in
    let nflags := if has flags HAMMER2_TRANS_ISFLUSH then nflags &~ HAMMER2_TRANS_WAITING else nflags in
    let nflags :=
      if (oflags & (HAMMER2_TRANS_ISFLUSH ||| HAMMER2_TRANS_MASK)) =? (HAMMER2_TRANS_ISFLUSH ||| 2)
      then nflags &~ HAMMER2_TRANS_WAITING else nflags in
    Some (nflags, has (Z.lxor oflags nflags) HAMMER2_TRANS_WAITING).

(** The transaction id of an operation and a new inode number: what the counter had,
    and the counter after. *)
Definition hammer2_trans_sub (modify_tid : Z) : Z * Z := (modify_tid, u64 (modify_tid + 1)).
Definition hammer2_trans_newinum (inode_tid : Z) : Z * Z := (inode_tid, u64 (inode_tid + 1)).

(** ** The threads *)

Inductive thread :=
  | Idle
  | Asleep (flags : Z)          (* in hammer2_lkc_sleep() *)
  | Awake (flags : Z)           (* woken, before its next round *)
  | Open (flags : Z).           (* in a transaction *)

Inductive op :=
  | Init (flags : Z)
  | Retry
  | Signal
  | Done (flags : Z)
  | SetFlags (flags : Z)
  | ClearFlags (flags : Z).

Record trans_state := mkTs { ts_flags : Z; ts_threads : list thread }.

(** The flags that callers give.  A flush is ended as one. *)
Definition init_flags (f : Z) : bool :=
  (f &~ (HAMMER2_TRANS_ISFLUSH ||| HAMMER2_TRANS_BUFCACHE ||| HAMMER2_TRANS_SIDEQ)) =? 0.
Definition done_flags (f g : Z) : bool :=
  init_flags g && eqb (has f HAMMER2_TRANS_ISFLUSH) (has g HAMMER2_TRANS_ISFLUSH).
Definition set_flags (f : Z) : bool := (f &~ HAMMER2_TRANS_RESCAN) =? 0.
Definition clear_flags (f : Z) : bool := (f &~ (HAMMER2_TRANS_RESCAN ||| HAMMER2_TRANS_WAITING)) =? 0.

Definition wake (t : thread) : thread := match t with Asleep f => Awake f | t => t end.
Definition woken (w : bool) (ts : list thread) : list thread := if w then wake <$> ts else ts.

Definition init_round (s : trans_state) (i : nat) (f : Z) : trans_state :=
  let '(nflags, sleeps) := hammer2_trans_init (ts_flags s) f in
  mkTs nflags (<[i := if sleeps then Asleep f else Open f]> (ts_threads s)).

(** [None]: the thread cannot do this; [Some None]: a failed assertion. *)
Definition trans_step (s : trans_state) (i : nat) (o : op) : option (option trans_state) :=
  t ← ts_threads s !! i;
  match t, o with
  | Idle, Init f => if init_flags f then Some (Some (init_round s i f)) else None
  | Awake f, Retry => Some (Some (init_round s i f))
  | Asleep f, Signal => Some (Some (mkTs (ts_flags s) (<[i := Awake f]> (ts_threads s))))
  | Open f, Done g =>
      if done_flags f g then
        Some (match hammer2_trans_done (ts_flags s) g with
              | None => None
              | Some (nflags, w) => Some (mkTs nflags (woken w (<[i := Idle]> (ts_threads s))))
              end)
      else None
  | _, SetFlags g =>
      if set_flags g then Some (Some (mkTs (hammer2_trans_setflags (ts_flags s) g) (ts_threads s))) else None
  | _, ClearFlags g =>
      if clear_flags g then
        let '(nflags, w) := hammer2_trans_clearflags (ts_flags s) g in
        Some (Some (mkTs nflags (woken w (ts_threads s))))
      else None
  | _, _ => None
  end.

(** Fewer threads than the count has room for. *)
Inductive trans_reach : trans_state -> Prop :=
| reach_start n : Z.of_nat n < HAMMER2_TRANS_MASK -> trans_reach (mkTs 0 (replicate n Idle))
| reach_next s i o s' : trans_reach s -> trans_step s i o = Some (Some s') -> trans_reach s'.

End Trans.

Import Trans.

(** ** The word *)

Lemma within_land f K m : f &~ K = 0 -> Z.land f m = Z.land f (Z.land K m).
Proof. intros H. rewrite <- (Z.lor_ldiff_and f K) at 1. rewrite H, Z.lor_0_l. symmetry. apply Z.land_assoc. Qed.

(** A word with no bit of the count. *)
Definition high (f : Z) : Prop := is_u32 f /\ f mod 2 ^ 24 = 0.

Lemma within_high f K : high K -> f &~ K = 0 -> high f.
Proof.
  intros [HK Hm] H. split.
  - assert (Z.land f (2 ^ 32 - 1) = f) as E.
    { rewrite (within_land f K) by done. rewrite (land_low K), Z.mod_small by (exact HK || lia).
      rewrite <- (Z.lor_ldiff_and f K) at 2. by rewrite H, Z.lor_0_l. }
    rewrite land_low in E by lia. rewrite <- E. unfold is_u32. apply Z.mod_pos_bound. lia.
  - rewrite <- land_low, (within_land f K), land_low, Hm by (done || lia). apply Z.land_0_r.
Qed.

Lemma within_bit f K n : f &~ K = 0 -> Z.testbit K n = false -> Z.testbit f n = false.
Proof.
  intros H HK. assert (E := Z.ldiff_spec f K n). rewrite H, Z.bits_0, HK in E. by destruct (Z.testbit f n).
Qed.

Lemma mod_lor x f : f mod 2 ^ 24 = 0 -> (x ||| f) mod 2 ^ 24 = x mod 2 ^ 24.
Proof. intros H. rewrite <- !land_low, Z.land_lor_distr_l, (land_low f), H by lia. apply Z.lor_0_r. Qed.

Lemma mod_ldiff x f : f mod 2 ^ 24 = 0 -> (x &~ f) mod 2 ^ 24 = x mod 2 ^ 24.
Proof.
  intros H. rewrite <- !land_low by lia. apply Z.bits_inj'. intros n Hn. rewrite !Z.land_spec, Z.ldiff_spec.
  assert (E := Z.land_spec f (2 ^ 24 - 1) n). rewrite land_low, H, Z.bits_0 in E by lia.
  destruct (Z.testbit (2 ^ 24 - 1) n); [|by rewrite !andb_false_r]. rewrite andb_true_r in E. rewrite <- E.
  by rewrite andb_true_r.
Qed.

Lemma u32_lor x y : is_u32 x -> is_u32 y -> is_u32 (x ||| y).
Proof.
  intros Hx Hy. assert (Z.land (x ||| y) (2 ^ 32 - 1) = x ||| y) as E.
  { rewrite Z.land_lor_distr_l, !land_low, !Z.mod_small by (exact Hx || exact Hy || lia). done. }
  rewrite land_low in E by lia. rewrite <- E. apply Z.mod_pos_bound. lia.
Qed.

Lemma u32_ldiff x y : is_u32 x -> is_u32 (x &~ y).
Proof.
  intros Hx. assert (Z.land (x &~ y) (2 ^ 32 - 1) = x &~ y) as E.
  { apply Z.bits_inj'. intros n _. assert (E := Z.land_spec x (2 ^ 32 - 1) n).
    rewrite land_low, Z.mod_small in E by (exact Hx || lia). rewrite Z.land_spec, Z.ldiff_spec.
    destruct (Z.testbit (2 ^ 32 - 1) n); [by rewrite andb_true_r|]. rewrite andb_false_r in E. by rewrite E. }
  rewrite land_low in E by lia. rewrite <- E. apply Z.mod_pos_bound. lia.
Qed.

Lemma bit_same x y n : 24 <= n -> x / 2 ^ 24 = y / 2 ^ 24 -> Z.testbit x n = Z.testbit y n.
Proof.
  intros Hn E. replace n with ((n - 24) + 24) by lia. rewrite <- !Z.div_pow2_bits by lia. by rewrite E.
Qed.

(** The transaction that is opened or closed. *)
Lemma word_up x f : is_u32 x -> high f -> x mod 2 ^ 24 < 2 ^ 24 - 1 ->
  let y := u32 ((x ||| f) + 1) in
  is_u32 y /\ y mod 2 ^ 24 = x mod 2 ^ 24 + 1 /\
  forall n, 24 <= n -> Z.testbit y n = Z.testbit x n || Z.testbit f n.
Proof.
  intros Hx [Hf Hm] Hc y. assert (H := u32_lor x f Hx Hf). assert (E := mod_lor x f Hm).
  set (v := x ||| f) in *. assert (Hd : (v + 1) / 2 ^ 24 = v / 2 ^ 24 /\ (v + 1) mod 2 ^ 24 = v mod 2 ^ 24 + 1).
  { rewrite <- E in Hc. clear -Hc. dlia. }
  assert (is_u32 (v + 1)) as Hv. { unfold is_u32 in *. rewrite <- E in Hc. clear -Hc H. split; [lia|]. dlia. }
  subst y. rewrite (u32_small _ Hv). split; [exact Hv|]. split; [rewrite (proj2 Hd), E; reflexivity|].
  intros n Hn. rewrite (bit_same (v + 1) v n Hn (proj1 Hd)). apply Z.lor_spec.
Qed.

Lemma word_down x : is_u32 x -> 0 < x mod 2 ^ 24 ->
  is_u32 (x - 1) /\ (x - 1) mod 2 ^ 24 = x mod 2 ^ 24 - 1 /\
  forall n, 24 <= n -> Z.testbit (x - 1) n = Z.testbit x n.
Proof.
  intros Hx Hc. assert ((x - 1) / 2 ^ 24 = x / 2 ^ 24 /\ (x - 1) mod 2 ^ 24 = x mod 2 ^ 24 - 1) as [H1 H2] by (clear -Hc; dlia).
  split; [|split; [done|]].
  - unfold is_u32 in *. split; [|lia]. destruct (Z.eq_dec x 0) as [->|]; [rewrite Zmod_0_l in Hc; lia|lia].
  - intros n Hn. by apply bit_same.
Qed.

(** The bits in question. *)
Abbreviation flush_bit x := (Z.testbit x 31).
Abbreviation wait_bit x := (Z.testbit x 27).

Lemma has_flush x : has x HAMMER2_TRANS_ISFLUSH = flush_bit x.
Proof. exact (has_bit x 31 ltac:(lia)). Qed.
Lemma has_waiting x : has x HAMMER2_TRANS_WAITING = wait_bit x.
Proof. exact (has_bit x 27 ltac:(lia)). Qed.
Lemma has_count x : has x HAMMER2_TRANS_MASK = nz (x mod 2 ^ 24).
Proof. unfold has. change HAMMER2_TRANS_MASK with (2 ^ 24 - 1). by rewrite land_low. Qed.

Lemma high_waiting : high HAMMER2_TRANS_WAITING.
Proof. split; [split; [discriminate|reflexivity]|reflexivity]. Qed.

Lemma clear_waiting x n : 0 <= n -> Z.testbit (x &~ HAMMER2_TRANS_WAITING) n = Z.testbit x n && negb (n =? 27).
Proof.
  intros Hn. rewrite Z.ldiff_spec. change HAMMER2_TRANS_WAITING with (2 ^ 27).
  by rewrite Z.pow2_bits_eqb, Z.eqb_sym by lia.
Qed.

Lemma init_flags_high f : init_flags f = true -> high f /\ wait_bit f = false.
Proof.
  intros H%Z.eqb_eq. split; [|exact (within_bit f _ 27 H eq_refl)]. refine (within_high _ _ _ H).
  split; [split; [discriminate|reflexivity]|reflexivity].
Qed.

(** ** The invariant *)

Definition is_open (t : thread) : bool := match t with Open _ => true | _ => false end.
Definition is_flush (t : thread) : bool := match t with Open f => flush_bit f | _ => false end.
Definition is_asleep (t : thread) : bool := match t with Asleep _ => true | _ => false end.

(** What a thread asked for; only a flush waits. *)
Definition thread_ok (t : thread) : Prop :=
  match t with
  | Idle => True
  | Open f => init_flags f = true
  | Asleep f | Awake f => init_flags f = true /\ flush_bit f = true
  end.

Record trans_inv (s : trans_state) : Prop := mkTi {
  ti_u32 : is_u32 (ts_flags s);
  ti_room : Z.of_nat (length (ts_threads s)) < HAMMER2_TRANS_MASK;
  ti_count : ts_flags s mod 2 ^ 24 = countb is_open (ts_threads s);
  ti_flush : countb is_flush (ts_threads s) = if flush_bit (ts_flags s) then 1 else 0;
  ti_wait : 0 < countb is_asleep (ts_threads s) -> wait_bit (ts_flags s) = true /\ flush_bit (ts_flags s) = true;
  ti_threads : Forall thread_ok (ts_threads s)
}.

Lemma countb_le {A} (f : A -> bool) l : countb f l <= Z.of_nat (length l).
Proof. induction l as [|x l IH]; [done|]. rewrite countb_cons. cbn [length]. destruct (f x); lia. Qed.

Lemma wake_count f ts : (forall t, f (wake t) = f t) -> countb f (wake <$> ts) = countb f ts.
Proof. intros H. induction ts as [|t ts IH]; [done|]. cbn [fmap list_fmap]. by rewrite !countb_cons, H, IH. Qed.

Lemma wake_asleep ts : countb is_asleep (wake <$> ts) = 0.
Proof. apply countb_none. intros t (u & -> & _)%list_elem_of_fmap. by destruct u. Qed.

Lemma woken_inv n w ts : is_u32 n -> Z.of_nat (length ts) < HAMMER2_TRANS_MASK -> n mod 2 ^ 24 = countb is_open ts ->
  countb is_flush ts = (if flush_bit n then 1 else 0) ->
  (w = false -> 0 < countb is_asleep ts -> wait_bit n = true /\ flush_bit n = true) ->
  Forall thread_ok ts -> trans_inv (mkTs n (woken w ts)).
Proof.
  intros H1 H2 H3 H4 H5 H6. destruct w; cbn [woken]; [|split; cbn; auto]. split; cbn; [done| | | | |].
  - by rewrite length_fmap.
  - rewrite wake_count; [done|by intros []].
  - rewrite wake_count; [done|by intros []].
  - rewrite wake_asleep. lia.
  - apply Forall_fmap. eapply Forall_impl; [exact H6|]. by intros [].
Qed.

Lemma round_inv s i f t : trans_inv s -> ts_threads s !! i = Some t -> is_open t = false -> init_flags f = true ->
  trans_inv (init_round s i f).
Proof.
  intros [H1 H2 H3 H4 H5 H6] Ht Ho Hf. destruct (init_flags_high f Hf) as [Hh Hw]. unfold init_round, hammer2_trans_init.
  assert (Hc := fun g y => countb_insert g (ts_threads s) i t y Ht). rewrite !has_flush.
  assert (is_flush t = false) as Hof by (by destruct t).
  assert (Hup : (flush_bit f = true -> flush_bit (ts_flags s) = false) ->
    trans_inv (mkTs (u32 ((ts_flags s ||| f) + 1)) (<[i:=Open f]> (ts_threads s)))).
  { intros Hff. destruct (word_up (ts_flags s) f H1 Hh) as (U1 & U2 & U3).
    { rewrite H3. assert (X := countb_le is_open (ts_threads s)). unfold HAMMER2_TRANS_MASK in H2. lia. }
    split; cbn [ts_flags ts_threads]; [done|by rewrite length_insert| | | |].
    - rewrite U2, H3, Hc, Ho. cbn. lia.
    - rewrite Hc, Hof, H4, U3 by lia. cbn [is_flush]. destruct (flush_bit f); [by rewrite Hff by done|].
      rewrite orb_false_r. lia.
    - rewrite Hc, !U3 by lia. cbn [is_asleep]. intros Hs. destruct H5 as [-> ->]; [|done].
      destruct (is_asleep t); lia.
    - apply Forall_insert; [done|exact Hf]. }
  destruct (flush_bit f) eqn:Eff; [|destruct (has f HAMMER2_TRANS_BUFCACHE); apply Hup; done].
  destruct (flush_bit (ts_flags s)) eqn:Eo; [|by apply Hup].
  destruct (high_waiting) as [W1 W2].
  split; cbn [ts_flags ts_threads]; [by apply u32_lor|by rewrite length_insert| | | |].
  - rewrite mod_lor, H3, Hc, Ho by done. cbn. lia.
  - rewrite Hc, Hof, H4, Z.lor_spec, Eo. done.
  - intros _. rewrite !Z.lor_spec, Eo, orb_true_r. done.
  - apply Forall_insert; [done|by split].
Qed.

(** A change of the flags that leaves the flush and the count as they are, and
    wakes the sleepers when it takes WAITING away. *)
Lemma lxor_waiting x y : has (Z.lxor x y) HAMMER2_TRANS_WAITING = xorb (wait_bit x) (wait_bit y).
Proof. by rewrite has_waiting, Z.lxor_spec. Qed.

Lemma done_inv s i f g : trans_inv s -> ts_threads s !! i = Some (Open f) -> done_flags f g = true ->
  exists n w, hammer2_trans_done (ts_flags s) g = Some (n, w) /\
    trans_inv (mkTs n (woken w (<[i := Idle]> (ts_threads s)))) /\
    (flush_bit f = true -> wait_bit n = false /\ flush_bit n = false /\
      countb is_asleep (woken w (<[i := Idle]> (ts_threads s))) = 0).
Proof.
  intros [H1 H2 H3 H4 H5 H6] Ht [Hg Hfg]%andb_true_iff. apply eqb_prop in Hfg. rewrite !has_flush in Hfg.
  destruct (init_flags_high g Hg) as [[Hg1 Hg2] Hgw]. unfold hammer2_trans_done. rewrite has_count, has_flush.
  assert (Hp := countb_pos is_open _ i _ Ht eq_refl). rewrite <- H3 in Hp.
  assert (nz (ts_flags s mod 2 ^ 24) = true) as -> by (destruct (nz_spec (ts_flags s mod 2 ^ 24)); [done|lia]).
  cbn [negb]. destruct (word_down _ H1 Hp) as (D1 & D2 & D3).
  set (clr := fun (b : bool) x => if b then x &~ HAMMER2_TRANS_WAITING else x).
  assert (Hclr : forall b x, is_u32 x -> is_u32 (clr b x) /\ clr b x mod 2 ^ 24 = x mod 2 ^ 24 /\
    flush_bit (clr b x) = flush_bit x /\ wait_bit (clr b x) = wait_bit x && negb b).
  { intros b x Hx. destruct b; cbn [clr]; [|by rewrite andb_true_r]. split; [by apply u32_ldiff|].
    split; [apply mod_ldiff, high_waiting|]. rewrite !clear_waiting by lia. cbn. by rewrite !andb_true_r, !andb_false_r. }
  set (n0 := (ts_flags s - 1) &~ g).
  assert (is_u32 n0 /\ n0 mod 2 ^ 24 = ts_flags s mod 2 ^ 24 - 1 /\
    flush_bit n0 = flush_bit (ts_flags s) && negb (flush_bit f) /\ wait_bit n0 = wait_bit (ts_flags s)) as (N1 & N2 & N3 & N4).
  { subst n0. split; [by apply u32_ldiff|]. split; [by rewrite mod_ldiff, D2|].
    rewrite !Z.ldiff_spec, !D3, Hgw, Hfg, andb_true_r by lia. done. }
  change (if flush_bit g then n0 &~ HAMMER2_TRANS_WAITING else n0) with (clr (flush_bit g) n0).
  set (b2 := _ =? _). set (n1 := clr (flush_bit g) n0).
  change (if b2 then n1 &~ HAMMER2_TRANS_WAITING else n1) with (clr b2 n1).
  destruct (Hclr (flush_bit g) n0 N1) as (M1 & M2 & M3 & M4). fold n1 in M1, M2, M3, M4.
  destruct (Hclr b2 n1 M1) as (L1 & L2 & L3 & L4). set (n2 := clr b2 n1) in *.
  eexists n2, _. split; [reflexivity|].
  assert (Hc := fun h y => countb_insert h (ts_threads s) i (Open f) y Ht).
  assert (Hs : countb is_asleep (<[i := Idle]> (ts_threads s)) = countb is_asleep (ts_threads s)) by (rewrite Hc; cbn; lia).
  assert (Hn : flush_bit n2 = flush_bit (ts_flags s) && negb (flush_bit f)) by (by rewrite L3, M3, N3).
  assert (Hx : xorb (wait_bit (ts_flags s)) (wait_bit n2) = false -> 0 < countb is_asleep (ts_threads s) ->
    wait_bit n2 = true /\ flush_bit (ts_flags s) = true).
  { intros Hx Ha. destruct (H5 Ha) as [Hw Hf]. rewrite Hw in Hx. by destruct (wait_bit n2). }
  assert (Hff : flush_bit f = true -> wait_bit n2 = false) by (intros E; rewrite L4, M4, <- Hfg, E, andb_false_r; done).
  split; [|].
  - rewrite lxor_waiting. apply woken_inv; [done|by rewrite length_insert| | | |].
    + rewrite L2, M2, N2, H3, Hc. cbn. lia.
    + rewrite Hn, Hc, H4. cbn [is_flush]. assert (Hz := countb_nonneg is_flush (<[i := Idle]> (ts_threads s))).
      rewrite Hc, H4 in Hz. cbn [is_flush] in Hz. destruct (flush_bit f), (flush_bit (ts_flags s)); cbn in *; lia.
    + rewrite Hs. intros E Ha. destruct (Hx E Ha) as [Hw Hf]. split; [done|]. rewrite Hn, Hf.
      destruct (flush_bit f); [|done]. by rewrite Hff in Hw.
    + by apply Forall_insert.
  - intros E. split; [by apply Hff|]. split; [by rewrite Hn, E, andb_false_r|]. rewrite lxor_waiting, (Hff E), xorb_false_r.
    destruct (wait_bit (ts_flags s)) eqn:Ew; cbn [woken]; [apply wake_asleep|]. rewrite Hs.
    destruct (Z.eq_dec (countb is_asleep (ts_threads s)) 0) as [|Hne]; [done|].
    assert (X := countb_nonneg is_asleep (ts_threads s)). destruct H5 as [H5 _]; [lia|]. congruence.
Qed.

Lemma clear_inv s g : trans_inv s -> clear_flags g = true ->
  let '(n, w) := hammer2_trans_clearflags (ts_flags s) g in trans_inv (mkTs n (woken w (ts_threads s))).
Proof.
  intros [H1 H2 H3 H4 H5 H6] Hg%Z.eqb_eq. unfold hammer2_trans_clearflags. rewrite lxor_waiting.
  assert (flush_bit (ts_flags s &~ g) = flush_bit (ts_flags s)) as Ef.
  { rewrite Z.ldiff_spec, (within_bit g _ 31 Hg) by done. apply andb_true_r. }
  apply woken_inv; [by apply u32_ldiff|done| | | |done].
  - rewrite mod_ldiff; [done|]. refine (proj2 (within_high _ _ _ Hg)). split; [split; [discriminate|reflexivity]|reflexivity].
  - by rewrite Ef.
  - rewrite Ef. intros Hx Ha. destruct (H5 Ha) as [Hw Hf]. rewrite Hw in Hx. by destruct (wait_bit (ts_flags s &~ g)).
Qed.

Lemma set_inv s g : trans_inv s -> set_flags g = true -> trans_inv (mkTs (hammer2_trans_setflags (ts_flags s) g) (ts_threads s)).
Proof.
  intros [H1 H2 H3 H4 H5 H6] Hg%Z.eqb_eq. unfold hammer2_trans_setflags.
  assert (high g) as [Hh1 Hh2].
  { refine (within_high _ _ _ Hg). split; [split; [discriminate|reflexivity]|reflexivity]. }
  assert (flush_bit (ts_flags s ||| g) = flush_bit (ts_flags s)) as Ef.
  { rewrite Z.lor_spec, (within_bit g _ 31 Hg) by done. apply orb_false_r. }
  assert (wait_bit (ts_flags s ||| g) = wait_bit (ts_flags s)) as Ew.
  { rewrite Z.lor_spec, (within_bit g _ 27 Hg) by done. apply orb_false_r. }
  split; cbn [ts_flags ts_threads]; rewrite ?Ef, ?Ew; try done; [by apply u32_lor|by rewrite mod_lor].
Qed.

Lemma signal_inv s i f : trans_inv s -> ts_threads s !! i = Some (Asleep f) ->
  trans_inv (mkTs (ts_flags s) (<[i := Awake f]> (ts_threads s))).
Proof.
  intros [H1 H2 H3 H4 H5 H6] Ht. assert (Hc := fun h y => countb_insert h (ts_threads s) i (Asleep f) y Ht).
  split; cbn [ts_flags ts_threads]; [done|by rewrite length_insert| | | |].
  - rewrite H3, Hc. cbn. lia.
  - rewrite Hc, <- H4. cbn. lia.
  - rewrite Hc. cbn. intros Ha. apply H5. lia.
  - apply Forall_insert; [done|]. rewrite Forall_lookup in H6. exact (H6 i _ Ht).
Qed.

Lemma trans_step_inv s i o r : trans_inv s -> trans_step s i o = Some r -> exists s', r = Some s' /\ trans_inv s'.
Proof.
  intros Hs. unfold trans_step. destruct (ts_threads s !! i) as [t|] eqn:Ht; [|done]. cbn [mbind option_bind].
  assert (Hok := proj1 (Forall_lookup _ _) (ti_threads _ Hs) i t Ht).
  assert (Hset : forall g, (if set_flags g then Some (Some (mkTs (hammer2_trans_setflags (ts_flags s) g) (ts_threads s))) else None) = Some r ->
    exists s', r = Some s' /\ trans_inv s').
  { intros g. destruct (set_flags g) eqn:Eg; [|done]. intros [= <-]. eexists. split; [done|]. by apply set_inv. }
  assert (Hclear : forall g, (if clear_flags g then let '(n, w) := hammer2_trans_clearflags (ts_flags s) g in
    Some (Some (mkTs n (woken w (ts_threads s)))) else None) = Some r -> exists s', r = Some s' /\ trans_inv s').
  { intros g. destruct (clear_flags g) eqn:Eg; [|done]. assert (X := clear_inv s g Hs Eg).
    destruct (hammer2_trans_clearflags _ _) as [n w]. intros [= <-]. by eexists. }
  destruct t as [|f|f|f], o as [g| | |g|g|g]; try done; try (apply Hset); try (apply Hclear).
  - destruct (init_flags g) eqn:Eg; [|done]. intros [= <-]. eexists. split; [done|]. by apply (round_inv s i g Idle).
  - intros [= <-]. eexists. split; [done|]. by apply signal_inv.
  - intros [= <-]. eexists. split; [done|]. apply (round_inv s i f (Awake f)); [done..|apply Hok].
  - destruct (done_flags f g) eqn:Eg; [|done]. destruct (done_inv s i f g Hs Ht Eg) as (n & w & -> & Hn & _).
    intros [= <-]. by eexists.
Qed.

Lemma trans_reach_inv s : trans_reach s -> trans_inv s.
Proof.
  induction 1 as [n Hn|s i o s' _ IH E].
  - assert (forall h, h Idle = false -> countb h (replicate n Idle) = 0) as Hz.
    { intros h Hh. apply countb_none. intros x Hx. apply elem_of_replicate_inv in Hx. by subst. }
    split; cbn [ts_flags ts_threads]; rewrite ?Hz by done; try done; [by rewrite length_replicate|].
    by apply Forall_replicate.
  - destruct (trans_step_inv _ _ _ _ IH E) as (s1 & [= <-] & Hs). done.
Qed.

Lemma flush_open s : trans_inv s -> flush_bit (ts_flags s) = true ->
  exists i f, ts_threads s !! i = Some (Open f) /\ flush_bit f = true.
Proof.
  intros Hs E. assert (X := ti_flush _ Hs). rewrite E in X.
  destruct (decide (Exists (fun t => is_flush t = true) (ts_threads s))) as [(t & Ht & Hf)%Exists_exists|Hn].
  - apply list_elem_of_lookup in Ht as [i Ht]. destruct t as [| | |f]; try done. by exists i, f.
  - rewrite countb_none in X; [done|]. intros t Ht. destruct (is_flush t) eqn:Et; [|done]. destruct Hn.
    apply Exists_exists. by exists t.
Qed.

(** A run by a list of calls. *)
Fixpoint trans_run (calls : list (nat * op)) (s : trans_state) : option trans_state :=
  match calls with
  | [] => Some s
  | (i, o) :: calls =>
      match trans_step s i o with
      | Some (Some s) => trans_run calls s
      | _ => None
      end
  end.

Lemma trans_run_reach calls s s' : trans_reach s -> trans_run calls s = Some s' -> trans_reach s'.
Proof.
  revert s. induction calls as [|[i o] calls IH]; intros s Hs E; [by injection E as <-|]. cbn in E.
  destruct (trans_step s i o) as [[s1|]|] eqn:Es; try done. apply (IH s1); [|done]. by apply (reach_next s i o).
Qed.

(** ** Properties *)

(** C18: flushes of a PFS exclude each other, whatever other transactions are open.
    In every state that the threads reach at most one of the open transactions is
    a flush, the flag is set exactly while there is one, the count is the number
    of the open transactions, and no call fails its assertion. *)
Theorem trans_flush_exclusive s : trans_reach s ->
  (forall i j f g, ts_threads s !! i = Some (Open f) -> ts_threads s !! j = Some (Open g) ->
     has f HAMMER2_TRANS_ISFLUSH = true -> has g HAMMER2_TRANS_ISFLUSH = true -> i = j) /\
  (has (ts_flags s) HAMMER2_TRANS_ISFLUSH = true <->
     exists i f, ts_threads s !! i = Some (Open f) /\ has f HAMMER2_TRANS_ISFLUSH = true) /\
  (ts_flags s & HAMMER2_TRANS_MASK) = countb is_open (ts_threads s) /\
  (forall i o, trans_step s i o <> Some None).
Proof.
  intros Hs%trans_reach_inv. split_and!.
  - intros i j f g Hi Hj. rewrite !has_flush. intros Hf Hg. destruct (decide (i = j)) as [|Hne]; [done|].
    assert (X := countb_insert is_flush _ i _ Idle Hi). cbn [is_flush] in X. rewrite Hf in X.
    assert (Y : 0 < countb is_flush (<[i:=Idle]> (ts_threads s))).
    { apply (countb_pos _ _ j (Open g)); [by rewrite list_lookup_insert_ne|done]. }
    rewrite (ti_flush _ Hs) in X. destruct (flush_bit (ts_flags s)); lia.
  - rewrite has_flush. split.
    + intros E. destruct (flush_open s Hs E) as (i & f & Hi & Hf). exists i, f. by rewrite has_flush.
    + intros (i & f & Hi & Hf). rewrite has_flush in Hf. assert (X := countb_pos is_flush _ i _ Hi Hf).
      rewrite (ti_flush _ Hs) in X. by destruct (flush_bit (ts_flags s)).
  - change HAMMER2_TRANS_MASK with (2 ^ 24 - 1). rewrite land_low by lia. apply (ti_count _ Hs).
  - intros i o E. destruct (trans_step_inv _ _ _ _ Hs E) as (? & ? & _). done.
Qed.

(** A flush, an ordinary transaction and one of the buffer cache are open, and a
    second flush sleeps. *)
Definition sample_calls : list (nat * op) :=
  [(0, Init HAMMER2_TRANS_ISFLUSH); (1, Init 0); (2, Init HAMMER2_TRANS_BUFCACHE); (3, Init HAMMER2_TRANS_ISFLUSH)]%nat.

Lemma trans_flush_exclusive_witness :
  exists s, trans_run sample_calls (mkTs 0 (replicate 4 Idle)) = Some s /\
    ts_threads s !! 3%nat = Some (Asleep HAMMER2_TRANS_ISFLUSH) /\
    (ts_flags s & HAMMER2_TRANS_MASK) = 3 /\ forall o, trans_step s 0 o <> Some None.
Proof.
  assert (trans_reach (mkTs 0 (replicate 4 Idle))) as H0 by (apply reach_start; reflexivity).
  destruct (trans_run sample_calls (mkTs 0 (replicate 4 Idle))) as [s|] eqn:E; [|vm_compute in E; discriminate E].
  exists s. split; [reflexivity|].
  destruct (trans_flush_exclusive s (trans_run_reach _ _ _ H0 E)) as (_ & _ & H1 & H2).
  rewrite H1. vm_compute in E. injection E as <-. split; [reflexivity|]. split; [reflexivity|]. exact (H2 0%nat).
Defined.

(** C26: a flush that waits gets its turn.  While a thread sleeps a flush is open,
    and when it ends, however it is flagged, no thread is left asleep; a thread
    that is awake when no flush is open opens its transaction in its next round,
    and transactions that are no flush never wait. *)
Theorem trans_no_lost_wakeup s i f : trans_reach s ->
  (ts_threads s !! i = Some (Asleep f) ->
     exists j g, ts_threads s !! j = Some (Open g) /\ has g HAMMER2_TRANS_ISFLUSH = true /\
       forall h, done_flags g h = true -> exists s', trans_step s j (Done h) = Some (Some s') /\
         (exists f', ts_threads s' !! i = Some (Awake f')) /\ countb is_asleep (ts_threads s') = 0) /\
  (ts_threads s !! i = Some (Awake f) -> countb is_flush (ts_threads s) = 0 ->
     exists s', trans_step s i Retry = Some (Some s') /\ ts_threads s' !! i = Some (Open f)) /\
  (ts_threads s !! i = Some Idle -> init_flags f = true -> has f HAMMER2_TRANS_ISFLUSH = false ->
     exists s', trans_step s i (Init f) = Some (Some s') /\ ts_threads s' !! i = Some (Open f)).
Proof.
  intros Hs%trans_reach_inv. split_and!.
  - intros Hi. assert (Ha := countb_pos is_asleep _ i _ Hi eq_refl). destruct (ti_wait _ Hs Ha) as [_ Hf].
    destruct (flush_open s Hs Hf) as (j & g & Ht & Htf). exists j, g. rewrite has_flush.
    split; [done|]. split; [done|]. intros h Hh.
    destruct (done_inv s j g h Hs Ht Hh) as (n & w & E & _ & H). destruct (H Htf) as (_ & _ & H0).
    unfold trans_step. rewrite Ht. cbn [mbind option_bind]. rewrite Hh, E. eexists. split; [done|]. split; [|done].
    assert (i <> j) as Hij by (intros ->; congruence). cbn [ts_threads].
    assert (Hl : <[j := Idle]> (ts_threads s) !! i = Some (Asleep f)) by (by rewrite list_lookup_insert_ne).
    destruct w; cbn [woken] in H0 |- *; [|by assert (Y := countb_pos is_asleep _ i _ Hl eq_refl); lia].
    exists f. by rewrite list_lookup_fmap, Hl.
  - intros Hi Hz. rewrite (ti_flush _ Hs) in Hz. unfold trans_step. rewrite Hi. cbn [mbind option_bind].
    eexists. split; [done|]. unfold init_round, hammer2_trans_init. rewrite !has_flush.
    assert (Hl := lookup_lt_Some _ _ _ Hi).
    destruct (flush_bit (ts_flags s)); [done|].
    destruct (flush_bit f), (has f HAMMER2_TRANS_BUFCACHE); cbn; by rewrite list_lookup_insert_eq.
  - intros Hi Hf Hn. unfold trans_step. rewrite Hi. cbn [mbind option_bind]. rewrite Hf. eexists. split; [done|].
    unfold init_round, hammer2_trans_init. rewrite Hn. assert (Hl := lookup_lt_Some _ _ _ Hi).
    destruct (has f HAMMER2_TRANS_BUFCACHE); cbn; by rewrite list_lookup_insert_eq.
Qed.

Lemma trans_no_lost_wakeup_witness :
  exists s s' f, trans_run sample_calls (mkTs 0 (replicate 4 Idle)) = Some s /\
    trans_step s 0 (Done (HAMMER2_TRANS_ISFLUSH ||| HAMMER2_TRANS_SIDEQ)) = Some (Some s') /\
    ts_threads s' !! 3%nat = Some (Awake f).
Proof.
  assert (trans_reach (mkTs 0 (replicate 4 Idle))) as H0 by (apply reach_start; reflexivity).
  destruct (trans_run sample_calls (mkTs 0 (replicate 4 Idle))) as [s|] eqn:E; [|vm_compute in E; discriminate E].
  exists s. destruct (trans_no_lost_wakeup s 3 HAMMER2_TRANS_ISFLUSH (trans_run_reach _ _ _ H0 E)) as (H & _ & _).
  vm_compute in E. injection E as <-.
  destruct (H eq_refl) as (j & g & Hj & Hg & Hd). assert (j = 0%nat) as ->.
  { destruct j as [|[|[|[|j]]]]; [reflexivity| | | |]; try discriminate Hj; injection Hj as <-; discriminate Hg. }
  injection Hj as <-. destruct (Hd (HAMMER2_TRANS_ISFLUSH ||| HAMMER2_TRANS_SIDEQ) eq_refl) as (s' & E' & (f & Hf) & _).
  exists s', f. exact (conj eq_refl (conj E' Hf)).
Defined.
