(* ===== verification/Volume.v ===== *)
(** Volumes: the volume header of hammer2_disk.h, how a mount reads and checks it
    (hammer2_ondisk.c), and how hammer2_xop_inode_flush() seals and writes it
    (hammer2_flush.c), with the flush of the two roots of a device, vchain and
    fchain.

    A header is its bytes by their offset.  The CRC is a parameter.  [below] stands
    for the flush of the chains under a root, and the results of the block layer are
    an argument of every call.  The state of a device that counts for a header is in
    three flags: blocks in its page cache that are not written, blocks in its write
    cache, and blocks the kernel gave up after an error. *)
From S2P Require Import Prelude Disk Subr BlockTable Indirect ChainCreate ChainData Trans.
From Stdlib Require Import ZArith Lia Bool.
From stdpp Require Import base list.
Import Errno.
Open Scope Z_scope.

Definition HAMMER2_VOLUME_ID_HBO : Z := 0x48414d3205172011.
Definition HAMMER2_NUM_VOLHDRS : Z := 4.
Definition HAMMER2_MAX_VOLUMES : Z := 64.
Definition HAMMER2_VOLUME_ALIGNMASK64 : Z := Eval cbv in 8 * 1024 * 1024 - 1.
Definition HAMMER2_VOL_VERSION_MIN : Z := 1.
Definition HAMMER2_VOL_VERSION_MULTI_VOLUMES : Z := 2.
Definition HAMMER2_VOL_VERSION_WIP : Z := 3.
Definition HAMMER2_CHAIN_VOLUMESYNC : Z := 0x00000800.
Definition HAMMER2_CHAIN_FLUSH_MASK : Z :=
  HAMMER2_CHAIN_MODIFIED ||| HAMMER2_CHAIN_UPDATE ||| HAMMER2_CHAIN_ONFLUSH ||| HAMMER2_CHAIN_DESTROY.

(** ** The header *)

Definition header : Type := Z -> Z.

(** An integer of [n] bytes at an offset, the first byte lowest. *)
Fixpoint get_le (n : nat) (m : header) (off : Z) : Z :=
  match n with
  | O => 0
  | S n => m off + 256 * get_le n m (off + 1)
  end.
Definition put_le (n : Z) (m : header) (off v : Z) : header :=
  fun x => if (off <=? x) && (x <? off + n) then Z.shiftr v (8 * (x - off)) mod 256 else m x.

(** The [n] bytes at an offset. *)
Fixpoint bytes_from (n : nat) (m : header) (off : Z) : list Z :=
  match n with
  | O => []
  | S n => m off :: bytes_from n m (off + 1)
  end.
Definition bytes_at (m : header) (off n : Z) : list Z := bytes_from (Z.to_nat n) m off.

(** The fields of [struct hammer2_volume_data] in use. *)
Definition vd_magic (m : header) : Z := get_le 8 m 0.
Definition vd_volu_size (m : header) : Z := get_le 8 m 0x28.
Definition vd_version (m : header) : Z := get_le 4 m 0x30.
Definition vd_volu_id (m : header) : Z := m 0x3B.
Definition vd_nvolumes (m : header) : Z := m 0x3C.
Definition vd_fsid (m : header) : list Z := bytes_at m 0x40 16.
Definition vd_fstype (m : header) : list Z := bytes_at m 0x50 16.
Definition vd_mirror_tid (m : header) : Z := get_le 8 m 0x78.
Definition vd_freemap_tid (m : header) : Z := get_le 8 m 0x90.
Definition vd_total_size (m : header) : Z := get_le 8 m 0xC0.
Definition vd_icrc_sect (m : header) (i : Z) : Z := get_le 4 m (0x1E0 + 4 * i).
Definition vd_volu_loff (m : header) (i : Z) : Z := get_le 8 m (0xE00 + 8 * i).
Definition vd_icrc_volheader (m : header) : Z := get_le 4 m 0xFFFC.
Definition vd_set_mirror_tid (m : header) (tid : Z) : header := put_le 8 m 0x78 tid.
Definition vd_set_freemap_tid (m : header) (tid : Z) : header := put_le 8 m 0x90 tid.

Section Crc.
Context (crc : list Z -> Z).

(** The CRCs in the order the flush computes them: each later one covers those
    before. *)
Definition voldata_seal (m : header) : header :=
  let m := put_le 4 m (0x1E0 + 4 * 6) (crc (bytes_at m 512 512)) in
  let m := put_le 4 m (0x1E0 + 4 * 7) (crc (bytes_at m 0 (512 - 4))) in
  put_le 4 m 0xFFFC (crc (bytes_at m 0 (65536 - 4))).

Definition header_valid (m : header) : bool :=
  (vd_magic m =? HAMMER2_VOLUME_ID_HBO) &&
  (vd_icrc_sect m 7 =? crc (bytes_at m 0 (512 - 4))) &&
  (vd_icrc_sect m 6 =? crc (bytes_at m 512 512)) &&
  (vd_icrc_volheader m =? crc (bytes_at m 0 (65536 - 4))).

(** ** Reading it *)

(** [media] has the block of each header, [None] where it cannot be read. *)
Fixpoint read_headers (media : Z -> option header) (mediasize : Z) (n : nat) (i : Z) (best : option (Z * header))
    : option (Z * header) :=
  match n with
  | O => best
  | S n =>
      let best :=
        if mediasize <=? i * HAMMER2_ZONE_BYTES64 then best
        else
          match media i with
          | None => best
          | Some vd =>
              if negb (header_valid vd) then best
              else
                match best with
                | None => Some (i, vd)
                | Some (_, voldata) => if vd_mirror_tid voldata <? vd_mirror_tid vd then Some (i, vd) else best
                end
          end in
      read_headers media mediasize n (i + 1) best
  end.

(** The zone and the header; [None] is -EINVAL. *)
Definition hammer2_read_volume_header (media : Z -> option header) (mediasize : Z) : option (Z * header) :=
  read_headers media mediasize (Z.to_nat HAMMER2_NUM_VOLHDRS) 0 None.

(** ** The volumes of a mount *)

(** A device given to the mount. *)
Record hammer2_devvp := mkDevvp { dp_file : Z; dp_media : Z -> option header; dp_size : Z }.

Record volume := mkVol { vl_dev : option hammer2_devvp; vl_id : Z; vl_offset : Z; vl_size : Z }.

Definition EINVAL : Z := 22.
Definition ENXIO : Z := 6.
Definition vol_none : volume := mkVol None (-1) (2 ^ 64 - 1) (2 ^ 64 - 1).
Definition vol_at (vs : list volume) (i : Z) : volume := aget vol_none vs i.

(** The type uuid as it is in memory. *)
Definition hammer2_fstype_uuid : list Z :=
  [0xd1; 0x9a; 0xbb; 0x5c; 0x2d; 0x86; 0xdc; 0x11; 0xa9; 0x4d; 0x01; 0x30; 0x1b; 0xb8; 0xa9; 0xf5].

Definition vol_used (v : volume) : bool := negb (vl_id v =? -1).

Definition volume_ok (v : volume) : bool :=
  match vl_dev v with
  | None => false
  | Some e =>
      negb (vl_offset v =? 2 ^ 64 - 1) && negb (vl_size v =? 2 ^ 64 - 1) &&
      (vl_size v <=? dp_size e) && negb (vl_size v =? 0)
  end.

Definition hammer2_verify_volumes_common (vs : list volume) (root : header) : bool :=
  (vd_volu_id root =? 0) && bool_decide (vd_fstype root = hammer2_fstype_uuid) &&
  forallb (fun v => negb (vol_used v) || volume_ok v) vs.

Definition hammer2_verify_volumes_1 (vs : list volume) (root : header) : bool :=
  let vol := vol_at vs 0 in
  (countb vol_used vs =? 1) && (vd_nvolumes root =? 0) && (vd_total_size root =? 0) &&
  forallb (fun i => vd_volu_loff root i =? 0) (seqZ 0 HAMMER2_MAX_VOLUMES) &&
  (vl_id vol =? 0) && (vl_offset vol =? 0) && negb (has (vl_size vol) HAMMER2_VOLUME_ALIGNMASK64).

(** The loop over the volumes of a set. *)
Definition volume_ok_2 (vs : list volume) (root : header) (i : Z) : bool :=
  let vol := vol_at vs i in
  let prev := vol_at vs (i - 1) in
  negb (has (vl_offset vol) HAMMER2_FREEMAP_LEVEL1_MASK) &&
  (if nz i then (vl_id prev <? vl_id vol) && (vl_offset vol =? u64 (vl_offset prev + vl_size prev))
   else vl_offset vol =? 0) &&
  (if negb (i =? vd_nvolumes root - 1)
   then (HAMMER2_FREEMAP_LEVEL1_SIZE <=? vl_size vol) && negb (has (vl_size vol) HAMMER2_FREEMAP_LEVEL1_MASK)
   else negb (has (vl_size vol) HAMMER2_VOLUME_ALIGNMASK64)).

Definition hammer2_verify_volumes_2 (vs : list volume) (root : header) : bool :=
  let nvolumes := countb vol_used vs in
  let total_size := foldl (fun t v => if vol_used v then u64 (t + vl_size v) else t) 0 vs in
  (vd_nvolumes root =? nvolumes) && (vd_total_size root =? total_size) &&
  forallb (fun i => negb (vd_volu_loff root i =? 2 ^ 64 - 1)) (seqZ 0 nvolumes) &&
  forallb (fun i => vd_volu_loff root i =? 2 ^ 64 - 1) (seqZ nvolumes (HAMMER2_MAX_VOLUMES - nvolumes)) &&
  forallb (fun i => negb (vol_used (vol_at vs i)) || volume_ok_2 vs root i) (seqZ 0 HAMMER2_MAX_VOLUMES).

Definition hammer2_verify_volumes (vs : list volume) (root : header) : Z :=
  if negb (hammer2_verify_volumes_common vs root) then EINVAL
  else if HAMMER2_VOL_VERSION_MULTI_VOLUMES <=? vd_version root
  then if hammer2_verify_volumes_2 vs root then 0 else EINVAL
  else if hammer2_verify_volumes_1 vs root then 0 else EINVAL.

(** What hammer2_init_volumes() fills in: the table, the header of the root volume,
    its zone and device, and the header that the others have to agree with. *)
Record mount_state := mkMount {
  ms_volumes : list volume;
  ms_root : header;
  ms_zone : Z;
  ms_file : option Z;
  ms_first : option header
}.

Definition mount_init : mount_state :=
  mkMount (replicate (Z.to_nat HAMMER2_MAX_VOLUMES) vol_none) (fun _ => 0) 0 None None.

(** The error for a header that is not like the first. *)
Definition init_mismatch (first voldata : header) : bool :=
  negb (i32 (vd_version first) =? i32 (vd_version voldata)) || negb (vd_nvolumes first =? vd_nvolumes voldata) ||
  negb (bool_decide (vd_fsid first = vd_fsid voldata)) || negb (bool_decide (vd_fstype first = vd_fstype voldata)).

(** A round of the loop over the devices: [inr] the error.  [None]: the assertion
    that there is one root. *)
Definition init_volume (s : mount_state) (e : hammer2_devvp) : option (mount_state + Z) :=
  match hammer2_read_volume_header (dp_media e) (dp_size e) with
  | None => Some (inr EINVAL)
  | Some (zone, voldata) =>
      let id := vd_volu_id voldata in
      if HAMMER2_MAX_VOLUMES <=? id then Some (inr EINVAL)
      else if vol_used (vol_at (ms_volumes s) id) then Some (inr EINVAL)
      else
        let first := default voldata (ms_first s) in
        let v := i32 (vd_version first) in
        if init_mismatch first voldata then Some (inr ENXIO)
        else if (v <? HAMMER2_VOL_VERSION_MIN) || (HAMMER2_VOL_VERSION_WIP <? v) then Some (inr EINVAL)
        else
          let vs := aset (ms_volumes s) id (mkVol (Some e) id (vd_volu_loff voldata id) (vd_volu_size voldata)) in
          if id =? 0 then
            match ms_file s with
            | Some _ => None
            | None => Some (inl (mkMount vs voldata zone (Some (dp_file e)) (Some first)))
            end
          else Some (inl (mkMount vs (ms_root s) (ms_zone s) (ms_file s) (Some first)))
  end.

Fixpoint init_devices (s : mount_state) (l : list hammer2_devvp) : option (mount_state * Z) :=
  match l with
  | [] => Some (s, 0)
  | e :: l =>
      match init_volume s e with
      | None => None
      | Some (inr error) => Some (s, error)
      | Some (inl s) => init_devices s l
      end
  end.

Definition hammer2_init_volumes (l : list hammer2_devvp) : option (mount_state * Z) :=
  '(s, error) ← init_devices mount_init l;
  if nz error then Some (s, error)
  else if vd_version (ms_root s) =? 0 then Some (s, EINVAL)
  else Some (s, hammer2_verify_volumes (ms_volumes s) (ms_root s)).

End Crc.

(** ** The device in memory *)

(** A block device under the file system. *)
Record bdev := mkBdev {
  bd_dirty : bool;              (* blocks in the page cache that are not written *)
  bd_volatile : bool;           (* blocks in the write cache of the device *)
  bd_lost : bool                (* blocks whose write failed *)
}.

(** vchain or fchain: [flags] and [bref.mirror_tid]. *)
Record root_chain := mkRoot { rc_flags : Z; rc_tid : Z }.
Inductive root := Vchain | Fchain.

(** What the flush of the volume header uses of [hammer2_dev_t].  [hv_media] has the
    blocks of the headers on the device of the root volume, [hv_rootdev] its place in
    [devvp_list], [hv_iroot_blockset] is [pfs_iroot_blocksets[clindex]]. *)
Record hdev := mkHdev {
  hv_voldata : header;
  hv_volsync : header;
  hv_volhdrno : Z;
  hv_vchain : root_chain;
  hv_fchain : root_chain;
  hv_chain_modified : Z;        (* hammer2_count_chain_modified *)
  hv_pmp : option pfs;          (* vchain.pmp, which is spmp *)
  hv_trans : Z;                 (* spmp->trans.flags *)
  hv_iroot_blockset : list hammer2_blockref;
  hv_devs : list bdev;
  hv_rootdev : nat;
  hv_media : Z -> header;
  hv_device_error : bool        (* hpanic() was called *)
}.

Definition hv_with_voldata (h : hdev) (m : header) : hdev :=
  mkHdev m (hv_volsync h) (hv_volhdrno h) (hv_vchain h) (hv_fchain h) (hv_chain_modified h) (hv_pmp h) (hv_trans h)
    (hv_iroot_blockset h) (hv_devs h) (hv_rootdev h) (hv_media h) (hv_device_error h).
Definition hv_with_volsync (h : hdev) (m : header) : hdev :=
  mkHdev (hv_voldata h) m (hv_volhdrno h) (hv_vchain h) (hv_fchain h) (hv_chain_modified h) (hv_pmp h) (hv_trans h)
    (hv_iroot_blockset h) (hv_devs h) (hv_rootdev h) (hv_media h) (hv_device_error h).
Definition hv_with_root (h : hdev) (r : root) (c : root_chain) : hdev :=
  mkHdev (hv_voldata h) (hv_volsync h) (hv_volhdrno h) (match r with Vchain => c | Fchain => hv_vchain h end)
    (match r with Vchain => hv_fchain h | Fchain => c end) (hv_chain_modified h) (hv_pmp h) (hv_trans h)
    (hv_iroot_blockset h) (hv_devs h) (hv_rootdev h) (hv_media h) (hv_device_error h).
Definition hv_with_counts (h : hdev) (n : Z) (p : option pfs) : hdev :=
  mkHdev (hv_voldata h) (hv_volsync h) (hv_volhdrno h) (hv_vchain h) (hv_fchain h) n p (hv_trans h)
    (hv_iroot_blockset h) (hv_devs h) (hv_rootdev h) (hv_media h) (hv_device_error h).
Definition hv_with_trans (h : hdev) (f : Z) : hdev :=
  mkHdev (hv_voldata h) (hv_volsync h) (hv_volhdrno h) (hv_vchain h) (hv_fchain h) (hv_chain_modified h) (hv_pmp h) f
    (hv_iroot_blockset h) (hv_devs h) (hv_rootdev h) (hv_media h) (hv_device_error h).
Definition hv_with_iroot (h : hdev) (l : list hammer2_blockref) : hdev :=
  mkHdev (hv_voldata h) (hv_volsync h) (hv_volhdrno h) (hv_vchain h) (hv_fchain h) (hv_chain_modified h) (hv_pmp h)
    (hv_trans h) l (hv_devs h) (hv_rootdev h) (hv_media h) (hv_device_error h).
Definition hv_with_devs (h : hdev) (l : list bdev) : hdev :=
  mkHdev (hv_voldata h) (hv_volsync h) (hv_volhdrno h) (hv_vchain h) (hv_fchain h) (hv_chain_modified h) (hv_pmp h)
    (hv_trans h) (hv_iroot_blockset h) l (hv_rootdev h) (hv_media h) (hv_device_error h).
Definition hv_with_slot (h : hdev) (j : Z) (m : header) : hdev :=
  mkHdev (hv_voldata h) (hv_volsync h) (hv_volhdrno h) (hv_vchain h) (hv_fchain h) (hv_chain_modified h) (hv_pmp h)
    (hv_trans h) (hv_iroot_blockset h) (hv_devs h) (hv_rootdev h) (fun i => if i =? j then m else hv_media h i)
    (hv_device_error h).
Definition hv_with_volhdrno (h : hdev) (j : Z) : hdev :=
  mkHdev (hv_voldata h) (hv_volsync h) j (hv_vchain h) (hv_fchain h) (hv_chain_modified h) (hv_pmp h)
    (hv_trans h) (hv_iroot_blockset h) (hv_devs h) (hv_rootdev h) (hv_media h) (hv_device_error h).

Definition hv_root (h : hdev) (r : root) : root_chain := match r with Vchain => hv_vchain h | Fchain => hv_fchain h end.
Definition root_set (h : hdev) (r : root) (f : Z) : hdev :=
  hv_with_root h r (mkRoot (rc_flags (hv_root h r) ||| f) (rc_tid (hv_root h r))).
Definition root_clear (h : hdev) (r : root) (f : Z) : hdev :=
  hv_with_root h r (mkRoot (rc_flags (hv_root h r) &~ f) (rc_tid (hv_root h r))).
Definition root_has (h : hdev) (r : root) (f : Z) : bool := has (rc_flags (hv_root h r)) f.

(** The device after a mount that took the header [m] of a zone: nothing is modified,
    and no transaction is open. *)
Definition mount_device (zone : Z) (m : header) (modified : Z) (pmp : option pfs) (devs : list bdev) (rootdev : nat)
    (media : Z -> header) : hdev :=
  mkHdev m m zone (mkRoot 0 (vd_mirror_tid m)) (mkRoot 0 (vd_freemap_tid m)) modified pmp 0 [] devs rootdev media false.

Definition hammer2_voldata_modify (h : hdev) : hdev :=
  if root_has h Vchain HAMMER2_CHAIN_MODIFIED then h
  else
    let h := hv_with_counts h (i32 (hv_chain_modified h + 1)) (hammer2_pfs_memory_inc (hv_pmp h)) in
    hv_with_root h Vchain
      (mkRoot (rc_flags (hv_vchain h) ||| HAMMER2_CHAIN_MODIFIED) (u64 (vd_mirror_tid (hv_voldata h) + 1))).

(** ** The flush *)

Definition HAMMER2_FLUSH_TOP : Z := 0x0001.
Definition HAMMER2_FLUSH_INODE_STOP : Z := 0x0004.
Definition HAMMER2_FLUSH_FSSYNC : Z := 0x0008.
Definition HAMMER2_XOP_INODE_STOP : Z := 0x00000004.
Definition HAMMER2_XOP_VOLHDR : Z := 0x00000008.
Definition HAMMER2_XOP_FSSYNC : Z := 0x00000010.

(** The flushes whose work is outside of this file: that of the chain of the inode
    with the marks above it, that of the super root, and the children of a root. *)
Inductive flush_point := FlushInode | FlushSroot | FlushBelow (r : root).

(** The results of the block layer in one call: of sync_blockdev() on each device,
    of blkdev_issue_flush(), of read_mapping_folio() (a folio that is too small is
    EIO) and of the write, with what the block has when it failed. *)
Record flush_io := mkFio {
  io_writeback : nat -> errno;
  io_cache_flush : errno;
  io_folio : errno;
  io_write : errno;
  io_torn : header
}.

(** The operation: the flags of the XOP, the flags of the chain of its inode if it
    has one on this device, whether the inode is the root of a PFS other than spmp,
    and whether an element before is on the same device. *)
Record flush_arg := mkFarg {
  fa_flags : Z;
  fa_chain : option Z;
  fa_iroot : bool;
  fa_twice : bool
}.

(** The device after, the error that is fed, and the header that was written with
    the state of the devices at that time. *)
Record flush_result := mkFres { fl_dev : hdev; fl_error : Z; fl_write : option (Z * list bdev) }.

Definition failed (e : errno) : bool := negb (bool_decide (e = E0)).

Section Flush.
Context (crc : list Z -> Z) (limit_chains limit_inodes : Z).
Context (below : flush_point -> Z -> hdev -> hdev * Z) (inode_blockset : hdev -> list hammer2_blockref).

(** hammer2_flush_core() on a chain that is modified, by type. *)
Definition flush_freemap (h : hdev) : option hdev :=
  if negb (root_has h Vchain HAMMER2_CHAIN_MODIFIED) then None
  else
    let m := vd_set_freemap_tid (hv_voldata h) (rc_tid (hv_fchain h)) in
    Some (hv_with_voldata h (vd_set_mirror_tid m (u64 (vd_mirror_tid m + 1)))).

Definition flush_volume (h : hdev) : hdev :=
  let m := hv_voldata h in
  let tid := rc_tid (hv_vchain h) in
  let m := if vd_mirror_tid m <? tid then vd_set_mirror_tid m tid else m in
  let m := voldata_seal crc m in
  root_set (hv_with_volsync (hv_with_voldata h m) m) Vchain HAMMER2_CHAIN_VOLUMESYNC.

(** The recursion, a second time where it marked the chain again. *)
Definition flush_scan (h : hdev) (r : root) (flags : Z) : hdev * Z :=
  let h := root_clear h r HAMMER2_CHAIN_ONFLUSH in
  let '(h, error) := below (FlushBelow r) flags h in
  let '(h, error) :=
    if root_has h r HAMMER2_CHAIN_ONFLUSH then
      let '(h, error') := below (FlushBelow r) flags (root_clear h r HAMMER2_CHAIN_ONFLUSH) in (h, error ||| error')
    else (h, error) in
  (if nz error then root_set h r HAMMER2_CHAIN_ONFLUSH else h, error).

(** hammer2_flush() on a chain without a parent. *)
Definition flush_root (h : hdev) (r : root) (flags : Z) : option (hdev * Z) :=
  if negb (root_has h r HAMMER2_CHAIN_FLUSH_MASK) then Some (h, 0)
  else
    let '(h, error) :=
      if root_has h r (HAMMER2_CHAIN_ONFLUSH ||| HAMMER2_CHAIN_DESTROY)
      then flush_scan h r (flags &~ HAMMER2_FLUSH_TOP) else (h, 0) in
    h ← (if root_has h r HAMMER2_CHAIN_MODIFIED then
           let h := root_clear h r HAMMER2_CHAIN_MODIFIED in
           let h := hv_with_counts h (i32 (hv_chain_modified h - 1))
                      (hammer2_pfs_memory_wakeup limit_chains limit_inodes (hv_pmp h) (-1)) in
           match r with Fchain => flush_freemap h | Vchain => Some (flush_volume h) end
         else Some h);
    Some (root_clear h r HAMMER2_CHAIN_UPDATE, error).

(** The roots: the super root, the freemap and the volume. *)
Definition flush_roots (h : hdev) : option (hdev * Z) :=
  let '(h, e0) := below FlushSroot (HAMMER2_FLUSH_TOP ||| HAMMER2_FLUSH_INODE_STOP ||| HAMMER2_FLUSH_FSSYNC) h in
  '(h, e1) ← (if root_has h Fchain HAMMER2_CHAIN_FLUSH_MASK
              then flush_root (hammer2_voldata_modify h) Fchain HAMMER2_FLUSH_TOP else Some (h, 0));
  '(h, e2) ← flush_root h Vchain HAMMER2_FLUSH_TOP;
  Some (h, e0 ||| e1 ||| e2).

(** sync_blockdev() and blkdev_issue_flush(). *)
Definition dev_writeback (e : errno) (d : bdev) : bdev :=
  if failed e then mkBdev false (bd_volatile d || bd_dirty d) true
  else mkBdev false (bd_volatile d || bd_dirty d) (bd_lost d).
Definition dev_cache_flush (e : errno) (d : bdev) : bdev :=
  if failed e then d else mkBdev (bd_dirty d) false (bd_lost d).

(** The loop over the devices: [fsync_error] is that of the last one. *)
Fixpoint write_devices (wb : nat -> errno) (i : nat) (l : list bdev) (fsync_error : errno) : list bdev * errno :=
  match l with
  | [] => ([], fsync_error)
  | d :: l =>
      let '(l, fsync_error) := write_devices wb (S i) l (wb i) in (dev_writeback (wb i) d :: l, fsync_error)
  end.

(** The header to be written. *)
Definition volhdr_next (h : hdev) : Z :=
  let j := hv_volhdrno h + 1 in
  let j := if j <? 0 then 0 else j in
  let j := if HAMMER2_NUM_VOLHDRS <=? j then 0 else j in
  if vd_volu_size (hv_volsync h) <? j * HAMMER2_ZONE_BYTES64 + HAMMER2_SEGSIZE then 0 else j.

(** The header goes through the page cache of the device, and the call waits. *)
Definition write_header (io : flush_io) (h : hdev) (j : Z) : hdev * errno :=
  let h := root_clear h Vchain HAMMER2_CHAIN_VOLUMESYNC in
  let '(h, vol_error) :=
    if failed (io_folio io) then (h, io_folio io)
    else if failed (io_write io) then (hv_with_slot h j (io_torn io), io_write io)
    else
      (hv_with_devs (hv_with_slot h j (hv_volsync h))
         (alter (fun d => mkBdev (bd_dirty d) true (bd_lost d)) (hv_rootdev h) (hv_devs h)), E0) in
  (hv_with_volhdrno h j, vol_error).

(** The devices and then the header: [fsync_error] and what was written. *)
Definition flush_header (io : flush_io) (h : hdev) (flush_error : Z) : hdev * errno * option (Z * list bdev) :=
  let '(devs, fsync_error) := write_devices (io_writeback io) 0 (hv_devs h) E0 in
  let h := hv_with_devs h devs in
  if negb (failed fsync_error) && (flush_error =? 0) && negb (hv_device_error h) &&
     root_has h Vchain HAMMER2_CHAIN_VOLUMESYNC
  then
    let fsync_error := io_cache_flush io in
    let h := hv_with_devs h (alter (dev_cache_flush (io_cache_flush io)) (hv_rootdev h) (hv_devs h)) in
    let j := volhdr_next h in
    let devs := hv_devs h in
    let '(h, vol_error) := write_header io h j in
    (h, if failed vol_error then vol_error else fsync_error, Some (j, devs))
  else (h, fsync_error, None).

(** The inode's own chain: the device after, and whether it is the root of a PFS. *)
Definition flush_inode (a : flush_arg) (h : hdev) : hdev * bool :=
  match fa_chain a with
  | None => (h, false)
  | Some flags =>
      let xflags :=
        HAMMER2_FLUSH_TOP |||
        (if has (fa_flags a) HAMMER2_XOP_INODE_STOP then HAMMER2_FLUSH_INODE_STOP else 0) |||
        (if has (fa_flags a) HAMMER2_XOP_FSSYNC then HAMMER2_FLUSH_FSSYNC else 0) in
      let h :=
        if has flags HAMMER2_CHAIN_FLUSH_MASK then
          let '(h, _) := below FlushInode xflags h in
          if fa_iroot a then hv_with_iroot h (inode_blockset h) else h
        else h in
      (h, has flags HAMMER2_CHAIN_PFSBOUNDARY)
  end.

(** [None]: a failed assertion, or the wait for another flush of spmp. *)
Definition hammer2_xop_inode_flush (io : flush_io) (a : flush_arg) (h : hdev) : option flush_result :=
  let '(h, ispfsroot) := flush_inode a h in
  if negb (has (fa_flags a) HAMMER2_XOP_VOLHDR) || negb ispfsroot || fa_twice a then Some (mkFres h 0 None)
  else
    let '(trans, waits) := Trans.hammer2_trans_init (hv_trans h) Trans.HAMMER2_TRANS_ISFLUSH in
    if waits then None
    else
      '(h, flush_error) ← flush_roots (hv_with_trans h trans);
      let '(h, fsync_error, written) := flush_header io h flush_error in
      let total_error := if nz flush_error then flush_error else 0 in
      let total_error := if failed fsync_error then hammer2_errno_to_error fsync_error else total_error in
      '(trans, _) ← Trans.hammer2_trans_done (hv_trans h) Trans.HAMMER2_TRANS_ISFLUSH;
      Some (mkFres (hv_with_trans h trans) total_error written).

End Flush.
