(* ===== verification/VolumeProof.v ===== *)
(** Theorems on volumes: a header that is sealed is valid, a mount takes the newest
    valid header, and the flush writes headers so that a crash leaves one; what the
    flush has waited for when it writes one, and what it has not. *)
From S2P Require Import Prelude Disk Subr BlockTable Indirect ChainCreate ChainData Trans Volume.
From Stdlib Require Import ZArith Lia Bool.
From stdpp Require Import base list relations.
Import Errno.
Open Scope Z_scope.

(** ** Fields *)

Lemma get_le_ext n m m' off : (forall x, off <= x < off + Z.of_nat n -> m' x = m x) -> get_le n m' off = get_le n m off.
Proof.
  revert off. induction n as [|n IH]; intros off H; [done|]. cbn [get_le]. rewrite H, IH; [done| |lia].
  intros x Hx. apply H. lia.
Qed.

Lemma bytes_at_ext m m' off n : (forall x, off <= x < off + n -> m' x = m x) -> bytes_at m' off n = bytes_at m off n.
Proof.
  unfold bytes_at. intros H. assert (Hn : forall x, off <= x < off + Z.of_nat (Z.to_nat n) -> m' x = m x) by (intros x Hx; apply H; lia).
  clear H. revert off Hn. induction (Z.to_nat n) as [|k IH]; intros off Hn; [done|]. cbn [bytes_from].
  rewrite Hn, IH; [done| |lia]. intros x Hx. apply Hn. lia.
Qed.

Lemma put_outside n m off v x : x < off \/ off + n <= x -> put_le n m off v x = m x.
Proof. intros H. unfold put_le. destruct (Z.leb_spec off x), (Z.ltb_spec x (off + n)); cbn; try done; lia. Qed.

Lemma get_put_at n m off v k i : 0 <= i -> i + Z.of_nat k <= n ->
  get_le k (put_le n m off v) (off + i) = Z.shiftr v (8 * i) mod 2 ^ (8 * Z.of_nat k).
Proof.
  revert i. induction k as [|k IH]; intros i Hi Hn; [by rewrite Z.mod_1_r|]. cbn [get_le].
  replace (off + i + 1) with (off + (i + 1)) by lia. rewrite IH by lia.
  unfold put_le. destruct (Z.leb_spec off (off + i)), (Z.ltb_spec (off + i) (off + n)); try lia. cbn [andb].
  replace (off + i - off) with i by lia. rewrite !Z.shiftr_div_pow2 by lia. replace (8 * (i + 1)) with (8 * i + 8) by lia.
  rewrite Z.pow_add_r by lia. rewrite <- Z.div_div by (try apply Z.pow_nonzero; lia). set (y := v / 2 ^ (8 * i)).
  replace (8 * Z.of_nat (S k)) with (8 + 8 * Z.of_nat k) by lia. rewrite Z.pow_add_r by lia.
  change (2 ^ 8) with 256. assert (0 < 2 ^ (8 * Z.of_nat k)) by (apply Z.pow_pos_nonneg; lia).
  rewrite Z.rem_mul_r by lia. lia.
Qed.

Lemma get_put k m off v : 0 <= v < 2 ^ (8 * Z.of_nat k) -> get_le k (put_le (Z.of_nat k) m off v) off = v.
Proof.
  intros Hv. assert (H := get_put_at (Z.of_nat k) m off v k 0). rewrite !Z.add_0_r in H. rewrite H by lia.
  rewrite Z.mul_0_r, Z.shiftr_0_r. by apply Z.mod_small.
Qed.

(** A field elsewhere. *)
Lemma get_put_other k n m off v o : o + Z.of_nat k <= off \/ off + n <= o -> get_le k (put_le n m off v) o = get_le k m o.
Proof. intros H. apply get_le_ext. intros x Hx. apply put_outside. lia. Qed.
Lemma bytes_put_other n m off v o k : o + k <= off \/ off + n <= o ->
  bytes_at (put_le n m off v) o k = bytes_at m o k.
Proof. intros H. apply bytes_at_ext. intros x Hx. apply put_outside. lia. Qed.

Section Crc.
Context (crc : list Z -> Z).
Hypothesis crc_u32 : forall l, is_u32 (crc l).

(** What sealing leaves alone. *)
Lemma seal_field k m o : o + Z.of_nat k <= 504 \/ (512 <= o /\ o + Z.of_nat k <= 65532) ->
  get_le k (voldata_seal crc m) o = get_le k m o.
Proof. intros H. unfold voldata_seal. rewrite !get_put_other by lia. done. Qed.

Lemma seal_valid m : vd_magic m = HAMMER2_VOLUME_ID_HBO -> header_valid crc (voldata_seal crc m) = true.
Proof.
  intros Hm. unfold header_valid, vd_magic in *. rewrite seal_field by lia. rewrite Hm.
  unfold voldata_seal, vd_icrc_sect, vd_icrc_volheader.
  set (m1 := put_le 4 m _ _). set (m2 := put_le 4 m1 _ _). set (m3 := put_le 4 m2 _ _).
  assert (E7 : get_le 4 m3 (0x1E0 + 4 * 7) = crc (bytes_at m1 0 (512 - 4))).
  { unfold m3. rewrite get_put_other by lia. apply (get_put 4), crc_u32. }
  assert (E6 : get_le 4 m3 (0x1E0 + 4 * 6) = crc (bytes_at m 512 512)).
  { unfold m3, m2. rewrite !get_put_other by lia. apply (get_put 4), crc_u32. }
  assert (EV : get_le 4 m3 0xFFFC = crc (bytes_at m2 0 (65536 - 4))) by (apply (get_put 4), crc_u32).
  rewrite E7, E6, EV.
  assert (B0 : bytes_at m3 0 (512 - 4) = bytes_at m1 0 (512 - 4)) by (unfold m3, m2; rewrite !bytes_put_other by lia; done).
  assert (B1 : bytes_at m3 512 512 = bytes_at m 512 512) by (unfold m3, m2, m1; rewrite !bytes_put_other by lia; done).
  assert (BV : bytes_at m3 0 (65536 - 4) = bytes_at m2 0 (65536 - 4)) by (unfold m3; rewrite bytes_put_other by lia; done).
  rewrite B0, B1, BV, !Z.eqb_refl. done.
Qed.

(** ** Reading *)

(** [z] has the newest valid header, the first of equal ones. *)
Definition newest (media : Z -> option header) (size z : Z) (H : header) : Prop :=
  0 <= z < HAMMER2_NUM_VOLHDRS /\ z * HAMMER2_ZONE_BYTES64 < size /\ media z = Some H /\ header_valid crc H = true /\
  forall i X, 0 <= i < HAMMER2_NUM_VOLHDRS -> i * HAMMER2_ZONE_BYTES64 < size -> media i = Some X -> header_valid crc X = true ->
    vd_mirror_tid X <= vd_mirror_tid H /\ (i < z -> vd_mirror_tid X < vd_mirror_tid H).

(** The same among the headers from [a] to [b]. *)
Definition newest_in (media : Z -> option header) (size a b : Z) (best : option (Z * header)) : Prop :=
  match best with
  | None => forall i X, a <= i < b -> i * HAMMER2_ZONE_BYTES64 < size -> media i = Some X -> header_valid crc X = false
  | Some (z, H) =>
      a <= z < b /\ z * HAMMER2_ZONE_BYTES64 < size /\ media z = Some H /\ header_valid crc H = true /\
      forall i X, a <= i < b -> i * HAMMER2_ZONE_BYTES64 < size -> media i = Some X -> header_valid crc X = true ->
        vd_mirror_tid X <= vd_mirror_tid H /\ (i < z -> vd_mirror_tid X < vd_mirror_tid H)
  end.

(** A slot more that is not better. *)
Lemma newest_skip media size i best : newest_in media size 0 i best ->
  (forall X, i * HAMMER2_ZONE_BYTES64 < size -> media i = Some X -> header_valid crc X = true ->
     match best with Some (_, H) => vd_mirror_tid X <= vd_mirror_tid H | None => False end) ->
  0 <= i -> newest_in media size 0 (i + 1) best.
Proof.
  intros Hb Hi H0. destruct best as [[z H]|]; unfold newest_in in *.
  - destruct Hb as (B1 & B2 & B3 & B4 & B5). split_and!; try done; try lia. intros k X Hk Hs Hm Hv.
    destruct (Z.eq_dec k i) as [->|Hne]; [|by apply (B5 k); [lia|..]]. split; [by apply Hi|lia].
  - intros k X Hk Hs Hm. destruct (Z.eq_dec k i) as [->|Hne]; [|by apply (Hb k); [lia|..]].
    destruct (header_valid crc X) eqn:Ev; [|done]. by destruct (Hi X).
Qed.

Lemma read_headers_spec media size n i best : 0 <= i -> newest_in media size 0 i best ->
  newest_in media size 0 (i + Z.of_nat n) (read_headers crc media size n i best).
Proof.
  revert i best. induction n as [|n IH]; intros i best Hi Hb; [by rewrite Z.add_0_r|]. cbn [read_headers].
  replace (i + Z.of_nat (S n)) with ((i + 1) + Z.of_nat n) by lia. apply IH; [lia|].
  destruct (Z.leb_spec size (i * HAMMER2_ZONE_BYTES64)) as [Hs|Hs]; [apply newest_skip; [done| |done]; lia|].
  destruct (media i) as [vd|] eqn:Em; [|apply newest_skip; [done| |done]; congruence].
  destruct (header_valid crc vd) eqn:Ev; cbn [negb].
  2:{ apply newest_skip; [done| |done]. intros X _. rewrite Em. intros [= <-]. congruence. }
  destruct best as [[z H]|].
  - destruct (Z.ltb_spec (vd_mirror_tid H) (vd_mirror_tid vd)) as [Ht|Ht].
    + destruct Hb as (B1 & B2 & B3 & B4 & B5). unfold newest_in. split_and!; try done; try lia. intros k X Hk Hsk Hm Hv.
      destruct (Z.eq_dec k i) as [->|Hne]; [rewrite Em in Hm; injection Hm as <-; lia|].
      destruct (B5 k X) as [B6 _]; [lia|done..|]. lia.
    + apply newest_skip; [done| |done]. intros X _. rewrite Em. intros [= <-] _. lia.
  - unfold newest_in. split_and!; try done; try lia. intros k X Hk Hsk Hm Hv.
    destruct (Z.eq_dec k i) as [->|Hne]; [rewrite Em in Hm; injection Hm as <-; lia|].
    unfold newest_in in Hb. rewrite (Hb k X) in Hv by (done || lia). done.
Qed.

Lemma read_spec media size : newest_in media size 0 HAMMER2_NUM_VOLHDRS (hammer2_read_volume_header crc media size).
Proof. apply (read_headers_spec media size 4 0 None); [lia|]. cbn. lia. Qed.

Lemma read_newest media size z H : hammer2_read_volume_header crc media size = Some (z, H) <-> newest media size z H.
Proof.
  assert (Hr := read_spec media size). split; [intros E; rewrite E in Hr; exact Hr|].
  intros (N1 & N2 & N3 & N4 & N5). destruct (hammer2_read_volume_header crc media size) as [[z' H']|]; unfold newest_in in Hr.
  - destruct Hr as (R1 & R2 & R3 & R4 & R5). destruct (N5 z' H') as [A1 A2]; [done..|].
    destruct (R5 z H) as [B1 B2]; [done..|]. assert (z = z') as <-.
    { destruct (Z.lt_total z z') as [|[|]]; [|done|]; [specialize (B2 ltac:(done)); lia|specialize (A2 ltac:(done)); lia]. }
    rewrite N3 in R3. injection R3 as ->. done.
  - by rewrite (Hr z H) in N4.
Qed.
End Crc.

(** ** The invariant of a device *)

Abbreviation tid_of := vd_mirror_tid.

(** What the rest of the file system does to the device between and below the
    flushes of its roots: it changes the header in memory but for its magic, its size
    and its transaction id; when it marks vchain as modified it gives it the next
    transaction id, as hammer2_chain_modify() and hammer2_voldata_modify() do; it
    takes no mark away; and it writes blocks.  A volume that is grown by an ioctl is
    not covered. *)
Record keeps (h h' : hdev) : Prop := {
  kp_volsync : hv_volsync h' = hv_volsync h;
  kp_volhdrno : hv_volhdrno h' = hv_volhdrno h;
  kp_media : hv_media h' = hv_media h;
  kp_trans : hv_trans h' = hv_trans h;
  kp_rootdev : hv_rootdev h' = hv_rootdev h;
  kp_magic : vd_magic (hv_voldata h') = vd_magic (hv_voldata h);
  kp_size : vd_volu_size (hv_voldata h') = vd_volu_size (hv_voldata h);
  kp_tid : tid_of (hv_voldata h') = tid_of (hv_voldata h);
  kp_sync : root_has h' Vchain HAMMER2_CHAIN_VOLUMESYNC = root_has h Vchain HAMMER2_CHAIN_VOLUMESYNC;
  kp_set : root_has h Vchain HAMMER2_CHAIN_MODIFIED = true -> root_has h' Vchain HAMMER2_CHAIN_MODIFIED = true;
  kp_stamp : root_has h' Vchain HAMMER2_CHAIN_MODIFIED = true ->
    (root_has h Vchain HAMMER2_CHAIN_MODIFIED = true /\ rc_tid (hv_vchain h') = rc_tid (hv_vchain h)) \/
    rc_tid (hv_vchain h') = u64 (tid_of (hv_voldata h) + 1);
  kp_lost : bd_lost <$> hv_devs h' = bd_lost <$> hv_devs h
}.

Lemma keeps_refl h : keeps h h.
Proof. split; try done. intros H. by left. Qed.

Lemma keeps_after h1 h2 h3 : keeps h1 h2 -> keeps h2 h3 -> keeps h1 h3.
Proof.
  intros [A1 A2 A3 A4 A5 A6 A7 A8 A9 A10 A11 A12] [B1 B2 B3 B4 B5 B6 B7 B8 B9 B10 B11 B12].
  split; try congruence; [by auto|]. intros H. destruct (B11 H) as [[H2 E]|E].
  - destruct (A11 H2) as [[H1 E1]|E1]; [left; split; congruence|right; congruence].
  - right. congruence.
Qed.

(** The count of transactions does not run out. *)
Definition room (h : hdev) : Prop := 0 <= tid_of (hv_voldata h) < 2 ^ 64 - 2.
Definition ample (h : hdev) : Prop := 0 <= tid_of (hv_voldata h) < 2 ^ 64 - 4.

Section System.
Context (crc : list Z -> Z) (limit_chains limit_inodes : Z).
Context (below : flush_point -> Z -> hdev -> hdev * Z) (inode_blockset : hdev -> list hammer2_blockref).
Context (size : Z).
Hypothesis crc_u32 : forall l, is_u32 (crc l).
Hypothesis below_keeps : forall pt fl h, keeps h (below pt fl h).1.

Abbreviation flush := (hammer2_xop_inode_flush crc limit_chains limit_inodes below inode_blockset).

(** What a mount would take. *)
Definition mounted (h : hdev) : option (Z * header) :=
  hammer2_read_volume_header crc (fun i => Some (hv_media h i)) size.
Definition current (h : hdev) : header := hv_media h (hv_volhdrno h).

Record hdev_inv (h : hdev) : Prop := {
  hi_mounted : mounted h = Some (hv_volhdrno h, current h);
  hi_magic : vd_magic (hv_voldata h) = HAMMER2_VOLUME_ID_HBO;
  hi_size : vd_volu_size (hv_voldata h) = vd_volu_size (hv_volsync h) /\ vd_volu_size (hv_volsync h) <= size;
  hi_tid : tid_of (current h) <= tid_of (hv_volsync h) <= tid_of (hv_voldata h);
  hi_sync : root_has h Vchain HAMMER2_CHAIN_VOLUMESYNC = true ->
    header_valid crc (hv_volsync h) = true /\ tid_of (current h) < tid_of (hv_volsync h);
  hi_mod : root_has h Vchain HAMMER2_CHAIN_MODIFIED = true ->
    tid_of (hv_volsync h) < rc_tid (hv_vchain h) < 2 ^ 64
}.

Lemma keeps_inv h h' : room h -> hdev_inv h -> keeps h h' -> hdev_inv h'.
Proof.
  intros Hr [I1 I2 I3 I4 I5 I6] [K1 K2 K3 K4 K5 K6 K7 K8 K9 K10 K11 K12].
  assert (Ec : current h' = current h) by (unfold current; by rewrite K2, K3).
  split; rewrite ?Ec, ?K1, ?K2, ?K6, ?K7, ?K8, ?K9; try done; [unfold mounted; by rewrite K3|].
  intros H. destruct (K11 H) as [[H1 ->]| ->]; [by apply I6|]. unfold room in Hr. rewrite u64_small; unfold is_u64; lia.
Qed.

Lemma modify_keeps h : keeps h (hammer2_voldata_modify h).
Proof.
  unfold hammer2_voldata_modify. destruct (root_has h Vchain HAMMER2_CHAIN_MODIFIED) eqn:E; [apply keeps_refl|].
  split; try done.
  - unfold root_has. cbn [hv_root hv_with_root hv_vchain rc_flags hv_with_counts]. by rewrite has_lor, orb_false_r.
  - intros _. unfold root_has. cbn [hv_root hv_with_root hv_vchain rc_flags]. rewrite has_lor. apply orb_true_r.
  - intros _. by right.
Qed.

(** Flags of a root that have no part in the header. *)
Lemma clear_keeps h r f : Z.land f (HAMMER2_CHAIN_MODIFIED ||| HAMMER2_CHAIN_VOLUMESYNC) = 0 \/ r = Fchain -> keeps h (root_clear h r f).
Proof.
  intros Hf. assert (He : forall g, Z.land f g = 0 \/ r = Fchain -> root_has (root_clear h r f) Vchain g = root_has h Vchain g).
  { intros g Hg. unfold root_has, root_clear. destruct r; [|done]. cbn. destruct Hg as [Hg|]; [by apply has_clear_other|done]. }
  assert (Hs : forall g, Z.land (HAMMER2_CHAIN_MODIFIED ||| HAMMER2_CHAIN_VOLUMESYNC) g = g -> Z.land f g = 0 \/ r = Fchain).
  { intros g Hg. destruct Hf as [Hf|]; [left|by right]. rewrite <- Hg, Z.land_assoc, Hf. apply Z.land_0_l. }
  split; try done; rewrite ?He by (apply Hs; done); try done. intros H. left. split; [done|]. by destruct r.
Qed.

Lemma set_keeps h r f : Z.land f (HAMMER2_CHAIN_MODIFIED ||| HAMMER2_CHAIN_VOLUMESYNC) = 0 \/ r = Fchain -> keeps h (root_set h r f).
Proof.
  intros Hf. assert (He : forall g, Z.land f g = 0 \/ r = Fchain -> root_has (root_set h r f) Vchain g = root_has h Vchain g).
  { intros g Hg. unfold root_has, root_set. destruct r; [|done]. cbn. destruct Hg as [Hg|]; [|done].
    rewrite has_lor. unfold has at 2. by rewrite Hg, orb_false_r. }
  assert (Hs : forall g, Z.land (HAMMER2_CHAIN_MODIFIED ||| HAMMER2_CHAIN_VOLUMESYNC) g = g -> Z.land f g = 0 \/ r = Fchain).
  { intros g Hg. destruct Hf as [Hf|]; [left|by right]. rewrite <- Hg, Z.land_assoc, Hf. apply Z.land_0_l. }
  split; try done; rewrite ?He by (apply Hs; done); try done. intros H. left. split; [done|]. by destruct r.
Qed.

Lemma counts_keeps h n p : keeps h (hv_with_counts h n p).
Proof. split; try done. intros H. by left. Qed.
Lemma iroot_keeps h l : keeps h (hv_with_iroot h l).
Proof. split; try done. intros H. by left. Qed.

Lemma scan_keeps h r fl : keeps h (flush_scan below h r fl).1.
Proof.
  unfold flush_scan. set (h0 := root_clear h r _). assert (K0 : keeps h h0) by (apply clear_keeps; by left).
  assert (K1 := below_keeps (FlushBelow r) fl h0). destruct (below (FlushBelow r) fl h0) as [h1 e1]. cbn [fst] in K1.
  assert (Hend : forall h2 e, keeps h1 h2 -> keeps h (if nz e then root_set h2 r HAMMER2_CHAIN_ONFLUSH else h2)).
  { intros h2 e K2. apply (keeps_after _ h0); [done|]. apply (keeps_after _ h1); [done|]. apply (keeps_after _ h2); [done|].
    destruct (nz e); [apply set_keeps; by left|apply keeps_refl]. }
  destruct (root_has h1 r HAMMER2_CHAIN_ONFLUSH); [|cbn [fst]; apply Hend, keeps_refl].
  assert (K2 := below_keeps (FlushBelow r) fl (root_clear h1 r HAMMER2_CHAIN_ONFLUSH)).
  destruct (below (FlushBelow r) fl (root_clear h1 r HAMMER2_CHAIN_ONFLUSH)) as [h2 e2]. cbn [fst] in *. apply Hend.
  apply (keeps_after _ (root_clear h1 r HAMMER2_CHAIN_ONFLUSH)); [apply clear_keeps; by left|done].
Qed.

Lemma first_keeps h r fl :
  keeps h (if root_has h r (HAMMER2_CHAIN_ONFLUSH ||| HAMMER2_CHAIN_DESTROY) then flush_scan below h r fl else (h, 0)).1.
Proof. destruct (root_has _ _ _); [apply scan_keeps|apply keeps_refl]. Qed.

(** What no flush of a root changes. *)
Record frame (h h' : hdev) : Prop := {
  fm_volhdrno : hv_volhdrno h' = hv_volhdrno h;
  fm_media : hv_media h' = hv_media h;
  fm_trans : hv_trans h' = hv_trans h;
  fm_rootdev : hv_rootdev h' = hv_rootdev h;
  fm_lost : bd_lost <$> hv_devs h' = bd_lost <$> hv_devs h;
  fm_size : vd_volu_size (hv_voldata h') = vd_volu_size (hv_voldata h)
}.

Lemma keeps_frame h h' : keeps h h' -> frame h h'.
Proof. by intros []. Qed.
Lemma frame_after h1 h2 h3 : frame h1 h2 -> frame h2 h3 -> frame h1 h3.
Proof. intros [] []. split; congruence. Qed.

Lemma set_tid_other k m tid o : o + Z.of_nat k <= 0x78 \/ 0x80 <= o ->
  get_le k (vd_set_mirror_tid m tid) o = get_le k m o.
Proof. intros H. apply get_put_other. lia. Qed.
Lemma set_tid_same m tid : is_u64 tid -> tid_of (vd_set_mirror_tid m tid) = tid.
Proof. intros H. apply (get_put 8), H. Qed.

(** fchain: the transaction id goes up by one. *)
Lemma freemap_ok h : hdev_inv h -> room h -> root_has h Vchain HAMMER2_CHAIN_MODIFIED = true ->
  exists h', flush_freemap h = Some h' /\ hdev_inv h' /\ frame h h' /\ tid_of (hv_voldata h') = tid_of (hv_voldata h) + 1.
Proof.
  intros [I1 I2 I3 I4 I5 I6] Hr Hm. unfold flush_freemap. rewrite Hm. cbn [negb]. set (m := vd_set_freemap_tid _ _).
  assert (Em : forall k o, o + Z.of_nat k <= 0x90 -> get_le k m o = get_le k (hv_voldata h) o).
  { intros k o Ho. apply get_put_other. lia. }
  assert (Et : tid_of m = tid_of (hv_voldata h)) by (apply Em; lia).
  unfold room in Hr. rewrite Et, u64_small by (unfold is_u64; lia). set (m' := vd_set_mirror_tid m _).
  assert (Et' : tid_of m' = tid_of (hv_voldata h) + 1) by (apply set_tid_same; unfold is_u64; lia).
  assert (Es : vd_volu_size m' = vd_volu_size (hv_voldata h)) by (unfold vd_volu_size, m'; rewrite set_tid_other, Em by lia; done).
  assert (Eg : vd_magic m' = vd_magic (hv_voldata h)) by (unfold vd_magic, m'; rewrite set_tid_other, Em by lia; done).
  eexists. split; [done|]. change (current (hv_with_voldata h m')) with (current h) in *.
  split; [|split; [by split|exact Et']].
  split; cbn [hv_with_voldata hv_voldata hv_volsync]; change (current (hv_with_voldata h m')) with (current h);
    rewrite ?Eg, ?Es, ?Et'; try done. lia.
Qed.

(** vchain: the header is sealed with a new transaction id. *)
Lemma volume_sealed h n p : hdev_inv h -> room h -> root_has h Vchain HAMMER2_CHAIN_MODIFIED = true ->
  let h' := flush_volume crc (hv_with_counts (root_clear h Vchain HAMMER2_CHAIN_MODIFIED) n p) in
  hdev_inv h' /\ frame h h' /\ tid_of (hv_volsync h) < tid_of (hv_volsync h').
Proof.
  intros [I1 I2 I3 I4 I5 I6] Hr Hm. specialize (I6 Hm). unfold room in Hr. unfold flush_volume.
  cbn [hv_with_counts root_clear hv_with_root hv_voldata hv_vchain rc_tid hv_root].
  set (m := if _ <? _ then _ else _). set (m' := voldata_seal crc m).
  assert (Em : forall k o, o + Z.of_nat k <= 0x78 -> get_le k m' o = get_le k (hv_voldata h) o).
  { intros k o Ho. unfold m'. rewrite seal_field by lia. unfold m. destruct (_ <? _); [apply set_tid_other; lia|done]. }
  assert (Et : tid_of (hv_voldata h) <= tid_of m' /\ rc_tid (hv_vchain h) <= tid_of m').
  { unfold tid_of, m'. rewrite seal_field by lia. change (get_le 8 m 0x78) with (tid_of m). change (get_le 8 (hv_voldata h) 0x78) with (tid_of (hv_voldata h)).
    unfold m. destruct (Z.ltb_spec (tid_of (hv_voldata h)) (rc_tid (hv_vchain h))) as [Hlt|Hge]; [|lia].
    rewrite set_tid_same by (unfold is_u64; lia). lia. }
  assert (Eg : vd_magic m' = HAMMER2_VOLUME_ID_HBO) by (rewrite <- I2; apply Em; lia).
  assert (Hv : header_valid crc m' = true).
  { apply seal_valid; [done|]. rewrite <- Eg. unfold m', vd_magic. symmetry. apply seal_field. lia. }
  assert (Es : vd_volu_size m' = vd_volu_size (hv_voldata h)) by (apply Em; lia).
  cbv zeta. set (h' := root_set _ _ _). change (hv_volsync h') with m'. change (hv_voldata h') with m'.
  split; [|split; [by split|lia]]. assert (Ec : current h' = current h) by done.
  split; change (hv_volsync h') with m'; change (hv_voldata h') with m'; rewrite ?Ec; try done; [lia|lia|intros _; split; [done|lia]|].
  intros H. exfalso. unfold root_has, h' in H. cbn in H. by rewrite has_lor, has_clear in H.
Qed.

Lemma root_fchain h fl : hdev_inv h -> room h -> root_has h Vchain HAMMER2_CHAIN_MODIFIED = true ->
  exists h' e, flush_root crc limit_chains limit_inodes below h Fchain fl = Some (h', e) /\ hdev_inv h' /\ frame h h' /\
    tid_of (hv_voldata h') <= tid_of (hv_voldata h) + 1 /\ tid_of (hv_voldata h) <= tid_of (hv_voldata h').
Proof.
  intros Hi Hr Hm. unfold flush_root. destruct (root_has h Fchain HAMMER2_CHAIN_FLUSH_MASK); cbn [negb].
  2:{ exists h, 0. split_and!; try done; lia. }
  assert (K := first_keeps h Fchain (fl &~ HAMMER2_FLUSH_TOP)).
  destruct (if root_has h Fchain (HAMMER2_CHAIN_ONFLUSH ||| HAMMER2_CHAIN_DESTROY) then _ else _) as [h1 e]. cbn [fst] in K. assert (Hi1 := keeps_inv _ _ Hr Hi K). assert (Hm1 := kp_set _ _ K Hm).
  assert (Et := kp_tid _ _ K). assert (Hr1 : room h1) by (unfold room; by rewrite Et).
  assert (Hfin : forall h2, hdev_inv h2 -> room h2 -> hdev_inv (root_clear h2 Fchain HAMMER2_CHAIN_UPDATE) /\ frame h2 (root_clear h2 Fchain HAMMER2_CHAIN_UPDATE)).
  { intros h2 Hi2 Hr2. assert (K2 := clear_keeps h2 Fchain HAMMER2_CHAIN_UPDATE ltac:(by left)).
    split; [by apply (keeps_inv h2)|by apply keeps_frame]. }
  destruct (root_has h1 Fchain HAMMER2_CHAIN_MODIFIED); cbn [mbind option_bind].
  - set (h2 := hv_with_counts _ _ _).
    assert (K2 : keeps h1 h2).
    { apply (keeps_after _ (root_clear h1 Fchain HAMMER2_CHAIN_MODIFIED)); [apply clear_keeps; by right|apply counts_keeps]. }
    assert (Hr2 : room h2) by (unfold room; by rewrite (kp_tid _ _ K2)).
    destruct (freemap_ok h2) as (h3 & -> & Hi3 & F3 & E3); [by apply (keeps_inv h1)|done|by apply (kp_set _ _ K2)|].
    cbn [mbind option_bind]. rewrite (kp_tid _ _ K2), Et in E3.
    assert (Hi4 : hdev_inv (root_clear h3 Fchain HAMMER2_CHAIN_UPDATE)) by (by destruct Hi3; split).
    eexists _, _. split; [done|]. split; [exact Hi4|]. split; [|cbn [root_clear hv_with_root hv_voldata]; lia].
    apply (frame_after _ h1); [by apply keeps_frame|]. apply (frame_after _ h2); [by apply keeps_frame|].
    apply (frame_after _ h3); [done|]. by split.
  - destruct (Hfin h1 Hi1 Hr1) as [H1 H2]. eexists _, _. split; [done|]. split; [exact H1|].
    split; [apply (frame_after _ h1); [by apply keeps_frame|done]|]. cbn [root_clear hv_with_root hv_voldata]. lia.
Qed.

Lemma root_vchain h fl : hdev_inv h -> room h ->
  exists h' e, flush_root crc limit_chains limit_inodes below h Vchain fl = Some (h', e) /\ hdev_inv h' /\ frame h h' /\
    tid_of (hv_volsync h) <= tid_of (hv_volsync h').
Proof.
  intros Hi Hr. unfold flush_root. destruct (root_has h Vchain HAMMER2_CHAIN_FLUSH_MASK); cbn [negb].
  2:{ exists h, 0. by split_and!. }
  assert (K := first_keeps h Vchain (fl &~ HAMMER2_FLUSH_TOP)).
  destruct (if root_has h Vchain (HAMMER2_CHAIN_ONFLUSH ||| HAMMER2_CHAIN_DESTROY) then _ else _) as [h1 e]. cbn [fst] in K. assert (Hi1 := keeps_inv _ _ Hr Hi K).
  assert (Hr1 : room h1) by (unfold room; by rewrite (kp_tid _ _ K)).
  assert (Hfin : forall h2, hdev_inv h2 -> hdev_inv (root_clear h2 Vchain HAMMER2_CHAIN_UPDATE) /\ frame h2 (root_clear h2 Vchain HAMMER2_CHAIN_UPDATE)).
  { intros h2 [J1 J2 J3 J4 J5 J6]. assert (Hb : forall g, Z.land HAMMER2_CHAIN_UPDATE g = 0 -> root_has (root_clear h2 Vchain HAMMER2_CHAIN_UPDATE) Vchain g = root_has h2 Vchain g).
    { intros g Hg. apply has_clear_other, Hg. }
    split; [|by split]. split; rewrite ?Hb by done; done. }
  destruct (root_has h1 Vchain HAMMER2_CHAIN_MODIFIED) eqn:Em; cbn [mbind option_bind].
  - destruct (volume_sealed h1 (i32 (hv_chain_modified (root_clear h1 Vchain HAMMER2_CHAIN_MODIFIED) - 1))
      (hammer2_pfs_memory_wakeup limit_chains limit_inodes (hv_pmp (root_clear h1 Vchain HAMMER2_CHAIN_MODIFIED)) (-1)) Hi1 Hr1 Em) as (Hi2 & F2 & E2).
    destruct (Hfin _ Hi2) as [Hi3 F3]. eexists _, _. split; [done|]. split; [exact Hi3|].
    split; [apply (frame_after _ h1); [by apply keeps_frame|]; by apply (frame_after _ _ _ F2)|].
    rewrite <- (kp_volsync _ _ K). exact (Z.lt_le_incl _ _ E2).
  - destruct (Hfin h1 Hi1) as [Hi3 F3]. eexists _, _. split; [done|]. split; [exact Hi3|].
    split; [apply (frame_after _ h1); [by apply keeps_frame|done]|]. cbn [root_clear hv_with_root hv_volsync].
    by rewrite (kp_volsync _ _ K).
Qed.

Lemma roots_ok h : hdev_inv h -> ample h ->
  exists h' e, flush_roots crc limit_chains limit_inodes below h = Some (h', e) /\ hdev_inv h' /\ frame h h'.
Proof.
  intros Hi Ha. assert (Hr : room h) by (unfold room, ample in *; lia). unfold flush_roots. assert (K := below_keeps FlushSroot (HAMMER2_FLUSH_TOP ||| HAMMER2_FLUSH_INODE_STOP ||| HAMMER2_FLUSH_FSSYNC) h).
  destruct (below FlushSroot _ h) as [h1 e0]. cbn [fst] in K. assert (Hi1 := keeps_inv _ _ Hr Hi K).
  assert (Hr1 : room h1) by (unfold room; by rewrite (kp_tid _ _ K)).
  assert (exists h2 e1, (if root_has h1 Fchain HAMMER2_CHAIN_FLUSH_MASK
    then flush_root crc limit_chains limit_inodes below (hammer2_voldata_modify h1) Fchain HAMMER2_FLUSH_TOP else Some (h1, 0)) = Some (h2, e1) /\
    hdev_inv h2 /\ frame h1 h2 /\ 0 <= tid_of (hv_voldata h2) <= tid_of (hv_voldata h1) + 1) as (h2 & e1 & -> & Hi2 & F2 & E2).
  { unfold room in Hr1. destruct (root_has h1 Fchain HAMMER2_CHAIN_FLUSH_MASK); [|exists h1, 0; split_and!; try done; lia].
    assert (Km := modify_keeps h1). assert (Hrm : room (hammer2_voldata_modify h1)) by (unfold room; by rewrite (kp_tid _ _ Km)).
    destruct (root_fchain (hammer2_voldata_modify h1) HAMMER2_FLUSH_TOP) as (h2 & e1 & -> & Hi2 & F2 & E2 & E3); [by apply (keeps_inv h1)|done| |].
    { unfold hammer2_voldata_modify. destruct (root_has h1 Vchain HAMMER2_CHAIN_MODIFIED) eqn:E; [done|]. unfold root_has. cbn. rewrite has_lor. apply orb_true_r. }
    rewrite (kp_tid _ _ Km) in E2, E3. exists h2, e1. split_and!; try done; [|lia].
    apply (frame_after _ (hammer2_voldata_modify h1)); [by apply keeps_frame|done]. }
  cbn [mbind option_bind].
  destruct (root_vchain h2 HAMMER2_FLUSH_TOP) as (h3 & e2 & -> & Hi3 & F3 & _); [done| |].
  { unfold ample, room in *. rewrite (kp_tid _ _ K) in E2. lia. }
  cbn [mbind option_bind]. eexists _, _. split; [done|]. split; [done|].
  apply (frame_after _ h1); [by apply keeps_frame|]. by apply (frame_after _ h2).
Qed.

(** ** The header *)

Lemma next_range h : let j := volhdr_next h in
  0 <= j < HAMMER2_NUM_VOLHDRS /\ (j = 0 \/ j * HAMMER2_ZONE_BYTES64 + HAMMER2_SEGSIZE <= vd_volu_size (hv_volsync h)) /\
  (0 <= hv_volhdrno h < HAMMER2_NUM_VOLHDRS -> HAMMER2_ZONE_BYTES64 + HAMMER2_SEGSIZE <= vd_volu_size (hv_volsync h) -> j <> hv_volhdrno h).
Proof.
  cbv zeta. unfold volhdr_next, HAMMER2_NUM_VOLHDRS. set (vs := vd_volu_size (hv_volsync h)). set (n := hv_volhdrno h).
  destruct (Z.ltb_spec (n + 1) 0), (Z.leb_spec 4 (n + 1)); try lia; cbn [Z.leb Z.compare];
    match goal with |- context [vs <? ?x] => destruct (Z.ltb_spec vs x) end;
    unfold HAMMER2_ZONE_BYTES64, HAMMER2_SEGSIZE in *; lia.
Qed.

Definition with_slot (media : Z -> header) (j : Z) (X : header) : Z -> header := fun i => if i =? j then X else media i.
Abbreviation readable media := (fun i => Some (media i)).

(** A block that is not the newest header is changed. *)
Lemma slot_changed media z H j X : newest crc (readable media) size z H -> j <> z ->
  let r := hammer2_read_volume_header crc (readable (with_slot media j X)) size in r = Some (z, H) \/ r = Some (j, X).
Proof.
  intros (N1 & N2 & N3 & N4 & N5) Hj r. injection N3 as N3. destruct r as [[z' H']|] eqn:E; subst r.
  - assert (R := E). apply read_newest in R as (R1 & R2 & R3 & R4 & R5). injection R3 as R3. unfold with_slot in R3.
    destruct (Z.eqb_spec z' j) as [->|Hz]; [right; by rewrite R3|left].
    destruct (N5 z' H') as [A1 A2]; [done|done|by rewrite <- R3|done|].
    destruct (R5 z H) as [B1 B2]; [done|done| |done|].
    { unfold with_slot. destruct (Z.eqb_spec z j); [by subst|by rewrite N3]. }
    assert (z' = z) as ->; [|by rewrite <- R3, N3].
    destruct (Z.lt_total z z') as [|[|]]; [|done|]; [specialize (B2 ltac:(done)); lia|specialize (A2 ltac:(done)); lia].
  - assert (R := read_spec crc (readable (with_slot media j X)) size). rewrite E in R. unfold newest_in in R.
    rewrite (R z H) in N4; [done|done|done|]. unfold with_slot. destruct (Z.eqb_spec z j); [by subst|by rewrite N3].
Qed.

(** A newer header is written. *)
Lemma slot_newer media z H j X : newest crc (readable media) size z H -> 0 <= j < HAMMER2_NUM_VOLHDRS ->
  j * HAMMER2_ZONE_BYTES64 < size -> header_valid crc X = true -> tid_of H < tid_of X ->
  hammer2_read_volume_header crc (readable (with_slot media j X)) size = Some (j, X).
Proof.
  intros (N1 & N2 & N3 & N4 & N5) Hj Hs Hv Ht. apply read_newest. split_and!; try done; try lia.
  - unfold with_slot. by rewrite Z.eqb_refl.
  - intros i Y Hi Hsi [= <-]. unfold with_slot. destruct (Z.eqb_spec i j) as [->|Hne]; [lia|]. intros HY.
    destruct (N5 i (media i)) as [A1 _]; [done|done|done|done|]. lia.
Qed.

Definition written_ok (io : flush_io) : Prop := io_folio io = E0 /\ io_write io = E0.

Lemma header_step io h fe : hdev_inv h -> 0 < size ->
  let '(h', _, w) := flush_header io h fe in
  hv_trans h' = hv_trans h /\ hv_volsync h' = hv_volsync h /\
  match w with
  | None => hv_media h' = hv_media h /\ hdev_inv h' /\ hv_volhdrno h' = hv_volhdrno h
  | Some (j, _) => j = volhdr_next h /\ hv_volhdrno h' = j /\ root_has h Vchain HAMMER2_CHAIN_VOLUMESYNC = true /\
      (hv_media h' = hv_media h \/ exists X, hv_media h' = with_slot (hv_media h) j X) /\
      (written_ok io -> hv_media h' = with_slot (hv_media h) j (hv_volsync h) /\ hdev_inv h')
  end.
Proof.
  intros Hi Hs. unfold flush_header. destruct (write_devices _ _ _ _) as [devs e]. set (h1 := hv_with_devs h devs).
  change (root_has h1 Vchain HAMMER2_CHAIN_VOLUMESYNC) with (root_has h Vchain HAMMER2_CHAIN_VOLUMESYNC).
  destruct (root_has h Vchain HAMMER2_CHAIN_VOLUMESYNC) eqn:Es; [|rewrite andb_false_r; split_and!; try done; by destruct Hi; split].
  destruct (_ && _); [|split_and!; try done; by destruct Hi; split].
  set (h2 := hv_with_devs h1 _). change (volhdr_next h2) with (volhdr_next h). set (j := volhdr_next h). unfold write_header.
  destruct (failed (io_folio io)) eqn:Ef.
  { split_and!; try done; [by left|]. intros [E _]. by rewrite E in Ef. }
  destruct (failed (io_write io)) eqn:Ew.
  { split_and!; try done; [right; by exists (io_torn io)|]. intros [_ E]. by rewrite E in Ew. }
  split_and!; try done; [right; by exists (hv_volsync h)|]. intros _. split; [done|].
  destruct (next_range h) as (J1 & J2 & _). fold j in J1, J2. destruct Hi as [I1 I2 I3 I4 I5 I6]. destruct (I5 Es) as [V1 V2].
  set (h3 := hv_with_volhdrno _ _). assert (Ec : current h3 = hv_volsync h) by (unfold current; cbn; by rewrite Z.eqb_refl).
  split; rewrite ?Ec; change (hv_volsync h3) with (hv_volsync h); change (hv_voldata h3) with (hv_voldata h); try done; [|lia| |].
  - unfold mounted. change (hv_media h3) with (with_slot (hv_media h) j (hv_volsync h)).
    apply (slot_newer (hv_media h) (hv_volhdrno h) (current h) j (hv_volsync h)); [by apply read_newest|done| |done|done].
    destruct I3 as [_ I3]. unfold HAMMER2_SEGSIZE in J2. destruct J2 as [E|J2]; [rewrite E|]; lia.
  - intros H. exfalso. unfold root_has, h3 in H. cbn in H. by rewrite has_clear in H.
  - intros H. apply I6. unfold root_has, h3 in H |- *. cbn in H |- *. by rewrite has_clear_other in H.
Qed.

(** ** The whole flush *)

Lemma errno_zero e : hammer2_errno_to_error e = 0 -> e = E0.
Proof. by destruct e. Qed.

(** No flush of spmp is open, and its count has room. *)
Definition trans_idle (t : Z) : Prop :=
  is_u32 t /\ t mod 2 ^ 24 < 2 ^ 24 - 1 /\ has t Trans.HAMMER2_TRANS_ISFLUSH = false.

Lemma trans_taken t : trans_idle t ->
  exists t1 t2 w, Trans.hammer2_trans_init t Trans.HAMMER2_TRANS_ISFLUSH = (t1, false) /\
    Trans.hammer2_trans_done t1 Trans.HAMMER2_TRANS_ISFLUSH = Some (t2, w).
Proof.
  intros (H1 & H2 & H3). unfold Trans.hammer2_trans_init. rewrite H3. change (has Trans.HAMMER2_TRANS_ISFLUSH Trans.HAMMER2_TRANS_ISFLUSH) with true.
  eexists _, _, _. split; [done|]. unfold Trans.hammer2_trans_done. rewrite has_count.
  destruct (word_up t Trans.HAMMER2_TRANS_ISFLUSH H1) as (_ & E & _); [split; [split; [discriminate|reflexivity]|reflexivity]|exact H2|].
  cbv zeta in E. rewrite E. assert (0 <= t mod 2 ^ 24) by (apply Z.mod_pos_bound; lia).
  destruct (nz_spec (t mod 2 ^ 24 + 1)); [|lia]. cbn [negb]. reflexivity.
Qed.

Lemma trans_inv_keeps h t : hdev_inv h -> hdev_inv (hv_with_trans h t).
Proof. intros []. by split. Qed.

Lemma inode_keeps a h : keeps h (flush_inode below inode_blockset a h).1.
Proof.
  unfold flush_inode. destruct (fa_chain a) as [f|]; [|apply keeps_refl]. cbn [fst].
  destruct (has f HAMMER2_CHAIN_FLUSH_MASK); [|apply keeps_refl].
  match goal with |- context [below FlushInode ?x h] => assert (K := below_keeps FlushInode x h); destruct (below FlushInode x h) as [h1 e] end.
  cbn [fst] in K. destruct (fa_iroot a); [|done]. apply (keeps_after _ h1); [done|apply iroot_keeps].
Qed.

(** What a flush leaves, and the device between its flush of the roots and that of the
    header. *)
Definition flushed (io : flush_io) (h : hdev) (r : flush_result) : Prop :=
  match fl_write r with
  | None => hv_media (fl_dev r) = hv_media h /\ hdev_inv (fl_dev r)
  | Some (j, _) =>
      0 <= j < HAMMER2_NUM_VOLHDRS /\ hv_volhdrno (fl_dev r) = j /\
      (HAMMER2_ZONE_BYTES64 + HAMMER2_SEGSIZE <= vd_volu_size (hv_volsync h) -> j <> hv_volhdrno h) /\
      (hv_media (fl_dev r) = hv_media h \/ exists X, hv_media (fl_dev r) = with_slot (hv_media h) j X) /\
      (written_ok io -> hv_media (fl_dev r) = with_slot (hv_media h) j (hv_volsync (fl_dev r)) /\
         header_valid crc (hv_volsync (fl_dev r)) = true /\ tid_of (current h) < tid_of (hv_volsync (fl_dev r)) /\
         hdev_inv (fl_dev r))
  end.

Lemma flush_some io a h : hdev_inv h -> ample h -> 0 < size -> trans_idle (hv_trans h) ->
  exists r, flush io a h = Some r /\ flushed io h r.
Proof.
  intros Hi Ha Hs Ht. unfold hammer2_xop_inode_flush. assert (Hr : room h) by (unfold room, ample in *; lia).
  assert (K := inode_keeps a h). destruct (flush_inode below inode_blockset a h) as [h1 pfs]. cbn [fst] in K.
  assert (Hi1 := keeps_inv _ _ Hr Hi K). assert (F1 := keeps_frame _ _ K).
  assert (Hc1 : current h1 = current h) by (unfold current; by rewrite (kp_volhdrno _ _ K), (kp_media _ _ K)).
  destruct (_ || _). { eexists. split; [done|]. split; [apply K|done]. }
  rewrite (kp_trans _ _ K). destruct (trans_taken _ Ht) as (t1 & t2 & w & -> & Ed).
  assert (Ha1 : ample (hv_with_trans h1 t1)) by (unfold ample; cbn [hv_with_trans hv_voldata]; by rewrite (kp_tid _ _ K)).
  destruct (roots_ok (hv_with_trans h1 t1) (trans_inv_keeps _ t1 Hi1) Ha1) as (h2 & fe & -> & Hi2 & [G1 G2 G3 G4 G5 G6]).
  cbn [mbind option_bind]. assert (X := header_step io h2 fe Hi2 Hs). assert (N := next_range h2).
  destruct (flush_header io h2 fe) as [[h3 fse] w3]. destruct X as (X1 & X2 & X3). rewrite X1, G3. cbn [hv_trans hv_with_trans].
  rewrite Ed. cbn [mbind option_bind]. eexists. split; [done|]. unfold flushed. cbn [fl_write fl_dev].
  assert (Em : hv_media h2 = hv_media h) by (rewrite G2; apply K).
  assert (En : hv_volhdrno h2 = hv_volhdrno h) by (rewrite G1; apply K).
  assert (Ev : vd_volu_size (hv_volsync h2) = vd_volu_size (hv_volsync h)).
  { rewrite <- (proj1 (hi_size _ Hi2)), G6, <- (proj1 (hi_size _ Hi)). apply K. }
  assert (Ec : current h2 = current h) by (unfold current; by rewrite Em, En).
  destruct w3 as [[j ds]|].
  - destruct X3 as (-> & Y1 & Y2 & Y3 & Y4). destruct N as (N1 & _ & N3). rewrite En, Ev in N3. rewrite Em in Y3, Y4.
    assert (Hz := proj1 (proj1 (read_newest _ _ _ _ _) (hi_mounted _ Hi))). destruct (hi_sync _ Hi2 Y2) as [V1 V2]. rewrite Ec in V2.
    split; [done|]. split; [done|]. split; [auto|]. split; [done|]. intros Hw. destruct (Y4 Hw) as [Z1 Z2].
    cbn [hv_with_trans hv_media hv_volsync]. rewrite X2. split_and!; try done. by apply trans_inv_keeps.
  - destruct X3 as (Y1 & Y2 & Y3). split; [cbn; congruence|by apply trans_inv_keeps].
Qed.

(** A flush that writes a header, taken apart. *)
Lemma flush_split io a h r j ds : hdev_inv h -> ample h -> trans_idle (hv_trans h) -> flush io a h = Some r -> fl_write r = Some (j, ds) ->
  exists h2 fe, frame h (hv_with_trans h2 (hv_trans h)) /\
    exists e h3, flush_header io h2 fe = (h3, e, Some (j, ds)) /\ (fl_error r = 0 -> e = E0).
Proof.
  intros Hi Ha Ht. unfold hammer2_xop_inode_flush. assert (Hr : room h) by (unfold room, ample in *; lia).
  assert (K := inode_keeps a h). destruct (flush_inode below inode_blockset a h) as [h1 pfs]. cbn [fst] in K.
  assert (Hi1 := keeps_inv _ _ Hr Hi K). destruct (_ || _); [by intros [= <-]|].
  rewrite (kp_trans _ _ K). destruct (trans_taken _ Ht) as (t1 & t2 & w & -> & _).
  assert (Ha1 : ample (hv_with_trans h1 t1)) by (unfold ample; cbn [hv_with_trans hv_voldata]; by rewrite (kp_tid _ _ K)).
  destruct (roots_ok (hv_with_trans h1 t1) (trans_inv_keeps _ t1 Hi1) Ha1) as (h2 & fe & -> & Hi2 & F).
  cbn [mbind option_bind]. destruct (flush_header io h2 fe) as [[h3 e] w3] eqn:Eh.
  destruct (Trans.hammer2_trans_done _ _) as [[t3 w4]|]; [|done]. intros [= <-]. cbn [fl_write fl_error]. intros ->.
  exists h2, fe. split.
  - destruct F as [G1 G2 G3 G4 G5 G6], (keeps_frame _ _ K) as [L1 L2 L3 L4 L5 L6]. cbn in *. split; cbn; congruence.
  - exists e, h3. split; [done|]. destruct (failed e) eqn:Ef; [apply errno_zero|]. intros _. unfold failed in Ef. by apply negb_false_iff, bool_decide_eq_true in Ef.
Qed.

(** The device at work: what the rest of the file system does, transactions on spmp,
    and flushes whose header, if any, is written. *)
Inductive vol_step : hdev -> hdev -> Prop :=
| step_other h h' t : room h -> keeps h h' -> vol_step h (hv_with_trans h' t)
| step_flush io a h r : ample h -> trans_idle (hv_trans h) -> flush io a h = Some r ->
    (is_Some (fl_write r) -> written_ok io) -> vol_step h (fl_dev r).

Lemma vol_step_inv h h' : 0 < size -> hdev_inv h -> vol_step h h' -> hdev_inv h'.
Proof.
  intros Hs Hi H. revert Hi. destruct H as [h1 h2 t Hr K|io a h1 r Ha Ht E Hw]; intros Hi; [apply trans_inv_keeps; exact (keeps_inv h1 h2 Hr Hi K)|].
  destruct (flush_some io a h1 Hi Ha Hs Ht) as (r' & E' & F). rewrite E in E'. injection E' as <-.
  unfold flushed in F. destruct (fl_write r) as [[j ds]|]; [|apply F]. apply F. apply Hw. by eexists.
Qed.

Lemma vol_steps_inv h h' : 0 < size -> hdev_inv h -> rtc vol_step h h' -> hdev_inv h'.
Proof. intros Hs Hi. induction 1 as [|h1 h2 h3 H12 _ IH]; [done|]. apply IH. by apply (vol_step_inv h1). Qed.

Lemma mount_inv z m n p devs rd media : hammer2_read_volume_header crc (readable media) size = Some (z, m) ->
  vd_volu_size m <= size -> hdev_inv (mount_device z m n p devs rd media).
Proof.
  intros E Hsz. assert (Hn := E). apply read_newest in Hn as (N1 & N2 & N3 & N4 & N5). injection N3 as N3.
  assert (Hm : vd_magic m = HAMMER2_VOLUME_ID_HBO).
  { unfold header_valid in N4. rewrite !andb_true_iff in N4. destruct N4 as [[[N4 _] _] _]. by apply Z.eqb_eq. }
  split; try done; unfold current; cbn [mount_device hv_volhdrno hv_media hv_volsync hv_voldata]; rewrite ?N3; try done; try lia.
Qed.
End System.

(** ** The devices *)

Definition settled (d : bdev) : Prop := bd_dirty d = false /\ bd_lost d = false.

(** [fsync_error] is the last one. *)
Lemma write_devices_last wb i l e : (write_devices wb i l e).2 = match l with [] => e | _ => wb (i + (length l - 1))%nat end.
Proof.
  revert i e. induction l as [|d l IH]; intros i e; [done|]. cbn [write_devices]. assert (H := IH (S i) (wb i)).
  destruct (write_devices wb (S i) l (wb i)) as [l' e']. cbn [snd] in *. rewrite H. destruct l as [|d' l]; cbn [length]; f_equal; lia.
Qed.

Lemma write_devices_ok wb i l e : (forall k, (k < length l)%nat -> wb (i + k)%nat = E0) -> Forall (fun d => bd_lost d = false) l ->
  Forall settled (write_devices wb i l e).1.
Proof.
  revert i e. induction l as [|d l IH]; intros i e Hw Hl; [constructor|]. cbn [write_devices]. apply Forall_cons in Hl as [Hd Hl].
  assert (H : Forall settled (write_devices wb (S i) l (wb i)).1).
  { apply IH; [|done]. intros k Hk. replace (S i + k)%nat with (i + S k)%nat by lia. apply Hw. cbn. lia. }
  destruct (write_devices wb (S i) l (wb i)) as [l' e']. constructor; [|done].
  assert (E := Hw 0%nat ltac:(cbn; lia)). rewrite Nat.add_0_r in E. unfold dev_writeback. by rewrite E.
Qed.

(** A header that is written with no error reported. *)
Lemma header_settled io h fe : Forall (fun d => bd_lost d = false) (hv_devs h) ->
  (forall k, (S k < length (hv_devs h))%nat -> io_writeback io k = E0) ->
  let '(_, e, w) := flush_header io h fe in
  e = E0 -> match w with
            | Some (_, ds) => Forall settled ds /\ forall d, ds !! hv_rootdev h = Some d -> bd_volatile d = false
            | None => True
            end.
Proof.
  intros Hl Hw. unfold flush_header. assert (Hlast := write_devices_last (io_writeback io) 0 (hv_devs h) E0).
  assert (Hok := write_devices_ok (io_writeback io) 0 (hv_devs h) E0).
  destruct (write_devices _ _ _ _) as [devs e]. cbn [fst snd] in *. destruct (failed e) eqn:Ef; [done|]. cbn [negb andb].
  assert (e = E0) as -> by (unfold failed in Ef; by apply negb_false_iff, bool_decide_eq_true in Ef).
  assert (Hs : Forall settled devs).
  { apply Hok; [|done]. intros k Hk. cbn [Nat.add]. destruct (decide (S k < length (hv_devs h))%nat) as [|Hge]; [by apply Hw|].
    destruct (hv_devs h) as [|d l]; [cbn in Hk; lia|]. rewrite Hlast. f_equal. cbn [length] in *. lia. }
  destruct (_ && _); [|done]. destruct (write_header io _ _) as [h' ve]. destruct (failed ve) eqn:Ev; [by intros ->|]. intros ->.
  cbn [hv_with_devs hv_devs hv_rootdev]. unfold dev_cache_flush. cbn [failed]. split.
  - apply Forall_lookup. intros i d Hd. rewrite Forall_lookup in Hs. destruct (decide (i = hv_rootdev h)) as [->|Hne].
    + rewrite list_lookup_alter_eq in Hd. destruct (devs !! hv_rootdev h) as [d0|] eqn:E0; [|done]. injection Hd as <-. by apply (Hs _ _ E0).
    + rewrite list_lookup_alter_ne in Hd by done. by apply (Hs i).
  - intros d Hd. rewrite list_lookup_alter_eq in Hd. destruct (devs !! hv_rootdev h) as [d0|]; [|done]. by injection Hd as <-.
Qed.

(** ** Properties *)

(** C8: a crash finds a volume header.  However a device goes on after a mount, with
    any flushes and errors but those of a header write, the newest valid header is
    the one that was written last, and a mount takes it.  One more flush always
    returns.  If it writes a header and the volume has room for two, then not over
    that one: whatever the write leaves in the block, a mount takes the old header or
    what is in that block; and if the write succeeds, it takes the new header, which
    is valid and has a greater transaction id. *)
Theorem volume_header_recovered crc lc li below blockset size media z m n p devs rd h :
  (forall l, is_u32 (crc l)) -> (forall pt fl h, keeps h (below pt fl h).1) -> 0 < size ->
  hammer2_read_volume_header crc (fun i => Some (media i)) size = Some (z, m) -> vd_volu_size m <= size ->
  rtc (vol_step crc lc li below blockset) (mount_device z m n p devs rd media) h ->
  let mount h := hammer2_read_volume_header crc (fun i => Some (hv_media h i)) size in
  mount h = Some (hv_volhdrno h, current h) /\
  forall io a, ample h -> trans_idle (hv_trans h) ->
    exists r, hammer2_xop_inode_flush crc lc li below blockset io a h = Some r /\
      match fl_write r with
      | None => mount (fl_dev r) = mount h
      | Some (j, _) =>
          (HAMMER2_ZONE_BYTES64 + HAMMER2_SEGSIZE <= vd_volu_size (hv_volsync h) -> j <> hv_volhdrno h /\
             (mount (fl_dev r) = mount h \/ mount (fl_dev r) = Some (j, hv_media (fl_dev r) j))) /\
          (written_ok io -> mount (fl_dev r) = Some (j, hv_volsync (fl_dev r)) /\
             header_valid crc (hv_volsync (fl_dev r)) = true /\
             vd_mirror_tid (current h) < vd_mirror_tid (hv_volsync (fl_dev r)))
      end.
Proof.
  intros Hcrc Hb Hs Hm Hsz Hr mount.
  assert (Hi := vol_steps_inv crc lc li below blockset size Hcrc Hb _ _ Hs (mount_inv crc size z m n p devs rd media Hm Hsz) Hr).
  assert (Em := hi_mounted _ _ _ Hi). split; [exact Em|]. intros io a Ha Ht.
  destruct (flush_some crc lc li below blockset size Hcrc Hb io a h Hi Ha Hs Ht) as (r & E & F). exists r. split; [exact E|].
  unfold flushed in F. destruct (fl_write r) as [[j ds]|]; [|unfold mount; by rewrite (proj1 F)].
  destruct F as (J1 & J2 & J3 & J4 & J5). split.
  - intros H2. specialize (J3 H2). split; [done|]. unfold mount. destruct J4 as [->|[X J4]]; [by left|].
    assert (EX : hv_media (fl_dev r) j = X) by (rewrite J4; unfold with_slot; by rewrite Z.eqb_refl).
    rewrite EX, J4. apply read_newest in Em as Hn. destruct (slot_changed crc size (hv_media h) _ _ j X Hn J3) as [-> | ->];
       [left; by rewrite <- Em|by right].
  - intros Hw. destruct (J5 Hw) as (K1 & K2 & K3 & K4). split; [|done]. unfold mount.
    assert (X := hi_mounted _ _ _ K4). unfold mounted in X. rewrite X, J2. unfold current. rewrite J2, K1. unfold with_slot at 1. by rewrite Z.eqb_refl.
Qed.

(** A volume of 4GB whose first header is the newest, and a flush of a change. *)
Definition header_4g : header :=
  put_le 8 (put_le 8 (put_le 8 (fun _ => 0) 0 HAMMER2_VOLUME_ID_HBO) 0x28 (2 ^ 32)) 0x78 5.
Definition media_4g (i : Z) : header := if i =? 0 then header_4g else fun _ => 0.
Definition crc_zero (l : list Z) : Z := 0.
Definition below_modify (pt : flush_point) (fl : Z) (h : hdev) : hdev * Z := (hammer2_voldata_modify h, 0).
Definition no_blocks (h : hdev) : list hammer2_blockref := [].
Definition io_fine : flush_io := mkFio (fun _ => E0) E0 E0 E0 (fun _ => 0).
Definition sync_root : flush_arg :=
  mkFarg (HAMMER2_XOP_INODE_STOP ||| HAMMER2_XOP_FSSYNC ||| HAMMER2_XOP_VOLHDR) (Some HAMMER2_CHAIN_PFSBOUNDARY) true false.
Definition device_4g (devs : list bdev) : hdev := mount_device 0 header_4g 0 None devs 0 media_4g.

Lemma below_modify_keeps pt fl h : keeps h (below_modify pt fl h).1.
Proof. apply modify_keeps. Qed.

Lemma crc_zero_u32 l : is_u32 (crc_zero l).
Proof. split; [discriminate|reflexivity]. Qed.

Lemma read_4g : hammer2_read_volume_header crc_zero (fun i => Some (media_4g i)) (2 ^ 32) = Some (0, header_4g).
Proof.
  unfold hammer2_read_volume_header. change (Z.to_nat HAMMER2_NUM_VOLHDRS) with 4%nat. cbn [read_headers].
  change (media_4g 0) with header_4g. assert (header_valid crc_zero header_4g = true) as -> by (vm_compute; reflexivity).
  assert (forall i, i <> 0 -> header_valid crc_zero (media_4g i) = false) as Hn.
  { intros i Hi. unfold media_4g. destruct (Z.eqb_spec i 0); [done|]. vm_compute. reflexivity. }
  rewrite !Hn by lia. done.
Qed.

Lemma volume_header_recovered_witness : exists r,
  hammer2_xop_inode_flush crc_zero 100 100 below_modify no_blocks io_fine sync_root (device_4g [mkBdev true false false]) = Some r /\
  hammer2_read_volume_header crc_zero (fun i => Some (hv_media (fl_dev r) i)) (2 ^ 32) = Some (1, hv_volsync (fl_dev r)) /\
  5 < vd_mirror_tid (hv_volsync (fl_dev r)).
Proof.
  destruct (volume_header_recovered crc_zero 100 100 below_modify no_blocks (2 ^ 32) media_4g 0 header_4g 0 None
    [mkBdev true false false] 0 (device_4g [mkBdev true false false])) as [_ H].
  - exact crc_zero_u32.
  - exact below_modify_keeps.
  - lia.
  - exact read_4g.
  - vm_compute. discriminate.
  - apply rtc_refl.
  - destruct (H io_fine sync_root) as (r & E & Hr).
    + split; [vm_compute; discriminate|vm_compute; reflexivity].
    + split; [split; [discriminate|reflexivity]|split; reflexivity].
    + exists r. assert (option_map (fun r => option_map fst (fl_write r)) (hammer2_xop_inode_flush crc_zero 100 100 below_modify no_blocks
        io_fine sync_root (device_4g [mkBdev true false false])) = Some (Some 1)) as Ew by (vm_compute; reflexivity).
      split; [exact E|]. rewrite E in Ew. cbn [option_map] in Ew. destruct (fl_write r) as [[j ds]|]; [|discriminate Ew].
      injection Ew as ->. destruct Hr as [_ Hr]. destruct (Hr (conj eq_refl eq_refl)) as (H1 & _ & H3).
      split; [exact H1|]. exact H3.
Defined.

(** C25: a header is written after what it refers to.  When a flush writes a header and
    reports no error, on a device without blocks lost before, then at the time of the
    write nothing was left in the page cache of a device and none of its blocks had
    failed, and the write cache of the root volume was empty; with more than one
    device, if the write back of those before the last did not fail. *)
Theorem volume_header_ordered crc lc li below blockset size media z m n p devs rd h io a r j ds :
  (forall l, is_u32 (crc l)) -> (forall pt fl h, keeps h (below pt fl h).1) -> 0 < size ->
  hammer2_read_volume_header crc (fun i => Some (media i)) size = Some (z, m) -> vd_volu_size m <= size ->
  rtc (vol_step crc lc li below blockset) (mount_device z m n p devs rd media) h ->
  ample h -> trans_idle (hv_trans h) -> Forall (fun d => bd_lost d = false) (hv_devs h) ->
  (forall k, (S k < length (hv_devs h))%nat -> io_writeback io k = E0) ->
  hammer2_xop_inode_flush crc lc li below blockset io a h = Some r -> fl_error r = 0 -> fl_write r = Some (j, ds) ->
  Forall settled ds /\ forall d, ds !! hv_rootdev h = Some d -> bd_volatile d = false.
Proof.
  intros Hcrc Hb Hs Hm Hsz Hr Ha Ht Hl Hw E He Hwr.
  assert (Hi := vol_steps_inv crc lc li below blockset size Hcrc Hb _ _ Hs (mount_inv crc size z m n p devs rd media Hm Hsz) Hr).
  destruct (flush_split crc lc li below blockset size Hcrc Hb io a h r j ds Hi Ha Ht E Hwr) as (h2 & fe & F & e & h3 & Eh & Ee).
  assert (Fl := fm_lost _ _ F). assert (Fr := fm_rootdev _ _ F). cbn [hv_with_trans hv_devs hv_rootdev] in Fl, Fr.
  assert (Elen : length (hv_devs h2) = length (hv_devs h)) by (rewrite <- (length_fmap bd_lost), Fl; apply length_fmap).
  assert (Hl2 : Forall (fun d => bd_lost d = false) (hv_devs h2)).
  { assert (G : Forall (fun b => b = false) (bd_lost <$> hv_devs h2)) by (rewrite Fl; by apply Forall_fmap). by apply Forall_fmap in G. }
  assert (X := header_settled io h2 fe Hl2). rewrite Eh, Elen, Fr in X. apply X; [done|]. by apply Ee.
Qed.

Lemma volume_header_ordered_witness : exists r j ds,
  hammer2_xop_inode_flush crc_zero 100 100 below_modify no_blocks io_fine sync_root (device_4g [mkBdev true false false]) = Some r /\
  fl_write r = Some (j, ds) /\ Forall settled ds /\ length ds = 1%nat.
Proof.
  assert (option_map (fun r => (fl_error r, option_map (fun w => (fst w, length (snd w))) (fl_write r)))
    (hammer2_xop_inode_flush crc_zero 100 100 below_modify no_blocks io_fine sync_root (device_4g [mkBdev true false false])) =
    Some (0, Some (1, 1%nat))) as Ew by (vm_compute; reflexivity).
  destruct (hammer2_xop_inode_flush _ _ _ _ _ _ _ _) as [r|] eqn:E; [|discriminate Ew]. cbn [option_map] in Ew. injection Ew as Er Ew.
  destruct (fl_write r) as [[j ds]|] eqn:Ef; [|discriminate Ew]. injection Ew as -> Hl.
  exists r, 1, ds. split; [reflexivity|]. split; [exact Ef|]. split; [|exact Hl].
  refine (proj1 (volume_header_ordered crc_zero 100 100 below_modify no_blocks (2 ^ 32) media_4g 0 header_4g 0 None
    [mkBdev true false false] 0 (device_4g [mkBdev true false false]) io_fine sync_root r 1 ds
    crc_zero_u32 below_modify_keeps _ read_4g _ (rtc_refl _ _) _ _ _ _ E Er Ef)).
  - lia.
  - vm_compute. discriminate.
  - split; [vm_compute; discriminate|vm_compute; reflexivity].
  - split; [split; [discriminate|reflexivity]|split; reflexivity].
  - repeat constructor.
  - reflexivity.
Defined.

(** What a flush reports, the header block it writes, and the devices at that time. *)
Definition outcome (r : flush_result) : Z * option (Z * list bdev) := (fl_error r, fl_write r).
Definition io_first_lost : flush_io := mkFio (fun i => if (i =? 0)%nat then EIO else E0) E0 E0 E0 (fun _ => 0).
Definition flush_4g (io : flush_io) (h : hdev) : option flush_result :=
  hammer2_xop_inode_flush crc_zero 100 100 below_modify no_blocks io sync_root h.

Definition io_torn_header : flush_io := mkFio (fun _ => E0) E0 E0 EIO (fun _ => 0).

