(* ===== verification/VolumeMount.v ===== *)
(** The volumes of a mount: what hammer2_init_volumes() accepts (hammer2_ondisk.c,
    Volume.v) is what hammer2_get_volume() and the device buffers rely on (Dio.v). *)
From S2P Require Import Prelude Disk BlockTable Dio DioProof Volume.
From Stdlib Require Import ZArith Lia Bool.
From stdpp Require Import base list.
Open Scope Z_scope.

(** [hmp->nvolumes] and [hmp->total_size], for every version of the header. *)
Definition hmp_nvolumes (m : header) : Z := if HAMMER2_VOL_VERSION_MULTI_VOLUMES <=? vd_version m then vd_nvolumes m else 1.
Definition hmp_total_size (m : header) : Z :=
  if HAMMER2_VOL_VERSION_MULTI_VOLUMES <=? vd_version m then vd_total_size m else vd_volu_size m.

(** The table as hammer2_get_volume() reads it. *)
Definition get_volume_of (v : volume) : hammer2_volume := mkVolume (default 0 (dp_file <$> vl_dev v)) (vl_offset v) (vl_size v).
Definition hmp_volumes (s : mount_state) : list hammer2_volume :=
  get_volume_of <$> take (Z.to_nat (hmp_nvolumes (ms_root s))) (ms_volumes s).

(** ** Sums *)

Definition sumz (l : list Z) : Z := foldr Z.add 0 l.

Lemma sumz_app l1 l2 : sumz (l1 ++ l2) = sumz l1 + sumz l2.
Proof. induction l1 as [|x l1 IH]; cbn [sumz foldr app] in *; [done|]. unfold sumz in *. lia. Qed.

Lemma sumz_nonneg l : Forall (fun x => 0 <= x) l -> 0 <= sumz l.
Proof. induction 1; cbn; unfold sumz in *; lia. Qed.

Lemma sumz_perm l1 l2 : l1 ≡ₚ l2 -> sumz l1 = sumz l2.
Proof. induction 1; cbn [sumz foldr] in *; unfold sumz in *; lia. Qed.

Lemma sumz_le l1 l2 : Forall2 Z.le l1 l2 -> sumz l1 <= sumz l2.
Proof. induction 1; cbn; unfold sumz in *; lia. Qed.

Lemma sumz_take l i x : Forall (fun x => 0 <= x) l -> l !! i = Some x -> 0 <= sumz (take i l) /\ sumz (take i l) + x <= sumz l.
Proof.
  intros Hl Hi. rewrite <- (take_drop_middle l i x Hi) in Hl at 1. rewrite <- (take_drop_middle l i x Hi) at 3.
  apply Forall_app in Hl as [H1 H2]. apply Forall_cons in H2 as [_ H2]. rewrite sumz_app. cbn [sumz foldr].
  apply sumz_nonneg in H1, H2. unfold sumz in *. lia.
Qed.

(** A volume of a list without gaps is found. *)
Lemma find_volume o l x : (forall i v, l !! i = Some v -> vol_offset v = o + sumz (vol_size <$> take i l)) ->
  o <= x < o + sumz (vol_size <$> l) ->
  exists v, find (fun v => (vol_offset v <=? x) && (x <? vol_offset v + vol_size v)) l = Some v.
Proof.
  revert o. induction l as [|v l IH]; intros o Ho Hx; cbn [fmap list_fmap sumz foldr] in Hx; [lia|]. cbn [find].
  assert (E := Ho 0%nat v eq_refl). cbn in E. destruct ((vol_offset v <=? x) && (x <? vol_offset v + vol_size v)) eqn:Ef; [eauto|].
  apply (IH (o + vol_size v)).
  - intros i w Hw. rewrite (Ho (S i) w Hw). cbn [take fmap list_fmap sumz foldr]. unfold sumz. lia.
  - unfold sumz in *. zcases; lia.
Qed.

(** ** The table *)

Definition bytes_ok (m : header) : Prop := forall x, 0 <= m x < 256.

Lemma get_le_range n m off : bytes_ok m -> 0 <= get_le n m off < 256 ^ Z.of_nat n.
Proof.
  intros Hm. revert off. induction n as [|n IH]; intros off; [cbn; lia|]. cbn [get_le]. specialize (IH (off + 1)). specialize (Hm off).
  rewrite Nat2Z.inj_succ, Z.pow_succ_r by lia. lia.
Qed.

Lemma omap_insert {A B} (f : A -> option B) l i x y b : l !! i = Some x -> f x = None -> f y = Some b ->
  omap f (<[i := y]> l) ≡ₚ b :: omap f l.
Proof.
  intros Hi Hx Hy. rewrite <- (take_drop_middle l i x Hi) at 2. rewrite insert_take_drop by (by apply lookup_lt_Some in Hi).
  rewrite !omap_app. cbn [omap list_omap]. rewrite Hx, Hy. symmetry. apply Permutation_middle.
Qed.

Lemma read_from crc media size n i best z m : read_headers crc media size n i best = Some (z, m) ->
  best = Some (z, m) \/ exists j, media j = Some m.
Proof.
  revert i best. induction n as [|n IH]; intros i best; cbn [read_headers]; [by left|]. intros [E|E]%IH; [|by right].
  revert E. destruct (size <=? _); [by left|]. destruct (media i) as [vd|] eqn:Em; [|by left].
  destruct (negb _); [by left|]. destruct best as [[k vb]|]; [destruct (_ <? _); [|by left]|]; intros [= -> ->]; eauto.
Qed.

(** A device of a mount: its blocks are bytes. *)
Definition devvp_ok (e : hammer2_devvp) : Prop := forall i m, dp_media e i = Some m -> bytes_ok m.

(** An entry of the table at [i]: free, or filled from a device. *)
Definition slot_ok (i : nat) (v : volume) : Prop :=
  v = vol_none \/ vl_id v = Z.of_nat i /\ is_Some (vl_dev v) /\ is_u64 (vl_offset v) /\ is_u64 (vl_size v).

(** The table after the devices [l]. *)
Record table_inv (l : list hammer2_devvp) (s : mount_state) : Prop := {
  ti_len : length (ms_volumes s) = 64%nat;
  ti_slots : forall i v, ms_volumes s !! i = Some v -> slot_ok i v;
  ti_devs : omap vl_dev (ms_volumes s) ≡ₚ l;
  ti_root : if vol_used (vol_at (ms_volumes s) 0)
            then is_Some (ms_file s) /\ vl_size (vol_at (ms_volumes s) 0) = vd_volu_size (ms_root s)
            else ms_file s = None /\ vd_version (ms_root s) = 0
}.

Lemma vol_at_lookup vs i v : vs !! i = Some v -> vol_at vs (Z.of_nat i) = v.
Proof. unfold vol_at, aget. rewrite Nat2Z.id. by intros ->. Qed.

Lemma slot_free i v : slot_ok i v -> vol_used v = false -> v = vol_none.
Proof. intros [->|(E & _)]; [done|]. unfold vol_used. rewrite E. by destruct (Z.eqb_spec (Z.of_nat i) (-1)); [lia|]. Qed.

Lemma slot_used i v : slot_ok i v -> vol_used v = true ->
  vl_id v = Z.of_nat i /\ is_Some (vl_dev v) /\ is_u64 (vl_offset v) /\ is_u64 (vl_size v).
Proof. by intros [->|H]. Qed.

Lemma table_fill l s e m root zone file first : table_inv l s -> bytes_ok m -> vd_volu_id m < HAMMER2_MAX_VOLUMES ->
  let id := vd_volu_id m in
  vol_used (vol_at (ms_volumes s) id) = false ->
  (if id =? 0 then is_Some file /\ root = m else root = ms_root s /\ file = ms_file s) ->
  table_inv (e :: l) (mkMount (aset (ms_volumes s) id (mkVol (Some e) id (vd_volu_loff m id) (vd_volu_size m))) root zone file first).
Proof.
  intros [T1 T2 T3 T4] Hm Hid id Hf Hr. assert (H0 : 0 <= id) by apply Hm. unfold HAMMER2_MAX_VOLUMES in Hid. fold id in Hid.
  set (k := Z.to_nat id). destruct (lookup_lt_is_Some_2 (ms_volumes s) k) as [v Hv]; [subst k; lia|].
  assert (Ek : id = Z.of_nat k) by (subst k; lia). rewrite Ek, (vol_at_lookup _ _ _ Hv) in Hf.
  assert (En := slot_free k v (T2 _ _ Hv) Hf). subst v.
  assert (Es : forall w, aset (ms_volumes s) id w = <[k := w]> (ms_volumes s)) by done.
  split; cbn [ms_volumes ms_root ms_file].
  - by rewrite Es, length_insert.
  - intros i v. rewrite Es. destruct (decide (k = i)) as [<-|Hne].
    + rewrite list_lookup_insert_eq by lia. intros [= <-]. right. cbn. split; [done|]. split; [eauto|].
      split; [apply (get_le_range 8 m _ Hm)|apply (get_le_range 8 m _ Hm)].
    + rewrite list_lookup_insert_ne by done. apply T2.
  - rewrite Es. etrans; [by apply (omap_insert vl_dev _ k vol_none _ e Hv)|]. by constructor.
  - unfold vol_at. destruct (Z.eqb_spec id 0) as [E|Hne].
    + rewrite E, aget_aset_eq by lia. cbn. destruct Hr as [? ->]. done.
    + rewrite aget_aset_ne by lia. destruct Hr as [-> ->]. exact T4.
Qed.

Lemma init_volume_ok crc l s e : table_inv l s -> devvp_ok e ->
  match init_volume crc s e with
  | Some (inl s') => table_inv (e :: l) s'
  | Some (inr error) => error <> 0
  | None => False
  end.
Proof.
  intros T He. unfold init_volume. destruct (hammer2_read_volume_header _ _ _) as [[zone m]|] eqn:E; [|done].
  assert (Hm : bytes_ok m) by (apply read_from in E as [E|[j E]]; [done|eauto]).
  destruct (Z.leb_spec HAMMER2_MAX_VOLUMES (vd_volu_id m)) as [|Hid]; [done|].
  destruct (vol_used (vol_at _ _)) eqn:Eu; [done|]. cbv zeta. destruct (init_mismatch _ _); [done|]. destruct (_ || _); [done|].
  assert (F := fun root zone file first => table_fill l s e m root zone file first T Hm Hid Eu). cbv zeta in F.
  destruct (Z.eqb_spec (vd_volu_id m) 0) as [E0|].
  - assert (R := ti_root _ _ T). rewrite E0 in Eu. rewrite Eu in R. destruct R as [-> _]. apply F. by split; [eexists|].
  - apply F. done.
Qed.

Lemma init_devices_ok crc l l0 s : table_inv l0 s -> Forall devvp_ok l ->
  exists s' error, init_devices crc s l = Some (s', error) /\ (error = 0 -> table_inv (rev l ++ l0) s').
Proof.
  intros T Hl. revert l0 s T. induction Hl as [|e l He _ IH]; intros l0 s T; [by eexists _, _|]. cbn [init_devices].
  assert (S := init_volume_ok crc l0 s e T He). destruct (init_volume crc s e) as [[s'|error]|]; [|by eexists _, _|done].
  destruct (IH _ _ S) as (s2 & error & E & T2). exists s2, error. split; [done|]. intros H. cbn [rev]. rewrite <- app_assoc. by apply T2.
Qed.

Lemma mount_init_inv : table_inv [] mount_init.
Proof.
  split; cbn [mount_init ms_volumes ms_root ms_file]; [done| |done|done].
  intros i v H. apply lookup_replicate in H as [-> _]. by left.
Qed.

(** ** What the checks give *)

(** The used entries are the first [n]. *)
Definition used_first (n : nat) (vs : list volume) : Prop := forall i v, vs !! i = Some v -> vol_used v = (i <? n)%nat.

Lemma prefix_count {A} (f : A -> bool) l :
  (forall i x y, l !! i = Some x -> l !! S i = Some y -> f y = true -> f x = true) ->
  exists n, (n <= length l)%nat /\ countb f l = Z.of_nat n /\ forall i x, l !! i = Some x -> f x = (i <? n)%nat.
Proof.
  induction l as [|a l IH]; intros H; [by exists 0%nat|].
  destruct IH as (n & Hn & En & Hf); [intros i x y; apply (H (S i))|]. rewrite countb_cons, En. destruct (f a) eqn:Ea.
  - exists (S n). split; [cbn; lia|]. split; [lia|]. intros [|i] x; cbn; [by intros [= <-]|apply Hf].
  - exists 0%nat. assert (n = 0%nat) as ->.
    { destruct n as [|n]; [done|]. destruct l as [|b l]; [cbn in Hn; lia|]. assert (f b = true) by (by apply (Hf 0%nat)).
      by rewrite (H 0%nat a b eq_refl eq_refl) in Ea. }
    split; [lia|]. split; [done|]. intros [|i] x; cbn; [by intros [= <-]|apply Hf].
Qed.

Lemma first_devs n vs : (forall i v, vs !! i = Some v -> if (i <? n)%nat then is_Some (vl_dev v) else vl_dev v = None) ->
  Forall2 (fun e v => vl_dev v = Some e) (omap vl_dev vs) (take n vs).
Proof.
  revert n. induction vs as [|v vs IH]; intros n H; [rewrite take_nil; constructor|].
  assert (H0 := H 0%nat v eq_refl). destruct n as [|n]; cbn in H0.
  - cbn [omap list_omap take]. rewrite H0. apply (IH 0%nat). intros i w Hw. apply (H (S i) w Hw).
  - destruct H0 as [e He]. cbn [omap list_omap take]. rewrite He. constructor; [done|]. apply IH. intros i w Hw. apply (H (S i) w Hw).
Qed.

Lemma total_first n vs t : used_first n vs -> Forall (fun v => 0 <= vl_size v) (take n vs) -> 0 <= t ->
  t + sumz (vl_size <$> take n vs) < 2 ^ 64 ->
  foldl (fun t v => if vol_used v then u64 (t + vl_size v) else t) t vs = t + sumz (vl_size <$> take n vs).
Proof.
  revert n t. induction vs as [|v vs IH]; intros n t Hu Hs Ht Hb; [rewrite take_nil; cbn; lia|].
  assert (Hv := Hu 0%nat v eq_refl). assert (Hu' : used_first (pred n) vs).
  { intros i w Hw. rewrite (Hu (S i) w Hw). by destruct n, i. }
  cbn [foldl]. rewrite Hv. destruct n as [|n]; cbn [Nat.ltb Nat.leb pred take fmap list_fmap sumz foldr] in *.
  - rewrite (IH 0%nat t Hu'); [done|constructor|done|done].
  - apply Forall_cons in Hs as [Hs1 Hs2]. assert (Hs3 : 0 <= sumz (vl_size <$> take n vs)) by (by apply sumz_nonneg, Forall_fmap).
    unfold sumz in *. rewrite u64_small by (unfold is_u64; lia). rewrite (IH n); [lia|done|done|lia|lia].
Qed.

Lemma ok_2_first vs root x : vs !! 0%nat = Some x -> volume_ok_2 vs root 0 = true -> vl_offset x = 0.
Proof.
  intros Hx. unfold volume_ok_2. rewrite (vol_at_lookup vs 0 x Hx : vol_at vs 0 = x). change (nz 0) with false. cbn iota.
  rewrite !andb_true_iff. intros [[_ H] _]. by apply Z.eqb_eq.
Qed.

Lemma ok_2_next vs root i x y : vs !! i = Some x -> vs !! S i = Some y -> volume_ok_2 vs root (Z.of_nat (S i)) = true ->
  has (vl_offset y) HAMMER2_FREEMAP_LEVEL1_MASK = false /\ vl_offset y = u64 (vl_offset x + vl_size x).
Proof.
  intros Hx Hy. unfold volume_ok_2. rewrite (vol_at_lookup _ _ _ Hy). replace (Z.of_nat (S i) - 1) with (Z.of_nat i) by lia.
  rewrite (vol_at_lookup _ _ _ Hx). destruct (nz_spec (Z.of_nat (S i))); [|lia]. rewrite !andb_true_iff.
  intros [[H1 [_ H2]] _]. apply negb_true_iff in H1. by apply Z.eqb_eq in H2.
Qed.

Section Verified.
Context (l : list hammer2_devvp) (s : mount_state).
Hypothesis (T : table_inv l s) (Hsum : sumz (dp_size <$> l) < 2 ^ 64).
Let vs := ms_volumes s.
Let root := ms_root s.

Lemma used_devs n : used_first n vs -> Forall2 (fun e v => vl_dev v = Some e) (omap vl_dev vs) (take n vs).
Proof.
  intros Hu. apply first_devs. intros i v Hv. assert (S := ti_slots _ _ T i v Hv). rewrite <- (Hu i v Hv).
  destruct (vol_used v) eqn:E; [by apply (slot_used i v)|]. by rewrite (slot_free i v S E).
Qed.

Lemma common_ok v : hammer2_verify_volumes_common vs root = true -> v ∈ vs -> vol_used v = true ->
  exists e, vl_dev v = Some e /\ vl_size v <= dp_size e /\ vl_size v <> 0.
Proof.
  unfold hammer2_verify_volumes_common. rewrite !andb_true_iff. intros [_ H] Hv Hu. rewrite forallb_forall in H.
  assert (X := H v ltac:(by apply list_elem_of_In)). rewrite Hu in X. cbn in X. unfold volume_ok in X.
  destruct (vl_dev v) as [e|]; [|done]. exists e. rewrite !andb_true_iff, !negb_true_iff, Z.leb_le, !Z.eqb_neq in X. destruct X as [[_ X1] X2]. done.
Qed.

(** The entries in use and their devices. *)
Definition backed (e : hammer2_devvp) (v : volume) : Prop := vl_dev v = Some e /\ 0 < vl_size v <= dp_size e.

Lemma used_backed n : hammer2_verify_volumes_common vs root = true -> used_first n vs -> Forall2 backed (omap vl_dev vs) (take n vs).
Proof.
  intros Hc Hu. assert (F := used_devs n Hu). apply Forall2_same_length_lookup_2; [by apply Forall2_length in F|].
  intros i e v He Hv. assert (Ed := Forall2_lookup_lr _ _ _ _ _ _ F He Hv). cbn in Ed. split; [done|].
  apply lookup_take_Some in Hv as [Hv Hi]. assert (Eu : vol_used v = true) by (rewrite (Hu i v Hv); by apply Nat.ltb_lt).
  destruct (common_ok v Hc ltac:(by eapply list_elem_of_lookup_2) Eu) as (e' & E' & H1 & H2).
  rewrite Ed in E'. injection E' as <-. destruct (slot_used i v (ti_slots _ _ T i v Hv) Eu) as (_ & _ & _ & [H3 _]). lia.
Qed.

Lemma used_sizes n : hammer2_verify_volumes_common vs root = true -> used_first n vs ->
  Forall (fun v => 0 <= vl_size v) (take n vs) /\ sumz (vl_size <$> take n vs) < 2 ^ 64.
Proof.
  intros Hc Hu. assert (F := used_backed n Hc Hu). split.
  - apply Forall_lookup. intros i v Hv. destruct (Forall2_lookup_r _ _ _ _ _ F Hv) as (e & _ & _ & H). lia.
  - apply (Z.le_lt_trans _ (sumz (dp_size <$> l))); [|done]. rewrite <- (sumz_perm (dp_size <$> omap vl_dev vs) (dp_size <$> l)) by (apply fmap_Permutation, T).
    apply sumz_le, Forall2_fmap. eapply Forall2_impl; [apply Forall2_flip, F|]. intros v e [_ H]. cbn. lia.
Qed.

(** No gaps and no overlap. *)
Definition tiled (n : nat) (total : Z) : Prop :=
  (0 < n <= length vs)%nat /\ used_first n vs /\ total = sumz (vl_size <$> take n vs) /\
  forall i v, take n vs !! i = Some v ->
    vl_offset v = sumz (vl_size <$> take i (take n vs)) /\ has (vl_offset v) HAMMER2_FREEMAP_LEVEL1_MASK = false.

Lemma offsets_from n : Forall (fun v => 0 <= vl_size v) (take n vs) -> sumz (vl_size <$> take n vs) < 2 ^ 64 ->
  (forall v, take n vs !! 0%nat = Some v -> vl_offset v = 0) ->
  (forall i x y, take n vs !! i = Some x -> take n vs !! S i = Some y -> vl_offset y = u64 (vl_offset x + vl_size x)) ->
  forall i v, take n vs !! i = Some v -> vl_offset v = sumz (vl_size <$> take i (take n vs)).
Proof.
  intros Hs Hb H0 Hn. induction i as [|i IH]; intros v Hv; [by rewrite (H0 v Hv)|].
  destruct (lookup_lt_is_Some_2 (take n vs) i) as [x Hx]; [apply lookup_lt_Some in Hv; lia|].
  rewrite (Hn i x v Hx Hv), (IH x Hx), (take_S_r _ i x Hx), fmap_app, sumz_app. cbn [fmap list_fmap sumz foldr].
  destruct (sumz_take (vl_size <$> take n vs) i (vl_size x)) as [B1 B2]; [by apply Forall_fmap|by rewrite list_lookup_fmap, Hx|].
  rewrite <- fmap_take in B1, B2. rewrite Forall_lookup in Hs. specialize (Hs i x Hx).
  rewrite u64_small by (unfold is_u64; lia). unfold sumz. lia.
Qed.

Lemma verify_2_tiled : hammer2_verify_volumes_common vs root = true -> hammer2_verify_volumes_2 vs root = true ->
  vol_used (vol_at vs 0) = true -> tiled (Z.to_nat (vd_nvolumes root)) (vd_total_size root).
Proof.
  intros Hc H2 H0. unfold hammer2_verify_volumes_2 in H2. cbv zeta in H2. rewrite !andb_true_iff in H2.
  destruct H2 as [[[[E1 E2] _] _] Hok]. apply Z.eqb_eq in E1, E2. rewrite forallb_forall in Hok.
  assert (Hok2 : forall i v, vs !! i = Some v -> vol_used v = true -> volume_ok_2 vs root (Z.of_nat i) = true).
  { intros i v Hv Hu. assert (Hi := lookup_lt_Some _ _ _ Hv). assert (L := ti_len _ _ T). fold vs in L.
    assert (X := Hok (Z.of_nat i)). rewrite (vol_at_lookup _ _ _ Hv), Hu in X. apply X. apply list_elem_of_In, elem_of_seqZ.
    unfold HAMMER2_MAX_VOLUMES. lia. }
  destruct (prefix_count vol_used vs) as (n & Hn & En & Hu).
  { intros i x y Hx Hy Uy. destruct (vol_used x) eqn:Ux; [done|]. rewrite (slot_free i x (ti_slots _ _ T i x Hx) Ux) in Hx.
    destruct (ok_2_next vs root i _ y Hx Hy (Hok2 _ _ Hy Uy)) as [A B]. rewrite B in A. by vm_compute in A. }
  rewrite E1, En, Nat2Z.id. destruct (used_sizes n Hc Hu) as [S1 S2].
  assert (Hget : forall i v, take n vs !! i = Some v -> vs !! i = Some v /\ volume_ok_2 vs root (Z.of_nat i) = true).
  { intros i v [Hv Hi]%lookup_take_Some. split; [done|]. apply (Hok2 i v Hv). rewrite (Hu i v Hv). by apply Nat.ltb_lt. }
  assert (H00 : forall v, take n vs !! 0%nat = Some v -> vl_offset v = 0) by (intros v [Hv X]%Hget; by apply (ok_2_first vs root)).
  split; [|split; [done|split; [rewrite E2; by apply (total_first n vs 0)|]]].
  - split; [|done]. destruct (lookup_lt_is_Some_2 vs 0) as [v Ev]; [rewrite (ti_len _ _ T : length vs = _); lia|].
    rewrite (vol_at_lookup vs 0 v Ev : vol_at vs 0 = v), (Hu 0%nat v Ev) in H0. by apply Nat.ltb_lt in H0.
  - intros i v Hv. split.
    + revert i v Hv. apply offsets_from; [done|done|done|]. intros i x y [Hx _]%Hget [Hy X]%Hget. by apply (ok_2_next vs root i x y).
    + destruct i as [|i]; [by rewrite (H00 v Hv)|]. apply Hget in Hv as [Hv X].
      destruct (lookup_lt_is_Some_2 vs i) as [x Hx]; [apply lookup_lt_Some in Hv; lia|]. by apply (ok_2_next vs root i x v).
Qed.

Lemma verify_1_tiled : hammer2_verify_volumes_common vs root = true -> hammer2_verify_volumes_1 vs root = true ->
  vol_used (vol_at vs 0) = true -> tiled 1 (vd_volu_size root).
Proof.
  intros Hc H1 H0. assert (R := ti_root _ _ T). fold vs root in R. rewrite H0 in R. destruct R as [_ R].
  unfold hammer2_verify_volumes_1 in H1. cbv zeta in H1. rewrite !andb_true_iff in H1.
  destruct H1 as [[[[[[E1 _] _] _] _] E2] _]. apply Z.eqb_eq in E1, E2. assert (L := ti_len _ _ T). fold vs in L.
  unfold tiled. destruct vs as [|v vs'] eqn:Ev; [done|]. change (vol_at (v :: vs') 0) with v in *. rewrite countb_cons, H0 in E1.
  split; [rewrite L; lia|]. split; [|split; [rewrite <- R; symmetry; apply Z.add_0_r|]].
  - intros [|i] w Hw; [by injection Hw as <-|]. cbn in Hw |- *. destruct (vol_used w) eqn:Ew; [|done].
    assert (X := countb_pos vol_used vs' i w Hw Ew). lia.
  - intros [|i] w Hw; [|by destruct i]. injection Hw as <-. by rewrite E2.
Qed.

Lemma verified_tiled : vd_version root <> 0 -> hammer2_verify_volumes vs root = 0 ->
  hammer2_verify_volumes_common vs root = true /\ tiled (Z.to_nat (hmp_nvolumes root)) (hmp_total_size root).
Proof.
  intros Hv. assert (H0 : vol_used (vol_at vs 0) = true).
  { assert (R := ti_root _ _ T). fold vs root in R. by destruct (vol_used _); [|destruct R]. }
  unfold hammer2_verify_volumes, hmp_nvolumes, hmp_total_size. destruct (hammer2_verify_volumes_common vs root) eqn:Hc; [|done].
  cbn [negb]. destruct (_ <=? _); intros E; (split; [done|]).
  - destruct (hammer2_verify_volumes_2 vs root) eqn:E2; [|done]. by apply verify_2_tiled.
  - destruct (hammer2_verify_volumes_1 vs root) eqn:E1; [|done]. by apply verify_1_tiled.
Qed.
End Verified.

(** C17: the volumes of a mount cover the file system once.  For devices that together
    have less than 2^64 bytes, hammer2_init_volumes() returns without a failed
    assertion.  When it reports no error there is one volume for each device, no
    larger than that device; the volumes follow each other from offset 0 without a gap
    up to the size of the file system, each at a multiple of 1GB, as the device
    buffers require; and hammer2_get_volume() has for every offset below that size the
    volume that contains it, without hpanic(). *)
Theorem mounted_volumes_tile crc l : Forall devvp_ok l -> sumz (dp_size <$> l) < 2 ^ 64 ->
  exists s error, hammer2_init_volumes crc l = Some (s, error) /\
  (error = 0 -> let vols := hmp_volumes s in let total := hmp_total_size (ms_root s) in
   (exists devs, devs ≡ₚ l /\ Forall2 (fun e v => vol_file v = dp_file e /\ 0 < vol_size v <= dp_size e) devs vols) /\
   total = sumz (vol_size <$> vols) /\
   (forall i v, vols !! i = Some v -> vol_offset v = sumz (vol_size <$> take i vols)) /\
   forall S (HS : PageCache S) C (h : hammer2_dev S) off, cf_volumes C = vols -> volumes_ok C /\
     (0 <= off < total -> exists v, hammer2_get_volume C h off = (h, Some v) /\ v ∈ vols /\
        vol_offset v <= off &~ HAMMER2_OFF_MASK_RADIX < vol_offset v + vol_size v)).
Proof.
  intros Hl Hsum. destruct (init_devices_ok crc l [] mount_init mount_init_inv Hl) as (s & error & E & T).
  unfold hammer2_init_volumes. rewrite E. cbn [mbind option_bind]. destruct (nz_spec error) as [Hne|He]; [eexists _, _; by split|].
  destruct (Z.eqb_spec (vd_version (ms_root s)) 0) as [|Hv]; [eexists _, _; by split|]. eexists _, _. split; [done|]. intros Hok.
  set (vols := hmp_volumes s). set (total := hmp_total_size (ms_root s)).
  assert (T' : table_inv l s) by (destruct (T ltac:(lia)) as [T1 T2 T3 T4]; split; [done|done| |done];
    rewrite T3, app_nil_r; symmetry; apply Permutation_rev).
  destruct (verified_tiled l s T' Hsum Hv Hok) as (Hc & Hn & Hu & Ht & Ho).
  set (n := Z.to_nat (hmp_nvolumes (ms_root s))) in *. set (U := take n (ms_volumes s)) in *.
  assert (Ev : vols = get_volume_of <$> U) by done. clearbody vols. subst vols.
  assert (Es : forall k, vol_size <$> take k (get_volume_of <$> U) = vl_size <$> take k U).
  { intros k. rewrite <- fmap_take, <- list_fmap_compose. done. }
  assert (Et : total = sumz (vol_size <$> (get_volume_of <$> U))) by (rewrite <- list_fmap_compose; exact Ht).
  assert (Hoff : forall i v, (get_volume_of <$> U) !! i = Some v -> vol_offset v = sumz (vol_size <$> take i (get_volume_of <$> U))).
  { intros i v (w & -> & Hw)%list_lookup_fmap_Some. rewrite Es. by apply Ho. }
  split; [|split; [done|split; [done|]]].
  - exists (omap vl_dev (ms_volumes s)). split; [apply T'|]. apply Forall2_fmap_r.
    eapply Forall2_impl; [by apply (used_backed l s T' n)|]. intros e v [Ed Hs]. cbn. by rewrite Ed.
  - intros S HS C h off Ec. split.
    + unfold volumes_ok. rewrite Ec. apply Forall_lookup. intros i v (w & -> & Hw)%list_lookup_fmap_Some.
      destruct (Ho i w Hw) as [_ A]. unfold has in A. cbn [get_volume_of vol_offset].
      destruct (nz_spec (vl_offset w & HAMMER2_FREEMAP_LEVEL1_MASK)); [done|lia].
    + intros Hr. unfold hammer2_get_volume. rewrite Ec. set (x := off &~ HAMMER2_OFF_MASK_RADIX).
      assert (Hx : 0 <= x < total).
      { assert (B := rounddown2_bounds off 6 ltac:(lia)). change (rounddown2 off (2 ^ 6)) with x in B. assert (0 <= x) by (by apply Z.ldiff_nonneg; left; lia). lia. }
      destruct (find_volume 0 (get_volume_of <$> U) x) as [v Ef]; [by apply Hoff|rewrite <- Et; lia|].
      rewrite Ef. apply find_some in Ef as [Hin Hb]. exists v. split; [done|]. split; [by apply list_elem_of_In|]. zcases; lia.
Qed.

(** Two devices of 4GB. *)
Definition header_of (id : Z) : header :=
  let m x := if (0xE10 <=? x) && (x <? 0x1000) then 255
             else if (0x50 <=? x) && (x <? 0x60) then aget 0 hammer2_fstype_uuid (x - 0x50) else 0 in
  let m := put_le 1 (put_le 1 (put_le 4 m 0x30 2) 0x3B id) 0x3C 2 in
  put_le 8 (put_le 8 (put_le 8 (put_le 8 m 0 HAMMER2_VOLUME_ID_HBO) 0x28 (2 ^ 32)) 0xC0 (2 ^ 33)) 0xE08 (2 ^ 32).
Definition devvp_of (id : Z) : hammer2_devvp := mkDevvp (70 + id) (fun i => if i =? 0 then Some (header_of id) else None) (2 ^ 32).
Definition devvps : list hammer2_devvp := [devvp_of 1; devvp_of 0].

Lemma put_le_bytes n m off v : bytes_ok m -> bytes_ok (put_le n m off v).
Proof. intros Hm x. unfold put_le. destruct (_ && _); [apply Z.mod_pos_bound; lia|apply Hm]. Qed.

Lemma header_of_bytes id : bytes_ok (header_of id).
Proof.
  unfold header_of. repeat apply put_le_bytes. intros x. destruct (_ && _); [lia|]. destruct (_ && _) eqn:E; [|lia].
  assert (F : Forall (fun b => 0 <= b < 256) hammer2_fstype_uuid) by (repeat constructor; lia).
  apply (aget_Forall 0 _ _ _ F). cbn. zcases. lia.
Qed.

Lemma devvps_ok : Forall devvp_ok devvps.
Proof.
  assert (H : forall id, devvp_ok (devvp_of id)); [|by constructor; [|constructor; [|constructor]]].
  intros id i m Hm. cbn in Hm. destruct (i =? 0); [|done]. injection Hm as <-. apply header_of_bytes.
Qed.

Lemma mounted_volumes_tile_witness : exists s, hammer2_init_volumes (fun _ => 0) devvps = Some (s, 0) /\
  hmp_total_size (ms_root s) = sumz (vol_size <$> hmp_volumes s) /\
  hmp_volumes s = [mkVolume 70 0 (2 ^ 32); mkVolume 71 (2 ^ 32) (2 ^ 32)].
Proof.
  destruct (mounted_volumes_tile (fun _ => 0) devvps devvps_ok) as (s & error & E & H); [vm_compute; reflexivity|].
  assert (X : option_map (fun r => (hmp_volumes (fst r), snd r)) (hammer2_init_volumes (fun _ => 0) devvps) =
    Some ([mkVolume 70 0 (2 ^ 32); mkVolume 71 (2 ^ 32) (2 ^ 32)], 0)) by (vm_compute; reflexivity).
  rewrite E in X. cbn [option_map fst snd] in X. injection X as X1 ->. exists s. split; [exact E|]. split; [|exact X1].
  exact (proj1 (proj2 (H eq_refl))).
Defined.
