(* ===== verification/Cluster.v ===== *)
(** hammer2_cluster.c: a cluster of chains, one for every node of a PFS, and
    hammer2_cluster_check(), which decides whether enough masters agree on
    what they hold under a key.

    The four passes of the check are four definitions over the slots of the
    cluster; the loop of the second one runs on fuel, and [pass2_loop_total]
    shows that one round for every slot and two more always suffice. *)
From S2P Require Import Prelude Disk.
From Stdlib Require Import ZArith Lia Bool.
From stdpp Require Import base list.
Open Scope Z_scope.

Module Cluster.

Definition HAMMER2_TID_MAX : Z := 0xFFFFFFFFFFFFFFFF.
Definition HAMMER2_PFSTYPE_SLAVE : Z := 0x03.
Definition HAMMER2_PFSTYPE_SOFT_SLAVE : Z := 0x04.
Definition HAMMER2_PFSTYPE_SOFT_MASTER : Z := 0x05.
Definition HAMMER2_PFSTYPE_MASTER : Z := 0x06.
Definition HAMMER2_PFSTYPE_SUPROOT : Z := 0x08.
Definition HAMMER2_CLUSTER_INODE : Z := 0x00000001.
Definition HAMMER2_CLUSTER_WRHARD : Z := 0x00000100.
Definition HAMMER2_CLUSTER_RDHARD : Z := 0x00000200.
Definition HAMMER2_CLUSTER_NOHARD : Z := 0x00000800.
Definition HAMMER2_CLUSTER_WRSOFT : Z := 0x00001000.
Definition HAMMER2_CLUSTER_RDSOFT : Z := 0x00002000.
Definition HAMMER2_CLUSTER_NOSOFT : Z := 0x00008000.
Definition HAMMER2_CLUSTER_MSYNCED : Z := 0x00010000.
Definition HAMMER2_CLUSTER_SSYNCED : Z := 0x00020000.
Definition HAMMER2_CITEM_INVALID : Z := 0x00000001.
Definition HAMMER2_CITEM_FEMOD : Z := 0x00000002.
Definition HAMMER2_CITEM_NULL : Z := 0x00000004.
Definition HAMMER2_CHECK_NULL : Z := 0x00000001.

(** What the cluster code reads of a [hammer2_chain_t]; [ch_addr] is the
    pointer, which is what two chains are compared by. *)
Record hammer2_chain := mkChain {
  ch_addr : Z;
  ch_bref : hammer2_blockref;
  ch_bytes : Z;
  ch_error : Z;
  ch_flags : Z
}.

(** [struct hammer2_cluster_item]. *)
Record hammer2_cluster_item := mkItem {
  ci_chain : option hammer2_chain;
  ci_flags : Z;
  ci_error : Z
}.

(** What the check reads of a [hammer2_pfs_t]. *)
Record hammer2_pfs := mkPfs {
  pfs_nmasters : Z;         (* uint8_t *)
  pfs_types : list Z        (* uint8_t[HAMMER2_MAXCLUSTER] *)
}.

(** [struct hammer2_cluster]; [cl_array] is its first [nchains] elements. *)
Record hammer2_cluster := mkCluster {
  cl_array : list hammer2_cluster_item;
  cl_pmp : option hammer2_pfs;
  cl_focus : option hammer2_chain;
  cl_focus_index : Z;
  cl_error : Z;
  cl_flags : Z;
  cl_ddflag : Z
}.

(** [hammer2_cluster_type]; [None] is the failed KKASSERT of a cluster with
    neither an error nor a focus. *)
Definition hammer2_cluster_type (c : hammer2_cluster) : option Z :=
  if cl_error c =? 0
  then (fun f => br_type (ch_bref f)) <$> cl_focus c
  else Some 0.

Definition hammer2_cluster_bref (c : hammer2_cluster) : option hammer2_blockref :=
  if cl_error c =? 0
  then (fun f => bref_set_data_off (ch_bref f) 0) <$> cl_focus c
  else Some bref_zero.

(** The cluster of hammer2_dummy_xop_from_chain(): [bzero] and one slot. *)
Definition hammer2_dummy_xop_from_chain (pmp : option hammer2_pfs) (chain : hammer2_chain)
    : hammer2_cluster :=
  mkCluster [mkItem (Some chain) 0 0] pmp (Some chain) 0 (ch_error chain) 0 0.

(** A slot: its index, the type of its node and the element itself. *)
Record slot := mkSlot {
  sl_index : Z;
  sl_type : Z;
  sl_item : hammer2_cluster_item
}.

Definition sl_chain (s : slot) : option hammer2_chain := ci_chain (sl_item s).
Definition sl_error (s : slot) : Z := ci_error (sl_item s).

(** The array walked with [pmp->pfs_types[i]]. *)
Definition slots (types : list Z) (a : list hammer2_cluster_item) : list slot :=
  imap (fun i it => mkSlot (Z.of_nat i) (aget 0 types (Z.of_nat i)) it) a.

(** ** Pass 1 *)

Record pass1 := mkP1 {
  p1_ttlmasters : Z;
  p1_ttlslaves : Z;
  p1_nflags : Z;
  p1_focus : option hammer2_chain;
  p1_focus_index : Z;
  p1_error : Z
}.

Definition pass1_flags (it : hammer2_cluster_item) : hammer2_cluster_item :=
  mkItem (ci_chain it) ((ci_flags it &~ HAMMER2_CITEM_FEMOD) ||| HAMMER2_CITEM_INVALID)
    (ci_error it).

Definition pass1_item (p : pass1) (s : slot) : pass1 :=
  let '(mkP1 m sv nf fo fi er) := p in
  let ty := sl_type s in
  if bool_decide (is_Some (sl_chain s)) && nz (sl_error s) then
    if (ty =? HAMMER2_PFSTYPE_SUPROOT) || (ty =? HAMMER2_PFSTYPE_MASTER)
    then mkP1 (m + 1) sv nf fo fi er
    else if ty =? HAMMER2_PFSTYPE_SLAVE then mkP1 m (sv + 1) nf fo fi er
    else p
  else if ty =? HAMMER2_PFSTYPE_MASTER then mkP1 (m + 1) sv nf fo fi er
  else if ty =? HAMMER2_PFSTYPE_SLAVE then mkP1 m (sv + 1) nf fo fi er
  else if ty =? HAMMER2_PFSTYPE_SOFT_MASTER then
    mkP1 m sv ((nf ||| HAMMER2_CLUSTER_WRSOFT) ||| HAMMER2_CLUSTER_RDSOFT) fo fi er
  else if ty =? HAMMER2_PFSTYPE_SOFT_SLAVE then mkP1 m sv (nf ||| HAMMER2_CLUSTER_RDSOFT) fo fi er
  else if ty =? HAMMER2_PFSTYPE_SUPROOT then
    mkP1 (m + 1) sv ((nf ||| HAMMER2_CLUSTER_WRHARD) ||| HAMMER2_CLUSTER_RDHARD)
      (sl_chain s) (sl_index s) (sl_error s)
  else p.

(** ** Pass 2 *)

Record pass2 := mkP2 {
  p2_umasters : Z;
  p2_xmasters : Z;
  p2_nmasters : Z;
  p2_keymatch : Z;
  p2_quorum_tid : Z;
  p2_focus : option hammer2_chain;
  p2_focus_index : Z;
  p2_error : Z
}.

Definition is_master (ty : Z) : bool :=
  (ty =? HAMMER2_PFSTYPE_MASTER) || (ty =? HAMMER2_PFSTYPE_SUPROOT).

(** A chain found under the key: [quorum_tid] moves up to the greatest
    transaction below the last candidate, and the masters at it are counted. *)
Definition pass2_match (last : Z) (p : pass2) (i : Z) (ch : hammer2_chain) : pass2 :=
  let '(mkP2 u x n k q fo fi er) := p in
  let k := k + 1 in
  let tid := br_modify_tid (ch_bref ch) in
  let '(n, q) := if (tid <? last) && (q <? tid) then (0, tid) else (n, q) in
  if q =? tid then
    if ch_error ch =? 0 then mkP2 u x (n + 1) k q (Some ch) i er
    else mkP2 u x (n + 1) k q fo fi er
  else mkP2 u x n k q fo fi er.

Definition pass2_item (key flags last : Z) (p : pass2) (s : slot) : pass2 :=
  let '(mkP2 u x n k q fo fi er) := p in
  if negb (is_master (sl_type s)) then p
  else
    match sl_chain s with
    | None =>
        if (ci_flags (sl_item s) & HAMMER2_CITEM_NULL) =? 0 then mkP2 (u + 1) x n k q fo fi er
        else if nz (sl_error s & (HAMMER2_ERROR_ETIMEDOUT ||| HAMMER2_ERROR_ENOTCONN))
        then mkP2 u (x + 1) n k q fo fi er
        else if nz (flags & HAMMER2_CHECK_NULL)
        then mkP2 u x (n + 1) (k + 1) q fo fi (if er =? 0 then sl_error s else er)
        else p
    | Some ch =>
        if nz (flags & HAMMER2_CHECK_NULL) then p
        else if (key =? HAMMER2_KEY_MAX) || (br_key (ch_bref ch) =? key)
        then pass2_match last p (sl_index s) ch
        else p
    end.

(** One round of the loop: the counters start again, the focus and the error
    of the cluster do not. *)
Definition pass2_reset (p : pass2) : pass2 :=
  mkP2 0 0 0 0 0 (p2_focus p) (p2_focus_index p) (p2_error p).

Definition pass2_scan (key flags last : Z) (ss : list slot) (p : pass2) : pass2 :=
  foldl (pass2_item key flags last) (pass2_reset p) ss.

Fixpoint pass2_loop (fuel : nat) (nquorum key flags : Z) (ss : list slot) (last : Z) (p : pass2)
    : option pass2 :=
  match fuel with
  | O => None
  | S f =>
      if (p2_nmasters p <? nquorum) && negb (last =? 0) then
        let p := pass2_scan key flags last ss p in
        if nquorum <=? p2_nmasters p then Some p
        else pass2_loop f nquorum key flags ss (p2_quorum_tid p) p
      else Some p
  end.

(** The early return when the masters do not suffice. *)
Definition no_quorum_error (pmp_nmasters ttlmasters nquorum : Z) (p : pass2) : Z :=
  if nquorum <=? p2_nmasters p + p2_umasters p then HAMMER2_ERROR_EINPROGRESS
  else if (0 <? p2_xmasters p) || (ttlmasters <? pmp_nmasters) then HAMMER2_ERROR_ENOTCONN
  else if p2_keymatch p <? nquorum then HAMMER2_ERROR_ESRCH
  else HAMMER2_ERROR_EDEADLK.

(** ** Pass 3 *)

Record pass3 := mkP3 { p3_nslaves : Z; p3_nflags : Z; p3_error : Z }.

Definition quorum_match (key tid : Z) (ch : option hammer2_chain) : bool :=
  match ch with
  | None => false
  | Some c => (br_key (ch_bref c) =? key) && (br_modify_tid (ch_bref c) =? tid)
  end.

Definition pass3_flags (ty : Z) (fl : Z) : Z :=
  if (ty =? HAMMER2_PFSTYPE_MASTER) || (ty =? HAMMER2_PFSTYPE_SOFT_MASTER)
     || (ty =? HAMMER2_PFSTYPE_SUPROOT)
  then (fl ||| HAMMER2_CITEM_FEMOD) &~ HAMMER2_CITEM_INVALID
  else if (ty =? HAMMER2_PFSTYPE_SLAVE) || (ty =? HAMMER2_PFSTYPE_SOFT_SLAVE)
  then fl &~ HAMMER2_CITEM_INVALID
  else fl.

Definition pass3_item (key tid : Z) (s : slot) : hammer2_cluster_item :=
  let it := sl_item s in
  if quorum_match key tid (ci_chain it)
  then mkItem (ci_chain it) (pass3_flags (sl_type s) (ci_flags it)) (ci_error it)
  else it.

Definition pass3_count (key tid : Z) (p : pass3) (s : slot) : pass3 :=
  let '(mkP3 ns nf er) := p in
  if quorum_match key tid (sl_chain s) then
    let er := if er =? 0 then sl_error s else er in
    let ty := sl_type s in
    if (ty =? HAMMER2_PFSTYPE_MASTER) || (ty =? HAMMER2_PFSTYPE_SUPROOT)
    then mkP3 ns ((nf ||| HAMMER2_CLUSTER_WRHARD) ||| HAMMER2_CLUSTER_RDHARD) er
    else if ty =? HAMMER2_PFSTYPE_SLAVE
    then mkP3 (ns + 1) (nf ||| HAMMER2_CLUSTER_RDHARD) er
    else mkP3 ns nf er
  else p.

(** ** Pass 4 *)

Definition is_ddflag (ch : hammer2_chain) : Z :=
  if br_type (ch_bref ch) =? HAMMER2_BREF_TYPE_INODE then 1 else 0.

Definition bref_mismatch (ch focus : hammer2_chain) : bool :=
  negb (br_type (ch_bref ch) =? br_type (ch_bref focus)) ||
  negb (br_key (ch_bref ch) =? br_key (ch_bref focus)) ||
  negb (br_keybits (ch_bref ch) =? br_keybits (ch_bref focus)) ||
  negb (br_modify_tid (ch_bref ch) =? br_modify_tid (ch_bref focus)) ||
  negb (ch_bytes ch =? ch_bytes focus) ||
  negb (is_ddflag ch =? is_ddflag focus).

Definition pass4_item (focus : hammer2_chain) (it : hammer2_cluster_item) : hammer2_cluster_item :=
  match ci_chain it with
  | None => it
  | Some ch =>
      if ch_addr ch =? ch_addr focus then it
      else if nz (ci_flags it & HAMMER2_CITEM_INVALID) then it
      else if bref_mismatch ch focus
      then mkItem (Some ch) (ci_flags it ||| HAMMER2_CITEM_INVALID) (ci_error it)
      else it
  end.

(** ** The check *)

(** Past the quorum, with a focus: passes 3 and 4 and the cluster's flags. *)
Definition check_validate (types : list Z) (a : list hammer2_cluster_item) (key : Z)
    (pmp : option hammer2_pfs) (p1 : pass1) (p2 : pass2) (focus : hammer2_chain) (cflags : Z)
    : hammer2_cluster * Z :=
  let tid := p2_quorum_tid p2 in
  let p3 := foldl (pass3_count key tid) (mkP3 0 (p1_nflags p1) 0) (slots types a) in
  let a := pass3_item key tid <$> slots types a in
  let a := if nz (ch_flags focus & HAMMER2_CHAIN_PFSBOUNDARY) then a else pass4_item focus <$> a in
  let nf := p3_nflags p3 in
  let nf := if p1_ttlslaves p1 =? 0 then nf ||| HAMMER2_CLUSTER_NOSOFT else nf in
  let nf := if p1_ttlmasters p1 =? 0 then nf ||| HAMMER2_CLUSTER_NOHARD else nf in
  let nf := if p3_nslaves p3 =? p1_ttlslaves p1 then nf ||| HAMMER2_CLUSTER_SSYNCED else nf in
  let nf := if p2_nmasters p2 =? p1_ttlmasters p1 then nf ||| HAMMER2_CLUSTER_MSYNCED else nf in
  (mkCluster a pmp (Some focus) (p2_focus_index p2) (p3_error p3)
     ((cflags & HAMMER2_CLUSTER_INODE) ||| nf) (is_ddflag focus), p3_error p3).

Definition cluster_types (pmp : option hammer2_pfs) : list Z := from_option pfs_types [] pmp.

Definition cluster_nquorum (pmp : option hammer2_pfs) : Z :=
  match pmp with Some p => pfs_nmasters p / 2 + 1 | None => 0 end.

Definition check_pass1 (c : hammer2_cluster) : pass1 :=
  foldl pass1_item (mkP1 0 0 0 None (cl_focus_index c) 0) (slots (cluster_types (cl_pmp c)) (cl_array c)).

Definition p2_init (p1 : pass1) : pass2 :=
  mkP2 0 0 0 0 0 (p1_focus p1) (p1_focus_index p1) (p1_error p1).

Definition check_pass2 (c : hammer2_cluster) (key flags : Z) : option pass2 :=
  pass2_loop (length (cl_array c) + 2) (cluster_nquorum (cl_pmp c)) key flags
    (slots (cluster_types (cl_pmp c)) (pass1_flags <$> cl_array c)) HAMMER2_TID_MAX
    (p2_init (check_pass1 c)).

(** [hammer2_cluster_check]: the cluster it leaves and the error it returns. *)
Definition hammer2_cluster_check (c : hammer2_cluster) (key flags : Z)
    : option (hammer2_cluster * Z) :=
  let types := cluster_types (cl_pmp c) in
  let nquorum := cluster_nquorum (cl_pmp c) in
  let p1 := check_pass1 c in
  let a := pass1_flags <$> cl_array c in
  p2 ← check_pass2 c key flags;
  let left er := mkCluster a (cl_pmp c) (p2_focus p2) (p2_focus_index p2) er (cl_flags c) (cl_ddflag c) in
  if p2_nmasters p2 <? nquorum then
    Some (left (p2_error p2),
          no_quorum_error (from_option pfs_nmasters 0 (cl_pmp c)) (p1_ttlmasters p1) nquorum p2)
  else if nz (flags & HAMMER2_CHECK_NULL) then
    let er := if p2_error p2 =? 0 then HAMMER2_ERROR_ENOENT else p2_error p2 in
    Some (left er, er)
  else match p2_focus p2 with
       | None => Some (left (p2_error p2), HAMMER2_ERROR_EIO)
       | Some focus =>
           Some (check_validate types a key (cl_pmp c) p1 p2 focus (cl_flags c))
       end.

End Cluster.
