(* ===== verification/ClusterProof.v ===== *)
(** What hammer2_cluster_check() promises: it returns; when it returns 0 the
    focus is a chain that a majority of the masters hold under the key at the
    highest transaction a majority holds; two successful checks share a master;
    and every error says what the counted masters were. *)
From S2P Require Import Prelude Disk Cluster.
From Stdlib Require Import ZArith Lia Bool.
From stdpp Require Import base list.
Import Cluster.
Open Scope Z_scope.

(** ** Votes *)

Definition key_match (key : Z) (ch : hammer2_chain) : bool :=
  (key =? HAMMER2_KEY_MAX) || (br_key (ch_bref ch) =? key).

(** The transaction a slot votes for: that of the chain a master holds under
    the key. *)
Definition vote (key : Z) (s : slot) : option Z :=
  if is_master (sl_type s) then
    match sl_chain s with
    | Some ch => if key_match key ch then Some (br_modify_tid (ch_bref ch)) else None
    | None => None
    end
  else None.

Definition votes (key : Z) (ss : list slot) : list Z := omap (vote key) ss.

Definition tally (t : Z) (vs : list Z) : Z := Z.of_nat (length (filter (fun x => x = t) vs)).

(** The greatest vote below [last], 0 when there is none. *)
Definition best (last : Z) (vs : list Z) : Z := foldr Z.max 0 (filter (fun t => t < last) vs).

(** Masters with no chain: still working, cut off, or past their last element. *)
Definition in_progress (s : slot) : bool :=
  is_master (sl_type s) && bool_decide (sl_chain s = None) &&
  ((ci_flags (sl_item s) & HAMMER2_CITEM_NULL) =? 0).
Definition no_chain_error (s : slot) : bool :=
  nz (sl_error s & (HAMMER2_ERROR_ETIMEDOUT ||| HAMMER2_ERROR_ENOTCONN)).
Definition unreachable (s : slot) : bool :=
  is_master (sl_type s) && bool_decide (sl_chain s = None) &&
  nz (ci_flags (sl_item s) & HAMMER2_CITEM_NULL) && no_chain_error s.
Definition ended (s : slot) : bool :=
  is_master (sl_type s) && bool_decide (sl_chain s = None) &&
  nz (ci_flags (sl_item s) & HAMMER2_CITEM_NULL) && negb (no_chain_error s).

Lemma votes_snoc key ss s :
  votes key (ss ++ [s]) = votes key ss ++ (match vote key s with Some t => [t] | None => [] end).
Proof. unfold votes. rewrite omap_app. cbn. by destruct (vote key s). Qed.

Lemma tally_snoc t vs x : tally t (vs ++ [x]) = tally t vs + (if x =? t then 1 else 0).
Proof.
  unfold tally. rewrite filter_app, length_app, filter_cons, filter_nil.
  destruct (Z.eqb_spec x t); [rewrite decide_True by done|rewrite decide_False by done]; cbn; lia.
Qed.

Lemma tally_absent t vs : t ∉ vs -> tally t vs = 0.
Proof.
  intros H. unfold tally. induction vs as [|x vs IH]; [done|].
  apply not_elem_of_cons in H as [Hx Hv]. rewrite filter_cons, decide_False by congruence. by apply IH.
Qed.

Lemma tally_pos t vs : 0 < tally t vs -> t ∈ vs.
Proof.
  intros H. destruct (decide (t ∈ vs)) as [|Hn]; [done|]. rewrite tally_absent in H by done. lia.
Qed.

Lemma tally_nonneg t vs : 0 <= tally t vs.
Proof. unfold tally. lia. Qed.

Lemma best_snoc last vs x :
  best last (vs ++ [x]) = if x <? last then Z.max (best last vs) x else best last vs.
Proof.
  unfold best. induction vs as [|y vs IH].
  - rewrite app_nil_l, filter_cons, filter_nil.
    destruct (Z.ltb_spec x last); [rewrite decide_True by done; cbn; lia|by rewrite decide_False by lia].
  - rewrite <- app_comm_cons, !filter_cons.
    destruct (decide (y < last)); cbn [foldr]; rewrite IH; destruct (x <? last); lia.
Qed.

Lemma best_nonneg last vs : 0 <= best last vs.
Proof. unfold best. induction (filter _ vs); cbn; lia. Qed.

Lemma best_lt last vs : 0 < last -> best last vs < last.
Proof.
  intros H. induction vs as [|x vs IH] using rev_ind; [done|]. rewrite best_snoc.
  destruct (Z.ltb_spec x last); lia.
Qed.

Lemma best_ge last vs t : t ∈ vs -> t < last -> t <= best last vs.
Proof.
  intros Hin Ht. induction vs as [|x vs IH] using rev_ind; [by apply elem_of_nil in Hin|].
  rewrite best_snoc. apply elem_of_app in Hin as [Hin| ->%list_elem_of_singleton].
  - specialize (IH Hin). destruct (x <? last); lia.
  - destruct (Z.ltb_spec x last); lia.
Qed.

Lemma best_in last vs : best last vs <> 0 -> best last vs ∈ vs.
Proof.
  intros H. induction vs as [|x vs IH] using rev_ind; [done|]. rewrite best_snoc in H |- *.
  apply elem_of_app. destruct (Z.ltb_spec x last); [|by auto].
  destruct (Z.max_spec (best last vs) x) as [[? E]|[? E]]; rewrite E in H |- *.
  - right. by apply list_elem_of_singleton.
  - auto.
Qed.

(** ** One round of pass 2 *)

Lemma pass2_scan_snoc key flags last ss s p :
  pass2_scan key flags last (ss ++ [s]) p =
  pass2_item key flags last (pass2_scan key flags last ss p) s.
Proof. unfold pass2_scan. by rewrite foldl_app. Qed.

Definition null_scan (flags : Z) : bool := nz (flags & HAMMER2_CHECK_NULL).

(** The focus is the chain of a slot that voted [t] and has no error. *)
Definition focused (key t : Z) (ss : list slot) (p : pass2) : Prop :=
  exists s ch, s ∈ ss /\ vote key s = Some t /\ sl_chain s = Some ch /\ ch_error ch = 0 /\
    p2_focus p = Some ch /\ p2_focus_index p = sl_index s.

Definition sound_vote (key t : Z) (ss : list slot) : Prop :=
  exists s ch, s ∈ ss /\ vote key s = Some t /\ sl_chain s = Some ch /\ ch_error ch = 0.

Record scan_result (key last : Z) (ss : list slot) (p : pass2) : Prop := mkScan {
  sr_tid : p2_quorum_tid p = best last (votes key ss);
  sr_nmasters : p2_nmasters p = tally (p2_quorum_tid p) (votes key ss);
  sr_keymatch : p2_keymatch p = Z.of_nat (length (votes key ss));
  sr_umasters : p2_umasters p = countb in_progress ss;
  sr_xmasters : p2_xmasters p = countb unreachable ss;
  sr_focus : sound_vote key (p2_quorum_tid p) ss -> focused key (p2_quorum_tid p) ss p
}.

Lemma scan_result_nil key last p : scan_result key last [] (pass2_reset p).
Proof. constructor; try done. intros (s & ch & H & _). by apply elem_of_nil in H. Qed.

(** A slot that does not vote changes at most the counts of absent masters. *)
Lemma scan_result_skip key last ss s p p' :
  scan_result key last ss p -> vote key s = None ->
  p2_quorum_tid p' = p2_quorum_tid p -> p2_nmasters p' = p2_nmasters p ->
  p2_keymatch p' = p2_keymatch p -> p2_focus p' = p2_focus p ->
  p2_focus_index p' = p2_focus_index p ->
  p2_umasters p' = p2_umasters p + (if in_progress s then 1 else 0) ->
  p2_xmasters p' = p2_xmasters p + (if unreachable s then 1 else 0) ->
  scan_result key last (ss ++ [s]) p'.
Proof.
  intros [? ? ? ? ? Hf] Hv Eq En Ek Ef Ei Eu Ex.
  constructor; rewrite ?votes_snoc, ?Hv, ?app_nil_r, ?countb_snoc; try congruence.
  rewrite Eq. intros (s' & ch & Hin & Hs & Hc & He).
  apply elem_of_app in Hin as [Hin| ->%list_elem_of_singleton]; [|congruence].
  destruct Hf as (s2 & c2 & Hin2 & Hr); [by exists s', ch|]. exists s2, c2.
  rewrite Ef, Ei. split; [by apply elem_of_app; left|done].
Qed.

Lemma focused_snoc key t ss s p : focused key t ss p -> focused key t (ss ++ [s]) p.
Proof.
  intros (s' & ch & Hin & Hr). exists s', ch. split; [|done]. by apply elem_of_app; left.
Qed.

Lemma vote_chain key s ch : is_master (sl_type s) = true -> sl_chain s = Some ch ->
  key_match key ch = true -> vote key s = Some (br_modify_tid (ch_bref ch)).
Proof. intros Hm Hc Hk. unfold vote. by rewrite Hm, Hc, Hk. Qed.

(** The state after a vote, case by case. *)
Lemma pass2_match_eq last p i ch t :
  t = br_modify_tid (ch_bref ch) -> 0 <= p2_quorum_tid p < last ->
  let p' := pass2_match last p i ch in
  let q' := if t <? last then Z.max (p2_quorum_tid p) t else p2_quorum_tid p in
  p2_quorum_tid p' = q' /\
  p2_nmasters p' = (if q' =? p2_quorum_tid p then p2_nmasters p else 0) + (if t =? q' then 1 else 0) /\
  p2_keymatch p' = p2_keymatch p + 1 /\ p2_umasters p' = p2_umasters p /\
  p2_xmasters p' = p2_xmasters p /\ p2_error p' = p2_error p /\
  (p2_focus p', p2_focus_index p') =
    (if (t =? q') && (ch_error ch =? 0) then (Some ch, i) else (p2_focus p, p2_focus_index p)).
Proof.
  intros -> Hq. destruct p as [u x n k q fo fi er]. cbn in *. unfold pass2_match.
  set (t := br_modify_tid (ch_bref ch)).
  destruct (Z.ltb_spec t last), (Z.ltb_spec q t); cbn [andb];
    [rewrite Z.max_r by lia|rewrite Z.max_l by lia| |];
    repeat match goal with |- context [?a =? ?b] => destruct (Z.eqb_spec a b); try lia end;
    cbn; repeat split; lia.
Qed.

Lemma chain_not_absent s ch : sl_chain s = Some ch ->
  in_progress s = false /\ unreachable s = false /\ ended s = false.
Proof.
  intros H. unfold in_progress, unreachable, ended. rewrite H, bool_decide_eq_false_2 by done.
  by rewrite !andb_false_r.
Qed.

(** A master without a chain is in progress, cut off or at its end. *)
Lemma absent_eq s : is_master (sl_type s) = true -> sl_chain s = None ->
  let null := negb ((ci_flags (sl_item s) & HAMMER2_CITEM_NULL) =? 0) in
  in_progress s = negb null /\ unreachable s = null && no_chain_error s /\
  ended s = null && negb (no_chain_error s).
Proof.
  intros Hm Hc null. unfold in_progress, unreachable, ended. rewrite Hm, Hc, bool_decide_eq_true_2 by done.
  unfold null. by rewrite negb_involutive.
Qed.

Lemma scan_result_vote key last ss s ch p :
  0 < last -> scan_result key last ss p -> sl_chain s = Some ch ->
  vote key s = Some (br_modify_tid (ch_bref ch)) ->
  scan_result key last (ss ++ [s]) (pass2_match last p (sl_index s) ch).
Proof.
  intros Hl [Hq Hn Hk Hu Hx Hf] Hc Hv. set (t := br_modify_tid (ch_bref ch)) in *.
  assert (0 <= p2_quorum_tid p < last) as Hr.
  { rewrite Hq. split; [apply best_nonneg|by apply best_lt]. }
  destruct (pass2_match_eq last p (sl_index s) ch t eq_refl Hr) as (Eq & En & Ek & Eu & Ex & _ & Ef).
  destruct (chain_not_absent s ch Hc) as (Ap & Au & _).
  constructor; rewrite ?votes_snoc, ?Hv, ?best_snoc, ?length_app, ?countb_snoc, ?Ap, ?Au.
  - by rewrite Eq, <- Hq.
  - rewrite tally_snoc, En, Eq. destruct (Z.eqb_spec
      (if t <? last then p2_quorum_tid p `max` t else p2_quorum_tid p) (p2_quorum_tid p)) as [->|Hne].
    + lia.
    + destruct (Z.ltb_spec t last); [|lia].
      assert (p2_quorum_tid p < t) by lia. rewrite Z.max_r in * by lia.
      rewrite (tally_absent t); [lia|]. intros Hin. assert (Hb := best_ge last _ t Hin). lia.
  - cbn. lia.
  - lia.
  - lia.
  - rewrite Eq. set (q' := if t <? last then p2_quorum_tid p `max` t else p2_quorum_tid p) in *.
    intros (s' & ch' & Hin & Hs' & Hc' & He').
    destruct ((t =? q') && (ch_error ch =? 0)) eqn:Hb; injection Ef as Ef Ei.
    + apply andb_true_iff in Hb as [Ht%Z.eqb_eq He%Z.eqb_eq]. exists s, ch.
      split; [apply elem_of_app; right; by apply list_elem_of_singleton|]. rewrite <- Ht. done.
    + apply elem_of_app in Hin as [Hin| ->%list_elem_of_singleton].
      * assert (q' = p2_quorum_tid p) as E.
        { unfold q'. destruct (Z.ltb_spec t last); [|done].
          assert (q' ∈ votes key ss) as Hm by (apply list_elem_of_omap; eauto).
          assert (Hb2 := best_ge last _ _ Hm). unfold q' in Hb2.
          destruct (Z.ltb_spec t last); lia. }
        rewrite E in *. destruct Hf as (s2 & c2 & Hin2 & Hr2); [by exists s', ch'|].
        exists s2, c2. rewrite Ef, Ei. split; [by apply elem_of_app; left|done].
      * rewrite Hc' in Hc. injection Hc as ->. rewrite Hv in Hs'. injection Hs' as E.
        rewrite E, Z.eqb_refl, He' in Hb. done.
Qed.

(** Pass 2 finds the greatest vote below [last], its tally, and the other
    counts of the early return. *)
Lemma pass2_scan_result key flags last ss p :
  0 < last -> null_scan flags = false -> scan_result key last ss (pass2_scan key flags last ss p).
Proof.
  intros Hl Hf. unfold null_scan in Hf. induction ss as [|s ss IH] using rev_ind; [apply scan_result_nil|].
  rewrite pass2_scan_snoc. set (p1 := pass2_scan key flags last ss p) in *. clearbody p1.
  unfold pass2_item. destruct p1 as [u x n k q fo fi er] eqn:Ep. rewrite <- Ep in *.
  destruct (is_master (sl_type s)) eqn:Hm; cbn [negb].
  2:{ apply (scan_result_skip _ _ _ _ p1); try done; unfold vote, in_progress, unreachable;
        rewrite Hm; cbn; done || lia. }
  destruct (sl_chain s) as [ch|] eqn:Hc.
  - rewrite Hf. destruct (chain_not_absent s ch Hc) as (Ap & Au & _).
    destruct (key_match key ch) eqn:Hk; unfold key_match in Hk; rewrite Hk.
    + apply scan_result_vote; [done..|]. by apply vote_chain.
    + apply (scan_result_skip _ _ _ _ p1); try done; rewrite ?Ap, ?Au; try lia.
      unfold vote, key_match. by rewrite Hm, Hc, Hk.
  - assert (vote key s = None) as Hv by (unfold vote; by rewrite Hm, Hc).
    destruct (absent_eq s Hm Hc) as (Ep1 & Ex1 & _). cbn zeta in Ep1, Ex1. revert Ep1 Ex1.
    rewrite Hf. fold (no_chain_error s).
    destruct (Z.eqb_spec (ci_flags (sl_item s) & HAMMER2_CITEM_NULL) 0) as [E|E];
      [|destruct (no_chain_error s) eqn:Hx]; intros Ep1 Ex1;
      apply (scan_result_skip _ _ _ _ p1); try done; subst p1;
      rewrite ?Ep1, ?Ex1; cbn; done || lia.
Qed.

(** At the end of a scan no transaction is collected: the masters past their
    last element are counted instead. *)
Record null_result (ss : list slot) (p : pass2) : Prop := mkNull {
  nr_tid : p2_quorum_tid p = 0;
  nr_nmasters : p2_nmasters p = countb ended ss;
  nr_keymatch : p2_keymatch p = countb ended ss;
  nr_umasters : p2_umasters p = countb in_progress ss;
  nr_xmasters : p2_xmasters p = countb unreachable ss
}.

(** The error of a scan's end: the first one the ended masters report. *)
Definition end_error (e : Z) (ss : list slot) : Z :=
  foldl (fun e s => if ended s && (e =? 0) then sl_error s else e) e ss.

Lemma end_error_snoc e ss s :
  end_error e (ss ++ [s]) = if ended s && (end_error e ss =? 0) then sl_error s else end_error e ss.
Proof. unfold end_error. by rewrite foldl_app. Qed.

Lemma pass2_scan_null key flags last ss p :
  null_scan flags = true ->
  null_result ss (pass2_scan key flags last ss p) /\
  p2_error (pass2_scan key flags last ss p) = end_error (p2_error p) ss.
Proof.
  intros Hf. unfold null_scan in Hf. induction ss as [|s ss IH] using rev_ind; [done|].
  rewrite pass2_scan_snoc, end_error_snoc. destruct IH as [[H1 H2 H3 H4 H5] H6].
  destruct (pass2_scan key flags last ss p) as [u x n k q fo fi er]. cbn in *. subst er.
  unfold pass2_item. destruct (is_master (sl_type s)) eqn:Hm; cbn [negb].
  2:{ assert (in_progress s = false /\ unreachable s = false /\ ended s = false) as (E1 & E2 & E3).
      { unfold in_progress, unreachable, ended. by rewrite Hm. }
      rewrite E3. split; [constructor|done]; rewrite ?countb_snoc, ?E1, ?E2, ?E3; cbn; lia. }
  rewrite Hf. destruct (sl_chain s) as [ch|] eqn:Hc.
  - destruct (chain_not_absent s ch Hc) as (E1 & E2 & E3).
    rewrite E3. split; [constructor|done]; rewrite ?countb_snoc, ?E1, ?E2, ?E3; cbn; lia.
  - destruct (absent_eq s Hm Hc) as (E1 & E2 & E3). cbn zeta in E1, E2, E3. revert E1 E2 E3.
    fold (no_chain_error s).
    destruct (Z.eqb_spec (ci_flags (sl_item s) & HAMMER2_CITEM_NULL) 0) as [E|E];
      [|destruct (no_chain_error s) eqn:Hx]; cbn; intros E1 E2 E3; rewrite E3;
      (split; [constructor; rewrite ?countb_snoc, ?E1, ?E2, ?E3; cbn; lia|done]).
Qed.

(** ** The loop of pass 2 *)

(** The votes of a check: none at the end of a scan. *)
Definition check_votes (key flags : Z) (ss : list slot) : list Z :=
  if null_scan flags then [] else votes key ss.

Lemma pass2_scan_tid key flags last ss p : 0 < last ->
  p2_quorum_tid (pass2_scan key flags last ss p) = best last (check_votes key flags ss).
Proof.
  intros Hl. unfold check_votes. destruct (null_scan flags) eqn:Hf.
  - by destruct (pass2_scan_null key flags last ss p Hf) as [[-> _ _ _ _] _].
  - by destruct (pass2_scan_result key flags last ss p Hl Hf).
Qed.

Definition below (last : Z) (vs : list Z) : nat := length (filter (fun t => t < last) vs).

Lemma below_cons last x vs : below last (x :: vs) = ((if Z.ltb x last then 1 else 0) + below last vs)%nat.
Proof.
  unfold below. rewrite filter_cons.
  destruct (Z.ltb_spec x last); [by rewrite decide_True|by rewrite decide_False by lia].
Qed.

Lemma below_mono t last vs : t <= last -> (below t vs <= below last vs)%nat.
Proof.
  intros H. induction vs as [|x vs IH]; [done|]. rewrite !below_cons.
  destruct (Z.ltb_spec x t), (Z.ltb_spec x last); lia.
Qed.

Lemma below_shorter t last vs : t ∈ vs -> t < last -> (below t vs < below last vs)%nat.
Proof.
  intros Hin Ht. assert (forall ws, (below t ws <= below last ws)%nat) as Hm by (intros; apply below_mono; lia).
  induction vs as [|x vs IH]; [by apply elem_of_nil in Hin|]. rewrite !below_cons.
  apply elem_of_cons in Hin as [<-|Hin].
  - specialize (Hm vs). zcases.
  - specialize (IH Hin). destruct (Z.ltb_spec x t), (Z.ltb_spec x last); lia.
Qed.

Lemma below_length last vs : (below last vs <= length vs)%nat.
Proof. apply length_filter. Qed.

(** Each round that does not end the loop goes to a smaller vote. *)
Lemma pass2_loop_total key flags ss nquorum fuel last p :
  0 <= last -> (below last (check_votes key flags ss) + 2 <= fuel)%nat ->
  is_Some (pass2_loop fuel nquorum key flags ss last p).
Proof.
  revert last p. induction fuel as [|f IH]; intros last p Hl Hf; [lia|]. cbn [pass2_loop].
  destruct (p2_nmasters p <? nquorum); cbn [andb]; [|by eexists].
  destruct (Z.eqb_spec last 0); cbn [negb]; [by eexists|].
  destruct (nquorum <=? _); [by eexists|]. rewrite pass2_scan_tid by lia.
  set (vs := check_votes key flags ss) in *.
  destruct (decide (best last vs = 0)) as [->|Hb].
  - destruct f; [lia|]. cbn [pass2_loop]. rewrite andb_false_r. by eexists.
  - apply IH; [apply best_nonneg|].
    assert (best last vs < last) as Hlt by (apply best_lt; lia).
    assert (Hs := below_shorter _ _ _ (best_in _ _ Hb) Hlt). lia.
Qed.

(** What the loop leaves: the state of its last round, which either has the
    quorum or went down to transaction 0; no greater vote has one. *)
Lemma pass2_loop_result key flags ss nquorum fuel last p p' :
  null_scan flags = false -> 0 < nquorum -> 0 < last -> p2_nmasters p < nquorum ->
  pass2_loop fuel nquorum key flags ss last p = Some p' ->
  (exists last', 0 < last' <= last /\ scan_result key last' ss p') /\
  (forall t, p2_quorum_tid p' < t < last -> tally t (votes key ss) < nquorum) /\
  (nquorum <= p2_nmasters p' \/ p2_nmasters p' < nquorum /\ p2_quorum_tid p' = 0).
Proof.
  intros Hn H0. revert last p. induction fuel as [|f IH]; intros last p Hl Hp E; [done|].
  cbn [pass2_loop] in E. destruct (Z.ltb_spec (p2_nmasters p) nquorum); [|lia].
  destruct (Z.eqb_spec last 0); [lia|]. cbn [andb negb] in E.
  assert (Hs := pass2_scan_result key flags last ss p Hl Hn).
  set (p1 := pass2_scan key flags last ss p) in *. clearbody p1.
  assert (forall t, p2_quorum_tid p1 < t < last -> tally t (votes key ss) < nquorum) as Hhi.
  { intros t Ht. rewrite tally_absent; [done|]. intros Hin. destruct Hs as [Hq _ _ _ _ _].
    assert (Hb := best_ge last _ t Hin). lia. }
  destruct (Z.leb_spec nquorum (p2_nmasters p1)) as [Hq|Hq].
  { injection E as <-. split; [exists last; split; [lia|done]|]. split; [done|by left]. }
  destruct (decide (p2_quorum_tid p1 = 0)) as [Hz|Hz].
  { destruct f; [done|]. cbn [pass2_loop] in E. rewrite Hz, andb_false_r in E.
    injection E as <-. split; [exists last; split; [lia|done]|]. split; [done|by right]. }
  assert (0 < p2_quorum_tid p1) as Hpos.
  { assert (Hb := best_nonneg last (votes key ss)). rewrite <- (sr_tid _ _ _ _ Hs) in Hb. lia. }
  assert (p2_quorum_tid p1 < last) by (rewrite (sr_tid _ _ _ _ Hs); by apply best_lt).
  destruct (IH _ _ Hpos Hq E) as ((l & Hb & Hr) & Hlo & Hend).
  split; [exists l; split; [lia|done]|]. split; [|done].
  intros t Ht. destruct (Z.lt_total t (p2_quorum_tid p1)) as [?|[->|?]].
  - apply Hlo. lia.
  - by rewrite <- (sr_nmasters _ _ _ _ Hs).
  - apply Hhi. lia.
Qed.

(** At the end of a scan one round decides. *)
Lemma pass2_loop_null key flags ss nquorum fuel last p p' :
  null_scan flags = true -> 0 < last -> p2_nmasters p < nquorum ->
  pass2_loop fuel nquorum key flags ss last p = Some p' ->
  null_result ss p' /\ p2_error p' = end_error (p2_error p) ss.
Proof.
  intros Hn Hl Hp E. destruct fuel as [|f]; [done|]. cbn [pass2_loop] in E.
  destruct (Z.ltb_spec (p2_nmasters p) nquorum); [|lia].
  destruct (Z.eqb_spec last 0); [lia|]. cbn [andb negb] in E.
  assert (Hs := pass2_scan_null key flags last ss p Hn).
  destruct (nquorum <=? _); [by injection E as <-|].
  destruct f; [done|]. cbn [pass2_loop] in E. destruct Hs as [Hs He].
  rewrite (nr_tid _ _ Hs), andb_false_r in E. by injection E as <-.
Qed.

(** ** The slots of a cluster *)

(** The slots as the caller hands them over; pass 1 changes only flags that
    pass 2 does not read. *)
Definition check_slots (c : hammer2_cluster) : list slot :=
  slots (cluster_types (cl_pmp c)) (cl_array c).

Definition slot_pass1 (s : slot) : slot := mkSlot (sl_index s) (sl_type s) (pass1_flags (sl_item s)).

Lemma slots_pass1 types a : slots types (pass1_flags <$> a) = slot_pass1 <$> slots types a.
Proof. unfold slots. by rewrite imap_fmap, fmap_imap. Qed.

Lemma pass1_flags_null f :
  ((f &~ HAMMER2_CITEM_FEMOD) ||| HAMMER2_CITEM_INVALID) & HAMMER2_CITEM_NULL = f & HAMMER2_CITEM_NULL.
Proof.
  apply Z.bits_inj'. intros n Hn. autorewrite with zbits.
  change HAMMER2_CITEM_NULL with (2 ^ 2). change HAMMER2_CITEM_FEMOD with (2 ^ 1).
  change HAMMER2_CITEM_INVALID with (2 ^ 0). rewrite !Z.pow2_bits_eqb by lia.
  destruct (Z.eqb_spec 2 n) as [<-|]; cbn; [by rewrite andb_true_r, orb_false_r|by rewrite !andb_false_r].
Qed.

Lemma in_progress_pass1 s : in_progress (slot_pass1 s) = in_progress s.
Proof. unfold in_progress. cbn. by rewrite pass1_flags_null. Qed.
Lemma unreachable_pass1 s : unreachable (slot_pass1 s) = unreachable s.
Proof. unfold unreachable. cbn. by rewrite pass1_flags_null. Qed.
Lemma ended_pass1 s : ended (slot_pass1 s) = ended s.
Proof. unfold ended. cbn. by rewrite pass1_flags_null. Qed.

Lemma votes_pass1 key ss : votes key (slot_pass1 <$> ss) = votes key ss.
Proof.
  unfold votes. induction ss as [|s ss IH]; [done|]. cbn.
  change (vote key (slot_pass1 s)) with (vote key s). destruct (vote key s); by rewrite <- IH.
Qed.

Lemma end_error_pass1 e ss : end_error e (slot_pass1 <$> ss) = end_error e ss.
Proof.
  unfold end_error. revert e. induction ss as [|s ss IH]; intros e; [done|]. cbn.
  by rewrite ended_pass1, IH.
Qed.

Lemma focused_pass1 key t ss p :
  focused key t (slot_pass1 <$> ss) p -> focused key t ss p.
Proof.
  intros (s & ch & Hin & Hr). apply list_elem_of_fmap in Hin as (s0 & -> & Hin). by exists s0, ch.
Qed.

Lemma sound_vote_pass1 key t ss : sound_vote key t ss -> sound_vote key t (slot_pass1 <$> ss).
Proof.
  intros (s & ch & Hin & Hr). exists (slot_pass1 s), ch. split; [|done]. by apply list_elem_of_fmap_2.
Qed.

Lemma scan_result_pass1 key last ss p :
  scan_result key last (slot_pass1 <$> ss) p -> scan_result key last ss p.
Proof.
  intros [H1 H2 H3 H4 H5 H6]. rewrite votes_pass1 in H1, H2, H3.
  rewrite (countb_fmap _ _ in_progress) in H4 by apply in_progress_pass1.
  rewrite (countb_fmap _ _ unreachable) in H5 by apply unreachable_pass1.
  constructor; try done. intros Hs. by apply focused_pass1, H6, sound_vote_pass1.
Qed.

Lemma null_result_pass1 ss p : null_result (slot_pass1 <$> ss) p -> null_result ss p.
Proof.
  intros [H1 H2 H3 H4 H5].
  rewrite (countb_fmap _ _ ended) in H2, H3 by apply ended_pass1.
  rewrite (countb_fmap _ _ in_progress) in H4 by apply in_progress_pass1.
  rewrite (countb_fmap _ _ unreachable) in H5 by apply unreachable_pass1. by constructor.
Qed.

Lemma votes_length key ss : (length (votes key ss) <= length ss)%nat.
Proof. unfold votes. induction ss as [|s ss IH]; cbn; [lia|]. destruct (vote key s); cbn; lia. Qed.

Lemma slots_length types a : length (slots types a) = length a.
Proof. apply length_imap. Qed.

(** The fuel of the check is enough. *)
Lemma check_pass2_total c key flags : is_Some (check_pass2 c key flags).
Proof.
  unfold check_pass2. apply pass2_loop_total; [done|]. set (ss := slots _ _).
  assert (length (check_votes key flags ss) <= length (cl_array c))%nat.
  { rewrite <- (length_fmap pass1_flags), <- (slots_length (cluster_types (cl_pmp c))). fold ss.
    unfold check_votes. destruct (null_scan flags); [cbn; lia|apply votes_length]. }
  assert (Hb := below_length HAMMER2_TID_MAX (check_votes key flags ss)). lia.
Qed.

Section Pmp.
Context (c : hammer2_cluster) (p : hammer2_pfs).
Hypothesis Hpmp : cl_pmp c = Some p.
Hypothesis Hnm : 0 <= pfs_nmasters p.

Definition nquorum : Z := pfs_nmasters p / 2 + 1.

Lemma nquorum_pos : 0 < nquorum.
Proof. unfold nquorum. dlia. Qed.

Lemma cluster_nquorum_eq : cluster_nquorum (cl_pmp c) = nquorum.
Proof. by rewrite Hpmp. Qed.

Lemma check_pass2_result key flags p2 :
  null_scan flags = false -> check_pass2 c key flags = Some p2 ->
  (exists last', 0 < last' <= HAMMER2_TID_MAX /\ scan_result key last' (check_slots c) p2) /\
  (forall t, p2_quorum_tid p2 < t < HAMMER2_TID_MAX -> tally t (votes key (check_slots c)) < nquorum) /\
  (nquorum <= p2_nmasters p2 \/ p2_nmasters p2 < nquorum /\ p2_quorum_tid p2 = 0).
Proof.
  intros Hn E. unfold check_pass2 in E. rewrite cluster_nquorum_eq, slots_pass1 in E.
  assert (H0 := nquorum_pos).
  apply pass2_loop_result in E as ((l & Hb & Hr) & Hlo & Hend); [|exact Hn|exact H0|done|exact H0].
  rewrite votes_pass1 in Hlo. split; [|done]. exists l. split; [done|]. by apply scan_result_pass1.
Qed.

Lemma check_pass2_null key flags p2 :
  null_scan flags = true -> check_pass2 c key flags = Some p2 ->
  null_result (check_slots c) p2 /\ p2_error p2 = end_error (p1_error (check_pass1 c)) (check_slots c).
Proof.
  intros Hn E. unfold check_pass2 in E. rewrite cluster_nquorum_eq, slots_pass1 in E.
  apply pass2_loop_null in E as [Hr He]; [|exact Hn|done|exact nquorum_pos].
  rewrite end_error_pass1 in He. split; [by apply null_result_pass1|done].
Qed.

End Pmp.

(** ** Agreement *)

(** A master that holds a chain under the key at transaction [t]. *)
Definition agrees (key t : Z) (s : slot) : bool :=
  is_master (sl_type s) && quorum_match key t (sl_chain s).

Lemma vote_agrees key t s : key <> HAMMER2_KEY_MAX -> vote key s = Some t <-> agrees key t s = true.
Proof.
  intros Hk. unfold vote, agrees, quorum_match, key_match.
  destruct (Z.eqb_spec key HAMMER2_KEY_MAX); [done|]. cbn [orb].
  destruct (is_master (sl_type s)), (sl_chain s) as [ch|]; try done; cbn [andb].
  destruct (br_key (ch_bref ch) =? key); cbn [andb]; [|done].
  rewrite Z.eqb_eq. split; congruence.
Qed.

Lemma tally_agrees key t ss : key <> HAMMER2_KEY_MAX ->
  tally t (votes key ss) = countb (agrees key t) ss.
Proof.
  intros Hk. induction ss as [|s ss IH] using rev_ind; [done|]. rewrite votes_snoc, countb_snoc, <- IH.
  destruct (vote key s) as [t'|] eqn:Ev.
  - rewrite tally_snoc. destruct (Z.eqb_spec t' t) as [->|Ht].
    + apply vote_agrees in Ev; [|done]. by rewrite Ev.
    + destruct (agrees key t s) eqn:Ea; [|done]. apply vote_agrees in Ea; [|done]. congruence.
  - rewrite app_nil_r. destruct (agrees key t s) eqn:Ea; [|lia].
    apply vote_agrees in Ea; [|done]. congruence.
Qed.

Lemma agrees_chain key t s : agrees key t s = true ->
  exists ch, sl_chain s = Some ch /\ is_master (sl_type s) = true /\
    br_key (ch_bref ch) = key /\ br_modify_tid (ch_bref ch) = t.
Proof.
  unfold agrees, quorum_match. intros [Hm Hq]%andb_true_iff. destruct (sl_chain s) as [ch|]; [|done].
  exists ch. apply andb_true_iff in Hq as [->%Z.eqb_eq ->%Z.eqb_eq]. done.
Qed.

(** Every element of the cluster carries the error of its chain, which is how
    hammer2_xop_feed() queues it. *)
Definition errors_carried (c : hammer2_cluster) : Prop :=
  forall it ch, it ∈ cl_array c -> ci_chain it = Some ch -> ch_error ch <> 0 -> ci_error it <> 0.

Lemma slots_elem types a s : s ∈ slots types a -> sl_item s ∈ a.
Proof.
  unfold slots. intros H. apply elem_of_lookup_imap in H as (i & it & -> & Hi).
  by apply list_elem_of_lookup_2 in Hi.
Qed.

Lemma pass3_error_zero key t ss p :
  p3_error (foldl (pass3_count key t) p ss) = 0 ->
  p3_error p = 0 /\ forall s, s ∈ ss -> quorum_match key t (sl_chain s) = true -> sl_error s = 0.
Proof.
  revert p. induction ss as [|s ss IH]; intros [ns nf er] H; cbn [foldl] in H.
  { split; [done|]. intros s Hs. by apply elem_of_nil in Hs. }
  apply IH in H as [He Hss]. unfold pass3_count in He.
  destruct (quorum_match key t (sl_chain s)) eqn:Hq.
  - assert ((if er =? 0 then sl_error s else er) = 0) as E
      by (destruct ((_ =? _) || _); [done|destruct (_ =? HAMMER2_PFSTYPE_SLAVE); done]).
    destruct (Z.eqb_spec er 0); [|lia]. split; [done|]. intros s' [->|Hin]%elem_of_cons Hs'; auto.
  - split; [done|]. intros s' [->|Hin]%elem_of_cons Hs'; [congruence|auto].
Qed.

Lemma no_quorum_error_nz n m q p2 : no_quorum_error n m q p2 <> 0.
Proof. unfold no_quorum_error. repeat case_match; done. Qed.

(** A check that returns 0 went through passes 3 and 4. *)
Lemma check_success c key flags c' :
  hammer2_cluster_check c key flags = Some (c', 0) ->
  exists p2 focus, check_pass2 c key flags = Some p2 /\ null_scan flags = false /\
    cluster_nquorum (cl_pmp c) <= p2_nmasters p2 /\ p2_focus p2 = Some focus /\
    check_validate (cluster_types (cl_pmp c)) (pass1_flags <$> cl_array c) key (cl_pmp c)
      (check_pass1 c) p2 focus (cl_flags c) = (c', 0).
Proof.
  unfold hammer2_cluster_check. intros E. destruct (check_pass2 c key flags) as [p2|] eqn:E2; [|done].
  cbn [mbind option_bind] in E. destruct (Z.ltb_spec (p2_nmasters p2) (cluster_nquorum (cl_pmp c))) as [|Hq].
  { injection E as _ E. by apply no_quorum_error_nz in E. }
  fold (null_scan flags) in E. destruct (null_scan flags) eqn:Hn.
  { injection E as _ E. destruct (Z.eqb_spec (p2_error p2) 0); done. }
  destruct (p2_focus p2) as [focus|] eqn:Ef; [|done]. exists p2, focus.
  apply (inj Some) in E. done.
Qed.

(** What the check's success rests on: the focus is a sound vote for the
    quorum's transaction. *)
Lemma check_quorum c p key c' :
  cl_pmp c = Some p -> 0 <= pfs_nmasters p -> key <> HAMMER2_KEY_MAX -> errors_carried c ->
  hammer2_cluster_check c key 0 = Some (c', 0) ->
  exists s ch, s ∈ check_slots c /\ sl_chain s = Some ch /\ ch_error ch = 0 /\
    cl_focus c' = Some ch /\ cl_focus_index c' = sl_index s /\
    agrees key (br_modify_tid (ch_bref ch)) s = true /\
    pfs_nmasters p < 2 * countb (agrees key (br_modify_tid (ch_bref ch))) (check_slots c) /\
    (forall t, br_modify_tid (ch_bref ch) < t < HAMMER2_TID_MAX ->
      2 * countb (agrees key t) (check_slots c) <= pfs_nmasters p) /\
    exists p2, p2_quorum_tid p2 = br_modify_tid (ch_bref ch) /\
      check_validate (cluster_types (cl_pmp c)) (pass1_flags <$> cl_array c) key (cl_pmp c)
        (check_pass1 c) p2 ch (cl_flags c) = (c', 0).
Proof.
  intros Hp Hnm Hk Hc E. apply check_success in E as (p2 & focus & E2 & Hn & Hq & Hf & Ev).
  rewrite (cluster_nquorum_eq c p Hp) in Hq. assert (H0 := nquorum_pos p Hnm).
  destruct (check_pass2_result c p Hp Hnm key 0 p2 Hn E2) as ((l & _ & Hr) & Hhi & _).
  set (q := p2_quorum_tid p2) in *. unfold nquorum in *.
  assert (tally q (votes key (check_slots c)) = p2_nmasters p2) as Ht by (symmetry; apply Hr).
  assert (p3_error (foldl (pass3_count key q) (mkP3 0 (p1_nflags (check_pass1 c)) 0)
    (slots (cluster_types (cl_pmp c)) (pass1_flags <$> cl_array c))) = 0) as E3
    by (unfold check_validate in Ev; by injection Ev).
  rewrite slots_pass1 in E3. apply pass3_error_zero in E3 as [_ E3].
  assert (q ∈ votes key (check_slots c)) as Hin by (apply tally_pos; lia).
  apply list_elem_of_omap in Hin as (s0 & Hs0 & Hv0).
  assert (Ha0 := proj1 (vote_agrees key q s0 Hk) Hv0).
  destruct (agrees_chain _ _ _ Ha0) as (ch0 & Hch0 & _).
  destruct (sr_focus _ _ _ _ Hr) as (s & ch & Hs & Hv & Hch & He & Hfo & Hfi).
  { exists s0, ch0. split_and!; [done..|]. destruct (decide (ch_error ch0 = 0)) as [|Hne]; [done|].
    destruct (Hc (sl_item s0) ch0 (slots_elem _ _ _ Hs0) Hch0 Hne).
    apply (E3 (slot_pass1 s0)); [by apply list_elem_of_fmap_2|].
    by apply andb_true_iff in Ha0 as [_ ?]. }
  apply vote_agrees in Hv; [|done]. destruct (agrees_chain _ _ _ Hv) as (ch1 & Hch1 & _ & _ & Htid).
  rewrite Hch in Hch1. injection Hch1 as <-. exists s, ch. rewrite Htid. fold q. fold q in Hv.
  assert (cl_focus c' = Some focus /\ cl_focus_index c' = p2_focus_index p2) as [-> ->]
    by (unfold check_validate in Ev; by injection Ev as <-).
  split_and!; try done; try congruence.
  - rewrite <- tally_agrees, Ht by done. dlia.
  - intros t Hlt. specialize (Hhi t Hlt). rewrite tally_agrees in Hhi by done. dlia.
  - exists p2. split; [done|]. congruence.
Qed.

Lemma pass1_snoc p ss s : foldl pass1_item p (ss ++ [s]) = pass1_item (foldl pass1_item p ss) s.
Proof. by rewrite foldl_app. Qed.

(** Pass 1 counts every master, errored or not. *)
Lemma pass1_ttlmasters p ss :
  p1_ttlmasters (foldl pass1_item p ss) = p1_ttlmasters p + countb (fun s => is_master (sl_type s)) ss.
Proof.
  induction ss as [|s ss IH] using rev_ind; [unfold countb; cbn; lia|]. rewrite pass1_snoc, countb_snoc.
  destruct (foldl pass1_item p ss) as [m sv nf fo fi er]. cbn in IH. subst m. unfold pass1_item, is_master.
  generalize (sl_type s) as ty. intros ty.
  destruct (bool_decide _ && nz _), (Z.eqb_spec ty HAMMER2_PFSTYPE_MASTER),
    (Z.eqb_spec ty HAMMER2_PFSTYPE_SUPROOT); subst; cbn; try lia;
    repeat (case_match; cbn; try lia).
Qed.

Lemma check_ttlmasters c :
  p1_ttlmasters (check_pass1 c) = countb (fun s => is_master (sl_type s)) (check_slots c).
Proof. unfold check_pass1. by rewrite pass1_ttlmasters. Qed.

(** Only a super-root gives pass 1 an error. *)
Lemma pass1_no_error p ss :
  (forall s, s ∈ ss -> sl_type s <> HAMMER2_PFSTYPE_SUPROOT) -> p1_error (foldl pass1_item p ss) = p1_error p.
Proof.
  revert p. induction ss as [|s ss IH]; intros p H; [done|]. cbn [foldl]. rewrite IH.
  - destruct p as [m sv nf fo fi er]. unfold pass1_item.
    destruct (Z.eqb_spec (sl_type s) HAMMER2_PFSTYPE_SUPROOT) as [E|];
      [by destruct (H s (list_elem_of_here _ _) E)|]. by repeat case_match.
  - intros s' Hs'. apply H. by apply elem_of_cons; right.
Qed.

(** A master that holds some chain under the key. *)
Definition holds (key : Z) (s : slot) : bool := bool_decide (is_Some (vote key s)).

Lemma votes_holds key ss : Z.of_nat (length (votes key ss)) = countb (holds key) ss.
Proof.
  induction ss as [|s ss IH] using rev_ind; [done|]. rewrite votes_snoc, length_app, countb_snoc, <- IH.
  unfold holds. destruct (vote key s); cbn; lia.
Qed.

(** The masters of the cluster, and what the counts of the absent ones and of
    those that hold the key make of a missing quorum. *)
Definition masters (c : hammer2_cluster) : Z := countb (fun s => is_master (sl_type s)) (check_slots c).

Definition verdict (c : hammer2_cluster) (nm agreeing held : Z) : Z :=
  let nq := nm / 2 + 1 in
  if nq <=? agreeing + countb in_progress (check_slots c) then HAMMER2_ERROR_EINPROGRESS
  else if (0 <? countb unreachable (check_slots c)) || (masters c <? nm) then HAMMER2_ERROR_ENOTCONN
  else if held <? nq then HAMMER2_ERROR_ESRCH
  else HAMMER2_ERROR_EDEADLK.

Lemma check_total c key flags : exists c' e, hammer2_cluster_check c key flags = Some (c', e).
Proof.
  unfold hammer2_cluster_check. destruct (check_pass2_total c key flags) as [p2 ->]. cbn [mbind option_bind].
  destruct (_ <? _); [eauto|]. destruct (nz _); [eauto|]. destruct (p2_focus p2); [|eauto].
  destruct (check_validate _ _ _ _ _ _ _ _). eauto.
Qed.

(** ** Properties *)

(** hammer2_cluster_check() always returns: the loop of its second pass
    ends within one round for every slot and two more, whatever the elements
    hold. *)
Theorem cluster_check_terminates c key flags :
  exists c' e, hammer2_cluster_check c key flags = Some (c', e).
Proof. apply check_total. Qed.

(** C3: when hammer2_cluster_check() returns 0, the focus is the error-free
    chain of a master; more than half of the PFS's masters hold a chain under
    the same key at the same transaction, and no later transaction has such a
    majority. *)
Theorem cluster_check_quorum c p key c' :
  cl_pmp c = Some p -> 0 <= pfs_nmasters p -> key <> HAMMER2_KEY_MAX -> errors_carried c ->
  hammer2_cluster_check c key 0 = Some (c', 0) ->
  exists s ch, s ∈ check_slots c /\ sl_chain s = Some ch /\ ch_error ch = 0 /\
    cl_focus c' = Some ch /\ cl_focus_index c' = sl_index s /\
    agrees key (br_modify_tid (ch_bref ch)) s = true /\
    pfs_nmasters p < 2 * countb (agrees key (br_modify_tid (ch_bref ch))) (check_slots c) /\
    forall t, br_modify_tid (ch_bref ch) < t < HAMMER2_TID_MAX ->
      2 * countb (agrees key t) (check_slots c) <= pfs_nmasters p.
Proof.
  intros Hp Hnm Hk Hc E. destruct (check_quorum c p key c' Hp Hnm Hk Hc E) as (s & ch & H).
  exists s, ch. tauto.
Qed.

(** Three masters and a slave; two masters agree on transaction 7. *)
Definition sample_chain (addr key tid err : Z) : hammer2_chain :=
  mkChain addr (mkBref HAMMER2_BREF_TYPE_DIRENT 0 0 0 0 0 0 key 0 tid 0 0 0 0 0) 0 err 0.
Definition sample_item (addr key tid err : Z) : hammer2_cluster_item :=
  mkItem (Some (sample_chain addr key tid err)) 0 err.
Definition sample_pfs : hammer2_pfs :=
  mkPfs 3 [HAMMER2_PFSTYPE_MASTER; HAMMER2_PFSTYPE_MASTER; HAMMER2_PFSTYPE_MASTER; HAMMER2_PFSTYPE_SLAVE].
Definition sample_cluster (a : list hammer2_cluster_item) : hammer2_cluster :=
  mkCluster a (Some sample_pfs) None 0 0 0 0.
Definition sample_agree : hammer2_cluster :=
  sample_cluster [sample_item 1 20 7 0; sample_item 2 20 9 0; sample_item 3 20 7 0; sample_item 4 20 7 0].

Definition check_result (c : hammer2_cluster) (key flags : Z) : hammer2_cluster :=
  from_option fst c (hammer2_cluster_check c key flags).

Lemma sample_errors_carried : errors_carried sample_agree.
Proof.
  intros it ch Hin Hc He. repeat (apply elem_of_cons in Hin as [->|Hin]; [by injection Hc as <-|]).
  by apply elem_of_nil in Hin.
Qed.

Lemma cluster_check_quorum_witness :
  exists s ch, s ∈ check_slots sample_agree /\ sl_chain s = Some ch /\
    cl_focus (check_result sample_agree 20 0) = Some ch /\ agrees 20 (br_modify_tid (ch_bref ch)) s = true.
Proof.
  destruct (cluster_check_quorum sample_agree sample_pfs 20 (check_result sample_agree 20 0))
    as (s & ch & H1 & H2 & _ & H3 & _ & H4 & _);
    [reflexivity|discriminate|discriminate|exact sample_errors_carried|vm_compute; reflexivity|].
  exists s, ch. exact (conj H1 (conj H2 (conj H3 H4))).
Defined.

Lemma slots_same_types types a1 a2 : length a1 = length a2 ->
  Forall2 (fun s1 s2 => is_master (sl_type s1) = is_master (sl_type s2)) (slots types a1) (slots types a2).
Proof.
  intros H. apply Forall2_same_length_lookup. rewrite !slots_length. split; [done|].
  intros i s1 s2 H1 H2. unfold slots in H1, H2.
  apply list_lookup_imap_Some in H1 as (x1 & _ & ->), H2 as (x2 & _ & ->). done.
Qed.

(** two quorums share a master.  Let two checks over the slots of one PFS,
    which has no more master slots than it counts masters, both return 0, for
    any two keys.  Then some master is in both majorities: it holds the focus's
    key and transaction in each cluster. *)
Theorem cluster_quorums_intersect c1 c2 p k1 k2 c1' c2' :
  cl_pmp c1 = Some p -> cl_pmp c2 = Some p -> length (cl_array c1) = length (cl_array c2) ->
  masters c1 <= pfs_nmasters p ->
  k1 <> HAMMER2_KEY_MAX -> k2 <> HAMMER2_KEY_MAX -> errors_carried c1 -> errors_carried c2 ->
  hammer2_cluster_check c1 k1 0 = Some (c1', 0) -> hammer2_cluster_check c2 k2 0 = Some (c2', 0) ->
  exists i s1 s2 f1 f2, check_slots c1 !! i = Some s1 /\ check_slots c2 !! i = Some s2 /\
    cl_focus c1' = Some f1 /\ cl_focus c2' = Some f2 /\
    agrees k1 (br_modify_tid (ch_bref f1)) s1 = true /\
    agrees k2 (br_modify_tid (ch_bref f2)) s2 = true.
Proof.
  intros Hp1 Hp2 Hl Hm Hk1 Hk2 He1 He2 E1 E2.
  assert (0 <= pfs_nmasters p) as Hnm by (unfold masters, countb in Hm; lia).
  destruct (check_quorum c1 p k1 c1' Hp1 Hnm Hk1 He1 E1) as (_ & f1 & _ & _ & _ & F1 & _ & _ & Q1 & _).
  destruct (check_quorum c2 p k2 c2' Hp2 Hnm Hk2 He2 E2) as (_ & f2 & _ & _ & _ & F2 & _ & _ & Q2 & _).
  set (a1 := agrees k1 (br_modify_tid (ch_bref f1))) in *.
  set (a2 := agrees k2 (br_modify_tid (ch_bref f2))) in *.
  set (both := fun i => exists s1 s2, check_slots c1 !! i = Some s1 /\ check_slots c2 !! i = Some s2 /\
    a1 s1 = true /\ a2 s2 = true).
  assert (exists i, both i) as (i & s1 & s2 & L1 & L2 & A1 & A2); [|by exists i, s1, s2, f1, f2].
  destruct (decide (Exists (fun s => a1 s.1 = true /\ a2 s.2 = true)
    (zip (check_slots c1) (check_slots c2)))) as [Hx|Hx].
  - apply Exists_exists in Hx as ([s1 s2] & Hin & A1 & A2). apply list_elem_of_lookup in Hin as [i Hi].
    apply lookup_zip_Some in Hi as [L1 L2]. by exists i, s1, s2.
  - exfalso. assert (countb a1 (check_slots c1) + countb a2 (check_slots c2) <= masters c1); [|lia].
    apply countb_disjoint.
    + unfold check_slots. rewrite Hp1, Hp2. by apply slots_same_types.
    + intros s Hs. by apply andb_true_iff in Hs as [? _].
    + intros s Hs. by apply andb_true_iff in Hs as [? _].
    + intros i x y Lx Ly Ax Ay. apply Hx, Exists_exists. exists (x, y). split; [|done].
      apply list_elem_of_lookup. exists i. by apply lookup_zip_Some.
Qed.

(** The same PFS seen twice, before and after a write that reached two of the
    three masters. *)
Definition sample_before : hammer2_cluster :=
  sample_cluster [sample_item 1 20 5 0; sample_item 2 20 5 0; sample_item 3 20 4 0; sample_item 4 20 5 0].

Lemma sample_before_carried : errors_carried sample_before.
Proof.
  intros it ch Hin Hc He. repeat (apply elem_of_cons in Hin as [->|Hin]; [by injection Hc as <-|]).
  by apply elem_of_nil in Hin.
Qed.

Lemma cluster_quorums_intersect_witness :
  exists i s1 s2, check_slots sample_agree !! i = Some s1 /\ check_slots sample_before !! i = Some s2 /\
    is_master (sl_type s1) = true /\ is_master (sl_type s2) = true.
Proof.
  destruct (cluster_quorums_intersect sample_agree sample_before sample_pfs 20 20
    (check_result sample_agree 20 0) (check_result sample_before 20 0))
    as (i & s1 & s2 & f1 & f2 & H1 & H2 & _ & _ & H3 & H4);
    [reflexivity|reflexivity|reflexivity|vm_compute; discriminate|discriminate|discriminate
    |exact sample_errors_carried|exact sample_before_carried|vm_compute; reflexivity|vm_compute; reflexivity|].
  exists i, s1, s2. apply andb_true_iff in H3 as [H3 _]. apply andb_true_iff in H4 as [H4 _].
  exact (conj H1 (conj H2 (conj H3 H4))).
Defined.

Lemma no_quorum_verdict c p p2 agreeing held :
  cl_pmp c = Some p -> p2_umasters p2 = countb in_progress (check_slots c) ->
  p2_xmasters p2 = countb unreachable (check_slots c) -> p2_nmasters p2 = agreeing -> p2_keymatch p2 = held ->
  no_quorum_error (from_option pfs_nmasters 0 (cl_pmp c)) (p1_ttlmasters (check_pass1 c))
    (cluster_nquorum (cl_pmp c)) p2 = verdict c (pfs_nmasters p) agreeing held.
Proof.
  intros Hp Hu Hx <- <-. unfold no_quorum_error, verdict. rewrite Hu, Hx, check_ttlmasters, Hp. done.
Qed.

(** without a majority the check says why.  When no transaction below the
    greatest has more than half of the masters under the key, it returns
    EINPROGRESS if the masters still working could complete the majority of
    transaction 0, else ENOTCONN if a master was cut off or has no slot, else
    ESRCH if fewer than a majority hold the key at all, else EDEADLK. *)
Theorem cluster_check_no_quorum c p key :
  cl_pmp c = Some p -> 0 <= pfs_nmasters p -> key <> HAMMER2_KEY_MAX ->
  (forall t, 0 <= t < HAMMER2_TID_MAX -> 2 * countb (agrees key t) (check_slots c) <= pfs_nmasters p) ->
  exists c', hammer2_cluster_check c key 0 =
    Some (c', verdict c (pfs_nmasters p) (countb (agrees key 0) (check_slots c))
                (countb (holds key) (check_slots c))).
Proof.
  intros Hp Hnm Hk Hno. unfold hammer2_cluster_check.
  destruct (check_pass2_total c key 0) as [p2 E2]. rewrite E2. cbn [mbind option_bind].
  destruct (check_pass2_result c p Hp Hnm key 0 p2 eq_refl E2) as ((l & Hl & Hr) & _ & Hend).
  assert (Ht := sr_nmasters _ _ _ _ Hr). rewrite tally_agrees in Ht by done.
  assert (p2_nmasters p2 < nquorum p /\ p2_quorum_tid p2 = 0) as [Hlt Hz].
  { destruct Hend as [Hq|?]; [exfalso|done].
    assert (0 <= p2_quorum_tid p2 < HAMMER2_TID_MAX) as Hb.
    { rewrite (sr_tid _ _ _ _ Hr). assert (Hb := best_lt l (votes key (check_slots c))).
      assert (Hb2 := best_nonneg l (votes key (check_slots c))). lia. }
    specialize (Hno _ Hb). unfold nquorum in Hq. dlia. }
  rewrite (cluster_nquorum_eq c p Hp). destruct (Z.ltb_spec (p2_nmasters p2) (nquorum p)); [|lia].
  eexists. do 2 f_equal. rewrite <- (cluster_nquorum_eq c p Hp).
  apply no_quorum_verdict; [done|apply Hr|apply Hr|by rewrite Ht, Hz|].
  rewrite (sr_keymatch _ _ _ _ Hr). apply votes_holds.
Qed.

(** Three masters, all different: nothing to agree on. *)
Definition sample_split : hammer2_cluster :=
  sample_cluster [sample_item 1 20 5 0; sample_item 2 20 6 0; sample_item 3 20 7 0; sample_item 4 20 7 0].

Lemma cluster_check_no_quorum_witness :
  exists c', hammer2_cluster_check sample_split 20 0 = Some (c', HAMMER2_ERROR_EDEADLK).
Proof.
  apply (cluster_check_no_quorum sample_split sample_pfs 20); [reflexivity|discriminate|discriminate|].
  intros t Ht. rewrite <- tally_agrees by discriminate.
  change (votes 20 (check_slots sample_split)) with ((([] ++ [5]) ++ [6]) ++ [7]).
  rewrite !tally_snoc. change (tally t []) with 0. change (pfs_nmasters sample_pfs) with 3. zcases.
Defined.

(** at the end of a scan the check returns an error, and the right one.
    When more than half of the masters are past their last element, it is the
    first error they report or ENOENT; when not, the same verdict as for a key
    no master holds more often. *)
Theorem cluster_check_end c p key :
  cl_pmp c = Some p -> 0 <= pfs_nmasters p ->
  (forall s, s ∈ check_slots c -> sl_type s <> HAMMER2_PFSTYPE_SUPROOT) ->
  exists c', hammer2_cluster_check c key HAMMER2_CHECK_NULL =
    Some (c', let n := countb ended (check_slots c) in
              let e := end_error 0 (check_slots c) in
              if pfs_nmasters p <? 2 * n
              then if e =? 0 then HAMMER2_ERROR_ENOENT else e
              else verdict c (pfs_nmasters p) n n).
Proof.
  intros Hp Hnm Hsup. unfold hammer2_cluster_check.
  destruct (check_pass2_total c key HAMMER2_CHECK_NULL) as [p2 E2]. rewrite E2. cbn [mbind option_bind].
  destruct (check_pass2_null c p Hp Hnm key HAMMER2_CHECK_NULL p2 eq_refl E2) as [[H1 H2 H3 H4 H5] H6].
  replace (p1_error (check_pass1 c)) with 0 in H6 by (symmetry; by apply pass1_no_error).
  cbn zeta. rewrite <- H2, <- H6.
  assert (cluster_nquorum (cl_pmp c) = pfs_nmasters p / 2 + 1) as Eq by by rewrite Hp.
  destruct (Z.ltb_spec (p2_nmasters p2) (cluster_nquorum (cl_pmp c)));
    destruct (Z.ltb_spec (pfs_nmasters p) (2 * p2_nmasters p2)); try (rewrite Eq in *; dlia).
  - eexists. do 2 f_equal. apply no_quorum_verdict; congruence.
  - by eexists.
Qed.

(** One master cut off, two at their end; and one at its end, two cut off. *)
Definition sample_null (err : Z) : hammer2_cluster_item := mkItem None HAMMER2_CITEM_NULL err.
Definition sample_end (e1 e2 e3 : Z) : hammer2_cluster :=
  sample_cluster [sample_null e1; sample_null e2; sample_null e3; sample_null 0].

Lemma cluster_check_end_witness :
  (exists c', hammer2_cluster_check (sample_end HAMMER2_ERROR_ENOTCONN 0 0) 0 HAMMER2_CHECK_NULL =
     Some (c', HAMMER2_ERROR_ENOENT)) /\
  (exists c', hammer2_cluster_check (sample_end HAMMER2_ERROR_ENOTCONN 0 HAMMER2_ERROR_ETIMEDOUT) 0
     HAMMER2_CHECK_NULL = Some (c', HAMMER2_ERROR_ENOTCONN)).
Proof.
  split.
  - apply (cluster_check_end (sample_end HAMMER2_ERROR_ENOTCONN 0 0) sample_pfs 0);
      [reflexivity|discriminate|].
    intros s Hs. repeat (apply elem_of_cons in Hs as [->|Hs]; [vm_compute; discriminate|]). by apply elem_of_nil in Hs.
  - apply (cluster_check_end (sample_end HAMMER2_ERROR_ENOTCONN 0 HAMMER2_ERROR_ETIMEDOUT) sample_pfs 0);
      [reflexivity|discriminate|].
    intros s Hs. repeat (apply elem_of_cons in Hs as [->|Hs]; [vm_compute; discriminate|]). by apply elem_of_nil in Hs.
Defined.


(** ** The elements a check validates *)

Definition invalid (it : hammer2_cluster_item) : bool := nz (ci_flags it & HAMMER2_CITEM_INVALID).

Lemma invalid_bit f : nz (f & HAMMER2_CITEM_INVALID) = Z.testbit f 0.
Proof.
  change HAMMER2_CITEM_INVALID with (Z.ones 1). rewrite Z.land_ones, <- Z.bit0_mod by lia.
  by destruct (Z.testbit f 0).
Qed.

(** The node types of a PFS cluster. *)
Definition cluster_node (ty : Z) : bool :=
  is_master ty || (ty =? HAMMER2_PFSTYPE_SOFT_MASTER) || (ty =? HAMMER2_PFSTYPE_SLAVE) ||
  (ty =? HAMMER2_PFSTYPE_SOFT_SLAVE).

Lemma pass3_flags_invalid ty f :
  Z.testbit (pass3_flags ty f) 0 = negb (cluster_node ty) && Z.testbit f 0.
Proof.
  unfold pass3_flags, cluster_node, is_master.
  destruct (ty =? HAMMER2_PFSTYPE_MASTER), (ty =? HAMMER2_PFSTYPE_SOFT_MASTER),
    (ty =? HAMMER2_PFSTYPE_SUPROOT), (ty =? HAMMER2_PFSTYPE_SLAVE), (ty =? HAMMER2_PFSTYPE_SOFT_SLAVE);
    cbn [orb negb andb]; rewrite ?Z.ldiff_spec;
    change (Z.testbit HAMMER2_CITEM_INVALID 0) with true; by rewrite ?andb_false_r.
Qed.

Lemma pass3_item_invalid key t s :
  invalid (pass3_item key t (slot_pass1 s)) =
  negb (quorum_match key t (sl_chain s) && cluster_node (sl_type s)).
Proof.
  unfold invalid. rewrite invalid_bit. unfold pass3_item, slot_pass1.
  cbn [sl_item sl_type ci_chain ci_flags ci_error pass1_flags].
  unfold sl_chain. destruct (quorum_match key t (ci_chain (sl_item s))); cbn [ci_flags pass1_flags].
  - rewrite pass3_flags_invalid, Z.lor_spec. change (Z.testbit HAMMER2_CITEM_INVALID 0) with true.
    by rewrite orb_true_r, andb_true_r.
  - rewrite Z.lor_spec. change (Z.testbit HAMMER2_CITEM_INVALID 0) with true. by rewrite orb_true_r.
Qed.

Lemma pass3_item_chain key t s : ci_chain (pass3_item key t s) = sl_chain s.
Proof. unfold pass3_item. by destruct (quorum_match _ _ _). Qed.

Definition same_data (focus : hammer2_chain) (ch : option hammer2_chain) : bool :=
  match ch with
  | Some c => (ch_addr c =? ch_addr focus) || negb (bref_mismatch c focus)
  | None => false
  end.

Lemma pass4_item_invalid focus it : is_Some (ci_chain it) \/ invalid it = true ->
  invalid (pass4_item focus it) = invalid it || negb (same_data focus (ci_chain it)).
Proof.
  unfold pass4_item, invalid. intros Hc. destruct (ci_chain it) as [ch|] eqn:Ec.
  - cbn [same_data]. destruct (ch_addr ch =? ch_addr focus); cbn [orb negb]; [by rewrite orb_false_r|].
    destruct (nz (ci_flags it & HAMMER2_CITEM_INVALID)) eqn:Ei; [by rewrite Ei|].
    destruct (bref_mismatch ch focus); cbn; [|by rewrite Ei].
    rewrite invalid_bit, Z.lor_spec. change (Z.testbit HAMMER2_CITEM_INVALID 0) with true.
    by rewrite orb_true_r.
  - destruct Hc as [[? ?]|Hc]; [done|]. by rewrite Hc.
Qed.

(** the elements a successful check leaves valid are those that hold the
    focus's key and transaction, sit on a master, a slave or one of their soft
    variants, and, off the PFS root, have the focus's type, key bits and size.
    Every other element is marked invalid. *)
Theorem cluster_check_valid c p key c' f i s it :
  cl_pmp c = Some p -> 0 <= pfs_nmasters p -> key <> HAMMER2_KEY_MAX -> errors_carried c ->
  hammer2_cluster_check c key 0 = Some (c', 0) -> cl_focus c' = Some f ->
  check_slots c !! i = Some s -> cl_array c' !! i = Some it ->
  ci_chain it = sl_chain s /\
  (invalid it = false <->
   quorum_match key (br_modify_tid (ch_bref f)) (sl_chain s) = true /\ cluster_node (sl_type s) = true /\
   (nz (ch_flags f & HAMMER2_CHAIN_PFSBOUNDARY) || same_data f (sl_chain s)) = true).
Proof.
  intros Hp Hnm Hk Hc E Hf Ls Lit.
  destruct (check_quorum c p key c' Hp Hnm Hk Hc E) as (_ & ch & _ & _ & _ & Hf' & _ & _ & _ & _ & p2 & Eq & Ev).
  rewrite Hf in Hf'. injection Hf' as <-. unfold check_validate in Ev. rewrite Eq, slots_pass1 in Ev.
  fold (check_slots c) in Ev. injection Ev as <- _. cbn [cl_array] in Lit.
  set (t := br_modify_tid (ch_bref f)) in *.
  assert (Hi := pass3_item_invalid key t s). assert (Hch := pass3_item_chain key t (slot_pass1 s)).
  set (it3 := pass3_item key t (slot_pass1 s)) in *. change (sl_chain (slot_pass1 s)) with (sl_chain s) in Hch.
  assert ((pass3_item key t <$> (slot_pass1 <$> check_slots c)) !! i = Some it3) as L3.
  { by rewrite !list_lookup_fmap, Ls. }
  destruct (nz (ch_flags f & HAMMER2_CHAIN_PFSBOUNDARY)).
  - rewrite L3 in Lit. injection Lit as <-. split; [done|]. rewrite Hi. cbn [orb].
    destruct (quorum_match _ _ _), (cluster_node _); cbn; intuition discriminate.
  - rewrite list_lookup_fmap, L3 in Lit. injection Lit as <-. split.
    + unfold pass4_item. rewrite Hch. repeat case_match; done.
    + rewrite pass4_item_invalid, Hi, Hch.
      * destruct (quorum_match _ _ _), (cluster_node _), (same_data _ _); cbn; intuition discriminate.
      * rewrite Hch, Hi. unfold quorum_match. destruct (sl_chain s); [by left; eexists|by right].
Qed.

Lemma cluster_check_valid_witness :
  (invalid <$> cl_array (check_result sample_agree 20 0) !! 1%nat) = Some true /\
  exists it, cl_array (check_result sample_agree 20 0) !! 3%nat = Some it /\ invalid it = false.
Proof.
  split; [vm_compute; reflexivity|].
  destruct (cluster_check_valid sample_agree sample_pfs 20 (check_result sample_agree 20 0)
    (sample_chain 3 20 7 0) 3 (mkSlot 3 HAMMER2_PFSTYPE_SLAVE (sample_item 4 20 7 0))
    (mkItem (Some (sample_chain 4 20 7 0)) 0 0)) as [_ H];
    [reflexivity|discriminate|discriminate|exact sample_errors_carried|vm_compute; reflexivity
    |vm_compute; reflexivity|vm_compute; reflexivity|vm_compute; reflexivity|].
  eexists. split; [vm_compute; reflexivity|]. apply H. vm_compute. repeat split; reflexivity.
Defined.
