(* ===== verification/Xop.v ===== *)
(** hammer2_admin.c, the XOP half: an operation is run on every element of a
    cluster, the elements feed chains into a FIFO each, and the frontend
    collects them into one cluster at a time, in key order.

    The FIFOs are the source's rings, with the growth of all of them when one
    is full.  References on chains are counted by address in [xh_refs]
    (hammer2_chain_ref_hold / hammer2_chain_drop_unhold) and [xh_crefs] (the
    inode's cache).  [None] is a failed KKASSERT, and never the result in a
    well-formed state.  The read and write indexes are C ints that count the
    elements of one operation; they are not wrapped. *)
From S2P Require Import Prelude Disk Cluster.
From Stdlib Require Import ZArith Lia Bool.
From stdpp Require Import base list.
Import Cluster.
Open Scope Z_scope.

Module Xop.

Definition HAMMER2_XOPFIFO : Z := 16.
Definition HAMMER2_MAXCLUSTER : Z := 8.
Definition HAMMER2_XOPMASK_VOP : Z := 0x80000000.
Definition HAMMER2_XOPMASK_ALLDONE : Z := HAMMER2_XOPMASK_VOP.

(** [struct hammer2_xop_fifo]; an array that is not allocated is empty. *)
Record hammer2_xop_fifo := mkFifo {
  ff_array : list (option hammer2_chain);
  ff_errors : list Z;
  ff_ri : Z;
  ff_wi : Z
}.

Definition fifo_zero : hammer2_xop_fifo := mkFifo [] [] 0 0.

(** What the collector uses of [struct hammer2_xop_head], the references it
    holds, and the cache of the first inode. *)
Record hammer2_xop_head := mkXop {
  xh_collect : list hammer2_xop_fifo;
  xh_cluster : hammer2_cluster;
  xh_collect_key : Z;
  xh_run_mask : Z;
  xh_chk_mask : Z;
  xh_fifo_size : Z;
  xh_refs : Z -> Z;
  xh_crefs : Z -> Z;
  xh_ccache : list (option hammer2_chain)
}.

Definition fifo_mask (x : hammer2_xop_head) : Z := xh_fifo_size x - 1.

Definition ref_by (n : Z) (ch : option hammer2_chain) (refs : Z -> Z) : Z -> Z :=
  match ch with
  | Some c => fun a => if a =? ch_addr c then refs a + n else refs a
  | None => refs
  end.

(** ** The FIFO *)

(** The entries that the larger mask finds elsewhere are moved to the upper
    half; [k] runs from [ri] to [wi]. *)
Fixpoint fifo_move (n : nat) (k new_nmemb old_nmemb : Z) (f : hammer2_xop_fifo) : hammer2_xop_fifo :=
  match n with
  | O => f
  | S n =>
      let o := k & (old_nmemb - 1) in
      let d := k & (new_nmemb - 1) in
      let f := if o =? d then f
               else mkFifo (aset (ff_array f) d (aget None (ff_array f) o))
                      (aset (ff_errors f) d (aget 0 (ff_errors f) o)) (ff_ri f) (ff_wi f) in
      fifo_move n (k + 1) new_nmemb old_nmemb f
  end.

Definition hammer2_xop_fifo_alloc (f : hammer2_xop_fifo) (new_nmemb old_nmemb : Z)
    : option hammer2_xop_fifo :=
  if (old_nmemb <? new_nmemb)
     && (if old_nmemb =? 0
         then bool_decide (ff_array f = []) && bool_decide (ff_errors f = [])
         else bool_decide (ff_array f <> []) && bool_decide (ff_errors f <> []))
     && ((new_nmemb & (new_nmemb - 1)) =? 0) && (HAMMER2_XOPFIFO <=? new_nmemb)
  then
    let more := Z.to_nat (new_nmemb - old_nmemb) in
    let f := mkFifo (ff_array f ++ replicate more None) (ff_errors f ++ replicate more 0)
               (ff_ri f) (ff_wi f) in
    if old_nmemb =? 0 then Some f
    else Some (fifo_move (Z.to_nat (ff_wi f - ff_ri f)) (ff_ri f) new_nmemb old_nmemb f)
  else None.

(** ** Allocation *)

Definition hammer2_xop_alloc (nchains : nat) (pmp : option hammer2_pfs) (ccache : list (option hammer2_chain))
    (crefs : Z -> Z) : option hammer2_xop_head :=
  fifos ← mapM (fun f => hammer2_xop_fifo_alloc f HAMMER2_XOPFIFO 0) (replicate nchains fifo_zero);
  Some (mkXop fifos (mkCluster (replicate nchains (mkItem None 0 0)) pmp None 0 0 0 0) 0
          HAMMER2_XOPMASK_VOP 0 HAMMER2_XOPFIFO (fun _ => 0) crefs ccache).

Definition hammer2_xop_active (x : hammer2_xop_head) : bool :=
  nz (xh_run_mask x & HAMMER2_XOPMASK_VOP).

Definition xop_set_fifos (x : hammer2_xop_head) (fifos : list hammer2_xop_fifo) (size : Z) : hammer2_xop_head :=
  mkXop fifos (xh_cluster x) (xh_collect_key x) (xh_run_mask x) (xh_chk_mask x) size
    (xh_refs x) (xh_crefs x) (xh_ccache x).

Definition xop_set_refs (x : hammer2_xop_head) (refs : Z -> Z) : hammer2_xop_head :=
  mkXop (xh_collect x) (xh_cluster x) (xh_collect_key x) (xh_run_mask x) (xh_chk_mask x)
    (xh_fifo_size x) refs (xh_crefs x) (xh_ccache x).

Definition xop_set_masks (x : hammer2_xop_head) (run chk : Z) : hammer2_xop_head :=
  mkXop (xh_collect x) (xh_cluster x) (xh_collect_key x) run chk (xh_fifo_size x)
    (xh_refs x) (xh_crefs x) (xh_ccache x).

(** ** Feeding *)

(** The loop that makes room: while the element's FIFO is full, every FIFO of
    the operation doubles.  One round makes room, so the fuel is two. *)
Inductive grown := Grown (x : hammer2_xop_head) | GrowAborted.

Fixpoint feed_grow (fuel : nat) (x : hammer2_xop_head) (clindex : nat) : option grown :=
  match fuel with
  | O => None
  | S n =>
      f ← xh_collect x !! clindex;
      if ff_ri f =? ff_wi f - xh_fifo_size x then
        if (xh_run_mask x & HAMMER2_XOPMASK_VOP) =? 0 then Some GrowAborted
        else
          let old := xh_fifo_size x in
          let size := old * 2 in
          fifos ← mapM (fun f => hammer2_xop_fifo_alloc f size old) (xh_collect x);
          feed_grow n (xop_set_fifos x fifos size) clindex
      else Some (Grown x)
  end.

Definition fed_error (chain : option hammer2_chain) (error : Z) : Z :=
  match chain with
  | Some c => if error =? 0 then ch_error c else error
  | None => error
  end.

Definition fifo_put (mask : Z) (f : hammer2_xop_fifo) (chain : option hammer2_chain) (error : Z)
    : hammer2_xop_fifo :=
  let slot := ff_wi f & mask in
  mkFifo (aset (ff_array f) slot chain) (aset (ff_errors f) slot error) (ff_ri f) (ff_wi f + 1).

Definition hammer2_xop_feed (x : hammer2_xop_head) (chain : option hammer2_chain) (clindex : nat) (error : Z)
    : option (hammer2_xop_head * Z) :=
  if negb (hammer2_xop_active x) then Some (x, HAMMER2_ERROR_ABORTED)
  else
    g ← feed_grow 2 x clindex;
    match g with
    | GrowAborted => Some (x, HAMMER2_ERROR_ABORTED)
    | Grown x =>
        f ← xh_collect x !! clindex;
        let x := xop_set_refs x (ref_by 1 chain (xh_refs x)) in
        let f := fifo_put (fifo_mask x) f chain (fed_error chain error) in
        Some (xop_set_fifos x (<[clindex := f]> (xh_collect x)) (xh_fifo_size x), 0)
    end.

(** ** Collecting *)

Record collecting := mkCol { co_lokey : Z; co_keynull : Z; co_refs : Z -> Z }.

(** [adv]: the element has no chain, or one below the collection key. *)
Definition behind (ckey : Z) (it : hammer2_cluster_item) : bool :=
  match ci_chain it with
  | None => true
  | Some c => br_key (ch_bref c) <? ckey
  end.

Definition fifo_pop (f : hammer2_xop_fifo) : hammer2_xop_fifo :=
  mkFifo (ff_array f) (ff_errors f) (ff_ri f + 1) (ff_wi f).

(** An element that has reached the key lowers [lokey] and clears the null
    check. *)
Definition reached (it : hammer2_cluster_item) (s : collecting) : collecting :=
  match ci_chain it with
  | Some c =>
      mkCol (if br_key (ch_bref c) <? co_lokey s then br_key (ch_bref c) else co_lokey s)
        (co_keynull s &~ HAMMER2_CHECK_NULL) (co_refs s)
  | None => s
  end.

(** One element of the cluster: dropped and replaced from its FIFO until it
    reaches the collection key or the FIFO is empty.  The fuel is one round for
    every queued entry and one more. *)
Fixpoint advance (fuel : nat) (mask ckey : Z) (it : hammer2_cluster_item) (f : hammer2_xop_fifo)
    (s : collecting) : option (hammer2_cluster_item * hammer2_xop_fifo * collecting) :=
  match fuel with
  | O => None
  | S n =>
      if behind ckey it then
        let s := mkCol (co_lokey s) (co_keynull s) (ref_by (-1) (ci_chain it) (co_refs s)) in
        if ff_ri f =? ff_wi f then Some (mkItem None (ci_flags it) (ci_error it), f, s)
        else
          let chain := aget None (ff_array f) (ff_ri f & mask) in
          let error := aget 0 (ff_errors f) (ff_ri f & mask) in
          let flags := match chain with
                       | None => ci_flags it ||| HAMMER2_CITEM_NULL
                       | Some _ => ci_flags it
                       end in
          advance n mask ckey (mkItem chain flags error) (fifo_pop f) s
      else Some (it, f, reached it s)
  end.

Fixpoint advance_all (mask ckey : Z) (items : list hammer2_cluster_item) (fifos : list hammer2_xop_fifo)
    (s : collecting) : option (list hammer2_cluster_item * list hammer2_xop_fifo * collecting) :=
  match items, fifos with
  | it :: items, f :: fifos =>
      '(it, f, s) ← advance (Z.to_nat (ff_wi f - ff_ri f) + 1) mask ckey it f s;
      '(items, fifos, s) ← advance_all mask ckey items fifos s;
      Some (it :: items, f :: fifos, s)
  | _, _ => Some ([], fifos, s)
  end.

Definition cluster_set_array (c : hammer2_cluster) (a : list hammer2_cluster_item) : hammer2_cluster :=
  mkCluster a (cl_pmp c) (cl_focus c) (cl_focus_index c) (cl_error c) (cl_flags c) (cl_ddflag c).

Definition next_key (lokey : Z) : Z := if lokey =? HAMMER2_KEY_MAX then lokey else lokey + 1.

(** One round from [again:] to the end of the function: the state, the key the
    round settled on and the error of the check. *)
Definition collect_round (x : hammer2_xop_head) : option (hammer2_xop_head * Z * Z) :=
  '(items, fifos, s) ←
    advance_all (fifo_mask x) (xh_collect_key x) (cl_array (xh_cluster x)) (xh_collect x)
      (mkCol HAMMER2_KEY_MAX HAMMER2_CHECK_NULL (xh_refs x));
  '(c, error) ← hammer2_cluster_check (cluster_set_array (xh_cluster x) items) (co_lokey s) (co_keynull s);
  Some (mkXop fifos c (next_key (co_lokey s)) (xh_run_mask x) (xh_chk_mask x) (xh_fifo_size x)
          (co_refs s) (xh_crefs x) (xh_ccache x), co_lokey s, error).

Fixpoint collect_loop (fuel : nat) (x : hammer2_xop_head) : option (hammer2_xop_head * Z) :=
  match fuel with
  | O => None
  | S n =>
      '(x, lokey, error) ← collect_round x;
      if (error =? HAMMER2_ERROR_ESRCH) || (error =? HAMMER2_ERROR_EDEADLK) then
        if negb (lokey =? HAMMER2_KEY_MAX) then collect_loop n x
        else Some (x, HAMMER2_ERROR_ENOENT)
      else Some (x, error)
  end.

(** The elements of the operation not yet past the collector, and a round for
    each of them and one more. *)
Definition pending (x : hammer2_xop_head) : nat :=
  length (cl_array (xh_cluster x)) +
  sum_list_with (fun f => Z.to_nat (ff_wi f - ff_ri f)) (xh_collect x).

Definition hammer2_xop_collect (x : hammer2_xop_head) : option (hammer2_xop_head * Z) :=
  collect_loop (pending x + 1) x.

(** ** Retiring *)

Fixpoint drain_fifo (n : nat) (mask : Z) (f : hammer2_xop_fifo) (refs : Z -> Z) : hammer2_xop_fifo * (Z -> Z) :=
  match n with
  | O => (f, refs)
  | S n =>
      if ff_ri f =? ff_wi f then (f, refs)
      else drain_fifo n mask (fifo_pop f)
             (ref_by (-1) (aget None (ff_array f) (ff_ri f & mask)) refs)
  end.

(** The FIFOs are drained up to the last one of [chk_mask]. *)
Fixpoint drain_fifos (i chk mask : Z) (fifos : list hammer2_xop_fifo) (refs : Z -> Z)
    : list hammer2_xop_fifo * (Z -> Z) :=
  match fifos with
  | [] => ([], refs)
  | f :: rest =>
      if nz chk && (i <? HAMMER2_MAXCLUSTER) then
        let '(f, refs) := drain_fifo (Z.to_nat (ff_wi f - ff_ri f)) mask f refs in
        let '(rest, refs) := drain_fifos (i + 1) (chk &~ Z.shiftl 1 i) mask rest refs in
        (f :: rest, refs)
      else (fifos, refs)
  end.

Definition ref_all (n : Z) (chains : list (option hammer2_chain)) (refs : Z -> Z) : Z -> Z :=
  foldl (fun r ch => ref_by n ch r) refs chains.

(** What the last collector leaves: the inode caches the cluster's chains in
    place of its former ones, and every chain held is dropped. *)
Definition xop_dispose (x : hammer2_xop_head) : hammer2_xop_head :=
  let c := xh_cluster x in
  let chains := ci_chain <$> cl_array c in
  let crefs := ref_all (-1) (xh_ccache x) (ref_all 1 chains (xh_crefs x)) in
  let refs := ref_all (-1) chains (xh_refs x) in
  let a := (fun it => mkItem None 0 (ci_error it)) <$> cl_array c in
  let '(fifos, refs) := drain_fifos 0 (xh_chk_mask x) (fifo_mask x) (xh_collect x) refs in
  mkXop fifos (cluster_set_array c a) (xh_collect_key x) (xh_run_mask x) (xh_chk_mask x)
    (xh_fifo_size x) refs crefs chains.

Definition hammer2_xop_retire (x : hammer2_xop_head) (mask : Z) : option hammer2_xop_head :=
  if (xh_run_mask x & mask) =? 0 then None
  else
    let omask := xh_run_mask x in
    let x := xop_set_masks x (u32 (omask - mask)) (xh_chk_mask x) in
    if negb ((omask & HAMMER2_XOPMASK_ALLDONE) =? mask) then Some x
    else Some (xop_dispose x).

(** ** Starting *)

(** The elements to run, read once from the inode's cluster. *)
Fixpoint start_mask (i : Z) (nchains : Z) (notidx : Z) (chains : list (option hammer2_chain)) (chk : Z) : Z :=
  match chains with
  | [] => chk
  | ch :: rest =>
      if i <? nchains then
        start_mask (i + 1) nchains notidx rest
          (if negb (i =? notidx) && bool_decide (is_Some ch) then chk ||| Z.shiftl 1 i else chk)
      else chk
  end.

Definition ECONNABORTED : Z := 103.

Section Start.
(** The storage function of the operation, or the remote element's. *)
Context (storage : nat -> hammer2_xop_head -> option hammer2_xop_head).

Fixpoint start_loop (n : nat) (i : nat) (x : hammer2_xop_head) : option hammer2_xop_head :=
  match n with
  | O => Some x
  | S n =>
      let mask := Z.shiftl 1 (Z.of_nat i) in
      if (xh_chk_mask x & mask) =? 0 then start_loop n (S i) x
      else
        let x := xop_set_masks x (xh_run_mask x ||| mask) (xh_chk_mask x) in
        x ← (if hammer2_xop_active x then storage i x
             else fst <$> hammer2_xop_feed x None i ECONNABORTED);
        x ← hammer2_xop_retire x mask;
        start_loop n (S i) x
  end.

Definition hammer2_xop_start_except (x : hammer2_xop_head) (ip1_chains : list (option hammer2_chain))
    (notidx : Z) : option hammer2_xop_head :=
  let nchains := Z.of_nat (length (cl_array (xh_cluster x))) in
  let chk := start_mask 0 nchains notidx ip1_chains (xh_chk_mask x) in
  start_loop (Z.to_nat HAMMER2_MAXCLUSTER) 0 (xop_set_masks x (xh_run_mask x) chk).

Definition hammer2_xop_start (x : hammer2_xop_head) (ip1_chains : list (option hammer2_chain))
    : option hammer2_xop_head :=
  hammer2_xop_start_except x ip1_chains (-1).
End Start.

End Xop.
