(* ===== verification/XopProof.v ===== *)
(** The XOP collector: a FIFO is a queue whatever its size, the collector loses
    and repeats no reference, it always returns, and it settles on the keys a
    majority of the masters agree on, in order, skipping no other. *)
From S2P Require Import Prelude Disk Cluster ClusterProof Xop.
From Stdlib Require Import ZArith Lia Bool Sorted.
From stdpp Require Import base list numbers.
Import Cluster Xop.
Open Scope Z_scope.

(** ** The ring *)

Definition entry : Type := option hammer2_chain * Z.

Definition cell (f : hammer2_xop_fifo) (i : Z) : entry := (aget None (ff_array f) i, aget 0 (ff_errors f) i).

(** The queued entries, oldest first. *)
Definition queue (size : Z) (f : hammer2_xop_fifo) : list entry :=
  (fun k => cell f (k & (size - 1))) <$> seqZ (ff_ri f) (ff_wi f - ff_ri f).

Record fifo_ok (size : Z) (f : hammer2_xop_fifo) : Prop := mkFifoOk {
  fo_array : zlen (ff_array f) = size;
  fo_errors : zlen (ff_errors f) = size;
  fo_ri : 0 <= ff_ri f <= ff_wi f;
  fo_room : ff_wi f - ff_ri f <= size
}.

Definition size_ok (size : Z) : Prop := exists n, 4 <= n /\ size = 2 ^ n.

Lemma size_ok_bounds size : size_ok size -> 16 <= size.
Proof.
  intros (n & Hn & ->). change 16 with (2 ^ 4). apply Z.pow_le_mono_r; lia.
Qed.

Lemma size_ok_double size : size_ok size -> size_ok (size * 2).
Proof.
  intros (n & Hn & ->). exists (n + 1). split; [lia|]. rewrite Z.pow_add_r by lia. lia.
Qed.

Lemma size_ok_land size k : size_ok size -> k & (size - 1) = k mod size.
Proof.
  intros (n & Hn & ->). rewrite <- Z.land_ones by lia. by rewrite Z.ones_equiv, Z.sub_1_r.
Qed.

Lemma size_ok_pow2 size : size_ok size -> size & (size - 1) = 0.
Proof. intros H. rewrite size_ok_land by done. apply Z_mod_same_full. Qed.

Lemma queue_length size f : fifo_ok size f -> length (queue size f) = Z.to_nat (ff_wi f - ff_ri f).
Proof. intros. unfold queue. by rewrite length_fmap, length_seqZ. Qed.

Lemma queue_eq size f f' :
  ff_ri f' = ff_ri f -> ff_wi f' = ff_wi f ->
  (forall k, ff_ri f <= k < ff_wi f -> cell f' (k & (size - 1)) = cell f (k & (size - 1))) ->
  queue size f' = queue size f.
Proof.
  intros Hr Hw Hc. unfold queue. rewrite Hr, Hw. apply list_fmap_ext.
  intros i k Hk. apply Hc. apply lookup_seqZ in Hk. lia.
Qed.

(** Two indexes less than the ring's size apart have cells of their own. *)
Lemma mod_inj size j k : 0 < size -> j mod size = k mod size -> - size < j - k < size -> j = k.
Proof.
  intros Hs E Hd. assert (Ej := Z_div_mod_eq_full j size). assert (Ek := Z_div_mod_eq_full k size).
  rewrite E in Ej. generalize dependent (j / size). generalize dependent (k / size). intros a Ek b Ej.
  assert (j - k = size * (b - a)) by lia. assert (b - a = 0) by nia. nia.
Qed.

Lemma cell_put size f ch e i : 0 < size -> fifo_ok size f -> 0 <= i ->
  cell (fifo_put (size - 1) f ch e) i =
  if i =? ff_wi f & (size - 1) then
    if (ff_wi f & (size - 1)) <? size then (ch, e) else cell f i
  else cell f i.
Proof.
  intros Hs [Ha He Hr Hm] Hi. unfold cell, fifo_put. cbn [ff_array ff_errors].
  assert (0 <= ff_wi f & (size - 1)) by (apply Z.land_nonneg; lia).
  destruct (Z.eqb_spec i (ff_wi f & (size - 1))) as [->|].
  - destruct (Z.ltb_spec (ff_wi f & (size - 1)) size); [by rewrite !aget_aset_eq by lia|].
    unfold aset. by rewrite !list_insert_ge by lia.
  - by rewrite !aget_aset_ne by lia.
Qed.

Lemma seqZ_snoc m n : 0 <= n -> seqZ m (n + 1) = seqZ m n ++ [m + n].
Proof. intros. rewrite seqZ_app by lia. done. Qed.

(** Feeding a FIFO with room appends to its queue. *)
Lemma fifo_put_queue size f ch e :
  size_ok size -> fifo_ok size f -> ff_wi f - ff_ri f < size ->
  fifo_ok size (fifo_put (size - 1) f ch e) /\
  queue size (fifo_put (size - 1) f ch e) = queue size f ++ [(ch, e)].
Proof.
  intros Hs Hf Hroom. assert (Hb := size_ok_bounds size Hs). assert (Hf' := Hf). destruct Hf' as [Ha He Hr Hm].
  assert (0 <= ff_wi f mod size < size) as Hw by (apply Z.mod_pos_bound; lia). split.
  - constructor; cbn; rewrite ?length_aset; lia.
  - unfold queue at 1. cbn [ff_ri ff_wi fifo_put].
    replace (ff_wi f + 1 - ff_ri f) with (ff_wi f - ff_ri f + 1) by lia.
    rewrite seqZ_snoc, fmap_app by lia. f_equal.
    + apply (queue_eq size f (mkFifo (ff_array (fifo_put (size - 1) f ch e))
        (ff_errors (fifo_put (size - 1) f ch e)) (ff_ri f) (ff_wi f))); [done|done|].
      intros k Hk. change (cell (mkFifo _ _ _ _) ?i) with (cell (fifo_put (size - 1) f ch e) i).
      rewrite cell_put by (done || lia || apply Z.land_nonneg; lia). rewrite !size_ok_land by done.
      destruct (Z.eqb_spec (k mod size) (ff_wi f mod size)) as [E|]; [|done].
      apply mod_inj in E; lia.
    + cbn. replace (ff_ri f + (ff_wi f - ff_ri f)) with (ff_wi f) by lia.
      rewrite cell_put, Z.eqb_refl by (done || lia || apply Z.land_nonneg; lia).
      rewrite size_ok_land by done. destruct (Z.ltb_spec (ff_wi f mod size) size); [done|lia].
Qed.

Lemma fifo_pop_queue size f : fifo_ok size f -> ff_ri f <> ff_wi f ->
  fifo_ok size (fifo_pop f) /\
  queue size f = cell f (ff_ri f & (size - 1)) :: queue size (fifo_pop f).
Proof.
  intros [Ha He Hr Hm] Hne. split; [constructor; cbn; lia|]. unfold queue. cbn [ff_ri ff_wi fifo_pop].
  rewrite (seqZ_cons (ff_ri f)) by lia. cbn [fmap list_fmap]. f_equal.
  replace (Z.pred (ff_wi f - ff_ri f)) with (ff_wi f - (ff_ri f + 1)) by lia. done.
Qed.

(** ** Growth *)

(** The cell the doubled ring reads for index [k]. *)
Lemma mod_double size k : 0 < size ->
  k mod (size * 2) = k mod size \/ k mod (size * 2) = k mod size + size.
Proof.
  intros Hs. assert (E1 := Z_div_mod_eq_full k size). assert (E2 := Z_div_mod_eq_full k (size * 2)).
  assert (B1 := Z.mod_pos_bound k size Hs). assert (B2 := Z.mod_pos_bound k (size * 2)).
  generalize dependent (k / size). generalize dependent (k / (size * 2)). intros a E2 b E1.
  assert (2 * a = b \/ 2 * a + 1 = b) as [<-|<-] by nia; [left|right]; nia.
Qed.

(** Moving: the lower half is kept, every index moved is found by the doubled
    mask, and the cells no index moves to are kept. *)
Lemma fifo_move_spec size n k f : 0 < size -> (Z.of_nat n <= size) ->
  zlen (ff_array f) = size * 2 -> zlen (ff_errors f) = size * 2 -> size_ok size ->
  let f' := fifo_move n k (size * 2) size f in
  zlen (ff_array f') = size * 2 /\ zlen (ff_errors f') = size * 2 /\
  ff_ri f' = ff_ri f /\ ff_wi f' = ff_wi f /\
  (forall i, 0 <= i < size -> cell f' i = cell f i) /\
  (forall j, k <= j < k + Z.of_nat n -> cell f' (j mod (size * 2)) = cell f (j mod size)) /\
  (forall i, 0 <= i -> (forall j, k <= j < k + Z.of_nat n -> j mod (size * 2) <> i) -> cell f' i = cell f i).
Proof.
  intros Hs Hn Ha He Ho. revert k f Hn Ha He. induction n as [|n IH]; intros k f Hn Ha He; cbn [fifo_move].
  { cbn. repeat split; auto; intros; lia. }
  rewrite !size_ok_land by (done || by apply size_ok_double).
  set (o := k mod size). set (d := k mod (size * 2)).
  assert (0 <= o < size) as Bo by (apply Z.mod_pos_bound; lia).
  assert (0 <= d < size * 2) as Bd by (apply Z.mod_pos_bound; lia).
  assert (d = o \/ d = o + size) as Hd by (by apply mod_double).
  set (f1 := if o =? d then f else _).
  assert (forall i, 0 <= i -> cell f1 i = if i =? d then cell f o else cell f i) as Hc.
  { intros i Hi. unfold f1. destruct (Z.eqb_spec o d) as [<-|].
    - by destruct (Z.eqb_spec i o) as [->|].
    - unfold cell. cbn [ff_array ff_errors]. rewrite !aget_aset by lia. by destruct (i =? d). }
  assert (zlen (ff_array f1) = size * 2 /\ zlen (ff_errors f1) = size * 2 /\
    ff_ri f1 = ff_ri f /\ ff_wi f1 = ff_wi f) as (Ha1 & He1 & Hr1 & Hw1).
  { unfold f1. destruct (o =? d); [done|]. cbn. by rewrite !length_aset. }
  destruct (IH (k + 1) f1) as (H1 & H2 & H3 & H4 & H5 & H6 & H7); [lia|done|done|].
  cbn zeta. rewrite Hr1 in H3. rewrite Hw1 in H4. split_and!; try done.
  - intros i Hi. rewrite H5, Hc by lia. destruct (Z.eqb_spec i d) as [->|]; [|done].
    destruct Hd as [->|]; [done|lia].
  - intros j Hj. destruct (decide (j = k)) as [->|Hne].
    + rewrite H7, Hc by (lia || (intros j Hjk E; apply mod_inj in E; lia)).
      fold d. by rewrite Z.eqb_refl.
    + rewrite H6 by lia. assert (0 <= j mod size < size) as Bj by (apply Z.mod_pos_bound; lia).
      rewrite Hc by lia. destruct (Z.eqb_spec (j mod size) d) as [E|]; [|done].
      rewrite E in Bj |- *. destruct Hd as [->|]; [done|lia].
  - intros i Hi Hno. rewrite H7, Hc by (done || (intros j Hj; apply Hno; lia)).
    destruct (Z.eqb_spec i d) as [->|]; [|done]. destruct (Hno k); [lia|done].
Qed.

Lemma queue_lookup size f (i : nat) : (i < Z.to_nat (ff_wi f - ff_ri f))%nat ->
  queue size f !! i = Some (cell f ((ff_ri f + Z.of_nat i) & (size - 1))).
Proof.
  intros Hi. unfold queue. rewrite list_lookup_fmap, lookup_seqZ_lt by lia. done.
Qed.

(** Doubling a FIFO keeps its queue. *)
Lemma fifo_grow_queue size f : size_ok size -> fifo_ok size f ->
  exists f', hammer2_xop_fifo_alloc f (size * 2) size = Some f' /\
    fifo_ok (size * 2) f' /\ queue (size * 2) f' = queue size f /\ ff_ri f' = ff_ri f /\ ff_wi f' = ff_wi f.
Proof.
  intros Hs [Ha He Hr Hm]. assert (Hb := size_ok_bounds size Hs). assert (Hd := size_ok_double size Hs).
  unfold hammer2_xop_fifo_alloc, HAMMER2_XOPFIFO. rewrite size_ok_pow2 by done.
  destruct (Z.ltb_spec size (size * 2)); [|lia]. destruct (Z.eqb_spec size 0); [lia|].
  destruct (Z.leb_spec 16 (size * 2)); [|lia].
  rewrite !bool_decide_eq_true_2 by (intros E; rewrite E in *; cbn in *; lia). cbn [andb Z.eqb].
  set (f0 := mkFifo _ _ _ _). set (cnt := Z.to_nat (ff_wi f0 - ff_ri f0)).
  destruct (fifo_move_spec size cnt (ff_ri f0) f0) as (H1 & H2 & H3 & H4 & _ & H6 & _);
    [lia|cbn in *; lia|cbn; rewrite length_app, length_replicate; lia
    |cbn; rewrite length_app, length_replicate; lia|done|].
  eexists. split; [done|]. set (f' := fifo_move _ _ _ _ _) in *. split; [|split; [|done]].
  { constructor; rewrite ?H3, ?H4; cbn; lia. }
  unfold queue. rewrite H3, H4. cbn [ff_ri ff_wi f0]. apply list_fmap_ext.
  intros i k Hk. apply lookup_seqZ in Hk as [-> Hi]. rewrite !size_ok_land by done.
  rewrite H6 by (cbn in *; lia). assert (0 <= (ff_ri f + Z.of_nat i) mod size < size) by (apply Z.mod_pos_bound; lia).
  unfold cell, aget. cbn [ff_array ff_errors f0]. rewrite !lookup_app_l by lia. done.
Qed.

Lemma fifos_grow size fifos : size_ok size -> Forall (fifo_ok size) fifos ->
  exists fifos', mapM (fun f => hammer2_xop_fifo_alloc f (size * 2) size) fifos = Some fifos' /\
    Forall (fifo_ok (size * 2)) fifos' /\ queue (size * 2) <$> fifos' = queue size <$> fifos.
Proof.
  intros Hs. induction 1 as [|f fifos Hf _ IH]; [by exists []|].
  destruct IH as (fs & E & Hfs & Eq). destruct (fifo_grow_queue size f Hs Hf) as (f' & Ef & Hf' & Eqf & _ & _).
  exists (f' :: fs). cbn [mapM]. rewrite Ef. cbn [mbind option_bind]. rewrite E.
  split; [done|]. split; [by constructor|]. cbn. by rewrite Eqf, <- Eq.
Qed.

(** ** Feeding *)

Record xop_ok (x : hammer2_xop_head) : Prop := mkXopOk {
  xo_size : size_ok (xh_fifo_size x);
  xo_fifos : Forall (fifo_ok (xh_fifo_size x)) (xh_collect x);
  xo_length : length (cl_array (xh_cluster x)) = length (xh_collect x);
  xo_max : Z.of_nat (length (xh_collect x)) <= HAMMER2_MAXCLUSTER
}.

Definition queues (x : hammer2_xop_head) : list (list entry) := queue (xh_fifo_size x) <$> xh_collect x.

(** Everything but the FIFOs and the references. *)
Definition same_rest (x x' : hammer2_xop_head) : Prop :=
  xh_cluster x' = xh_cluster x /\ xh_collect_key x' = xh_collect_key x /\ xh_run_mask x' = xh_run_mask x /\
  xh_chk_mask x' = xh_chk_mask x /\ xh_crefs x' = xh_crefs x /\ xh_ccache x' = xh_ccache x.

Lemma queues_length x : length (queues x) = length (xh_collect x).
Proof. unfold queues. by rewrite length_fmap. Qed.

Lemma feed_grow_spec x i : xop_ok x -> hammer2_xop_active x = true -> (i < length (xh_collect x))%nat ->
  exists x' f, feed_grow 2 x i = Some (Grown x') /\ xop_ok x' /\ queues x' = queues x /\
    same_rest x x' /\ xh_refs x' = xh_refs x /\
    xh_collect x' !! i = Some f /\ ff_wi f - ff_ri f < xh_fifo_size x'.
Proof.
  intros Hx Ha Hi. assert (Hx' := Hx). destruct Hx' as [Hs Hf Hl Hm].
  destruct (lookup_lt_is_Some_2 _ _ Hi) as [f Ef]. assert (Hfi := Forall_lookup_1 _ _ _ _ Hf Ef).
  assert (Hb := size_ok_bounds _ Hs). cbn [feed_grow]. rewrite Ef. cbn [mbind option_bind].
  destruct (Z.eqb_spec (ff_ri f) (ff_wi f - xh_fifo_size x)) as [Efull|Hroom].
  2:{ exists x, f. split_and!; try done. destruct Hfi. lia. }
  unfold hammer2_xop_active in Ha. destruct (nz_spec (xh_run_mask x & HAMMER2_XOPMASK_VOP)) as [Hv|]; [|done].
  destruct (Z.eqb_spec (xh_run_mask x & HAMMER2_XOPMASK_VOP) 0); [lia|].
  destruct (fifos_grow _ _ Hs Hf) as (fs & Em & Hfs & Eq). rewrite Em. cbn [mbind option_bind].
  set (x' := xop_set_fifos x fs (xh_fifo_size x * 2)).
  assert (length fs = length (xh_collect x)) as Elen.
  { apply (f_equal length) in Eq. by rewrite !length_fmap in Eq. }
  destruct (lookup_lt_is_Some_2 fs i) as [f' Ef']; [lia|]. cbn [xh_collect x' xop_set_fifos]. rewrite Ef'.
  assert (Hf' := Forall_lookup_1 _ _ _ _ Hfs Ef').
  assert (Z.to_nat (ff_wi f' - ff_ri f') = Z.to_nat (ff_wi f - ff_ri f)) as Esame.
  { rewrite <- (queue_length _ _ Hfi), <- (queue_length _ _ Hf').
    apply (f_equal (fun l => l !! i)) in Eq. rewrite !list_lookup_fmap, Ef, Ef' in Eq.
    injection Eq as ->. done. }
  cbn [mbind option_bind]. change (xh_fifo_size x') with (xh_fifo_size x * 2).
  assert (ff_wi f' - ff_ri f' = xh_fifo_size x) as Elt by (destruct Hfi, Hf'; lia).
  destruct (Z.eqb_spec (ff_ri f') (ff_wi f' - xh_fifo_size x * 2)); [lia|].
  exists x', f'. split_and!; try done; [|change (xh_fifo_size x') with (xh_fifo_size x * 2); lia].
  constructor; cbn -[HAMMER2_MAXCLUSTER]; [by apply size_ok_double|done|lia|lia].
Qed.

(** What hammer2_xop_feed() does to a live operation. *)
Lemma feed_spec x ch i e : xop_ok x -> hammer2_xop_active x = true -> (i < length (xh_collect x))%nat ->
  exists x' q, hammer2_xop_feed x ch i e = Some (x', 0) /\ xop_ok x' /\ queues x !! i = Some q /\
    queues x' = <[i := q ++ [(ch, fed_error ch e)]]> (queues x) /\ same_rest x x' /\
    xh_refs x' = ref_by 1 ch (xh_refs x).
Proof.
  intros Hx Ha Hi. unfold hammer2_xop_feed. rewrite Ha. cbn [negb].
  destruct (feed_grow_spec x i Hx Ha Hi) as (x1 & f & -> & Hx1 & Eq & Hs & Er & Ef & Hroom).
  cbn [mbind option_bind]. rewrite Ef. cbn [mbind option_bind].
  destruct Hx1 as [Hs1 Hf1 Hl1 Hm1]. assert (Hfi := Forall_lookup_1 _ _ _ _ Hf1 Ef).
  destruct (fifo_put_queue _ f ch (fed_error ch e) Hs1 Hfi Hroom) as [Hok Hq].
  unfold fifo_mask. cbn [xop_set_refs xh_fifo_size xh_collect].
  eexists _, (queue (xh_fifo_size x1) f). split; [done|]. split; [|split; [|split; [|split; [done|by rewrite <- Er]]]].
  - constructor; cbn; [done|by apply Forall_insert|by rewrite length_insert|by rewrite length_insert].
  - rewrite <- Eq. unfold queues. by rewrite list_lookup_fmap, Ef.
  - rewrite <- Eq. unfold queues. cbn. by rewrite list_fmap_insert, Hq.
Qed.

(** ** Collecting: what an element still has to deliver *)

Definition held (it : hammer2_cluster_item) : list entry :=
  match ci_chain it with Some c => [(Some c, ci_error it)] | None => [] end.

Definition stream (size : Z) (it : hammer2_cluster_item) (f : hammer2_xop_fifo) : list entry :=
  held it ++ queue size f.

Definition behind_entry (ckey : Z) (e : entry) : bool :=
  match e.1 with None => true | Some c => br_key (ch_bref c) <? ckey end.

(** What is left of a stream at a collection key. *)
Fixpoint seek (ckey : Z) (l : list entry) : list entry :=
  match l with
  | [] => []
  | e :: l' => if behind_entry ckey e then seek ckey l' else l
  end.

(** The references a list of entries holds on a chain. *)
Definition on_chain (a : Z) (e : entry) : bool :=
  match e.1 with Some c => a =? ch_addr c | None => false end.
Definition refs_in (a : Z) (l : list entry) : Z := countb (on_chain a) l.

Lemma refs_in_cons a e l : refs_in a (e :: l) = (if on_chain a e then 1 else 0) + refs_in a l.
Proof. apply countb_cons. Qed.

Lemma ref_by_eq n ch err refs a :
  ref_by n ch refs a = refs a + (if on_chain a (ch, err) then n else 0).
Proof. unfold ref_by, on_chain. destruct ch as [c|]; cbn; [destruct (a =? ch_addr c)|]; lia. Qed.

Lemma ref_by_held n it refs a : ref_by n (ci_chain it) refs a = refs a + n * refs_in a (held it).
Proof.
  rewrite (ref_by_eq n _ (ci_error it)). unfold held, refs_in, on_chain, countb.
  destruct (ci_chain it) as [c|]; cbn; [destruct (a =? ch_addr c); cbn; lia|lia].
Qed.

(** The element left by [advance] stands at the head of what is left. *)
Record advanced (size ckey : Z) (it it' : hammer2_cluster_item) (f f' : hammer2_xop_fifo)
    (s s' : collecting) : Prop := mkAdv {
  ad_fifo : fifo_ok size f';
  ad_stream : stream size it' f' = seek ckey (stream size it f);
  ad_reached : ci_chain it' = None -> stream size it' f' = [];
  ad_lokey : co_lokey s' = co_lokey (reached it' s);
  ad_keynull : co_keynull s' = co_keynull (reached it' s);
  ad_refs : forall a, co_refs s' a - refs_in a (stream size it' f') = co_refs s a - refs_in a (stream size it f);
  ad_read : ff_wi f' = ff_wi f /\ ff_ri f <= ff_ri f'
}.

Lemma behind_held ckey it l : behind ckey it = true -> seek ckey (held it ++ l) = seek ckey l.
Proof.
  unfold behind, held. destruct (ci_chain it) as [c|] eqn:E; [|done]. cbn. unfold behind_entry. cbn.
  by intros ->.
Qed.

Lemma refs_in_app a l1 l2 : refs_in a (l1 ++ l2) = refs_in a l1 + refs_in a l2.
Proof. unfold refs_in, countb. rewrite List.filter_app, length_app. lia. Qed.

Lemma advance_spec fuel size ckey it f s :
  size_ok size -> fifo_ok size f -> (Z.to_nat (ff_wi f - ff_ri f) < fuel)%nat ->
  exists it' f' s', advance fuel (size - 1) ckey it f s = Some (it', f', s') /\
    advanced size ckey it it' f f' s s'.
Proof.
  intros Hs. revert it f s. induction fuel as [|n IH]; intros it f s Hf Hn; [lia|]. cbn [advance].
  destruct (behind ckey it) eqn:Hb.
  - set (s1 := mkCol _ _ _). destruct (Z.eqb_spec (ff_ri f) (ff_wi f)) as [Ee|Ee].
    + eexists _, _, _. split; [done|]. assert (queue size f = []) as Eq.
      { unfold queue. by rewrite Ee, Z.sub_diag. }
      constructor; try done; unfold stream; rewrite ?Eq, ?app_nil_r, ?behind_held by done; try done.
      * by rewrite <- (app_nil_r (held it)), behind_held.
      * intros a. unfold s1. cbn [co_refs]. rewrite ref_by_held.
        change (refs_in a (held (mkItem None (ci_flags it) (ci_error it)))) with 0. lia.
    + destruct (fifo_pop_queue size f Hf Ee) as [Hp Eq].
      set (ch := aget None (ff_array f) (ff_ri f & (size - 1))).
      set (er := aget 0 (ff_errors f) (ff_ri f & (size - 1))).
      change (cell f (ff_ri f & (size - 1))) with ((ch, er) : entry) in Eq.
      set (it1 := mkItem ch _ er).
      destruct (IH it1 (fifo_pop f) s1 Hp) as (it' & f' & s' & E & [A1 A2 A3 A4 A5 A6 A7]).
      { cbn. destruct Hf. lia. }
      exists it', f', s'. split; [done|].
      assert (seek ckey (stream size it1 (fifo_pop f)) = seek ckey (queue size f) /\
        forall a, refs_in a (stream size it1 (fifo_pop f)) = refs_in a (queue size f)) as [Esk Erf].
      { rewrite Eq. unfold stream, held, it1. cbn [ci_chain ci_error].
        destruct ch as [c|]; [done|]. split; [done|]. intros a. by rewrite refs_in_cons. }
      constructor; try done.
      * by rewrite A2, Esk; unfold stream; rewrite behind_held.
      * rewrite A4. unfold reached. by destruct (ci_chain it').
      * rewrite A5. unfold reached. by destruct (ci_chain it').
      * intros a. rewrite A6, Erf. unfold stream. rewrite refs_in_app. unfold s1. cbn [co_refs].
        rewrite ref_by_held. lia.
      * cbn in A7. lia.
  - exists it, f, (reached it s). split; [done|]. unfold behind in Hb.
    destruct (ci_chain it) as [c|] eqn:Ec; [|done].
    constructor; try done; unfold stream, held, reached; rewrite Ec; try done.
    cbn [app seek]. unfold behind_entry. cbn [fst]. by rewrite Hb.
Qed.

(** ** One round over the cluster *)

Definition streams_of (size : Z) (items : list hammer2_cluster_item) (fifos : list hammer2_xop_fifo)
    : list (list entry) := zip_with (stream size) items fifos.

Definition at_head (it : hammer2_cluster_item) (st : list entry) : Prop :=
  match ci_chain it with
  | None => st = []
  | Some c => exists rest, st = (Some c, ci_error it) :: rest
  end.

Definition has_chain (items : list hammer2_cluster_item) : bool :=
  existsb (fun it => bool_decide (is_Some (ci_chain it))) items.

Definition key_of (it : hammer2_cluster_item) (k : Z) : Prop :=
  exists c, ci_chain it = Some c /\ br_key (ch_bref c) = k.

(** [lo] is the least of [lo0] and the keys of the elements. *)
Definition lowest (lo0 lo : Z) (items : list hammer2_cluster_item) : Prop :=
  lo <= lo0 /\ (forall it k, it ∈ items -> key_of it k -> lo <= k) /\
  (lo = lo0 \/ exists it, it ∈ items /\ key_of it lo).

Lemma lowest_nil lo : lowest lo lo [].
Proof. split; [lia|]. split; [|by left]. intros it k H. by apply elem_of_nil in H. Qed.

Lemma lowest_cons s it lo items : lowest (co_lokey (reached it s)) lo items ->
  lowest (co_lokey s) lo (it :: items).
Proof.
  unfold lowest, reached. intros (Hle & Hall & Hex).
  destruct (ci_chain it) as [c|] eqn:Ec; cbn in Hle, Hex.
  - assert (lo <= co_lokey s /\ lo <= br_key (ch_bref c)) as [H1 H2] by (destruct (Z.ltb_spec (br_key (ch_bref c)) (co_lokey s)); lia).
    split; [done|]. split.
    + intros it' k [->|Hin]%elem_of_cons Hk; [|eauto].
      destruct Hk as (c' & Ec' & <-). rewrite Ec in Ec'. by injection Ec' as <-.
    + destruct Hex as [->|(it' & Hin & Hk)]; [|right; exists it'; split; [by apply elem_of_cons; right|done]].
      destruct (Z.ltb_spec (br_key (ch_bref c)) (co_lokey s)); [right|by left].
      exists it. split; [by apply elem_of_cons; left|]. by exists c.
  - split; [done|]. split.
    + intros it' k [->|Hin]%elem_of_cons Hk; [|eauto]. destruct Hk as (c' & Ec' & _). congruence.
    + destruct Hex as [->|(it' & Hin & Hk)]; [by left|right]. exists it'. split; [by apply elem_of_cons; right|done].
Qed.

Record advanced_all (size ckey : Z) (items items' : list hammer2_cluster_item)
    (fifos fifos' : list hammer2_xop_fifo) (s s' : collecting) : Prop := mkAdvAll {
  aa_fifos : Forall (fifo_ok size) fifos';
  aa_items_length : length items' = length items;
  aa_read : Forall2 (fun f f' => ff_wi f' = ff_wi f /\ ff_ri f <= ff_ri f') fifos fifos';
  aa_streams : streams_of size items' fifos' = seek ckey <$> streams_of size items fifos;
  aa_heads : Forall2 at_head items' (streams_of size items' fifos');
  aa_lokey : lowest (co_lokey s) (co_lokey s') items';
  aa_keynull : co_keynull s' = if has_chain items' then co_keynull s &~ HAMMER2_CHECK_NULL else co_keynull s;
  aa_refs : forall a, co_refs s' a - refs_in a (concat (streams_of size items' fifos')) =
              co_refs s a - refs_in a (concat (streams_of size items fifos))
}.

Lemma advance_all_spec size ckey items fifos s :
  size_ok size -> Forall (fifo_ok size) fifos -> length items = length fifos ->
  exists items' fifos' s', advance_all (size - 1) ckey items fifos s = Some (items', fifos', s') /\
    advanced_all size ckey items items' fifos fifos' s s'.
Proof.
  intros Hs Hf. revert items s. induction Hf as [|f fifos Hf _ IH]; intros [|it items] s Hl; try done.
  { exists [], [], s. split; [done|]. constructor; try done; apply lowest_nil. }
  cbn [advance_all].
  destruct (advance_spec (Z.to_nat (ff_wi f - ff_ri f) + 1) size ckey it f s Hs Hf) as (it' & f' & s1 & E1 & A);
    [lia|]. rewrite E1. cbn [mbind option_bind].
  destruct (IH items s1) as (items' & fifos' & s' & E2 & B); [by injection Hl|]. rewrite E2. cbn [mbind option_bind].
  exists (it' :: items'), (f' :: fifos'), s'. split; [done|].
  destruct A as [A1 A2 A3 A4 A5 A6 A7], B as [B1 B2 B3 B4 B5 B6 B7 B8].
  constructor.
  - by constructor.
  - cbn. by rewrite B2.
  - by constructor.
  - cbn. unfold streams_of in B4. by rewrite A2, B4.
  - constructor; [|done]. unfold at_head. destruct (ci_chain it') as [c|] eqn:Ec; [|by apply A3].
    unfold stream, held. rewrite Ec. by eexists.
  - apply lowest_cons. by rewrite <- A4.
  - rewrite B7, A5. unfold reached, has_chain. cbn. destruct (ci_chain it') as [c|]; cbn; [|done].
    destruct (existsb _ items'); [|done]. apply Z.bits_inj'. intros n Hn. autorewrite with zbits.
    destruct (Z.testbit (co_keynull s) n), (Z.testbit HAMMER2_CHECK_NULL n); done.
  - intros a. specialize (A6 a). specialize (B8 a). unfold streams_of in *. cbn. rewrite !refs_in_app. lia.
Qed.

(** ** The check leaves the elements' chains and errors alone *)

Definition carried (it : hammer2_cluster_item) : entry := (ci_chain it, ci_error it).

Lemma carried_pass1 (a : list hammer2_cluster_item) : carried <$> (pass1_flags <$> a) = carried <$> a.
Proof. rewrite <- list_fmap_compose. by apply list_fmap_ext. Qed.

Lemma carried_pass3 key t types a : carried <$> (pass3_item key t <$> slots types a) = carried <$> a.
Proof.
  assert (sl_item <$> slots types a = a) as E.
  { unfold slots. rewrite fmap_imap. unfold compose. cbn. apply list_eq. intros i.
    rewrite list_lookup_imap. by destruct (a !! i). }
  rewrite <- E at 2. rewrite <- !list_fmap_compose. apply list_fmap_ext. intros i s _.
  unfold compose, pass3_item, carried. by destruct (quorum_match _ _ _).
Qed.

Lemma carried_pass4 focus (a : list hammer2_cluster_item) : carried <$> (pass4_item focus <$> a) = carried <$> a.
Proof.
  rewrite <- list_fmap_compose. apply list_fmap_ext. intros i it _. unfold compose, pass4_item, carried.
  destruct (ci_chain it) as [c|] eqn:E; [|by rewrite E].
  destruct (_ =? _); [by rewrite E|]. destruct (nz _); [by rewrite E|].
  destruct (bref_mismatch c focus); cbn; [done|by rewrite E].
Qed.

Lemma check_carried c key flags c' e : hammer2_cluster_check c key flags = Some (c', e) ->
  carried <$> cl_array c' = carried <$> cl_array c /\ cl_pmp c' = cl_pmp c.
Proof.
  unfold hammer2_cluster_check. intros E. destruct (check_pass2 c key flags) as [p2|]; [|done].
  cbn [mbind option_bind] in E.
  destruct (_ <? _); [injection E as <- _; cbn; by rewrite carried_pass1|].
  destruct (nz _); [injection E as <- _; cbn; by rewrite carried_pass1|].
  destruct (p2_focus p2) as [focus|]; [|injection E as <- _; cbn; by rewrite carried_pass1].
  apply (inj Some) in E. unfold check_validate in E. injection E as <- _. cbn [cl_array cl_pmp].
  split; [|done]. destruct (nz _); rewrite ?carried_pass4, carried_pass3; by rewrite carried_pass1.
Qed.

Lemma streams_of_carried size items items' fifos :
  carried <$> items' = carried <$> items -> streams_of size items' fifos = streams_of size items fifos.
Proof.
  revert items' fifos. induction items as [|it items IH]; intros [|it' items'] fifos E; try done.
  injection E as Ec Ee E. destruct fifos as [|f fifos]; [done|]. unfold streams_of in *. cbn.
  rewrite (IH items' fifos E). unfold stream, held. by rewrite Ec, Ee.
Qed.

(** ** A round of hammer2_xop_collect() *)

Definition streams (x : hammer2_xop_head) : list (list entry) :=
  streams_of (xh_fifo_size x) (cl_array (xh_cluster x)) (xh_collect x).

(** Every reference the operation holds is on a chain it has still to deliver. *)
Definition balanced (x : hammer2_xop_head) : Prop := forall a, xh_refs x a = refs_in a (concat (streams x)).

Record round (x x' : hammer2_xop_head) (lokey e : Z) : Prop := mkRound {
  ro_ok : xop_ok x';
  ro_streams : streams x' = seek (xh_collect_key x) <$> streams x;
  ro_heads : Forall2 at_head (cl_array (xh_cluster x')) (streams x');
  ro_lokey : lowest HAMMER2_KEY_MAX lokey (cl_array (xh_cluster x'));
  ro_key : xh_collect_key x' = next_key lokey;
  ro_pmp : cl_pmp (xh_cluster x') = cl_pmp (xh_cluster x);
  ro_refs : forall a, xh_refs x' a - refs_in a (concat (streams x')) =
              xh_refs x a - refs_in a (concat (streams x));
  ro_rest : xh_run_mask x' = xh_run_mask x /\ xh_chk_mask x' = xh_chk_mask x /\
    xh_crefs x' = xh_crefs x /\ xh_ccache x' = xh_ccache x /\ xh_fifo_size x' = xh_fifo_size x;
  ro_read : Forall2 (fun f f' => ff_wi f' = ff_wi f /\ ff_ri f <= ff_ri f') (xh_collect x) (xh_collect x');
  ro_check : exists c, carried <$> cl_array c = carried <$> cl_array (xh_cluster x') /\
    cl_pmp c = cl_pmp (xh_cluster x) /\
    hammer2_cluster_check c lokey (if has_chain (cl_array c) then 0 else HAMMER2_CHECK_NULL)
      = Some (xh_cluster x', e)
}.

Lemma carried_lookup (items items' : list hammer2_cluster_item) i it : carried <$> items' = carried <$> items -> items' !! i = Some it ->
  exists it0, items !! i = Some it0 /\ carried it0 = carried it.
Proof.
  intros E L. apply (f_equal (fun l => l !! i)) in E. rewrite !list_lookup_fmap, L in E.
  destruct (items !! i) as [it0|]; [|done]. cbn in E. exists it0. split; [done|congruence].
Qed.

Lemma key_of_carried it it' k : carried it = carried it' -> key_of it k -> key_of it' k.
Proof. intros E (c & Ec & Hk). injection E as E _. exists c. by rewrite <- E. Qed.

Lemma lowest_carried lo0 lo items items' : carried <$> items' = carried <$> items ->
  lowest lo0 lo items -> lowest lo0 lo items'.
Proof.
  intros E (H1 & H2 & H3). split; [done|]. split.
  - intros it k Hin Hk. apply list_elem_of_lookup in Hin as [i Hi].
    destruct (carried_lookup _ _ _ _ E Hi) as (it0 & Hi0 & Ec). apply (H2 it0).
    + by apply list_elem_of_lookup_2 in Hi0.
    + by apply (key_of_carried it).
  - destruct H3 as [->|(it & Hin & Hk)]; [by left|right]. apply list_elem_of_lookup in Hin as [i Hi].
    destruct (carried_lookup _ _ _ _ (eq_sym E) Hi) as (it0 & Hi0 & Ec). exists it0.
    split; [by apply list_elem_of_lookup_2 in Hi0|]. by apply (key_of_carried it).
Qed.

Lemma at_head_carried items items' ss : carried <$> items' = carried <$> items ->
  Forall2 at_head items ss -> Forall2 at_head items' ss.
Proof.
  intros E H. revert items' E. induction H as [|it st items ss Hh H IH]; intros [|it' items'] E; try done.
  injection E as Ec Ee E. constructor; [|by apply IH]. unfold at_head in *. by rewrite Ec, Ee.
Qed.

Lemma collect_round_spec x : xop_ok x ->
  exists x' lokey e, collect_round x = Some (x', lokey, e) /\ round x x' lokey e.
Proof.
  intros [Hs Hf Hl Hm]. unfold collect_round, fifo_mask.
  destruct (advance_all_spec _ (xh_collect_key x) _ _
    (mkCol HAMMER2_KEY_MAX HAMMER2_CHECK_NULL (xh_refs x)) Hs Hf Hl) as (items & fifos & s & -> & A).
  destruct A as [A1 A2 A3 A4 A5 A6 A7 A8]. cbn [mbind option_bind].
  set (c := cluster_set_array (xh_cluster x) items).
  destruct (check_total c (co_lokey s) (co_keynull s)) as (c' & e & Ec). rewrite Ec. cbn [mbind option_bind].
  destruct (check_carried _ _ _ _ _ Ec) as [Eca Epm]. eexists _, _, _. split; [done|].
  assert (streams_of (xh_fifo_size x) (cl_array c') fifos = streams_of (xh_fifo_size x) items fifos) as Est
    by by apply streams_of_carried.
  constructor; unfold streams; cbn [xh_cluster xh_collect xh_fifo_size xh_collect_key xh_refs xh_run_mask xh_chk_mask];
    rewrite ?Est; try done.
  - assert (Elen := Forall2_length A3). constructor; cbn -[HAMMER2_MAXCLUSTER]; [done|done| |lia].
    rewrite <- (length_fmap carried), Eca, length_fmap. cbn. lia.
  - by apply (at_head_carried items).
  - by apply (lowest_carried _ _ items).
  - exists c. split; [done|]. split; [done|]. rewrite <- Ec. f_equal. by rewrite A7.
Qed.

(** ** The collector returns *)

Definition total (ss : list (list entry)) : nat := length (concat ss).

Lemma seek_length k l : (length (seek k l) <= length l)%nat.
Proof. induction l as [|e l IH]; cbn; [lia|]. destruct (behind_entry k e); cbn; lia. Qed.

Lemma total_seek k ss : (total (seek k <$> ss) <= total ss)%nat.
Proof.
  unfold total. induction ss as [|st ss IH]; cbn; [lia|]. rewrite !length_app.
  assert (H := seek_length k st). lia.
Qed.

(** A stream that stands at [k] shrinks when the collector goes past it. *)
Lemma total_seek_lt k c e rest ss :
  ((Some c, e) :: rest) ∈ ss -> br_key (ch_bref c) < k -> (total (seek k <$> ss) < total ss)%nat.
Proof.
  intros Hin Hk. unfold total. induction ss as [|st ss IH]; [by apply elem_of_nil in Hin|].
  cbn. rewrite !length_app. apply elem_of_cons in Hin as [<-|Hin].
  - assert (H := total_seek k ss). unfold total in H. assert (H2 := seek_length k rest).
    cbn. unfold behind_entry. cbn. destruct (Z.ltb_spec (br_key (ch_bref c)) k); cbn; lia.
  - specialize (IH Hin). assert (H := seek_length k st). lia.
Qed.

Lemma round_head x x' lokey e it : round x x' lokey e -> it ∈ cl_array (xh_cluster x') -> key_of it lokey ->
  exists c rest, ((Some c, ci_error it) :: rest) ∈ streams x' /\ br_key (ch_bref c) = lokey.
Proof.
  intros R Hin (c & Ec & Hk). apply list_elem_of_lookup in Hin as [i Hi].
  destruct (Forall2_lookup_l _ _ _ _ _ (ro_heads _ _ _ _ R) Hi) as (st & Hst & Hh).
  unfold at_head in Hh. rewrite Ec in Hh. destruct Hh as [rest ->]. exists c, rest.
  split; [by apply list_elem_of_lookup_2 in Hst|done].
Qed.

Lemma collect_loop_total fuel x : xop_ok x ->
  (total (seek (xh_collect_key x) <$> streams x) < fuel)%nat ->
  exists x' e, collect_loop fuel x = Some (x', e) /\ xop_ok x'.
Proof.
  revert x. induction fuel as [|n IH]; intros x Hx Hn; [lia|]. cbn [collect_loop].
  destruct (collect_round_spec x Hx) as (x1 & lokey & e & -> & R). cbn [mbind option_bind].
  destruct ((e =? _) || _); [|by eexists _, _; split; [done|apply R]].
  destruct (Z.eqb_spec lokey HAMMER2_KEY_MAX) as [|Hne]; cbn [negb]; [by eexists _, _; split; [done|apply R]|].
  apply IH; [apply R|]. rewrite (ro_key _ _ _ _ R). unfold next_key.
  destruct (Z.eqb_spec lokey HAMMER2_KEY_MAX); [done|].
  destruct (ro_lokey _ _ _ _ R) as (_ & _ & [?|(it & Hin & Hk)]); [done|].
  destruct (round_head _ _ _ _ _ R Hin Hk) as (c & rest & Hst & Hkc).
  assert (Hlt := total_seek_lt (lokey + 1) _ _ _ _ Hst). rewrite <- (ro_streams _ _ _ _ R) in Hn. lia.
Qed.

Lemma total_pending size items fifos : Forall (fifo_ok size) fifos -> length items = length fifos ->
  (total (streams_of size items fifos) <=
   length items + sum_list_with (fun f => Z.to_nat (ff_wi f - ff_ri f)) fifos)%nat.
Proof.
  intros Hf. revert items. induction Hf as [|f fifos Hf _ IH]; intros [|it items] Hl; try done.
  injection Hl as Hl. specialize (IH items Hl). unfold total, streams_of in *. cbn.
  rewrite length_app. unfold stream at 1. rewrite length_app, (queue_length size f Hf).
  assert (length (held it) <= 1)%nat by (unfold held; destruct (ci_chain it); cbn; lia). lia.
Qed.

Lemma collect_total x : xop_ok x -> exists x' e, hammer2_xop_collect x = Some (x', e) /\ xop_ok x'.
Proof.
  intros Hx. apply collect_loop_total; [done|]. destruct Hx as [Hs Hf Hl Hm].
  assert (H1 := total_seek (xh_collect_key x) (streams x)).
  assert (H2 := total_pending _ _ _ Hf Hl). fold (streams x) in H2. unfold pending. lia.
Qed.

(** ** The keys the collector settles on *)

Definition entry_key (e : entry) : option Z := (fun c => br_key (ch_bref c)) <$> e.1.

(** An element delivers its chains in key order, below the greatest key, and
    with errors of its own: those of the collector's verdicts are not among
    them, and a damaged chain comes with one. *)
Definition entry_ok (e : entry) : Prop :=
  forall c, e.1 = Some c ->
    br_key (ch_bref c) < HAMMER2_KEY_MAX /\ e.2 <> HAMMER2_ERROR_ESRCH /\ e.2 <> HAMMER2_ERROR_EDEADLK /\
    (ch_error c <> 0 -> e.2 <> 0).
Definition ordered (l : list entry) : Prop := StronglySorted Z.lt (omap entry_key l).
Definition stream_ok (l : list entry) : Prop := ordered l /\ Forall entry_ok l.

(** The masters whose streams hold a chain under [k] at transaction [t]. *)
Definition typed (types : list Z) (ss : list (list entry)) : list (Z * list entry) :=
  imap (fun i st => (aget 0 types (Z.of_nat i), st)) ss.
Definition holder (k t : Z) (m : Z * list entry) : bool :=
  is_master m.1 && existsb (fun e => quorum_match k t e.1) m.2.
Definition holders (types : list Z) (k t : Z) (ss : list (list entry)) : Z :=
  countb (holder k t) (typed types ss).

(** Seeking loses no entry at or past the key. *)
Lemma seek_holds ck k t l : ck <= k ->
  existsb (fun e => quorum_match k t e.1) (seek ck l) = existsb (fun e => quorum_match k t e.1) l.
Proof.
  intros Hk. induction l as [|e l IH]; [done|]. cbn [seek]. destruct (behind_entry ck e) eqn:Hb; [|done].
  rewrite IH. cbn [existsb]. assert (quorum_match k t e.1 = false) as ->; [|done].
  unfold behind_entry in Hb. unfold quorum_match. destruct e.1 as [c|]; [|done].
  apply Z.ltb_lt in Hb. destruct (Z.eqb_spec (br_key (ch_bref c)) k); [lia|done].
Qed.

Lemma holders_seek types ck k t ss : ck <= k ->
  holders types k t (seek ck <$> ss) = holders types k t ss.
Proof.
  intros Hk. unfold holders, typed. rewrite imap_fmap. apply countb_ext.
  apply Forall2_same_length_lookup. rewrite !length_imap. split; [done|].
  intros i x y Hx Hy. rewrite list_lookup_imap in Hx, Hy. unfold compose in Hx.
  destruct (ss !! i) as [st|]; [|done]. injection Hx as <-. injection Hy as <-.
  unfold holder. cbn. by rewrite seek_holds.
Qed.

Lemma seek_suffix k l : exists pre, l = pre ++ seek k l.
Proof.
  induction l as [|e l [pre IH]]; [by exists []|]. cbn. destruct (behind_entry k e); [|by exists []].
  exists (e :: pre). cbn. by rewrite <- IH.
Qed.

Lemma StronglySorted_app_r {A} (R : A -> A -> Prop) l1 l2 : StronglySorted R (l1 ++ l2) -> StronglySorted R l2.
Proof. induction l1; [done|]. intros H. inversion H; auto. Qed.

Lemma stream_ok_seek k l : stream_ok l -> stream_ok (seek k l).
Proof.
  intros [Ho He]. destruct (seek_suffix k l) as [pre E]. split.
  - unfold ordered in *. rewrite E, omap_app in Ho. by apply StronglySorted_app_r in Ho.
  - rewrite E, Forall_app in He. tauto.
Qed.

(** Past the head of an ordered stream every key is greater. *)
Lemma ordered_tail c e rest k t : ordered ((Some c, e) :: rest) -> k <= br_key (ch_bref c) ->
  existsb (fun e => quorum_match k t e.1) ((Some c, e) :: rest) = quorum_match k t (Some c).
Proof.
  intros Ho Hk. cbn [existsb fst]. assert (existsb (fun e => quorum_match k t e.1) rest = false) as ->.
  { unfold ordered in Ho. cbn in Ho. inversion Ho as [|? ? _ Hall]; subst. clear Ho.
    induction rest as [|[ch er] rest IH]; [done|]. cbn [existsb fst]. cbn in Hall.
    destruct ch as [c'|]; cbn in Hall |- *.
    - inversion Hall; subst. rewrite IH by done. destruct (Z.eqb_spec (br_key (ch_bref c')) k); [lia|done].
    - by apply IH. }
  by rewrite orb_false_r.
Qed.

Lemma round_streams_ok x x' lokey e : round x x' lokey e ->
  Forall stream_ok (streams x) -> Forall stream_ok (streams x').
Proof.
  intros R Hok. rewrite (ro_streams _ _ _ _ R). apply Forall_fmap. revert Hok. apply Forall_impl.
  intros l. apply stream_ok_seek.
Qed.

(** A key between the collection key and the lowest one is nowhere. *)
Lemma round_between x x' lokey e types k t :
  round x x' lokey e -> Forall stream_ok (streams x) -> xh_collect_key x <= k < lokey ->
  holders types k t (streams x) = 0.
Proof.
  intros R Hok Hk. rewrite <- (holders_seek types (xh_collect_key x)), <- (ro_streams _ _ _ _ R) by lia.
  assert (Hok' := round_streams_ok _ _ _ _ R Hok).
  apply countb_none. intros [ty st] Hin. unfold typed in Hin. apply elem_of_lookup_imap in Hin as (i & st' & E & Hi).
  injection E as -> ->. unfold holder. cbn [fst snd]. apply andb_false_intro2.
  destruct (Forall2_lookup_r _ _ _ _ _ (ro_heads _ _ _ _ R) Hi) as (it & Hit & Hh). unfold at_head in Hh.
  destruct (ci_chain it) as [c|] eqn:Ec; [|by subst st'].
  destruct Hh as [rest ->]. destruct (ro_lokey _ _ _ _ R) as (_ & Hlo & _).
  assert (lokey <= br_key (ch_bref c)).
  { apply (Hlo it); [by apply list_elem_of_lookup_2 in Hit|by exists c]. }
  assert (Ho := Forall_lookup_1 _ _ _ _ Hok' Hi). rewrite ordered_tail; [|apply Ho|lia].
  cbn. destruct (Z.eqb_spec (br_key (ch_bref c)) k); [lia|done].
Qed.

(** At the lowest key the slots of the check agree as the streams do. *)
Lemma round_agrees x x' lokey e c t :
  round x x' lokey e -> Forall stream_ok (streams x) -> xh_collect_key x <= lokey ->
  carried <$> cl_array c = carried <$> cl_array (xh_cluster x') ->
  holders (cluster_types (cl_pmp c)) lokey t (streams x) = countb (agrees lokey t) (check_slots c).
Proof.
  intros R Hok Hk Ec. rewrite <- (holders_seek _ (xh_collect_key x)), <- (ro_streams _ _ _ _ R) by lia.
  assert (Hok' := round_streams_ok _ _ _ _ R Hok).
  assert (Forall2 at_head (cl_array c) (streams x')) as Hh by (by apply (at_head_carried _ _ _ Ec), R).
  apply countb_ext. apply Forall2_same_length_lookup. unfold typed, check_slots, slots.
  rewrite !length_imap. split; [by rewrite (Forall2_length Hh)|].
  intros i m s Hm Hs. rewrite list_lookup_imap in Hm. rewrite list_lookup_imap in Hs.
  destruct (streams x' !! i) as [st|] eqn:Est; [|done]. destruct (cl_array c !! i) as [it|] eqn:Eit; [|done].
  injection Hm as <-. injection Hs as <-. unfold holder, agrees. cbn [fst snd sl_type]. f_equal.
  assert (Hhi := Forall2_lookup_lr _ _ _ _ _ _ Hh Eit Est). unfold at_head in Hhi.
  unfold sl_chain. cbn [sl_item]. destruct (ci_chain it) as [ch|] eqn:Ech; [|by rewrite Hhi].
  destruct Hhi as [rest ->]. assert (Ho := Forall_lookup_1 _ _ _ _ Hok' Est).
  destruct (carried_lookup _ _ _ _ Ec Eit) as (it0 & Hi0 & E0).
  destruct (ro_lokey _ _ _ _ R) as (_ & Hlo & _).
  rewrite ordered_tail; [done|apply Ho|]. apply (Hlo it0); [by apply list_elem_of_lookup_2 in Hi0|].
  apply (key_of_carried it); [done|by exists ch].
Qed.

Lemma pass3_error_from key t ss p :
  p3_error (foldl (pass3_count key t) p ss) = p3_error p \/
  exists s, s ∈ ss /\ quorum_match key t (sl_chain s) = true /\
    p3_error (foldl (pass3_count key t) p ss) = sl_error s.
Proof.
  revert p. induction ss as [|s ss IH]; intros p; [by left|]. cbn [foldl].
  destruct (IH (pass3_count key t p s)) as [E|(s' & Hin & Hq & E)].
  2:{ right. exists s'. split; [by apply elem_of_cons; right|done]. }
  rewrite E. destruct p as [ns nf er]. unfold pass3_count.
  destruct (quorum_match key t (sl_chain s)) eqn:Hq; [|by left].
  assert (forall n1 f1 n2 f2 (b1 b2 : bool) e', p3_error (if b1 then mkP3 ns f1 e' else
    if b2 then mkP3 n1 f2 e' else mkP3 n2 nf e') = e') as Ee by (by intros ? ? ? ? [] []).
  rewrite Ee. cbn [p3_error]. destruct (er =? 0); [right|by left]. exists s.
  split; [by apply elem_of_cons; left|done].
Qed.

(** The elements' own errors are not the collector's verdicts. *)
Definition no_verdicts (c : hammer2_cluster) : Prop :=
  forall it, it ∈ cl_array c -> is_Some (ci_chain it) ->
    ci_error it <> HAMMER2_ERROR_ESRCH /\ ci_error it <> HAMMER2_ERROR_EDEADLK.

(** A key is skipped only when no majority agrees on it. *)
Lemma check_skip c p key c' e :
  cl_pmp c = Some p -> 0 <= pfs_nmasters p -> key <> HAMMER2_KEY_MAX -> no_verdicts c ->
  hammer2_cluster_check c key 0 = Some (c', e) -> e = HAMMER2_ERROR_ESRCH \/ e = HAMMER2_ERROR_EDEADLK ->
  forall t, 0 <= t < HAMMER2_TID_MAX -> 2 * countb (agrees key t) (check_slots c) <= pfs_nmasters p.
Proof.
  intros Hp Hnm Hk Hv E He t Ht. unfold hammer2_cluster_check in E.
  destruct (check_pass2 c key 0) as [p2|] eqn:E2; [|done]. cbn [mbind option_bind] in E.
  destruct (check_pass2_result c p Hp Hnm key 0 p2 eq_refl E2) as ((l & _ & Hr) & Hhi & Hend).
  rewrite (cluster_nquorum_eq c p Hp) in E. rewrite <- tally_agrees by done.
  destruct (Z.ltb_spec (p2_nmasters p2) (nquorum p)) as [Hlt|Hge].
  - destruct Hend as [?|[_ Hz]]; [lia|]. rewrite Hz in Hhi.
    assert (tally t (votes key (check_slots c)) < nquorum p) as Hq.
    { destruct (decide (t = 0)) as [->|]; [|apply Hhi; lia]. by rewrite <- Hz, <- (sr_nmasters _ _ _ _ Hr). }
    unfold nquorum in Hq. dlia.
  - exfalso. change (nz (0 & HAMMER2_CHECK_NULL)) with false in E. cbn iota in E.
    destruct (p2_focus p2) as [f|]; [|injection E as _ <-; by destruct He].
    apply (inj Some) in E. unfold check_validate in E. injection E as _ <-.
    rewrite slots_pass1 in He.
    destruct (pass3_error_from key (p2_quorum_tid p2) (slot_pass1 <$> slots (cluster_types (cl_pmp c)) (cl_array c))
      (mkP3 0 (p1_nflags (check_pass1 c)) 0)) as [E3|(s & Hin & Hq & E3)]; rewrite E3 in He.
    { by destruct He. }
    apply list_elem_of_fmap in Hin as (s0 & -> & Hin). apply slots_elem in Hin.
    destruct (Hv _ Hin) as [N1 N2]; [|by destruct He].
    unfold quorum_match in Hq. change (sl_chain (slot_pass1 s0)) with (ci_chain (sl_item s0)) in Hq.
    by destruct (ci_chain (sl_item s0)).
Qed.

Lemma seek_head k e l rest : seek k l = e :: rest -> behind_entry k e = false.
Proof.
  induction l as [|e' l IH]; [done|]. cbn. destruct (behind_entry k e') eqn:Hb; [done|]. by injection 1 as <- <-.
Qed.

Section Round.
Context (x x' : hammer2_xop_head) (lokey e : Z).
Hypothesis R : round x x' lokey e.
Hypothesis Hok : Forall stream_ok (streams x).

(** The entry of every element with a chain heads its stream. *)
Lemma round_entry c it ch : carried <$> cl_array c = carried <$> cl_array (xh_cluster x') ->
  it ∈ cl_array c -> ci_chain it = Some ch ->
  entry_ok (Some ch, ci_error it) /\ xh_collect_key x <= br_key (ch_bref ch) /\ lokey <= br_key (ch_bref ch).
Proof.
  intros Ec Hin Hch. apply list_elem_of_lookup in Hin as [i Hi].
  destruct (carried_lookup _ _ _ _ Ec Hi) as (it0 & Hi0 & E0). injection E0 as E1 E2.
  destruct (Forall2_lookup_l _ _ _ _ _ (ro_heads _ _ _ _ R) Hi0) as (st & Hst & Hh).
  unfold at_head in Hh. rewrite E1, Hch in Hh. destruct Hh as [rest ->]. rewrite E2 in Hst.
  assert (Ho := Forall_lookup_1 _ _ _ _ (round_streams_ok _ _ _ _ R Hok) Hst).
  split; [destruct Ho as [_ Ho]; by inversion Ho|]. split.
  - rewrite (ro_streams _ _ _ _ R), list_lookup_fmap in Hst. destruct (streams x !! i) as [l|]; [|done].
    injection Hst as Hst. apply seek_head in Hst. unfold behind_entry in Hst. cbn in Hst.
    apply Z.ltb_ge in Hst. lia.
  - destruct (ro_lokey _ _ _ _ R) as (_ & Hlo & _). apply (Hlo it0); [by apply list_elem_of_lookup_2 in Hi0|].
    exists ch. split; [congruence|done].
Qed.

Lemma round_chain c : carried <$> cl_array c = carried <$> cl_array (xh_cluster x') ->
  has_chain (cl_array c) = true <-> lokey <> HAMMER2_KEY_MAX.
Proof.
  intros Ec. unfold has_chain. rewrite existsb_exists. split.
  - intros (it & Hin & Hc). apply bool_decide_eq_true in Hc as [ch Hch]. apply list_elem_of_In in Hin.
    destruct (round_entry c it ch Ec Hin Hch) as (He & _ & Hlo). destruct (He ch eq_refl) as [Hk _]. cbn in Hk. lia.
  - intros Hne. destruct (ro_lokey _ _ _ _ R) as (_ & _ & [?|(it & Hin & Hk)]); [done|].
    apply list_elem_of_lookup in Hin as [i Hi].
    destruct (carried_lookup _ _ _ _ (eq_sym Ec) Hi) as (it0 & Hi0 & E0).
    destruct (key_of_carried _ _ _ (eq_sym E0) Hk) as (ch & Hch & _).
    exists it0. split; [by apply list_elem_of_In; apply list_elem_of_lookup_2 in Hi0|].
    apply bool_decide_eq_true. by exists ch.
Qed.

Lemma round_lokey : xh_collect_key x <= HAMMER2_KEY_MAX -> xh_collect_key x <= lokey.
Proof.
  intros Hm. destruct (ro_lokey _ _ _ _ R) as (_ & _ & [E|(it & Hin & (ch & Hch & E))]); [lia|].
  destruct (round_entry (xh_cluster x') it ch eq_refl Hin Hch) as (_ & H & _). lia.
Qed.

Lemma round_carried c : carried <$> cl_array c = carried <$> cl_array (xh_cluster x') ->
  errors_carried c /\ no_verdicts c.
Proof.
  intros Ec. split.
  - intros it ch Hin Hch Hne. destruct (round_entry c it ch Ec Hin Hch) as (He & _).
    destruct (He ch eq_refl) as (_ & _ & _ & H). cbn in H. auto.
  - intros it Hin [ch Hch]. destruct (round_entry c it ch Ec Hin Hch) as (He & _).
    destruct (He ch eq_refl) as (_ & H1 & H2 & _). done.
Qed.
End Round.

(** What a collection settles: the key [lokey], after keys without a majority. *)
Definition settled (p : hammer2_pfs) (x x' : hammer2_xop_head) (lokey e : Z) : Prop :=
  xh_collect_key x' = next_key lokey /\ xh_collect_key x <= lokey <= HAMMER2_KEY_MAX /\
  (forall k t, xh_collect_key x <= k < lokey -> 0 <= t < HAMMER2_TID_MAX ->
     2 * holders (pfs_types p) k t (streams x) <= pfs_nmasters p) /\
  (e = 0 -> lokey <> HAMMER2_KEY_MAX /\ exists f, cl_focus (xh_cluster x') = Some f /\
     br_key (ch_bref f) = lokey /\ ch_error f = 0 /\
     pfs_nmasters p < 2 * holders (pfs_types p) lokey (br_modify_tid (ch_bref f)) (streams x)).

Lemma round_settled p x x' lokey e :
  cl_pmp (xh_cluster x) = Some p -> 0 <= pfs_nmasters p -> xh_collect_key x <= HAMMER2_KEY_MAX ->
  Forall stream_ok (streams x) -> round x x' lokey e -> settled p x x' lokey e.
Proof.
  intros Hp Hnm Hck Hok R. assert (Hlo := round_lokey _ _ _ _ R Hok Hck).
  split; [apply R|]. split; [split; [done|apply (ro_lokey _ _ _ _ R)]|]. split.
  - intros k t Hk _. rewrite (round_between _ _ _ _ _ _ _ R Hok Hk). lia.
  - intros ->. destruct (ro_check _ _ _ _ R) as (c & Ec & Epm & Echk).
    destruct (has_chain (cl_array c)) eqn:Hh.
    2:{ apply check_success in Echk as (? & ? & _ & Hn & _). done. }
    apply (round_chain _ _ _ _ R Hok c Ec) in Hh. split; [done|].
    destruct (round_carried _ _ _ _ R Hok c Ec) as [Hec _]. rewrite Hp in Epm.
    destruct (check_quorum c p lokey _ Epm Hnm Hh Hec Echk) as (s & f & _ & Hch & He & Hf & _ & Ha & Hq & _).
    exists f. destruct (agrees_chain _ _ _ Ha) as (f' & Hch' & _ & Hkey & _).
    rewrite Hch in Hch'. injection Hch' as <-. split_and!; [done..|].
    rewrite <- (round_agrees _ _ _ _ _ _ R Hok Hlo Ec), Epm in Hq. done.
Qed.

Lemma collect_loop_settled fuel p x x' e :
  cl_pmp (xh_cluster x) = Some p -> 0 <= pfs_nmasters p -> xh_collect_key x <= HAMMER2_KEY_MAX ->
  Forall stream_ok (streams x) -> xop_ok x -> collect_loop fuel x = Some (x', e) ->
  exists lokey, settled p x x' lokey e.
Proof.
  revert x. induction fuel as [|n IH]; intros x Hp Hnm Hck Hok Hx E; [done|]. cbn [collect_loop] in E.
  destruct (collect_round_spec x Hx) as (x1 & lokey & e1 & E1 & R). rewrite E1 in E. cbn [mbind option_bind] in E.
  assert (S1 := round_settled p _ _ _ _ Hp Hnm Hck Hok R).
  destruct ((e1 =? HAMMER2_ERROR_ESRCH) || (e1 =? HAMMER2_ERROR_EDEADLK)) eqn:Hskip.
  2:{ injection E as <- <-. by exists lokey. }
  destruct (Z.eqb_spec lokey HAMMER2_KEY_MAX) as [->|Hne]; cbn [negb] in E.
  { injection E as <- <-. exists HAMMER2_KEY_MAX. destruct S1 as (? & ? & ? & _). by split_and!. }
  destruct S1 as (Sk & Sb & Sno & _). unfold next_key in Sk. destruct (Z.eqb_spec lokey HAMMER2_KEY_MAX); [done|].
  destruct (IH x1) as (lo & T1 & T2 & T3 & T4);
    [by rewrite (ro_pmp _ _ _ _ R)|done|lia|by apply (round_streams_ok _ _ _ _ R)|apply R|done|].
  rewrite Sk in T2. exists lo. split; [done|]. split; [lia|].
  assert (forall k t, lokey < k -> holders (pfs_types p) k t (streams x1) = holders (pfs_types p) k t (streams x)) as Eh.
  { intros k t Hk. rewrite (ro_streams _ _ _ _ R), holders_seek by lia. done. }
  split.
  - intros k t Hk Ht. destruct (Z.lt_total k lokey) as [?|[->|?]]; [apply Sno; lia| |].
    + destruct (ro_check _ _ _ _ R) as (c & Ec & Epm & Echk).
      rewrite (proj2 (round_chain _ _ _ _ R Hok c Ec) Hne) in Echk. rewrite Hp in Epm.
      assert (cluster_types (cl_pmp c) = pfs_types p) as Et by by rewrite Epm.
      rewrite <- Et, (round_agrees _ _ _ _ _ _ R Hok (proj1 Sb) Ec).
      apply (check_skip c p lokey (xh_cluster x1) e1); try done.
      * by apply (round_carried _ _ _ _ R Hok c Ec).
      * apply orb_true_iff in Hskip as [->%Z.eqb_eq| ->%Z.eqb_eq]; auto.
    + rewrite <- Eh by lia. apply T3; [lia|done].
  - intros He. destruct (T4 He) as (Hlo & f & F1 & F2 & F3 & F4). split; [done|].
    exists f. rewrite Eh in F4 by lia. done.
Qed.

(** ** References *)

Definition stream_q (it : hammer2_cluster_item) (q : list entry) : list entry := held it ++ q.

Lemma streams_queues x : streams x = zip_with stream_q (cl_array (xh_cluster x)) (queues x).
Proof. unfold streams, streams_of, queues. by rewrite zip_with_fmap_r. Qed.

Lemma refs_zip a items qs : length items = length qs ->
  refs_in a (concat (zip_with stream_q items qs)) =
  refs_in a (concat (held <$> items)) + refs_in a (concat qs).
Proof.
  revert qs. induction items as [|it items IH]; intros [|q qs] Hl; try done.
  injection Hl as Hl. cbn. unfold stream_q at 1. rewrite !refs_in_app, IH by done. lia.
Qed.

Lemma refs_insert a i q e qs : qs !! i = Some q ->
  refs_in a (concat (<[i := q ++ [e]]> qs)) = refs_in a (concat qs) + (if on_chain a e then 1 else 0).
Proof.
  revert i. induction qs as [|q0 qs IH]; intros [|i] Hq; try done; cbn in *.
  - injection Hq as ->. rewrite !refs_in_app, refs_in_cons. change (refs_in a []) with 0. lia.
  - rewrite !refs_in_app, IH by done. lia.
Qed.

Lemma balanced_eq x : xop_ok x ->
  balanced x <-> forall a, xh_refs x a =
    refs_in a (concat (held <$> cl_array (xh_cluster x))) + refs_in a (concat (queues x)).
Proof.
  intros Hx. unfold balanced. rewrite streams_queues.
  assert (length (cl_array (xh_cluster x)) = length (queues x)) as El by (rewrite queues_length; apply Hx).
  split; intros H a; rewrite H, refs_zip; done.
Qed.

(** What holds of an operation from its start to its last retire: the state is
    well formed, the references are those of what is still to deliver, the
    frontend is attached, and only the elements that run have fed. *)
Record xop_inv (x : hammer2_xop_head) : Prop := mkXopInv {
  xi_ok : xop_ok x;
  xi_balanced : balanced x;
  xi_run : xh_run_mask x = HAMMER2_XOPMASK_VOP;
  xi_fed : forall i q, queues x !! i = Some q -> q <> [] -> Z.testbit (xh_chk_mask x) (Z.of_nat i) = true
}.

(** The operation between its start and its last retire: the elements of
    [chk_mask] feed, the frontend collects. *)
Inductive xop_run : hammer2_xop_head -> Prop :=
| run_alloc nchains pmp ccache crefs chk x :
    Z.of_nat nchains <= HAMMER2_MAXCLUSTER ->
    hammer2_xop_alloc nchains pmp ccache crefs = Some x ->
    xop_run (xop_set_masks x (xh_run_mask x) chk)
| run_feed x ch i e x' err :
    xop_run x -> (i < length (xh_collect x))%nat -> Z.testbit (xh_chk_mask x) (Z.of_nat i) = true ->
    hammer2_xop_feed x ch i e = Some (x', err) -> xop_run x'
| run_collect x x' err : xop_run x -> hammer2_xop_collect x = Some (x', err) -> xop_run x'.

Lemma alloc_fifos n : mapM (fun f => hammer2_xop_fifo_alloc f HAMMER2_XOPFIFO 0) (replicate n fifo_zero) =
  Some (replicate n (mkFifo (replicate 16 None) (replicate 16 0) 0 0)).
Proof. induction n as [|n IH]; [done|]. cbn [replicate mapM]. by rewrite IH. Qed.

Lemma held_none (n : nat) : concat (held <$> replicate n (mkItem None 0 0)) = [].
Proof. induction n; [done|]. done. Qed.

Lemma concat_nils (n : nat) : concat (replicate n ([] : list entry)) = [].
Proof. by induction n. Qed.

Lemma inv_alloc nchains pmp ccache crefs chk x :
  Z.of_nat nchains <= HAMMER2_MAXCLUSTER -> hammer2_xop_alloc nchains pmp ccache crefs = Some x ->
  xop_inv (xop_set_masks x (xh_run_mask x) chk).
Proof.
  intros Hn E. unfold hammer2_xop_alloc in E. rewrite alloc_fifos in E. injection E as <-.
  set (x := xop_set_masks _ _ _).
  assert (queues x = replicate nchains []) as Eq.
  { unfold queues. cbn. by rewrite fmap_replicate. }
  assert (xop_ok x) as Hx.
  { constructor; cbn -[HAMMER2_MAXCLUSTER]; rewrite ?length_replicate; try done.
    - by exists 4.
    - by apply Forall_replicate, mkFifoOk. }
  constructor; [done| |done|].
  - apply (balanced_eq x Hx). intros a. rewrite Eq, concat_nils. cbn. by rewrite held_none.
  - intros i q Hq Hne. rewrite Eq in Hq. apply lookup_replicate in Hq as [-> _]. done.
Qed.

Lemma inv_feed x ch i e x' err :
  xop_inv x -> (i < length (xh_collect x))%nat -> Z.testbit (xh_chk_mask x) (Z.of_nat i) = true ->
  hammer2_xop_feed x ch i e = Some (x', err) -> xop_inv x'.
Proof.
  intros [Hx Hb Hr Hf] Hi Hbit E.
  destruct (feed_spec x ch i e Hx) as (x1 & q & E1 & Hx1 & Hq & Eq & (S1 & _ & S3 & S4 & _) & Er);
    [unfold hammer2_xop_active; by rewrite Hr|done|].
  rewrite E1 in E. injection E as <- <-. constructor; [done| |by rewrite S3|].
  - apply (balanced_eq _ Hx1). assert (Hb' := proj1 (balanced_eq _ Hx) Hb). intros a.
    rewrite Er, (ref_by_eq _ _ (fed_error ch e)), Hb', S1, Eq, (refs_insert a i q) by done. lia.
  - intros j q' Hj Hne. rewrite S4. rewrite Eq in Hj. destruct (decide (j = i)) as [->|Hji]; [done|].
    rewrite list_lookup_insert_ne in Hj by done. by apply (Hf j q').
Qed.

Lemma read_nonempty size f f' : fifo_ok size f' -> ff_wi f' = ff_wi f /\ ff_ri f <= ff_ri f' ->
  queue size f' <> [] -> queue size f <> [].
Proof.
  intros Hf [Hw Hr] Hne E. apply Hne. apply (f_equal length) in E. unfold queue in *.
  rewrite length_fmap, length_seqZ in E. cbn in E. rewrite seqZ_nil; [done|lia].
Qed.

Lemma inv_round x x' lokey e : xop_inv x -> round x x' lokey e -> xop_inv x'.
Proof.
  intros [Hx Hb Hr Hf] R. destruct (ro_rest _ _ _ _ R) as (R1 & R2 & _ & _ & Es).
  constructor; [apply R| |congruence|].
  - intros a. assert (Ha := ro_refs _ _ _ _ R a). rewrite (Hb a) in Ha. lia.
  - intros i q Hq Hne. rewrite R2. unfold queues in Hq. rewrite list_lookup_fmap in Hq.
    destruct (xh_collect x' !! i) as [f'|] eqn:Ef'; [|done]. injection Hq as <-.
    destruct (Forall2_lookup_r _ _ _ _ _ (ro_read _ _ _ _ R) Ef') as (f & Ef & Hrd).
    apply (Hf i (queue (xh_fifo_size x) f)).
    + unfold queues. by rewrite list_lookup_fmap, Ef.
    + rewrite Es in Hne. apply (read_nonempty _ f f'); try done. rewrite <- Es.
      by apply (Forall_lookup_1 _ _ _ _ (xo_fifos _ (ro_ok _ _ _ _ R)) Ef').
Qed.

Lemma inv_collect fuel x x' e : xop_inv x -> collect_loop fuel x = Some (x', e) -> xop_inv x'.
Proof.
  revert x. induction fuel as [|n IH]; intros x Hx E; [done|]. cbn [collect_loop] in E.
  destruct (collect_round_spec x (xi_ok _ Hx)) as (x1 & lokey & e1 & E1 & R). rewrite E1 in E.
  cbn [mbind option_bind] in E. assert (Hx1 := inv_round _ _ _ _ Hx R).
  destruct (_ || _); [|by injection E as <- _]. destruct (negb _); [|by injection E as <- _]. by apply (IH x1).
Qed.

(** The invariant holds of every state of a run, by induction on its steps. *)
Lemma run_inv x : xop_run x -> xop_inv x.
Proof.
  induction 1 as [nchains pmp ccache crefs chk x Hn E|x ch i e x' err _ IH Hi Hb E|x x' err _ IH E].
  - by apply (inv_alloc nchains pmp ccache crefs).
  - by apply (inv_feed x ch i e x' err).
  - by apply (inv_collect _ _ _ _ IH E).
Qed.

(** ** Retiring *)

Lemma drain_fifo_spec size n f refs : fifo_ok size f -> n = Z.to_nat (ff_wi f - ff_ri f) ->
  let '(f', refs') := drain_fifo n (size - 1) f refs in
  ff_ri f' = ff_wi f' /\ forall a, refs' a = refs a - refs_in a (queue size f).
Proof.
  revert f refs. induction n as [|n IH]; intros f refs Hf Hn; cbn [drain_fifo].
  - assert (ff_ri f = ff_wi f) as E by (destruct Hf; lia). split; [done|]. intros a.
    assert (queue size f = []) as -> by (unfold queue; by rewrite E, Z.sub_diag).
    change (refs_in a []) with 0. lia.
  - destruct (Z.eqb_spec (ff_ri f) (ff_wi f)) as [E|Hne]; [lia|].
    destruct (fifo_pop_queue size f Hf Hne) as [Hp Eq].
    specialize (IH (fifo_pop f) (ref_by (-1) (aget None (ff_array f) (ff_ri f & (size - 1))) refs) Hp).
    destruct (drain_fifo n (size - 1) _ _) as [f' refs']. destruct IH as [H1 H2]; [cbn; lia|].
    split; [done|]. intros a. rewrite H2, Eq, refs_in_cons, (ref_by_eq _ _ (aget 0 (ff_errors f) (ff_ri f & (size - 1)))).
    unfold cell. destruct (on_chain a _); lia.
Qed.

Lemma drain_fifos_spec size fifos i chk refs : Forall (fifo_ok size) fifos -> 0 <= i ->
  i + Z.of_nat (length fifos) <= HAMMER2_MAXCLUSTER ->
  (forall (j : nat) f, fifos !! j = Some f -> queue size f <> [] -> Z.testbit chk (i + Z.of_nat j) = true) ->
  forall a, snd (drain_fifos i chk (size - 1) fifos refs) a = refs a - refs_in a (concat (queue size <$> fifos)).
Proof.
  intros Hf. revert i chk refs. induction Hf as [|f fifos Hf Hfs IH]; intros i chk refs Hi Hl Hbits a; cbn [drain_fifos].
  { change (refs_in a (concat (queue size <$> []))) with 0. cbn [snd]. lia. }
  cbn in Hl. destruct (nz_spec chk) as [Hnz|Hz]; cbn [andb].
  - destruct (Z.ltb_spec i HAMMER2_MAXCLUSTER); [|lia].
    assert (Hd := drain_fifo_spec size _ f refs Hf eq_refl).
    destruct (drain_fifo _ (size - 1) f refs) as [f' refs']. destruct Hd as [_ Hd].
    specialize (IH (i + 1) (chk &~ Z.shiftl 1 i) refs').
    destruct (drain_fifos (i + 1) _ (size - 1) fifos refs') as [rest refs'']. cbn [snd] in IH |- *.
    rewrite IH, Hd; [rewrite fmap_cons; cbn [concat]; rewrite refs_in_app; lia|lia|lia|].
    intros j g Hg Hne. rewrite Z.ldiff_spec, Z.shiftl_spec by lia.
    replace (i + 1 + Z.of_nat j) with (i + Z.of_nat (S j)) by lia. rewrite (Hbits (S j) g Hg Hne).
    rewrite Z.bits_above_log2; [done|lia|cbn; lia].
  - assert (chk = 0) as -> by lia. cbn [snd].
    assert (concat (queue size <$> f :: fifos) = []) as ->; [|change (refs_in a []) with 0; lia].
    apply concat_nil_Forall, Forall_fmap, Forall_lookup_2. intros j g Hg. unfold compose.
    destruct (queue size g) eqn:E; [done|]. specialize (Hbits j g Hg). rewrite E, Z.bits_0 in Hbits.
    exfalso. assert (false = true) by by apply Hbits. done.
Qed.

(** The references of the chains of a cluster, as entries. *)
Definition chains_refs (a : Z) (chains : list (option hammer2_chain)) : Z :=
  refs_in a ((fun ch => (ch, 0)) <$> chains).

Lemma ref_all_eq n chains refs a : ref_all n chains refs a = refs a + n * chains_refs a chains.
Proof.
  unfold ref_all, chains_refs. revert refs. induction chains as [|ch chains IH]; intros refs; cbn.
  - change (refs_in a []) with 0. lia.
  - rewrite IH, (ref_by_eq n ch 0), refs_in_cons. destruct (on_chain a (ch, 0)); lia.
Qed.

Lemma chains_refs_held a items : chains_refs a (ci_chain <$> items) = refs_in a (concat (held <$> items)).
Proof.
  unfold chains_refs. induction items as [|it items IH]; [done|]. cbn. rewrite refs_in_cons, IH, refs_in_app.
  unfold held, on_chain, refs_in at 2, countb. cbn. destruct (ci_chain it) as [c|]; cbn; [|done].
  destruct (a =? ch_addr c); cbn; lia.
Qed.

Lemma dispose_refs x : xop_ok x -> balanced x ->
  (forall i q, queues x !! i = Some q -> q <> [] -> Z.testbit (xh_chk_mask x) (Z.of_nat i) = true) ->
  (forall a, xh_refs (xop_dispose x) a = 0) /\
  (forall a, xh_crefs (xop_dispose x) a - chains_refs a (xh_ccache (xop_dispose x)) =
             xh_crefs x a - chains_refs a (xh_ccache x)).
Proof.
  intros Hx Hb Hf. assert (Hb' := proj1 (balanced_eq _ Hx) Hb). destruct Hx as [Hs Hff Hl Hm].
  unfold xop_dispose, fifo_mask. set (refs := ref_all (-1) _ (xh_refs x)).
  assert (forall a, snd (drain_fifos 0 (xh_chk_mask x) (xh_fifo_size x - 1) (xh_collect x) refs) a = 0) as Hz.
  { intros a. rewrite drain_fifos_spec; [|done|lia|done|].
    - unfold refs. rewrite ref_all_eq, chains_refs_held, Hb'. unfold queues. lia.
    - intros j f Hj Hne. apply (Hf j (queue (xh_fifo_size x) f)); [|done].
      unfold queues. by rewrite list_lookup_fmap, Hj. }
  destruct (drain_fifos _ _ _ _ refs) as [fifos refs']. split; [done|].
  intros a. cbn [xh_crefs xh_ccache]. rewrite !ref_all_eq. lia.
Qed.

(** ** Properties *)

(** C24: hammer2_xop_feed() appends to the element's queue and to no other: the
    chain comes with the error given, or with its own where none is; the FIFOs
    stay queues when they double, the operation stays well formed, and one
    reference is taken on the chain. *)
Theorem xop_feed_appends x ch i e :
  xop_ok x -> hammer2_xop_active x = true -> (i < length (xh_collect x))%nat ->
  exists x' q, hammer2_xop_feed x ch i e = Some (x', 0) /\ xop_ok x' /\ queues x !! i = Some q /\
    queues x' = <[i := q ++ [(ch, fed_error ch e)]]> (queues x) /\ same_rest x x' /\
    xh_refs x' = ref_by 1 ch (xh_refs x).
Proof. apply feed_spec. Qed.

Definition sample_xop : hammer2_xop_head :=
  default (mkXop [] (sample_cluster []) 0 0 0 0 (fun _ => 0) (fun _ => 0) [])
    (hammer2_xop_alloc 4 (Some sample_pfs) [] (fun _ => 0)).

Definition feed1 (i : nat) (ch : option hammer2_chain) (x : hammer2_xop_head) : hammer2_xop_head :=
  from_option fst x (hammer2_xop_feed x ch i 0).
Definition feed_key (i : nat) (key tid : Z) (x : hammer2_xop_head) : hammer2_xop_head :=
  feed1 i (Some (sample_chain (100 * Z.of_nat i + key) key tid 0)) x.

(** Sixteen entries, which fill the first ring. *)
Definition sample_full : hammer2_xop_head :=
  foldl (fun x k => feed_key 0 (Z.of_nat k) 1 x) sample_xop (seq 0 16).

Definition fifo_okb (size : Z) (f : hammer2_xop_fifo) : bool :=
  (zlen (ff_array f) =? size) && (zlen (ff_errors f) =? size) && (0 <=? ff_ri f) &&
  (ff_ri f <=? ff_wi f) && (ff_wi f - ff_ri f <=? size).

Lemma sample_ok x : xh_fifo_size x = 16 -> forallb (fifo_okb 16) (xh_collect x) = true ->
  length (cl_array (xh_cluster x)) = length (xh_collect x) ->
  Z.of_nat (length (xh_collect x)) <= HAMMER2_MAXCLUSTER -> xop_ok x.
Proof.
  intros Hs Hf Hl Hm. constructor; [exists 4; by rewrite Hs| |done|done]. rewrite Hs.
  apply Forall_forall. intros f Hin. assert (H := proj1 (forallb_forall _ _) Hf f Hin).
  unfold fifo_okb in H. rewrite !andb_true_iff, !Z.eqb_eq, !Z.leb_le in H. constructor; lia.
Qed.

Lemma sample_full_ok : xop_ok sample_full.
Proof. apply sample_ok; vm_compute; reflexivity || discriminate. Qed.

Lemma xop_feed_appends_witness :
  exists x' q, hammer2_xop_feed sample_full None 0 HAMMER2_ERROR_EIO = Some (x', 0) /\
    queues sample_full !! 0%nat = Some q /\
    queues x' = <[0%nat := q ++ [(None, HAMMER2_ERROR_EIO)]]> (queues sample_full).
Proof.
  destruct (xop_feed_appends sample_full None 0 HAMMER2_ERROR_EIO) as (x' & q & H1 & _ & H2 & H3 & _);
    [exact sample_full_ok|vm_compute; reflexivity|vm_compute; lia|].
  exists x', q. exact (conj H1 (conj H2 H3)).
Defined.

(** C4: hammer2_xop_collect() always returns: every time it goes back for a key
    without a quorum, some element moves past that key.  It delivers the keys in
    order and skips none that a majority holds.  When every element feeds its chains in key order, the key a
    collection settles on is at or past the collection key; no key before it
    is held by a majority of the masters at any transaction; the next
    collection starts past it; and when the collection succeeds, its focus is
    an undamaged chain of that key that a majority of the masters hold. *)
Theorem xop_collect_in_order p x :
  cl_pmp (xh_cluster x) = Some p -> 0 <= pfs_nmasters p -> xh_collect_key x <= HAMMER2_KEY_MAX ->
  Forall stream_ok (streams x) -> xop_ok x ->
  exists x' e lokey, hammer2_xop_collect x = Some (x', e) /\ xop_ok x' /\ settled p x x' lokey e.
Proof.
  intros Hp Hn Hk Hs Hx. destruct (collect_total x Hx) as (x' & e & E & Hx').
  destruct (collect_loop_settled _ p x x' e Hp Hn Hk Hs Hx E) as (lokey & H).
  exists x', e, lokey. exact (conj E (conj Hx' H)).
Qed.

(** Two of three masters hold 10 and 20 alike; the slave alone holds 15. *)
Definition sample_listing : hammer2_xop_head :=
  feed1 3 None (feed_key 3 20 7 (feed_key 3 15 5 (
  feed1 2 None (feed_key 2 20 7 (
  feed1 1 None (feed_key 1 20 9 (feed_key 1 10 5 (
  feed1 0 None (feed_key 0 20 7 (feed_key 0 10 5 sample_xop)))))))))).

Definition collect1 (x : hammer2_xop_head) : hammer2_xop_head := from_option fst x (hammer2_xop_collect x).

(** After the first collection, of key 10. *)
Definition sample_second : hammer2_xop_head := collect1 sample_listing.

Lemma sample_second_streams : Forall stream_ok (streams sample_second).
Proof.
  assert (forall l, omap entry_key l = [10; 20] \/ omap entry_key l = [20] \/ omap entry_key l = [15; 20] -> ordered l) as Ho.
  { unfold ordered. intros l [->|[->| ->]]; repeat constructor; lia. }
  assert (forall l, forallb (fun en => match en.1 with
      | Some c => (br_key (ch_bref c) <? HAMMER2_KEY_MAX) && (en.2 =? 0) && (ch_error c =? 0)
      | None => true end) l = true -> Forall entry_ok l) as He.
  { intros l H. apply Forall_forall. intros en Hin c Hc.
    assert (Hb := proj1 (forallb_forall _ _) H en Hin). cbn in Hb. rewrite Hc in Hb.
    rewrite !andb_true_iff, Z.ltb_lt, !Z.eqb_eq in Hb. destruct Hb as [[H1 H2] H3]. rewrite H2.
    split_and!; [done|discriminate|discriminate|lia]. }
  apply Forall_lookup_2. intros [|[|[|[|i]]]] l Hl; vm_compute in Hl; try discriminate; injection Hl as <-;
    (split; [apply Ho; vm_compute; auto|apply He; reflexivity]).
Qed.

Lemma collect_same x x1 e1 x2 e2 :
  hammer2_xop_collect x = Some (x1, e1) -> hammer2_xop_collect x = Some (x2, e2) -> x1 = x2 /\ e1 = e2.
Proof. intros -> [=]. auto. Qed.

Lemma xop_collect_in_order_witness :
  xh_collect_key sample_second = 11 /\
  exists lokey, settled sample_pfs sample_second (collect1 sample_second) lokey 0 /\ next_key lokey = 21.
Proof.
  split; [vm_compute; reflexivity|].
  assert (hammer2_xop_collect sample_second = Some (collect1 sample_second, 0)) as E
    by (vm_compute; reflexivity).
  destruct (xop_collect_in_order sample_pfs sample_second) as (x' & e & lokey & E' & _ & H);
    [vm_compute; reflexivity|discriminate|vm_compute; discriminate|exact sample_second_streams| |].
  - apply sample_ok; vm_compute; reflexivity || discriminate.
  - destruct (collect_same _ _ _ _ _ E E') as [<- <-]. exists lokey. split; [exact H|].
    destruct H as [H _]. rewrite <- H. vm_compute. reflexivity.
Defined.

(** C22: no reference is lost or dropped twice.  Whatever the elements that run
    feed and however often the frontend collects, its retire succeeds and
    leaves the operation with no reference on any chain; the inode's cache
    holds one for every chain in it, as before. *)
Theorem xop_refs_returned x : xop_run x ->
  exists x', hammer2_xop_retire x HAMMER2_XOPMASK_VOP = Some x' /\
    (forall a, xh_refs x' a = 0) /\
    (forall a, xh_crefs x' a - chains_refs a (xh_ccache x') = xh_crefs x a - chains_refs a (xh_ccache x)).
Proof.
  intros Hx%run_inv. unfold hammer2_xop_retire. rewrite (xi_run _ Hx).
  set (x1 := xop_set_masks x _ (xh_chk_mask x)).
  destruct Hx as [[Hs Hff Hl Hm] Hb _ Hf].
  destruct (dispose_refs x1) as [H1 H2]; [by constructor|exact Hb|exact Hf|].
  exists (xop_dispose x1). split; [done|]. split; [exact H1|exact H2].
Qed.

Definition sample_started : hammer2_xop_head := xop_set_masks sample_xop HAMMER2_XOPMASK_VOP 5.
Definition sample_fed : hammer2_xop_head := feed_key 2 20 7 (feed_key 2 10 5 (feed_key 0 10 5 sample_started)).

Lemma feed_key_run i key tid x : xop_run x -> (i < length (xh_collect x))%nat ->
  Z.testbit (xh_chk_mask x) (Z.of_nat i) = true -> xop_run (feed_key i key tid x).
Proof.
  intros Hx Hi Hb. unfold feed_key, feed1.
  destruct (hammer2_xop_feed x _ i 0) as [[x' e]|] eqn:E; [|done]. exact (run_feed x _ i 0 x' e Hx Hi Hb E).
Qed.

Lemma sample_fed_run : xop_run sample_fed.
Proof.
  repeat (apply feed_key_run; [|vm_compute; lia|vm_compute; reflexivity]).
  apply (run_alloc 4 (Some sample_pfs) [] (fun _ => 0) 5 sample_xop); [discriminate|reflexivity].
Qed.

Lemma xop_refs_returned_witness :
  map (xh_refs sample_fed) [10; 210; 220] = [1; 1; 1] /\
  exists x', hammer2_xop_retire (collect1 sample_fed) HAMMER2_XOPMASK_VOP = Some x' /\
    map (xh_refs x') [10; 210; 220] = [0; 0; 0].
Proof.
  split; [vm_compute; reflexivity|].
  destruct (xop_refs_returned (collect1 sample_fed)) as (x' & H1 & H2 & _).
  - apply (run_collect sample_fed _ (from_option snd 0 (hammer2_xop_collect sample_fed)));
      [|vm_compute; reflexivity].
    exact sample_fed_run.
  - exists x'. split; [exact H1|]. cbn. rewrite !H2. reflexivity.
Defined.

(** ** Starting *)

(** The elements an operation runs on: those of the inode's cluster with a
    chain, but for the excepted one, that the operation has a FIFO for. *)
Definition runs_on (nchains notidx : Z) (chains : list (option hammer2_chain)) (i : nat) : bool :=
  (Z.of_nat i <? nchains) && negb (Z.of_nat i =? notidx) &&
  match chains !! i with Some (Some _) => true | _ => false end.

Lemma start_mask_spec i nchains notidx chains chk j : 0 <= i ->
  Z.testbit (start_mask i nchains notidx chains chk) (i + Z.of_nat j) =
    Z.testbit chk (i + Z.of_nat j) ||
    ((i + Z.of_nat j <? nchains) && negb (i + Z.of_nat j =? notidx) &&
     match chains !! j with Some (Some _) => true | _ => false end) /\
  forall k, 0 <= k < i -> Z.testbit (start_mask i nchains notidx chains chk) k = Z.testbit chk k.
Proof.
  revert i chk j. induction chains as [|ch chains IH]; intros i chk j Hi; cbn [start_mask].
  { rewrite lookup_nil, andb_false_r, orb_false_r. done. }
  destruct (Z.ltb_spec i nchains) as [Hlt|Hge].
  2:{ split; [|done]. destruct (Z.ltb_spec (i + Z.of_nat j) nchains); [lia|]. by rewrite orb_false_r. }
  set (chk' := if _ && _ then _ else chk).
  assert (forall k, 0 <= k -> Z.testbit chk' k =
    Z.testbit chk k || ((k =? i) && negb (i =? notidx) && match ch with Some _ => true | None => false end)) as Hc.
  { intros k Hk. unfold chk'. destruct ch as [c|]; [rewrite bool_decide_eq_true_2 by done|rewrite bool_decide_eq_false_2 by (by intros [])].
    - rewrite andb_true_r. destruct (i =? notidx); cbn [negb]; [by rewrite !andb_false_r, orb_false_r|].
      rewrite Z.lor_spec, Z.shiftl_1_l, Z.pow2_bits_eqb, !andb_true_r by lia. by rewrite Z.eqb_sym.
    - by rewrite !andb_false_r, orb_false_r. }
  destruct j as [|j].
  - split.
    + destruct (IH (i + 1) chk' 0%nat) as [_ H]; [lia|]. rewrite Z.add_0_r, H, Hc, Z.eqb_refl by lia.
      destruct (Z.ltb_spec i nchains); [|lia]. cbn. by destruct ch.
    + intros k Hk. destruct (IH (i + 1) chk' 0%nat) as [_ H]; [lia|]. rewrite H, Hc by lia.
      destruct (Z.eqb_spec k i); [lia|]. by rewrite orb_false_r.
  - destruct (IH (i + 1) chk' j) as [H1 H2]; [lia|].
    replace (i + Z.of_nat (S j)) with (i + 1 + Z.of_nat j) by lia. split.
    + rewrite H1, Hc by lia. destruct (Z.eqb_spec (i + 1 + Z.of_nat j) i); [lia|]. by rewrite orb_false_r.
    + intros k Hk. rewrite H2, Hc by lia. destruct (Z.eqb_spec k i); [lia|]. by rewrite orb_false_r.
Qed.

Section StartProof.
Context (storage : nat -> hammer2_xop_head -> option hammer2_xop_head).

(** A storage function leaves the masks of the operation alone. *)
Hypothesis storage_masks : forall i x x', storage i x = Some x' ->
  xh_run_mask x' = xh_run_mask x /\ xh_chk_mask x' = xh_chk_mask x.

(** The reference: the elements one after another, each with its bit in
    [run_mask] while it runs. *)
Definition run_element (i : nat) (x : hammer2_xop_head) : option hammer2_xop_head :=
  x ← storage i (xop_set_masks x (HAMMER2_XOPMASK_VOP ||| Z.shiftl 1 (Z.of_nat i)) (xh_chk_mask x));
  Some (xop_set_masks x HAMMER2_XOPMASK_VOP (xh_chk_mask x)).

Fixpoint run_elements (els : list nat) (x : hammer2_xop_head) : option hammer2_xop_head :=
  match els with
  | [] => Some x
  | i :: els => x ← run_element i x; run_elements els x
  end.

Lemma element_mask (i : nat) : (i < 8)%nat ->
  let m := Z.shiftl 1 (Z.of_nat i) in
  let r := HAMMER2_XOPMASK_VOP ||| m in
  nz (r & HAMMER2_XOPMASK_VOP) = true /\ (r & m =? 0) = false /\
  (r & HAMMER2_XOPMASK_ALLDONE =? m) = false /\ u32 (r - m) = HAMMER2_XOPMASK_VOP.
Proof. intros Hi. do 8 (destruct i as [|i]; [done|]). lia. Qed.

Lemma start_loop_elements n i x : (i + n <= 8)%nat -> xh_run_mask x = HAMMER2_XOPMASK_VOP ->
  start_loop storage n i x =
  run_elements (List.filter (fun j => Z.testbit (xh_chk_mask x) (Z.of_nat j)) (seq i n)) x.
Proof.
  revert i x. induction n as [|n IH]; intros i x Hn Hr; [done|]. cbn [start_loop seq List.filter].
  assert (Hb : (xh_chk_mask x & Z.shiftl 1 (Z.of_nat i) =? 0) = negb (Z.testbit (xh_chk_mask x) (Z.of_nat i))).
  { rewrite Z.shiftl_1_l. destruct (Z.testbit (xh_chk_mask x) (Z.of_nat i)) eqn:E; cbn [negb].
    - apply Z.eqb_neq. intros H. apply (f_equal (fun z => Z.testbit z (Z.of_nat i))) in H.
      rewrite Z.land_spec, E, Z.pow2_bits_true, Z.bits_0 in H by lia. done.
    - apply Z.eqb_eq, Z.bits_inj'. intros k Hk. rewrite Z.land_spec, Z.pow2_bits_eqb, Z.bits_0 by lia.
      destruct (Z.eqb_spec (Z.of_nat i) k) as [<-|]; [by rewrite E|by rewrite andb_false_r]. }
  rewrite Hb. destruct (Z.testbit (xh_chk_mask x) (Z.of_nat i)) eqn:E; cbn [negb]; [|apply IH; [lia|done]].
  destruct (element_mask i) as (M1 & M2 & M3 & M4); [lia|]. rewrite Hr.
  unfold hammer2_xop_active. cbn [xh_run_mask xop_set_masks]. rewrite M1. cbn [run_elements]. unfold run_element.
  destruct (storage i _) as [x1|] eqn:Es; [|done]. cbn [mbind option_bind].
  destruct (storage_masks _ _ _ Es) as [S1 S2]. cbn [xh_run_mask xh_chk_mask xop_set_masks] in S1, S2.
  unfold hammer2_xop_retire. rewrite S1, M2, M3. cbn [negb mbind option_bind]. rewrite M4.
  rewrite IH; [|lia|done]. cbn [xh_chk_mask xop_set_masks]. by rewrite S2.
Qed.
End StartProof.

Lemma feed_grow_rest fuel x i x' : feed_grow fuel x i = Some (Grown x') ->
  xh_run_mask x' = xh_run_mask x /\ xh_chk_mask x' = xh_chk_mask x.
Proof.
  revert x. induction fuel as [|n IH]; intros x E; [done|]. cbn [feed_grow] in E.
  destruct (xh_collect x !! i) as [f|]; [|done]. cbn [mbind option_bind] in E.
  destruct (_ =? _); [|by injection E as <-]. destruct (_ =? 0); [done|].
  destruct (mapM _ _) as [fs|]; [|done]. by apply IH in E.
Qed.

Lemma feed_key_masks i key tid x : xh_run_mask (feed_key i key tid x) = xh_run_mask x /\
  xh_chk_mask (feed_key i key tid x) = xh_chk_mask x.
Proof.
  unfold feed_key, feed1, hammer2_xop_feed. destruct (negb _); [done|].
  destruct (feed_grow 2 x i) as [[x1|]|] eqn:E; [|done|done]. cbn [mbind option_bind].
  apply feed_grow_rest in E. by destruct (xh_collect x1 !! i).
Qed.

(** hammer2_xop_start_except() runs the storage function once on every
    element of the inode's cluster that has a chain, in order, except the
    excluded one and those the operation has no FIFO for; each runs with its
    own bit in [run_mask], and the frontend's alone is left. *)
Theorem xop_start_elements storage x chains notidx :
  (forall i x x', storage i x = Some x' ->
     xh_run_mask x' = xh_run_mask x /\ xh_chk_mask x' = xh_chk_mask x) ->
  xh_run_mask x = HAMMER2_XOPMASK_VOP -> xh_chk_mask x = 0 ->
  let nchains := Z.of_nat (length (cl_array (xh_cluster x))) in
  hammer2_xop_start_except storage x chains notidx =
  run_elements storage (List.filter (runs_on nchains notidx chains) (seq 0 8))
    (xop_set_masks x HAMMER2_XOPMASK_VOP (start_mask 0 nchains notidx chains 0)).
Proof.
  intros Hst Hr Hc nchains. unfold hammer2_xop_start_except. fold nchains. rewrite Hc, Hr.
  change (Z.to_nat HAMMER2_MAXCLUSTER) with 8%nat. rewrite start_loop_elements by done.
  f_equal. apply filter_ext. intros j. cbn [xh_chk_mask xop_set_masks].
  destruct (start_mask_spec 0 nchains notidx chains 0 j) as [H _]; [lia|].
  rewrite Z.add_0_l, Z.bits_0 in H. exact H.
Qed.

Lemma xop_start_elements_witness :
  exists x, hammer2_xop_start_except (fun i x => Some (feed_key i 10 5 x)) sample_xop
    [Some (sample_chain 1 0 0 0); None; Some (sample_chain 3 0 0 0); Some (sample_chain 4 0 0 0)] 3 = Some x /\
    map (@length entry) (queues x) = [1; 0; 1; 0]%nat.
Proof.
  eexists. rewrite xop_start_elements; [split; vm_compute; reflexivity| |reflexivity|reflexivity].
  intros i x x' H. injection H as <-. apply feed_key_masks.
Defined.
