(* ===== verification/XopDep.v ===== *)
(** hammer2_admin.c, the inode dependencies of XOPs: hammer2_xop_start_except()
    takes one for each inode of the operation before it runs, and
    hammer2_xop_retire() gives them back, so that two operations do not run on
    an inode at once.

    Every operation is a thread; a step of it is what the code does under one
    hold of [xop_lock], and a schedule is the list of the threads that step.
    A thread whose inode is taken sleeps, so it has no step.  The wakeup of a
    release is the taking thread's next step. *)
From S2P Require Import Prelude.
From Stdlib Require Import ZArith Lia Bool Sorted.
From stdpp Require Import base list.
Open Scope Z_scope.

Module XopDep.

(** The inodes of a [hammer2_xop_head], by address, and whether its flags have
    HAMMER2_XOP_STRATEGY. *)
Record xop_ips := mkIps {
  xop_ip1 : option Z;
  xop_ip2 : option Z;
  xop_ip3 : option Z;
  xop_ip4 : option Z;
  xop_strategy : bool
}.

Definition ip_list (ip : option Z) : list Z := match ip with Some i => [i] | None => [] end.

(** The dependencies hammer2_xop_start_except() takes, in its order. *)
Definition start_deps (x : xop_ips) : list Z :=
  (if xop_strategy x then [] else ip_list (xop_ip1 x)) ++
  ip_list (xop_ip2 x) ++
  (if bool_decide (xop_ip3 x <> xop_ip1 x) then ip_list (xop_ip3 x) else []) ++
  (if bool_decide (xop_ip4 x <> xop_ip2 x) then ip_list (xop_ip4 x) else []).

(** The four blocks of hammer2_xop_retire(): each returns what it releases and
    the operation with that inode cleared. *)
Definition retire_ip1 (x : xop_ips) : list Z * xop_ips :=
  match xop_ip1 x with
  | Some ip => (if xop_strategy x then [] else [ip],
                mkIps None (xop_ip2 x) (xop_ip3 x) (xop_ip4 x) (xop_strategy x))
  | None => ([], x)
  end.

Definition retire_ip2 (x : xop_ips) : list Z * xop_ips :=
  match xop_ip2 x with
  | Some ip => ([ip], mkIps (xop_ip1 x) None (xop_ip3 x) (xop_ip4 x) (xop_strategy x))
  | None => ([], x)
  end.

Definition retire_ip3 (x : xop_ips) : list Z * xop_ips :=
  match xop_ip3 x with
  | Some ip => (if bool_decide (xop_ip3 x <> xop_ip1 x) then [ip] else [],
                mkIps (xop_ip1 x) (xop_ip2 x) None (xop_ip4 x) (xop_strategy x))
  | None => ([], x)
  end.

Definition retire_ip4 (x : xop_ips) : list Z * xop_ips :=
  match xop_ip4 x with
  | Some ip => (if bool_decide (xop_ip4 x <> xop_ip2 x) then [ip] else [],
                mkIps (xop_ip1 x) (xop_ip2 x) (xop_ip3 x) None (xop_strategy x))
  | None => ([], x)
  end.

Definition retire_deps (x : xop_ips) : list Z :=
  let '(d1, x) := retire_ip1 x in
  let '(d2, x) := retire_ip2 x in
  let '(d3, x) := retire_ip3 x in
  let '(d4, x) := retire_ip4 x in
  d1 ++ d2 ++ d3 ++ d4.

Section Lists.
(** [ip->ipdep_idx], fixed when the inode is created. *)
Context (ipdep_idx : Z -> nat).

Definition ipdep_list (lists : list (list Z)) (ip : Z) : list Z := default [] (lists !! ipdep_idx ip).

(** [xop_testset_ipdep]: [None] is the collision. *)
Definition xop_testset_ipdep (lists : list (list Z)) (ip : Z) : option (list (list Z)) :=
  let ipdep := ipdep_list lists ip in
  if bool_decide (ip ∈ ipdep) then None
  else Some (<[ipdep_idx ip := ip :: ipdep]> lists).

Fixpoint list_remove_entry (ip : Z) (l : list Z) : list Z :=
  match l with
  | [] => []
  | x :: l => if x =? ip then l else x :: list_remove_entry ip l
  end.

Definition xop_unset_ipdep (lists : list (list Z)) (ip : Z) : list (list Z) :=
  <[ipdep_idx ip := list_remove_entry ip (ipdep_list lists ip)]> lists.

(** ** Threads *)

Inductive phase :=
| Taking (taken todo : list Z)
| Running
| Releasing (todo : list Z)
| Retired.

Record thread := mkThread { th_xop : xop_ips; th_phase : phase }.

Record dep_state := mkDep { dp_lists : list (list Z); dp_threads : list thread }.

(** The next step of an operation: a testset or an unset, or the passage from
    starting to running to retiring. *)
Definition thread_step (lists : list (list Z)) (t : thread) : option (list (list Z) * thread) :=
  let x := th_xop t in
  match th_phase t with
  | Taking taken (ip :: todo) =>
      lists' ← xop_testset_ipdep lists ip;
      Some (lists', mkThread x (Taking (taken ++ [ip]) todo))
  | Taking _ [] => Some (lists, mkThread x Running)
  | Running => Some (lists, mkThread x (Releasing (retire_deps x)))
  | Releasing (ip :: todo) => Some (xop_unset_ipdep lists ip, mkThread x (Releasing todo))
  | Releasing [] => Some (lists, mkThread x Retired)
  | Retired => None
  end.

Definition dep_step (s : dep_state) (i : nat) : option dep_state :=
  t ← dp_threads s !! i;
  '(lists, t) ← thread_step (dp_lists s) t;
  Some (mkDep lists (<[i := t]> (dp_threads s))).

Fixpoint dep_run (sched : list nat) (s : dep_state) : option dep_state :=
  match sched with
  | [] => Some s
  | i :: sched => s ← dep_step s i; dep_run sched s
  end.

Definition dep_init (nlists : nat) (xops : list xop_ips) : dep_state :=
  mkDep (replicate nlists []) ((fun x => mkThread x (Taking [] (start_deps x))) <$> xops).
End Lists.

End XopDep.

Import XopDep.

(** ** The dependencies and their owners *)

(** An operation that names its first inode once gives back what it took: its
    third inode is not its first one, nor its fourth its second. *)
Definition distinct_ips (x : xop_ips) : Prop :=
  (xop_ip3 x = None \/ xop_ip3 x <> xop_ip1 x) /\ (xop_ip4 x = None \/ xop_ip4 x <> xop_ip2 x).

Lemma retire_start x : distinct_ips x -> retire_deps x = start_deps x.
Proof.
  destruct x as [i1 i2 i3 i4 st]. unfold distinct_ips, retire_deps, start_deps. cbn. intros [H3 H4].
  destruct i1, i2, i3, i4, st; cbn; destruct H3 as [H3|H3], H4 as [H4|H4]; try done;
    repeat case_bool_decide; cbn; done || congruence.
Qed.

Definition cnt (ip : Z) (l : list Z) : Z := countb (Z.eqb ip) l.

Lemma cnt_cons ip x l : cnt ip (x :: l) = (if ip =? x then 1 else 0) + cnt ip l.
Proof. apply countb_cons. Qed.
Lemma cnt_app ip l1 l2 : cnt ip (l1 ++ l2) = cnt ip l1 + cnt ip l2.
Proof. apply countb_app. Qed.
Lemma cnt_nonneg ip l : 0 <= cnt ip l.
Proof. apply countb_nonneg. Qed.

Lemma cnt_elem ip l : ip ∈ l <-> 0 < cnt ip l.
Proof.
  induction l as [|x l IH]; [split; [by intros ?%elem_of_nil|done]|]. rewrite elem_of_cons, cnt_cons, IH.
  assert (H := cnt_nonneg ip l). destruct (Z.eqb_spec ip x); split; intros; [lia|by left|destruct H0; [done|lia]|].
  right. lia.
Qed.

Lemma cnt_remove ip x l :
  cnt ip (list_remove_entry x l) = cnt ip l - (if (ip =? x) && (0 <? cnt ip l) then 1 else 0).
Proof.
  induction l as [|y l IH]; cbn [list_remove_entry].
  { change (cnt ip []) with 0. rewrite andb_false_r. lia. }
  assert (H := cnt_nonneg ip l). destruct (Z.eqb_spec y x) as [->|Hyx].
  - rewrite cnt_cons. destruct (Z.eqb_spec ip x); cbn [andb]; [|lia].
    destruct (Z.ltb_spec 0 (1 + cnt ip l)); lia.
  - rewrite !cnt_cons, IH. destruct (Z.eqb_spec ip x) as [->|]; cbn [andb]; [|lia].
    destruct (Z.eqb_spec x y); [lia|]. destruct (Z.ltb_spec 0 (cnt x l)), (Z.ltb_spec 0 (0 + cnt x l)); lia.
Qed.

(** What an operation holds. *)
Definition owned (t : thread) : list Z :=
  match th_phase t with
  | Taking taken _ => taken
  | Running => start_deps (th_xop t)
  | Releasing todo => todo
  | Retired => []
  end.

Definition thread_ok (t : thread) : Prop :=
  distinct_ips (th_xop t) /\
  match th_phase t with
  | Taking taken todo => taken ++ todo = start_deps (th_xop t)
  | _ => True
  end.

Section Deps.
Context (ipdep_idx : Z -> nat) (nlists : nat).
Hypothesis idx_range : forall ip, (ipdep_idx ip < nlists)%nat.

(** Every entry of the lists belongs to one operation, once. *)
Record dep_inv (s : dep_state) : Prop := mkDepInv {
  di_length : length (dp_lists s) = nlists;
  di_threads : Forall thread_ok (dp_threads s);
  di_owned : forall ip, cnt ip (ipdep_list ipdep_idx (dp_lists s) ip) = cnt ip (concat (owned <$> dp_threads s));
  di_once : forall ip, cnt ip (ipdep_list ipdep_idx (dp_lists s) ip) <= 1
}.

Lemma dep_list_insert lists ip l ip' : length lists = nlists ->
  ipdep_list ipdep_idx (<[ipdep_idx ip := l]> lists) ip' =
  if decide (ipdep_idx ip' = ipdep_idx ip) then l else ipdep_list ipdep_idx lists ip'.
Proof.
  intros Hl. unfold ipdep_list. destruct (decide (ipdep_idx ip' = ipdep_idx ip)) as [->|Hne].
  - rewrite list_lookup_insert_eq; [done|]. rewrite Hl. apply idx_range.
  - by rewrite list_lookup_insert_ne by done.
Qed.

Lemma testset_cnt lists ip lists' ip' : length lists = nlists ->
  xop_testset_ipdep ipdep_idx lists ip = Some lists' ->
  length lists' = nlists /\ cnt ip (ipdep_list ipdep_idx lists ip) = 0 /\
  cnt ip' (ipdep_list ipdep_idx lists' ip') = cnt ip' (ipdep_list ipdep_idx lists ip') + (if ip' =? ip then 1 else 0).
Proof.
  intros Hl. unfold xop_testset_ipdep. destruct (decide (ip ∈ ipdep_list ipdep_idx lists ip)) as [Hin|Hni].
  { by rewrite bool_decide_eq_true_2. }
  rewrite bool_decide_eq_false_2 by done. injection 1 as <-. rewrite length_insert. split; [done|]. split.
  - assert (H := cnt_nonneg ip (ipdep_list ipdep_idx lists ip)). rewrite cnt_elem in Hni. lia.
  - rewrite dep_list_insert by done. destruct (decide (ipdep_idx ip' = ipdep_idx ip)) as [E|E].
    + rewrite cnt_cons. unfold ipdep_list. rewrite E. lia.
    + destruct (Z.eqb_spec ip' ip) as [->|]; [done|lia].
Qed.

Lemma unset_cnt lists ip ip' : length lists = nlists -> 0 < cnt ip (ipdep_list ipdep_idx lists ip) ->
  length (xop_unset_ipdep ipdep_idx lists ip) = nlists /\
  cnt ip' (ipdep_list ipdep_idx (xop_unset_ipdep ipdep_idx lists ip) ip') =
  cnt ip' (ipdep_list ipdep_idx lists ip') - (if ip' =? ip then 1 else 0).
Proof.
  intros Hl Hc. unfold xop_unset_ipdep. rewrite length_insert. split; [done|].
  rewrite dep_list_insert by done. destruct (decide (ipdep_idx ip' = ipdep_idx ip)) as [E|E].
  - unfold ipdep_list in *. rewrite E, cnt_remove. destruct (Z.eqb_spec ip' ip) as [->|]; cbn [andb]; [|lia].
    destruct (Z.ltb_spec 0 (cnt ip (default [] (lists !! ipdep_idx ip)))); lia.
  - destruct (Z.eqb_spec ip' ip) as [->|]; [done|lia].
Qed.

Lemma cnt_concat_insert ip i t t' ts : ts !! i = Some t ->
  cnt ip (concat (owned <$> <[i := t']> ts)) =
  cnt ip (concat (owned <$> ts)) - cnt ip (owned t) + cnt ip (owned t').
Proof.
  revert i. induction ts as [|t0 ts IH]; intros [|i] Hi; try done.
  - injection Hi as ->. change (<[0%nat := t']> (t :: ts)) with (t' :: ts).
    rewrite !fmap_cons. cbn [concat]. rewrite !cnt_app. lia.
  - change (<[S i := t']> (t0 :: ts)) with (t0 :: <[i := t']> ts).
    rewrite !fmap_cons. cbn [concat]. rewrite !cnt_app, (IH i) by done. lia.
Qed.

Lemma cnt_concat_ge ip i t ts : ts !! i = Some t -> cnt ip (owned t) <= cnt ip (concat (owned <$> ts)).
Proof.
  revert i. induction ts as [|t0 ts IH]; intros [|i] Hi; try done; cbn in *; rewrite cnt_app.
  - injection Hi as ->. assert (H := cnt_nonneg ip (concat (owned <$> ts))). lia.
  - assert (H := cnt_nonneg ip (owned t0)). specialize (IH i Hi). lia.
Qed.

(** A step moves an inode into or out of both sides alike. *)
Lemma thread_step_inv lists t lists' t' : length lists = nlists -> thread_ok t ->
  (forall ip, ip ∈ owned t -> 0 < cnt ip (ipdep_list ipdep_idx lists ip)) ->
  thread_step ipdep_idx lists t = Some (lists', t') ->
  length lists' = nlists /\ thread_ok t' /\
  forall ip, cnt ip (ipdep_list ipdep_idx lists' ip) - cnt ip (owned t') = cnt ip (ipdep_list ipdep_idx lists ip) - cnt ip (owned t) /\
    (cnt ip (ipdep_list ipdep_idx lists ip) <= 1 -> cnt ip (ipdep_list ipdep_idx lists' ip) <= 1).
Proof.
  intros Hl [Hd Hp] Hown E. unfold thread_step in E. unfold thread_ok, owned in *.
  destruct (th_phase t) as [taken [|ip todo]| |[|ip todo]|] eqn:Eph.
  - injection E as <- <-. cbn. rewrite app_nil_r in Hp. subst. split; [done|]. done.
  - destruct (xop_testset_ipdep ipdep_idx lists ip) as [l'|] eqn:Et; [|done]. injection E as <- <-. cbn.
    split; [by apply (testset_cnt lists ip l' 0)|]. split; [by rewrite <- app_assoc|]. intros ip'.
    destruct (testset_cnt lists ip l' ip' Hl Et) as (_ & H0 & H1). rewrite H1, cnt_app, cnt_cons.
    change (cnt ip' []) with 0. destruct (Z.eqb_spec ip' ip) as [->|]; lia.
  - injection E as <- <-. cbn. split; [done|]. split; [done|]. intros ip. by rewrite retire_start.
  - injection E as <- <-. done.
  - injection E as <- <-. cbn.
    assert (0 < cnt ip (ipdep_list ipdep_idx lists ip)) as Hc by (apply Hown, elem_of_cons; by left).
    split; [by apply (unset_cnt lists ip 0)|]. split; [done|]. intros ip'.
    destruct (unset_cnt lists ip ip' Hl Hc) as (_ & H1). rewrite H1, cnt_cons. destruct (ip' =? ip); lia.
  - done.
Qed.

Lemma dep_step_inv s i s' : dep_inv s -> dep_step ipdep_idx s i = Some s' -> dep_inv s'.
Proof.
  intros [Hl Ht Ho H1] E. unfold dep_step in E. destruct (dp_threads s !! i) as [t|] eqn:Ei; [|done].
  cbn [mbind option_bind] in E. destruct (thread_step ipdep_idx (dp_lists s) t) as [[lists' t']|] eqn:Es; [|done].
  injection E as <-. assert (Hti := Forall_lookup_1 _ _ _ _ Ht Ei).
  assert (forall ip, ip ∈ owned t -> 0 < cnt ip (ipdep_list ipdep_idx (dp_lists s) ip)) as Hown.
  { intros ip Hin. rewrite Ho. apply cnt_elem in Hin. assert (H := cnt_concat_ge ip i t _ Ei). lia. }
  destruct (thread_step_inv _ _ _ _ Hl Hti Hown Es) as (Hl' & Ht' & Hc).
  constructor; cbn; [done|by apply Forall_insert| |].
  - intros ip. rewrite (cnt_concat_insert ip i t) by done. destruct (Hc ip) as [H _]. rewrite Ho in H. lia.
  - intros ip. by apply Hc.
Qed.

Lemma dep_run_inv sched s s' : dep_inv s -> dep_run ipdep_idx sched s = Some s' -> dep_inv s'.
Proof.
  revert s. induction sched as [|i sched IH]; intros s Hs E; [by injection E as <-|].
  cbn [dep_run] in E. destruct (dep_step ipdep_idx s i) as [s1|] eqn:E1; [|done].
  apply (IH s1); [by apply (dep_step_inv s i)|done].
Qed.

Lemma dep_init_inv xops : Forall distinct_ips xops -> dep_inv (dep_init nlists xops).
Proof.
  intros Hx. unfold dep_init.
  assert (forall ip, ipdep_list ipdep_idx (replicate nlists []) ip = []) as El.
  { intros ip. unfold ipdep_list. rewrite lookup_replicate_2; [done|]. apply idx_range. }
  constructor; cbn [dp_lists dp_threads].
  - apply length_replicate.
  - apply Forall_fmap, (Forall_impl _ _ _ Hx). intros x H. by split.
  - intros ip. rewrite El. change (cnt ip []) with 0. induction xops as [|x xops IH]; [done|].
    inversion Hx; subst. rewrite !fmap_cons. cbn [concat]. unfold owned at 1. cbn [th_phase app]. auto.
  - intros ip. rewrite El. done.
Qed.

(** Two threads hold no inode in common. *)
Lemma inv_exclusive s i j ti tj ip : dep_inv s -> i <> j ->
  dp_threads s !! i = Some ti -> dp_threads s !! j = Some tj -> ip ∈ owned ti -> ip ∈ owned tj -> False.
Proof.
  intros [_ _ Ho H1] Hij Hi Hj Ii Ij. apply cnt_elem in Ii, Ij. specialize (Ho ip). specialize (H1 ip).
  assert (Hc := cnt_concat_insert ip i ti (mkThread (th_xop ti) Retired) _ Hi).
  assert (Hg := cnt_concat_ge ip j tj (<[i := mkThread (th_xop ti) Retired]> (dp_threads s))).
  rewrite list_lookup_insert_ne in Hg by done. specialize (Hg Hj). change (cnt ip (owned (mkThread _ Retired))) with 0 in Hc.
  lia.
Qed.

(** An inode in a list has an owner. *)
Lemma inv_owner s ip : dep_inv s -> ip ∈ ipdep_list ipdep_idx (dp_lists s) ip ->
  exists i t, dp_threads s !! i = Some t /\ ip ∈ owned t.
Proof.
  intros [_ _ Ho _] Hin. apply cnt_elem in Hin. rewrite Ho in Hin. apply cnt_elem in Hin.
  apply list_elem_of_In, in_concat in Hin as (l & Hl%list_elem_of_In & Hip%list_elem_of_In).
  apply list_elem_of_fmap in Hl as (t & -> & Ht).
  apply list_elem_of_lookup in Ht as [i Hi]. eauto.
Qed.
End Deps.

(** ** Progress *)

Definition ranked (rank : Z -> Z) (l : list Z) : Prop := StronglySorted (fun a b => rank a < rank b) l.

Lemma ranked_app rank l1 l2 a b : ranked rank (l1 ++ l2) -> a ∈ l1 -> b ∈ l2 -> rank a < rank b.
Proof.
  intros H Ha Hb. induction l1 as [|x l1 IH]; [by apply elem_of_nil in Ha|].
  cbn in H. inversion H as [|? ? H1 H2]; subst. apply elem_of_cons in Ha as [->|Ha]; [|auto].
  rewrite Forall_forall in H2. apply H2, elem_of_app. by right.
Qed.

Lemma rank_bound (rank : Z -> Z) (l : list Z) : exists b, forall ip, ip ∈ l -> rank ip < b.
Proof.
  induction l as [|x l [b IH]]; [exists 0; by intros ? ?%elem_of_nil|].
  exists (Z.max b (rank x + 1)). intros ip [->|Hin]%elem_of_cons; [lia|]. specialize (IH ip Hin). lia.
Qed.

Section Progress.
Context (ipdep_idx : Z -> nat) (nlists : nat).
Hypothesis idx_range : forall ip, (ipdep_idx ip < nlists)%nat.
Context (rank : Z -> Z) (s : dep_state).
Hypothesis Hinv : dep_inv ipdep_idx nlists s.
Hypothesis Hranked : forall i t, dp_threads s !! i = Some t -> ranked rank (start_deps (th_xop t)).
Hypothesis Hstuck : forall i, dep_step ipdep_idx s i = None.

(** A thread that cannot step sleeps on an inode some list holds. *)
Lemma stuck_blocked i t : dp_threads s !! i = Some t -> th_phase t <> Retired ->
  exists taken ip todo, th_phase t = Taking taken (ip :: todo) /\ ip ∈ ipdep_list ipdep_idx (dp_lists s) ip.
Proof.
  intros Hi Hr. assert (Hs := Hstuck i). unfold dep_step in Hs. rewrite Hi in Hs. cbn [mbind option_bind] in Hs.
  unfold thread_step in Hs. destruct (th_phase t) as [taken [|ip todo]| |[|ip todo]|] eqn:Eph; try done.
  exists taken, ip, todo. split; [done|]. unfold xop_testset_ipdep in Hs.
  destruct (decide (ip ∈ ipdep_list ipdep_idx (dp_lists s) ip)) as [|Hni]; [done|].
  by rewrite bool_decide_eq_false_2 in Hs.
Qed.

(** The owner of that inode sleeps on a greater one. *)
Lemma blocked_greater i t taken ip todo :
  dp_threads s !! i = Some t -> th_phase t = Taking taken (ip :: todo) ->
  ip ∈ ipdep_list ipdep_idx (dp_lists s) ip ->
  exists j t' taken' ip' todo', dp_threads s !! j = Some t' /\ th_phase t' = Taking taken' (ip' :: todo') /\
    ip' ∈ ipdep_list ipdep_idx (dp_lists s) ip' /\ rank ip < rank ip' /\ ip' ∈ start_deps (th_xop t').
Proof.
  intros Hi Eph Hin. destruct (inv_owner _ _ _ _ Hinv Hin) as (j & t' & Hj & Hown).
  assert (th_phase t' <> Retired) as Hr by (intros E; unfold owned in Hown; rewrite E in Hown; by apply elem_of_nil in Hown).
  destruct (stuck_blocked j t' Hj Hr) as (taken' & ip' & todo' & E' & Hin').
  exists j, t', taken', ip', todo'. unfold owned in Hown. rewrite E' in Hown.
  assert (Hok := Forall_lookup_1 _ _ _ _ (di_threads _ _ _ Hinv) Hj). destruct Hok as [_ Hok]. rewrite E' in Hok.
  assert (Hrk := Hranked j t' Hj). rewrite <- Hok in Hrk |- *.
  split_and!; try done.
  - apply (ranked_app _ _ _ _ _ Hrk); [done|]. by apply elem_of_cons; left.
  - apply elem_of_app. right. by apply elem_of_cons; left.
Qed.

(** So the ranks of the blocked threads' inodes would grow for ever. *)
Lemma blocked_absurd b n : (forall j t ip, dp_threads s !! j = Some t -> ip ∈ start_deps (th_xop t) -> rank ip < b) ->
  forall i t taken ip todo, dp_threads s !! i = Some t -> th_phase t = Taking taken (ip :: todo) ->
  ip ∈ ipdep_list ipdep_idx (dp_lists s) ip -> (Z.to_nat (b - rank ip) <= n)%nat -> False.
Proof.
  intros Hb. induction n as [|n IH]; intros i t taken ip todo Hi E Hin Hn;
    destruct (blocked_greater i t taken ip todo Hi E Hin) as (j & t' & tk & ip' & td & Hj & E' & Hin' & Hlt & Hd);
    specialize (Hb j t' ip' Hj Hd); [lia|].
  apply (IH j t' tk ip' td); [done..|lia].
Qed.

Lemma stuck_retired i t : dp_threads s !! i = Some t -> th_phase t = Retired.
Proof.
  intros Hi. assert (th_phase t = Retired \/ th_phase t <> Retired) as [|Hr] by (destruct (th_phase t); auto); [done|].
  exfalso. destruct (stuck_blocked i t Hi Hr) as (tk & ip & td & E & Hin).
  destruct (rank_bound rank (concat ((fun t => start_deps (th_xop t)) <$> dp_threads s))) as [b Hb].
  apply (blocked_absurd b (Z.to_nat (b - rank ip))) with (i := i) (t := t) (taken := tk) (ip := ip) (todo := td); try done.
  intros j t' ip' Hj Hd. apply Hb, list_elem_of_In, in_concat. exists (start_deps (th_xop t')).
  split; apply list_elem_of_In; [|done]. apply list_elem_of_fmap. exists t'.
  split; [done|]. by apply list_elem_of_lookup_2 in Hj.
Qed.
End Progress.

Lemma dep_step_xops ipdep_idx s i s' : dep_step ipdep_idx s i = Some s' ->
  th_xop <$> dp_threads s' = th_xop <$> dp_threads s.
Proof.
  unfold dep_step. destruct (dp_threads s !! i) as [t|] eqn:Ei; [|done]. cbn [mbind option_bind].
  destruct (thread_step ipdep_idx (dp_lists s) t) as [[lists t']|] eqn:Es; [|done]. injection 1 as <-.
  cbn [dp_threads]. rewrite list_fmap_insert. apply list_insert_id.
  rewrite list_lookup_fmap, Ei. cbn. f_equal. unfold thread_step in Es.
  destruct (th_phase t) as [? [|ip ?]| |[|? ?]|]; try (by injection Es as _ <-); [|done].
  destruct (xop_testset_ipdep ipdep_idx (dp_lists s) ip); [|done]. by injection Es as _ <-.
Qed.

Lemma dep_run_xops ipdep_idx sched s s' : dep_run ipdep_idx sched s = Some s' ->
  th_xop <$> dp_threads s' = th_xop <$> dp_threads s.
Proof.
  revert s. induction sched as [|i sched IH]; intros s E; [by injection E as <-|]. cbn [dep_run] in E.
  destruct (dep_step ipdep_idx s i) as [s1|] eqn:E1; [|done].
  rewrite (IH s1 E). by apply (dep_step_xops ipdep_idx s i).
Qed.

(** ** Properties *)


(** A rename between two directories and a creation in a third. *)
Definition xop_rename : xop_ips := mkIps (Some 10) (Some 20) (Some 11) None false.
Definition xop_create (dir : Z) : xop_ips := mkIps (Some dir) None None None false.




