(* ===== verification/Ccms.v ===== *)
(** hammer2_ccms.c: the thread lock of a cache state, shared, exclusive with
    recursion, and upgradable, and the threads that use it.

    An operation of the lock is what the code does under one hold of
    [cst->spin]; where the code sleeps, the operation ends in [Sleeping] and the
    thread's next step tests the loop's condition again, as it does at the
    latest when the sleep times out.  [Panicked] is a failed KKASSERT or an
    hpanic(). *)
From S2P Require Import Prelude.
From Stdlib Require Import ZArith Lia Bool.
From stdpp Require Import base list.
Open Scope Z_scope.

Module Ccms.

(** The cache states a lock is asked for. *)
Inductive ccms_state := CCMS_STATE_INVALID | CCMS_STATE_SHARED | CCMS_STATE_EXCLUSIVE.

#[export] Instance ccms_state_eq_dec : EqDecision ccms_state.
Proof. solve_decision. Defined.

(** [struct ccms_cst]: the fields of the thread lock. *)
Record ccms_cst := mkCst {
  cst_upgrade : Z;
  cst_count : Z;
  cst_blocked : bool;
  cst_td : option nat
}.

Definition ccms_cst_init : ccms_cst := mkCst 0 0 false None.

(** The result of an operation: it is done, with its return value and whether
    it called wakeup(); it sleeps; or it failed an assertion. *)
Inductive outcome :=
| Finished (c : ccms_cst) (ret : ccms_state) (wakes : bool)
| Sleeping (c : ccms_cst)
| Panicked.

Definition set_blocked (c : ccms_cst) (b : bool) : ccms_cst :=
  mkCst (cst_upgrade c) (cst_count c) b (cst_td c).

(** The tail of every release: [if (cst->blocked)] wake and clear it. *)
Definition release (c : ccms_cst) : outcome :=
  Finished (set_blocked c false) CCMS_STATE_INVALID (cst_blocked c).

Definition owns (cur : nat) (c : ccms_cst) : bool :=
  (cst_count c <? 0) && bool_decide (cst_td c = Some cur).

Definition ccms_thread_lock_owned (cur : nat) (c : ccms_cst) : bool := owns cur c.

(** The part of ccms_thread_lock() under the spin lock, from the test of the
    loop on. *)
Definition lock_wait (cur : nat) (c : ccms_cst) (state : ccms_state) : outcome :=
  match state with
  | CCMS_STATE_SHARED =>
      if (cst_count c <? 0) || nz (cst_upgrade c) then Sleeping (set_blocked c true)
      else if bool_decide (cst_td c = None)
      then Finished (mkCst (cst_upgrade c) (cst_count c + 1) (cst_blocked c) None) state false
      else Panicked
  | CCMS_STATE_EXCLUSIVE =>
      if nz (cst_count c) || nz (cst_upgrade c) then Sleeping (set_blocked c true)
      else Finished (mkCst (cst_upgrade c) (-1) (cst_blocked c) (Some cur)) state false
  | CCMS_STATE_INVALID => Panicked
  end.

Definition recurse (c : ccms_cst) : ccms_cst :=
  mkCst (cst_upgrade c) (cst_count c - 1) (cst_blocked c) (cst_td c).

Definition ccms_thread_lock (cur : nat) (c : ccms_cst) (state : ccms_state) : outcome :=
  if owns cur c then Finished (recurse c) CCMS_STATE_EXCLUSIVE false
  else lock_wait cur c state.

(** [None] is EBUSY. *)
Definition ccms_thread_lock_nonblock (cur : nat) (c : ccms_cst) (state : ccms_state) : option outcome :=
  if owns cur c then Some (Finished (recurse c) CCMS_STATE_EXCLUSIVE false)
  else
    match state with
    | CCMS_STATE_SHARED =>
        if (cst_count c <? 0) || nz (cst_upgrade c) then None
        else if bool_decide (cst_td c = None)
        then Some (Finished (mkCst (cst_upgrade c) (cst_count c + 1) (cst_blocked c) None) state false)
        else Some Panicked
    | CCMS_STATE_EXCLUSIVE =>
        if nz (cst_count c) || nz (cst_upgrade c) then None
        else Some (Finished (mkCst (cst_upgrade c) (-1) (cst_blocked c) (Some cur)) state false)
    | CCMS_STATE_INVALID => Some Panicked
    end.

(** The loop of ccms_thread_lock_upgrade(), and what follows it. *)
Definition upgrade_wait (cur : nat) (c : ccms_cst) : outcome :=
  if nz (cst_count c) then Sleeping (set_blocked c true)
  else Finished (mkCst (cst_upgrade c) (-1) (cst_blocked c) (Some cur)) CCMS_STATE_SHARED false.

Definition ccms_thread_lock_upgrade (cur : nat) (c : ccms_cst) : outcome :=
  if cst_count c <? 0 then
    if bool_decide (cst_td c = Some cur) then Finished c CCMS_STATE_EXCLUSIVE false else Panicked
  else if 0 <? cst_count c then
    upgrade_wait cur (mkCst (cst_upgrade c + 1) (cst_count c - 1) (cst_blocked c) (cst_td c))
  else Panicked.

Definition ccms_thread_lock_downgrade (cur : nat) (c : ccms_cst) (ostate : ccms_state) : outcome :=
  if bool_decide (ostate = CCMS_STATE_SHARED) then
    if bool_decide (cst_td c = Some cur) && (cst_count c =? -1)
    then release (mkCst (cst_upgrade c - 1) 1 (cst_blocked c) None)
    else Panicked
  else Finished c CCMS_STATE_INVALID false.

Definition ccms_thread_unlock (cur : nat) (c : ccms_cst) : outcome :=
  if cst_count c <? 0 then
    if negb (bool_decide (cst_td c = Some cur)) then Panicked
    else if cst_count c <? -1
    then Finished (mkCst (cst_upgrade c) (cst_count c + 1) (cst_blocked c) (cst_td c)) CCMS_STATE_INVALID false
    else release (mkCst (cst_upgrade c) 0 (cst_blocked c) None)
  else if 0 <? cst_count c then
    let c := mkCst (cst_upgrade c) (cst_count c - 1) (cst_blocked c) (cst_td c) in
    if (cst_count c =? 0) && cst_blocked c then release c
    else Finished c CCMS_STATE_INVALID false
  else Panicked.

Definition ccms_thread_unlock_upgraded (cur : nat) (c : ccms_cst) (ostate : ccms_state) : outcome :=
  if bool_decide (ostate = CCMS_STATE_SHARED) then
    if bool_decide (cst_td c = Some cur) && (cst_count c =? -1)
    then release (mkCst (cst_upgrade c - 1) 0 (cst_blocked c) None)
    else Panicked
  else ccms_thread_unlock cur c.

Definition ccms_thread_lock_temp_release (cur : nat) (c : ccms_cst) : outcome :=
  let set_ret o r := match o with Finished c _ w => Finished c r w | o => o end in
  if cst_count c <? 0 then set_ret (ccms_thread_unlock cur c) CCMS_STATE_EXCLUSIVE
  else if 0 <? cst_count c then set_ret (ccms_thread_unlock cur c) CCMS_STATE_SHARED
  else Finished c CCMS_STATE_INVALID false.

Definition ccms_thread_lock_temp_restore (cur : nat) (c : ccms_cst) (ostate : ccms_state) : outcome :=
  ccms_thread_lock cur c ostate.

Definition ccms_thread_lock_setown (cur : nat) (c : ccms_cst) : outcome :=
  if cst_count c <? 0
  then Finished (mkCst (cst_upgrade c) (cst_count c) (cst_blocked c) (Some cur)) CCMS_STATE_INVALID false
  else Panicked.

(** ** Threads *)

(** What a thread has of the lock.  [depth] counts the recursion of an exclusive
    hold; [Upgraded] is one that an upgrade of a shared hold returned; a waiting
    thread is [notified] once a wakeup() followed its last sleep. *)
Inductive mode :=
| Idle
| Shared
| Exclusive (depth : Z)
| Upgraded (depth : Z)
| WaitLock (state : ccms_state) (notified : bool)
| WaitUpgrade (notified : bool).

Record lock_state := mkLs { ls_cst : ccms_cst; ls_modes : list mode }.

(** What a thread does next. *)
Inductive op :=
| Lock (state : ccms_state)
| LockNonblock (state : ccms_state)
| Upgrade
| Downgrade
| Unlock
| UnlockUpgraded
| Retry.

(** The mode a granted lock leaves. *)
Definition locked (state : ccms_state) : mode :=
  match state with CCMS_STATE_SHARED => Shared | _ => Exclusive 1 end.

Definition deeper (m : mode) : mode :=
  match m with
  | Exclusive n => Exclusive (n + 1)
  | Upgraded n => Upgraded (n + 1)
  | m => m
  end.

Definition shallower (m : mode) : mode :=
  match m with
  | Exclusive n => if n =? 1 then Idle else Exclusive (n - 1)
  | Upgraded n => Upgraded (n - 1)
  | _ => Idle
  end.

(** The operations a thread in a mode may call, and what it has when they are
    done and when they sleep.  A shared holder does not lock again; an upgraded
    lock is given back by the downgrade or by ccms_thread_unlock_upgraded(). *)
Definition thread_op (cur : nat) (c : ccms_cst) (m : mode) (o : op) : option (outcome * mode * mode) :=
  match m, o with
  | Idle, Lock st =>
      if bool_decide (st = CCMS_STATE_INVALID) then None
      else Some (ccms_thread_lock cur c st, locked st, WaitLock st false)
  | Idle, LockNonblock st =>
      if bool_decide (st = CCMS_STATE_INVALID) then None
      else match ccms_thread_lock_nonblock cur c st with
           | Some r => Some (r, locked st, Idle)
           | None => Some (Finished c CCMS_STATE_INVALID false, Idle, Idle)
           end
  | (Exclusive _ | Upgraded _), Lock st => Some (ccms_thread_lock cur c st, deeper m, m)
  | (Exclusive _ | Upgraded _), LockNonblock st =>
      match ccms_thread_lock_nonblock cur c st with
      | Some r => Some (r, deeper m, m)
      | None => Some (Finished c CCMS_STATE_INVALID false, m, m)
      end
  | Shared, Upgrade => Some (ccms_thread_lock_upgrade cur c, Upgraded 1, WaitUpgrade false)
  | (Exclusive _ | Upgraded _), Upgrade => Some (ccms_thread_lock_upgrade cur c, m, m)
  | Upgraded 1, Downgrade => Some (ccms_thread_lock_downgrade cur c CCMS_STATE_SHARED, Shared, m)
  | Upgraded 1, UnlockUpgraded => Some (ccms_thread_unlock_upgraded cur c CCMS_STATE_SHARED, Idle, m)
  | Upgraded n, Unlock => if 1 <? n then Some (ccms_thread_unlock cur c, shallower m, m) else None
  | Exclusive _, Downgrade => Some (ccms_thread_lock_downgrade cur c CCMS_STATE_EXCLUSIVE, m, m)
  | Exclusive _, UnlockUpgraded =>
      Some (ccms_thread_unlock_upgraded cur c CCMS_STATE_EXCLUSIVE, shallower m, m)
  | (Shared | Exclusive _), Unlock => Some (ccms_thread_unlock cur c, shallower m, m)
  | WaitLock st _, Retry => Some (lock_wait cur c st, locked st, WaitLock st false)
  | WaitUpgrade _, Retry => Some (upgrade_wait cur c, Upgraded 1, WaitUpgrade false)
  | _, _ => None
  end.

Definition notify (m : mode) : mode :=
  match m with
  | WaitLock st _ => WaitLock st true
  | WaitUpgrade _ => WaitUpgrade true
  | m => m
  end.

(** A step of the system: [None] when the thread may not call the operation,
    [Some None] when it panics. *)
Definition ccms_step (s : lock_state) (i : nat) (o : op) : option (option lock_state) :=
  m ← ls_modes s !! i;
  '(r, after, asleep) ← thread_op i (ls_cst s) m o;
  Some (match r with
        | Finished c _ wakes =>
            let ms := <[i := after]> (ls_modes s) in
            Some (mkLs c (if wakes then notify <$> ms else ms))
        | Sleeping c => Some (mkLs c (<[i := asleep]> (ls_modes s)))
        | Panicked => None
        end).

Definition lock_init (n : nat) : lock_state := mkLs ccms_cst_init (replicate n Idle).

Inductive lock_reach : lock_state -> Prop :=
| reach_init n : lock_reach (lock_init n)
| reach_step s i o s' : lock_reach s -> ccms_step s i o = Some (Some s') -> lock_reach s'.

End Ccms.

Import Ccms.

(** ** The invariant *)

Definition is_excl (m : mode) : bool := match m with Exclusive _ | Upgraded _ => true | _ => false end.
Definition is_shared (m : mode) : bool := match m with Shared => true | _ => false end.
Definition upgrading (m : mode) : bool := match m with Upgraded _ | WaitUpgrade _ => true | _ => false end.
Definition asleep (m : mode) : bool :=
  match m with WaitLock _ false | WaitUpgrade false => true | _ => false end.

Definition asleep_upgrade (m : mode) : bool := match m with WaitUpgrade false => true | _ => false end.

Definition depth_of (m : mode) : Z := match m with Exclusive n | Upgraded n => n | _ => 0 end.

(** The lock word says who holds the lock: [count] is the number of shared
    holders, or minus the depth of the one exclusive hold, whose thread is
    [td]; [upgrade] is the number of upgrades under way. *)
Record holds (c : ccms_cst) (ms : list mode) : Prop := mkHolds {
  ho_upgrade : cst_upgrade c = countb upgrading ms;
  ho_shared : countb is_shared ms = Z.max 0 (cst_count c);
  ho_excl : countb is_excl ms = if cst_count c <? 0 then 1 else 0;
  ho_td : 0 <= cst_count c -> cst_td c = None;
  ho_owner : forall i m, ms !! i = Some m -> is_excl m = true ->
    1 <= depth_of m /\ cst_count c = - depth_of m /\ cst_td c = Some i;
  ho_wait : forall i st b, ms !! i = Some (WaitLock st b) -> st <> CCMS_STATE_INVALID
}.

(** No sleeper is forgotten: [blocked] is set while there is one; when the lock
    is free no upgrade sleeps, and when no upgrade is under way either nothing
    does. *)
Record quiet (c : ccms_cst) (ms : list mode) : Prop := mkQuiet {
  qu_blocked : cst_blocked c = false -> countb asleep ms = 0;
  qu_free : cst_count c = 0 -> countb asleep_upgrade ms = 0;
  qu_idle : cst_count c = 0 -> cst_upgrade c = 0 -> countb asleep ms = 0
}.

Definition lock_inv (s : lock_state) : Prop := holds (ls_cst s) (ls_modes s) /\ quiet (ls_cst s) (ls_modes s).

Section Update.
Context (c c' : ccms_cst) (ms : list mode) (i : nat) (m m' : mode).
Hypothesis H : holds c ms.
Hypothesis Hi : ms !! i = Some m.

(** A step of thread [i] keeps the lock word right when it accounts for what the
    thread had and has, and touches no exclusive hold but its own. *)
Lemma holds_update :
  cst_upgrade c' = cst_upgrade c - (if upgrading m then 1 else 0) + (if upgrading m' then 1 else 0) ->
  Z.max 0 (cst_count c') = Z.max 0 (cst_count c) - (if is_shared m then 1 else 0) + (if is_shared m' then 1 else 0) ->
  (if cst_count c' <? 0 then 1 else 0) =
    (if cst_count c <? 0 then 1 else 0) - (if is_excl m then 1 else 0) + (if is_excl m' then 1 else 0) ->
  (0 <= cst_count c' -> cst_td c' = None) ->
  (is_excl m' = true -> 1 <= depth_of m' /\ cst_count c' = - depth_of m' /\ cst_td c' = Some i) ->
  (is_excl m = false -> cst_count c < 0 -> cst_count c' = cst_count c /\ cst_td c' = cst_td c) ->
  (forall st b, m' = WaitLock st b -> st <> CCMS_STATE_INVALID) ->
  holds c' (<[i := m']> ms).
Proof.
  intros Hu Hs He Ht Ho Hn Hw. destruct H as [U S E T O W].
  constructor; rewrite ?(countb_insert _ _ _ m) by done; [lia|lia|lia|done| |].
  - intros j mj Hj Ej. destruct (decide (j = i)) as [->|Hji].
    + rewrite list_lookup_insert_eq in Hj by (by apply lookup_lt_Some in Hi). injection Hj as <-. auto.
    + rewrite list_lookup_insert_ne in Hj by done. destruct (O j mj Hj Ej) as (O1 & O2 & O3).
      destruct (is_excl m) eqn:Em.
      * destruct (O i m Hi Em) as (_ & _ & O3'). congruence.
      * destruct Hn as [-> ->]; [done|lia|done].
  - intros j st b Hj. destruct (decide (j = i)) as [->|Hji].
    + rewrite list_lookup_insert_eq in Hj by (by apply lookup_lt_Some in Hi). injection Hj as Hj. eauto.
    + rewrite list_lookup_insert_ne in Hj by done. eauto.
Qed.

(** It keeps the sleepers accounted for when it does not clear [blocked], and
    does not free the lock over sleepers or go to sleep on a free one. *)
Lemma quiet_update : quiet c ms ->
  (cst_blocked c' = false -> cst_blocked c = false /\ asleep m' = false) ->
  (cst_count c' = 0 -> asleep_upgrade m' = false /\ (cst_count c = 0 \/ cst_blocked c = false)) ->
  (cst_count c' = 0 -> cst_upgrade c' = 0 ->
     asleep m' = false /\ (cst_count c = 0 /\ cst_upgrade c = 0 \/ cst_blocked c = false)) ->
  quiet c' (<[i := m']> ms).
Proof.
  intros [Q1 Q2 Q3] Hb Hf Hd. assert (asleep m = true -> 0 < countb asleep ms) as Hp by (by apply countb_pos with i).
  assert (asleep_upgrade m = true -> 0 < countb asleep_upgrade ms) as Hp' by (by apply countb_pos with i).
  assert (countb asleep ms = 0 -> countb asleep_upgrade ms = 0) as Hsub.
  { intros Hz. apply countb_none. intros x [j Hj]%list_elem_of_lookup. destruct (asleep_upgrade x) eqn:Ex; [|done].
    assert (0 < countb asleep ms) by (apply (countb_pos _ _ j x Hj); by destruct x as [| | | |st b|[]]). lia. }
  constructor; intros Hc; try intros Hu; rewrite (countb_insert _ _ _ m) by done.
  - destruct (Hb Hc) as [H1 ->]. specialize (Q1 H1). destruct (asleep m); [specialize (Hp eq_refl)|]; lia.
  - assert (countb asleep_upgrade ms = 0) as Hz by (destruct (Hf Hc) as [_ [?|?]]; auto).
    destruct (Hf Hc) as [-> _]. destruct (asleep_upgrade m); [specialize (Hp' eq_refl)|]; lia.
  - assert (countb asleep ms = 0) as Hz by (destruct (Hd Hc Hu) as [_ [[? ?]|?]]; auto).
    destruct (Hd Hc Hu) as [-> _]. destruct (asleep m); [specialize (Hp eq_refl)|]; lia.
Qed.
End Update.

Lemma holds_notify c ms : holds c ms -> holds c (notify <$> ms).
Proof.
  intros [U S E T O W].
  assert (forall f, (forall m, f (notify m) = f m) -> countb f (notify <$> ms) = countb f ms) as Hc
    by (intros f Hf; by apply countb_fmap).
  constructor; rewrite ?Hc by (by intros []); try done.
  - intros j m Hj Em. rewrite list_lookup_fmap in Hj. destruct (ms !! j) as [m0|] eqn:E0; [|done].
    injection Hj as <-. destruct m0; try done; by apply (O j).
  - intros j st b Hj. rewrite list_lookup_fmap in Hj. destruct (ms !! j) as [m0|] eqn:E0; [|done].
    destruct m0; try done. injection Hj as -> _. eauto.
Qed.

Lemma quiet_notify c ms : quiet c (notify <$> ms).
Proof.
  assert (countb asleep (notify <$> ms) = 0 /\ countb asleep_upgrade (notify <$> ms) = 0) as [? ?];
    [|by constructor].
  split; apply countb_none; intros m (m0 & -> & _)%list_elem_of_fmap; by destruct m0.
Qed.

(** ** Every operation keeps the invariant, and none panics *)

Definition good (ms : list mode) (i : nat) (r : outcome) (after sleeps : mode) : Prop :=
  match r with
  | Finished c _ wakes => holds c (<[i := after]> ms) /\ (wakes = true \/ quiet c (<[i := after]> ms))
  | Sleeping c => holds c (<[i := sleeps]> ms) /\ quiet c (<[i := sleeps]> ms)
  | Panicked => False
  end.

(** Closes the arithmetic of [holds_update] and [quiet_update] once the lock
    word and the modes are explicit. *)
Ltac word :=
  repeat match goal with
  | |- context [Z.ltb ?a ?b] => destruct (Z.ltb_spec a b)
  | H : ?x = ?x -> _ |- _ => specialize (H eq_refl)
  end; cbn in *; try lia; try done; try congruence; try (intros; lia);
  match goal with
  | H : holds ?c ?ms |- 0 <= cst_count ?c -> _ => exact (ho_td c ms H)
  | |- _ -> _ /\ _ /\ _ => intros _; split_and!; lia || done
  | _ => auto
  end.

Section Ops.
Context (c : ccms_cst) (ms : list mode) (i : nat) (m : mode).
Hypothesis H : holds c ms.
Hypothesis Q : quiet c ms.
Hypothesis Hi : ms !! i = Some m.

Lemma owner_facts : is_excl m = true ->
  1 <= depth_of m /\ cst_count c = - depth_of m /\ cst_td c = Some i /\ owns i c = true.
Proof.
  intros E. destruct (ho_owner _ _ H i m Hi E) as (H1 & H2 & H3). split_and!; try done.
  unfold owns. rewrite H3, bool_decide_eq_true_2 by done. destruct (Z.ltb_spec (cst_count c) 0); [done|lia].
Qed.

Lemma shared_facts : m = Shared -> 0 < cst_count c /\ cst_td c = None.
Proof.
  intros ->. assert (Hp := countb_pos is_shared ms i Shared Hi eq_refl). rewrite (ho_shared _ _ H) in Hp.
  split; [lia|]. apply (ho_td _ _ H). lia.
Qed.

Lemma other_facts : is_excl m = false -> owns i c = false.
Proof.
  intros E. unfold owns. destruct (Z.ltb_spec (cst_count c) 0); [|done]. apply bool_decide_eq_false_2.
  intros Htd. assert (He := ho_excl _ _ H). destruct (Z.ltb_spec (cst_count c) 0); [|lia].
  destruct (decide (Exists (fun x => is_excl x = true) ms)) as [Hx|Hx].
  - apply Exists_exists in Hx as (mx & Hin & Ex). apply list_elem_of_lookup in Hin as [j Hj].
    destruct (ho_owner _ _ H j mx Hj Ex) as (_ & _ & Ht). rewrite Ht in Htd. injection Htd as ->. congruence.
  - rewrite countb_none in He; [lia|]. intros x Hin. destruct (is_excl x) eqn:Ex; [|done].
    destruct Hx. apply Exists_exists. by exists x.
Qed.

(** Locking from a mode without the lock. *)
Lemma lock_wait_good st : m = Idle \/ (exists b, m = WaitLock st b) -> st <> CCMS_STATE_INVALID ->
  good ms i (lock_wait i c st) (locked st) (WaitLock st false).
Proof.
  intros Hm Hst. assert (is_excl m = false /\ is_shared m = false /\ upgrading m = false) as (E1 & E2 & E3)
    by (destruct Hm as [->|[b ->]]; done).
  unfold lock_wait. destruct st; [done| |].
  - destruct (Z.ltb_spec (cst_count c) 0) as [Hn|Hn]; cbn [orb]; [|destruct (nz_spec (cst_upgrade c))].
    3:{ rewrite (ho_td _ _ H Hn), bool_decide_eq_true_2 by done. split; [|right].
        - apply (holds_update c _ ms i m _ H Hi); rewrite ?E1, ?E2, ?E3; word.
        - apply (quiet_update c _ ms i m _ Hi Q); word. }
    all: split; [apply (holds_update c _ ms i m _ H Hi); rewrite ?E1, ?E2, ?E3; word|];
      apply (quiet_update c _ ms i m _ Hi Q); word.
  - destruct (nz_spec (cst_count c)) as [Hn|Hn]; cbn [orb]; [|destruct (nz_spec (cst_upgrade c))].
    3:{ split; [|right].
        - apply (holds_update c _ ms i m _ H Hi); rewrite ?E1, ?E2, ?E3; word.
        - apply (quiet_update c _ ms i m _ Hi Q); word. }
    all: split; [apply (holds_update c _ ms i m _ H Hi); rewrite ?E1, ?E2, ?E3; word|];
      apply (quiet_update c _ ms i m _ Hi Q); word.
Qed.

Lemma upgrade_wait_good : (exists b, m = WaitUpgrade b) ->
  good ms i (upgrade_wait i c) (Upgraded 1) (WaitUpgrade false).
Proof.
  intros [b Hm]. unfold upgrade_wait. destruct (nz_spec (cst_count c)) as [Hn|Hn].
  - split; [apply (holds_update c _ ms i m _ H Hi)|apply (quiet_update c _ ms i m _ Hi Q)]; rewrite ?Hm; word.
  - split; [apply (holds_update c _ ms i m _ H Hi)|right; apply (quiet_update c _ ms i m _ Hi Q)];
      rewrite ?Hm; word.
Qed.

Lemma upgrade_good : m = Shared ->
  good ms i (ccms_thread_lock_upgrade i c) (Upgraded 1) (WaitUpgrade false).
Proof.
  intros Hm. destruct (shared_facts Hm) as [Hc Ht]. unfold ccms_thread_lock_upgrade, upgrade_wait.
  destruct (Z.ltb_spec (cst_count c) 0); [lia|]. destruct (Z.ltb_spec 0 (cst_count c)); [|lia].
  cbn [cst_count]. destruct (nz_spec (cst_count c - 1)) as [Hn|Hn].
  - split; [apply (holds_update c _ ms i m _ H Hi)|apply (quiet_update c _ ms i m _ Hi Q)]; rewrite ?Hm; word.
  - split; [apply (holds_update c _ ms i m _ H Hi)|right; apply (quiet_update c _ ms i m _ Hi Q)];
      rewrite ?Hm; word.
Qed.

(** Releases: the lock word is given, and the sleepers are notified if any. *)
Lemma release_good c' m' : holds c' (<[i := m']> ms) -> cst_blocked c' = cst_blocked c -> asleep m' = false ->
  good ms i (release c') m' m.
Proof.
  intros [U S E T O W] Hb Hm'. unfold release. split; [by constructor|].
  destruct (cst_blocked c') eqn:E'; [by left|right]. rewrite Hb in E'.
  assert (countb asleep ms = 0) as Hz by (by apply Q).
  assert (Hs := countb_pos asleep ms i m Hi).
  assert (countb asleep (<[i := m']> ms) = 0) as Hz'.
  { rewrite (countb_insert _ _ _ m), Hm' by done. destruct (asleep m); [specialize (Hs eq_refl)|]; lia. }
  constructor; try done. intros _. apply countb_none. intros x [j Hj]%list_elem_of_lookup.
  destruct (asleep_upgrade x) eqn:Ex; [|done].
  assert (0 < countb asleep (<[i := m']> ms)) by (apply (countb_pos _ _ j x Hj); by destruct x as [| | | |st b|[]]). lia.
Qed.

Lemma deeper_good ret w : is_excl m = true -> good ms i (Finished (recurse c) ret w) (deeper m) m.
Proof.
  intros Em. destruct (owner_facts Em) as (H1 & H2 & H3 & _). split; [|right].
  - apply (holds_update c _ ms i m _ H Hi); destruct m; try done; word.
  - apply (quiet_update c _ ms i m _ Hi Q); destruct m; try done; word.
Qed.

Lemma same_good ret w : (forall st b, m = WaitLock st b -> st <> CCMS_STATE_INVALID) ->
  good ms i (Finished c ret w) m m.
Proof. intros _. unfold good. rewrite list_insert_id by done. auto. Qed.

Lemma unlock_excl_good : is_excl m = true -> (m = Upgraded 1 -> False) ->
  good ms i (ccms_thread_unlock i c) (shallower m) m.
Proof.
  intros Em Hne. destruct (owner_facts Em) as (H1 & H2 & H3 & _). unfold ccms_thread_unlock.
  destruct (Z.ltb_spec (cst_count c) 0); [|lia]. rewrite H3, bool_decide_eq_true_2 by done. cbn [negb].
  destruct (Z.ltb_spec (cst_count c) (-1)) as [Hd|Hd].
  - split; [|right].
    + apply (holds_update c _ ms i m _ H Hi); destruct m; try done; cbn in *; destruct (Z.eqb_spec depth 1); word.
    + apply (quiet_update c _ ms i m _ Hi Q); destruct m; try done; cbn in *; destruct (Z.eqb_spec depth 1); word.
  - assert (m = Exclusive 1) as Hm.
    { destruct m as [| |n|n| |]; try done; cbn in *; assert (n = 1) as -> by lia; [done|by destruct Hne]. }
    replace (shallower m) with Idle by (by rewrite Hm).
    apply release_good; [|done|done]. apply (holds_update c _ ms i m _ H Hi); rewrite ?Hm; word.
Qed.

Lemma unlock_shared_good : m = Shared -> good ms i (ccms_thread_unlock i c) Idle m.
Proof.
  intros Hm. destruct (shared_facts Hm) as [Hc Ht]. unfold ccms_thread_unlock.
  destruct (Z.ltb_spec (cst_count c) 0); [lia|]. destruct (Z.ltb_spec 0 (cst_count c)); [|lia].
  cbn [cst_count cst_blocked].
  assert (holds (mkCst (cst_upgrade c) (cst_count c - 1) (cst_blocked c) (cst_td c)) (<[i := Idle]> ms)) as Hh
    by (apply (holds_update c _ ms i m _ H Hi); rewrite ?Hm; word).
  destruct (Z.eqb_spec (cst_count c - 1) 0) as [Hz|Hz]; cbn [andb].
  - destruct (cst_blocked c) eqn:Hb; [by apply release_good|].
    split; [done|]. right. apply (quiet_update c _ ms i m _ Hi Q); word.
  - split; [done|]. right. apply (quiet_update c _ ms i m _ Hi Q); word.
Qed.

Lemma downgrade_good : m = Upgraded 1 ->
  good ms i (ccms_thread_lock_downgrade i c CCMS_STATE_SHARED) Shared m /\
  good ms i (ccms_thread_unlock_upgraded i c CCMS_STATE_SHARED) Idle m.
Proof.
  intros Hm. destruct owner_facts as (_ & H2 & H3 & _); [by rewrite Hm|]. rewrite Hm in H2. cbn in H2.
  unfold ccms_thread_lock_downgrade, ccms_thread_unlock_upgraded.
  rewrite H2, H3, !bool_decide_eq_true_2 by done. cbn [andb Z.eqb].
  split; apply release_good; try done; apply (holds_update c _ ms i m _ H Hi); rewrite ?Hm; word.
Qed.

(** A lock that does not block takes what the other would, and nothing else. *)
Lemma nonblock_eq st r : ccms_thread_lock_nonblock i c st = Some r -> r = ccms_thread_lock i c st.
Proof.
  unfold ccms_thread_lock_nonblock, ccms_thread_lock, lock_wait. destruct (owns i c); [by injection 1 as <-|].
  destruct st; [by injection 1 as <-| |].
  - destruct (_ || _); [done|]. destruct (bool_decide _); by injection 1 as <-.
  - destruct (_ || _); [done|]. by injection 1 as <-.
Qed.

Lemma nonblock_awake st c' : ccms_thread_lock_nonblock i c st <> Some (Sleeping c').
Proof.
  unfold ccms_thread_lock_nonblock. repeat case_match; congruence.
Qed.

Lemma op_good o r after sleeps : thread_op i c m o = Some (r, after, sleeps) -> good ms i r after sleeps.
Proof.
  intros E.
  assert (is_excl m = true -> forall st, ccms_thread_lock i c st = Finished (recurse c) CCMS_STATE_EXCLUSIVE false) as Hrec.
  { intros Em st. destruct (owner_facts Em) as (_ & _ & _ & Ho). unfold ccms_thread_lock. by rewrite Ho. }
  assert (is_excl m = true -> ccms_thread_lock_upgrade i c = Finished c CCMS_STATE_EXCLUSIVE false) as Hupg.
  { intros Em. destruct (owner_facts Em) as (H1 & H2 & H3 & _). unfold ccms_thread_lock_upgrade.
    rewrite H3, bool_decide_eq_true_2 by done. destruct (Z.ltb_spec (cst_count c) 0); [done|lia]. }
  assert (is_excl m = false -> forall st, ccms_thread_lock i c st = lock_wait i c st) as Hlw.
  { intros Em st. unfold ccms_thread_lock. by rewrite (other_facts Em). }
  assert (Hw := ho_wait _ _ H i). assert (Hsame := same_good).
  assert (Hlock := lock_wait_good). assert (Hup := upgrade_good). assert (Hupw := upgrade_wait_good).
  assert (Hdeep := deeper_good). assert (Hux := unlock_excl_good). assert (Hus := unlock_shared_good).
  assert (Hdown := downgrade_good).
  assert (forall st c', ccms_thread_lock_nonblock i c st = Some (Sleeping c') -> False) as Hnb
    by (intros st c'; apply nonblock_awake).
  destruct m as [| |n|n|st b|b] eqn:Em; destruct o; cbn [thread_op] in E; try done.
  - case_bool_decide; [done|]. injection E as <- <- <-. rewrite Hlw by done. auto.
  - case_bool_decide; [done|]. destruct (ccms_thread_lock_nonblock i c state) as [r'|] eqn:En; injection E as <- <- <-; [|auto].
    assert (Hg := Hlock state). assert (Er := nonblock_eq _ _ En). rewrite Hlw in Er by done. rewrite <- Er in Hg.
    destruct r' as [c' ? ?|c'|]; [|by destruct (Hnb state c')|]; by apply Hg; [left|].
  - injection E as <- <- <-. auto.
  - injection E as <- <- <-. auto.
  - injection E as <- <- <-. rewrite Hrec by done. auto.
  - destruct (ccms_thread_lock_nonblock i c state) as [r'|] eqn:En; injection E as <- <- <-; [|auto].
    assert (Er := nonblock_eq _ _ En). rewrite Hrec in Er by done. rewrite Er. auto.
  - injection E as <- <- <-. rewrite Hupg by done. auto.
  - injection E as <- <- <-. apply Hsame. done.
  - injection E as <- <- <-. by apply Hux.
  - injection E as <- <- <-. by apply Hux.
  - assert (E' : Some (ccms_thread_lock i c state, Upgraded (n + 1), Upgraded n) = Some (r, after, sleeps))
      by (destruct n as [|[]|]; exact E).
    injection E' as <- <- <-. rewrite Hrec by done. auto.
  - assert (E' : match ccms_thread_lock_nonblock i c state with
        | Some r => Some (r, Upgraded (n + 1), Upgraded n)
        | None => Some (Finished c CCMS_STATE_INVALID false, Upgraded n, Upgraded n)
        end = Some (r, after, sleeps)) by (destruct n as [|[]|]; exact E).
    destruct (ccms_thread_lock_nonblock i c state) as [r'|] eqn:En; injection E' as <- <- <-; [|auto].
    assert (Er := nonblock_eq _ _ En). rewrite Hrec in Er by done. rewrite Er. auto.
  - assert (E' : Some (ccms_thread_lock_upgrade i c, Upgraded n, Upgraded n) = Some (r, after, sleeps))
      by (destruct n as [|[]|]; exact E).
    injection E' as <- <- <-. rewrite Hupg by done. auto.
  - destruct n as [|[]|]; try done. injection E as <- <- <-. by apply Hdown.
  - destruct (Z.ltb_spec 1 n); [|by destruct n as [|[]|]].
    assert (E' : Some (ccms_thread_unlock i c, Upgraded (n - 1), Upgraded n) = Some (r, after, sleeps))
      by (destruct n as [|[]|]; done).
    injection E' as <- <- <-. apply Hux; [done|]. intros [=]. lia.
  - destruct n as [|[]|]; try done. injection E as <- <- <-. by apply Hdown.
  - by destruct n as [|[]|].
  - injection E as <- <- <-. apply Hlock; [by right; exists b|]. by apply (Hw st b).
  - injection E as <- <- <-. apply Hupw. by exists b.
Qed.
End Ops.

Lemma step_inv s i o r : lock_inv s -> ccms_step s i o = Some r ->
  exists s', r = Some s' /\ lock_inv s'.
Proof.
  intros [H Q] E. unfold ccms_step in E. destruct (ls_modes s !! i) as [m|] eqn:Hi; [|done].
  cbn [mbind option_bind] in E. destruct (thread_op i (ls_cst s) m o) as [[[r' after] sleeps]|] eqn:Eo; [|done].
  assert (G := op_good _ _ _ _ H Q Hi o _ _ _ Eo). injection E as <-. destruct r' as [c ret wakes|c|]; [| |done].
  - destruct G as [Gh Gq]. eexists. split; [done|]. split; cbn; destruct wakes; try done.
    + by apply holds_notify.
    + apply quiet_notify.
    + by destruct Gq.
  - destruct G as [Gh Gq]. by eexists.
Qed.

Lemma reach_inv s : lock_reach s -> lock_inv s.
Proof.
  induction 1 as [n|s i o s' _ IH E].
  - assert (forall f, f Idle = false -> countb f (replicate n Idle) = 0) as Hz.
    { intros f Hf. apply countb_none. intros x Hx. apply elem_of_replicate_inv in Hx. by subst. }
    split; constructor; cbn; rewrite ?Hz by done; try done.
    + intros i m Hm Em. apply lookup_replicate in Hm as [-> _]. done.
    + intros i st b Hm. apply lookup_replicate in Hm as [Hm _]. done.
  - destruct (step_inv _ _ _ _ IH E) as (s1 & [= <-] & Hs). done.
Qed.

(** A run of the lock by a list of calls. *)
Fixpoint lock_run (calls : list (nat * op)) (s : lock_state) : option lock_state :=
  match calls with
  | [] => Some s
  | (i, o) :: calls =>
      match ccms_step s i o with
      | Some (Some s) => lock_run calls s
      | _ => None
      end
  end.

Lemma lock_run_reach calls s s' : lock_reach s -> lock_run calls s = Some s' -> lock_reach s'.
Proof.
  revert s. induction calls as [|[i o] calls IH]; intros s Hs E; [by injection E as <-|]. cbn in E.
  destruct (ccms_step s i o) as [[s1|]|] eqn:Es; try done. apply (IH s1); [|done]. by apply (reach_step s i o).
Qed.

(** ** Properties *)

(** C19: the lock excludes.  In every state the threads can reach, while one of
    them has the lock exclusively, by a lock or an upgrade and however deep, no
    other thread has it at all, and the lock word names that thread. *)
Theorem ccms_exclusion s i j mi mj :
  lock_reach s -> ls_modes s !! i = Some mi -> ls_modes s !! j = Some mj -> i <> j -> is_excl mi = true ->
  is_excl mj = false /\ is_shared mj = false /\
  cst_td (ls_cst s) = Some i /\ cst_count (ls_cst s) = - depth_of mi.
Proof.
  intros [H _]%reach_inv Hi Hj Hij Ei. destruct (ho_owner _ _ H i mi Hi Ei) as (H1 & H2 & H3).
  split_and!; try done.
  - destruct (is_excl mj) eqn:Ej; [|done]. destruct (ho_owner _ _ H j mj Hj Ej) as (_ & _ & H3').
    rewrite H3 in H3'. by injection H3'.
  - destruct (is_shared mj) eqn:Ej; [|done]. assert (Hp := countb_pos is_shared _ j mj Hj Ej).
    rewrite (ho_shared _ _ H) in Hp. lia.
Qed.

(** Two shared holders upgrade; the second waits. *)
Definition two_upgraders : list (nat * op) :=
  [(0, Lock CCMS_STATE_SHARED); (1, Lock CCMS_STATE_SHARED); (0, Upgrade); (1, Upgrade)]%nat.

Lemma ccms_exclusion_witness :
  exists s, lock_run two_upgraders (lock_init 2) = Some s /\
    ls_modes s !! 1%nat = Some (Upgraded 1) /\ is_shared (WaitUpgrade false) = false /\
    cst_td (ls_cst s) = Some 1%nat.
Proof.
  eexists. split; [vm_compute; reflexivity|]. split; [reflexivity|].
  destruct (ccms_exclusion (mkLs (mkCst 2 (-1) true (Some 1%nat)) [WaitUpgrade false; Upgraded 1]) 1 0
    (Upgraded 1) (WaitUpgrade false)) as (_ & H1 & H2 & _);
    [|reflexivity|reflexivity|discriminate|reflexivity|exact (conj H1 H2)].
  apply (lock_run_reach two_upgraders (lock_init 2)); [apply reach_init|vm_compute; reflexivity].
Defined.

(** no assertion of the lock fails and no panic is reached, whatever the
    threads call, when each gives back what it took: a KKASSERT on [td] or
    [count], an unlock of a free lock, an upgrade of a lock that is not held. *)
Theorem ccms_never_panics s i o : lock_reach s -> ccms_step s i o <> Some None.
Proof. intros Hs%reach_inv E. by destruct (step_inv _ _ _ _ Hs E) as (s' & ? & _). Qed.

Lemma ccms_never_panics_witness :
  ccms_step (mkLs (mkCst 2 (-1) true (Some 1%nat)) [WaitUpgrade false; Upgraded 1]) 1 Downgrade <> Some None.
Proof.
  apply ccms_never_panics.
  apply (lock_run_reach two_upgraders (lock_init 2)); [apply reach_init|vm_compute; reflexivity].
Defined.

(** C27: waiting ends.  In a state where nobody has the lock, every upgrade that
    waits has been sent a wakeup and gets the lock when it looks; and when no
    upgrade waits, every thread that waits has been sent one and gets it. *)
Theorem ccms_free_grants s i m :
  lock_reach s -> cst_count (ls_cst s) = 0 -> ls_modes s !! i = Some m ->
  (forall b, m = WaitUpgrade b -> b = true /\
     exists s', ccms_step s i Retry = Some (Some s') /\ ls_modes s' !! i = Some (Upgraded 1)) /\
  (forall st b, m = WaitLock st b -> countb upgrading (ls_modes s) = 0 -> b = true /\
     exists s', ccms_step s i Retry = Some (Some s') /\ ls_modes s' !! i = Some (locked st)).
Proof.
  intros [H Q]%reach_inv Hc Hi. assert (Hlen := lookup_lt_Some _ _ _ Hi). unfold ccms_step. rewrite Hi.
  cbn [mbind option_bind]. split.
  - intros b ->. split.
    + destruct b; [done|]. assert (Hp := countb_pos asleep_upgrade _ i _ Hi eq_refl).
      rewrite (qu_free _ _ Q Hc) in Hp. lia.
    + cbn. unfold upgrade_wait. rewrite Hc. eexists. split; [done|]. cbn. by rewrite list_lookup_insert_eq.
  - intros st b -> Hu. rewrite <- (ho_upgrade _ _ H) in Hu. split.
    + destruct b; [done|]. assert (Hp := countb_pos asleep _ i _ Hi eq_refl).
      rewrite (qu_idle _ _ Q Hc Hu) in Hp. lia.
    + cbn. unfold lock_wait. rewrite Hc, Hu, (ho_td _ _ H) by lia.
      assert (Hst := ho_wait _ _ H i st b Hi). destruct st; [done| |]; cbn;
        (eexists; split; [done|]; cbn; by rewrite list_lookup_insert_eq).
Qed.

(** The first upgrader of two, once the second has given the lock back. *)
Definition upgrader_left : list (nat * op) := two_upgraders ++ [(1, UnlockUpgraded)]%nat.

Lemma ccms_free_grants_witness :
  exists s s', lock_run upgrader_left (lock_init 2) = Some s /\
    ccms_step s 0 Retry = Some (Some s') /\ ls_modes s' !! 0%nat = Some (Upgraded 1).
Proof.
  eexists. destruct (ccms_free_grants (mkLs (mkCst 1 0 false None) [WaitUpgrade true; Idle]) 0 (WaitUpgrade true))
    as [H _]; [|reflexivity|reflexivity|].
  - apply (lock_run_reach upgrader_left (lock_init 2)); [apply reach_init|vm_compute; reflexivity].
  - destruct (H true eq_refl) as (_ & s' & H1 & H2). exists s'.
    split; [vm_compute; reflexivity|]. split; [exact H1|exact H2].
Defined.

(** An upgrade bars newcomers.  While an upgrade waits or has the lock, a
    thread without the lock that asks for it, shared or exclusive, waits, and
    one that asks without blocking gets nothing. *)
Theorem ccms_upgrade_bars s i j m st :
  lock_reach s -> ls_modes s !! j = Some m -> upgrading m = true -> ls_modes s !! i = Some Idle ->
  st <> CCMS_STATE_INVALID ->
  (exists s', ccms_step s i (Lock st) = Some (Some s') /\ ls_modes s' !! i = Some (WaitLock st false)) /\
  (exists s', ccms_step s i (LockNonblock st) = Some (Some s') /\ ls_modes s' = ls_modes s).
Proof.
  intros [H Q]%reach_inv Hj Hu Hi Hst. assert (Hlen := lookup_lt_Some _ _ _ Hi).
  assert (Hp := countb_pos upgrading _ j m Hj Hu). rewrite <- (ho_upgrade _ _ H) in Hp.
  assert (Ho := other_facts _ _ _ _ H Hi eq_refl).
  assert (nz (cst_upgrade (ls_cst s)) = true) as Hnz by (destruct (nz_spec (cst_upgrade (ls_cst s))); [done|lia]).
  unfold ccms_step. rewrite Hi. cbn [mbind option_bind thread_op].
  rewrite bool_decide_eq_false_2 by done.
  unfold ccms_thread_lock, ccms_thread_lock_nonblock, lock_wait. rewrite Ho, Hnz.
  split; destruct st; try done; rewrite orb_true_r; eexists; (split; [done|]); cbn;
    by rewrite ?list_lookup_insert_eq, ?list_insert_id.
Qed.

Lemma ccms_upgrade_bars_witness :
  exists s s', lock_run two_upgraders (lock_init 3) = Some s /\
    ccms_step s 2 (Lock CCMS_STATE_SHARED) = Some (Some s') /\
    ls_modes s' !! 2%nat = Some (WaitLock CCMS_STATE_SHARED false).
Proof.
  eexists. destruct (ccms_upgrade_bars (mkLs (mkCst 2 (-1) true (Some 1%nat)) [WaitUpgrade false; Upgraded 1; Idle])
    2 1 (Upgraded 1) CCMS_STATE_SHARED) as [(s' & H1 & H2) _];
    [|reflexivity|reflexivity|reflexivity|discriminate|].
  - apply (lock_run_reach two_upgraders (lock_init 3)); [apply reach_init|vm_compute; reflexivity].
  - exists s'. split; [vm_compute; reflexivity|]. split; [exact H1|exact H2].
Defined.
